(* ===== verification/_CoqProject ===== *)
-Q . S2P
Prelude.v
Wire.v
State.v
Command.v
Sched.v
Armcm.v
Basecmd.v
Stepper.v
Trsync.v
Endstop.v
Dispatch.v
Gpiocmds.v
Pwmcmds.v
Adccmds.v
Double.v
Rounding.v
Spi.v
Tmcuart.v
Fancheck.v
Buttons.v
Counter.v
Thermocouple.v
Lis2dw.v
Mainloop.v
Quiet.v
Halting.v
Stopping.v
Shutdown.v
Pollreactor.v
Msgblock.v
Msgproto.v
Stepcompress.v
Serialqueue.v
Link.v
Steppersync.v
Trdispatch.v
Trapq.v
Itersolve.v
Toolhead.v
Motion.v
