(* ===== verification/Prelude.v ===== *)
(** * A verification of the k2-unleashed printer firmware and its host link

    The program is a 3D printer controller in two halves.  The firmware
    ([src/src], C) runs on micro-controllers: a scheduler runs timers from an
    interrupt and tasks from a main loop; commands received over a serial line
    configure objects (steppers, end stops, outputs, sensors), which then act
    from timers and report through tasks.  The host ([src/klippy], Python and C)
    plans motion, turns it into step times, compresses them into commands and
    delivers these over the link, in time and in order.

    ** Conventions

    Integers are [Z] with the casts [u8] ... [s64] written where C has them.
    Stateful code is a function of the monad [M S A := S -> res A * S]:
    [Ok] a result, [Shut] the firmware's [shutdown] (a [longjmp]) or an [error]
    raised by Python code, [Fault] what C leaves undefined (or another Python
    exception), [OutOfFuel] a loop cut short.  [FW] is that monad over the
    firmware state [mcu] of [State].  A pointer is a name: an object is its oid,
    a timer the object it is embedded in, a node of the move pool its index.
    What is not in the sources is a parameter: the class [Board] holds the
    clock, the pins, converters and busses as functions of time, the build
    options and the tables generated by the build.  [double]s are the IEEE-754
    numbers of the Standard Library ([Double]).

    ** Files and sources

    - [Prelude]: the monad, its reasoning rules ([keeps], [preserves],
      [returns], [ends]), record updates, generic lemmas.
    - [Wire]: [generic/crc16_ccitt.c] and the integer coding of [command.c].
    - [State]: structs and static variables of the firmware, [Board].
    - [Command], [Dispatch]: [command.c] and [generic/serial_irq.c], sending and
      framing, block recognition, parsing and routing of commands.
    - [Sched], [Armcm], [Mainloop]: [sched.c], [generic/timer_irq.c],
      [generic/armcm_timer.c]: the timer list, the timer interrupt, the task
      loop with interrupts between any two of its accesses.
    - [Basecmd]: [basecmd.c], memory, move pool, oid table, [identify].
    - [Stepper], [Trsync], [Endstop]: [stepper.c], [trsync.c], [endstop.c].
    - [Gpiocmds], [Pwmcmds], [Adccmds], [Spi], [Tmcuart], [Fancheck], [Buttons],
      [Counter], [Thermocouple], [Lis2dw]: the devices, one source file each
      ([Spi] also [spi_software.c], [Buttons] also the handler of its reports in
      [klippy/extras/buttons.py]).
    - [Quiet], [Halting], [Stopping], [Shutdown]: [run_shutdown] with the
      shutdown functions of all components.
    - [Double]: floating point; [Rounding]: what its operations guarantee.
    - [Pollreactor], [Msgblock], [Stepcompress], [Serialqueue], [Steppersync],
      [Trdispatch], [Trapq], [Itersolve]: the C half of the host,
      [klippy/chelper/*.c] of these names ([stepcompress.c] is split in two,
      [Itersolve] also holds the kinematics [kin_cartesian.c], [kin_corexy.c]
      and [kin_extruder.c], which the solver calls).
    - [Msgproto]: [klippy/msgproto.py], the message formats of the Python host.
    - [Link]: the host's serial queue and the firmware's receiver over a line
      that loses blocks.

    ** What is proved

    - The emergency stop: from any state, whatever the order of the shutdown
      functions, every stepper is stopped, every output at its default, every
      move node free, and the first reason is reported ([Shutdown]).
    - The link: over a lossy line payloads are executed in order and exactly
      once ([Link]); blocks, integers and checksums of both sides agree
      ([Wire], [Command], [Dispatch], [Msgproto]): what the Python host encodes
      is what the handlers get, and what the firmware sends is what the host
      reads; parsing stays inside the block, the receive buffer loses no byte
      to the interrupt.
    - Time: the timer list refines a queue sorted by absolute time under
      wrap-around, the interrupt returns in bounded time or shuts down, a task
      that is woken runs within two rounds of the main loop.
    - Motion, from plan to pulse: the host's queue of moves loses no motion
      ([Trapq]); the solver searches every move of a stepper in every flush, and
      submits steps in order, within the move and the flush, each where the
      position reaches the step ([Itersolve], in IEEE arithmetic); the
      compressor emits sequences that reproduce the requested step times within
      the allowed error; [steppersync] never needs more slots than the
      micro-controller has; a stepper executes the plan its queue describes, at
      the planned ticks.
    - Homing: end stop oversampling, triggers reach every stepper and every
      micro-controller, timeouts are only extended on confirmation.
    - Devices: watchdog of outputs, PWM and analog timing, SPI and UART
      waveforms, fan speed, button and accelerometer reports delivered in order
      without loss, thermocouple limits.
    - Memory: allocations are disjoint, the move pool implements FIFO queues.

    ** Fuel

    Loops over linked structures and loops bounded only by data take fuel.  In
    the firmware it is the number of timers, objects or pool nodes plus one,
    taken from the state when the loop starts; in [Armcm] it is a bound in
    ticks; on the host it is the length of the queue or buffer.  The theorems
    named termination, refinement or functional prove that the fuel is enough
    under their invariant: their conclusion is a run that returns.  The secant
    search of [Itersolve] has no bound in the code, since it depends on the
    position callback: its fuel is an argument, the soundness of the steps holds
    for every fuel, also when the search is cut short, and the walk over the
    moves is proved to end whenever the searches do.

    ** Not modelled

    Register access and inline assembly (board directories, [armcm_irq.c] but
    for [irq_poll]) are parameters.  CAN and USB are alternative transports to
    the serial line.  [neopixel.c] and the display drivers are loops timed in
    processor cycles.  [debugcmds.c] reads and writes raw memory.  The object
    files without source ([prtouch], [z_align]) cannot be read; their task is a
    parameter of the main loop.  [poll], [read] and [write] of the host are
    arguments or logs.  Of [msgproto.py] the text form of commands and the
    compressed JSON dictionary are left out: the dictionary's tables are
    arguments.  Look-ahead and g-code of the host work on dynamic Python objects
    and are not modelled; of the kinematics, those of other machines and the
    input shaper are left out. *)

(** * Prelude: shared vocabulary of the development *)

From Stdlib Require Export ZArith Lia String Btauto.
From stdpp Require Export base tactics functions list strings gmap fin_maps sorting.

#[global] Open Scope Z_scope.

(** ** C integers

    Every machine integer of the source is a [Z]; a store into a variable of
    width [w] is written with the cast of that width.  [sN] is the value read
    back as a signed integer. *)

Definition u8 (x : Z) : Z := x mod 2 ^ 8.
Definition u16 (x : Z) : Z := x mod 2 ^ 16.
Definition u32 (x : Z) : Z := x mod 2 ^ 32.
Definition u64 (x : Z) : Z := x mod 2 ^ 64.
Definition s8 (x : Z) : Z := (x + 2 ^ 7) mod 2 ^ 8 - 2 ^ 7.
Definition s16 (x : Z) : Z := (x + 2 ^ 15) mod 2 ^ 16 - 2 ^ 15.
Definition s32 (x : Z) : Z := (x + 2 ^ 31) mod 2 ^ 32 - 2 ^ 31.
Definition s64 (x : Z) : Z := (x + 2 ^ 63) mod 2 ^ 64 - 2 ^ 63.

Definition is_u8 (x : Z) : Prop := 0 <= x < 2 ^ 8.
Definition is_u16 (x : Z) : Prop := 0 <= x < 2 ^ 16.
Definition is_u32 (x : Z) : Prop := 0 <= x < 2 ^ 32.
Definition is_u64 (x : Z) : Prop := 0 <= x < 2 ^ 64.

#[export] Instance is_u8_dec x : Decision (is_u8 x).
Proof. unfold is_u8. apply _. Defined.
#[export] Instance is_u32_dec x : Decision (is_u32 x).
Proof. unfold is_u32. apply _. Defined.

(** Decide a closed proposition by evaluation. *)
Ltac vm_decide := apply (bool_decide_unpack _); vm_compute; exact I.

(** Truth of a C condition, and a C boolean as an integer. *)
Definition truth (x : Z) : bool := negb (x =? 0).
Definition b2z (b : bool) : Z := if b then 1 else 0.

(** [has x m] is the C test [x & m] used as a condition; [clr x m] is
    [x & ~m]. *)
Definition has (x m : Z) : bool := truth (Z.land x m).
Definition clr (x m : Z) : Z := Z.ldiff x m.

Ltac cast_unfold :=
  unfold is_u8, is_u16, is_u32, is_u64, u8, u16, u32, u64, s8, s16, s32, s64 in *;
  change (2 ^ 7) with 128 in *; change (2 ^ 8) with 256 in *;
  change (2 ^ 15) with 32768 in *; change (2 ^ 16) with 65536 in *;
  change (2 ^ 31) with 2147483648 in *; change (2 ^ 32) with 4294967296 in *;
  change (2 ^ 63) with 9223372036854775808 in *;
  change (2 ^ 64) with 18446744073709551616 in *.

(** Linear arithmetic modulo the widths. *)
Ltac cint_lia := cast_unfold; Z.div_mod_to_equations; lia.

Create HintDb cint discriminated.
Create Rewrite HintDb cint_rw.
Create Rewrite HintDb wrap32.

Lemma u8_range x : is_u8 (u8 x). Proof. cint_lia. Qed.
Lemma u16_range x : is_u16 (u16 x). Proof. cint_lia. Qed.
Lemma u32_range x : is_u32 (u32 x). Proof. cint_lia. Qed.
Lemma u64_range x : is_u64 (u64 x). Proof. cint_lia. Qed.
Lemma u8_small x : is_u8 x -> u8 x = x. Proof. cint_lia. Qed.
Lemma u16_small x : is_u16 x -> u16 x = x. Proof. cint_lia. Qed.
Lemma u32_small x : is_u32 x -> u32 x = x. Proof. cint_lia. Qed.
Lemma u64_small x : is_u64 x -> u64 x = x. Proof. cint_lia. Qed.
Lemma s32_range x : - 2 ^ 31 <= s32 x < 2 ^ 31. Proof. cint_lia. Qed.
Lemma s32_u32 x : s32 (u32 x) = s32 x. Proof. cint_lia. Qed.
Lemma s32_small x : - 2 ^ 31 <= x < 2 ^ 31 -> s32 x = x. Proof. cint_lia. Qed.
Lemma u32_s32 x : u32 (s32 x) = u32 x. Proof. cint_lia. Qed.

#[export] Hint Resolve u8_range u16_range u32_range u64_range : cint.
#[export] Hint Rewrite u8_small u16_small u32_small u64_small using (solve [auto with cint | cint_lia]) : cint_rw.

Lemma u32_add_l x y : u32 (u32 x + y) = u32 (x + y). Proof. cint_lia. Qed.
Lemma u32_add_r x y : u32 (x + u32 y) = u32 (x + y). Proof. cint_lia. Qed.
Lemma u32_sub_l x y : u32 (u32 x - y) = u32 (x - y). Proof. cint_lia. Qed.
Lemma u32_sub_r x y : u32 (x - u32 y) = u32 (x - y). Proof. cint_lia. Qed.
Lemma u32_idemp x : u32 (u32 x) = u32 x. Proof. cint_lia. Qed.

(** Modular bookkeeping of 32-bit sums: push every cast to the outside. *)
#[export] Hint Rewrite u32_add_l u32_add_r u32_sub_l u32_sub_r u32_idemp : wrap32.

(** ** Bitwise reasoning *)

Lemma testbit_above w x i : 0 <= x < 2 ^ w -> 0 <= w <= i -> Z.testbit x i = false.
Proof.
  intros Hx Hi. rewrite <- (Z.mod_small x (2 ^ w)) by lia.
  apply Z.mod_pow2_bits_high; lia.
Qed.

(** A byte is its eight bits. *)
Lemma testbit_u8 x k : 0 <= k < 8 -> Z.testbit (u8 x) k = Z.testbit x k.
Proof. intros Hk. unfold u8. apply (Z.mod_pow2_bits_low x 8 k). lia. Qed.

Lemma byte_bits_inj x y : is_u8 x -> is_u8 y -> (forall k, 0 <= k < 8 -> Z.testbit x k = Z.testbit y k) -> x = y.
Proof.
  intros Hx Hy H. apply Z.bits_inj'. intros k Hk. destruct (Z.lt_ge_cases k 8); [by apply H |].
  unfold is_u8 in *. by rewrite !(testbit_above 8) by lia.
Qed.

Lemma land_u8 x y : is_u8 y -> is_u8 (Z.land x y).
Proof.
  intros Hy. rewrite <- (u8_small y Hy). unfold u8. change (2 ^ 8) with (2 ^ 8).
  rewrite <- (Z.land_ones y 8), Z.land_assoc, Z.land_ones by lia. apply u8_range.
Qed.

(** Setting a bit above all that are set. *)
Lemma lor_bit x i : 0 <= x < 2 ^ i -> 0 <= i -> 0 <= Z.lor x (2 ^ i) < 2 ^ (i + 1).
Proof.
  intros Hx Hi. rewrite Z.pow_add_r by lia.
  rewrite <- Z.lxor_lor, <- Z.add_nocarry_lxor; [lia | |]; apply Z.bits_inj_0; intros k;
    rewrite Z.land_spec, Z.pow2_bits_eqb by lia; destruct (Z.eqb_spec i k) as [<- | ?]; rewrite ?andb_false_r; try done;
    by rewrite (testbit_above i) by lia.
Qed.

Lemma testbit_lor_bit x i j : 0 <= i -> Z.testbit (Z.lor x (2 ^ i)) j = if decide (j = i) then true else Z.testbit x j.
Proof.
  intros Hi. rewrite Z.lor_spec, Z.pow2_bits_eqb by lia. destruct (Z.eqb_spec i j) as [-> | ?].
  - by rewrite decide_True, orb_true_r.
  - by rewrite decide_False, orb_false_r by congruence.
Qed.

Lemma land_ones_mod x w : 0 <= w -> Z.land x (Z.ones w) = x mod 2 ^ w.
Proof. apply Z.land_ones. Qed.

Lemma lor_disjoint_add x y : Z.land x y = 0 -> Z.lor x y = x + y.
Proof. intros H. pose proof (Z.add_lor_land x y). lia. Qed.

(** A number below [2^w] and a multiple of [2^w] have no bit in common. *)
Lemma lor_shift_add lo hi w :
  0 <= w -> 0 <= lo < 2 ^ w -> Z.lor (Z.shiftl hi w) lo = hi * 2 ^ w + lo.
Proof.
  intros Hw Hlo. rewrite lor_disjoint_add, Z.shiftl_mul_pow2; [done | done |].
  apply Z.bits_inj'. intros i Hi. rewrite Z.land_spec, Z.bits_0.
  destruct (decide (i < w)).
  - rewrite Z.shiftl_spec, (Z.testbit_neg_r hi) by lia. done.
  - rewrite (testbit_above w lo) by lia. apply andb_false_r.
Qed.

(** *** Flags *)

(** Setting the bit above a number. *)
Lemma lor_pow2 x i : 0 <= i -> 0 <= x < 2 ^ i -> Z.lor x (2 ^ i) = x + 2 ^ i.
Proof.
  intros Hi Hx. rewrite <- Z.lxor_lor, <- Z.add_nocarry_lxor; [done | |].
  all: apply Z.bits_inj_0; intros k; rewrite Z.land_spec, Z.pow2_bits_eqb by lia;
    destruct (Z.eqb_spec i k) as [<- |]; rewrite ?andb_false_r, ?(testbit_above i x i) by lia; done.
Qed.

Lemma has_lor_same x m : m <> 0 -> has (Z.lor x m) m = true.
Proof.
  intros Hm. unfold has, truth. apply negb_true_iff, Z.eqb_neq. intros H. apply Hm.
  rewrite <- H. symmetry. apply Z.bits_inj'. intros i Hi. rewrite Z.land_spec, Z.lor_spec.
  by destruct (Z.testbit x i), (Z.testbit m i).
Qed.

Lemma has_lor_l x y m : has x m = true -> has (Z.lor x y) m = true.
Proof.
  unfold has, truth. rewrite !negb_true_iff, !Z.eqb_neq, Z.land_lor_distr_l. intros H E.
  apply Z.lor_eq_0_iff in E. tauto.
Qed.

Lemma has_clr_other x m m' : Z.land m m' = 0 -> has (clr x m) m' = has x m'.
Proof.
  intros H. unfold has, clr. f_equal. apply Z.bits_inj'. intros i Hi.
  assert (E : Z.testbit (Z.land m m') i = false) by (by rewrite H, Z.bits_0).
  rewrite Z.land_spec in E. rewrite !Z.land_spec, Z.ldiff_spec.
  destruct (Z.testbit m i), (Z.testbit m' i); try done; by rewrite ?andb_true_r, ?andb_false_r.
Qed.

Lemma has_clr_same x m : has (clr x m) m = false.
Proof.
  unfold has, clr, truth. apply negb_false_iff, Z.eqb_eq, Z.bits_inj'. intros i Hi.
  rewrite Z.land_spec, Z.ldiff_spec, Z.bits_0. by destruct (Z.testbit m i), (Z.testbit x i).
Qed.

Lemma has_lor_other x m m' : Z.land m m' = 0 -> has (Z.lor x m) m' = has x m'.
Proof.
  intros H. unfold has. f_equal. by rewrite Z.land_lor_distr_l, H, Z.lor_0_r.
Qed.

(** ** Record update

    [upd f g r] is [r] with the field read by the projection [f] replaced by
    its image under [g].  A record type declares how it is rebuilt from its
    projections ([Eta]); the updater of each projection is then found by
    instance search. *)

Class Eta (R : Type) := eta : R -> R.

Class Updater {R E : Type} (f : R -> E) := upd_fun : (E -> E) -> R -> R.

#[global] Typeclasses Opaque Eta Updater.

Definition upd {R E : Type} (f : R -> E) {U : Updater f} (g : E -> E) (r : R) : R :=
  upd_fun g r.

Ltac build_updater :=
  lazymatch goal with
  | |- @Updater ?R ?E ?f =>
      let inst := constr:(_ : Eta R) in
      let body := eval hnf in inst in
      exact (fun (g : E -> E) (r : R) =>
        ltac:(let whole := eval cbv beta in (body r) in
              lazymatch eval pattern (f r) in whole with
              | ?P _ => let t := eval cbv beta in (P (g (f r))) in exact t
              end))
  end.

#[export] Hint Extern 1 (Updater _) => build_updater : typeclass_instances.

#[global] Arguments upd {R E} f {U} g r /.
#[global] Arguments upd_fun {R E} f {Updater} _ _ /.

Declare Scope record_scope.
Notation "r <| f := v |>" := (upd f (fun _ => v) r)
  (at level 1, left associativity, f at level 9, format "r  <| f  :=  v |>") : record_scope.
Notation "r <| f ::= g |>" := (upd f g r)
  (at level 1, left associativity, f at level 9, format "r  <| f  ::=  g |>") : record_scope.
#[global] Open Scope record_scope.

(** ** Results and the firmware monad

    A C function either returns, leaves through [shutdown()] (a [longjmp] to
    the shutdown handler with a reason string), or performs an access the C
    standard leaves undefined (a [Fault]: a read or a write outside an object,
    a NULL dereference).  Loops whose C text has no structural bound carry a
    fuel argument and report [OutOfFuel]; the theorems say which fuel is
    enough. *)

Inductive res (A : Type) : Type :=
| Ok (a : A)
| Shut (reason : string)
| Fault (what : string)
| OutOfFuel.
#[global] Arguments Ok {A} a.
#[global] Arguments Shut {A} reason.
#[global] Arguments Fault {A} what.
#[global] Arguments OutOfFuel {A}.

#[export] Instance res_ret : MRet res := fun A a => Ok a.
#[export] Instance res_bind : MBind res := fun A B f r =>
  match r with
  | Ok a => f a
  | Shut e => Shut e
  | Fault w => Fault w
  | OutOfFuel => OutOfFuel
  end.

(** [rsat Q r]: the computation ends, and if it ends normally its value
    satisfies [Q]; it may fault. *)
Definition rsat {A : Type} (Q : A -> Prop) (r : res A) : Prop :=
  match r with Ok a => Q a | Fault _ => True | Shut _ | OutOfFuel => False end.

Lemma rsat_bind {A C : Type} (P : A -> Prop) (Q : C -> Prop) (m : res A) (k : A -> res C) :
  rsat P m -> (forall a, P a -> rsat Q (k a)) -> rsat Q (m ≫= k).
Proof. destruct m; simpl; auto; done. Qed.

Lemma rsat_mono {A : Type} (P Q : A -> Prop) r : rsat P r -> (forall a, P a -> Q a) -> rsat Q r.
Proof. destruct r; simpl; auto. Qed.

Lemma rsat_if {A : Type} (Q : A -> Prop) (b : bool) (x y : res A) :
  (b = true -> rsat Q x) -> (b = false -> rsat Q y) -> rsat Q (if b then x else y).
Proof. destruct b; auto. Qed.

(** State over [S]: the state at the point of a shutdown or fault is kept, as
    a [longjmp] keeps the memory it leaves behind. *)
Definition M (S A : Type) : Type := S -> res A * S.

#[export] Instance M_ret {S} : MRet (M S) := fun A a s => (Ok a, s).
#[export] Instance M_bind {S} : MBind (M S) := fun A B f m s =>
  match m s with
  | (Ok a, s') => f a s'
  | (Shut e, s') => (Shut e, s')
  | (Fault w, s') => (Fault w, s')
  | (OutOfFuel, s') => (OutOfFuel, s')
  end.

Definition gets {S A : Type} (f : S -> A) : M S A := fun s => (Ok (f s), s).
Definition modify {S : Type} (f : S -> S) : M S unit := fun s => (Ok tt, f s).
Definition shutdown {S A : Type} (reason : string) : M S A := fun s => (Shut reason, s).
Definition fault {S A : Type} (what : string) : M S A := fun s => (Fault what, s).
Definition lift_res {S A : Type} (r : res A) : M S A := fun s => (r, s).
Definition when {S : Type} (b : bool) (m : M S unit) : M S unit :=
  if b then m else mret tt.

(** A read that may miss: [None] is an access outside the object. *)
Definition deref {S A : Type} (what : string) (o : option A) : M S A :=
  match o with Some a => mret a | None => fault what end.

(** Equations of the monad, oriented for symbolic execution from the left. *)
Section Equations.
Context {S A C D : Type}.
Implicit Types (s : S) (k : A -> M S C).

Lemma bind_ret (a : A) k s : ((mret a : M S A) ≫= k) s = k a s.
Proof. done. Qed.
Lemma bind_gets (f : S -> A) k s : (gets f ≫= k) s = k (f s) s.
Proof. done. Qed.
Lemma bind_modify (f : S -> S) (k : unit -> M S C) s : (modify f ≫= k) s = k tt (f s).
Proof. done. Qed.
Lemma bind_shutdown e k s : (shutdown e ≫= k) s = (Shut e, s).
Proof. done. Qed.
Lemma bind_fault w k s : (fault w ≫= k) s = (Fault w, s).
Proof. done. Qed.
Lemma bind_deref w (a : A) k s : (deref w (Some a) ≫= k) s = k a s.
Proof. done. Qed.
Lemma bind_lift (a : A) k s : (lift_res (Ok a) ≫= k) s = k a s.
Proof. done. Qed.
Lemma bind_assoc (m : M S A) (f : A -> M S C) (g : C -> M S D) s :
  ((m ≫= f) ≫= g) s = (m ≫= fun a => f a ≫= g) s.
Proof. unfold mbind, M_bind. by destruct (m s) as [[] ?]. Qed.
Lemma bind_ok (m : M S A) k s a s' : m s = (Ok a, s') -> (m ≫= k) s = k a s'.
Proof. unfold mbind, M_bind. by intros ->. Qed.
Lemma bind_shut (m : M S A) k s e s' : m s = (Shut e, s') -> (m ≫= k) s = (Shut e, s').
Proof. unfold mbind, M_bind. by intros ->. Qed.
Lemma ret_run (a : A) s : (mret a : M S A) s = (Ok a, s).
Proof. done. Qed.
Lemma modify_run (f : S -> S) s : modify f s = (Ok tt, f s).
Proof. done. Qed.

(** Inversion of a bind that returned. *)
Lemma bind_inv (m : M S A) k s c s' :
  (m ≫= k) s = (Ok c, s') -> exists a s1, m s = (Ok a, s1) /\ k a s1 = (Ok c, s').
Proof. unfold mbind, M_bind. destruct (m s) as [[] ?] eqn:E; intros H; try done. eauto. Qed.
End Equations.

(** [ends m s]: the run of [m] from [s] does not run out of fuel. *)
Definition ends {S A : Type} (m : M S A) (s : S) : Prop := (m s).1 <> OutOfFuel.

Lemma ends_bind {S A C : Type} (m : M S A) (k : A -> M S C) s :
  ends m s -> (forall a s', m s = (Ok a, s') -> ends (k a) s') -> ends (m ≫= k) s.
Proof.
  unfold ends, mbind, M_bind. destruct (m s) as [[] s']; simpl; intros H Hk; try done. by apply Hk.
Qed.

Lemma ends_lift {S A : Type} (Q : A -> Prop) (r : res A) (s : S) : rsat Q r -> ends (lift_res r) s.
Proof. unfold ends, lift_res. by destruct r. Qed.

(** Symbolic execution of a monadic term. *)
Ltac mstep :=
  first [ rewrite bind_ret | rewrite bind_gets | rewrite bind_modify | rewrite bind_deref
        | rewrite bind_lift | rewrite bind_assoc | rewrite bind_shutdown | rewrite bind_fault
        | rewrite ret_run | rewrite modify_run ]; cbv beta iota.
Ltac msimpl := cbv beta iota zeta; unfold when; repeat mstep.

(** ** Frames

    [keeps f m]: running [m] leaves the part of the state read by [f] as it
    was, however the run ends. *)
Definition keeps {S A C : Type} (f : S -> C) (m : M S A) : Prop := forall s, f (m s).2 = f s.

Create HintDb keeps discriminated.

Section Keeps.
Context {S C : Type} (f : S -> C).

Lemma keeps_ret {A} (a : A) : keeps f (mret a).
Proof. done. Qed.
Lemma keeps_gets {A} (g : S -> A) : keeps f (gets g).
Proof. done. Qed.
Lemma keeps_modify (g : S -> S) : (forall s, f (g s) = f s) -> keeps f (modify g).
Proof. intros H s. apply H. Qed.
Lemma keeps_shutdown {A} e : keeps f (shutdown e : M S A).
Proof. done. Qed.
Lemma keeps_fault {A} e : keeps f (fault e : M S A).
Proof. done. Qed.
Lemma keeps_lift {A} (r : res A) : keeps f (lift_res r).
Proof. done. Qed.
Lemma keeps_deref {A} w (o : option A) : keeps f (deref w o).
Proof. by destruct o. Qed.
Lemma keeps_bind {A D} (m : M S A) (k : A -> M S D) :
  keeps f m -> (forall a, keeps f (k a)) -> keeps f (m ≫= k).
Proof.
  intros Hm Hk s. unfold mbind, M_bind. specialize (Hm s). destruct (m s) as [[] s']; simpl in *; try done.
  by rewrite Hk.
Qed.
Lemma keeps_when b (m : M S unit) : keeps f m -> keeps f (when b m).
Proof. by destruct b. Qed.

(** The run of a framed computation. *)
Lemma keeps_run {A} (m : M S A) s r s' : keeps f m -> m s = (r, s') -> f s' = f s.
Proof. intros H E. specialize (H s). by rewrite E in H. Qed.
End Keeps.

#[export] Hint Resolve keeps_ret keeps_gets keeps_shutdown keeps_fault keeps_lift keeps_deref keeps_when : keeps.

(** Frame proofs follow the syntax of the computation. *)
Ltac keeps_step :=
  first
    [ solve [eauto 2 with keeps]
    | apply keeps_modify; intros; reflexivity
    | apply keeps_bind; [| intros ?]
    | apply keeps_when
    | match goal with |- keeps _ (match ?x with _ => _ end) => destruct x end
    | match goal with |- keeps _ (let '(_, _) := ?x in _) => destruct x end ].
Ltac keeps_tac := intros; repeat (cbv zeta; keeps_step).

(** [kept f H E]: from a run [H : m s = (r, s')] of a computation that keeps
    [f], the equation [E : f s' = f s]. *)
Ltac kept f H E :=
  lazymatch type of H with
  | ?m ?s = (_, ?s') =>
      assert (E : f s' = f s) by (refine (keeps_run f m s _ s' _ H); solve [keeps_tac])
  end.

(** ** Invariants

    [preserves P m Q]: from a state with [P] the run of [m] ends in a state with
    [P], however it ends, and a value it returns satisfies [Q]. *)
Definition preserves {S A : Type} (P : S -> Prop) (m : M S A) (Q : A -> Prop) : Prop :=
  forall s, P s -> P (m s).2 /\ forall a, (m s).1 = Ok a -> Q a.

Create HintDb preserves discriminated.

Section Preserves.
Context {S : Type} (P : S -> Prop).

Lemma preserves_ret {A} (a : A) (Q : A -> Prop) : Q a -> preserves P (mret a) Q.
Proof. intros H s Hs. split; [done |]. by intros ? [= <-]. Qed.
Lemma preserves_gets {A} (g : S -> A) (Q : A -> Prop) : (forall s, P s -> Q (g s)) -> preserves P (gets g) Q.
Proof. intros H s Hs. split; [done |]. intros ? [= <-]. by apply H. Qed.
Lemma preserves_modify (g : S -> S) (Q : unit -> Prop) :
  Q tt -> (forall s, P s -> P (g s)) -> preserves P (modify g) Q.
Proof. intros HQ H s Hs. split; [by apply H |]. by intros [] _. Qed.
Lemma preserves_fault {A} e (Q : A -> Prop) : preserves P (fault e : M S A) Q.
Proof. by intros s Hs. Qed.
Lemma preserves_shutdown {A} e (Q : A -> Prop) : preserves P (shutdown e : M S A) Q.
Proof. by intros s Hs. Qed.
Lemma preserves_lift {A} (r : res A) (Q : A -> Prop) :
  (forall a, r = Ok a -> Q a) -> preserves P (lift_res r) Q.
Proof. intros H s Hs. split; [done |]. exact H. Qed.
Lemma preserves_deref {A} w (o : option A) (Q : A -> Prop) :
  (forall a, o = Some a -> Q a) -> preserves P (deref w o) Q.
Proof. intros H. destruct o; [by apply preserves_ret, H | apply preserves_fault]. Qed.
Lemma preserves_bind {A D} (R : A -> Prop) (m : M S A) (k : A -> M S D) (Q : D -> Prop) :
  preserves P m R -> (forall a, R a -> preserves P (k a) Q) -> preserves P (m ≫= k) Q.
Proof.
  intros Hm Hk s Hs. unfold mbind, M_bind. destruct (Hm s Hs) as [H1 H2].
  destruct (m s) as [[a | | |] s']; simpl in *; try (split; [done | by intros]).
  apply Hk; [by apply H2 | done].
Qed.
Lemma preserves_if {A} (b : bool) (m m' : M S A) (Q : A -> Prop) :
  (b = true -> preserves P m Q) -> (b = false -> preserves P m' Q) -> preserves P (if b then m else m') Q.
Proof. destruct b; auto. Qed.
Lemma preserves_when b (m : M S unit) : preserves P m (fun _ => True) -> preserves P (when b m) (fun _ => True).
Proof. destruct b; [done |]. intros _. by apply preserves_ret. Qed.
Lemma preserves_any {A} (m : M S A) (Q : A -> Prop) : preserves P m Q -> preserves P m (fun _ => True).
Proof. intros H s Hs. split; [by apply H | done]. Qed.

(** At a state, a frame may carry what the continuation needs. *)
Lemma preserves_bind_at {A C D} (f : S -> C) (R : A -> Prop) (m : M S A) (k : A -> M S D) (Q : D -> Prop) s :
  P s -> preserves P m R -> keeps f m ->
  (forall a s', R a -> P s' -> f s' = f s -> P (k a s').2 /\ forall d, (k a s').1 = Ok d -> Q d) ->
  P ((m ≫= k) s).2 /\ forall d, ((m ≫= k) s).1 = Ok d -> Q d.
Proof.
  intros Hs Hm Hf Hk. unfold mbind, M_bind. destruct (Hm s Hs) as [H1 H2]. specialize (Hf s).
  destruct (m s) as [[a | | |] s']; simpl in *; try (split; [done | by intros]).
  apply Hk; [by apply H2 | done | done].
Qed.
End Preserves.

(** Proofs of an invariant follow the syntax of the computation; what is left
    are the conditions on values and the updates of the state. *)
Ltac preserves_step :=
  first
    [ solve [eauto 2 with preserves]
    | match goal with
      | |- preserves _ (mret _) _ => apply preserves_ret
      | |- preserves _ (fault _) _ => apply preserves_fault
      | |- preserves _ (shutdown _) _ => apply preserves_shutdown
      | |- preserves _ (modify _) _ => apply preserves_modify; [done |]; intros ? ?
      | |- preserves _ (if _ then _ else _) _ => apply preserves_if; intros ?
      | |- preserves _ (when _ _) _ => apply preserves_when
      | |- preserves ?P (gets id ≫= _) _ => apply (preserves_bind P P); [apply preserves_gets; done | intros ? ?]
      | |- preserves ?P (gets ?g ≫= _) _ =>
          apply (preserves_bind P (fun a => exists s, P s /\ a = g s));
            [apply preserves_gets; eauto | intros ? (? & ? & ->)]
      | |- preserves ?P (lift_res ?r ≫= _) _ =>
          apply (preserves_bind P (fun a => r = Ok a)); [apply preserves_lift; done | intros ? ?]
      | |- preserves ?P (modify _ ≫= _) _ =>
          apply (preserves_bind P (fun _ => True)); [apply preserves_modify; [done |]; intros ? ? | intros ? _]
      | |- preserves ?P ((_ ≫= _) ≫= _) _ => apply (preserves_bind P (fun _ => True)); [| intros ? _]
      | |- preserves ?P ((if _ then _ else _) ≫= _) _ => apply (preserves_bind P (fun _ => True)); [| intros ? _]
      | |- preserves ?P (_ ≫= _) _ =>
          apply (preserves_bind P (fun _ => True)); [solve [eauto 2 with preserves] | intros ? _]
      | |- preserves _ (match ?x with _ => _ end) _ => destruct x
      end ]; try exact I; cbv zeta.
Ltac preserves_tac := intros; cbv zeta; repeat preserves_step.

(** [returns P m]: from a state with [P] the run of [m] returns, in a state with
    [P]. *)
Definition returns {S A : Type} (P : S -> Prop) (m : M S A) : Prop :=
  forall s, P s -> exists a s', m s = (Ok a, s') /\ P s'.

Section Returns.
Context {S : Type} (P : S -> Prop).

Lemma returns_ret {A} (a : A) : returns P (mret a).
Proof. intros s H. by exists a, s. Qed.
Lemma returns_gets {A} (g : S -> A) : returns P (gets g).
Proof. intros s H. by exists (g s), s. Qed.
Lemma returns_modify (g : S -> S) : (forall s, P s -> P (g s)) -> returns P (modify g).
Proof. intros Hg s H. exists tt, (g s). auto. Qed.
Lemma returns_bind {A C} (m : M S A) (k : A -> M S C) :
  returns P m -> (forall a, returns P (k a)) -> returns P (m ≫= k).
Proof.
  intros Hm Hk s H. destruct (Hm s H) as (a & s1 & E & H1). destruct (Hk a s1 H1) as (c & s2 & E2 & H2).
  exists c, s2. by rewrite (bind_ok _ _ _ _ _ E).
Qed.
Lemma returns_when b (m : M S unit) : returns P m -> returns P (when b m).
Proof. destruct b; [done | intros _; apply returns_ret]. Qed.
End Returns.

Create HintDb returns discriminated.
#[export] Hint Resolve returns_ret returns_gets : returns.

Ltac returns_tac :=
  intros; repeat (cbv zeta; first
    [ solve [eauto 2 with returns] | apply returns_modify; intros | apply returns_bind; [| intros ?] | apply returns_when
    | match goal with |- returns _ (if ?b then _ else _) => destruct b end ]).

(** ** Lists as C arrays *)

Lemma lookup_drop_0 {A} (l : list A) n : drop n l !! 0%nat = l !! n.
Proof. rewrite lookup_drop. by rewrite Nat.add_0_r. Qed.

Lemma drop_cons_lookup {A} (l : list A) n x t : drop n l = x :: t -> l !! n = Some x /\ drop (S n) l = t.
Proof.
  intros H. split.
  - by rewrite <- lookup_drop_0, H.
  - replace (S n) with (n + 1)%nat by lia. rewrite <- drop_drop, H. done.
Qed.

Lemma take_insert_snoc {A} (l : list A) n x : (n < length l)%nat -> take (S n) (<[n := x]> l) = take n l ++ [x].
Proof.
  intros H. erewrite take_S_r by (by apply list_lookup_insert_eq). by rewrite take_insert_ge by lia.
Qed.

Lemma sorted_lookup (l : list Z) i j x y :
  StronglySorted Z.le l -> (i <= j)%nat -> l !! i = Some x -> l !! j = Some y -> x <= y.
Proof.
  intros Hs. revert i j. induction Hs as [| z l Hs IH Hz]; intros [| i] [| j] Hij; simpl; try done; try lia.
  - intros. simplify_eq. lia.
  - intros [= ->] Hy. exact (Forall_lookup_1 _ _ _ _ Hz Hy).
  - intros. apply (IH i j); [lia | done..].
Qed.

(** ** Linked lists

    [nx p] is the value of the link stored in [p], if [p] is there at all.
    [seg nx l e]: the cells of [l] are linked in this order and the last one
    points to [e]. *)
Section Segments.
Context {K : Type}.
Implicit Types (nx : K -> option (option K)) (l : list K) (e : option K).

Definition hd_or l e : option K := match l with [] => e | p :: _ => Some p end.

Fixpoint seg nx l e : Prop :=
  match l with
  | [] => True
  | p :: l => nx p = Some (hd_or l e) /\ seg nx l e
  end.

Lemma hd_or_app l1 l2 e : hd_or (l1 ++ l2) e = hd_or l1 (hd_or l2 e).
Proof. by destruct l1. Qed.

Lemma seg_app nx l1 l2 e : seg nx (l1 ++ l2) e <-> seg nx l1 (hd_or l2 e) /\ seg nx l2 e.
Proof. induction l1 as [| p l1 IH]; simpl; [tauto |]. rewrite hd_or_app, IH. tauto. Qed.

Lemma seg_frame nx nx' l e : (forall p, p ∈ l -> nx' p = nx p) -> seg nx l e -> seg nx' l e.
Proof.
  intros H. induction l as [| p l IH]; simpl; [done |]. intros [Hn Hs]. split.
  - by rewrite H by apply list_elem_of_here.
  - apply IH; [| done]. intros q Hq. by apply H, list_elem_of_further.
Qed.

(** Following the links from a cell determines the list. *)
Lemma seg_functional nx l1 l2 : seg nx l1 None -> seg nx l2 None -> hd_or l1 None = hd_or l2 None -> l1 = l2.
Proof.
  revert l2. induction l1 as [| p l1 IH]; intros [| q l2]; simpl; try done.
  intros [Hp Hs1] [Hq Hs2] [= ->]. f_equal. apply IH; [done | done |]. congruence.
Qed.
End Segments.

(** Distinct keys of a map are at most as many as its entries. *)
Lemma NoDup_size {K A} `{Countable K} (T : gmap K A) l :
  NoDup l -> (forall p, p ∈ l -> is_Some (T !! p)) -> (length l <= size T)%nat.
Proof.
  intros Hnd Hin. rewrite <- size_dom. rewrite <- (size_list_to_set (C := gset K) l Hnd).
  apply subseteq_size. intros p Hp. rewrite elem_of_list_to_set in Hp. by apply elem_of_dom, Hin.
Qed.
