(* ===== verification/Wire.v ===== *)
(** * Wire: the byte level of the host/micro-controller protocol

    Models [src/src/generic/crc16_ccitt.c] and the integer coding of
    [src/src/command.c]: the block checksum and the variable length quantity
    (vlq) in which every integer parameter travels. *)

From S2P Require Import Prelude.

Module Crc.

(** One turn of the loop of [crc16_ccitt]: [crc] is the running [uint16_t],
    [b] the byte read from the buffer. *)
Definition crc16_step (crc b : Z) : Z :=
  let data := u8 (Z.lxor b (Z.land crc 0xff)) in
  let data := u8 (Z.lxor data (Z.shiftl data 4)) in
  u16 (Z.lxor (Z.lxor (Z.lor (Z.shiftl data 8) (Z.shiftr crc 8))
                      (u8 (Z.shiftr data 4)))
              (Z.shiftl data 3)).

(** Checksum of the first [len] bytes of [buf]. *)
Definition crc16_ccitt (buf : list Z) (len : nat) : Z :=
  foldl crc16_step 0xffff (take len buf).

(** The definition of the checksum, one bit at a time: a shift register over
    the reflected CCITT polynomial [x^16 + x^12 + x^5 + 1]. *)
Definition crc_bit (c : Z) : Z :=
  Z.lxor (Z.shiftr c 1) (if Z.odd c then 0x8408 else 0).

Definition crc_bits8 (c : Z) : Z :=
  crc_bit (crc_bit (crc_bit (crc_bit (crc_bit (crc_bit (crc_bit (crc_bit c))))))).

Definition crc16_spec (msg : list Z) : Z :=
  foldl (fun c b => crc_bits8 (Z.lxor c b)) 0xffff msg.

(** Contribution of the byte that leaves the register. *)
Definition crc_table (x : Z) : Z :=
  let data := u8 (Z.lxor x (Z.shiftl x 4)) in
  Z.lxor (Z.lxor (Z.shiftl data 8) (Z.shiftr data 4)) (Z.shiftl data 3).

Lemma lxor_range w x y : 0 <= w -> 0 <= x < 2 ^ w -> 0 <= y < 2 ^ w -> 0 <= Z.lxor x y < 2 ^ w.
Proof.
  intros Hw Hx Hy.
  assert (Hn : 0 <= Z.lxor x y) by (apply Z.lxor_nonneg; lia).
  split; [done |].
  assert (Hs : Z.lxor x y = Z.lxor x y mod 2 ^ w).
  { apply Z.bits_inj'. intros i Hi. destruct (decide (i < w)).
    - by rewrite Z.mod_pow2_bits_low by lia.
    - rewrite Z.mod_pow2_bits_high, Z.lxor_spec by lia.
      by rewrite !(testbit_above w) by lia. }
  rewrite Hs. apply Z.mod_pos_bound. lia.
Qed.

Lemma crc_bit_lxor x y : crc_bit (Z.lxor x y) = Z.lxor (crc_bit x) (crc_bit y).
Proof.
  unfold crc_bit. rewrite Z.shiftr_lxor.
  assert (Ho : Z.odd (Z.lxor x y) = xorb (Z.odd x) (Z.odd y)).
  { by rewrite <- !Z.bit0_odd, Z.lxor_spec. }
  rewrite Ho. apply Z.bits_inj'. intros i Hi. rewrite !Z.lxor_spec.
  destruct (Z.odd x), (Z.odd y); cbn [xorb]; rewrite ?Z.bits_0; btauto.
Qed.

Lemma crc_bits8_lxor x y : crc_bits8 (Z.lxor x y) = Z.lxor (crc_bits8 x) (crc_bits8 y).
Proof. unfold crc_bits8. by rewrite !crc_bit_lxor. Qed.

Lemma crc_bit_shift h k j : 0 <= j -> k = j + 1 -> crc_bit (Z.shiftl h k) = Z.shiftl h j.
Proof.
  intros Hk ->. unfold crc_bit.
  rewrite <- Z.bit0_odd, Z.shiftl_spec, Z.testbit_neg_r, Z.lxor_0_r by lia.
  rewrite Z.shiftr_shiftl_l by lia. f_equal. lia.
Qed.

Lemma crc_bits8_shift h : crc_bits8 (Z.shiftl h 8) = h.
Proof.
  unfold crc_bits8.
  rewrite (crc_bit_shift h 8 7), (crc_bit_shift h 7 6), (crc_bit_shift h 6 5),
    (crc_bit_shift h 5 4), (crc_bit_shift h 4 3), (crc_bit_shift h 3 2),
    (crc_bit_shift h 2 1), (crc_bit_shift h 1 0) by lia.
  apply Z.shiftl_0_r.
Qed.

(** Exhaustive facts about one byte are checked by evaluation. *)
Definition all_bytes (p : Z -> bool) : bool := forallb p (seqZ 0 256).

Lemma all_bytes_spec p x : all_bytes p = true -> is_u8 x -> p x = true.
Proof.
  unfold all_bytes. rewrite forallb_forall. intros H Hx. apply H.
  apply list_elem_of_In, elem_of_seqZ. cint_lia.
Qed.

Lemma crc_table_spec x : is_u8 x -> crc_table x = crc_bits8 x.
Proof.
  intros Hx. apply Z.eqb_eq.
  apply (all_bytes_spec (fun x => crc_table x =? crc_bits8 x)); [vm_compute; reflexivity | done].
Qed.

Lemma crc_table_range x : is_u8 x -> is_u16 (crc_table x).
Proof.
  intros Hx.
  assert (H : ((0 <=? crc_table x) && (crc_table x <? 2 ^ 16)) = true).
  { apply (all_bytes_spec (fun x => (0 <=? crc_table x) && (crc_table x <? 2 ^ 16)));
      [vm_compute; reflexivity | done]. }
  unfold is_u16. lia.
Qed.

(** The high byte of the contribution determines the byte that caused it. *)
Definition crc_table_inv (h : Z) : Z :=
  default 0 (list_find (fun x => Z.shiftr (crc_table x) 8 = h) (seqZ 0 256) ≫= fun p => Some p.2).

Lemma crc_table_high_inj x y :
  is_u8 x -> is_u8 y -> Z.shiftr (crc_table x) 8 = Z.shiftr (crc_table y) 8 -> x = y.
Proof.
  assert (H : forall x, is_u8 x -> crc_table_inv (Z.shiftr (crc_table x) 8) = x).
  { intros z Hz. apply Z.eqb_eq.
    apply (all_bytes_spec (fun z => crc_table_inv (Z.shiftr (crc_table z) 8) =? z));
      [vm_compute; reflexivity | done]. }
  intros Hx Hy E. rewrite <- (H x Hx), <- (H y Hy). by rewrite E.
Qed.

Lemma low_byte_range c : is_u8 (Z.land c 0xff).
Proof. change 0xff with (Z.ones 8). rewrite Z.land_ones by lia. cint_lia. Qed.

(** The update is the register shifted by a byte plus a table entry. *)
Lemma crc16_step_split crc b :
  is_u16 crc -> is_u8 b ->
  crc16_step crc b = Z.lxor (Z.shiftr crc 8) (crc_table (Z.lxor (Z.land crc 0xff) b)).
Proof.
  intros Hc Hb. unfold crc16_step.
  assert (Hx : is_u8 (Z.lxor (Z.land crc 0xff) b)).
  { apply (lxor_range 8); [lia | apply low_byte_range | done]. }
  rewrite (Z.lxor_comm b), (u8_small (Z.lxor _ b)) by done.
  set (x := Z.lxor (Z.land crc 0xff) b) in *.
  pose proof (crc_table_range x Hx) as Ht. unfold crc_table in *.
  set (data := u8 (Z.lxor x (Z.shiftl x 4))) in *.
  assert (Hd : is_u8 data) by apply u8_range.
  assert (Hs : 0 <= Z.shiftr crc 8 < 2 ^ 8) by (rewrite Z.shiftr_div_pow2 by lia; cint_lia).
  rewrite (u8_small (Z.shiftr data 4)) by (rewrite Z.shiftr_div_pow2 by lia; cint_lia).
  assert (Hor : Z.lor (Z.shiftl data 8) (Z.shiftr crc 8)
                = Z.lxor (Z.shiftr crc 8) (Z.shiftl data 8)).
  { rewrite Z.lxor_comm. symmetry. apply Z.lxor_lor. apply Z.bits_inj'. intros i Hi.
    rewrite Z.land_spec, Z.bits_0. destruct (decide (i < 8)).
    - by rewrite Z.shiftl_spec, (Z.testbit_neg_r data) by lia.
    - rewrite (testbit_above 8 (Z.shiftr crc 8)) by lia. apply andb_false_r. }
  rewrite Hor, !Z.lxor_assoc in *. apply u16_small, (lxor_range 16); cint_lia.
Qed.

Lemma crc16_step_range crc b : is_u16 (crc16_step crc b).
Proof. apply u16_range. Qed.

Lemma crc16_foldl_range msg crc : is_u16 crc -> is_u16 (foldl crc16_step crc msg).
Proof. revert crc. induction msg; cbn; auto using crc16_step_range. Qed.

#[export] Hint Resolve crc16_step_range crc16_foldl_range low_byte_range : cint.

Lemma crc16_step_bits crc b :
  is_u16 crc -> is_u8 b -> crc16_step crc b = crc_bits8 (Z.lxor crc b).
Proof.
  intros Hc Hb. rewrite crc16_step_split by done.
  assert (Hx : is_u8 (Z.lxor (Z.land crc 0xff) b)).
  { apply (lxor_range 8); [lia | apply low_byte_range | done]. }
  assert (E : crc = Z.lxor (Z.shiftl (Z.shiftr crc 8) 8) (Z.land crc 0xff)).
  { apply Z.bits_inj'. intros i Hi. change 0xff with (Z.ones 8).
    rewrite Z.lxor_spec, Z.land_spec, Z.testbit_ones_nonneg by lia.
    destruct (Z.ltb_spec i 8).
    - rewrite Z.shiftl_spec, (Z.testbit_neg_r _ (i - 8)), andb_true_r by lia. by destruct (Z.testbit crc i).
    - rewrite Z.shiftl_spec, Z.shiftr_spec, andb_false_r, xorb_false_r by lia. f_equal. lia. }
  rewrite E at 3. rewrite Z.lxor_assoc, crc_bits8_lxor, crc_bits8_shift, crc_table_spec by done.
  done.
Qed.

Lemma crc16_foldl_bits msg crc :
  Forall is_u8 msg -> is_u16 crc ->
  foldl crc16_step crc msg = foldl (fun c b => crc_bits8 (Z.lxor c b)) crc msg.
Proof.
  intros H. revert crc. induction H as [| b msg Hb _ IH]; intros crc Hc; [done |].
  cbn. rewrite IH by auto with cint. by rewrite crc16_step_bits.
Qed.

(** C28: the table-free byte update of [crc16_ccitt] computes the CCITT
    checksum: on every buffer the value is that of the bit-serial shift
    register over the reflected polynomial 0x8408 with initial value 0xffff. *)
Theorem crc16_ccitt_correct msg len :
  Forall is_u8 msg -> crc16_ccitt msg len = crc16_spec (take len msg).
Proof. intros H. apply crc16_foldl_bits; [by apply Forall_take | cint_lia]. Qed.

Lemma crc16_ccitt_correct_witness : crc16_ccitt [1; 2; 3; 4] 3 = crc16_spec [1; 2; 3].
Proof. apply (crc16_ccitt_correct [1; 2; 3; 4] 3). repeat constructor; cint_lia. Defined.

(** *** Error detection *)

Lemma lxor_cancel_l x y z : Z.lxor x y = Z.lxor x z -> y = z.
Proof.
  intros H. apply (f_equal (Z.lxor x)) in H.
  by rewrite <- !Z.lxor_assoc, Z.lxor_nilpotent, !Z.lxor_0_l in H.
Qed.

Lemma shiftr_lxor_high h t : 0 <= h < 2 ^ 8 -> Z.shiftr (Z.lxor h t) 8 = Z.shiftr t 8.
Proof.
  intros Hh. rewrite Z.shiftr_lxor, (Z.shiftr_div_pow2 h), Z.div_small by lia.
  apply Z.lxor_0_l.
Qed.

(** A step loses nothing: the outgoing byte is recovered from the high byte of
    the result, then the rest of the register. *)
Lemma crc16_step_inv c1 c2 b1 b2 :
  is_u16 c1 -> is_u16 c2 -> is_u8 b1 -> is_u8 b2 -> crc16_step c1 b1 = crc16_step c2 b2 ->
  Z.lxor (Z.land c1 0xff) b1 = Z.lxor (Z.land c2 0xff) b2 /\ Z.shiftr c1 8 = Z.shiftr c2 8.
Proof.
  intros Hc1 Hc2 Hb1 Hb2. rewrite !crc16_step_split by done. intros E.
  assert (R : forall c b, is_u8 b -> is_u8 (Z.lxor (Z.land c 0xff) b)).
  { intros. apply (lxor_range 8); [lia | apply low_byte_range | done]. }
  assert (S : forall c, is_u16 c -> 0 <= Z.shiftr c 8 < 2 ^ 8).
  { intros. rewrite Z.shiftr_div_pow2 by lia. cint_lia. }
  assert (X : Z.lxor (Z.land c1 0xff) b1 = Z.lxor (Z.land c2 0xff) b2).
  { apply crc_table_high_inj; auto.
    apply (f_equal (fun z => Z.shiftr z 8)) in E.
    by rewrite !shiftr_lxor_high in E by auto. }
  split; [done |]. rewrite X, !(Z.lxor_comm (Z.shiftr _ _)) in E. by apply lxor_cancel_l in E.
Qed.

Lemma u16_split c : is_u16 c -> c = Z.shiftr c 8 * 256 + Z.land c 0xff.
Proof.
  intros. change 0xff with (Z.ones 8). rewrite Z.land_ones, Z.shiftr_div_pow2 by lia. cint_lia.
Qed.

Lemma crc16_step_inj_crc c1 c2 b :
  is_u16 c1 -> is_u16 c2 -> is_u8 b -> crc16_step c1 b = crc16_step c2 b -> c1 = c2.
Proof.
  intros H1 H2 Hb E. apply crc16_step_inv in E as [X Y]; try done.
  rewrite !(Z.lxor_comm _ b) in X. apply lxor_cancel_l in X.
  rewrite (u16_split c1), (u16_split c2) by done. lia.
Qed.

Lemma crc16_foldl_inj_crc msg c1 c2 :
  Forall is_u8 msg -> is_u16 c1 -> is_u16 c2 ->
  foldl crc16_step c1 msg = foldl crc16_step c2 msg -> c1 = c2.
Proof.
  intros H. revert c1 c2. induction H as [| b msg Hb _ IH]; intros c1 c2 H1 H2 E; [done |].
  cbn in E. apply IH in E; auto with cint. by apply crc16_step_inj_crc in E.
Qed.

Lemma crc16_burst_inj c x y :
  is_u16 c -> Forall is_u8 x -> Forall is_u8 y -> length x = length y -> (length x <= 2)%nat ->
  foldl crc16_step c x = foldl crc16_step c y -> x = y.
Proof.
  intros Hc Hx Hy Hl Hn E.
  destruct x as [| x1 [| x2 [| ? ?]]], y as [| y1 [| y2 [| ? ?]]]; try done; try (cbn in Hn; lia).
  - decompose_Forall_hyps. cbn in E.
    apply crc16_step_inv in E as [X _]; try done. by apply lxor_cancel_l in X as ->.
  - decompose_Forall_hyps. cbn in E.
    pose proof E as E'. apply crc16_step_inv in E' as [X Y]; auto with cint.
    assert (x1 = y1) as ->.
    { rewrite !crc16_step_split, !shiftr_lxor_high in Y by
        (auto; rewrite Z.shiftr_div_pow2 by lia; cint_lia).
      apply crc_table_high_inj in Y; [by apply lxor_cancel_l in Y | ..];
        apply (lxor_range 8); solve [lia | apply low_byte_range | done]. }
    by apply lxor_cancel_l in X as ->.
Qed.

(** Two messages of the same length that differ only inside a window of at
    most two adjacent bytes have different checksums, so [crc16_ccitt] detects
    every error burst of up to sixteen bits within a byte pair. *)
Theorem crc16_detects_burst pre x y post :
  Forall is_u8 pre -> Forall is_u8 x -> Forall is_u8 y -> Forall is_u8 post ->
  length x = length y -> (length x <= 2)%nat -> x <> y ->
  crc16_ccitt (pre ++ x ++ post) (length (pre ++ x ++ post))
  <> crc16_ccitt (pre ++ y ++ post) (length (pre ++ y ++ post)).
Proof.
  intros Hpre Hx Hy Hpost Hl Hn Hne. unfold crc16_ccitt.
  rewrite !firstn_all, !foldl_app. intros E. apply Hne.
  assert (Hp : is_u16 (foldl crc16_step 0xffff pre)) by (apply crc16_foldl_range; cint_lia).
  apply crc16_foldl_inj_crc in E; auto with cint.
  by apply crc16_burst_inj in E.
Qed.

Lemma crc16_detects_burst_witness :
  crc16_ccitt [5; 16; 17] 3 <> crc16_ccitt [5; 24; 17] 3.
Proof.
  apply (crc16_detects_burst [5] [16] [24] [17]);
    repeat constructor; try cint_lia; discriminate.
Defined.

End Crc.

Module Vlq.

(** [encode_int]: the bytes stored through [p].  The labels [f1] ... [f4] of
    the source are the tails on which a shorter encoding enters. *)
Definition encode_int (v : Z) : list Z :=
  let sv := s32 v in
  let f4 := [u8 (Z.land v 0x7f)] in
  let f3 := u8 (Z.lor (Z.land (Z.shiftr v 7) 0x7f) 0x80) :: f4 in
  let f2 := u8 (Z.lor (Z.land (Z.shiftr v 14) 0x7f) 0x80) :: f3 in
  let f1 := u8 (Z.lor (Z.land (Z.shiftr v 21) 0x7f) 0x80) :: f2 in
  if (sv <? Z.shiftl 3 5) && (sv >=? - Z.shiftl 1 5) then f4
  else if (sv <? Z.shiftl 3 12) && (sv >=? - Z.shiftl 1 12) then f3
  else if (sv <? Z.shiftl 3 19) && (sv >=? - Z.shiftl 1 19) then f2
  else if (sv <? Z.shiftl 3 26) && (sv >=? - Z.shiftl 1 26) then f1
  else u8 (Z.lor (Z.shiftr v 28) 0x80) :: f1.

(** The [while (c & 0x80)] loop of [parse_int], entered after a byte with its
    top bit set; [None] is a read past the end of the memory [l]. *)
Fixpoint parse_int_loop (v : Z) (l : list Z) : option (Z * list Z) :=
  match l with
  | [] => None
  | c :: l =>
      let v := Z.lor (u32 (Z.shiftl v 7)) (Z.land c 0x7f) in
      if has c 0x80 then parse_int_loop v l else Some (v, l)
  end.

(** [parse_int]: the value and the memory after the bytes consumed. *)
Definition parse_int (l : list Z) : option (Z * list Z) :=
  match l with
  | [] => None
  | c :: l =>
      let v := Z.land c 0x7f in
      let v := if Z.land c 0x60 =? 0x60 then u32 (Z.lor v (-0x20)) else v in
      if has c 0x80 then parse_int_loop v l else Some (v, l)
  end.

(** *** Arithmetic reading of the coding *)

Lemma land7 x : Z.land x 0x7f = x mod 128.
Proof. change 0x7f with (Z.ones 7). by rewrite Z.land_ones by lia. Qed.

Lemma has80_lor x : has (Z.lor x 0x80) 0x80 = true.
Proof.
  unfold has, truth. apply negb_true_iff, Z.eqb_neq. intros H.
  apply (f_equal (fun z => Z.testbit z 7)) in H.
  rewrite Z.land_spec, Z.lor_spec in H. cbn in H. by rewrite orb_true_r in H.
Qed.

(** A continuation byte carries seven payload bits and the top bit. *)
Lemma cont_byte x : 0 <= x < 128 ->
  is_u8 (Z.lor x 0x80) /\ has (Z.lor x 0x80) 0x80 = true /\ Z.land (Z.lor x 0x80) 0x7f = x
  /\ Z.land (Z.lor x 0x80) 0x60 = Z.land x 0x60.
Proof.
  intros Hx. split_and!; [| apply has80_lor | |].
  - rewrite Z.lor_comm. change 0x80 with (Z.shiftl 1 7). rewrite lor_shift_add by lia. cint_lia.
  - rewrite Z.land_lor_distr_l. change (Z.land 0x80 0x7f) with 0. rewrite Z.lor_0_r, land7. cint_lia.
  - rewrite Z.land_lor_distr_l. change (Z.land 0x80 0x60) with 0. apply Z.lor_0_r.
Qed.

Lemma last_byte x : 0 <= x < 128 -> is_u8 x /\ has x 0x80 = false /\ Z.land x 0x7f = x.
Proof.
  intros Hx. split_and!; [cint_lia | | rewrite land7; cint_lia].
  unfold has, truth. apply negb_false_iff, Z.eqb_eq. apply Z.bits_inj'. intros i Hi.
  rewrite Z.land_spec, Z.bits_0. destruct (decide (i < 7)).
  - change 0x80 with (2 ^ 7). rewrite Z.pow2_bits_false by lia. apply andb_false_r.
  - by rewrite (testbit_above 7) by lia.
Qed.

(** The seed of [parse_int] is the sign extension of the first seven bits,
    where the values 0x60 ... 0x7f stand for -32 ... -1. *)
Lemma seed_value s : -32 <= s < 96 ->
  let c := s mod 128 in
  (if Z.land c 0x60 =? 0x60 then u32 (Z.lor c (-0x20)) else c) = u32 s.
Proof.
  intros Hs.
  assert (H : forallb (fun s => let c := s mod 128 in
     (if Z.land c 0x60 =? 0x60 then u32 (Z.lor c (-0x20)) else c) =? u32 s) (seqZ (-32) 128) = true)
    by (vm_compute; reflexivity).
  rewrite forallb_forall in H. apply Z.eqb_eq, H, list_elem_of_In, elem_of_seqZ. lia.
Qed.

(** One turn of the loop appends seven bits. *)
Lemma loop_value v x : 0 <= x < 128 -> Z.lor (u32 (Z.shiftl (u32 v) 7)) x = u32 (v * 128 + x).
Proof.
  intros Hx. rewrite Z.shiftl_mul_pow2 by lia.
  replace (u32 (u32 v * 2 ^ 7)) with (Z.shiftl (v mod 2 ^ 25) 7)
    by (rewrite Z.shiftl_mul_pow2 by lia; change (2 ^ 25) with 33554432; cint_lia).
  rewrite lor_shift_add by lia. change (2 ^ 25) with 33554432. cint_lia.
Qed.

Lemma parse_first_cont s x l :
  -32 <= s < 96 -> x = s mod 128 ->
  parse_int (u8 (Z.lor x 0x80) :: l) = parse_int_loop (u32 s) l.
Proof.
  intros Hs ->. destruct (cont_byte (s mod 128)) as (Hr & Hh & Hl & H6); [cint_lia |].
  unfold parse_int. rewrite u8_small, Hh, Hl, H6 by done. by rewrite (seed_value s).
Qed.

Lemma parse_first_last s x l :
  -32 <= s < 96 -> x = s mod 128 -> parse_int (u8 x :: l) = Some (u32 s, l).
Proof.
  intros Hs ->. destruct (last_byte (s mod 128)) as (Hr & Hh & Hl); [cint_lia |].
  unfold parse_int. rewrite u8_small, Hh, Hl by done. by rewrite (seed_value s).
Qed.

Lemma parse_loop_cont a x l :
  0 <= x < 128 -> parse_int_loop (u32 a) (u8 (Z.lor x 0x80) :: l) = parse_int_loop (u32 (a * 128 + x)) l.
Proof.
  intros Hx. destruct (cont_byte x) as (Hr & Hh & Hl & _); [done |].
  cbn [parse_int_loop]. by rewrite u8_small, Hh, Hl, loop_value by done.
Qed.

Lemma parse_loop_last a x l :
  0 <= x < 128 -> parse_int_loop (u32 a) (u8 x :: l) = Some (u32 (a * 128 + x), l).
Proof.
  intros Hx. destruct (last_byte x) as (Hr & Hh & Hl); [done |].
  cbn [parse_int_loop]. by rewrite u8_small, Hh, Hl, loop_value by done.
Qed.

Ltac shift_div :=
  rewrite ?land7, ?Z.shiftr_div_pow2 by lia;
  change (2 ^ 14) with 16384 in *; change (2 ^ 21) with 2097152 in *;
  change (2 ^ 28) with 268435456 in *; cint_lia.

Ltac vlq_steps s :=
  cbn [app];
  first [rewrite (parse_first_last s) by shift_div | rewrite (parse_first_cont s) by shift_div];
  repeat first [rewrite parse_loop_last by shift_div | rewrite parse_loop_cont by shift_div];
  do 2 f_equal; shift_div.

Lemma parse_encode_int_ok v rest :
  is_u32 v -> parse_int (encode_int v ++ rest) = Some (v, rest).
Proof.
  intros Hv. unfold encode_int.
  change (Z.shiftl 3 5) with 96. change (Z.shiftl 1 5) with 32.
  change (Z.shiftl 3 12) with 12288. change (Z.shiftl 1 12) with 4096.
  change (Z.shiftl 3 19) with 1572864. change (Z.shiftl 1 19) with 524288.
  change (Z.shiftl 3 26) with 201326592. change (Z.shiftl 1 26) with 67108864.
  destruct ((s32 v <? 96) && _) eqn:E1; [vlq_steps (s32 v) |].
  destruct ((s32 v <? 12288) && _) eqn:E2; [vlq_steps (s32 v / 128) |].
  destruct ((s32 v <? 1572864) && _) eqn:E3; [vlq_steps (s32 v / 16384) |].
  destruct ((s32 v <? 201326592) && _) eqn:E4; [vlq_steps (s32 v / 2097152) |].
  vlq_steps (v / 268435456).
Qed.

(** Decoding what [encode_int] wrote gives back the value and leaves
    exactly the bytes that followed: for every [uint32_t] the two vlq routines
    of [command.c] are inverse. *)
Theorem parse_encode_int v rest :
  is_u32 v -> parse_int (encode_int v ++ rest) = Some (v, rest).
Proof. apply parse_encode_int_ok. Qed.

Lemma parse_encode_int_witness :
  is_u32 4294967295 /\ parse_int (encode_int 4294967295 ++ [7; 8]) = Some (4294967295, [7; 8]).
Proof. split; [cint_lia | apply parse_encode_int; cint_lia]. Defined.

(** Number of bytes [encode_int] needs for a value. *)
Lemma encode_int_length v : (1 <= length (encode_int v) <= 5)%nat.
Proof. unfold encode_int. repeat case_match; cbn; lia. Qed.

Lemma encode_int_length_3 v : - 524288 <= s32 v < 1572864 -> (length (encode_int v) <= 3)%nat.
Proof.
  intros Hv. unfold encode_int.
  change (Z.shiftl 3 19) with 1572864. change (Z.shiftl 1 19) with 524288.
  assert ((s32 v <? 1572864) && (s32 v >=? Z.opp 524288) = true) as -> by lia.
  repeat case_match; cbn; lia.
Qed.

Lemma encode_int_length_u8 v : is_u8 v -> (length (encode_int v) <= 2)%nat.
Proof.
  intros Hv. unfold encode_int. assert (s32 v = v) as -> by cint_lia.
  change (Z.shiftl 3 12) with 12288. change (Z.shiftl 1 12) with 4096.
  assert ((v <? 12288) && (v >=? Z.opp 4096) = true) as -> by cint_lia.
  repeat case_match; cbn; lia.
Qed.

Lemma encode_int_u8 v : Forall is_u8 (encode_int v).
Proof. unfold encode_int. repeat case_match; auto 10 using Forall_cons_2, Forall_nil_2, u8_range. Qed.

(** A byte below 0x80 stops the decoder: a read never runs past it. *)
Lemma has80_small c : 0 <= c < 128 -> has c 0x80 = false.
Proof. intros H. by destruct (last_byte c H) as (_ & ? & _). Qed.

Lemma parse_int_loop_stops v l1 c l2 :
  0 <= c < 128 -> exists v' l1', parse_int_loop v (l1 ++ c :: l2) = Some (v', l1' ++ l2)
                                 /\ (l1' ++ l2) `suffix_of` (l1 ++ c :: l2) /\ (length l1' <= length l1)%nat.
Proof.
  intros Hc. revert v. induction l1 as [| b l1 IH]; intros v; cbn [app parse_int_loop].
  - rewrite has80_small by done. exists (Z.lor (u32 (Z.shiftl v 7)) (Z.land c 0x7f)), [].
    split_and!; [done | by exists [c] | done].
  - destruct (has b 0x80).
    + destruct (IH (Z.lor (u32 (Z.shiftl v 7)) (Z.land b 0x7f))) as (v' & l1' & -> & [k Hs] & Hl).
      exists v', l1'. split_and!; [done | exists (b :: k); by rewrite Hs | cbn; lia].
    + eexists _, (l1 ++ [c]). rewrite <- app_assoc. cbn. split_and!; [done | by exists [b] |].
      rewrite length_app. cbn. lia.
Qed.

Lemma parse_int_stops l1 c l2 :
  0 <= c < 128 -> exists v l1', parse_int (l1 ++ c :: l2) = Some (v, l1' ++ l2)
                                /\ (l1' ++ l2) `suffix_of` (l1 ++ c :: l2) /\ (length l1' <= length l1)%nat.
Proof.
  intros Hc. destruct l1 as [| b l1]; cbn [app parse_int].
  - rewrite has80_small by done. eexists _, []. split_and!; [done | by exists [c] | done].
  - destruct (has b 0x80).
    + match goal with |- context [parse_int_loop ?v _] =>
        destruct (parse_int_loop_stops v l1 c l2 Hc) as (v' & l1' & -> & [k Hs] & Hl) end.
      exists v', l1'. split_and!; [done | exists (b :: k); by rewrite Hs | cbn; lia].
    + eexists _, (l1 ++ [c]). rewrite <- app_assoc. cbn. split_and!; [done | by exists [b] |].
      rewrite length_app. cbn. lia.
Qed.

End Vlq.
