(* ===== verification/State.v ===== *)
(** * State: the data model of the micro-controller firmware

    The C structs and static variables of [src/src/*.c] that the later files
    operate on, the build-time and hardware parameters ([Board]), and the
    primitive accesses of the firmware monad.  Every pointer of the source is
    a name: a timer is named by the object it is embedded in, an object by its
    oid, a move queue node by its index in the arena. *)

From S2P Require Import Prelude.

(** ** Messages ([src/src/command.h]) *)

Inductive param_type :=
| PT_uint32 | PT_int32 | PT_uint16 | PT_int16 | PT_byte
| PT_string | PT_progmem_buffer | PT_buffer.

#[export] Instance param_type_eq_dec : EqDecision param_type.
Proof. solve_decision. Defined.

Record command_encoder := mk_encoder {
  ce_msg_id : Z;
  ce_max_size : Z;
  ce_param_types : list param_type;
}.
#[export] Instance eta_command_encoder : Eta command_encoder :=
  fun r => mk_encoder (ce_msg_id r) (ce_max_size r) (ce_param_types r).

(** A variadic argument of [sendf]: an integer, a length and a pointer to the
    bytes it covers, or a NUL terminated string. *)
Inductive varg :=
| VInt (v : Z)
| VBuf (len : Z) (data : list Z)
| VStr (data : list Z).

(** ** Timers ([src/src/sched.h]) *)

(** The timers of the program: the three of [sched.c], the wrap timer of
    [armcm_timer.c] and those embedded in a configured object ([slot] tells
    the timers of one object apart). *)
Inductive tptr :=
| PeriodicTimer | SentinelTimer | DeletedTimer | WrapTimer
| ObjTimer (oid slot : Z).

#[export] Instance tptr_eq_dec : EqDecision tptr.
Proof. solve_decision. Defined.

Definition tptr_encode (p : tptr) : Z * Z * Z :=
  match p with
  | PeriodicTimer => (0, 0, 0)
  | SentinelTimer => (1, 0, 0)
  | DeletedTimer => (2, 0, 0)
  | WrapTimer => (3, 0, 0)
  | ObjTimer o k => (4, o, k)
  end.

Definition tptr_decode (x : Z * Z * Z) : tptr :=
  match x with
  | (0, _, _) => PeriodicTimer
  | (1, _, _) => SentinelTimer
  | (2, _, _) => DeletedTimer
  | (3, _, _) => WrapTimer
  | (_, o, k) => ObjTimer o k
  end.

#[export] Instance tptr_countable : Countable tptr.
Proof. apply (inj_countable' tptr_encode tptr_decode). by intros []. Defined.

(** The timer callbacks of the program; a NULL function pointer selects the
    inlined stepper handler. *)
Inductive tfunc :=
| F_periodic_event | F_sentinel_event | F_deleted_event | F_timer_wrap_event
| F_stepper_event_full
| F_trsync_report_event | F_trsync_expire_event
| F_endstop_event | F_endstop_oversample_event
| F_digital_load_event | F_digital_toggle_event
| F_pwm_event | F_pwm_end_event
| F_analog_in_event
| F_tmcuart_read_event | F_tmcuart_read_sync_event | F_tmcuart_send_finish_event
| F_tmcuart_send_event | F_tmcuart_send_sync_event
| F_buttons_event | F_counter_event | F_thermocouple_event | F_fancheck_period_event | F_lis2dw_event.

#[export] Instance tfunc_eq_dec : EqDecision tfunc.
Proof. solve_decision. Defined.

Record timer := mk_timer {
  t_next : option tptr;
  t_func : option tfunc;
  t_waketime : Z;
}.
#[export] Instance eta_timer : Eta timer :=
  fun r => mk_timer (t_next r) (t_func r) (t_waketime r).

(** A zeroed [struct timer]. *)
Definition timer0 : timer := mk_timer None None 0.

(** ** Move queues ([src/src/basecmd.h]) *)

Record stepper_move := mk_stepper_move {
  sm_interval : Z; sm_add : Z; sm_count : Z; sm_flags : Z;
}.
#[export] Instance eta_stepper_move : Eta stepper_move :=
  fun r => mk_stepper_move (sm_interval r) (sm_add r) (sm_count r) (sm_flags r).
Record digital_move := mk_digital_move { dm_waketime : Z; dm_on_duration : Z }.
#[export] Instance eta_digital_move : Eta digital_move :=
  fun r => mk_digital_move (dm_waketime r) (dm_on_duration r).
Record pwm_move := mk_pwm_move { pm_waketime : Z; pm_value : Z }.
#[export] Instance eta_pwm_move : Eta pwm_move :=
  fun r => mk_pwm_move (pm_waketime r) (pm_value r).

(** What a node of the arena holds beyond its link. *)
Inductive move_payload :=
| MoveRaw
| MoveStepper (m : stepper_move)
| MoveDigital (m : digital_move)
| MovePwm (m : pwm_move).

Record move_node := mk_move_node { mn_next : option Z; mn_data : move_payload }.
#[export] Instance eta_move_node : Eta move_node :=
  fun r => mk_move_node (mn_next r) (mn_data r).

Record move_queue_head := mk_mq { mq_first : option Z; mq_last : option Z }.
#[export] Instance eta_move_queue_head : Eta move_queue_head :=
  fun r => mk_mq (mq_first r) (mq_last r).

(** ** Configured objects *)

Record stepper := mk_stepper {
  s_interval : Z; s_add : Z; s_count : Z;
  s_next_step_time : Z; s_step_pulse_ticks : Z;
  s_step_pin : Z; s_dir_pin : Z; s_position : Z;
  s_mq : move_queue_head;
  s_sig_next : option Z; s_sig_func : bool;
  s_flags : Z;
}.
#[export] Instance eta_stepper : Eta stepper :=
  fun r => mk_stepper (s_interval r) (s_add r) (s_count r) (s_next_step_time r) (s_step_pulse_ticks r) (s_step_pin r) (s_dir_pin r) (s_position r) (s_mq r) (s_sig_next r) (s_sig_func r) (s_flags r).

Record trsync := mk_trsync {
  ts_report_ticks : Z; ts_signals : option Z;
  ts_flags : Z; ts_trigger_reason : Z; ts_expire_reason : Z;
}.
#[export] Instance eta_trsync : Eta trsync :=
  fun r => mk_trsync (ts_report_ticks r) (ts_signals r) (ts_flags r) (ts_trigger_reason r) (ts_expire_reason r).

Record endstop := mk_endstop {
  e_pin : Z; e_rest_time : Z; e_sample_time : Z; e_nextwake : Z;
  e_ts : option Z;
  e_flags : Z; e_sample_count : Z; e_trigger_count : Z; e_trigger_reason : Z;
}.
#[export] Instance eta_endstop : Eta endstop :=
  fun r => mk_endstop (e_pin r) (e_rest_time r) (e_sample_time r) (e_nextwake r) (e_ts r) (e_flags r) (e_sample_count r) (e_trigger_count r) (e_trigger_reason r).

Record digital_out := mk_digital_out {
  d_on_duration : Z; d_off_duration : Z; d_end_time : Z;
  d_pin : Z; d_max_duration : Z; d_cycle_time : Z;
  d_mq : move_queue_head; d_flags : Z;
}.
#[export] Instance eta_digital_out : Eta digital_out :=
  fun r => mk_digital_out (d_on_duration r) (d_off_duration r) (d_end_time r) (d_pin r) (d_max_duration r) (d_cycle_time r) (d_mq r) (d_flags r).

Record pwm_out := mk_pwm_out {
  p_pin : Z; p_max_duration : Z; p_default_value : Z; p_mq : move_queue_head;
}.
#[export] Instance eta_pwm_out : Eta pwm_out :=
  fun r => mk_pwm_out (p_pin r) (p_max_duration r) (p_default_value r) (p_mq r).

Record analog_in := mk_analog_in {
  a_rest_time : Z; a_sample_time : Z; a_next_begin_time : Z;
  a_value : Z; a_min_value : Z; a_max_value : Z; a_pin : Z;
  a_invalid_count : Z; a_range_check_count : Z; a_state : Z; a_sample_count : Z;
}.
#[export] Instance eta_analog_in : Eta analog_in :=
  fun r => mk_analog_in (a_rest_time r) (a_sample_time r) (a_next_begin_time r) (a_value r) (a_min_value r) (a_max_value r) (a_pin r) (a_invalid_count r) (a_range_check_count r) (a_state r) (a_sample_count r).

Record spi_software := mk_spi_software { ss_miso : Z; ss_mosi : Z; ss_sclk : Z; ss_mode : Z }.
#[export] Instance eta_spi_software : Eta spi_software :=
  fun r => mk_spi_software (ss_miso r) (ss_mosi r) (ss_sclk r) (ss_mode r).

(** The union of [struct spidev_s]: the [struct spi_config] the board's
    [spi_setup] returned for its arguments, or the software bus. *)
Inductive spi_bus :=
| SpiUnset
| SpiConfig (bus mode rate : Z)
| SpiSoftware (ss : spi_software).

Record spidev := mk_spidev { sp_bus : spi_bus; sp_pin : Z; sp_flags : Z }.
#[export] Instance eta_spidev : Eta spidev := fun r => mk_spidev (sp_bus r) (sp_pin r) (sp_flags r).

Record spidev_shutdown_s := mk_spidev_shutdown { sd_spi : Z; shutdown_msg_len : Z; shutdown_msg : list Z }.
#[export] Instance eta_spidev_shutdown_s : Eta spidev_shutdown_s :=
  fun r => mk_spidev_shutdown (sd_spi r) (shutdown_msg_len r) (shutdown_msg r).

Record tmcuart := mk_tmcuart {
  tu_tx_pin : Z; tu_rx_pin : Z; tu_flags : Z;
  tu_pos : Z; tu_read_count : Z; tu_write_count : Z;
  tu_cfg_bit_time : Z; tu_bit_time : Z; tu_data : list Z;
}.
#[export] Instance eta_tmcuart : Eta tmcuart :=
  fun r => mk_tmcuart (tu_tx_pin r) (tu_rx_pin r) (tu_flags r) (tu_pos r) (tu_read_count r) (tu_write_count r) (tu_cfg_bit_time r) (tu_bit_time r) (tu_data r).

Record buttons := mk_buttons {
  b_rest_ticks : Z; b_pressed : Z; b_last_pressed : Z;
  b_report_count : Z; b_reports : list Z;
  b_ack_count : Z; b_retransmit_state : Z; b_retransmit_count : Z;
  b_button_count : Z; b_pins : list Z;
}.
#[export] Instance eta_buttons : Eta buttons :=
  fun r => mk_buttons (b_rest_ticks r) (b_pressed r) (b_last_pressed r) (b_report_count r) (b_reports r) (b_ack_count r) (b_retransmit_state r) (b_retransmit_count r) (b_button_count r) (b_pins r).

Record counter := mk_counter {
  c_poll_ticks : Z; c_sample_ticks : Z; c_next_sample_time : Z;
  c_count : Z; c_last_count_time : Z; c_flags : Z; c_pin : Z;
}.
#[export] Instance eta_counter : Eta counter :=
  fun r => mk_counter (c_poll_ticks r) (c_sample_ticks r) (c_next_sample_time r) (c_count r) (c_last_count_time r) (c_flags r) (c_pin r).

Record lis2dw := mk_lis2dw {
  lx_rest_ticks : Z; lx_spi : Z; lx_sequence : Z; lx_limit_count : Z;
  lx_flags : Z; lx_data_count : Z; lx_fifo_disable : Z; lx_data : list Z;
}.
#[export] Instance eta_lis2dw : Eta lis2dw :=
  fun r => mk_lis2dw (lx_rest_ticks r) (lx_spi r) (lx_sequence r) (lx_limit_count r) (lx_flags r) (lx_data_count r) (lx_fifo_disable r) (lx_data r).

Record thermocouple := mk_thermocouple {
  tc_rest_time : Z; tc_min_value : Z; tc_max_value : Z; tc_spi : Z;
  tc_max_invalid : Z; tc_invalid_count : Z; tc_chip_type : Z; tc_flags : Z;
}.
#[export] Instance eta_thermocouple : Eta thermocouple :=
  fun r => mk_thermocouple (tc_rest_time r) (tc_min_value r) (tc_max_value r) (tc_spi r) (tc_max_invalid r) (tc_invalid_count r) (tc_chip_type r) (tc_flags r).

Record fancheck_status := mk_fancheck_status { check_sample : list Z; fs_speed : Z }.
#[export] Instance eta_fancheck_status : Eta fancheck_status := fun r => mk_fancheck_status (check_sample r) (fs_speed r).

(** [status] always points to the static array [fc_status]. *)
Record fancheck := mk_fancheck {
  fc_fan : list Z; fc_period_ticks : Z; fc_check_indx : Z; fc_flags : Z;
}.
#[export] Instance eta_fancheck : Eta fancheck :=
  fun r => mk_fancheck (fc_fan r) (fc_period_ticks r) (fc_check_indx r) (fc_flags r).

(** [struct i2cdev_s]: what the board's [i2c_setup] was given. *)
Record i2cdev := mk_i2cdev { i2c_bus : Z; i2c_rate : Z; i2c_addr : Z }.
#[export] Instance eta_i2cdev : Eta i2cdev := fun r => mk_i2cdev (i2c_bus r) (i2c_rate r) (i2c_addr r).

(** The [type] of an oid is the address of its config command. *)
Inductive otype :=
| T_stepper | T_trsync | T_endstop | T_digital_out | T_pwm_out | T_analog_in
| T_spi | T_spi_shutdown | T_tmcuart | T_buttons | T_counter | T_lis2dw | T_thermocouple | T_fancheck | T_i2c.

#[export] Instance otype_eq_dec : EqDecision otype.
Proof. solve_decision. Defined.

Inductive obj :=
| OStepper (s : stepper)
| OTrsync (t : trsync)
| OEndstop (e : endstop)
| ODigital (d : digital_out)
| OPwm (p : pwm_out)
| OAnalog (a : analog_in)
| OSpi (s : spidev)
| OSpiShutdown (s : spidev_shutdown_s)
| OTmcuart (t : tmcuart)
| OButtons (b : buttons)
| OCounter (c : counter)
| OLis2dw (l : lis2dw)
| OThermocouple (t : thermocouple)
| OFancheck (f : fancheck)
| OI2c (i : i2cdev).

Definition mq0 : move_queue_head := mk_mq None None.

(** The zeroed chunk [alloc_chunk] returns, read as an object of a type. *)
Definition obj0 (t : otype) : obj :=
  match t with
  | T_stepper => OStepper (mk_stepper 0 0 0 0 0 0 0 0 mq0 None false 0)
  | T_trsync => OTrsync (mk_trsync 0 None 0 0 0)
  | T_endstop => OEndstop (mk_endstop 0 0 0 0 None 0 0 0 0)
  | T_digital_out => ODigital (mk_digital_out 0 0 0 0 0 0 mq0 0)
  | T_pwm_out => OPwm (mk_pwm_out 0 0 0 mq0)
  | T_analog_in => OAnalog (mk_analog_in 0 0 0 0 0 0 0 0 0 0 0)
  | T_spi => OSpi (mk_spidev SpiUnset 0 0)
  | T_spi_shutdown => OSpiShutdown (mk_spidev_shutdown 0 0 [])
  | T_tmcuart => OTmcuart (mk_tmcuart 0 0 0 0 0 0 0 0 (replicate 10 0))
  | T_buttons => OButtons (mk_buttons 0 0 0 0 (replicate 8 0) 0 0 0 0 [])
  | T_counter => OCounter (mk_counter 0 0 0 0 0 0 0)
  | T_lis2dw => OLis2dw (mk_lis2dw 0 0 0 0 0 0 0 (replicate 48 0))
  | T_thermocouple => OThermocouple (mk_thermocouple 0 0 0 0 0 0 0 0)
  | T_fancheck => OFancheck (mk_fancheck (replicate 5 0) 0 0 0)
  | T_i2c => OI2c (mk_i2cdev 0 0 0)
  end.

Record oid_s := mk_oid { o_type : option otype; o_data : option obj }.
#[export] Instance eta_oid_s : Eta oid_s :=
  fun r => mk_oid (o_type r) (o_data r).

(** ** Static variables *)

(** Tasks with a [struct task_wake] of their own. *)
Inductive wake_id := W_trsync | W_analog | W_tmcuart | W_buttons | W_counter | W_thermocouple | W_fancheck | W_lis2dw.

#[export] Instance wake_id_eq_dec : EqDecision wake_id.
Proof. solve_decision. Defined.

Record command_st := mk_command_st {
  next_sequence : Z;
  in_sendf : Z;
  sync_state : Z;
}.
#[export] Instance eta_command_st : Eta command_st :=
  fun r => mk_command_st (next_sequence r) (in_sendf r) (sync_state r).

Record sched_st := mk_sched_st {
  timers : gmap tptr timer;
  timer_list : tptr;
  last_insert : tptr;
  tasks_status : Z;
  shutdown_status : Z;
  shutdown_reason : Z;
}.
#[export] Instance eta_sched_st : Eta sched_st :=
  fun r => mk_sched_st (timers r) (timer_list r) (last_insert r) (tasks_status r) (shutdown_status r) (shutdown_reason r).

Record basecmd_st := mk_basecmd_st {
  alloc_end : Z;
  allocMoveQueueCountMax : Z;
  usedMoveQueueNumber : Z;
  usedMoveQueueWaterLine : Z;
  nodes : gmap Z move_node;
  move_free_list : option Z;
  move_list : option Z;
  move_count : Z;
  move_item_size : Z;
  oids : option (list oid_s);
  oid_count : Z;
  config_crc : Z;
  stats_send_time : Z;
  stats_send_time_high : Z;
  stats_count : Z;
  stats_sum : Z;
  stats_sumsq : Z;
}.
#[export] Instance eta_basecmd_st : Eta basecmd_st :=
  fun r => mk_basecmd_st (alloc_end r) (allocMoveQueueCountMax r) (usedMoveQueueNumber r) (usedMoveQueueWaterLine r) (nodes r) (move_free_list r) (move_list r) (move_count r) (move_item_size r) (oids r) (oid_count r) (config_crc r) (stats_send_time r) (stats_send_time_high r) (stats_count r) (stats_sum r) (stats_sumsq r).

(** Static variables of [src/src/generic/serial_irq.c]. *)
Record console_st := mk_console_st {
  receive_buf : list Z;
  receive_pos : Z;
  transmit_buf : list Z;
  transmit_pos : Z;
  transmit_max : Z;
}.
#[export] Instance eta_console_st : Eta console_st :=
  fun r => mk_console_st (receive_buf r) (receive_pos r) (transmit_buf r) (transmit_pos r) (transmit_max r).

(** What the firmware does to its pins, oldest event last. *)
Inductive pin_event :=
| EvSetup (pin : Z) (level : bool)
| EvWrite (pin : Z) (level : bool)
| EvToggle (pin : Z)
| EvPwm (pin : Z) (value : Z)
| EvInput (pin : Z) (pull_up : bool).

(** What it sends over a hardware SPI or I2C bus. *)
Inductive bus_event :=
| EvSpi (bus : Z) (data : list Z)
| EvI2cWrite (addr : Z) (data : list Z)
| EvI2cRead (addr : Z) (reg : list Z) (len : Z).

Record hw_st := mk_hw_st {
  ticks : nat;
  kicks : nat;
  pin_log : list pin_event;
  sent_log : list (string * list varg);
  bus_log : list bus_event;
}.
#[export] Instance eta_hw_st : Eta hw_st :=
  fun r => mk_hw_st (ticks r) (kicks r) (pin_log r) (sent_log r) (bus_log r).

Record mcu := mk_mcu {
  m_cmd : command_st;
  m_sched : sched_st;
  m_base : basecmd_st;
  m_con : console_st;
  m_hw : hw_st;
  m_wake : wake_id -> bool;
  timer_repeat_until : Z;
  fc_status : list fancheck_status;
}.
#[export] Instance eta_mcu : Eta mcu :=
  fun r => mk_mcu (m_cmd r) (m_sched r) (m_base r) (m_con r) (m_hw r) (m_wake r) (timer_repeat_until r) (fc_status r).

(** The static initialisers: what the memory holds when [sched_main] starts. *)
Definition initial_timers : gmap tptr timer :=
  {[ PeriodicTimer := mk_timer (Some SentinelTimer) (Some F_periodic_event) 0;
     SentinelTimer := mk_timer None (Some F_sentinel_event) 0x80000000;
     DeletedTimer := mk_timer None (Some F_deleted_event) 0;
     WrapTimer := mk_timer None (Some F_timer_wrap_event) 0xffffff ]}.

Definition initial_mcu : mcu :=
  mk_mcu
    (mk_command_st 0x10 0 0)
    (mk_sched_st initial_timers PeriodicTimer PeriodicTimer 0 0 0)
    (mk_basecmd_st 0 0 0 0 ∅ None None 0 0 None 0 0 0 0 0 0 0)
    (mk_console_st (replicate 192 0) 0 (replicate 96 0) 0 0)
    (mk_hw_st 0 0 [] [] [])
    (fun _ => false)
    0
    (replicate 5 (mk_fancheck_status (replicate 120 0) 0)).

(** ** Parameters of a build

    Values fixed by the board configuration, by the code generated at build
    time ([out/compile_time_request.c]), and the readings of the hardware: the
    [n]-th access to a device reads what the environment supplies for [n]. *)
Class Board := {
  CONFIG_CLOCK_FREQ : Z;
  CONFIG_INLINE_STEPPER_HACK : bool;
  CONFIG_HAVE_STEPPER_BOTH_EDGE : bool;
  CONFIG_MACH_AVR : bool;
  CONFIG_MACH_LINUX : bool;
  CONFIG_SERIAL_BOOTLOADER_SIDECHANNEL : bool;
  CONFIG_HAVE_GPIO_BITBANGING : bool;
  wide_size_t : bool;
  alignof_ptr : Z;
  sizeof_oid_s : Z;
  sizeof_move_node : Z;
  sizeof_obj : otype -> Z;
  sizeof_move : otype -> Z;
  dynmem_start : Z;
  dynmem_end : Z;
  recv_base : Z;
  ctr_lookup_encoder : string -> command_encoder;
  ctr_lookup_output : string -> command_encoder;
  ctr_lookup_static_string : string -> Z;
  command_identify_data : list Z;
  gpio_out_ok : Z -> bool;
  gpio_in_ok : Z -> bool;
  gpio_pwm_ok : Z -> bool;
  gpio_adc_ok : Z -> bool;
  spi_bus_ok : Z -> bool;
  i2c_bus_ok : Z -> bool;
  BOARD_MCU_TYPE : string;
  hw_time : nat -> Z;
  hw_pin : nat -> Z -> bool;
  hw_adc_sample : nat -> Z -> Z;
  hw_adc_read : nat -> Z -> Z;
  hw_spi_transfer : nat -> list Z -> list Z;
  hw_i2c_read : nat -> Z -> list Z -> Z -> list Z;
}.

(** The firmware monad. *)
Abbreviation FW := (M mcu).

(** A concrete build: a 64 MHz board with 4-byte pointers and 8 KiB of dynamic
    memory, with given encoders and a given clock; [edge] selects the
    single-scheduled steppers. *)
Definition demo_encoder : command_encoder := mk_encoder 1 64 [].

Definition demo_board_msgs (encoder output : string -> command_encoder) (edge : bool) (clock : nat -> Z) : Board := {|
  CONFIG_CLOCK_FREQ := 64000000;
  CONFIG_INLINE_STEPPER_HACK := edge;
  CONFIG_HAVE_STEPPER_BOTH_EDGE := edge;
  CONFIG_MACH_AVR := false;
  CONFIG_MACH_LINUX := false;
  CONFIG_SERIAL_BOOTLOADER_SIDECHANNEL := false;
  CONFIG_HAVE_GPIO_BITBANGING := true;
  wide_size_t := false;
  alignof_ptr := 4;
  sizeof_oid_s := 8;
  sizeof_move_node := 4;
  sizeof_obj := fun _ => 80;
  sizeof_move := fun _ => 16;
  dynmem_start := 0x20000000;
  dynmem_end := 0x20002000;
  recv_base := 0x20004000;
  ctr_lookup_encoder := encoder;
  ctr_lookup_output := output;
  ctr_lookup_static_string := fun s => Z.of_nat (String.length s);
  command_identify_data := seqZ 0 100;
  gpio_out_ok := fun pin => pin <? 64;
  gpio_in_ok := fun pin => pin <? 64;
  gpio_pwm_ok := fun pin => pin <? 64;
  gpio_adc_ok := fun pin => pin <? 64;
  spi_bus_ok := fun bus => bus <? 4;
  i2c_bus_ok := fun bus => bus <? 4;
  BOARD_MCU_TYPE := "demo";
  hw_time := clock;
  hw_pin := fun n pin => Nat.even n;
  hw_adc_sample := fun n pin => 0;
  hw_adc_read := fun n pin => 1000;
  hw_spi_transfer := fun n data => data;
  hw_i2c_read := fun n addr reg len => seqZ 0 len;
|}.

Definition demo_board_edge : bool -> (nat -> Z) -> Board := demo_board_msgs (fun _ => demo_encoder) (fun _ => demo_encoder).

Definition demo_board_clock (clock : nat -> Z) : Board := demo_board_edge false clock.

(** The clock advances by 100 ticks per read. *)
Definition demo_board : Board := demo_board_clock (fun n => u32 (100 * Z.of_nat n)).
