(* ===== verification/Command.v ===== *)
(** * Command: message encoding, framing and block recognition

    Models [src/src/command.c] (everything but the dispatch loop, which is in
    Dispatch) and the transmit and receive buffers of
    [src/src/generic/serial_irq.c]. *)

From S2P Require Import Prelude Wire State.
Import Crc Vlq.

Definition MESSAGE_MIN : Z := 5.
Definition MESSAGE_MAX : Z := 64.
Definition MESSAGE_HEADER_SIZE : Z := 2.
Definition MESSAGE_TRAILER_SIZE : Z := 3.
Definition MESSAGE_POS_LEN : nat := 0.
Definition MESSAGE_POS_SEQ : nat := 1.
Definition MESSAGE_TRAILER_CRC : Z := 3.
Definition MESSAGE_TRAILER_SYNC : Z := 1.
Definition MESSAGE_PAYLOAD_MAX : Z := MESSAGE_MAX - MESSAGE_MIN.
Definition MESSAGE_SEQ_MASK : Z := 0x0f.
Definition MESSAGE_DEST : Z := 0x10.
Definition MESSAGE_SYNC : Z := 0x7E.

Definition TRANSMIT_BUF_SIZE : Z := 96.
Definition RX_BUFFER_SIZE : Z := 192.

Module Encode.
Section WithBoard.
Context `{B : Board}.

(** The integer a [%u], [%i], [%hu], [%hi] or [%c] argument contributes; on a
    machine with 16-bit [int] the narrow types are read at that width. *)
Definition int_arg (t : param_type) (v : Z) : Z :=
  if CONFIG_MACH_AVR
  then match t with
       | PT_int16 => u32 (s16 v)
       | PT_uint16 | PT_byte => u16 v
       | _ => u32 v
       end
  else u32 v.

(** One turn of the loop of [command_encodef].  [acc] is what was stored from
    [&buf[MESSAGE_HEADER_SIZE]] on, so that [p - buf] is [off]. *)
Definition encode_param (max_size : Z) (t : param_type) (args : list varg) (acc : list Z)
    : res (list Z * list varg) :=
  let maxend := MESSAGE_HEADER_SIZE + (max_size - MESSAGE_MIN) in
  let off := MESSAGE_HEADER_SIZE + Z.of_nat (length acc) in
  if off >? maxend then Shut "Message encode error"
  else
    match t, args with
    | (PT_uint32 | PT_int32 | PT_uint16 | PT_int16 | PT_byte), VInt v :: args =>
        Ok (acc ++ encode_int (int_arg t v), args)
    | PT_string, VStr data :: args =>
        let n := Nat.min (length data) (Z.to_nat (maxend - (off + 1))) in
        Ok (acc ++ u8 (Z.of_nat n) :: take n data, args)
    | (PT_progmem_buffer | PT_buffer), VBuf len data :: args =>
        let v := u32 len in
        let v := if v >? maxend - off then maxend - off else v in
        if Z.of_nat (length data) <? v then Fault "memcpy source"
        else Ok (acc ++ u8 v :: take (Z.to_nat v) data, args)
    | _, _ => Fault "va_arg"
    end.

Fixpoint encode_params (max_size : Z) (ts : list param_type) (args : list varg) (acc : list Z)
    : res (list Z) :=
  match ts with
  | [] => Ok acc
  | t :: ts =>
      '(acc, args) ← encode_param max_size t args acc;
      encode_params max_size ts args acc
  end.

(** [command_encodef]: the message length and the bytes stored after the
    header. *)
Definition command_encodef (ce : command_encoder) (args : list varg) : res (Z * list Z) :=
  let max_size := ce_max_size ce in
  if max_size <=? MESSAGE_MIN then Ok (max_size, [])
  else
    payload ← encode_params max_size (ce_param_types ce) args [ce_msg_id ce];
    Ok (MESSAGE_HEADER_SIZE + Z.of_nat (length payload) + MESSAGE_TRAILER_SIZE, payload).

(** [command_add_frame]: header and trailer around the stored bytes. *)
Definition command_add_frame (seq msglen : Z) (payload : list Z) : list Z :=
  let body := u8 msglen :: seq :: payload in
  let crc := crc16_ccitt body (Z.to_nat (msglen - MESSAGE_TRAILER_SIZE)) in
  body ++ [u8 (Z.shiftr crc 8); u8 crc; MESSAGE_SYNC].

Definition command_encode_and_frame (ce : command_encoder) (args : list varg) : FW (list Z) :=
  '(msglen, payload) ← lift_res (command_encodef ce args);
  seq ← gets (fun s => next_sequence (m_cmd s));
  mret (command_add_frame seq msglen payload).

(** A store of [data] at [buf[off]]; [None] when it leaves the array. *)
Definition store_bytes (buf : list Z) (off : Z) (data : list Z) : option (list Z) :=
  if (0 <=? off) && (off + Z.of_nat (length data) <=? Z.of_nat (length buf))
  then Some (take (Z.to_nat off) buf ++ data ++ drop (Z.to_nat off + length data) buf)
  else None.

Definition set_con (f : console_st -> console_st) : FW unit :=
  modify (fun s => s <| m_con ::= f |>).

(** End of [console_sendf]: generate the message at [transmit_buf[tmax]] and
    start its transmission. *)
Definition console_put (ce : command_encoder) (args : list varg) (tmax : Z) : FW unit :=
  msg ← command_encode_and_frame ce args;
  buf ← gets (fun s => transmit_buf (m_con s));
  buf ← deref "transmit_buf overflow" (store_bytes buf tmax msg);
  set_con (fun c => c <| transmit_buf := buf |> <| transmit_max := tmax + Z.of_nat (length msg) |>).

(** [console_sendf] of [serial_irq.c]. *)
Definition console_sendf (ce : command_encoder) (args : list varg) : FW unit :=
  con ← gets m_con;
  let tpos := transmit_pos con in
  let tmax := transmit_max con in
  '(tpos, tmax) ←
    (if tpos >=? tmax
     then set_con (fun c => c <| transmit_max := 0 |> <| transmit_pos := 0 |>) ;; mret (0, 0)
     else mret (tpos, tmax));
  let max_size := ce_max_size ce in
  let full := tmax + max_size >? TRANSMIT_BUF_SIZE in
  if full && (tmax + max_size - tpos >? TRANSMIT_BUF_SIZE) then mret tt
  else
    tmax ←
      (if full
       then
         set_con (fun c => c <| transmit_max := 0 |>) ;;
         tpos ← gets (fun s => transmit_pos (m_con s));
         let tmax := tmax - tpos in
         set_con (fun c =>
           c <| transmit_buf ::= fun b => take (Z.to_nat tmax) (drop (Z.to_nat tpos) b)
                                          ++ drop (Z.to_nat tmax) b |>
             <| transmit_pos := 0 |> <| transmit_max := tmax |>) ;;
         mret tmax
       else mret tmax);
    console_put ce args tmax.

(** [command_sendf]; [fmt] names the message in the log of what was sent. *)
Definition command_sendf (fmt : string) (ce : command_encoder) (args : list varg) : FW unit :=
  busy ← gets (fun s => in_sendf (m_cmd s));
  if truth busy then mret tt
  else
    modify (fun s => s <| m_cmd ::= upd in_sendf (fun _ => 1) |>) ;;
    modify (fun s => s <| m_hw ::= upd sent_log (cons (fmt, args)) |>) ;;
    console_sendf ce args ;;
    modify (fun s => s <| m_cmd ::= upd in_sendf (fun _ => 0) |>).

Definition sendf (fmt : string) (args : list varg) : FW unit :=
  command_sendf fmt (ctr_lookup_encoder fmt) args.

Definition output (fmt : string) (args : list varg) : FW unit :=
  command_sendf fmt (ctr_lookup_output fmt) args.

Definition sendf_shutdown : FW unit :=
  modify (fun s => s <| m_cmd ::= upd in_sendf (fun _ => 0) |>).

(** The empty message of an ack or nak. *)
Definition encode_acknak : command_encoder := mk_encoder 0 MESSAGE_MIN [].

Definition command_send_ack : FW unit := command_sendf "ack" encode_acknak [].

(** Sending a message changes the console, the [in_sendf] flag and the log
    only. *)
Definition quiet {C : Type} (f : mcu -> C) : Prop :=
  (forall g s, f (s <| m_con ::= g |>) = f s)
  /\ (forall g s, f (s <| m_cmd ::= upd in_sendf g |>) = f s)
  /\ (forall g s, f (s <| m_hw ::= upd sent_log g |>) = f s).

Lemma command_sendf_keeps {C : Type} (f : mcu -> C) fmt ce args :
  quiet f -> keeps f (command_sendf fmt ce args).
Proof.
  intros (H1 & H2 & H3). unfold command_sendf, console_sendf, console_put, command_encode_and_frame, set_con.
  keeps_tac; apply keeps_modify; auto.
Qed.

Lemma sendf_keeps {C : Type} (f : mcu -> C) fmt args : quiet f -> keeps f (sendf fmt args).
Proof. exact (command_sendf_keeps f fmt (ctr_lookup_encoder fmt) args). Qed.
Lemma output_keeps {C : Type} (f : mcu -> C) fmt args : quiet f -> keeps f (output fmt args).
Proof. exact (command_sendf_keeps f fmt (ctr_lookup_output fmt) args). Qed.

(** *** The transmit buffer as a queue of bytes *)

(** Invariant of the transmit half of [serial_irq.c]. *)
Definition con_wf (c : console_st) : Prop :=
  Z.of_nat (length (transmit_buf c)) = TRANSMIT_BUF_SIZE
  /\ 0 <= transmit_pos c <= transmit_max c /\ transmit_max c <= TRANSMIT_BUF_SIZE.

(** The bytes waiting for the transmit interrupt. *)
Definition pending (c : console_st) : list Z :=
  take (Z.to_nat (transmit_max c - transmit_pos c)) (drop (Z.to_nat (transmit_pos c)) (transmit_buf c)).

Lemma pending_length c :
  con_wf c -> Z.of_nat (length (pending c)) = transmit_max c - transmit_pos c.
Proof. intros (Hl & Hp & Hm). unfold pending. rewrite length_take, length_drop. lia. Qed.

Lemma store_bytes_length buf off data buf' :
  store_bytes buf off data = Some buf' -> length buf' = length buf.
Proof.
  unfold store_bytes. case_match; [| done]. intros [= <-].
  rewrite !length_app, length_take, length_drop. lia.
Qed.

(** A store that fits appends to the part of the buffer before it. *)
Lemma store_bytes_append buf pos mx data :
  0 <= pos <= mx -> mx + Z.of_nat (length data) <= Z.of_nat (length buf) ->
  exists buf', store_bytes buf mx data = Some buf' /\
    take (Z.to_nat (mx + Z.of_nat (length data) - pos)) (drop (Z.to_nat pos) buf')
    = take (Z.to_nat (mx - pos)) (drop (Z.to_nat pos) buf) ++ data.
Proof.
  intros Hp Hl. unfold store_bytes.
  assert ((0 <=? mx) && (mx + Z.of_nat (length data) <=? Z.of_nat (length buf)) = true) as -> by lia.
  eexists. split; [done |].
  rewrite drop_app_le by (rewrite length_take; lia).
  replace (take (Z.to_nat mx) buf)
    with (take (Z.to_nat pos + Z.to_nat (mx - pos)) buf) by (f_equal; lia).
  rewrite <- take_drop_commute.
  replace (Z.to_nat (mx + Z.of_nat (length data) - pos))
    with (length (take (Z.to_nat (mx - pos)) (drop (Z.to_nat pos) buf)) + length data)%nat
    by (rewrite length_take, length_drop; lia).
  by rewrite take_app_add, take_app_length.
Qed.

(** Moving the pending bytes to the front of the buffer keeps them. *)
Lemma compact_pending (buf : list Z) pos mx :
  0 <= pos <= mx -> mx <= Z.of_nat (length buf) ->
  let buf' := take (Z.to_nat (mx - pos)) (drop (Z.to_nat pos) buf) ++ drop (Z.to_nat (mx - pos)) buf in
  length buf' = length buf /\
  take (Z.to_nat (mx - pos)) buf' = take (Z.to_nat (mx - pos)) (drop (Z.to_nat pos) buf).
Proof.
  intros Hp Hm. cbn. split.
  - rewrite length_app, length_take, !length_drop. lia.
  - apply take_app_length'. rewrite length_take, length_drop. lia.
Qed.

Lemma m_con_self (s : mcu) : s <| m_con := m_con s |> = s.
Proof. by destruct s. Qed.

Lemma console_put_spec ce args n payload tmax s :
  Z.of_nat (length (transmit_buf (m_con s))) = TRANSMIT_BUF_SIZE ->
  0 <= transmit_pos (m_con s) <= tmax ->
  tmax + Z.of_nat (length (command_add_frame (next_sequence (m_cmd s)) n payload)) <= TRANSMIT_BUF_SIZE ->
  command_encodef ce args = Ok (n, payload) ->
  exists c', console_put ce args tmax s = (Ok tt, s <| m_con := c' |>) /\ con_wf c' /\
    pending c' =
      take (Z.to_nat (tmax - transmit_pos (m_con s)))
        (drop (Z.to_nat (transmit_pos (m_con s))) (transmit_buf (m_con s)))
      ++ command_add_frame (next_sequence (m_cmd s)) n payload.
Proof.
  intros Hl Hp Hm Henc. unfold console_put, command_encode_and_frame, set_con.
  rewrite Henc. msimpl.
  generalize dependent (command_add_frame (next_sequence (m_cmd s)) n payload). intros msg Hm.
  destruct (store_bytes_append (transmit_buf (m_con s)) (transmit_pos (m_con s)) tmax msg) as (buf' & E & Hd); [done | lia |].
  rewrite E. msimpl. eexists. split; [reflexivity |]. unfold con_wf, pending. simpl.
  apply store_bytes_length in E. rewrite E. split; [lia | exact Hd].
Qed.

(** [console_sendf] is a byte queue: with room for the message's declared
    maximum it appends exactly the framed message to what is waiting for
    transmission, and without room it drops the message and keeps the queue. *)
Lemma console_sendf_spec ce args n payload s :
  con_wf (m_con s) -> command_encodef ce args = Ok (n, payload) ->
  let msg := command_add_frame (next_sequence (m_cmd s)) n payload in
  Z.of_nat (length msg) <= ce_max_size ce ->
  exists c', console_sendf ce args s = (Ok tt, s <| m_con := c' |>) /\ con_wf c' /\
    pending c' =
      if Z.of_nat (length (pending (m_con s))) + ce_max_size ce <=? TRANSMIT_BUF_SIZE
      then pending (m_con s) ++ msg else pending (m_con s).
Proof.
  intros Hwf Henc msg Hlen. pose proof (pending_length _ Hwf) as Hpl. rewrite Hpl.
  destruct Hwf as (Hl & Hp & Hm). unfold console_sendf, set_con. msimpl.
  destruct (Z.geb_spec (transmit_pos (m_con s)) (transmit_max (m_con s))) as [He | He].
  - assert (Hnil : pending (m_con s) = []) by (apply length_zero_iff_nil; lia).
    rewrite Hnil. msimpl. rewrite Z.sub_0_r, andb_diag.
    destruct (Z.gtb_spec (0 + ce_max_size ce) TRANSMIT_BUF_SIZE); msimpl.
    + eexists. split; [reflexivity |].
      destruct (Z.leb_spec (transmit_max (m_con s) - transmit_pos (m_con s) + ce_max_size ce)
                  TRANSMIT_BUF_SIZE); [lia |]. unfold con_wf, pending. simpl. split; [lia | done].
    + edestruct (console_put_spec ce args n payload 0) as (c' & E & Hc & Hpc);
        [..| rewrite E; exists c'; split_and!; [reflexivity | done |]];
        simpl in *; try done; try lia.
      destruct (Z.leb_spec (transmit_max (m_con s) - transmit_pos (m_con s) + ce_max_size ce)
                  TRANSMIT_BUF_SIZE); [done | lia].
  - msimpl.
    destruct (Z.gtb_spec (transmit_max (m_con s) + ce_max_size ce) TRANSMIT_BUF_SIZE) as [Hf | Hf]; cbn [andb].
    + destruct (Z.gtb_spec (transmit_max (m_con s) + ce_max_size ce - transmit_pos (m_con s)) TRANSMIT_BUF_SIZE);
        destruct (Z.leb_spec (transmit_max (m_con s) - transmit_pos (m_con s) + ce_max_size ce) TRANSMIT_BUF_SIZE);
        try lia.
      { exists (m_con s). rewrite m_con_self. unfold con_wf. msimpl. auto with lia. }
      msimpl. simpl.
      destruct (compact_pending (transmit_buf (m_con s)) (transmit_pos (m_con s)) (transmit_max (m_con s)))
        as [Hcl Hcp]; [lia | lia |].
      edestruct (console_put_spec ce args n payload (transmit_max (m_con s) - transmit_pos (m_con s)))
        as (c' & E & Hc & Hpc); [..| rewrite E; exists c'; split_and!; [reflexivity | done |]];
        simpl in *; try done; try lia.
      rewrite Hpc, Z.sub_0_r, drop_0, Hcp. done.
    + destruct (Z.leb_spec (transmit_max (m_con s) - transmit_pos (m_con s) + ce_max_size ce) TRANSMIT_BUF_SIZE);
        [| lia]. msimpl.
      edestruct (console_put_spec ce args n payload (transmit_max (m_con s)))
        as (c' & E & Hc & Hpc); [..| rewrite E; exists c'; split_and!; [reflexivity | done | done]];
        simpl in *; try done; try lia.
Qed.

(** What [command_sendf] leaves behind when no other call is in progress. *)
Lemma command_sendf_spec fmt ce args n payload s :
  con_wf (m_con s) -> in_sendf (m_cmd s) = 0 -> command_encodef ce args = Ok (n, payload) ->
  let msg := command_add_frame (next_sequence (m_cmd s)) n payload in
  Z.of_nat (length msg) <= ce_max_size ce ->
  exists c',
    command_sendf fmt ce args s =
      (Ok tt, s <| m_con := c' |> <| m_hw ::= upd sent_log (cons (fmt, args)) |>) /\
    con_wf c' /\
    pending c' =
      if Z.of_nat (length (pending (m_con s))) + ce_max_size ce <=? TRANSMIT_BUF_SIZE
      then pending (m_con s) ++ msg else pending (m_con s).
Proof.
  intros Hwf Hin Henc msg Hlen. unfold command_sendf. msimpl. rewrite Hin. cbn [truth Z.eqb negb].
  msimpl. set (s1 := upd m_hw _ _).
  destruct (console_sendf_spec ce args n payload s1) as (c' & E & Hc & Hp); [done.. |].
  rewrite (bind_ok _ _ _ _ _ E). msimpl. exists c'. split; [| done].
  unfold s1. destruct s as [[? ? ?] ? ? ? ? ? ?]; simpl in *. by subst.
Qed.

(** A message sent while another is being sent is dropped. *)
Lemma command_sendf_busy fmt ce args s :
  in_sendf (m_cmd s) <> 0 -> command_sendf fmt ce args s = (Ok tt, s).
Proof.
  intros Hin. unfold command_sendf. msimpl. unfold truth.
  destruct (Z.eqb_spec (in_sendf (m_cmd s)) 0); [lia |]. done.
Qed.

(** An ack or nak always returns and touches the console only. *)
Lemma send_acknak fmt s :
  con_wf (m_con s) ->
  exists c' log, command_sendf fmt encode_acknak [] s =
      (Ok tt, s <| m_con := c' |> <| m_hw ::= upd sent_log (app log) |>) /\ con_wf c'.
Proof.
  intros Hwf. destruct (decide (in_sendf (m_cmd s) = 0)) as [Hz | Hz].
  - edestruct (command_sendf_spec fmt encode_acknak [] MESSAGE_MIN []) as (c' & E & Hc & _); try done.
    exists c', [(fmt, [])]. done.
  - exists (m_con s), []. rewrite command_sendf_busy by done. split; [| done].
    by destruct s as [? ? ? ? []].
Qed.

(** *** Messages built from integer parameters always fit *)

(** The maximum sizes from which [scripts/buildcommands.py] computes
    [max_size] (class attributes [max_length] of [klippy/msgproto.py]). *)
Definition param_max (t : param_type) : Z :=
  match t with
  | PT_uint32 | PT_int32 => 5
  | PT_uint16 | PT_int16 => 3
  | PT_byte => 2
  | _ => 64
  end.

(** An argument in the range its integer parameter type declares. *)
Definition arg_ok (t : param_type) (a : varg) : Prop :=
  match t, a with
  | (PT_uint32 | PT_int32), VInt _ => True
  | PT_uint16, VInt v => is_u16 v
  | PT_int16, VInt v => - 2 ^ 15 <= v < 2 ^ 15
  | PT_byte, VInt v => is_u8 v
  | _, _ => False
  end.

Lemma int_arg_bound t v :
  arg_ok t (VInt v) -> (1 <= length (encode_int (int_arg t v)))%nat /\
    Z.of_nat (length (encode_int (int_arg t v))) <= param_max t.
Proof.
  intros H. pose proof (encode_int_length (int_arg t v)). split; [lia |].
  assert (Hi : forall x, - 2 ^ 15 <= x < 2 ^ 15 -> (length (encode_int (u32 x)) <= 3)%nat).
  { intros x Hx. apply encode_int_length_3. cint_lia. }
  destruct t; try done; unfold int_arg in *; simpl param_max; simpl in H; try lia.
  - assert (E : (if CONFIG_MACH_AVR then u16 v else u32 v) = v) by (case_match; cint_lia).
    rewrite E. assert (Hl : (length (encode_int v) <= 3)%nat) by (apply encode_int_length_3; cint_lia). lia.
  - assert (E : (if CONFIG_MACH_AVR then u32 (s16 v) else u32 v) = u32 v) by (case_match; cint_lia).
    rewrite E. specialize (Hi v H). lia.
  - assert (E : (if CONFIG_MACH_AVR then u16 v else u32 v) = v) by (case_match; cint_lia).
    rewrite E. pose proof (encode_int_length_u8 v H). lia.
Qed.

Definition sumZ (l : list Z) : Z := foldr Z.add 0 l.

Lemma param_sum_cons t ts : sumZ (param_max <$> t :: ts) = param_max t + sumZ (param_max <$> ts).
Proof. done. Qed.

Lemma param_sum_nonneg ts : 0 <= sumZ (param_max <$> ts).
Proof.
  induction ts as [| t ts IH]; [done |]. rewrite param_sum_cons.
  assert (0 <= param_max t) by (by destruct t). lia.
Qed.

Lemma encode_params_fits max_size ts args acc :
  Forall2 arg_ok ts args ->
  Z.of_nat (length acc) + sumZ (param_max <$> ts) <= max_size - MESSAGE_MIN ->
  exists payload, encode_params max_size ts args acc = Ok payload /\
    Z.of_nat (length payload) <= Z.of_nat (length acc) + sumZ (param_max <$> ts).
Proof.
  intros H. revert acc. induction H as [| t a ts args Ht H IH]; intros acc Hs.
  { exists acc. cbn. split; [done | lia]. }
  rewrite param_sum_cons in Hs |- *. pose proof (param_sum_nonneg ts) as Hp.
  destruct a as [v | |]; [| by destruct t..].
  destruct (int_arg_bound t v Ht) as [_ Hl].
  assert (E : encode_param max_size t (VInt v :: args) acc = Ok (acc ++ encode_int (int_arg t v), args)).
  { unfold encode_param. cbv zeta.
    destruct (Z.gtb_spec (MESSAGE_HEADER_SIZE + Z.of_nat (length acc)) (MESSAGE_HEADER_SIZE + (max_size - MESSAGE_MIN)));
      [lia |]. by destruct t. }
  cbn [encode_params]. rewrite E. cbn [mbind res_bind].
  destruct (IH (acc ++ encode_int (int_arg t v))) as (payload & -> & Hb); rewrite length_app in *; [lia |].
  exists payload. split; [done | lia].
Qed.

(** The encoder reserves what its parameter types need, and the arguments are
    in range. *)
Definition fits (ce : command_encoder) (args : list varg) : Prop :=
  Forall2 arg_ok (ce_param_types ce) args
  /\ MESSAGE_MIN + 1 + sumZ (param_max <$> ce_param_types ce) <= ce_max_size ce.

Lemma encodef_run ce args seq :
  fits ce args ->
  exists n payload, command_encodef ce args = Ok (n, payload)
    /\ Z.of_nat (length (command_add_frame seq n payload)) = n /\ n <= ce_max_size ce.
Proof.
  intros [Ha Hm]. unfold command_encodef.
  pose proof (param_sum_nonneg (ce_param_types ce)) as Hp.
  destruct (Z.leb_spec (ce_max_size ce) MESSAGE_MIN); [lia |].
  destruct (encode_params_fits (ce_max_size ce) (ce_param_types ce) args [ce_msg_id ce])
    as (payload & -> & Hb); [done | cbn; lia |].
  cbn [mbind res_bind]. eexists _, payload. split; [reflexivity |].
  unfold command_add_frame. rewrite length_app. cbn [length] in *.
  unfold MESSAGE_HEADER_SIZE, MESSAGE_TRAILER_SIZE, MESSAGE_MIN in *. lia.
Qed.

(** Sending such a message always returns and touches the console only; it is
    sent unless another message is being sent. *)
Lemma command_sendf_total fmt ce args s :
  con_wf (m_con s) -> fits ce args ->
  exists c' log, command_sendf fmt ce args s =
      (Ok tt, s <| m_con := c' |> <| m_hw ::= upd sent_log (app log) |>) /\ con_wf c'
    /\ (in_sendf (m_cmd s) = 0 -> log = [(fmt, args)]).
Proof.
  intros Hwf Hf. destruct (decide (in_sendf (m_cmd s) = 0)) as [Hz | Hz].
  - destruct (encodef_run ce args (next_sequence (m_cmd s)) Hf) as (n & payload & E & El & Hn).
    destruct (command_sendf_spec fmt ce args n payload s) as (c' & Er & Hc & _); [done.. | by rewrite El |].
    exists c', [(fmt, args)]. done.
  - exists (m_con s), []. rewrite command_sendf_busy by done. split; [| done].
    by destruct s as [? ? ? ? []].
Qed.

(** With the [max_size] computed from the parameter types and arguments in
    range, an integer-only message is always encoded, its length field is the
    number of bytes of the frame, and the frame has at most [max_size] bytes:
    the space [console_sendf] reserves is enough. *)
Theorem command_encodef_fits ce args seq :
  Forall2 arg_ok (ce_param_types ce) args ->
  MESSAGE_MIN + 1 + sumZ (param_max <$> ce_param_types ce) <= ce_max_size ce ->
  exists n payload, command_encodef ce args = Ok (n, payload)
    /\ Z.of_nat (length (command_add_frame seq n payload)) = n /\ n <= ce_max_size ce.
Proof. intros Ha Hm. by apply encodef_run. Qed.

(** A batch of responses, sent one after the other. *)
Fixpoint send_all (msgs : list (string * command_encoder * list varg)) : FW unit :=
  match msgs with
  | [] => mret tt
  | (fmt, ce, args) :: msgs => command_sendf fmt ce args ;; send_all msgs
  end.

(** [batch_frames seq msgs frames]: every message of the batch encodes, within
    its declared maximum, to the corresponding frame. *)
Definition batch_frames (seq : Z) (msgs : list (string * command_encoder * list varg))
    (frames : list (list Z)) : Prop :=
  Forall2 (fun '(_, ce, args) frame =>
    exists n payload, command_encodef ce args = Ok (n, payload)
      /\ frame = command_add_frame seq n payload
      /\ Z.of_nat (length frame) <= ce_max_size ce) msgs frames.

(** C29: responses reach the wire whole and in order: as long as the declared
    sizes of a batch fit in the transmit buffer next to what is already
    waiting, sending the batch appends exactly the frames of its messages to
    the bytes waiting for transmission, and no store leaves [transmit_buf]. *)
Theorem send_all_in_order msgs frames s :
  con_wf (m_con s) -> in_sendf (m_cmd s) = 0 ->
  batch_frames (next_sequence (m_cmd s)) msgs frames ->
  Z.of_nat (length (pending (m_con s))) + sumZ ((fun '(_, ce, _) => ce_max_size ce) <$> msgs)
    <= TRANSMIT_BUF_SIZE ->
  exists s', send_all msgs s = (Ok tt, s') /\ con_wf (m_con s')
    /\ pending (m_con s') = pending (m_con s) ++ concat frames.
Proof.
  intros Hwf Hin Hb. revert s Hwf Hin Hb.
  induction msgs as [| [[fmt ce] args] msgs IH] in frames |- *; intros s Hwf Hin Hb Hs.
  { apply Forall2_nil_inv_l in Hb as ->. exists s. rewrite app_nil_r. done. }
  apply Forall2_cons_inv_l in Hb as (fr & frames' & (n & payload & He & -> & Hl) & Hb & ->).
  assert (Hpos : 0 <= sumZ ((fun '(_, ce, _) => ce_max_size ce) <$> msgs)).
  { clear -Hb. unfold batch_frames in Hb. induction Hb as [| [[? c] ?] f ? ? (? & ? & ? & ? & ?)]; [done |].
    rewrite fmap_cons. unfold sumZ in *. cbn [foldr]. lia. }
  change (sumZ _) with (ce_max_size ce + sumZ ((fun '(_, ce, _) => ce_max_size ce) <$> msgs)) in Hs.
  destruct (command_sendf_spec fmt ce args n payload s Hwf Hin He Hl) as (c' & E & Hc & Hp).
  destruct (Z.leb_spec (Z.of_nat (length (pending (m_con s))) + ce_max_size ce) TRANSMIT_BUF_SIZE); [| lia].
  cbn [send_all]. rewrite (bind_ok _ _ _ _ _ E).
  edestruct (IH frames') as (s' & E' & Hw & Hp'); [| | | | exists s'; rewrite E']; try done.
  - cbn -[length sumZ]. rewrite Hp, length_app. lia.
  - split; [done |]. split; [done |]. rewrite Hp'. cbn -[length]. by rewrite Hp, <- app_assoc.
Qed.

(** The truncation of an oversized buffer argument ignores its length
    byte: a message that ends in a [%*s] whose data does not fit comes out one
    byte longer than the [max_size] the transmit buffer reserved for it (and
    than MESSAGE_MAX when [max_size] is MESSAGE_MAX). *)
Theorem command_encodef_buffer_overrun ce len data :
  ce_param_types ce = [PT_buffer] -> MESSAGE_MIN + 1 < ce_max_size ce <= MESSAGE_MAX ->
  ce_max_size ce - MESSAGE_MIN - 1 < len < 2 ^ 32 -> Z.of_nat (length data) = len ->
  exists payload, command_encodef ce [VBuf len data] = Ok (ce_max_size ce + 1, payload).
Proof.
  unfold command_encodef, MESSAGE_MIN, MESSAGE_MAX. intros Ht Hm Hl Hd. rewrite Ht.
  destruct (Z.leb_spec (ce_max_size ce) 5); [lia |]. cbn [encode_params].
  unfold encode_param. cbv zeta. cbn [length]. unfold MESSAGE_HEADER_SIZE, MESSAGE_TRAILER_SIZE, MESSAGE_MIN.
  destruct (Z.gtb_spec (2 + Z.of_nat 1) (2 + (ce_max_size ce - 5))); [lia |].
  rewrite (u32_small len) by cint_lia.
  destruct (Z.gtb_spec len (2 + (ce_max_size ce - 5) - (2 + Z.of_nat 1))); [| lia].
  destruct (Z.ltb_spec (Z.of_nat (length data)) (2 + (ce_max_size ce - 5) - (2 + Z.of_nat 1))); [lia |].
  cbn [mbind res_bind encode_params]. eexists. do 2 f_equal.
  rewrite length_app. cbn [length]. rewrite length_take. lia.
Qed.

End WithBoard.

#[export] Hint Resolve command_sendf_keeps sendf_keeps output_keeps : keeps.
#[export] Hint Extern 0 (quiet _) => unfold quiet; split_and!; reflexivity : keeps.

(** A response of three integers, as [stats] is. *)
Definition demo_response : command_encoder := mk_encoder 3 21 [PT_uint32; PT_uint32; PT_byte].

Lemma send_all_in_order_witness :
  exists s', send_all (B := demo_board)
      [("a"%string, demo_response, [VInt 1; VInt 70000; VInt 5]);
       ("b"%string, demo_response, [VInt 2; VInt 0; VInt 255])] initial_mcu = (Ok tt, s')
    /\ con_wf (m_con s') /\ pending (m_con s') =
         [] ++ concat [[11; 16; 3; 1; 132; 162; 112; 5; 43; 148; 126]; [10; 16; 3; 2; 0; 129; 127; 226; 182; 126]].
Proof.
  apply (send_all_in_order (B := demo_board)); [done | done | | vm_compute; discriminate].
  unfold batch_frames. rewrite !Forall2_cons, Forall2_nil. split; [| split; [| done]];
    (eexists _, _; split; [vm_compute; reflexivity |]; split; [vm_compute; reflexivity | vm_compute; discriminate]).
Defined.

Lemma command_encodef_fits_witness :
  exists n payload, command_encodef (B := demo_board) demo_response [VInt 7; VInt (-1); VInt 200] = Ok (n, payload)
    /\ Z.of_nat (length (command_add_frame 0x10 n payload)) = n /\ n <= 21.
Proof.
  apply (command_encodef_fits (B := demo_board) demo_response [VInt 7; VInt (-1); VInt 200] 0x10);
    [repeat constructor; vm_compute; congruence | vm_compute; discriminate].
Defined.

Lemma command_encodef_buffer_overrun_witness :
  exists payload, command_encodef (B := demo_board) (mk_encoder 1 64 [PT_buffer])
    [VBuf 60 (replicate 60 0)] = Ok (64 + 1, payload).
Proof.
  apply (command_encodef_buffer_overrun (B := demo_board) (mk_encoder 1 64 [PT_buffer]));
    [done | done | done | done].
Defined.

End Encode.

Module Block.
Import Encode.

Definition CF_NEED_SYNC : Z := 1.
Definition CF_NEED_VALID : Z := 2.

Section WithBoard.
Context `{B : Board}.

Definition set_sync_state (f : Z -> Z) : FW unit :=
  modify (fun s => s <| m_cmd ::= upd sync_state f |>).

(** Label [nak]. *)
Definition find_block_nak (pop : Z) : FW (Z * Z) :=
  command_sendf "nak" encode_acknak [] ;; mret (-1, pop).

(** Label [need_sync]: discard bytes until the next SYNC. *)
Definition find_block_need_sync (buf : list Z) : FW (Z * Z) :=
  pop ←
    (match list_find (eq MESSAGE_SYNC) buf with
     | Some (i, _) =>
         set_sync_state (fun x => clr x CF_NEED_SYNC) ;; mret (Z.of_nat i + 1)
     | None => mret (Z.of_nat (length buf))
     end);
  st ← gets (fun s => sync_state (m_cmd s));
  if has st CF_NEED_VALID then mret (-1, pop)
  else set_sync_state (fun x => Z.lor x CF_NEED_VALID) ;; find_block_nak pop.

(** Label [error]. *)
Definition find_block_error (buf : list Z) : FW (Z * Z) :=
  b0 ← deref "buf[0]" (buf !! 0%nat);
  if b0 =? MESSAGE_SYNC then mret (-1, 1)
  else set_sync_state (fun x => Z.lor x CF_NEED_SYNC) ;; find_block_need_sync buf.

(** [command_find_block]: the return value and [*pop_count]; [buf] holds the
    [buf_len] bytes received so far. *)
Definition command_find_block (buf : list Z) : FW (Z * Z) :=
  let buf_len := Z.of_nat (length buf) in
  let rd (i : Z) : FW Z := deref "buf" (buf !! Z.to_nat i) in
  st ← gets (fun s => sync_state (m_cmd s));
  if truth buf_len && has st CF_NEED_SYNC then find_block_need_sync buf
  else if buf_len <? MESSAGE_MIN then mret (0, 0)
  else
    msglen ← rd (Z.of_nat MESSAGE_POS_LEN);
    if (msglen <? MESSAGE_MIN) || (msglen >? MESSAGE_MAX) then find_block_error buf
    else
      msgseq ← rd (Z.of_nat MESSAGE_POS_SEQ);
      if negb (clr msgseq MESSAGE_SEQ_MASK =? MESSAGE_DEST) then find_block_error buf
      else if buf_len <? msglen then mret (0, 0)
      else
        sync ← rd (msglen - MESSAGE_TRAILER_SYNC);
        if negb (sync =? MESSAGE_SYNC) then find_block_error buf
        else
          hi ← rd (msglen - MESSAGE_TRAILER_CRC);
          lo ← rd (msglen - MESSAGE_TRAILER_CRC + 1);
          let msgcrc := u16 (Z.lor (Z.shiftl hi 8) lo) in
          let crc := crc16_ccitt buf (Z.to_nat (msglen - MESSAGE_TRAILER_SIZE)) in
          if negb (crc =? msgcrc) then find_block_error buf
          else
            set_sync_state (fun x => clr x CF_NEED_VALID) ;;
            next ← gets (fun s => next_sequence (m_cmd s));
            if negb (msgseq =? next) then find_block_nak msglen
            else
              modify (fun s => s <| m_cmd ::= upd next_sequence (fun _ =>
                Z.lor (Z.land (msgseq + 1) MESSAGE_SEQ_MASK) MESSAGE_DEST) |>) ;;
              mret (1, msglen).

(** *** Specification of the block recogniser *)

(** [framed buf n q payload rest]: the buffer starts with the [n] byte message
    block that carries [payload] under the sequence byte [q]. *)
Definition framed (buf : list Z) (n q : Z) (payload rest : list Z) : Prop :=
  buf = command_add_frame q n payload ++ rest
  /\ n = Z.of_nat (length payload) + MESSAGE_MIN /\ n <= MESSAGE_MAX
  /\ clr q MESSAGE_SEQ_MASK = MESSAGE_DEST.

(** The sequence number expected after [q]. *)
Definition seq_next (q : Z) : Z := Z.lor (Z.land (q + 1) MESSAGE_SEQ_MASK) MESSAGE_DEST.

(** What the recogniser does with a well-formed block. *)
Definition accept_block (n q : Z) : FW (Z * Z) :=
  set_sync_state (fun x => clr x CF_NEED_VALID) ;;
  next ← gets (fun s => next_sequence (m_cmd s));
  if negb (q =? next) then find_block_nak n
  else modify (fun s => s <| m_cmd ::= upd next_sequence (fun _ => seq_next q) |>) ;; mret (1, n).

Lemma crc_bytes_join crc :
  is_u16 crc -> u16 (Z.lor (Z.shiftl (u8 (Z.shiftr crc 8)) 8) (u8 crc)) = crc.
Proof.
  intros H. rewrite lor_shift_add; [| lia | apply u8_range].
  rewrite Z.shiftr_div_pow2 by lia. cint_lia.
Qed.

Lemma crc_bytes_split hi lo :
  is_u8 hi -> is_u8 lo -> let crc := u16 (Z.lor (Z.shiftl hi 8) lo) in
  u8 (Z.shiftr crc 8) = hi /\ u8 crc = lo.
Proof.
  intros Hh Hl. cbv zeta. rewrite lor_shift_add; [| lia | apply Hl].
  rewrite Z.shiftr_div_pow2 by lia. split; cint_lia.
Qed.

Lemma crc16_ccitt_range buf n : is_u16 (crc16_ccitt buf n).
Proof. unfold crc16_ccitt. apply crc16_foldl_range. cint_lia. Qed.

Lemma crc16_ccitt_prefix body rest n :
  n = length body -> crc16_ccitt (body ++ rest) n = crc16_ccitt body n.
Proof. intros ->. unfold crc16_ccitt. by rewrite take_app_length, firstn_all. Qed.

(** The fields of a framed block as the recogniser reads them. *)
Lemma framed_fields buf n q payload rest :
  framed buf n q payload rest ->
  let crc := crc16_ccitt buf (Z.to_nat (n - 3)) in
  buf !! 0%nat = Some n /\ buf !! 1%nat = Some q /\ buf !! Z.to_nat (n - 3) = Some (u8 (Z.shiftr crc 8))
  /\ buf !! Z.to_nat (n - 2) = Some (u8 crc) /\ buf !! Z.to_nat (n - 1) = Some MESSAGE_SYNC
  /\ 5 <= n <= 64 /\ n <= Z.of_nat (length buf).
Proof.
  unfold framed, command_add_frame, MESSAGE_MIN, MESSAGE_MAX, MESSAGE_TRAILER_SIZE.
  intros (-> & Hn & Hm & _). set (body := u8 n :: q :: payload).
  assert (Hb : length body = Z.to_nat (n - 3)) by (simpl; lia).
  rewrite <- app_assoc, crc16_ccitt_prefix by done. rewrite length_app.
  split_and!; try (simpl length; lia); try done.
  - simpl. f_equal. cint_lia.
  - by rewrite lookup_app_r, Hb, Nat.sub_diag by lia.
  - rewrite lookup_app_r by lia. by replace (Z.to_nat (n - 2) - length body)%nat with 1%nat by lia.
  - rewrite lookup_app_r by lia. by replace (Z.to_nat (n - 1) - length body)%nat with 2%nat by lia.
Qed.

(** Conversely, these fields make the buffer a framed block. *)
Lemma fields_framed buf n q :
  let crc := crc16_ccitt buf (Z.to_nat (n - 3)) in
  is_u8 n -> 5 <= n <= 64 -> n <= Z.of_nat (length buf) -> clr q MESSAGE_SEQ_MASK = MESSAGE_DEST ->
  buf !! 0%nat = Some n -> buf !! 1%nat = Some q -> buf !! Z.to_nat (n - 3) = Some (u8 (Z.shiftr crc 8)) ->
  buf !! Z.to_nat (n - 2) = Some (u8 crc) -> buf !! Z.to_nat (n - 1) = Some MESSAGE_SYNC ->
  exists payload rest, framed buf n q payload rest.
Proof.
  intros crc Hu Hn Hl Hq H0 H1 H2 H3 H4.
  destruct buf as [| b0 [| b1 tl]]; [done.. |]. simpl in H0, H1. simplify_eq.
  exists (take (Z.to_nat (n - 5)) tl), (drop (Z.to_nat (n - 2)) tl).
  assert (Htl : tl = take (Z.to_nat (n - 5)) tl
     ++ [u8 (Z.shiftr crc 8); u8 crc; MESSAGE_SYNC] ++ drop (Z.to_nat (n - 2)) tl).
  { rewrite <- (take_drop (Z.to_nat (n - 5)) tl) at 1. f_equal.
    replace (Z.to_nat (n - 3)) with (S (S (Z.to_nat (n - 5)))) in H2 by lia.
    replace (Z.to_nat (n - 2)) with (S (S (S (Z.to_nat (n - 5))))) in H3 |- * by lia.
    replace (Z.to_nat (n - 1)) with (S (S (S (S (Z.to_nat (n - 5)))))) in H4 by lia.
    simpl in H2, H3, H4. by rewrite (drop_S _ _ _ H2), (drop_S _ _ _ H3), (drop_S _ _ _ H4). }
  simpl in Hl. unfold framed, command_add_frame, MESSAGE_MIN, MESSAGE_MAX, MESSAGE_TRAILER_SIZE in *.
  split_and!; [| rewrite length_take; lia | lia | done].
  rewrite u8_small by done. rewrite <- app_assoc. simpl. do 2 f_equal. rewrite Htl at 1.
  assert (E : crc16_ccitt (n :: q :: take (Z.to_nat (n - 5)) tl) (Z.to_nat (n - 3)) = crc); [| by rewrite E].
  unfold crc. rewrite Htl at 2.
  change (n :: q :: ?a ++ ?b) with ((n :: q :: a) ++ b). symmetry. apply crc16_ccitt_prefix.
  simpl. rewrite length_take. lia.
Qed.

Lemma lookup_u8 (buf : list Z) i x : Forall is_u8 buf -> buf !! i = Some x -> is_u8 x.
Proof. intros H. by apply Forall_lookup_1. Qed.

Lemma lookup_in_range (buf : list Z) i : (i < length buf)%nat -> exists x, buf !! i = Some x.
Proof. intros H. by apply lookup_lt_is_Some. Qed.

(** The three outcomes of the checks on a synchronised stream. *)
Inductive block_outcome (buf : list Z) (s : mcu) : res (Z * Z) * mcu -> Prop :=
| need_more_data :
    Z.of_nat (length buf) < MESSAGE_MAX ->
    (forall n q payload rest, ~ framed buf n q payload rest) -> block_outcome buf s (Ok (0, 0), s)
| bad_block :
    MESSAGE_MIN <= Z.of_nat (length buf) ->
    (forall n q payload rest, ~ framed buf n q payload rest) -> block_outcome buf s (find_block_error buf s)
| good_block n q payload rest :
    framed buf n q payload rest -> block_outcome buf s (accept_block n q s).

Ltac not_framed :=
  let H := fresh in intros ? ? ? ? H;
  pose proof (proj2 (proj2 (proj2 H)));
  destruct (framed_fields _ _ _ _ _ H) as (? & ? & ? & ? & ? & ? & ?); clear H; simplify_eq; try lia.

Lemma find_block_outcome buf s :
  Forall is_u8 buf -> has (sync_state (m_cmd s)) CF_NEED_SYNC = false ->
  block_outcome buf s (command_find_block buf s).
Proof.
  intros Hu Hs. unfold command_find_block, MESSAGE_MIN. msimpl. rewrite Hs, andb_false_r.
  destruct (Z.ltb_spec (Z.of_nat (length buf)) 5) as [H5 | H5].
  { constructor; [unfold MESSAGE_MAX; lia | not_framed]. }
  destruct (lookup_in_range buf 0) as [n Hn]; [lia |].
  destruct (lookup_in_range buf 1) as [q Hq]; [lia |].
  change (Z.to_nat (Z.of_nat MESSAGE_POS_LEN)) with 0%nat. change (Z.to_nat (Z.of_nat MESSAGE_POS_SEQ)) with 1%nat.
  rewrite Hn, Hq. msimpl. pose proof (lookup_u8 _ _ _ Hu Hn) as Hnu.
  destruct (Z.ltb_spec n 5); [| destruct (Z.gtb_spec n MESSAGE_MAX)]; cbn [orb];
    unfold MESSAGE_MAX in *; [constructor; [done | not_framed].. |]. msimpl.
  destruct (Z.eqb_spec (clr q MESSAGE_SEQ_MASK) MESSAGE_DEST) as [Hd | Hd]; cbn [negb];
    [| constructor; [done | not_framed; done]].
  destruct (Z.ltb_spec (Z.of_nat (length buf)) n) as [Hl | Hl].
  { constructor; [unfold MESSAGE_MAX; lia | not_framed]. }
  unfold MESSAGE_TRAILER_SYNC, MESSAGE_TRAILER_CRC, MESSAGE_TRAILER_SIZE.
  replace (n - 3 + 1) with (n - 2) by lia.
  destruct (lookup_in_range buf (Z.to_nat (n - 1))) as [sy Hsy]; [lia |].
  destruct (lookup_in_range buf (Z.to_nat (n - 3))) as [hi Hhi]; [lia |].
  destruct (lookup_in_range buf (Z.to_nat (n - 2))) as [lo Hlo]; [lia |].
  rewrite Hsy. msimpl.
  destruct (Z.eqb_spec sy MESSAGE_SYNC) as [-> |]; cbn [negb]; [| constructor; [done | not_framed; done]].
  rewrite Hhi, Hlo. msimpl. pose proof (crc16_ccitt_range buf (Z.to_nat (n - 3))) as Hcr.
  destruct (Z.eqb_spec (crc16_ccitt buf (Z.to_nat (n - 3))) (u16 (Z.lor (Z.shiftl hi 8) lo))) as [Hc | Hc];
    cbn [negb]; [| constructor; [done | not_framed; by rewrite crc_bytes_join in Hc]].
  destruct (crc_bytes_split hi lo) as [Eh El]; [by eapply lookup_u8.. |]. rewrite <- Hc in Eh, El.
  destruct (fields_framed buf n q) as (payload & rest & HF); try done; [by rewrite Eh | by rewrite El |].
  apply (good_block buf s n q payload rest HF).
Qed.

(** Effect of losing synchronisation: the console may send one nak, the
    expected sequence number is kept. *)
Definition desync_post (s s' : mcu) : Prop :=
  con_wf (m_con s') /\ next_sequence (m_cmd s') = next_sequence (m_cmd s)
  /\ (has (sync_state (m_cmd s)) CF_NEED_VALID = true ->
        has (sync_state (m_cmd s')) CF_NEED_VALID = true /\ m_hw s' = m_hw s /\ m_con s' = m_con s).

Lemma nak_total n s :
  con_wf (m_con s) ->
  exists s', find_block_nak n s = (Ok (-1, n), s') /\ con_wf (m_con s') /\ m_cmd s' = m_cmd s.
Proof.
  intros Hw. unfold find_block_nak. destruct (send_acknak "nak" s Hw) as (c & log & E & Hc).
  rewrite (bind_ok _ _ _ _ _ E). msimpl. eexists. split; [reflexivity |]. done.
Qed.

(** Where the search for SYNC stops. *)
Definition sync_pop (buf : list Z) : Z :=
  match list_find (eq MESSAGE_SYNC) buf with
  | Some (i, _) => Z.of_nat i + 1
  | None => Z.of_nat (length buf)
  end.

Lemma sync_pop_range buf : buf <> [] -> 1 <= sync_pop buf <= Z.of_nat (length buf).
Proof.
  intros H. unfold sync_pop. destruct buf as [| b tl]; [done |].
  destruct (list_find _ _) as [[i x] |] eqn:E; [| simpl; lia].
  apply list_find_Some in E as (E & _ & _). apply lookup_lt_Some in E. lia.
Qed.

Lemma need_sync_total buf s :
  con_wf (m_con s) ->
  exists s', find_block_need_sync buf s = (Ok (-1, sync_pop buf), s') /\ desync_post s s'
    /\ has (sync_state (m_cmd s')) CF_NEED_VALID = true
    /\ (MESSAGE_SYNC ∈ buf -> has (sync_state (m_cmd s')) CF_NEED_SYNC = false).
Proof.
  intros Hw. unfold find_block_need_sync, set_sync_state, sync_pop, desync_post.
  destruct (list_find _ _) as [[i x] |] eqn:Ef.
  - msimpl. simpl. rewrite has_clr_other by done.
    destruct (has (sync_state (m_cmd s)) CF_NEED_VALID) eqn:Ev.
    + eexists. split; [reflexivity |]. simpl. rewrite has_clr_other, has_clr_same by done. done.
    + msimpl. edestruct nak_total as (s' & E & Hc & Hm); [| rewrite E; exists s']; [done |].
      rewrite Hm. simpl. rewrite has_lor_same, has_lor_other, has_clr_same by done. done.
  - msimpl. apply list_find_None in Ef. rewrite Forall_forall in Ef.
    destruct (has (sync_state (m_cmd s)) CF_NEED_VALID) eqn:Ev.
    + eexists. split; [reflexivity |]. rewrite Ev. split; [done |]. split; [done |]. by intros ?%Ef.
    + msimpl. edestruct nak_total as (s' & E & Hc & Hm); [| rewrite E; exists s']; [done |].
      rewrite Hm. simpl. rewrite has_lor_same by done. split; [done |]. split; [done |]. split; [done |]. by intros ?%Ef.
Qed.

Lemma find_block_error_total buf s :
  con_wf (m_con s) -> buf <> [] ->
  exists pop s', find_block_error buf s = (Ok (-1, pop), s') /\ 1 <= pop <= Z.of_nat (length buf)
    /\ desync_post s s'.
Proof.
  intros Hw Hb. unfold find_block_error, set_sync_state. destruct buf as [| b tl]; [done |].
  simpl lookup. msimpl. destruct (Z.eqb_spec b MESSAGE_SYNC); msimpl.
  - exists 1, s. unfold desync_post. simpl length. split; [done |]. split; [lia |]. done.
  - edestruct (need_sync_total (b :: tl)) as (s' & E & (Hc & Hn & Hv) & _);
      [| rewrite E; exists (sync_pop (b :: tl)), s']; [done |].
    split; [done |]. split; [by apply sync_pop_range |]. unfold desync_post in *. simpl in *.
    rewrite has_lor_other in Hv by done. done.
Qed.

Lemma find_block_unsynced buf s :
  buf <> [] -> has (sync_state (m_cmd s)) CF_NEED_SYNC = true ->
  command_find_block buf s = find_block_need_sync buf s.
Proof.
  intros Hb Hs. unfold command_find_block. msimpl. rewrite Hs.
  destruct buf; [done |]. done.
Qed.

(** C30: [command_find_block] never reads outside the received bytes, always
    returns, and always makes progress: it asks for more data (leaving
    everything as it was) only while fewer than MESSAGE_MAX bytes are
    there, and otherwise tells the caller to drop between
    1 and [buf_len] bytes, so a full receive buffer can never get stuck. *)
Theorem command_find_block_progress buf s :
  con_wf (m_con s) -> Forall is_u8 buf ->
  exists ret pop s', command_find_block buf s = (Ok (ret, pop), s') /\ con_wf (m_con s') /\
    ((ret = 0 /\ pop = 0 /\ s' = s /\ Z.of_nat (length buf) < MESSAGE_MAX)
     \/ ((ret = 1 \/ ret = -1) /\ 1 <= pop <= Z.of_nat (length buf))).
Proof.
  intros Hw Hu.
  destruct (has (sync_state (m_cmd s)) CF_NEED_SYNC) eqn:Hs; [destruct buf as [| b tl] |].
  - exists 0, 0, s. split; [done |]. split; [done |]. left. done.
  - rewrite find_block_unsynced by done.
    destruct (need_sync_total (b :: tl) s Hw) as (s' & E & (Hc & _) & _).
    exists (-1), (sync_pop (b :: tl)), s'. rewrite E.
    split; [done |]. split; [done |]. right. split; [by right | by apply sync_pop_range].
  - destruct (find_block_outcome buf s Hu Hs) as [? _ | Hl _ | n q payload rest HF].
    + exists 0, 0, s. naive_solver.
    + destruct (find_block_error_total buf s Hw) as (pop & s' & E & Hp & (Hc & _)).
      { by intros ->. }
      exists (-1), pop, s'. rewrite E. split; [done |]. split; [done |]. right. split; [by right | done].
    + destruct (framed_fields _ _ _ _ _ HF) as (_ & _ & _ & _ & _ & Hn & Hl).
      unfold accept_block, set_sync_state. msimpl. simpl.
      destruct (Z.eqb_spec q (next_sequence (m_cmd s))); cbn [negb]; msimpl;
        [exists 1, n; eexists; simpl; split; [reflexivity |]; split; [done |]; right; lia |].
      edestruct nak_total as (s' & E & Hc & _); [| rewrite E; exists (-1), n, s']; [done |].
      split; [done |]. split; [done |]. right; lia.
Qed.

(** On a synchronised stream [command_find_block] reports a block exactly
    when the received bytes start with the frame [command_add_frame] builds
    around some payload for the expected sequence number; it then drops exactly
    that frame and expects the next sequence number. *)
Theorem command_find_block_accepts buf s n s' :
  con_wf (m_con s) -> Forall is_u8 buf -> has (sync_state (m_cmd s)) CF_NEED_SYNC = false ->
  command_find_block buf s = (Ok (1, n), s') <->
  (exists payload rest, framed buf n (next_sequence (m_cmd s)) payload rest) /\
  s' = s <| m_cmd ::= upd sync_state (fun x => clr x CF_NEED_VALID) |>
         <| m_cmd ::= upd next_sequence (fun _ => seq_next (next_sequence (m_cmd s))) |>.
Proof.
  intros Hw Hu Hs. destruct (find_block_outcome buf s Hu Hs) as [? Hn | Hl Hn | n' q payload rest HF].
  - split; [done |]. intros [(p & r & HF) _]. by apply Hn in HF.
  - destruct (find_block_error_total buf s Hw) as (pop & s1 & E & _).
    { by intros ->. }
    rewrite E. split; [done |]. intros [(p & r & H) _]. by apply Hn in H.
  - pose proof (framed_fields _ _ _ _ _ HF) as (H0 & H1 & _). unfold accept_block, set_sync_state. msimpl. simpl.
    destruct (Z.eqb_spec q (next_sequence (m_cmd s))) as [-> | Hq]; cbn [negb]; msimpl.
    + split; [intros [= <- <-]; naive_solver |].
      intros [(p & r & H) ->]. apply framed_fields in H as (H0' & _). by simplify_eq.
    + edestruct nak_total as (s1 & E & _); [| rewrite E]; [done |]. split; [done |].
      intros [(p & r & H) _]. apply framed_fields in H as (_ & H1' & _). by simplify_eq.
Qed.

Lemma sync_pop_app junk rest :
  MESSAGE_SYNC ∉ junk -> sync_pop (junk ++ MESSAGE_SYNC :: rest) = Z.of_nat (length junk) + 1.
Proof.
  intros Hj. unfold sync_pop. assert (E : list_find (eq MESSAGE_SYNC) (junk ++ MESSAGE_SYNC :: rest)
    = Some (length junk, MESSAGE_SYNC)); [| by rewrite E].
  apply list_find_Some. split; [by rewrite list_lookup_middle |]. split; [done |].
  intros j y Hy Hl Hy'. subst y. apply Hj. rewrite lookup_app_l in Hy by done. by apply list_elem_of_lookup_2 in Hy.
Qed.

(** Recovery from a lost byte: out of synchronisation, the recogniser
    drops the received bytes up to and including the next SYNC, and if the
    expected message block follows it is found by the next call, whatever the
    discarded bytes were. *)
Theorem command_find_block_resync junk n payload rest s :
  con_wf (m_con s) -> has (sync_state (m_cmd s)) CF_NEED_SYNC = true -> MESSAGE_SYNC ∉ junk ->
  Forall is_u8 payload -> Forall is_u8 rest -> is_u8 (next_sequence (m_cmd s)) ->
  clr (next_sequence (m_cmd s)) MESSAGE_SEQ_MASK = MESSAGE_DEST ->
  n = Z.of_nat (length payload) + MESSAGE_MIN -> n <= MESSAGE_MAX ->
  let buf := junk ++ MESSAGE_SYNC :: command_add_frame (next_sequence (m_cmd s)) n payload ++ rest in
  exists pop s1 s2,
    command_find_block buf s = (Ok (-1, pop), s1) /\
    command_find_block (drop (Z.to_nat pop) buf) s1 = (Ok (1, n), s2) /\
    next_sequence (m_cmd s2) = seq_next (next_sequence (m_cmd s)).
Proof.
  intros Hw Hs Hj Hp Hr Hq Hd Hn Hm buf. rewrite find_block_unsynced by (done || by destruct junk).
  destruct (need_sync_total buf s Hw) as (s1 & E & (Hc & Hseq & _) & _ & Hsy).
  exists (sync_pop buf), s1. rewrite E. unfold buf. rewrite sync_pop_app by done.
  replace (Z.to_nat (Z.of_nat (length junk) + 1)) with (length junk + 1)%nat by lia.
  rewrite drop_app_add. change (drop 1 (MESSAGE_SYNC :: ?l)) with l. rewrite <- Hseq in Hq, Hd |- *.
  assert (HF : framed (command_add_frame (next_sequence (m_cmd s1)) n payload ++ rest) n
    (next_sequence (m_cmd s1)) payload rest) by done.
  assert (Hu : Forall is_u8 (command_add_frame (next_sequence (m_cmd s1)) n payload ++ rest)).
  { unfold command_add_frame. rewrite !Forall_app, !Forall_cons. split_and!; auto using u8_range; by unfold is_u8. }
  destruct (find_block_outcome _ s1 Hu) as [? HN | ? HN | n' q p' r' HF'].
  { apply Hsy. unfold buf. set_solver. }
  - by apply HN in HF.
  - by apply HN in HF.
  - apply framed_fields in HF as (H0 & H1 & _), HF' as (H0' & H1' & _).
    rewrite H0 in H0'. rewrite H1 in H1'. simplify_eq.
    eexists. split; [done |]. unfold accept_block, set_sync_state. msimpl. simpl.
    rewrite Z.eqb_refl. cbn [negb]. msimpl. done.
Qed.

(** One loss of synchronisation causes one nak: while the recogniser is
    still waiting for a valid block, a stretch of bytes that does not start
    with one is dropped without another message to the host. *)
Theorem command_find_block_one_nak buf s :
  con_wf (m_con s) -> Forall is_u8 buf -> has (sync_state (m_cmd s)) CF_NEED_VALID = true ->
  (forall n q payload rest, ~ framed buf n q payload rest) ->
  exists ret pop s', command_find_block buf s = (Ok (ret, pop), s') /\ ret <= 0 /\ m_con s' = m_con s /\ m_hw s' = m_hw s
    /\ next_sequence (m_cmd s') = next_sequence (m_cmd s)
    /\ has (sync_state (m_cmd s')) CF_NEED_VALID = true.
Proof.
  intros Hw Hu Hv HN.
  destruct (has (sync_state (m_cmd s)) CF_NEED_SYNC) eqn:Hs; [destruct buf as [| b tl] |].
  - exists 0, 0, s. done.
  - rewrite find_block_unsynced by done.
    destruct (need_sync_total (b :: tl) s Hw) as (s' & E & (Hc & Hq & Hd) & _).
    exists (-1), (sync_pop (b :: tl)), s'. destruct (Hd Hv) as (? & ? & ?). by rewrite E.
  - destruct (find_block_outcome buf s Hu Hs) as [? _ | Hl _ | n q payload rest HF].
    + exists 0, 0, s. done.
    + destruct (find_block_error_total buf s Hw) as (pop & s' & E & Hp & (Hc & Hq & Hd)).
      { by intros ->. }
      exists (-1), pop, s'. destruct (Hd Hv) as (? & ? & ?). by rewrite E.
    + by apply HN in HF.
Qed.

End WithBoard.

(** The state with given synchronisation flags, and a received block. *)
Definition demo_state (flags : Z) : mcu := initial_mcu <| m_cmd ::= upd sync_state (fun _ => flags) |>.
Definition demo_block : list Z := command_add_frame 0x10 7 [5; 9].

Lemma command_find_block_progress_witness :
  exists ret pop s', command_find_block (B := demo_board) [1; 2; 3; 4; 5; 6] initial_mcu = (Ok (ret, pop), s')
    /\ con_wf (m_con s') /\
    ((ret = 0 /\ pop = 0 /\ s' = initial_mcu /\ 6 < MESSAGE_MAX)
     \/ ((ret = 1 \/ ret = -1) /\ 1 <= pop <= 6)).
Proof.
  apply (command_find_block_progress (B := demo_board) [1; 2; 3; 4; 5; 6] initial_mcu); [done |].
  vm_decide.
Defined.

Lemma command_find_block_accepts_witness :
  command_find_block (B := demo_board) demo_block initial_mcu
  = (Ok (1, 7), initial_mcu <| m_cmd ::= upd next_sequence (fun _ => 0x11) |>).
Proof.
  apply (command_find_block_accepts (B := demo_board) demo_block initial_mcu 7); [done | vm_decide | done |].
  split; [| vm_compute; reflexivity]. exists [5; 9], []. unfold framed. rewrite app_nil_r. done.
Defined.

Lemma command_find_block_resync_witness :
  exists pop s1 s2,
    command_find_block (B := demo_board) ([1; 2; 3] ++ MESSAGE_SYNC :: demo_block ++ [7]) (demo_state 1)
      = (Ok (-1, pop), s1) /\
    command_find_block (B := demo_board)
      (drop (Z.to_nat pop) ([1; 2; 3] ++ MESSAGE_SYNC :: demo_block ++ [7])) s1 = (Ok (1, 7), s2) /\
    next_sequence (m_cmd s2) = 0x11.
Proof.
  apply (command_find_block_resync (B := demo_board) [1; 2; 3] 7 [5; 9] [7] (demo_state 1));
    try vm_decide; try done.
Defined.

Lemma command_find_block_one_nak_witness :
  exists ret pop s', command_find_block (B := demo_board) [1; 2; 3; 4; 5; 6] (demo_state 2) = (Ok (ret, pop), s')
    /\ ret <= 0 /\ m_con s' = m_con initial_mcu /\ m_hw s' = m_hw initial_mcu
    /\ next_sequence (m_cmd s') = 0x10 /\ has (sync_state (m_cmd s')) CF_NEED_VALID = true.
Proof.
  apply (command_find_block_one_nak (B := demo_board) [1; 2; 3; 4; 5; 6] (demo_state 2));
    [done | vm_decide | done |].
  intros n q payload rest H. apply framed_fields in H as (H0 & _ & _ & _ & _ & Hn & _).
  simpl in H0. simplify_eq. lia.
Defined.

End Block.
