(* ===== verification/Sched.v ===== *)
(** * Sched: timers, tasks and shutdown

    Models [src/src/sched.c] and the time arithmetic of
    [src/src/generic/timer_irq.c]: the linked list of timers with its periodic,
    sentinel and deleted entries, the task wake flags and the shutdown state.
    The callbacks a timer may run belong to the other components: the dispatch
    is defined against the interface [Callbacks]. *)

From S2P Require Import Prelude Wire State Command.
Import Encode.

Definition SF_DONE : Z := 0.
Definition SF_RESCHEDULE : Z := 1.

Definition TS_IDLE : Z := -1.
Definition TS_REQUESTED : Z := 0.
Definition TS_RUNNING : Z := 1.

(** [timer_is_before]: comparison of two points of the wrapping clock. *)
Definition timer_is_before (time1 time2 : Z) : bool := s32 (u32 (time1 - time2)) <? 0.

Section WithBoard.
Context `{B : Board}.

Definition timer_from_us (us : Z) : Z := u32 (us * (CONFIG_CLOCK_FREQ / 1000000)).

(** Every read of the clock is a new reading of the hardware. *)
Definition timer_read_time : FW Z :=
  n ← gets (fun s => ticks (m_hw s));
  modify (fun s => s <| m_hw ::= upd ticks S |>) ;;
  mret (u32 (hw_time n)).

Definition timer_kick : FW unit := modify (fun s => s <| m_hw ::= upd kicks S |>).

(** ** Access to [struct timer]s *)

Definition tm_get (p : tptr) : FW timer :=
  T ← gets (fun s => timers (m_sched s)); deref "timer" (T !! p).

Definition tm_upd (p : tptr) (f : timer -> timer) : FW unit :=
  _ ← tm_get p; modify (fun s => s <| m_sched ::= upd timers (alter f p) |>).

(** Read of [p->next] where a NULL would be dereferenced next. *)
Definition tm_next (p : tptr) : FW tptr := t ← tm_get p; deref "timer next" (t_next t).

Definition set_sched (f : sched_st -> sched_st) : FW unit := modify (fun s => s <| m_sched ::= f |>).

(** ** Tasks *)

Definition sched_wake_tasks : FW unit := set_sched (fun S => S <| tasks_status := TS_REQUESTED |>).

Definition sched_tasks_busy : FW bool := gets (fun s => tasks_status (m_sched s) >=? TS_REQUESTED).

Definition wake_eqb (a b : wake_id) : bool := bool_decide (a = b).

Definition sched_wake_task (w : wake_id) : FW unit :=
  sched_wake_tasks ;;
  modify (fun s => s <| m_wake ::= fun W w' => wake_eqb w w' || W w' |>).

Definition sched_check_wake (w : wake_id) : FW bool :=
  b ← gets (fun s => m_wake s w);
  if negb b then mret false
  else modify (fun s => s <| m_wake ::= fun W w' => negb (wake_eqb w w') && W w' |>) ;; mret true.

(** ** The timer list *)

(** The [for (;;)] loop of [insert_timer]: [prev] and [pos] at the break. *)
Fixpoint insert_timer_loop (fuel : nat) (pos : tptr) (waketime : Z) : FW (tptr * tptr) :=
  match fuel with
  | O => lift_res OutOfFuel
  | S fuel =>
      let prev := pos in
      pos ← tm_next pos;
      t ← tm_get pos;
      if timer_is_before waketime (t_waketime t) then mret (prev, pos)
      else insert_timer_loop fuel pos waketime
  end.

Definition insert_timer (pos t : tptr) (waketime : Z) : FW unit :=
  n ← gets (fun s => size (timers (m_sched s)));
  '(prev, pos) ← insert_timer_loop n pos waketime;
  tm_upd t (fun r => r <| t_next := Some pos |>) ;;
  tm_upd prev (fun r => r <| t_next := Some t |>).

(** First half of [sched_add_timer]'s "before all other timers" branch: a
    timer that is already late gets a new time two microseconds from now. *)
Definition add_timer_clamp (add : tptr) (waketime : Z) : FW (Z * bool) :=
  now ← timer_read_time;
  if timer_is_before waketime now
  then
    now ← timer_read_time;
    let waketime := u32 (now + timer_from_us 2) in
    tm_upd add (fun r => r <| t_waketime := waketime |>) ;;
    mret (waketime, true)
  else mret (waketime, false).

Definition sched_add_timer (add : tptr) : FW unit :=
  t ← tm_get add;
  let waketime := t_waketime t in
  tl ← gets (fun s => timer_list (m_sched s));
  tlt ← tm_get tl;
  flags ←
    (if timer_is_before waketime (t_waketime tlt)
     then
       '(waketime, flags) ← add_timer_clamp add waketime;
       (if decide (tl = DeletedTimer)
        then d ← tm_get DeletedTimer; tm_upd add (fun r => r <| t_next := t_next d |>)
        else tm_upd add (fun r => r <| t_next := Some tl |>)) ;;
       tm_upd DeletedTimer (fun r => r <| t_waketime := waketime |>) ;;
       tm_upd DeletedTimer (fun r => r <| t_next := Some add |>) ;;
       set_sched (fun S => S <| timer_list := DeletedTimer |>) ;;
       timer_kick ;;
       mret flags
     else insert_timer tl add waketime ;; mret false);
  when flags (output "Timer too close" []).

(** The search loop of [sched_del_timer]. *)
Fixpoint del_timer_loop (fuel : nat) (pos del : tptr) : FW unit :=
  match fuel with
  | O => lift_res OutOfFuel
  | S fuel =>
      t ← tm_get pos;
      match t_next t with
      | None => mret tt
      | Some nx =>
          if decide (nx = del)
          then d ← tm_get del; tm_upd pos (fun r => r <| t_next := t_next d |>)
          else del_timer_loop fuel nx del
      end
  end.

(** The last statement: [last_insert] must not refer to a deleted timer. *)
Definition del_timer_hint (del : tptr) : FW unit :=
  li ← gets (fun s => last_insert (m_sched s));
  when (bool_decide (li = del)) (set_sched (fun S => S <| last_insert := PeriodicTimer |>)).

Definition sched_del_timer (del : tptr) : FW unit :=
  tl ← gets (fun s => timer_list (m_sched s));
  (if decide (tl = del)
   then
     d ← tm_get del;
     tm_upd DeletedTimer (fun r => r <| t_waketime := t_waketime d |>) ;;
     tm_upd DeletedTimer (fun r => r <| t_next := t_next d |>) ;;
     set_sched (fun S => S <| timer_list := DeletedTimer |>)
   else
     n ← gets (fun s => size (timers (m_sched s)));
     del_timer_loop n tl del) ;;
  del_timer_hint del.

(** ** Timer callbacks of [sched.c] *)

Definition periodic_event : FW Z :=
  sched_wake_tasks ;;
  tm_upd PeriodicTimer (fun r => r <| t_waketime ::= fun w => u32 (w + timer_from_us 100000) |>) ;;
  p ← tm_get PeriodicTimer;
  tm_upd SentinelTimer (fun r => r <| t_waketime := u32 (t_waketime p + 0x80000000) |>) ;;
  mret SF_RESCHEDULE.

Definition sentinel_event : FW Z := shutdown "sentinel timer called".
Definition deleted_event : FW Z := mret SF_DONE.

(** ** Dispatch *)

(** What the other components provide: the function a [func] pointer denotes,
    and the inlined stepper handler. *)
Class Callbacks := {
  call_func : tfunc -> tptr -> FW Z;
  call_stepper : tptr -> FW Z;
}.

(** [t->func(t)], or the inlined stepper handler for a NULL function. *)
Definition run_callback `{Callbacks} (t : tptr) : FW Z :=
  tm ← tm_get t;
  match t_func tm with
  | None => if CONFIG_INLINE_STEPPER_HACK then call_stepper t else fault "NULL func"
  | Some f => call_func f t
  end.

(** "Update timer_list" part of [sched_timer_dispatch]. *)
Definition dispatch_update (t : tptr) (res : Z) : FW Z :=
  tm ← tm_get t;
  let updated_waketime := t_waketime tm in
  nx ← tm_next t;
  nxt ← tm_get nx;
  if res =? SF_DONE
  then
    set_sched (fun S => S <| timer_list := nx |>) ;;
    li ← gets (fun s => last_insert (m_sched s));
    when (bool_decide (li = t)) (set_sched (fun S => S <| last_insert := nx |>)) ;;
    mret (t_waketime nxt)
  else if negb (timer_is_before updated_waketime (t_waketime nxt))
  then
    set_sched (fun S => S <| timer_list := nx |>) ;;
    li ← gets (fun s => last_insert (m_sched s));
    lit ← tm_get li;
    let pos := if timer_is_before updated_waketime (t_waketime lit) then nx else li in
    insert_timer pos t updated_waketime ;;
    set_sched (fun S => S <| last_insert := t |>) ;;
    mret (t_waketime nxt)
  else mret updated_waketime.

Definition sched_timer_dispatch `{Callbacks} : FW Z :=
  t ← gets (fun s => timer_list (m_sched s));
  res ← run_callback t;
  dispatch_update t res.

Definition sched_timer_reset : FW unit :=
  set_sched (fun S => S <| timer_list := DeletedTimer |>) ;;
  p ← tm_get PeriodicTimer;
  tm_upd DeletedTimer (fun r => r <| t_waketime := t_waketime p |>) ;;
  set_sched (fun S => S <| last_insert := PeriodicTimer |>) ;;
  tm_upd DeletedTimer (fun r => r <| t_next := Some PeriodicTimer |>) ;;
  tm_upd PeriodicTimer (fun r => r <| t_next := Some SentinelTimer |>) ;;
  timer_kick.

(** ** Shutdown *)

Definition sched_is_shutdown : FW bool := gets (fun s => truth (shutdown_status (m_sched s))).

Definition sched_clear_shutdown : FW unit :=
  st ← gets (fun s => shutdown_status (m_sched s));
  if st =? 0 then shutdown "Shutdown cleared when not shutdown"
  else if st =? 2 then mret tt
  else set_sched (fun S => S <| shutdown_status := 0 |>).

(** [run_shutdown]; [shutdownfuncs] is the generated [ctr_run_shutdownfuncs]. *)
Definition run_shutdown (shutdownfuncs : FW unit) (reason : Z) : FW unit :=
  cur ← timer_read_time;
  st ← gets (fun s => shutdown_status (m_sched s));
  when (st =? 0) (set_sched (fun S => S <| shutdown_reason := u8 reason |>)) ;;
  set_sched (fun S => S <| shutdown_status := 2 |>) ;;
  sched_timer_reset ;;
  shutdownfuncs ;;
  set_sched (fun S => S <| shutdown_status := 1 |>) ;;
  r ← gets (fun s => shutdown_reason (m_sched s));
  sendf "shutdown clock=%u static_string_id=%hu" [VInt cur; VInt r].

Definition sched_report_shutdown : FW unit :=
  r ← gets (fun s => shutdown_reason (m_sched s));
  sendf "is_shutdown static_string_id=%hu" [VInt r].

Definition sched_try_shutdown (reason : string) : FW unit :=
  st ← gets (fun s => shutdown_status (m_sched s));
  when (st =? 0) (shutdown reason).

Definition sched_fake_shutdown (reason : string) : FW unit :=
  cur ← timer_read_time;
  sendf "fakeshutdown clock=%u static_string_id=%hu" [VInt cur; VInt (ctr_lookup_static_string reason)].

End WithBoard.

(** ** The timer list as a sorted queue *)

Abbreviation timer_map := (gmap tptr timer).

Definition nxt (T : timer_map) (p : tptr) : option (option tptr) := t_next <$> T !! p.
Definition wk (T : timer_map) (p : tptr) : option Z := t_waketime <$> T !! p.

(** The timers of [l] are linked in this order and the last one points to [e]. *)
Abbreviation lseg T l e := (seg (nxt T) l e).

Lemma nxt_alter T f p : nxt (alter f p T) p = (fun t => t_next (f t)) <$> T !! p.
Proof. unfold nxt. rewrite lookup_alter_eq. by destruct (T !! p). Qed.
Lemma nxt_alter_ne T f p q : q <> p -> nxt (alter f p T) q = nxt T q.
Proof. intros H. unfold nxt. by rewrite lookup_alter_ne. Qed.
Lemma wk_alter T f p : wk (alter f p T) p = (fun t => t_waketime (f t)) <$> T !! p.
Proof. unfold wk. rewrite lookup_alter_eq. by destruct (T !! p). Qed.
Lemma wk_alter_ne T f p q : q <> p -> wk (alter f p T) q = wk T q.
Proof. intros H. unfold wk. by rewrite lookup_alter_ne. Qed.

(** A link update keeps every wake time, a wake time update every link. *)
Lemma wk_set_next T p v q : wk (alter (fun r => r <| t_next := v |>) p T) q = wk T q.
Proof.
  destruct (decide (q = p)) as [-> |]; [| by apply wk_alter_ne].
  rewrite wk_alter. unfold wk. by destruct (T !! p) as [[]|].
Qed.
Lemma nxt_set_wake T p v q : nxt (alter (fun r => r <| t_waketime := v |>) p T) q = nxt T q.
Proof.
  destruct (decide (q = p)) as [-> |]; [| by apply nxt_alter_ne].
  rewrite nxt_alter. unfold nxt. by destruct (T !! p) as [[]|].
Qed.
Lemma nxt_set_next T p v : is_Some (T !! p) -> nxt (alter (fun r => r <| t_next := v |>) p T) p = Some v.
Proof. intros [t Ht]. rewrite nxt_alter, Ht. done. Qed.
Lemma wk_set_wake T p v : is_Some (T !! p) -> wk (alter (fun r => r <| t_waketime := v |>) p T) p = Some v.
Proof. intros [t Ht]. rewrite wk_alter, Ht. done. Qed.

Lemma nxt_is_Some T p v : nxt T p = Some v -> is_Some (T !! p).
Proof. unfold nxt. intros H. by destruct (T !! p). Qed.

(** Linking [t] between two neighbours. *)
Definition link (T : timer_map) (prev t : tptr) (pos : option tptr) : timer_map :=
  alter (fun r => r <| t_next := Some t |>) prev (alter (fun r => r <| t_next := pos |>) t T).

Lemma link_lseg T l1 prev t l2 e :
  NoDup (l1 ++ prev :: l2) -> t ∉ l1 ++ prev :: l2 -> is_Some (T !! t) ->
  lseg T (l1 ++ prev :: l2) e ->
  lseg (link T prev t (hd_or l2 e)) (l1 ++ prev :: t :: l2) e.
Proof.
  intros Hnd Ht Hs. rewrite !seg_app. simpl. intros (H1 & Hp & H2).
  apply NoDup_app in Hnd as (Hnd1 & Hd & Hnd2). apply NoDup_cons in Hnd2 as [Hp2 Hnd2].
  assert (Hpt : prev <> t) by set_solver. unfold link.
  assert (Hp1 : prev ∉ l1). { intros H. apply Hd in H. set_solver. }
  split_and!.
  - eapply seg_frame; [| exact H1]. intros p Hp'. rewrite !nxt_alter_ne by set_solver. done.
  - apply nxt_set_next. rewrite lookup_alter_ne by done. by eapply nxt_is_Some.
  - rewrite nxt_alter_ne by done. by apply nxt_set_next.
  - eapply seg_frame; [| exact H2]. intros p Hp'. rewrite !nxt_alter_ne by set_solver. done.
Qed.

(** Unlinking [t] from behind [prev]. *)
Lemma unlink_lseg T l1 prev t l2 e :
  NoDup (l1 ++ prev :: t :: l2) -> lseg T (l1 ++ prev :: t :: l2) e ->
  lseg (alter (fun r => r <| t_next := hd_or l2 e |>) prev T) (l1 ++ prev :: l2) e.
Proof.
  intros Hnd. rewrite !seg_app. simpl. intros (H1 & Hp & Ht & H2).
  apply NoDup_app in Hnd as (Hnd1 & Hd & Hnd2). apply NoDup_cons in Hnd2 as [Hp2 Hnd2].
  assert (Hp1 : prev ∉ l1). { intros H. apply Hd in H. set_solver. }
  split_and!.
  - eapply seg_frame; [| exact H1]. intros p Hp'. rewrite !nxt_alter_ne by set_solver. done.
  - apply nxt_set_next. by eapply nxt_is_Some.
  - eapply seg_frame; [| exact H2]. intros p Hp'. rewrite !nxt_alter_ne by set_solver. done.
Qed.

(** *** Running the primitive accesses *)

Section Runs.
Context `{B : Board}.
Implicit Types s : mcu.

Lemma tm_get_run p t s : timers (m_sched s) !! p = Some t -> tm_get p s = (Ok t, s).
Proof. intros H. unfold tm_get. msimpl. rewrite H. done. Qed.

Lemma tm_next_run p q s : nxt (timers (m_sched s)) p = Some (Some q) -> tm_next p s = (Ok q, s).
Proof.
  unfold nxt, tm_next. intros H. destruct (timers (m_sched s) !! p) as [t |] eqn:E; [| done].
  rewrite (bind_ok _ _ _ _ _ (tm_get_run _ _ _ E)). simpl in H. injection H as ->. done.
Qed.

Lemma tm_upd_run p f s :
  is_Some (timers (m_sched s) !! p) ->
  tm_upd p f s = (Ok tt, s <| m_sched ::= upd timers (alter f p) |>).
Proof. intros [t H]. unfold tm_upd. rewrite (bind_ok _ _ _ _ _ (tm_get_run _ _ _ H)). done. Qed.

Lemma wk_lookup (T : timer_map) p w : wk T p = Some w -> exists t, T !! p = Some t /\ t_waketime t = w.
Proof. unfold wk. intros H. destruct (T !! p) as [t |]; [| done]. simplify_eq/=. eauto. Qed.

Lemma timer_is_before_abs x y :
  - 2 ^ 31 <= x - y < 2 ^ 31 -> timer_is_before (u32 x) (u32 y) = (x <? y).
Proof.
  intros H. unfold timer_is_before. autorewrite with wrap32. rewrite s32_u32, s32_small by done.
  destruct (Z.ltb_spec (x - y) 0), (Z.ltb_spec x y); lia.
Qed.

(** The sentinel is later than every time at or after the periodic timer. *)
Lemma timer_is_before_sentinel w p :
  p <= w < p + 2 ^ 31 -> timer_is_before (u32 w) (u32 (p + 2 ^ 31)) = true.
Proof. intros H. rewrite timer_is_before_abs by lia. apply Z.ltb_lt. lia. Qed.

(** Insertion into the abstract queue: behind every entry not later than [w]. *)
Fixpoint qinsert (abs : tptr -> Z) (t : tptr) (w : Z) (l : list tptr) : list tptr :=
  match l with
  | [] => [t]
  | p :: l => if w <? abs p then t :: p :: l else p :: qinsert abs t w l
  end.

Lemma insert_timer_loop_spec abs t w l pos fuel s :
  let T := timers (m_sched s) in
  lseg T (pos :: l ++ [SentinelTimer]) None ->
  (forall p, p ∈ l -> wk T p = Some (u32 (abs p)) /\ - 2 ^ 31 <= w - abs p < 2 ^ 31) ->
  (Forall (fun p => abs p <= w) l ->
     exists v, wk T SentinelTimer = Some v /\ timer_is_before (u32 w) v = true) ->
  (length l < fuel)%nat ->
  exists l1 prev l2 nx, pos :: l = l1 ++ prev :: l2
    /\ hd_or (l2 ++ [SentinelTimer]) None = Some nx
    /\ insert_timer_loop fuel pos (u32 w) s = (Ok (prev, nx), s)
    /\ pos :: qinsert abs t w l = l1 ++ prev :: t :: l2.
Proof.
  intros T. induction l as [| p l IH] in pos, fuel |- *; intros Hseg Hw Hsen Hf;
    destruct fuel as [| fuel]; try (simpl in Hf; lia); cbn [insert_timer_loop].
  - destruct Hsen as (v & Hv & Hb); [constructor |]. destruct Hseg as [Hn _]. simpl in Hn.
    rewrite (bind_ok _ _ _ _ _ (tm_next_run _ _ _ Hn)).
    apply wk_lookup in Hv as (ts & Hts & <-). rewrite (bind_ok _ _ _ _ _ (tm_get_run _ _ _ Hts)), Hb.
    exists [], pos, [], SentinelTimer. done.
  - destruct Hseg as [Hn Hseg]. simpl in Hn. rewrite (bind_ok _ _ _ _ _ (tm_next_run _ _ _ Hn)).
    destruct (Hw p (list_elem_of_here p l)) as [Hp Hr]. pose proof Hp as (tp & Htp & Hwk)%wk_lookup.
    rewrite (bind_ok _ _ _ _ _ (tm_get_run _ _ _ Htp)), Hwk, timer_is_before_abs by done. cbn [qinsert].
    destruct (Z.ltb_spec w (abs p)).
    + exists [], pos, (p :: l), p. done.
    + destruct (IH p fuel) as (l1 & prev & l2 & nx & El & Enx & Erun & Eq); [done | | | simpl in Hf; lia |].
      { intros q Hq. by apply Hw, list_elem_of_further. }
      { intros HF. apply Hsen. by constructor. }
      exists (pos :: l1), prev, l2, nx. rewrite Erun, El, Eq. done.
Qed.

(** *** Queue insertion *)

Definition le_abs (abs : tptr -> Z) (p q : tptr) : Prop := abs p <= abs q.

Lemma qinsert_perm abs t w l : qinsert abs t w l ≡ₚ t :: l.
Proof.
  induction l as [| p l IH]; simpl; [done |]. destruct (w <? abs p); [done |].
  rewrite IH. constructor.
Qed.

Lemma qinsert_ext abs abs' t w l :
  (forall p, p ∈ l -> abs p = abs' p) -> qinsert abs t w l = qinsert abs' t w l.
Proof.
  induction l as [| p l IH]; simpl; [done |]. intros H.
  rewrite <- (H p) by apply list_elem_of_here.
  rewrite IH; [done |]. intros q Hq. by apply H, list_elem_of_further.
Qed.

Lemma qinsert_sorted abs t l :
  StronglySorted (le_abs abs) l -> StronglySorted (le_abs abs) (qinsert abs t (abs t) l).
Proof.
  induction 1 as [| p l Hs IH Hp]; simpl; [repeat constructor |].
  destruct (Z.ltb_spec (abs t) (abs p)).
  - constructor; [by constructor |]. constructor; [unfold le_abs; lia |].
    eapply Forall_impl; [exact Hp |]. unfold le_abs. intros q Hq. lia.
  - constructor; [done |]. rewrite qinsert_perm. constructor; [done | done].
Qed.

Lemma sorted_ext abs abs' l :
  (forall p, p ∈ l -> abs' p = abs p) -> StronglySorted (le_abs abs) l -> StronglySorted (le_abs abs') l.
Proof.
  intros Ha Hs. induction Hs as [| p l Hs IH Hp]; constructor.
  - apply IH. intros q Hq. by apply Ha, list_elem_of_further.
  - rewrite Forall_forall in *. unfold le_abs in *. intros q Hq.
    rewrite (Ha p), (Ha q); [by apply Hp | by apply list_elem_of_further | by apply list_elem_of_here].
Qed.

Lemma sorted_before abs l1 p l2 q :
  StronglySorted (le_abs abs) (l1 ++ p :: l2) -> q ∈ l1 -> abs q <= abs p.
Proof.
  intros Hs Hq. apply (StronglySorted_app_1_elem_of _ _ _ q p Hs Hq). apply list_elem_of_here.
Qed.

Lemma qinsert_skip abs t w l1 p l2 :
  StronglySorted (le_abs abs) (l1 ++ p :: l2) -> abs p <= w ->
  qinsert abs t w (l1 ++ p :: l2) = l1 ++ p :: qinsert abs t w l2.
Proof.
  intros Hs Hp. induction l1 as [| q l1 IH]; simpl.
  - destruct (Z.ltb_spec w (abs p)); [lia | done].
  - pose proof (sorted_before abs (q :: l1) p l2 q Hs (list_elem_of_here q l1)).
    destruct (Z.ltb_spec w (abs q)); [lia |]. f_equal. apply IH. by inversion Hs.
Qed.

(** *** Fuel: a list without repetition is no longer than the timers there are *)

Lemma lseg_is_Some T l e p : lseg T l e -> p ∈ l -> is_Some (T !! p).
Proof.
  induction l as [| q l IH]; [by intros _ ?%elem_of_nil |]. intros [Hn Hs] [-> | Hp]%elem_of_cons.
  - by eapply nxt_is_Some.
  - by apply IH.
Qed.

(** *** [insert_timer] *)

(** What linking [t] into the list may change. *)
Record relinked (T T' : timer_map) : Prop := {
  rl_wake : forall q, wk T' q = wk T q;
  rl_dom : forall q, is_Some (T' !! q) <-> is_Some (T !! q);
}.

Lemma relinked_refl T : relinked T T.
Proof. by split. Qed.

Lemma relinked_alter T T' p v :
  relinked T T' -> relinked T (alter (fun r => r <| t_next := v |>) p T').
Proof.
  intros [Hw Hd]. split; intros q.
  - by rewrite wk_set_next.
  - rewrite <- Hd. destruct (decide (q = p)) as [-> |]; [| by rewrite lookup_alter_ne].
    rewrite lookup_alter_eq, fmap_is_Some. done.
Qed.

Lemma insert_timer_from_loop abs t w start pos l l1 prev l2 nx s :
  let T := timers (m_sched s) in
  insert_timer_loop (size T) start (u32 w) s = (Ok (prev, nx), s) ->
  pos :: l = l1 ++ prev :: l2 -> hd_or (l2 ++ [SentinelTimer]) None = Some nx ->
  pos :: qinsert abs t w l = l1 ++ prev :: t :: l2 ->
  NoDup (pos :: l ++ [SentinelTimer]) -> t ∉ pos :: l ++ [SentinelTimer] -> is_Some (T !! t) ->
  lseg T (pos :: l ++ [SentinelTimer]) None ->
  exists T', insert_timer start t (u32 w) s = (Ok tt, s <| m_sched ::= upd timers (fun _ => T') |>)
    /\ relinked T T' /\ lseg T' (pos :: qinsert abs t w l ++ [SentinelTimer]) None
    /\ (forall q, q <> t -> q ∉ pos :: l -> nxt T' q = nxt T q).
Proof.
  intros T Hloop El Enx Eq Hnd Ht Hts Hseg.
  assert (El' : pos :: l ++ [SentinelTimer] = l1 ++ prev :: (l2 ++ [SentinelTimer])).
  { change (pos :: l ++ [SentinelTimer]) with ((pos :: l) ++ [SentinelTimer]). by rewrite El, <- app_assoc. }
  rewrite El' in Hnd, Ht, Hseg. exists (link T prev t (Some nx)).
  assert (Hprev : prev <> t) by set_solver.
  assert (Hps : is_Some (T !! prev)).
  { eapply lseg_is_Some; [exact Hseg |]. rewrite elem_of_app, elem_of_cons. auto. }
  unfold insert_timer. msimpl. rewrite (bind_ok _ _ _ _ _ Hloop). cbv beta iota.
  rewrite (bind_ok _ _ _ _ _ (tm_upd_run _ _ _ Hts)), tm_upd_run; [| simpl; by rewrite lookup_alter_ne].
  split; [done |]. split; [by do 2 apply relinked_alter; apply relinked_refl |]. split.
  - change (pos :: qinsert abs t w l ++ [SentinelTimer]) with ((pos :: qinsert abs t w l) ++ [SentinelTimer]).
    rewrite Eq, <- app_assoc. rewrite <- Enx. by apply link_lseg.
  - intros q Hq Hql. unfold link. rewrite El in Hql. rewrite !nxt_alter_ne; [done | done | set_solver].
Qed.

Lemma insert_timer_spec abs t w pos l s :
  let T := timers (m_sched s) in
  lseg T (pos :: l ++ [SentinelTimer]) None -> NoDup (pos :: l ++ [SentinelTimer]) ->
  t ∉ pos :: l ++ [SentinelTimer] -> is_Some (T !! t) ->
  (forall p, p ∈ l -> wk T p = Some (u32 (abs p)) /\ - 2 ^ 31 <= w - abs p < 2 ^ 31) ->
  (Forall (fun p => abs p <= w) l ->
     exists v, wk T SentinelTimer = Some v /\ timer_is_before (u32 w) v = true) ->
  exists T', insert_timer pos t (u32 w) s = (Ok tt, s <| m_sched ::= upd timers (fun _ => T') |>)
    /\ relinked T T' /\ lseg T' (pos :: qinsert abs t w l ++ [SentinelTimer]) None
    /\ (forall q, q <> t -> q ∉ pos :: l -> nxt T' q = nxt T q).
Proof.
  intros T Hseg Hnd Ht Hts Hw Hsen.
  pose proof (NoDup_size T _ Hnd (fun p => lseg_is_Some T _ _ p Hseg)) as Hsz.
  simpl in Hsz. rewrite length_app in Hsz.
  destruct (insert_timer_loop_spec abs t w l pos (size T) s) as (l1 & prev & l2 & nx & El & Enx & Er & Eq);
    [done.. | lia |].
  by eapply insert_timer_from_loop.
Qed.

(** The walk may start at [t] itself, whose link still leads to the list: this
    is what happens when the dispatched timer was the last one inserted. *)
Lemma insert_timer_self_spec abs t w pos l s :
  let T := timers (m_sched s) in
  lseg T (t :: pos :: l ++ [SentinelTimer]) None -> NoDup (t :: pos :: l ++ [SentinelTimer]) ->
  abs pos <= w ->
  (forall p, p ∈ pos :: l -> wk T p = Some (u32 (abs p)) /\ - 2 ^ 31 <= w - abs p < 2 ^ 31) ->
  (Forall (fun p => abs p <= w) l ->
     exists v, wk T SentinelTimer = Some v /\ timer_is_before (u32 w) v = true) ->
  exists T', insert_timer t t (u32 w) s = (Ok tt, s <| m_sched ::= upd timers (fun _ => T') |>)
    /\ relinked T T' /\ lseg T' (pos :: qinsert abs t w l ++ [SentinelTimer]) None
    /\ (forall q, q <> t -> q ∉ pos :: l -> nxt T' q = nxt T q).
Proof.
  intros T Hseg Hnd Hle Hw Hsen.
  pose proof (NoDup_size T _ Hnd (fun p => lseg_is_Some T _ _ p Hseg)) as Hsz.
  simpl in Hsz. rewrite length_app in Hsz. apply NoDup_cons in Hnd as [Ht Hnd].
  pose proof Hseg as [Hn Hseg']. simpl in Hn.
  destruct (size T) as [| n] eqn:En; [lia |].
  destruct (insert_timer_loop_spec abs t w l pos n s) as (l1 & prev & l2 & nx & El & Enx & Er & Eq);
    [done | | done | lia |].
  { intros p Hp. by apply Hw, list_elem_of_further. }
  eapply insert_timer_from_loop; try done; [| by eapply nxt_is_Some].
  fold T. rewrite En. cbn [insert_timer_loop]. rewrite (bind_ok _ _ _ _ _ (tm_next_run _ _ _ Hn)).
  destruct (Hw pos (list_elem_of_here pos l)) as [Hp Hr]. apply wk_lookup in Hp as (tp & Htp & Hwk).
  rewrite (bind_ok _ _ _ _ _ (tm_get_run _ _ _ Htp)), Hwk, timer_is_before_abs by done.
  destruct (Z.ltb_spec w (abs pos)); [lia | done].
Qed.

End Runs.

(** ** The scheduler invariant

    [l] is the list of timers in front of the sentinel and [abs] gives every
    timer of the list the absolute time its 32-bit [waketime] stands for.  All
    of them lie in one window of [2^31] ticks, in which [timer_is_before] is a
    total order. *)

Record queue_inv (lo : Z) (abs : tptr -> Z) (l : list tptr) (S : sched_st) : Prop := {
  qi_head : hd_or l None = Some (timer_list S);
  qi_seg : lseg (timers S) (l ++ [SentinelTimer]) None;
  qi_nodup : NoDup (l ++ [SentinelTimer]);
  qi_periodic : PeriodicTimer ∈ l;
  qi_wake : forall p, p ∈ l -> wk (timers S) p = Some (u32 (abs p));
  qi_window : forall p, p ∈ l -> lo <= abs p < lo + 2 ^ 31;
  qi_sentinel : wk (timers S) SentinelTimer = Some (u32 (abs PeriodicTimer + 2 ^ 31));
  qi_last : last_insert S ∈ l;
  qi_last_user : last_insert S <> DeletedTimer;
  qi_deleted : DeletedTimer ∉ tail l;
  qi_deleted_there : is_Some (timers S !! DeletedTimer);
}.

(** The invariant between two events. *)
Definition sched_inv (lo : Z) (abs : tptr -> Z) (l : list tptr) (s : mcu) : Prop :=
  queue_inv lo abs l (m_sched s) /\ StronglySorted (le_abs abs) l.

(** The invariant after the callback of the first timer [t] has run, possibly
    with a new wake time for [t], and before the list is updated. *)
Definition mid_inv (lo : Z) (abs : tptr -> Z) (t : tptr) (l : list tptr) (s : mcu) : Prop :=
  queue_inv lo abs (t :: l) (m_sched s) /\ StronglySorted (le_abs abs) l.

(** The scheduled timers, without the place holder. *)
Definition queue (l : list tptr) : list tptr := filter (fun p => p <> DeletedTimer) l.

Lemma queue_id l : DeletedTimer ∉ l -> queue l = l.
Proof.
  unfold queue. induction l as [| p l IH]; [done |]. rewrite not_elem_of_cons. intros [Hp Hl].
  rewrite filter_cons_True by done. by rewrite IH.
Qed.

Lemma queue_inv_sentinel lo abs l S w :
  queue_inv lo abs l S -> abs PeriodicTimer <= w < lo + 2 ^ 31 ->
  exists v, wk (timers S) SentinelTimer = Some v /\ timer_is_before (u32 w) v = true.
Proof.
  intros I Hw. eexists. split; [apply (qi_sentinel _ _ _ _ I) |].
  apply timer_is_before_sentinel. pose proof (qi_window _ _ _ _ I _ (qi_periodic _ _ _ _ I)). lia.
Qed.

(** Reading the first entry of the list. *)
Lemma queue_inv_front lo abs p l S :
  queue_inv lo abs (p :: l) S ->
  timer_list S = p /\ (exists tp, timers S !! p = Some tp /\ t_waketime tp = u32 (abs p)).
Proof.
  intros I. split; [pose proof (qi_head _ _ _ _ I) as H; simpl in H; congruence |].
  apply wk_lookup, (qi_wake _ _ _ _ I), list_elem_of_here.
Qed.

Lemma abs_diff_window lo x y :
  lo <= x < lo + 2 ^ 31 -> lo <= y < lo + 2 ^ 31 -> - 2 ^ 31 <= x - y < 2 ^ 31.
Proof. lia. Qed.

Section Operations.
Context `{B : Board}.
Implicit Types s : mcu.

(** Inserting [t] behind an entry of the list keeps the invariant. *)
Lemma queue_inv_insert lo abs l S T' t w :
  queue_inv lo abs l S -> StronglySorted (le_abs abs) l ->
  t ∉ l -> t <> SentinelTimer -> t <> DeletedTimer -> lo <= w < lo + 2 ^ 31 ->
  wk (timers S) t = Some (u32 w) -> relinked (timers S) T' ->
  hd_or (qinsert abs t w l) None = Some (timer_list S) ->
  lseg T' (qinsert abs t w l ++ [SentinelTimer]) None ->
  queue_inv lo (<[t := w]> abs) (qinsert abs t w l) (S <| timers := T' |>)
  /\ StronglySorted (le_abs (<[t := w]> abs)) (qinsert abs t w l).
Proof.
  intros I Hs Ht Hts Htd Hw Hwt [Rw Rd] Hh Hseg.
  assert (Ha : forall p, p ∈ l -> (<[t := w]> abs) p = abs p).
  { intros p Hp. apply fn_lookup_insert_ne. by intros ->. }
  assert (Hin : forall p, p ∈ qinsert abs t w l <-> p = t \/ p ∈ l).
  { intros p. by rewrite qinsert_perm, elem_of_cons. }
  split.
  - split; simpl.
    + done.
    + done.
    + rewrite qinsert_perm. simpl. apply NoDup_cons. split; [| apply (qi_nodup _ _ _ _ I)].
      rewrite elem_of_app, list_elem_of_singleton. tauto.
    + apply Hin. right. apply (qi_periodic _ _ _ _ I).
    + intros p [-> | Hp]%Hin; rewrite Rw; [by rewrite fn_lookup_insert |].
      rewrite Ha by done. by apply (qi_wake _ _ _ _ I).
    + intros p [-> | Hp]%Hin; [by rewrite fn_lookup_insert |].
      rewrite Ha by done. by apply (qi_window _ _ _ _ I).
    + rewrite Rw, Ha by apply (qi_periodic _ _ _ _ I). apply (qi_sentinel _ _ _ _ I).
    + apply Hin. right. apply (qi_last _ _ _ _ I).
    + apply (qi_last_user _ _ _ _ I).
    + pose proof (qi_deleted _ _ _ _ I) as Hd. pose proof (qi_head _ _ _ _ I) as Hh'.
      destruct l as [| p l]; [done |]. simpl in *. destruct (w <? abs p); simpl in *.
      * exfalso. apply Ht. rewrite <- Hh in Hh'. injection Hh' as ->. apply list_elem_of_here.
      * rewrite qinsert_perm, elem_of_cons. intros [Hx | Hx]; [congruence | done].
    + apply Rd, (qi_deleted_there _ _ _ _ I).
  - assert (E : qinsert abs t w l = qinsert (<[t := w]> abs) t ((<[t := w]> abs) t) l).
    { rewrite fn_lookup_insert. apply qinsert_ext. intros p Hp. by rewrite Ha. }
    rewrite E. apply qinsert_sorted. by apply (sorted_ext abs).
Qed.

(** Entries of [queue l], and what the place holder leaves of the list. *)
Lemma elem_of_queue p l : p ∈ queue l <-> p <> DeletedTimer /\ p ∈ l.
Proof. unfold queue. by rewrite list_elem_of_filter. Qed.

Lemma queue_tail l : DeletedTimer ∉ tail l -> l = queue l \/ l = DeletedTimer :: queue l.
Proof.
  destruct l as [| p l]; [by left |]. simpl. intros H. unfold queue.
  destruct (decide (p = DeletedTimer)) as [-> | Hp].
  - right. rewrite filter_cons_False by auto. f_equal. symmetry. by apply queue_id.
  - left. rewrite filter_cons_True by done. f_equal. symmetry. by apply queue_id.
Qed.

Lemma queue_inv_queue lo abs l S :
  queue_inv lo abs l S -> StronglySorted (le_abs abs) l ->
  lseg (timers S) (queue l ++ [SentinelTimer]) None /\ NoDup (queue l ++ [SentinelTimer])
  /\ StronglySorted (le_abs abs) (queue l).
Proof.
  intros I Hs. pose proof (qi_nodup _ _ _ _ I) as Hnodup. pose proof (qi_seg _ _ _ _ I) as Hseg.
  destruct (queue_tail l (qi_deleted _ _ _ _ I)) as [El | El].
  - by rewrite <- El.
  - rewrite El in Hnodup, Hseg, Hs. simpl in *. apply NoDup_cons in Hnodup as [_ Hnodup].
    apply StronglySorted_cons in Hs as [_ Hs]. tauto.
Qed.

(** Putting the place holder and [t] in front of the queue keeps the
    invariant. *)
Lemma queue_inv_push lo abs l S T' t w :
  queue_inv lo abs l S -> StronglySorted (le_abs abs) l -> (forall p, p ∈ l -> w <= abs p) ->
  t ∉ l -> t <> SentinelTimer -> t <> DeletedTimer -> lo <= w < lo + 2 ^ 31 ->
  (forall q, q <> DeletedTimer -> q <> t -> T' !! q = timers S !! q) ->
  nxt T' t = Some (hd_or (queue l ++ [SentinelTimer]) None) -> nxt T' DeletedTimer = Some (Some t) ->
  wk T' t = Some (u32 w) -> wk T' DeletedTimer = Some (u32 w) ->
  let abs' := <[DeletedTimer := w]> (<[t := w]> abs) in
  let l' := DeletedTimer :: t :: queue l in
  queue_inv lo abs' l' (S <| timers := T' |> <| timer_list := DeletedTimer |>)
  /\ StronglySorted (le_abs abs') l'.
Proof.
  intros I Hs Hle Ht Hts Htd Hw HT Hnt Hnd Hwt Hwd abs' l'.
  assert (Ha : forall p, p ∈ queue l -> abs' p = abs p).
  { intros p [Hp Hpl]%elem_of_queue. unfold abs'. rewrite !fn_lookup_insert_ne; [done | | done]. by intros ->. }
  assert (Hat : abs' t = w) by (unfold abs'; by rewrite fn_lookup_insert_ne, fn_lookup_insert).
  assert (Had : abs' DeletedTimer = w) by (unfold abs'; by rewrite fn_lookup_insert).
  assert (Hper : PeriodicTimer ∈ queue l) by (apply elem_of_queue; split; [done | apply (qi_periodic _ _ _ _ I)]).
  assert (Hq : forall p, p ∈ queue l -> T' !! p = timers S !! p /\ p ∈ l).
  { intros p [Hp Hpl]%elem_of_queue. split; [apply HT; [done | by intros ->] | done]. }
  destruct (queue_inv_queue lo abs l S I Hs) as (Hseg & Hnodup & Hsq).
  split; [split; simpl |].
  - done.
  - split; [done |]. split; [done |]. eapply seg_frame; [| exact Hseg].
    intros p [Hp%Hq | ->%list_elem_of_singleton]%elem_of_app; unfold nxt; [by rewrite (proj1 Hp) | by rewrite HT].
  - rewrite !NoDup_cons, elem_of_cons, !elem_of_app, !list_elem_of_singleton, !elem_of_queue.
    split_and!; [intuition congruence | tauto | done].
  - unfold l'. rewrite !elem_of_cons. auto.
  - intros p [-> | [-> | Hp]%elem_of_cons]%elem_of_cons; [by rewrite Had | by rewrite Hat |].
    rewrite Ha by done. apply Hq in Hp as [HTp Hp]. unfold wk. rewrite HTp. by apply (qi_wake _ _ _ _ I).
  - intros p [-> | [-> | Hp]%elem_of_cons]%elem_of_cons; [by rewrite Had | by rewrite Hat |].
    rewrite Ha by done. apply Hq in Hp as [HTp Hp]. by apply (qi_window _ _ _ _ I).
  - unfold wk. rewrite HT by done. rewrite Ha by done. apply (qi_sentinel _ _ _ _ I).
  - unfold l'. rewrite !elem_of_cons, elem_of_queue. pose proof (qi_last _ _ _ _ I). pose proof (qi_last_user _ _ _ _ I). auto.
  - apply (qi_last_user _ _ _ _ I).
  - rewrite elem_of_cons, elem_of_queue. intuition congruence.
  - by eapply nxt_is_Some.
  - assert (Hall : Forall (fun q => w <= abs' q) (t :: queue l)).
    { apply Forall_cons. split; [lia |]. apply Forall_forall. intros p Hp. rewrite Ha by done. by apply Hle, Hq. }
    unfold l'. apply StronglySorted_cons. split; [by unfold le_abs; rewrite Had |].
    apply Forall_cons in Hall as [_ Hall]. apply StronglySorted_cons. split; [by unfold le_abs; rewrite Hat |].
    by apply (sorted_ext abs).
Qed.

(** Reading the clock. *)
Lemma timer_read_time_run s :
  timer_read_time s = (Ok (u32 (hw_time (ticks (m_hw s)))), s <| m_hw ::= upd ticks S |>).
Proof. done. Qed.

(** The three stores of the front insertion, as one update of the timers. *)
Definition front_timers (T : timer_map) (t : tptr) (nx : option tptr) (w : Z) : timer_map :=
  alter (fun r => r <| t_next := Some t |>) DeletedTimer
    (alter (fun r => r <| t_waketime := w |>) DeletedTimer
      (alter (fun r => r <| t_next := nx |>) t T)).

Lemma front_timers_spec (T : timer_map) t nx w v :
  t <> DeletedTimer -> is_Some (T !! DeletedTimer) -> wk T t = Some v ->
  let T' := front_timers T t nx w in
  (forall q, q <> DeletedTimer -> q <> t -> T' !! q = T !! q) /\ nxt T' t = Some nx
  /\ nxt T' DeletedTimer = Some (Some t) /\ wk T' t = Some v /\ wk T' DeletedTimer = Some w.
Proof.
  intros Hd HD Hv T'. assert (Ht : is_Some (T !! t)) by (unfold wk in Hv; by destruct (T !! t)).
  assert (HD' : is_Some (alter (fun r : timer => r <| t_next := nx |>) t T !! DeletedTimer))
    by (by rewrite lookup_alter_ne).
  unfold T', front_timers. split_and!.
  - intros q H1 H2. by rewrite !lookup_alter_ne.
  - rewrite nxt_alter_ne, nxt_set_wake by done. by apply nxt_set_next.
  - apply nxt_set_next. rewrite lookup_alter_eq. destruct HD' as [? ->]. done.
  - by rewrite wk_set_next, wk_alter_ne, wk_set_next by done.
  - rewrite wk_set_next. by apply wk_set_wake.
Qed.

(** The run of [sched_add_timer] when the new timer comes first and is not
    late. *)
Lemma sched_add_timer_front t tm tl tlt s :
  let T := timers (m_sched s) in
  T !! t = Some tm -> timer_list (m_sched s) = tl -> T !! tl = Some tlt -> t <> DeletedTimer ->
  is_Some (T !! DeletedTimer) ->
  timer_is_before (t_waketime tm) (t_waketime tlt) = true ->
  timer_is_before (t_waketime tm) (u32 (hw_time (ticks (m_hw s)))) = false ->
  exists s', sched_add_timer t s = (Ok tt, s')
    /\ m_sched s' = (m_sched s)
         <| timers := front_timers T t (if decide (tl = DeletedTimer) then t_next tlt else Some tl) (t_waketime tm) |>
         <| timer_list := DeletedTimer |>.
Proof.
  intros T Ht Htl HTl Hd HD Hb Hn. unfold sched_add_timer.
  rewrite (bind_ok _ _ _ _ _ (tm_get_run _ _ _ Ht)). msimpl.
  rewrite Htl, (bind_ok _ _ _ _ _ (tm_get_run _ _ _ HTl)), Hb. msimpl.
  unfold add_timer_clamp. rewrite !bind_assoc, (bind_ok _ _ _ _ _ (timer_read_time_run s)), Hn. msimpl.
  set (s1 := upd m_hw _ s).
  assert (E : (if decide (tl = DeletedTimer)
     then d ← tm_get DeletedTimer; tm_upd t (fun r => r <| t_next := t_next d |>)
     else tm_upd t (fun r => r <| t_next := Some tl |>)) s1
     = (Ok tt, s1 <| m_sched ::= upd timers (alter (fun r : timer =>
          r <| t_next := if decide (tl = DeletedTimer) then t_next tlt else Some tl |>) t) |>)).
  { destruct (decide (tl = DeletedTimer)) as [-> |].
    - rewrite (bind_ok _ _ _ _ _ (tm_get_run _ _ s1 HTl)). by apply tm_upd_run; eexists.
    - by apply tm_upd_run; eexists. }
  rewrite (bind_ok _ _ _ _ _ E). rewrite bind_assoc.
  erewrite bind_ok; [| apply tm_upd_run; simpl; by rewrite lookup_alter_ne].
  rewrite bind_assoc. erewrite bind_ok; [| apply tm_upd_run; simpl; rewrite lookup_alter_eq, lookup_alter_ne by done; by rewrite fmap_is_Some].
  unfold set_sched, timer_kick. msimpl. eexists. split; [reflexivity |]. done.
Qed.

Lemma qinsert_front abs t w l : (forall p, p ∈ l -> w < abs p) -> qinsert abs t w l = t :: l.
Proof.
  destruct l as [| p l]; [done |]. intros H. simpl.
  specialize (H p (list_elem_of_here p l)). destruct (Z.ltb_spec w (abs p)); [done | lia].
Qed.

Lemma sorted_head abs p l : StronglySorted (le_abs abs) (p :: l) -> forall q, q ∈ p :: l -> abs p <= abs q.
Proof.
  intros [Hp _]%StronglySorted_cons q [-> | Hq]%elem_of_cons; [lia |].
  rewrite Forall_forall in Hp. by apply Hp.
Qed.

Lemma queue_qinsert abs t w l :
  t <> DeletedTimer -> DeletedTimer ∉ tail l -> (forall p, head l = Some p -> abs p <= w) ->
  queue (qinsert abs t w l) = qinsert abs t w (queue l).
Proof.
  intros Ht Hd Hh. destruct (queue_tail l Hd) as [El | El].
  - rewrite <- El. apply queue_id. rewrite qinsert_perm, elem_of_cons, El, elem_of_queue. intuition congruence.
  - rewrite El in Hh |- *. simpl. specialize (Hh _ eq_refl). destruct (Z.ltb_spec w (abs DeletedTimer)); [lia |].
    unfold queue at 1. rewrite filter_cons_False by auto. fold (queue (qinsert abs t w (queue l))).
    rewrite queue_id.
    + unfold queue at 2. rewrite filter_cons_False by auto. f_equal. symmetry. apply queue_id.
      rewrite elem_of_queue. tauto.
    + rewrite qinsert_perm, elem_of_cons, elem_of_queue. intuition congruence.
Qed.

(** The outcome promised for adding [t] at time [w]. *)
Definition added (lo : Z) (abs : tptr -> Z) (l : list tptr) (t : tptr) (w : Z) (r : res unit * mcu) : Prop :=
  exists abs' l' s', r = (Ok tt, s') /\ sched_inv lo abs' l' s'
    /\ queue l' = qinsert abs t w (queue l)
    /\ abs' t = w /\ (forall p, p ∈ queue l -> abs' p = abs p).

Section Add.
Context (lo : Z) (abs : tptr -> Z) (tl : tptr) (rest : list tptr) (t : tptr) (tm : timer) (w : Z) (s : mcu).
Hypothesis I : queue_inv lo abs (tl :: rest) (m_sched s).
Hypothesis Hs : StronglySorted (le_abs abs) (tl :: rest).
Hypothesis Ht : timers (m_sched s) !! t = Some tm.
Hypothesis Hwt : t_waketime tm = u32 w.
Hypothesis Hw : lo <= w < lo + 2 ^ 31.
Hypothesis Htl : t ∉ tl :: rest.
Hypothesis Hts : t <> SentinelTimer.
Hypothesis Htd : t <> DeletedTimer.

Lemma add_head_before tlt :
  timers (m_sched s) !! tl = Some tlt -> timer_is_before (u32 w) (t_waketime tlt) = (w <? abs tl).
Proof.
  intros H. pose proof (qi_wake _ _ _ _ I tl (list_elem_of_here _ _)) as Hk. unfold wk in Hk. rewrite H in Hk.
  injection Hk as ->. apply timer_is_before_abs.
  pose proof (qi_window _ _ _ _ I tl (list_elem_of_here _ _)). lia.
Qed.

(** What [add->next] becomes is the first entry that is not the place holder. *)
Lemma add_front_next tlt :
  timers (m_sched s) !! tl = Some tlt ->
  (if decide (tl = DeletedTimer) then t_next tlt else Some tl)
  = hd_or (queue (tl :: rest) ++ [SentinelTimer]) None.
Proof.
  intros H. unfold queue. destruct (decide (tl = DeletedTimer)) as [Hd | Hn].
  - rewrite filter_cons_False by auto. fold (queue rest). rewrite queue_id by apply (qi_deleted _ _ _ _ I).
    pose proof (qi_seg _ _ _ _ I) as [Hn _]. unfold nxt in Hn. rewrite H in Hn. by injection Hn as ->.
  - by rewrite filter_cons_True.
Qed.

Lemma sched_add_timer_first :
  w < abs tl -> timer_is_before (u32 w) (u32 (hw_time (ticks (m_hw s)))) = false ->
  added lo abs (tl :: rest) t w (sched_add_timer t s).
Proof.
  intros Hlt Hlate. destruct (queue_inv_front _ _ _ _ _ I) as (Htlist & tlt & HTl & _).
  pose proof (add_head_before tlt HTl) as Hb. destruct (Z.ltb_spec w (abs tl)) as [_ |]; [| lia].
  assert (Hwk : wk (timers (m_sched s)) t = Some (u32 w)) by (unfold wk; by rewrite Ht, <- Hwt).
  pose proof (qi_deleted_there _ _ _ _ I) as HD.
  destruct (sched_add_timer_front t tm tl tlt s) as (s' & E & Es); try done; [by rewrite Hwt.. |].
  rewrite (add_front_next tlt HTl), Hwt in Es. set (nx := hd_or _ None) in Es.
  destruct (front_timers_spec (timers (m_sched s)) t nx (u32 w) (u32 w)) as (F1 & F2 & F3 & F4 & F5); try done.
  assert (Hall : forall p, p ∈ tl :: rest -> w < abs p).
  { intros p Hp. pose proof (sorted_head abs tl rest Hs p Hp). lia. }
  destruct (queue_inv_push lo abs (tl :: rest) (m_sched s) (front_timers (timers (m_sched s)) t nx (u32 w)) t w)
    as [I' Hs']; try done; [intros p Hp; specialize (Hall p Hp); lia |].
  eexists _, _, s'. split; [exact E |]. split; [unfold sched_inv; rewrite Es; split; [exact I' | exact Hs'] |].
  split_and!.
  - unfold queue at 1. rewrite filter_cons_False, filter_cons_True by auto.
    fold (queue (queue (tl :: rest))). rewrite queue_id by (rewrite elem_of_queue; tauto).
    symmetry. apply qinsert_front. intros p [_ Hp]%elem_of_queue. by apply Hall.
  - by rewrite fn_lookup_insert_ne, fn_lookup_insert.
  - intros p [Hp Hpl]%elem_of_queue. rewrite !fn_lookup_insert_ne; [done | by intros -> | done].
Qed.

Lemma sched_add_timer_later : abs tl <= w -> added lo abs (tl :: rest) t w (sched_add_timer t s).
Proof.
  intros Hge. destruct (queue_inv_front _ _ _ _ _ I) as (Htlist & tlt & HTl & _).
  pose proof (add_head_before tlt HTl) as Hb. destruct (Z.ltb_spec w (abs tl)) as [| _]; [lia |].
  assert (Hwk : wk (timers (m_sched s)) t = Some (u32 w)) by (unfold wk; by rewrite Ht, <- Hwt).
  assert (Eq : qinsert abs t w (tl :: rest) = tl :: qinsert abs t w rest).
  { simpl. destruct (Z.ltb_spec w (abs tl)); [lia | done]. }
  unfold sched_add_timer. rewrite (bind_ok _ _ _ _ _ (tm_get_run _ _ _ Ht)). msimpl.
  rewrite Htlist, (bind_ok _ _ _ _ _ (tm_get_run _ _ _ HTl)), Hwt, Hb.
  edestruct (insert_timer_spec abs t w tl rest s) as (T' & E & R & Hseg & _);
    [apply (qi_seg _ _ _ _ I) | apply (qi_nodup _ _ _ _ I) | | by eexists | | |].
  - rewrite app_comm_cons, elem_of_app, list_elem_of_singleton. tauto.
  - intros p Hp. split; [by apply (qi_wake _ _ _ _ I), list_elem_of_further |].
    pose proof (qi_window _ _ _ _ I p (list_elem_of_further _ _ _ Hp)). lia.
  - intros HF. eapply queue_inv_sentinel; [exact I |]. split; [| lia].
    pose proof (qi_periodic _ _ _ _ I) as [-> | Hp]%elem_of_cons; [done |]. rewrite Forall_forall in HF. by apply HF.
  - rewrite bind_assoc, (bind_ok _ _ _ _ _ E). msimpl.
    destruct (queue_inv_insert lo abs (tl :: rest) (m_sched s) T' t w) as [I' Hs']; try done;
      [rewrite Eq; simpl; by rewrite Htlist | by rewrite Eq |].
    exists (<[t := w]> abs), (qinsert abs t w (tl :: rest)). eexists. split; [reflexivity |].
    split; [done |]. split; [apply queue_qinsert; [done | apply (qi_deleted _ _ _ _ I) | by intros p [= <-]] |].
    split; [by rewrite fn_lookup_insert |]. intros p [Hp Hpl]%elem_of_queue.
    rewrite fn_lookup_insert_ne; [done | by intros ->].
Qed.
End Add.

Lemma sched_add_timer_ok lo abs l t tm w s :
  sched_inv lo abs l s ->
  timers (m_sched s) !! t = Some tm -> t_waketime tm = u32 w -> lo <= w < lo + 2 ^ 31 ->
  t ∉ l -> t <> SentinelTimer -> t <> DeletedTimer ->
  ((forall p, p ∈ l -> w < abs p) ->
     timer_is_before (u32 w) (u32 (hw_time (ticks (m_hw s)))) = false) ->
  added lo abs l t w (sched_add_timer t s).
Proof.
  intros [I Hs] Ht Hwt Hw Htl Hts Htd Hlate. destruct l as [| tl rest]; [by apply qi_head in I |].
  destruct (Z.lt_ge_cases w (abs tl)) as [Hlt | Hge].
  - eapply sched_add_timer_first; try done. apply Hlate. intros p Hp.
    pose proof (sorted_head abs tl rest Hs p Hp). lia.
  - by eapply sched_add_timer_later.
Qed.


(** *** Deletion *)

Lemma del_timer_loop_spec del l pos fuel s :
  let T := timers (m_sched s) in
  lseg T (pos :: l ++ [SentinelTimer]) None -> del <> SentinelTimer -> (length l + 2 <= fuel)%nat ->
  (del_timer_loop fuel pos del s = (Ok tt, s) /\ del ∉ l) \/
  (exists l1 prev l2, pos :: l = l1 ++ prev :: del :: l2 /\
    del_timer_loop fuel pos del s = (Ok tt, s <| m_sched ::= upd timers
      (alter (fun r => r <| t_next := hd_or (l2 ++ [SentinelTimer]) None |>) prev) |>)).
Proof.
  intros T. induction l as [| p l IH] in pos, fuel |- *; intros Hseg Hd Hf;
    destruct fuel as [| fuel]; try (simpl in Hf; lia); cbn [del_timer_loop].
  - destruct Hseg as [Hn [Hs _]]. simpl in Hn, Hs. left. split; [| apply not_elem_of_nil].
    unfold nxt in Hn, Hs. destruct (T !! pos) as [tp |] eqn:E; [| done]. simpl in Hn. injection Hn as Hn.
    rewrite (bind_ok _ _ _ _ _ (tm_get_run _ _ _ E)), Hn, decide_False by done.
    destruct fuel as [| fuel]; [simpl in Hf; lia |]. cbn [del_timer_loop].
    destruct (T !! SentinelTimer) as [ts |] eqn:E'; [| done]. simpl in Hs. injection Hs as Hs.
    by rewrite (bind_ok _ _ _ _ _ (tm_get_run _ _ _ E')), Hs.
  - destruct Hseg as [Hn Hseg]. pose proof Hn as Hn'. unfold nxt in Hn'. simpl in Hn'.
    destruct (T !! pos) as [tp |] eqn:E; [| done]. simpl in Hn'. injection Hn' as Hn'.
    rewrite (bind_ok _ _ _ _ _ (tm_get_run _ _ _ E)), Hn'. destruct (decide (p = del)) as [-> | Hpd].
    + right. exists [], pos, l. split; [done |]. pose proof Hseg as [Hx _]. unfold nxt in Hx.
      destruct (T !! del) as [td |] eqn:Ed; [| done]. injection Hx as Hx.
      rewrite (bind_ok _ _ _ _ _ (tm_get_run _ _ _ Ed)), <- Hx. by apply tm_upd_run; eexists.
    + destruct (IH p fuel) as [[Er Hni] | (l1 & prev & l2 & El & Er)]; [done.. | simpl in Hf; lia | |].
      * left. rewrite Er. split; [done |]. rewrite elem_of_cons. intuition.
      * right. exists (pos :: l1), prev, l2. by rewrite El, Er.
Qed.

Lemma queue_filter_ne del l :
  queue (filter (fun p => p <> del) l) = filter (fun p => p <> del) (queue l).
Proof.
  unfold queue. rewrite !list_filter_filter. apply list_filter_iff. intros p. tauto.
Qed.

Lemma filter_ne_id del (l : list tptr) : del ∉ l -> filter (fun p => p <> del) l = l.
Proof.
  induction l as [| p l IH]; [done |]. rewrite not_elem_of_cons. intros [Hp Hl].
  rewrite filter_cons_True by done. by rewrite IH.
Qed.

Lemma filter_ne_middle del (l1 l2 : list tptr) :
  del ∉ l1 -> del ∉ l2 -> filter (fun p => p <> del) (l1 ++ del :: l2) = l1 ++ l2.
Proof.
  intros H1 H2. rewrite filter_app, filter_cons_False, !filter_ne_id by auto. done.
Qed.

Lemma sorted_remove abs (l1 : list tptr) d l2 :
  StronglySorted (le_abs abs) (l1 ++ d :: l2) -> StronglySorted (le_abs abs) (l1 ++ l2).
Proof.
  rewrite !StronglySorted_app, StronglySorted_cons. intros (H & H1 & _ & H2). split_and!; [| done..].
  intros x1 x2 Hx1 Hx2. apply H; [done | by apply list_elem_of_further].
Qed.

(** Removing an entry that is not the first one. *)
Lemma queue_inv_remove lo abs l1 prev del l2 S :
  let l := l1 ++ prev :: del :: l2 in
  let l' := l1 ++ prev :: l2 in
  queue_inv lo abs l S -> StronglySorted (le_abs abs) l -> del <> PeriodicTimer ->
  let T' := alter (fun r => r <| t_next := hd_or (l2 ++ [SentinelTimer]) None |>) prev (timers S) in
  let last' := if bool_decide (last_insert S = del) then PeriodicTimer else last_insert S in
  queue_inv lo abs l' (S <| timers := T' |> <| last_insert := last' |>) /\ StronglySorted (le_abs abs) l'.
Proof.
  intros l l' I Hs Hd T' last'.
  assert (R : relinked (timers S) T') by (apply relinked_alter, relinked_refl).
  assert (Hin : forall p, p ∈ l -> p <> del -> p ∈ l').
  { intros p. unfold l, l'. rewrite !elem_of_app, !elem_of_cons. tauto. }
  assert (Hin' : forall p, p ∈ l' -> p ∈ l).
  { intros p. unfold l, l'. rewrite !elem_of_app, !elem_of_cons. tauto. }
  assert (Hsub : l' `sublist_of` l).
  { unfold l, l'. apply sublist_app; [done |]. apply sublist_skip, sublist_cons. done. }
  split; [split; simpl |].
  - pose proof (qi_head _ _ _ _ I) as Hh. unfold l, l' in *. by destruct l1.
  - unfold l'. rewrite <- app_assoc. simpl. apply (unlink_lseg _ _ _ del).
    + pose proof (qi_nodup _ _ _ _ I) as Hn. unfold l in Hn. by rewrite <- app_assoc in Hn.
    + pose proof (qi_seg _ _ _ _ I) as Hn. unfold l in Hn. by rewrite <- app_assoc in Hn.
  - eapply sublist_NoDup; [apply (qi_nodup _ _ _ _ I) |]. by apply sublist_app.
  - apply Hin; [apply (qi_periodic _ _ _ _ I) | done].
  - intros p Hp. rewrite (rl_wake _ _ R). by apply (qi_wake _ _ _ _ I), Hin'.
  - intros p Hp. by apply (qi_window _ _ _ _ I), Hin'.
  - rewrite (rl_wake _ _ R). apply (qi_sentinel _ _ _ _ I).
  - unfold last'. destruct (bool_decide_reflect (last_insert S = del)); apply Hin; try done;
      [apply (qi_periodic _ _ _ _ I) | apply (qi_last _ _ _ _ I)].
  - unfold last'. destruct (bool_decide _); [done | apply (qi_last_user _ _ _ _ I)].
  - intros Hx. apply (qi_deleted _ _ _ _ I). unfold l, l' in *. destruct l1 as [| a l1]; simpl in *.
    + rewrite elem_of_cons. auto.
    + rewrite elem_of_app, !elem_of_cons in *. tauto.
  - apply (rl_dom _ _ R), (qi_deleted_there _ _ _ _ I).
  - unfold l, l' in *. rewrite (cons_middle prev l1), app_assoc in Hs |- *. by eapply sorted_remove.
Qed.

(** Replacing the first entry by the place holder. *)
Lemma queue_inv_drop_head lo abs del rest S td :
  queue_inv lo abs (del :: rest) S -> StronglySorted (le_abs abs) (del :: rest) ->
  del <> PeriodicTimer -> del <> DeletedTimer -> timers S !! del = Some td ->
  let T' := alter (fun r => r <| t_next := t_next td |>) DeletedTimer
              (alter (fun r => r <| t_waketime := t_waketime td |>) DeletedTimer (timers S)) in
  let last' := if bool_decide (last_insert S = del) then PeriodicTimer else last_insert S in
  let abs' := <[DeletedTimer := abs del]> abs in
  queue_inv lo abs' (DeletedTimer :: rest)
    (S <| timers := T' |> <| timer_list := DeletedTimer |> <| last_insert := last' |>)
  /\ StronglySorted (le_abs abs') (DeletedTimer :: rest).
Proof.
  intros I Hs Hp Hd Htd T' last' abs'.
  pose proof (qi_nodup _ _ _ _ I) as [Hdn Hnd]%NoDup_cons. pose proof (qi_deleted _ _ _ _ I) as Hdel. simpl in Hdel.
  assert (HTq : forall q, q <> DeletedTimer -> T' !! q = timers S !! q).
  { intros q Hq. unfold T'. by rewrite !lookup_alter_ne. }
  assert (Hr : forall p, p ∈ rest -> p <> DeletedTimer /\ abs' p = abs p).
  { intros p Hpr. split; [by intros -> |]. unfold abs'. rewrite fn_lookup_insert_ne; [done | by intros <-]. }
  assert (Hper : PeriodicTimer ∈ rest) by (pose proof (qi_periodic _ _ _ _ I) as [? | ?]%elem_of_cons; [done | done]).
  pose proof (qi_deleted_there _ _ _ _ I) as HD. pose proof (qi_seg _ _ _ _ I) as [Hn Hseg].
  unfold nxt in Hn. rewrite Htd in Hn. simpl in Hn. injection Hn as Hn.
  pose proof (qi_wake _ _ _ _ I del (list_elem_of_here _ _)) as Hwd. unfold wk in Hwd. rewrite Htd in Hwd. injection Hwd as Hwd.
  assert (Habs : abs' DeletedTimer = abs del) by (unfold abs'; by rewrite fn_lookup_insert).
  split; [split; simpl |].
  - done.
  - split.
    + unfold T'. rewrite nxt_set_next, Hn; [done |]. rewrite lookup_alter_eq. by destruct HD as [? ->].
    + eapply seg_frame; [| exact Hseg]. unfold nxt.
      intros p [[Hp' _]%Hr | ->%list_elem_of_singleton]%elem_of_app; by rewrite HTq.
  - apply NoDup_cons. split; [rewrite elem_of_app, list_elem_of_singleton; intuition congruence | done].
  - by apply list_elem_of_further.
  - intros p [-> | Hpr]%elem_of_cons; rewrite ?Habs.
    + unfold T'. rewrite wk_set_next, wk_set_wake by done. by rewrite Hwd.
    + destruct (Hr p Hpr) as [Hpd ->]. unfold wk. rewrite HTq by done.
      by apply (qi_wake _ _ _ _ I), list_elem_of_further.
  - intros p [-> | Hpr]%elem_of_cons; rewrite ?Habs; [apply (qi_window _ _ _ _ I), list_elem_of_here |].
    destruct (Hr p Hpr) as [_ ->]. by apply (qi_window _ _ _ _ I), list_elem_of_further.
  - unfold wk. rewrite HTq by done. destruct (Hr _ Hper) as [_ ->]. apply (qi_sentinel _ _ _ _ I).
  - apply list_elem_of_further. unfold last'. destruct (bool_decide_reflect (last_insert S = del)); [done |].
    pose proof (qi_last _ _ _ _ I) as [? | ?]%elem_of_cons; done.
  - unfold last'. destruct (bool_decide _); [done | apply (qi_last_user _ _ _ _ I)].
  - done.
  - unfold T'. rewrite lookup_alter_eq, lookup_alter_eq. by destruct HD as [? ->].
  - apply StronglySorted_cons in Hs as [Hf Hs]. apply StronglySorted_cons. split.
    + rewrite Forall_forall in *. unfold le_abs in *. intros q Hq. rewrite Habs. destruct (Hr q Hq) as [_ ->]. by apply Hf.
    + apply (sorted_ext abs); [| done]. intros q Hq. by apply Hr.
Qed.

Lemma del_timer_finish del s :
  del_timer_hint del s = (Ok tt, s <| m_sched ::= fun S =>
      S <| last_insert ::= fun li => if bool_decide (li = del) then PeriodicTimer else li |> |>).
Proof.
  unfold del_timer_hint, set_sched. msimpl. destruct (bool_decide _) eqn:E; msimpl; simpl; rewrite E; [done |].
  by destruct s as [? [] ? ? ? ? ? ?].
Qed.

Lemma sched_del_timer_ok lo abs l del s :
  sched_inv lo abs l s -> del <> PeriodicTimer -> del <> SentinelTimer -> del <> DeletedTimer ->
  exists abs' l' s', sched_del_timer del s = (Ok tt, s') /\ sched_inv lo abs' l' s'
    /\ queue l' = filter (fun p => p <> del) (queue l) /\ last_insert (m_sched s') <> del
    /\ (forall p, p ∈ queue l' -> abs' p = abs p).
Proof.
  intros [I Hs] Hp Hse Hd. destruct l as [| tl rest]; [by apply qi_head in I |].
  destruct (queue_inv_front _ _ _ _ _ I) as (Htl & tlt & HTl & _).
  pose proof (qi_nodup _ _ _ _ I) as Hnd. unfold sched_del_timer. msimpl. rewrite Htl.
  destruct (decide (tl = del)) as [-> | Hne].
  - rewrite !bind_assoc, (bind_ok _ _ _ _ _ (tm_get_run _ _ _ HTl)).
    pose proof (qi_deleted_there _ _ _ _ I) as HD.
    rewrite !bind_assoc. erewrite bind_ok by (by apply tm_upd_run).
    rewrite !bind_assoc. erewrite bind_ok; [| apply tm_upd_run; simpl; rewrite lookup_alter_eq; by rewrite fmap_is_Some].
    unfold set_sched at 1. msimpl. rewrite del_timer_finish.
    destruct (queue_inv_drop_head lo abs del rest (m_sched s) tlt) as [I' Hs']; try done.
    apply NoDup_cons in Hnd as [Hn _]. rewrite elem_of_app, list_elem_of_singleton in Hn.
    eexists _, _, _. split; [reflexivity |]. split; [split; [exact I' | exact Hs'] |].
    assert (Hdel : DeletedTimer ∉ rest) by apply (qi_deleted _ _ _ _ I).
    unfold queue. rewrite filter_cons_False, filter_cons_True by auto. rewrite filter_cons_False by auto.
    fold (queue rest). rewrite queue_id by done. rewrite filter_ne_id by tauto. split; [done |]. split.
    + simpl. destruct (bool_decide_reflect (last_insert (m_sched s) = del)); done.
    + intros p Hpr. rewrite fn_lookup_insert_ne; [done | by intros <-].
  - msimpl. pose proof (NoDup_size _ _ Hnd (fun p => lseg_is_Some _ _ _ p (qi_seg _ _ _ _ I))) as Hsz.
    rewrite length_app in Hsz. simpl in Hsz.
    destruct (del_timer_loop_spec del rest tl (size (timers (m_sched s))) s)
      as [[Er Hni] | (l1 & prev & l2 & El & Er)]; [apply (qi_seg _ _ _ _ I) | done | lia | |];
      rewrite (bind_ok _ _ _ _ _ Er), del_timer_finish.
    + assert (Hni' : del ∉ tl :: rest) by (rewrite elem_of_cons; intuition).
      assert (Hli : last_insert (m_sched s) <> del) by (intros <-; apply Hni', (qi_last _ _ _ _ I)).
      exists abs, (tl :: rest), s. rewrite filter_ne_id by (rewrite elem_of_queue; tauto).
      split; [| done]. f_equal. destruct s as [? [] ? ? ? ? ? ?]; simpl in *. by rewrite bool_decide_eq_false_2.
    + rewrite El in I, Hs, Hnd. destruct (queue_inv_remove lo abs l1 prev del l2 (m_sched s)) as [I' Hs']; try done.
      rewrite (cons_middle prev l1), app_assoc in Hnd. rewrite <- app_assoc in Hnd. simpl in Hnd.
      apply NoDup_app in Hnd as (_ & Hn1 & [Hn2 _]%NoDup_cons). rewrite elem_of_app in Hn2.
      exists abs, (l1 ++ prev :: l2). eexists. split; [reflexivity |]. split; [by split |]. rewrite El.
      rewrite <- queue_filter_ne, (cons_middle prev l1 (del :: l2)), (app_assoc l1 [prev]). rewrite filter_ne_middle; [| | tauto].
      * rewrite <- app_assoc. split; [done |]. split; [| done]. simpl.
        destruct (bool_decide_reflect (last_insert (m_sched s) = del)); [by intros Hx; rewrite <- Hx in Hp | done].
      * intros Hx. apply (Hn1 del Hx). apply list_elem_of_here.
Qed.

(** C13: [sched_del_timer] removes exactly the given timer: whether it is the
    next one to run, somewhere in the list or not scheduled at all, afterwards
    the list is still well linked and sorted, every other scheduled timer keeps
    its place and time, the deleted one is no longer in the queue, and the
    insertion hint no longer refers to it. *)
Theorem sched_del_timer_queue lo abs l del s :
  sched_inv lo abs l s -> del <> PeriodicTimer -> del <> SentinelTimer -> del <> DeletedTimer ->
  exists abs' l' s', sched_del_timer del s = (Ok tt, s') /\ sched_inv lo abs' l' s'
    /\ queue l' = filter (fun p => p <> del) (queue l) /\ last_insert (m_sched s') <> del
    /\ (forall p, p ∈ queue l' -> abs' p = abs p).
Proof. apply sched_del_timer_ok. Qed.

(** *** Dispatch *)

Section Dispatch.
Context (lo : Z) (abs : tptr -> Z) (t : tptr) (l : list tptr) (s : mcu).
Hypothesis I : queue_inv lo abs (t :: l) (m_sched s).
Hypothesis Hs : StronglySorted (le_abs abs) l.

Lemma disp_in p : p ∈ l -> p ∈ t :: l.
Proof. apply list_elem_of_further. Qed.

Lemma disp_nodup : t <> SentinelTimer /\ NoDup (l ++ [SentinelTimer]) /\ t ∉ l.
Proof.
  pose proof (qi_nodup _ _ _ _ I) as [Ht Hn]%NoDup_cons. rewrite elem_of_app, list_elem_of_singleton in Ht. tauto.
Qed.

Lemma disp_wake p : p ∈ l -> wk (timers (m_sched s)) p = Some (u32 (abs p)) /\ - 2 ^ 31 <= abs t - abs p < 2 ^ 31.
Proof.
  intros Hp. split; [by apply (qi_wake _ _ _ _ I), disp_in |].
  pose proof (qi_window _ _ _ _ I p (disp_in _ Hp)). pose proof (qi_window _ _ _ _ I t (list_elem_of_here _ _)). lia.
Qed.

Lemma disp_sentinel (l' : list tptr) :
  PeriodicTimer = t \/ PeriodicTimer ∈ l' \/ abs PeriodicTimer <= abs t -> Forall (fun p => abs p <= abs t) l' ->
  exists v, wk (timers (m_sched s)) SentinelTimer = Some v /\ timer_is_before (u32 (abs t)) v = true.
Proof.
  intros Hp HF. eapply queue_inv_sentinel; [exact I |].
  pose proof (qi_window _ _ _ _ I t (list_elem_of_here _ _)). split; [| lia].
  destruct Hp as [-> | [Hp | Hp]]; [lia | | lia]. rewrite Forall_forall in HF. by apply HF.
Qed.

(** The entry the walk starts from is in front of the place of insertion. *)
Lemma disp_insert nx l' :
  l = nx :: l' -> abs nx <= abs t ->
  let li := last_insert (m_sched s) in
  let pos := if abs t <? abs li then nx else li in
  exists T', insert_timer pos t (u32 (abs t)) (s <| m_sched ::= upd timer_list (fun _ => nx) |>)
      = (Ok tt, s <| m_sched ::= upd timer_list (fun _ => nx) |> <| m_sched ::= upd timers (fun _ => T') |>)
    /\ relinked (timers (m_sched s)) T' /\ lseg T' (qinsert abs t (abs t) l ++ [SentinelTimer]) None.
Proof.
  intros El Hnx li pos. set (s1 := s <| m_sched ::= upd timer_list (fun _ => nx) |>).
  destruct disp_nodup as (Hts & Hnd & Htl). pose proof (qi_seg _ _ _ _ I) as Hseg.
  assert (HT : is_Some (timers (m_sched s) !! t)) by (eapply lseg_is_Some; [exact Hseg | apply list_elem_of_here]).
  assert (Hli : li = t \/ li ∈ l) by (pose proof (qi_last _ _ _ _ I); by apply elem_of_cons).
  assert (Hper : PeriodicTimer = t \/ PeriodicTimer ∈ l) by (pose proof (qi_periodic _ _ _ _ I); by apply elem_of_cons).
  assert (Hins : forall pre p post, l = pre ++ p :: post -> abs p <= abs t ->
    exists T', insert_timer p t (u32 (abs t)) s1 = (Ok tt, s1 <| m_sched ::= upd timers (fun _ => T') |>)
      /\ relinked (timers (m_sched s)) T' /\ lseg T' (qinsert abs t (abs t) l ++ [SentinelTimer]) None).
  { intros pre p post El' Hp. destruct Hseg as [_ Hseg]. rewrite El', <- app_assoc in Hseg, Hnd. rewrite El' in Htl, Hs.
    apply seg_app in Hseg as [Hseg1 Hseg2]. apply NoDup_app in Hnd as (Hn1 & Hn2 & Hn3). simpl in *.
    edestruct (insert_timer_spec abs t (abs t) p post s1) as (T' & E & R & Hs' & Hfr); [done | done | | done | | |].
    - rewrite app_comm_cons, elem_of_app, list_elem_of_singleton. rewrite elem_of_app in Htl. tauto.
    - intros q Hq. apply disp_wake. rewrite El', elem_of_app, elem_of_cons. auto.
    - apply disp_sentinel. rewrite El', elem_of_app, elem_of_cons in Hper. destruct Hper as [? | [Hx | [-> | ?]]]; auto.
      right; right. pose proof (sorted_before abs pre p post _ Hs Hx). lia.
    - exists T'. split; [done |]. split; [done |]. rewrite El', qinsert_skip, <- app_assoc by done.
      apply seg_app. split; [| done]. eapply seg_frame; [| exact Hseg1].
      intros q Hq. apply Hfr; [intros ->; apply Htl; rewrite elem_of_app; auto |].
      intros Hx. apply (Hn2 q Hq). rewrite app_comm_cons, elem_of_app. auto. }
  unfold pos. destruct (Z.ltb_spec (abs t) (abs li)) as [Hlt | Hge]; [by apply (Hins [] nx l') |].
  destruct (decide (li = t)) as [Et | Et].
  - rewrite Et. pose proof disp_wake as Hwk. pose proof (disp_sentinel l') as Hse.
    rewrite El in Hwk, Hseg, Hper, Htl, Hnd |- *. edestruct (insert_timer_self_spec abs t (abs t) nx l' s1) as (T' & E & R & Hs' & _);
      [exact Hseg | by apply NoDup_cons; split; [rewrite app_comm_cons, elem_of_app, list_elem_of_singleton; intuition |] | done
      | exact Hwk | apply Hse; rewrite elem_of_cons in Hper; destruct Hper as [? | [-> | ?]]; auto |].
    exists T'. split; [done |]. split; [done |]. simpl. destruct (Z.ltb_spec (abs t) (abs nx)); [lia | done].
  - destruct Hli as [? | Hli]; [done |]. apply list_elem_of_split in Hli as (pre & post & El'). by apply (Hins pre li post).
Qed.

Lemma disp_done nx l' :
  l = nx :: l' -> PeriodicTimer ∈ l ->
  let S := m_sched s in
  queue_inv lo abs l (S <| timer_list := nx |>
    <| last_insert := if bool_decide (last_insert S = t) then nx else last_insert S |>).
Proof.
  intros El Hper S. destruct disp_nodup as (Hts & Hnd & Htl).
  pose proof (qi_deleted _ _ _ _ I) as Hdel. simpl in Hdel.
  split; simpl.
  - by rewrite El.
  - apply (qi_seg _ _ _ _ I).
  - done.
  - done.
  - intros p Hp. by apply (qi_wake _ _ _ _ I), disp_in.
  - intros p Hp. by apply (qi_window _ _ _ _ I), disp_in.
  - apply (qi_sentinel _ _ _ _ I).
  - destruct (bool_decide_reflect (last_insert S = t)); [rewrite El; apply list_elem_of_here |].
    pose proof (qi_last _ _ _ _ I) as [? | ?]%elem_of_cons; done.
  - destruct (bool_decide _); [| apply (qi_last_user _ _ _ _ I)]. intros ->. apply Hdel. rewrite El. apply list_elem_of_here.
  - rewrite El in Hdel |- *. simpl. intros ?. by apply Hdel, list_elem_of_further.
  - apply (qi_deleted_there _ _ _ _ I).
Qed.

Lemma disp_moved nx l' T' :
  l = nx :: l' -> abs nx <= abs t -> t <> DeletedTimer ->
  relinked (timers (m_sched s)) T' -> lseg T' (qinsert abs t (abs t) l ++ [SentinelTimer]) None ->
  queue_inv lo abs (qinsert abs t (abs t) l)
    ((m_sched s) <| timer_list := nx |> <| timers := T' |> <| last_insert := t |>).
Proof.
  intros El Hnx Htd [Rw Rd] Hseg. destruct disp_nodup as (Hts & Hnd & Htl).
  assert (Hin : forall p, p ∈ qinsert abs t (abs t) l <-> p ∈ t :: l) by (intros p; by rewrite qinsert_perm).
  assert (Eq : qinsert abs t (abs t) l = nx :: qinsert abs t (abs t) l').
  { rewrite El. simpl. destruct (Z.ltb_spec (abs t) (abs nx)); [lia | done]. }
  split; simpl.
  - by rewrite Eq.
  - done.
  - rewrite qinsert_perm. apply (qi_nodup _ _ _ _ I).
  - apply Hin, (qi_periodic _ _ _ _ I).
  - intros p Hp%Hin. rewrite Rw. by apply (qi_wake _ _ _ _ I).
  - intros p Hp%Hin. by apply (qi_window _ _ _ _ I).
  - rewrite Rw. apply (qi_sentinel _ _ _ _ I).
  - apply Hin, list_elem_of_here.
  - done.
  - rewrite Eq. simpl. rewrite qinsert_perm, elem_of_cons. pose proof (qi_deleted _ _ _ _ I) as Hdel. simpl in Hdel.
    rewrite El, elem_of_cons in Hdel. intuition congruence.
  - apply Rd, (qi_deleted_there _ _ _ _ I).
Qed.

End Dispatch.

Lemma sched_inv_first lo abs l s :
  sched_inv lo abs l s -> exists first, head l = Some first /\ first = timer_list (m_sched s)
    /\ (forall p, p ∈ l -> abs first <= abs p).
Proof.
  intros [I Hs]. destruct l as [| p l]; [by apply qi_head in I |]. exists p. split; [done |].
  split; [by destruct (queue_inv_front _ _ _ _ _ I) |]. by apply sorted_head.
Qed.

(** The first entry of the new list is the one reported to the hardware. *)
Definition reported (lo : Z) (abs : tptr -> Z) (l' : list tptr) (r : res Z * mcu) : Prop :=
  exists s' first, r = (Ok (u32 (abs first)), s') /\ sched_inv lo abs l' s'
    /\ timer_list (m_sched s') = first.

Lemma dispatch_alone_run lo abs t res s :
  queue_inv lo abs [t] (m_sched s) -> res <> SF_DONE -> dispatch_update t res s = (Ok (u32 (abs t)), s).
Proof.
  intros I Hd. destruct (queue_inv_front _ _ _ _ _ I) as (Htl & tm & HT & Hw).
  pose proof (qi_periodic _ _ _ _ I) as Hp%list_elem_of_singleton. pose proof (qi_seg _ _ _ _ I) as [Hn _].
  unfold dispatch_update. rewrite (bind_ok _ _ _ _ _ (tm_get_run _ _ _ HT)), Hw. cbv zeta.
  simpl in Hn. rewrite (bind_ok _ _ _ _ _ (tm_next_run _ _ _ Hn)).
  destruct (disp_sentinel lo abs t [] s I [] (or_introl Hp)) as (v & Hv & Hb); [constructor |].
  apply wk_lookup in Hv as (ts & Hts & Hv). rewrite (bind_ok _ _ _ _ _ (tm_get_run _ _ _ Hts)), Hv, Hb.
  by destruct (Z.eqb_spec res SF_DONE).
Qed.

Lemma dispatch_alone lo abs t res s :
  queue_inv lo abs [t] (m_sched s) -> (t = PeriodicTimer -> res <> SF_DONE) ->
  res <> SF_DONE /\ reported lo abs [t] (dispatch_update t res s).
Proof.
  intros I Hper. pose proof (qi_periodic _ _ _ _ I) as Hp%list_elem_of_singleton.
  assert (Hd : res <> SF_DONE) by auto. split; [done |]. exists s, t.
  split; [rewrite (dispatch_alone_run lo abs _ _ _ I Hd); reflexivity |].
  split; [split; [exact I | repeat constructor] | apply (queue_inv_front _ _ _ _ _ I)].
Qed.

Lemma dispatch_more lo abs t nx rest res s :
  queue_inv lo abs (t :: nx :: rest) (m_sched s) -> StronglySorted (le_abs abs) (nx :: rest) ->
  (t = DeletedTimer -> res = SF_DONE) -> (t = PeriodicTimer -> res <> SF_DONE) ->
  reported lo abs (if res =? SF_DONE then nx :: rest else qinsert abs t (abs t) (nx :: rest)) (dispatch_update t res s).
Proof.
  intros I Hs Hdel Hper. destruct (queue_inv_front _ _ _ _ _ I) as (Htl & tm & HT & Hw).
  pose proof (qi_periodic _ _ _ _ I) as Hp%elem_of_cons. pose proof (qi_seg _ _ _ _ I) as [Hn _].
  unfold dispatch_update. rewrite (bind_ok _ _ _ _ _ (tm_get_run _ _ _ HT)), Hw. cbv zeta.
  simpl in Hn. rewrite (bind_ok _ _ _ _ _ (tm_next_run _ _ _ Hn)).
  destruct (disp_wake lo abs t (nx :: rest) s I nx (list_elem_of_here _ _)) as [Hwn Hr].
  apply wk_lookup in Hwn as (tn & HTn & Hwn). rewrite (bind_ok _ _ _ _ _ (tm_get_run _ _ _ HTn)), Hwn.
  rewrite timer_is_before_abs by done. unfold set_sched. destruct (Z.eqb_spec res SF_DONE) as [Hd | Hd].
  - msimpl. destruct Hp as [Hp | Hp]; [by destruct Hper |].
    pose proof (disp_done lo abs t (nx :: rest) s I nx rest eq_refl Hp) as I'. simpl in I' |- *.
    destruct (bool_decide _); msimpl; eexists _, nx; (split; [reflexivity | split; [split; [exact I' | done] | done]]).
  - destruct (Z.ltb_spec (abs t) (abs nx)) as [Hlt | Hge]; cbn [negb].
    + exists s, t. simpl. destruct (Z.ltb_spec (abs t) (abs nx)); [| lia].
      split; [done |]. split; [| done]. split; [exact I |]. apply StronglySorted_cons. split; [| done].
      apply Forall_forall. intros q Hq. pose proof (sorted_head abs nx rest Hs q Hq). unfold le_abs. lia.
    + destruct (disp_insert lo abs t (nx :: rest) s I Hs nx rest eq_refl Hge) as (T' & E & R & Hseg).
      assert (Htd : t <> DeletedTimer) by auto. msimpl.
      pose proof (qi_wake _ _ _ _ I _ (qi_last _ _ _ _ I)) as Hli. apply wk_lookup in Hli as (tl & HTl & Hwl).
      erewrite (bind_ok (tm_get _)) by (apply tm_get_run; exact HTl). rewrite Hwl, timer_is_before_abs.
      2: { pose proof (qi_window _ _ _ _ I _ (qi_last _ _ _ _ I)). pose proof (qi_window _ _ _ _ I t (list_elem_of_here _ _)). lia. }
      rewrite (bind_ok _ _ _ _ _ E). msimpl. eexists _, nx. split; [reflexivity |]. split; [| done].
      split; [by apply (disp_moved lo abs t (nx :: rest) s I nx rest T') | by apply qinsert_sorted].
Qed.

(** Timers that are not scheduled may be changed freely. *)
Lemma queue_inv_outside lo abs l S t f :
  queue_inv lo abs l S -> t ∉ l -> t <> SentinelTimer ->
  queue_inv lo abs l (S <| timers ::= alter f t |>).
Proof.
  intros I Ht Hs. split; simpl; try apply I.
  - eapply seg_frame; [| apply (qi_seg _ _ _ _ I)].
    intros p [Hp | ->%list_elem_of_singleton]%elem_of_app; apply nxt_alter_ne; [by intros -> | done].
  - intros p Hp. rewrite wk_alter_ne by (by intros ->). by apply (qi_wake _ _ _ _ I).
  - rewrite wk_alter_ne by done. apply (qi_sentinel _ _ _ _ I).
  - destruct (decide (t = DeletedTimer)) as [-> |].
    + rewrite lookup_alter_eq, fmap_is_Some. apply (qi_deleted_there _ _ _ _ I).
    + rewrite lookup_alter_ne by done. apply (qi_deleted_there _ _ _ _ I).
Qed.

(** C11: the list update of [sched_timer_dispatch] implements a sorted queue.
    After the callback of the first timer has run (and possibly moved its own
    wake time or removed other timers), a finished timer leaves the queue, and
    a rescheduled one is reinserted behind every timer due no later, whether
    the walk starts at the front or at the remembered last insertion; the
    value returned to the hardware layer is the wake time of the timer that is
    due next. *)
Theorem dispatch_update_queue lo abs t l res s :
  mid_inv lo abs t l s -> (t = DeletedTimer -> res = SF_DONE) -> (t = PeriodicTimer -> res <> SF_DONE) ->
  let l' := if res =? SF_DONE then l else qinsert abs t (abs t) l in
  exists s' first, dispatch_update t res s = (Ok (u32 (abs first)), s') /\ sched_inv lo abs l' s'
    /\ head l' = Some first /\ (forall p, p ∈ l' -> abs first <= abs p).
Proof.
  intros [I Hs] Hdel Hper l'.
  assert (H : reported lo abs l' (dispatch_update t res s)).
  { destruct l as [| nx rest]; [| by apply dispatch_more].
    destruct (dispatch_alone lo abs t res s I Hper) as [Hd Hr]. unfold l'.
    destruct (Z.eqb_spec res SF_DONE); [done | exact Hr]. }
  destruct H as (s' & first & E & Hi & Hf). exists s', first.
  destruct (sched_inv_first _ _ _ _ Hi) as (f & Hh & -> & Hle). subst first. done.
Qed.

(** *** The internal timers *)

(** Time passes: the window may move up to the first timer. *)
Lemma queue_inv_shift lo lo' abs l S :
  queue_inv lo abs l S -> lo <= lo' -> (forall p, p ∈ l -> lo' <= abs p) -> queue_inv lo' abs l S.
Proof.
  intros I Hle Hp. split; try apply I. intros p Hin. pose proof (qi_window _ _ _ _ I p Hin).
  specialize (Hp p Hin). lia.
Qed.

(** The effect of [periodic_event] on the timers. *)
Lemma periodic_event_run s :
  is_Some (timers (m_sched s) !! SentinelTimer) ->
  forall tp, timers (m_sched s) !! PeriodicTimer = Some tp ->
  let w := u32 (t_waketime tp + timer_from_us 100000) in
  exists s1, periodic_event s = (Ok SF_RESCHEDULE, s1) /\
    m_sched s1 = (m_sched s) <| tasks_status := TS_REQUESTED |>
      <| timers := alter (fun r => r <| t_waketime := u32 (w + 0x80000000) |>) SentinelTimer
          (alter (fun r => r <| t_waketime := w |>) PeriodicTimer (timers (m_sched s))) |>.
Proof.
  intros HS tp HT w. unfold periodic_event, sched_wake_tasks, set_sched. msimpl.
  erewrite bind_ok by (apply tm_upd_run; by eexists). simpl.
  erewrite bind_ok by (apply tm_get_run; simpl; rewrite lookup_alter_eq, HT; done).
  erewrite bind_ok by (apply tm_upd_run; simpl; by rewrite lookup_alter_ne).
  eexists. split; [reflexivity |]. simpl. do 2 f_equal. unfold w.
  apply map_eq. intros k. destruct (decide (k = PeriodicTimer)) as [-> | Hk].
  - rewrite !lookup_alter_eq, HT. done.
  - by rewrite !lookup_alter_ne.
Qed.

(** Running the periodic timer moves it 100ms ahead and the sentinel with it. *)
Lemma periodic_event_mid lo abs l s :
  sched_inv lo abs (PeriodicTimer :: l) s -> 0 < timer_from_us 100000 < 2 ^ 31 ->
  let p := abs PeriodicTimer in
  exists s1, periodic_event s = (Ok SF_RESCHEDULE, s1)
    /\ mid_inv p (<[PeriodicTimer := p + timer_from_us 100000]> abs) PeriodicTimer l s1.
Proof.
  intros [I Hs] Hd p. destruct (queue_inv_front _ _ _ _ _ I) as (Htl & tp & HT & Hw).
  pose proof (qi_nodup _ _ _ _ I) as [HP Hnd]%NoDup_cons. rewrite elem_of_app, list_elem_of_singleton in HP.
  assert (HS : is_Some (timers (m_sched s) !! SentinelTimer)).
  { pose proof (qi_sentinel _ _ _ _ I) as H. unfold wk in H. by destruct (_ !! SentinelTimer). }
  assert (Hl : forall q, q ∈ l -> q <> PeriodicTimer /\ q <> SentinelTimer).
  { intros q Hq. split; [intros ->; tauto |]. intros ->. apply NoDup_app in Hnd as (_ & Hx & _).
    apply (Hx _ Hq). apply list_elem_of_here. }
  destruct (periodic_event_run s HS tp HT) as (s1 & E & ES). exists s1. split; [done |].
  rewrite Hw in ES. fold p in ES. autorewrite with wrap32 in ES. change 0x80000000 with (2 ^ 31) in ES.
  set (T' := alter _ SentinelTimer _) in ES. set (abs' := <[PeriodicTimer := _]> abs).
  assert (HT' : forall q, q ∈ l -> wk T' q = wk (timers (m_sched s)) q).
  { intros q [H1 H2]%Hl. unfold T'. by rewrite !wk_alter_ne. }
  assert (Hn' : forall q, nxt T' q = nxt (timers (m_sched s)) q).
  { intros q. unfold T'. by rewrite !nxt_set_wake. }
  assert (Ha : forall q, q ∈ l -> abs' q = abs q).
  { intros q Hq%Hl. unfold abs'. rewrite fn_lookup_insert_ne; [done | by intros <-; destruct Hq]. }
  assert (Hap : abs' PeriodicTimer = p + timer_from_us 100000) by (unfold abs'; by rewrite fn_lookup_insert).
  pose proof (qi_window _ _ _ _ I PeriodicTimer (list_elem_of_here _ _)) as Hwp. fold p in Hwp.
  split; [| apply StronglySorted_cons in Hs as [_ Hs]; by apply (sorted_ext abs)].
  rewrite ES. split; simpl; try apply I.
  - apply (seg_frame (nxt (timers (m_sched s))) (nxt T') (PeriodicTimer :: l ++ [SentinelTimer])); [auto | apply (qi_seg _ _ _ _ I)].
  - intros q [-> | Hq]%elem_of_cons; [| rewrite HT', Ha by done; by apply (qi_wake _ _ _ _ I), list_elem_of_further].
    rewrite Hap. unfold T'. rewrite wk_alter_ne by done. apply wk_set_wake. by eexists.
  - intros q [-> | Hq]%elem_of_cons; [lia |]. rewrite Ha by done.
    pose proof (qi_window _ _ _ _ I q (list_elem_of_further _ _ _ Hq)).
    pose proof (sorted_head abs _ _ Hs q (list_elem_of_further _ _ _ Hq)) as Hle. fold p in Hle. lia.
  - rewrite Hap. unfold T'. rewrite wk_set_wake by (by rewrite lookup_alter_ne). f_equal. clear. cint_lia.
  - unfold T'. rewrite !lookup_alter_ne by done. apply (qi_deleted_there _ _ _ _ I).
Qed.

(** The stores of [sched_timer_reset], as one update of the timers. *)
Definition reset_timers (T : timer_map) (w : Z) : timer_map :=
  alter (fun r => r <| t_next := Some SentinelTimer |>) PeriodicTimer
    (alter (fun r => r <| t_next := Some PeriodicTimer |>) DeletedTimer
      (alter (fun r => r <| t_waketime := w |>) DeletedTimer T)).

Lemma sched_timer_reset_run tp s :
  let T := timers (m_sched s) in
  T !! PeriodicTimer = Some tp -> is_Some (T !! DeletedTimer) ->
  sched_timer_reset s = (Ok tt, s <| m_sched := (m_sched s) <| timer_list := DeletedTimer |>
    <| last_insert := PeriodicTimer |> <| timers := reset_timers T (t_waketime tp) |> |> <| m_hw ::= upd kicks S |>).
Proof.
  intros T HP HD. unfold sched_timer_reset, set_sched, timer_kick. msimpl.
  erewrite bind_ok by (apply tm_get_run; exact HP).
  erewrite bind_ok by (by apply tm_upd_run). msimpl.
  erewrite bind_ok by (apply tm_upd_run; simpl; rewrite lookup_alter_eq; by rewrite fmap_is_Some).
  erewrite bind_ok by (apply tm_upd_run; simpl; rewrite !lookup_alter_ne by done; by eexists).
  done.
Qed.

Lemma reset_timers_spec (T : timer_map) w :
  is_Some (T !! PeriodicTimer) -> is_Some (T !! DeletedTimer) ->
  let T' := reset_timers T w in
  nxt T' DeletedTimer = Some (Some PeriodicTimer) /\ nxt T' PeriodicTimer = Some (Some SentinelTimer)
  /\ nxt T' SentinelTimer = nxt T SentinelTimer /\ wk T' DeletedTimer = Some w
  /\ wk T' PeriodicTimer = wk T PeriodicTimer /\ wk T' SentinelTimer = wk T SentinelTimer
  /\ is_Some (T' !! DeletedTimer).
Proof.
  intros HP HD T'. unfold T', reset_timers. rewrite !wk_set_next. split_and!.
  - rewrite nxt_alter_ne by done. apply nxt_set_next. rewrite lookup_alter_eq. by rewrite fmap_is_Some.
  - apply nxt_set_next. by rewrite !lookup_alter_ne.
  - by rewrite !nxt_alter_ne.
  - by apply wk_set_wake.
  - by rewrite wk_alter_ne.
  - by rewrite wk_alter_ne.
  - rewrite lookup_alter_ne, !lookup_alter_eq by done. by rewrite !fmap_is_Some.
Qed.

(** [sched_timer_reset] rebuilds a correct timer list from any state:
    whatever links a shutdown interrupted, as long as the sentinel is half a
    clock period behind the periodic timer, afterwards the queue holds exactly
    the periodic timer, the invariant holds and the timer interrupt has been
    requested. *)
Theorem sched_timer_reset_inv p s :
  let T := timers (m_sched s) in
  wk T PeriodicTimer = Some (u32 p) -> wk T SentinelTimer = Some (u32 (p + 2 ^ 31)) ->
  nxt T SentinelTimer = Some None -> is_Some (T !! DeletedTimer) ->
  exists s' l, sched_timer_reset s = (Ok tt, s') /\ sched_inv p (fun _ => p) l s'
    /\ queue l = [PeriodicTimer] /\ kicks (m_hw s') = Datatypes.S (kicks (m_hw s)).
Proof.
  intros T HP HS HSn HD. pose proof HP as (tp & HTp & Hwp)%wk_lookup.
  pose proof (sched_timer_reset_run tp s HTp HD) as E. rewrite Hwp in E.
  destruct (reset_timers_spec T (u32 p)) as (N1 & N2 & N3 & W1 & W2 & W3 & D); [by eexists | done |].
  eexists _, [DeletedTimer; PeriodicTimer]. split; [exact E |]. split; [| done].
  split; [split; simpl; fold T |]; try done.
  - rewrite N1, N2, N3. done.
  - vm_decide.
  - rewrite !elem_of_cons. auto.
  - intros q [-> | ->%list_elem_of_singleton]%elem_of_cons; [done | by rewrite W2].
  - intros q _. lia.
  - by rewrite W3.
  - rewrite !elem_of_cons. auto.
  - rewrite list_elem_of_singleton. done.
  - repeat constructor; unfold le_abs; lia.
Qed.

(** What a timer callback promises to the scheduler: run from a consistent
    list it returns, leaves the rest of the list consistent (it may move its
    own wake time and remove other timers), never finishes the periodic timer
    and always finishes the place holder. *)
Definition callback_ok `{Callbacks} (t : tptr) (s : mcu) : Prop :=
  forall lo abs l, sched_inv lo abs (t :: l) s ->
  exists r s1 lo1 abs1 l1, run_callback t s = (Ok r, s1) /\ mid_inv lo1 abs1 t l1 s1
    /\ (t = DeletedTimer -> r = SF_DONE) /\ (t = PeriodicTimer -> r <> SF_DONE).

Lemma sched_timer_dispatch_run `{Callbacks} t r lo1 abs1 l1 s s1 :
  timer_list (m_sched s) = t -> run_callback t s = (Ok r, s1) -> mid_inv lo1 abs1 t l1 s1 ->
  (t = DeletedTimer -> r = SF_DONE) -> (t = PeriodicTimer -> r <> SF_DONE) ->
  exists next s', sched_timer_dispatch s = (Ok next, s') /\ dispatch_update t r s1 = (Ok next, s')
    /\ sched_inv lo1 abs1 (if r =? SF_DONE then l1 else qinsert abs1 t (abs1 t) l1) s'
    /\ next = u32 (abs1 (timer_list (m_sched s'))).
Proof.
  intros Htl E Hm Hd Hp.
  assert (Hr : reported lo1 abs1 (if r =? SF_DONE then l1 else qinsert abs1 t (abs1 t) l1) (dispatch_update t r s1)).
  { destruct Hm as [I1 Hs1]. destruct l1 as [| nx rest]; [| by apply dispatch_more].
    destruct (dispatch_alone lo1 abs1 t r s1 I1 Hp) as [Hne Hr]. destruct (Z.eqb_spec r SF_DONE); [done | exact Hr]. }
  destruct Hr as (s' & first & E' & Hi' & Hf).
  unfold sched_timer_dispatch. msimpl. rewrite Htl, (bind_ok _ _ _ _ _ E), E'.
  eexists _, s'. split; [reflexivity |]. split; [reflexivity |]. split; [exact Hi' |]. by subst first.
Qed.

Lemma sched_timer_dispatch_inv `{Callbacks} lo abs t l s :
  sched_inv lo abs (t :: l) s -> callback_ok t s ->
  exists next s' lo' abs' l', sched_timer_dispatch s = (Ok next, s') /\ sched_inv lo' abs' l' s'
    /\ exists first, head l' = Some first /\ next = u32 (abs' first).
Proof.
  intros Hi Hcb. destruct (Hcb lo abs l Hi) as (r & s1 & lo1 & abs1 & l1 & E & Hm & Hd & Hp).
  destruct Hi as [I _]. destruct (queue_inv_front _ _ _ _ _ I) as [Htl _].
  destruct (sched_timer_dispatch_run t r lo1 abs1 l1 s s1 Htl E Hm Hd Hp) as (next & s' & E' & _ & Hi' & ->).
  eexists _, s', lo1, abs1, _. split; [exact E' |]. split; [exact Hi' |].
  destruct (sched_inv_first _ _ _ _ Hi') as (f & Hh & Ef & _). exists f. split; [done | by rewrite Ef].
Qed.

End Operations.

(** ** Frames *)

(** Parts of the state the scheduler does not touch. *)
Definition sched_quiet {C : Type} (f : mcu -> C) : Prop := forall g s, f (s <| m_sched ::= g |>) = f s.
Definition hw_quiet {C : Type} (f : mcu -> C) : Prop := forall g s, f (s <| m_hw ::= g |>) = f s.

#[export] Hint Extern 0 (sched_quiet _) => intros ? ?; reflexivity : keeps.
#[export] Hint Extern 0 (hw_quiet _) => intros ? ?; reflexivity : keeps.

(** No timer appears or disappears. *)
Definition timer_dom (s : mcu) : gset tptr := dom (timers (m_sched s)).

Section TimerDom.
Context `{B : Board}.

Lemma tm_upd_dom p g : keeps timer_dom (tm_upd p g).
Proof.
  unfold tm_upd, tm_get. keeps_tac. apply keeps_modify. intros s. unfold timer_dom. simpl. apply dom_alter_L.
Qed.

#[local] Hint Resolve tm_upd_dom : keeps.

Lemma del_timer_loop_dom n pos del : keeps timer_dom (del_timer_loop n pos del).
Proof.
  revert pos. induction n as [| n IH]; intros pos; cbn [del_timer_loop]; [apply keeps_lift |].
  unfold tm_get. keeps_tac.
Qed.

#[local] Hint Resolve del_timer_loop_dom : keeps.

Lemma sched_del_timer_dom del : keeps timer_dom (sched_del_timer del).
Proof.
  unfold sched_del_timer, del_timer_hint, set_sched, tm_get. keeps_tac.
Qed.
End TimerDom.

Section Frames.
Context `{B : Board} {C : Type} (f : mcu -> C).
Hypothesis Hf : sched_quiet f.

Lemma tm_get_keeps p : keeps f (tm_get p).
Proof. unfold tm_get. keeps_tac. Qed.
Lemma tm_upd_keeps p g : keeps f (tm_upd p g).
Proof. unfold tm_upd, tm_get. keeps_tac. apply keeps_modify. intros s. apply Hf. Qed.
Lemma set_sched_keeps g : keeps f (set_sched g).
Proof. apply keeps_modify. intros s. apply Hf. Qed.

Lemma del_timer_loop_keeps n pos del : keeps f (del_timer_loop n pos del).
Proof.
  revert pos. induction n as [| n IH]; intros pos; cbn [del_timer_loop]; [apply keeps_lift |].
  apply keeps_bind; [apply tm_get_keeps |]. intros t. destruct (t_next t); [| apply keeps_ret].
  destruct (decide _); [| apply IH]. apply keeps_bind; [apply tm_get_keeps |]. intros d. apply tm_upd_keeps.
Qed.

Lemma sched_del_timer_keeps del : keeps f (sched_del_timer del).
Proof.
  unfold sched_del_timer, del_timer_hint. apply keeps_bind; [apply keeps_gets |]. intros tl. apply keeps_bind; [| intros _].
  - destruct (decide _).
    + apply keeps_bind; [apply tm_get_keeps |]. intros d.
      repeat (apply keeps_bind; [apply tm_upd_keeps | intros _]). apply set_sched_keeps.
    + apply keeps_bind; [apply keeps_gets |]. intros k. apply del_timer_loop_keeps.
  - apply keeps_bind; [apply keeps_gets |]. intros li. apply keeps_when, set_sched_keeps.
Qed.

(** Removing a timer moves no other timer (the place holder apart). *)
Lemma sched_del_timer_wk del p :
  p <> DeletedTimer -> keeps (fun s => wk (timers (m_sched s)) p) (sched_del_timer del).
Proof.
  intros Hp.
  assert (Hn : forall q v, keeps (fun s => wk (timers (m_sched s)) p) (tm_upd q (fun r => r <| t_next := v |>))).
  { intros q v. unfold tm_upd, tm_get. keeps_tac. apply keeps_modify. intros s. apply wk_set_next. }
  assert (Hw : forall g, keeps (fun s => wk (timers (m_sched s)) p) (tm_upd DeletedTimer g)).
  { intros g. unfold tm_upd, tm_get. keeps_tac. apply keeps_modify. intros s. by apply wk_alter_ne. }
  assert (Hl : forall n pos, keeps (fun s => wk (timers (m_sched s)) p) (del_timer_loop n pos del)).
  { induction n as [| n IH]; intros pos; cbn [del_timer_loop]; unfold tm_get; keeps_tac. }
  unfold sched_del_timer, del_timer_hint, set_sched, tm_get. keeps_tac.
Qed.

Lemma insert_timer_keeps pos t w : keeps f (insert_timer pos t w).
Proof.
  assert (Hl : forall n pos, keeps f (insert_timer_loop n pos w)).
  { induction n as [| n IH]; intros q; cbn [insert_timer_loop]; [apply keeps_lift |]. unfold tm_next, tm_get. keeps_tac. }
  unfold insert_timer. apply keeps_bind; [apply keeps_gets |]. intros n. apply keeps_bind; [apply Hl |].
  intros [prev q]. apply keeps_bind; [apply tm_upd_keeps | intros _; apply tm_upd_keeps].
Qed.

(** Scheduling may also read the clock and report a timer that is late. *)
Lemma sched_add_timer_keeps t : hw_quiet f -> quiet f -> keeps f (sched_add_timer t).
Proof.
  intros Hh Hq. pose proof tm_get_keeps as K1. pose proof tm_upd_keeps as K2. pose proof set_sched_keeps as K3.
  pose proof insert_timer_keeps as K4. assert (K5 : keeps f timer_read_time) by (unfold timer_read_time; keeps_tac; by apply keeps_modify).
  assert (K6 : keeps f timer_kick) by (by apply keeps_modify).
  assert (K7 : forall fmt args, keeps f (output fmt args)) by (intros; by apply output_keeps).
  clear Hh Hq Hf. unfold sched_add_timer, add_timer_clamp. keeps_tac.
Qed.

Lemma sched_wake_task_keeps w : (forall g s, f (s <| m_wake ::= g |>) = f s) -> keeps f (sched_wake_task w).
Proof.
  intros Hw. unfold sched_wake_task. apply keeps_bind; [apply set_sched_keeps |]. intros _. by apply keeps_modify.
Qed.
End Frames.

#[export] Hint Resolve tm_get_keeps tm_upd_keeps set_sched_keeps sched_del_timer_keeps : keeps.

(** ** Examples *)

Lemma initial_inv : sched_inv 0 (fun _ => 0) [PeriodicTimer] initial_mcu.
Proof.
  split; [split; simpl |]; try done.
  - vm_decide.
  - apply list_elem_of_here.
  - by intros p ->%list_elem_of_singleton.
  - apply list_elem_of_here.
  - apply not_elem_of_nil.
  - repeat constructor.
Qed.

(** A state with one user timer at [w], linked behind the periodic timer at
    [p] if [linked]. *)
Definition demo_timers (p w : Z) (linked : bool) : timer_map :=
  let o := ObjTimer 0 0 in
  {[ PeriodicTimer := mk_timer (Some (if linked then o else SentinelTimer)) (Some F_periodic_event) p;
     o := mk_timer (if linked then Some SentinelTimer else None) (Some F_analog_in_event) w;
     SentinelTimer := mk_timer None (Some F_sentinel_event) (u32 (p + 2 ^ 31));
     DeletedTimer := mk_timer None (Some F_deleted_event) 0 ]}.

Definition demo_sched (p w : Z) (linked : bool) : mcu :=
  initial_mcu <| m_sched ::= upd timers (fun _ => demo_timers p w linked) |>.

Definition demo_abs (p w : Z) : tptr -> Z := <[ObjTimer 0 0 := w]> (fun _ => p).

Lemma demo_queue_inv :
  queue_inv 0 (demo_abs 6400000 5000) [PeriodicTimer; ObjTimer 0 0] (m_sched (demo_sched 6400000 5000 true)).
Proof.
  split; simpl; try done; try vm_decide.
  - intros p [-> | ->%list_elem_of_singleton]%elem_of_cons; vm_compute; reflexivity.
  - intros p [-> | ->%list_elem_of_singleton]%elem_of_cons; vm_decide.
Qed.

Lemma demo_sched_inv :
  sched_inv 0 (demo_abs 1000 5000) [PeriodicTimer; ObjTimer 0 0] (demo_sched 1000 5000 true).
Proof.
  split; [split; simpl; try done; try vm_decide |].
  - intros p [-> | ->%list_elem_of_singleton]%elem_of_cons; vm_compute; reflexivity.
  - intros p [-> | ->%list_elem_of_singleton]%elem_of_cons; vm_decide.
  - repeat constructor. vm_compute. discriminate.
Qed.


Lemma sched_del_timer_queue_witness :
  exists abs' l' s', sched_del_timer (ObjTimer 0 0) (demo_sched 1000 5000 true) = (Ok tt, s')
    /\ sched_inv 0 abs' l' s' /\ queue l' = [PeriodicTimer] /\ last_insert (m_sched s') <> ObjTimer 0 0
    /\ (forall p, p ∈ queue l' -> abs' p = demo_abs 1000 5000 p).
Proof.
  apply (sched_del_timer_queue 0 (demo_abs 1000 5000) [PeriodicTimer; ObjTimer 0 0]);
    [apply demo_sched_inv | done | done | done].
Defined.

Lemma dispatch_update_queue_witness :
  exists s' first, dispatch_update PeriodicTimer SF_RESCHEDULE (demo_sched 6400000 5000 true)
      = (Ok (u32 (demo_abs 6400000 5000 first)), s')
    /\ sched_inv 0 (demo_abs 6400000 5000) [ObjTimer 0 0; PeriodicTimer] s' /\ Some (ObjTimer 0 0) = Some first
    /\ (forall p, p ∈ [ObjTimer 0 0; PeriodicTimer] -> demo_abs 6400000 5000 first <= demo_abs 6400000 5000 p).
Proof.
  apply (dispatch_update_queue 0 (demo_abs 6400000 5000) PeriodicTimer [ObjTimer 0 0] SF_RESCHEDULE);
    [split; [exact demo_queue_inv | repeat constructor] | done | done].
Defined.

Lemma sched_timer_reset_inv_witness :
  exists s' l, sched_timer_reset (demo_sched 1000 5000 true) = (Ok tt, s')
    /\ sched_inv 1000 (fun _ => 1000) l s' /\ queue l = [PeriodicTimer] /\ kicks (m_hw s') = 1%nat.
Proof.
  apply (sched_timer_reset_inv 1000 (demo_sched 1000 5000 true)); done.
Defined.

(** A timer that is added late is not inserted in order.  With a clock at
    5000, a timer due at 1000 still waiting and a new timer due at 900,
    [sched_add_timer] moves the new timer to 5228 (two microseconds after the
    next clock reading) and then puts it in front of the one due at 1000, which
    the comment "before all other scheduled timers" no longer describes. *)
Theorem sched_add_timer_late_unsorted :
  let s := (demo_sched 1000 900 false) <| m_hw ::= upd ticks (fun _ => 50%nat) |> in
  let '(r, s') := sched_add_timer (B := demo_board) (ObjTimer 0 0) s in
  let T := timers (m_sched s') in
  r = Ok tt /\ timer_list (m_sched s') = DeletedTimer
  /\ lseg T [DeletedTimer; ObjTimer 0 0; PeriodicTimer; SentinelTimer] None
  /\ wk T (ObjTimer 0 0) = Some 5228 /\ wk T PeriodicTimer = Some 1000.
Proof. vm_compute. repeat split. Qed.
