(* ===== verification/Armcm.v ===== *)
(** * Armcm: the timer interrupt

    Models [src/src/generic/armcm_timer.c], the SysTick timer of the ARM boards,
    and [timer_dispatch_many] of [src/src/generic/timer_irq.c], its twin for the
    other boards: the wrap timer that keeps the SysTick interval below its 24
    bits, and the loop that runs the software timers that are due.
    [timer_read_time], [timer_from_us] and [timer_is_before] of these files are
    those of [Sched]. *)

From S2P Require Import Prelude Wire State Command Sched.
Import Encode.

Section WithBoard.
Context `{B : Board}.

Definition timer_wrap_event : FW Z :=
  tm_upd WrapTimer (fun r => r <| t_waketime ::= fun w => u32 (w + 0xffffff) |>) ;;
  mret SF_RESCHEDULE.

Definition timer_reset : FW unit :=
  if timer_from_us 100000 <=? 0xffffff then mret tt
  else sched_add_timer WrapTimer.

Definition TIMER_IDLE_REPEAT_TICKS : Z := timer_from_us 500.
Definition TIMER_REPEAT_TICKS : Z := timer_from_us 100.
Definition TIMER_MIN_TRY_TICKS : Z := timer_from_us 2.
Definition TIMER_DEFER_REPEAT_TICKS : Z := timer_from_us 5.

(** [while (diff > 0) diff = next - timer_read_time();]. *)
Fixpoint wait_ready (fuel : nat) (next diff : Z) : FW unit :=
  match fuel with
  | O => lift_res OutOfFuel
  | S fuel =>
      if diff >? 0
      then now ← timer_read_time; wait_ready fuel next (s32 (next - now))
      else mret tt
  end.

Definition set_repeat_until (t : Z) : FW unit := modify (fun s => s <| timer_repeat_until := t |>).

(** [udelay]: its loop, until the clock reaches [end]. *)
Fixpoint udelay_loop (fuel : nat) (end_ : Z) : FW unit :=
  match fuel with
  | O => lift_res OutOfFuel
  | S fuel => now ← timer_read_time; if timer_is_before now end_ then udelay_loop fuel end_ else mret tt
  end.

Definition udelay (fuel : nat) (usecs : Z) : FW unit :=
  now ← timer_read_time; udelay_loop fuel (u32 (now + timer_from_us usecs)).

Section Dispatch.
Context `{C : Callbacks}.

(** The [for (;;)] of [timer_dispatch_many]; [relative] tells the two versions
    apart, which return an interval or a time.  [wait] bounds the inner loop. *)
Fixpoint dispatch_many (relative : bool) (wait fuel : nat) (tru : Z) : FW Z :=
  match fuel with
  | O => lift_res OutOfFuel
  | S fuel =>
      next ← sched_timer_dispatch;
      now ← timer_read_time;
      let diff := s32 (next - now) in
      if diff >? s32 TIMER_MIN_TRY_TICKS then mret (if relative then diff else next)
      else if timer_is_before tru now
      then
        when (diff <? s32 (- timer_from_us 1000)) (sched_try_shutdown "Rescheduled timer in the past") ;;
        busy ← sched_tasks_busy;
        if (busy : bool)
        then
          set_repeat_until (u32 (now + TIMER_REPEAT_TICKS)) ;;
          mret (if relative then TIMER_DEFER_REPEAT_TICKS else u32 (now + TIMER_DEFER_REPEAT_TICKS))
        else
          let tru := u32 (now + TIMER_IDLE_REPEAT_TICKS) in
          set_repeat_until tru ;;
          wait_ready wait next diff ;;
          dispatch_many relative wait fuel tru
      else
        wait_ready wait next diff ;;
        dispatch_many relative wait fuel tru
  end.

Definition timer_dispatch_many (relative : bool) (wait fuel : nat) : FW Z :=
  tru ← gets timer_repeat_until;
  dispatch_many relative wait fuel tru.

(** [SysTick_Handler]: the value loaded into the interval register. *)
Definition SysTick_Handler (wait fuel : nat) : FW Z := timer_dispatch_many true wait fuel.
End Dispatch.

Definition timer_task : FW unit :=
  now ← timer_read_time;
  t ← gets timer_repeat_until;
  when (timer_is_before t now) (set_repeat_until now).
End WithBoard.

(** ** The interrupt returns *)

Section Returning.
Context `{B : Board} `{C : Callbacks} (T : nat -> Z) (P : mcu -> Prop).
Implicit Types s : mcu.

(** The clock advances with every reading, by less than a
    sixteenth of its period. *)
Hypothesis clock : forall n, u32 (hw_time n) = u32 (T n).
Hypothesis clock_step : forall n, T n < T (S n) < T n + 2 ^ 28.
Hypothesis ticks_small : 0 <= TIMER_MIN_TRY_TICKS < 2 ^ 28.

(** What the callbacks promise: the dispatch of a timer returns, and tasks that
    wait keep waiting. *)
Definition now_of s : Z := T (ticks (m_hw s)).

Hypothesis P_busy : forall s, P s -> TS_REQUESTED <= tasks_status (m_sched s).
Hypothesis P_read : forall s, P s -> P (s <| m_hw ::= upd ticks S |>).
Hypothesis P_dispatch : forall s, P s -> exists next s', sched_timer_dispatch s = (Ok next, s') /\ is_u32 next /\ P s'
  /\ now_of s <= now_of s' < now_of s + 2 ^ 28.

Lemma read_now s : timer_read_time s = (Ok (u32 (now_of s)), s <| m_hw ::= upd ticks S |>).
Proof. unfold timer_read_time, now_of. msimpl. by rewrite clock. Qed.

Lemma now_tick s : now_of s < now_of (s <| m_hw ::= upd ticks S |>) < now_of s + 2 ^ 28.
Proof. apply clock_step. Qed.

Lemma s32_near a b : - 2 ^ 31 <= a - b < 2 ^ 31 -> s32 (u32 a - u32 b) = a - b.
Proof. intros H. rewrite <- s32_u32. autorewrite with wrap32. rewrite s32_u32. by apply s32_small. Qed.

(** The inner loop: [d] is how far the last reading was from [next]. *)
Lemma wait_ready_run next : forall fuel d s,
  d < 2 ^ 28 -> next - d < now_of s < next - d + 2 ^ 28 -> P s -> (Z.to_nat d < fuel)%nat ->
  exists s', wait_ready fuel (u32 next) d s = (Ok tt, s') /\ P s'
    /\ now_of s <= now_of s' < Z.max (next + 2 ^ 28) (now_of s) + 2 ^ 28.
Proof.
  induction fuel as [| fuel IH]; intros d s Hd Hn HP Hf; [lia |]. cbn [wait_ready].
  destruct (Z.gtb_spec d 0); [| exists s; split; [done |]; split; [done | lia]].
  rewrite (bind_ok _ _ _ _ _ (read_now s)), s32_near by lia. set (s1 := s <| m_hw ::= upd ticks S |>).
  pose proof (now_tick s : now_of s < now_of s1 < _). assert (P1 : P s1) by (by apply P_read).
  destruct (Z.le_gt_cases (next - now_of s) 0).
  - exists s1. destruct fuel as [| fuel]; [lia |]. cbn [wait_ready]. destruct (Z.gtb_spec (next - now_of s) 0); [lia |].
    split; [done |]. split; [done | lia].
  - destruct (IH (next - now_of s) s1) as (s' & E & HP' & Hb); [lia | lia | done | lia |].
    exists s'. split; [done |]. split; [done | lia].
Qed.

Lemma before_near a b : - 2 ^ 31 <= a - b < 2 ^ 31 -> timer_is_before (u32 a) (u32 b) = (a <? b).
Proof.
  intros H. unfold timer_is_before. rewrite s32_u32, s32_near by done.
  destruct (Z.ltb_spec (a - b) 0), (Z.ltb_spec a b); try done; lia.
Qed.

Lemma try_shutdown_run b reason s :
  when b (sched_try_shutdown reason) s = (Ok tt, s) \/ when b (sched_try_shutdown reason) s = (Shut reason, s).
Proof.
  destruct b; [| by left]. unfold sched_try_shutdown. simpl. msimpl. destruct (shutdown_status (m_sched s) =? 0); [by right | by left].
Qed.

(** The result of a turn that ends the loop. *)
Definition interval_ok (rel : bool) (r : res Z) : Prop :=
  match r with
  | Ok d => rel = true -> d > TIMER_MIN_TRY_TICKS \/ d = TIMER_DEFER_REPEAT_TICKS
  | Shut e => e = "Rescheduled timer in the past"
  | _ => False
  end.

(** One turn of the outer loop: it ends, or time has passed and the limit has
    not. *)
Lemma dispatch_turn rel wait fuel tru s :
  P s -> (Z.to_nat TIMER_MIN_TRY_TICKS < wait)%nat -> - 2 ^ 30 < tru - now_of s < 2 ^ 30 ->
  interval_ok rel (dispatch_many rel wait (S fuel) (u32 tru) s).1
  \/ exists s', dispatch_many rel wait (S fuel) (u32 tru) s = dispatch_many rel wait fuel (u32 tru) s' /\ P s'
      /\ now_of s < now_of s' /\ - 2 ^ 30 < tru - now_of s' /\ now_of s <= tru.
Proof.
  intros HP Hw Ht. cbn [dispatch_many]. destruct (P_dispatch s HP) as (next & s1 & E1 & Hu & P1 & H1).
  rewrite (bind_ok _ _ _ _ _ E1), (bind_ok _ _ _ _ _ (read_now s1)). set (s2 := s1 <| m_hw ::= upd ticks S |>).
  assert (P2 : P s2) by (by apply P_read). pose proof (now_tick s1 : now_of s1 < now_of s2 < _).
  cbv zeta. set (d := s32 (next - u32 (now_of s1))). rewrite (s32_small TIMER_MIN_TRY_TICKS) by lia.
  destruct (Z.gtb_spec d TIMER_MIN_TRY_TICKS); [left; simpl; intros ->; left; lia |].
  rewrite before_near by lia. destruct (Z.ltb_spec tru (now_of s1)).
  - left. unfold mbind at 1, M_bind at 1.
    destruct (try_shutdown_run (d <? s32 (- timer_from_us 1000)) "Rescheduled timer in the past" s2) as [-> | ->]; [| done].
    unfold sched_tasks_busy. msimpl. rewrite (proj2 (Z.geb_le _ _) (P_busy s2 P2)). msimpl. simpl. intros ->. by right.
  - right. assert (En : next = u32 (now_of s1 + d)).
    { unfold d. rewrite <- (u32_small next Hu) at 1. clear -Hu. unfold s32. cint_lia. }
    destruct (wait_ready_run (now_of s1 + d) wait d s2) as (s3 & E3 & P3 & H3); [lia | lia | done | lia |].
    rewrite En, (bind_ok _ _ _ _ _ E3). exists s3. split; [done |]. split; [done |]. lia.
Qed.

End Returning.

(** ** Example: the periodic timer alone *)

Section Example.
#[local] Existing Instance demo_board.

#[local] Instance sched_callbacks : Callbacks := {|
  call_func f _ := match f with
                   | F_periodic_event => periodic_event
                   | F_sentinel_event => sentinel_event
                   | F_deleted_event => deleted_event
                   | _ => fault "no such timer"
                   end;
  call_stepper _ := fault "no such timer";
|}.

Definition alone (s : mcu) : Prop :=
  (exists lo abs, sched_inv lo abs [PeriodicTimer] s) /\ TS_REQUESTED <= tasks_status (m_sched s)
  /\ t_func <$> timers (m_sched s) !! PeriodicTimer = Some (Some F_periodic_event).

Lemma alone_dispatch s : alone s -> exists next s', sched_timer_dispatch s = (Ok next, s') /\ is_u32 next /\ alone s'
  /\ 100 * Z.of_nat (ticks (m_hw s)) <= 100 * Z.of_nat (ticks (m_hw s')) < 100 * Z.of_nat (ticks (m_hw s)) + 2 ^ 28.
Proof.
  intros ((lo & abs & HI) & Hb & Hf). destruct (queue_inv_front _ _ _ _ _ (proj1 HI)) as (Htl & tp & HT & Hw).
  assert (HS : is_Some (timers (m_sched s) !! SentinelTimer)).
  { pose proof (qi_sentinel _ _ _ _ (proj1 HI)) as H. unfold wk in H. by destruct (_ !! SentinelTimer). }
  destruct (periodic_event_mid lo abs [] s HI) as (s1 & E & I1 & _); [vm_compute; done |].
  destruct (periodic_event_run s HS tp HT) as (s1' & E' & ES). rewrite E in E'. injection E' as <-.
  assert (Hr : run_callback PeriodicTimer s = (Ok SF_RESCHEDULE, s1)).
  { unfold run_callback. rewrite (bind_ok _ _ _ _ _ (tm_get_run _ _ _ HT)).
    rewrite HT in Hf. simpl in Hf. injection Hf as ->. exact E. }
  assert (Hh : m_hw s1 = m_hw s).
  { assert (K : keeps m_hw periodic_event) by (unfold periodic_event, sched_wake_tasks; keeps_tac).
    specialize (K s). by rewrite E in K. }
  eexists _, s1. unfold sched_timer_dispatch. msimpl. rewrite Htl, (bind_ok _ _ _ _ _ Hr).
  split; [apply (dispatch_alone_run _ _ _ _ _ I1); done |]. split; [apply u32_range |]. rewrite Hh. split; [| lia].
  split; [eexists _, _; split; [exact I1 | repeat constructor] |]. rewrite ES. simpl. split; [done |].
  rewrite lookup_alter_ne, lookup_alter_eq, HT by done. rewrite HT in Hf. exact Hf.
Qed.

Definition busy_mcu : mcu := initial_mcu <| m_sched ::= upd tasks_status (fun _ => TS_REQUESTED) |>.

End Example.
