(* ===== verification/Basecmd.v ===== *)
(** * Basecmd: memory, move queues, object ids, statistics

    Models [src/src/basecmd.c]: the bump allocator, the pool of move nodes and
    the queues built from it, the table of configured objects, and the
    infrastructure commands.  A node of the pool is named by its index in the
    array [move_list]; an object pointer is the oid it was allocated for. *)

From S2P Require Import Prelude Wire State Command Sched.
Import Encode.

Section WithBoard.
Context `{B : Board}.

Definition set_base (f : basecmd_st -> basecmd_st) : FW unit := modify (fun s => s <| m_base ::= f |>).
Definition base {A} (f : basecmd_st -> A) : FW A := gets (fun s => f (m_base s)).

(** ** Low level allocation *)

(** The macro [ALIGN(v, a)] for a power of two. *)
Definition ALIGN (v a : Z) : Z := clr (v + (a - 1)) (a - 1).

Definition alloc_init : FW unit := set_base (fun b => b <| alloc_end := ALIGN dynmem_start alignof_ptr |>).

Definition alloc_chunk (size : Z) : FW Z :=
  data ← base alloc_end;
  if data + size >? dynmem_end then shutdown "alloc_chunk failed"
  else
    set_base (fun b => b <| alloc_end := data + ALIGN size alignof_ptr |>) ;;
    mret data.

(** The counting loop of [alloc_chunks]: [n] is [count - can_alloc]. *)
Fixpoint alloc_chunks_loop (n : nat) (size p : Z) (can_alloc : Z) : Z * Z :=
  match n with
  | O => (can_alloc, p)
  | S n =>
      if p + size <=? dynmem_end then alloc_chunks_loop n size (p + size) (can_alloc + 1)
      else (can_alloc, p)
  end.

(** [alloc_chunks]: the address and what is stored through [avail]. *)
Definition alloc_chunks (size count : Z) : FW (Z * Z) :=
  start ← base alloc_end;
  let '(can_alloc, p) := alloc_chunks_loop (Z.to_nat count) size start 0 in
  if can_alloc =? 0 then shutdown "alloc_chunks failed"
  else
    data ← alloc_chunk (p - start);
    set_base (fun b => b <| allocMoveQueueCountMax := u32 can_alloc |>) ;;
    mret (data, u16 can_alloc).

(** ** Move queue *)

Definition is_finalized : FW bool := base (fun b => truth (move_count b)).

Definition node_get (m : Z) : FW move_node :=
  N ← base nodes; deref "move node" (N !! m).

Definition node_upd (m : Z) (f : move_node -> move_node) : FW unit :=
  _ ← node_get m; set_base (fun b => b <| nodes ::= alter f m |>).

Definition move_free (m : Z) : FW unit :=
  fl ← base move_free_list;
  node_upd m (fun n => n <| mn_next := fl |>) ;;
  set_base (fun b => b <| move_free_list := Some m |>) ;;
  set_base (fun b => b <| usedMoveQueueNumber ::= fun n => u32 (n - 1) |>).

Definition move_alloc : FW Z :=
  mf ← base move_free_list;
  match mf with
  | None => shutdown "Move queue overflow"
  | Some m =>
      n ← node_get m;
      set_base (fun b => b <| move_free_list := mn_next n |>) ;;
      set_base (fun b => b <| usedMoveQueueNumber ::= fun n => u32 (n + 1) |>) ;;
      set_base (fun b => b <| usedMoveQueueWaterLine ::= fun w =>
        if w <? usedMoveQueueNumber b then usedMoveQueueNumber b else w |>) ;;
      mret m
  end.

Definition move_queue_empty (mh : move_queue_head) : bool := bool_decide (mq_first mh = None).

Definition move_queue_first (mh : move_queue_head) : option Z := mq_first mh.

(** The head is a field of its owner: the operations return the new head. *)
Definition move_queue_push (m : Z) (mh : move_queue_head) : FW (Z * move_queue_head) :=
  node_upd m (fun n => n <| mn_next := None |>) ;;
  match mq_first mh with
  | Some _ =>
      l ← deref "mh->last" (mq_last mh);
      node_upd l (fun n => n <| mn_next := Some m |>) ;;
      mret (0, mh <| mq_last := Some m |>)
  | None => mret (1, mk_mq (Some m) (Some m))
  end.

Definition move_queue_pop (mh : move_queue_head) : FW (Z * move_queue_head) :=
  m ← deref "mh->first" (mq_first mh);
  n ← node_get m;
  mret (m, mh <| mq_first := mn_next n |>).

Definition move_queue_clear (mh : move_queue_head) : move_queue_head := mh <| mq_first := None |>.

Definition move_queue_setup (size : Z) : FW move_queue_head :=
  fz ← is_finalized;
  if (size >? 255) || fz then shutdown "Invalid move request size"
  else
    isz ← base move_item_size;
    when (size >? isz) (set_base (fun b => b <| move_item_size := u8 size |>)) ;;
    mret mq0.

(** The loop of [move_reset]: link node [i] to node [i+1]. *)
Fixpoint move_reset_loop (n : nat) (i : Z) : FW unit :=
  match n with
  | O => mret tt
  | S n => node_upd i (fun n => n <| mn_next := Some (i + 1) |>) ;; move_reset_loop n (i + 1)
  end.

Definition move_reset : FW unit :=
  cnt ← base move_count;
  if cnt =? 0 then mret tt
  else
    move_reset_loop (Z.to_nat (cnt - 1)) 0 ;;
    node_upd (cnt - 1) (fun n => n <| mn_next := None |>) ;;
    set_base (fun b => b <| move_free_list := Some 0 |>) ;;
    mx ← base allocMoveQueueCountMax;
    wl ← base usedMoveQueueWaterLine;
    output "allocMax=%u usedMax=%u" [VInt mx; VInt wl].

(** The zeroed pool [alloc_chunks] returns, as nodes. *)
Definition fresh_nodes (n : Z) : gmap Z move_node :=
  list_to_map ((fun i => (i, mk_move_node None MoveRaw)) <$> seqZ 0 n).

Definition move_finalize : FW unit :=
  fz ← is_finalized;
  if (fz : bool) then shutdown "Already finalized"
  else
    _ ← move_queue_setup sizeof_move_node;
    isz ← base move_item_size;
    '(data, avail) ← alloc_chunks isz 4096;
    set_base (fun b => b <| move_count := avail |> <| nodes := fresh_nodes avail |>
                         <| move_list := Some data |>) ;;
    move_reset.

(** ** Generic object ids *)

(** The timers embedded in an object of a type. *)
Definition otype_slots (t : otype) : list Z :=
  match t with T_trsync => [0; 1] | T_spi | T_spi_shutdown | T_i2c => [] | _ => [0] end.

(** [oids[oid]]; the table is NULL before [allocate_oids]. *)
Definition oid_entry (oid : Z) : FW oid_s :=
  os ← base oids;
  os ← deref "oids" os;
  deref "oids[]" (os !! Z.to_nat oid).

Definition oid_set (oid : Z) (f : oid_s -> oid_s) : FW unit :=
  set_base (fun b => b <| oids ::= fmap (alter f (Z.to_nat oid)) |>).

Definition oid_lookup (oid : Z) (type : otype) : FW Z :=
  let oid := u8 oid in
  cnt ← base oid_count;
  if oid >=? cnt then shutdown "Invalid oid type"
  else
    e ← oid_entry oid;
    if negb (bool_decide (o_type e = Some type)) then shutdown "Invalid oid type"
    else mret oid.

(** The zeroed chunk becomes the object, with zeroed timers. *)
Definition place_object (oid : Z) (type : otype) : FW unit :=
  oid_set oid (fun e => e <| o_data := Some (obj0 type) |>) ;;
  set_sched (fun S => S <| timers ::= fun T =>
    foldr (fun slot T => <[ObjTimer oid slot := timer0]> T) T (otype_slots type) |>).

Definition oid_alloc (oid : Z) (type : otype) (size : Z) : FW Z :=
  let oid := u8 oid in
  cnt ← base oid_count;
  if oid >=? cnt then shutdown "Can't assign oid"
  else
    e ← oid_entry oid;
    fz ← is_finalized;
    if bool_decide (o_type e <> None) || fz then shutdown "Can't assign oid"
    else
      oid_set oid (fun e => e <| o_type := Some type |>) ;;
      _ ← alloc_chunk (u16 size);
      place_object oid type ;;
      mret oid.

(** [oid_next] from the entry after [oid]; [fuel] bounds the entries left. *)
Fixpoint oid_next (fuel : nat) (oid : Z) (type : otype) : FW (option Z) :=
  match fuel with
  | O => lift_res OutOfFuel
  | S fuel =>
      let oid := u8 (oid + 1) in
      cnt ← base oid_count;
      if oid >=? cnt then mret None
      else
        e ← oid_entry oid;
        if bool_decide (o_type e = Some type)
        then mret (if bool_decide (o_data e = None) then None else Some oid)
        else oid_next fuel oid type
  end.

(** The macro [foreach_oid]. *)
Fixpoint foreach_oid_from (fuel : nat) (pos : Z) (type : otype) (body : Z -> FW unit) : FW unit :=
  match fuel with
  | O => lift_res OutOfFuel
  | S fuel =>
      r ← oid_next 256 pos type;
      match r with
      | None => mret tt
      | Some oid => body oid ;; foreach_oid_from fuel oid type body
      end
  end.
Definition foreach_oid (type : otype) (body : Z -> FW unit) : FW unit :=
  foreach_oid_from 256 (u8 (-1)) type body.

(** Objects: a read through a NULL pointer or at the wrong type is a fault. *)
Definition obj_get (oid : Z) : FW obj :=
  e ← oid_entry oid; deref "NULL object" (o_data e).

Definition obj_put (oid : Z) (o : obj) : FW unit :=
  oid_set oid (fun e => e <| o_data := Some o |>).

Definition arg (args : list Z) (i : nat) : FW Z := deref "args[]" (args !! i).

Definition command_allocate_oids (args : list Z) : FW unit :=
  os ← base oids;
  if bool_decide (os <> None) then shutdown "oids already allocated"
  else
    a0 ← arg args 0;
    let count := u8 a0 in
    _ ← alloc_chunk (sizeof_oid_s * count);
    set_base (fun b => b <| oids := Some (replicate (Z.to_nat count) (mk_oid None None)) |>
                         <| oid_count := count |>).

(** ** Config CRC *)

Definition command_get_config (args : list Z) : FW unit :=
  fz ← is_finalized;
  crc ← base config_crc;
  sd ← sched_is_shutdown;
  cnt ← base move_count;
  sendf "config is_config=%c crc=%u is_shutdown=%c move_count=%hu"
    [VInt (b2z fz); VInt crc; VInt (b2z sd); VInt (cnt - 10)].

Definition command_finalize_config (args : list Z) : FW unit :=
  move_finalize ;;
  a0 ← arg args 0;
  set_base (fun b => b <| config_crc := a0 |>).

Definition config_reset (args : list Z) : FW unit :=
  sd ← sched_is_shutdown;
  if negb sd then shutdown "config_reset only available when shutdown"
  else
    set_base (fun b => b <| config_crc := 0 |> <| oid_count := 0 |> <| oids := None |>
      <| move_free_list := None |> <| move_list := None |> <| move_count := 0 |> <| move_item_size := 0 |>) ;;
    alloc_init ;;
    sched_timer_reset ;;
    sched_clear_shutdown.

(** ** Timing and load stats *)

Definition command_get_clock (args : list Z) : FW unit :=
  t ← timer_read_time; sendf "clock clock=%u" [VInt t].

Definition command_get_uptime (args : list Z) : FW unit :=
  cur ← timer_read_time;
  st ← base stats_send_time;
  sh ← base stats_send_time_high;
  let high := u32 (sh + b2z (cur <? st)) in
  sendf "uptime high=%u clock=%u" [VInt high; VInt cur].

Definition SUMSQ_BASE : Z := 256.
Definition DIV_ROUND_UP (n d : Z) : Z := (n + d - 1) / d.

(** The new [sumsq], in 32-bit arithmetic with saturation. *)
Definition next_sumsq (sumsq diff : Z) : Z :=
  let nextsumsq :=
    if diff <=? 0xffff then u32 (sumsq + DIV_ROUND_UP (u32 (diff * diff)) SUMSQ_BASE)
    else if diff <=? 0xfffff then u32 (sumsq + u32 (DIV_ROUND_UP diff SUMSQ_BASE * diff))
    else 0xffffffff in
  if nextsumsq <? sumsq then 0xffffffff else nextsumsq.

Definition stats_update (start cur : Z) : FW unit :=
  let diff := u32 (cur - start) in
  set_base (fun b => b <| stats_count ::= fun c => u32 (c + 1) |> <| stats_sum ::= fun c => u32 (c + diff) |>
                       <| stats_sumsq ::= fun q => next_sumsq q diff |>) ;;
  st ← base stats_send_time;
  if timer_is_before cur (u32 (st + timer_from_us 5000000)) then mret tt
  else
    c ← base stats_count;
    sm ← base stats_sum;
    sq ← base stats_sumsq;
    sendf "stats count=%u sum=%u sumsq=%u" [VInt c; VInt sm; VInt sq] ;;
    when (cur <? st) (set_base (fun b => b <| stats_send_time_high ::= fun h => u32 (h + 1) |>)) ;;
    set_base (fun b => b <| stats_send_time := cur |> <| stats_count := 0 |> <| stats_sum := 0 |>
                         <| stats_sumsq := 0 |>).

(** ** Misc commands *)

Definition command_emergency_stop (args : list Z) : FW unit := shutdown "Command request".

Definition command_clear_shutdown (args : list Z) : FW unit := sched_clear_shutdown.

(** The part of the identify data a request is answered with. *)
Definition identify_count (offset count isize : Z) : Z :=
  if offset >=? isize then 0
  else if u32 (offset + count) >? isize then u8 (isize - offset)
  else count.

(** The arguments of the response. *)
Definition identify_args (offset count : Z) : list varg :=
  let isize := Z.of_nat (length command_identify_data) in
  [VInt offset; VBuf (identify_count offset count isize) (drop (Z.to_nat offset) command_identify_data)].

Definition command_identify (args : list Z) : FW unit :=
  offset ← arg args 0;
  count ← arg args 1;
  sendf "identify_response offset=%u data=%.*s" (identify_args offset (u8 count)).

End WithBoard.

(** ** Allocation *)

Section Alloc.
Context `{B : Board}.

Lemma ALIGN_spec v k : 0 <= k -> v <= ALIGN v (2 ^ k) < v + 2 ^ k /\ (2 ^ k | ALIGN v (2 ^ k)).
Proof.
  intros Hk. unfold ALIGN, clr. replace (2 ^ k - 1) with (Z.ones k) by (rewrite Z.ones_equiv; lia).
  rewrite Z.ldiff_ones_r by done. rewrite Z.shiftl_mul_pow2, Z.shiftr_div_pow2 by done.
  rewrite Z.ones_equiv. assert (0 < 2 ^ k) by (apply Z.pow_pos_nonneg; lia).
  split; [| by apply Z.divide_factor_r].
  pose proof (Z.div_mod (v + Z.pred (2 ^ k)) (2 ^ k)). pose proof (Z.mod_pos_bound (v + Z.pred (2 ^ k)) (2 ^ k)). lia.
Qed.

(** A sequence of allocations. *)
Fixpoint alloc_all (sizes : list Z) : FW (list Z) :=
  match sizes with
  | [] => mret []
  | size :: sizes => a ← alloc_chunk size; l ← alloc_all sizes; mret (a :: l)
  end.

Lemma alloc_chunk_ok size s a s' :
  alloc_chunk size s = (Ok a, s') ->
  a = alloc_end (m_base s) /\ a + size <= dynmem_end /\ alloc_end (m_base s') = a + ALIGN size alignof_ptr.
Proof.
  unfold alloc_chunk, base, set_base. msimpl.
  destruct (Z.gtb_spec (alloc_end (m_base s) + size) dynmem_end); [done |]. msimpl. intros [= <- <-]. done.
Qed.

Lemma alloc_all_bounds k sizes s addrs s' :
  0 <= k -> alignof_ptr = 2 ^ k -> (2 ^ k | alloc_end (m_base s)) -> Forall (fun z => 0 <= z) sizes ->
  alloc_all sizes s = (Ok addrs, s') ->
  length addrs = length sizes /\
  forall i a z, addrs !! i = Some a -> sizes !! i = Some z ->
    alloc_end (m_base s) <= a /\ a + z <= dynmem_end /\ (2 ^ k | a) /\
    forall j b, (i < j)%nat -> addrs !! j = Some b -> a + z <= b.
Proof.
  intros Hk Ha. revert s addrs. induction sizes as [| size sizes IH]; intros s addrs Hal Hnn; cbn [alloc_all].
  { intros [= <- <-]. done. }
  intros (a & s1 & E1 & (l & s2 & E2 & [= <- <-])%bind_inv)%bind_inv.
  apply alloc_chunk_ok in E1 as (-> & Hend & Hnext). inversion Hnn as [| ? ? Hz Hnn']; subst.
  destruct (ALIGN_spec size k Hk) as [Hsz Hdiv]. rewrite Ha in Hnext.
  apply IH in E2 as [Hlen IH2]; [| rewrite Hnext; by apply Z.divide_add_r | done].
  split; [simpl; lia |]. intros [| i] a z Hai Hzi; simpl in Hai, Hzi; simplify_eq.
  - split; [lia |]. split; [lia |]. split; [done |]. intros [| j] b Hj Hb; [lia |]. simpl in Hb.
    assert (exists z', sizes !! j = Some z') as [z' Hz'].
    { apply lookup_lt_is_Some. apply lookup_lt_Some in Hb. lia. }
    destruct (IH2 j b z' Hb Hz') as [Hb' _]. lia.
  - destruct (IH2 i a z Hai Hzi) as (H1 & H2 & H3 & H4). split; [lia |]. split; [done |]. split; [done |].
    intros [| j] b Hj Hb; [lia |]. apply (H4 j b); [lia | done].
Qed.


End Alloc.


(** ** The pool of move nodes and its queues *)

Definition nn (N : gmap Z move_node) (m : Z) : option (option Z) := mn_next <$> N !! m.

(** [mh] is the queue of the nodes [l]. *)
Definition mq_rep (N : gmap Z move_node) (mh : move_queue_head) (l : list Z) : Prop :=
  seg (nn N) l None /\ mq_first mh = hd_or l None /\ (l <> [] -> mq_last mh = last l).

(** The free list and the queues share out the nodes of the pool. *)
Record pool_rep (b : basecmd_st) (heads : list move_queue_head) (free : list Z) (qs : list (list Z)) : Prop := {
  pr_free : seg (nn (nodes b)) free None;
  pr_free_head : move_free_list b = hd_or free None;
  pr_queues : Forall2 (mq_rep (nodes b)) heads qs;
  pr_nodup : NoDup (free ++ concat qs);
  pr_used : usedMoveQueueNumber b = u32 (Z.of_nat (length (concat qs)));
}.

Section Pool.
Context `{B : Board}.
Implicit Types (N : gmap Z move_node) (s : mcu).

Lemma node_get_run m n s : nodes (m_base s) !! m = Some n -> node_get m s = (Ok n, s).
Proof. intros H. unfold node_get, base. msimpl. by rewrite H. Qed.

Lemma node_upd_run m f s :
  is_Some (nodes (m_base s) !! m) ->
  node_upd m f s = (Ok tt, s <| m_base ::= upd nodes (alter f m) |>).
Proof. intros [n H]. unfold node_upd. by rewrite (bind_ok _ _ _ _ _ (node_get_run _ _ _ H)). Qed.

Lemma nn_alter_ne N f m q : q <> m -> nn (alter f m N) q = nn N q.
Proof. intros H. unfold nn. by rewrite lookup_alter_ne. Qed.

Lemma nn_set_next N m v : is_Some (N !! m) -> nn (alter (fun n => n <| mn_next := v |>) m N) m = Some v.
Proof. intros [n H]. unfold nn. by rewrite lookup_alter_eq, H. Qed.

Lemma nn_is_Some N m v : nn N m = Some v -> is_Some (N !! m).
Proof. unfold nn. intros H. by destruct (N !! m). Qed.

Lemma seg_nn_is_Some N l e m : seg (nn N) l e -> m ∈ l -> is_Some (N !! m).
Proof.
  induction l as [| q l IH]; [by intros _ ?%elem_of_nil |]. intros [Hn Hs] [-> | Hp]%elem_of_cons.
  - by eapply nn_is_Some.
  - by apply IH.
Qed.

Lemma mq_rep_frame N N' mh l : (forall m, m ∈ l -> nn N' m = nn N m) -> mq_rep N mh l -> mq_rep N' mh l.
Proof. intros H (Hs & Hf & Hl). split; [by eapply seg_frame | done]. Qed.

(** Replacing one queue of many. *)
Lemma concat_insert (qs : list (list Z)) i l l' :
  qs !! i = Some l ->
  exists rest, concat qs ≡ₚ l ++ rest /\ concat (<[i := l']> qs) ≡ₚ l' ++ rest
    /\ forall j lj m, j <> i -> qs !! j = Some lj -> m ∈ lj -> m ∈ rest.
Proof.
  revert i. induction qs as [| q qs IH]; intros [| i] Hi; simpl in Hi; try done; simplify_eq.
  - exists (concat qs). split; [done |]. split; [done |]. intros [| j] lj m Hj Hl Hm; [done |].
    apply list_elem_of_In, in_concat. exists lj. rewrite <- !list_elem_of_In.
    split; [by eapply list_elem_of_lookup_2 | done].
  - destruct (IH i Hi) as (rest & E1 & E2 & Hr). exists (q ++ rest). cbn [concat].
    change (<[S i := l']> (q :: qs)) with (q :: <[i := l']> qs). cbn [concat]. rewrite E1, E2.
    split; [by rewrite !(assoc_L (++)), (comm (++) q) |]. split; [by rewrite !(assoc_L (++)), (comm (++) q) |].
    intros [| j] lj m Hj Hl Hm; simpl in Hl; simplify_eq; rewrite elem_of_app; [by left |].
    right. apply (Hr j lj m); [lia | done | done].
Qed.

(** Changing nodes that no other queue holds. *)
Lemma queues_update N N' heads qs i mh l mh' l' :
  Forall2 (mq_rep N) heads qs -> heads !! i = Some mh -> qs !! i = Some l ->
  (forall j lj m, j <> i -> qs !! j = Some lj -> m ∈ lj -> nn N' m = nn N m) ->
  mq_rep N' mh' l' -> Forall2 (mq_rep N') (<[i := mh']> heads) (<[i := l']> qs).
Proof.
  intros HF Hh Hq Hfr Hnew. apply Forall2_same_length_lookup. split.
  { rewrite !length_insert. by eapply Forall2_length. }
  intros j h lj Hj Hlj. destruct (decide (j = i)) as [-> | Hne].
  - rewrite list_lookup_insert_eq in Hj by (by eapply lookup_lt_Some).
    rewrite list_lookup_insert_eq in Hlj by (by eapply lookup_lt_Some). by simplify_eq.
  - rewrite list_lookup_insert_ne in Hj by done. rewrite list_lookup_insert_ne in Hlj by done. eapply mq_rep_frame; [intros m Hm; by eapply Hfr |].
    by eapply Forall2_lookup_lr.
Qed.

(** Taking a node from the free list. *)
Lemma move_alloc_ok s m n :
  move_free_list (m_base s) = Some m -> nodes (m_base s) !! m = Some n ->
  exists s', move_alloc s = (Ok m, s') /\ nodes (m_base s') = nodes (m_base s)
    /\ move_free_list (m_base s') = mn_next n
    /\ usedMoveQueueNumber (m_base s') = u32 (usedMoveQueueNumber (m_base s) + 1).
Proof.
  intros Hf Hn. unfold move_alloc, base. msimpl. rewrite Hf.
  rewrite (bind_ok _ _ _ _ _ (node_get_run _ _ _ Hn)). unfold set_base. msimpl.
  eexists. split; [reflexivity |]. done.
Qed.

(** Appending [m] behind the last node [a]. *)
Lemma mq_rep_snoc N mh l a m :
  mq_rep N mh (l ++ [a]) -> NoDup (l ++ [a]) -> m ∉ l ++ [a] -> is_Some (N !! m) ->
  mq_rep (alter (fun n => n <| mn_next := Some m |>) a (alter (fun n => n <| mn_next := None |>) m N))
    (mh <| mq_last := Some m |>) ((l ++ [a]) ++ [m]).
Proof.
  intros (Hs & Hf & _) Hnd Hm HN. rewrite elem_of_app, list_elem_of_singleton in Hm.
  assert (Hma : m <> a) by (intros ->; tauto).
  apply NoDup_app in Hnd as (_ & Hnd & _). apply seg_app in Hs as [Hs [Ha _]]. simpl in Hs.
  split; [| split; [| by rewrite last_snoc]].
  - rewrite !seg_app. simpl. split; [split |].
    + eapply seg_frame; [| exact Hs]. intros p Hp. rewrite !nn_alter_ne; [done | by intros ->; tauto |].
      intros ->. apply (Hnd a Hp). apply list_elem_of_here.
    + split; [| done]. apply nn_set_next. rewrite lookup_alter_ne by done. by eapply nn_is_Some.
    + split; [| done]. rewrite nn_alter_ne by done. by apply nn_set_next.
  - simpl. rewrite Hf. by destruct l.
Qed.

Lemma move_queue_push_ok s mh l m :
  mq_rep (nodes (m_base s)) mh l -> NoDup l -> m ∉ l -> is_Some (nodes (m_base s) !! m) ->
  exists s' mh', move_queue_push m mh s = (Ok (b2z (bool_decide (l = [])), mh'), s')
    /\ mq_rep (nodes (m_base s')) mh' (l ++ [m])
    /\ (forall q, q <> m -> q ∉ l -> nn (nodes (m_base s')) q = nn (nodes (m_base s)) q)
    /\ move_free_list (m_base s') = move_free_list (m_base s)
    /\ usedMoveQueueNumber (m_base s') = usedMoveQueueNumber (m_base s).
Proof.
  intros Hr Hnd Hm HN. pose proof Hr as (Hs & Hf & Hl). unfold move_queue_push.
  rewrite (bind_ok _ _ _ _ _ (node_upd_run _ _ _ HN)), Hf.
  destruct l as [| a l _] using rev_ind; simpl hd_or; msimpl.
  - eexists _, _. split; [reflexivity |]. split; [| split; [| done]].
    + split; [| done]. split; [| done]. by apply nn_set_next.
    + intros q Hq _. by apply nn_alter_ne.
  - assert (E : hd_or (l ++ [a]) None = Some (hd a l)) by (by destruct l). rewrite E.
    rewrite Hl, last_snoc by (by destruct l). msimpl.
    rewrite elem_of_app, list_elem_of_singleton in Hm. assert (Hma : a <> m) by (intros ->; tauto).
    erewrite bind_ok.
    2: { apply node_upd_run. simpl. rewrite lookup_alter_ne by done.
         eapply seg_nn_is_Some; [exact Hs |]. rewrite elem_of_app. right. apply list_elem_of_here. }
    msimpl. eexists _, _. rewrite bool_decide_eq_false_2 by (by destruct l). split; [reflexivity |].
    split; [| split; [| done]].
    + apply mq_rep_snoc; [done | done | | done]. by rewrite elem_of_app, list_elem_of_singleton.
    + intros q Hq Hql. rewrite elem_of_app, list_elem_of_singleton in Hql. simpl.
      rewrite !nn_alter_ne; [done | done |]. intros ->. tauto.
Qed.

Lemma move_queue_pop_ok s mh m l :
  mq_rep (nodes (m_base s)) mh (m :: l) ->
  exists mh', move_queue_pop mh s = (Ok (m, mh'), s) /\ mq_rep (nodes (m_base s)) mh' l.
Proof.
  intros ([Hn Hs] & Hf & Hl). unfold move_queue_pop. rewrite Hf. simpl hd_or. msimpl.
  unfold nn in Hn. destruct (nodes (m_base s) !! m) as [n |] eqn:E; [| done]. injection Hn as Hn.
  rewrite (bind_ok _ _ _ _ _ (node_get_run _ _ _ E)). eexists. split; [reflexivity |].
  split; [done |]. split; [done |]. intros Hne. simpl. rewrite Hl by done. by destruct l.
Qed.

Lemma move_free_ok s m :
  is_Some (nodes (m_base s) !! m) ->
  exists s', move_free m s = (Ok tt, s') /\ move_free_list (m_base s') = Some m
    /\ nn (nodes (m_base s')) m = Some (move_free_list (m_base s))
    /\ (forall q, q <> m -> nn (nodes (m_base s')) q = nn (nodes (m_base s)) q)
    /\ usedMoveQueueNumber (m_base s') = u32 (usedMoveQueueNumber (m_base s) - 1)
    /\ (forall q, q <> m -> nodes (m_base s') !! q = nodes (m_base s) !! q)
    /\ oids (m_base s') = oids (m_base s) /\ m_sched s' = m_sched s /\ m_hw s' = m_hw s.
Proof.
  intros HN. unfold move_free, base. msimpl. rewrite (bind_ok _ _ _ _ _ (node_upd_run _ _ _ HN)).
  unfold set_base. msimpl. eexists. split; [reflexivity |]. split; [done |].
  split; [by apply nn_set_next |]. split; [intros q Hq; by apply nn_alter_ne |].
  split; [done |]. split; [| done]. intros q Hq. simpl. by apply lookup_alter_ne.
Qed.

(** *** Sequences of operations on several queues *)

Inductive qop := Enq (i : nat) | Deq (i : nat).

(** What the owner of queue [i] does: [move_alloc] then [move_queue_push], or
    [move_queue_pop] then [move_free]. *)
Definition pool_op (op : qop) (heads : list move_queue_head) : FW (list move_queue_head) :=
  match op with
  | Enq i =>
      mh ← deref "queue" (heads !! i);
      m ← move_alloc;
      '(_, mh) ← move_queue_push m mh;
      mret (<[i := mh]> heads)
  | Deq i =>
      mh ← deref "queue" (heads !! i);
      '(m, mh) ← move_queue_pop mh;
      move_free m ;;
      mret (<[i := mh]> heads)
  end.

Fixpoint pool_ops (ops : list qop) (heads : list move_queue_head) : FW (list move_queue_head) :=
  match ops with
  | [] => mret heads
  | op :: ops => heads ← pool_op op heads; pool_ops ops heads
  end.

(** The contract: first-in first-out queues over a stack of free nodes. *)
Definition pool_spec (op : qop) (st : list Z * list (list Z)) : option (list Z * list (list Z)) :=
  let '(free, qs) := st in
  match op with
  | Enq i =>
      match free, qs !! i with
      | m :: free, Some l => Some (free, <[i := l ++ [m]]> qs)
      | _, _ => None
      end
  | Deq i =>
      match qs !! i with
      | Some (m :: l) => Some (m :: free, <[i := l]> qs)
      | _ => None
      end
  end.

Fixpoint pool_specs (ops : list qop) (st : list Z * list (list Z)) : option (list Z * list (list Z)) :=
  match ops with
  | [] => Some st
  | op :: ops => st ← pool_spec op st; pool_specs ops st
  end.

Lemma pool_enq heads m free qs i l s :
  pool_rep (m_base s) heads (m :: free) qs -> qs !! i = Some l ->
  exists heads' s', pool_op (Enq i) heads s = (Ok heads', s')
    /\ pool_rep (m_base s') heads' free (<[i := l ++ [m]]> qs).
Proof.
  intros [Hfr Hfh Hq Hnd Hu] Hi. destruct (Forall2_lookup_r _ _ _ _ _ Hq Hi) as (mh & Hmh & Hrep).
  destruct (concat_insert qs i l (l ++ [m]) Hi) as (rest & E1 & E2 & Hr).
  rewrite E1 in Hnd. simpl in Hnd. apply NoDup_cons in Hnd as [Hm Hnd]. rewrite !elem_of_app in Hm.
  destruct Hfr as [Hn Hfr]. unfold nn in Hn. destruct (nodes (m_base s) !! m) as [n |] eqn:En; [| done].
  injection Hn as Hn. simpl in Hfh.
  destruct (move_alloc_ok s m n Hfh En) as (s1 & Ea & N1 & F1 & U1).
  apply NoDup_app in Hnd as (Hnf & Hd1 & Hnd). apply NoDup_app in Hnd as (Hnl & Hd2 & Hnr).
  edestruct (move_queue_push_ok s1 mh l m) as (s2 & mh' & Ep & Hrep' & Hframe & F2 & U2);
    [by rewrite N1 | done | tauto | rewrite N1; by eexists |].
  unfold pool_op. rewrite Hmh. msimpl. rewrite (bind_ok _ _ _ _ _ Ea), (bind_ok _ _ _ _ _ Ep). msimpl.
  eexists _, s2. split; [reflexivity |]. rewrite N1 in Hframe. split.
  - eapply seg_frame; [| exact Hfr]. intros q Hq'. apply Hframe; [intros ->; tauto |].
    intros Hql. apply (Hd1 q Hq'). rewrite elem_of_app. by left.
  - by rewrite F2, F1.
  - eapply queues_update; [exact Hq | exact Hmh | exact Hi | | done].
    intros j lj q Hj Hlj Hql. pose proof (Hr j lj q Hj Hlj Hql). apply Hframe; [intros ->; tauto |].
    intros Hx. by apply (Hd2 q Hx).
  - rewrite E2, <- app_assoc. apply NoDup_app. split; [done |]. split.
    + intros q Hqf. specialize (Hd1 q Hqf). rewrite elem_of_app in Hd1.
      rewrite !elem_of_app, list_elem_of_singleton. intros [? | [-> | ?]]; tauto.
    + apply NoDup_app. split; [done |]. split; [| simpl; apply NoDup_cons; tauto].
      intros q Hql [-> | Hx]%elem_of_cons; [tauto | by apply (Hd2 q Hql)].
  - rewrite U2, U1, Hu, E1, E2, !length_app. simpl. cint_lia.
Qed.

Lemma pool_deq heads m free qs i l s :
  pool_rep (m_base s) heads free qs -> qs !! i = Some (m :: l) ->
  exists heads' s', pool_op (Deq i) heads s = (Ok heads', s')
    /\ pool_rep (m_base s') heads' (m :: free) (<[i := l]> qs).
Proof.
  intros [Hfr Hfh Hq Hnd Hu] Hi. destruct (Forall2_lookup_r _ _ _ _ _ Hq Hi) as (mh & Hmh & Hrep).
  destruct (concat_insert qs i (m :: l) l Hi) as (rest & E1 & E2 & Hr).
  rewrite E1 in Hnd. apply NoDup_app in Hnd as (Hnf & Hd1 & Hnd). simpl in Hnd, Hd1.
  apply NoDup_cons in Hnd as [Hm Hnd]. rewrite elem_of_app in Hm.
  destruct (move_queue_pop_ok s mh m l Hrep) as (mh' & Ep & Hrep').
  destruct (move_free_ok s m) as (s' & Ef & F1 & Nm & Hframe & U1 & _).
  { destruct Hrep as [[Hn _] _]. by eapply nn_is_Some. }
  unfold pool_op. rewrite Hmh. msimpl. rewrite (bind_ok _ _ _ _ _ Ep), (bind_ok _ _ _ _ _ Ef). msimpl.
  assert (Hmf : m ∉ free) by (intros Hx; apply (Hd1 m Hx), list_elem_of_here).
  eexists _, s'. split; [reflexivity |]. split.
  - split; [by rewrite Nm, Hfh |]. eapply seg_frame; [| exact Hfr]. intros q Hq'. apply Hframe. by intros ->.
  - done.
  - eapply queues_update; [exact Hq | exact Hmh | exact Hi | |].
    + intros j lj q Hj Hlj Hql. pose proof (Hr j lj q Hj Hlj Hql). apply Hframe. intros ->. tauto.
    + eapply mq_rep_frame; [| exact Hrep']. intros q Hql. apply Hframe. intros ->. tauto.
  - rewrite E2. simpl. apply NoDup_cons. rewrite elem_of_app, elem_of_app. split; [tauto |].
    apply NoDup_app. split; [done |]. split; [| done]. intros q Hqf Hx. apply (Hd1 q Hqf). by apply list_elem_of_further.
  - rewrite U1, Hu, E1, E2, !length_app. simpl. cint_lia.
Qed.

(** C27: the move queues are first-in first-out queues over one shared pool:
    every sequence of "allocate and append" and "pop and free" operations on
    any number of queues that the pool can serve returns, gives each queue
    exactly the contents of its functional specification, leaves the other
    queues alone, and never hands out a node twice or loses one; the usage
    counter is the number of queued nodes. *)
Theorem pool_ops_fifo ops heads free qs s free' qs' :
  pool_rep (m_base s) heads free qs -> pool_specs ops (free, qs) = Some (free', qs') ->
  exists heads' s', pool_ops ops heads s = (Ok heads', s') /\ pool_rep (m_base s') heads' free' qs'.
Proof.
  revert heads free qs s. induction ops as [| op ops IH]; intros heads free qs s Hrep Hspec; cbn [pool_specs pool_ops] in *.
  { simplify_eq. eauto. }
  destruct (pool_spec op (free, qs)) as [[free1 qs1] |] eqn:E1; [| done].
  assert (H : exists heads1 s1, pool_op op heads s = (Ok heads1, s1) /\ pool_rep (m_base s1) heads1 free1 qs1).
  { destruct op as [i | i]; cbn [pool_spec] in E1.
    - destruct free as [| m free]; [done |]. destruct (qs !! i) as [l |] eqn:Ei; [| done].
      simplify_eq. by apply pool_enq.
    - destruct (qs !! i) as [[| m l] |] eqn:Ei; [done | | done]. simplify_eq. by apply pool_deq. }
  destruct H as (heads1 & s1 & Er & Hrep1). rewrite (bind_ok _ _ _ _ _ Er). by eapply IH.
Qed.

(** *** Building the pool *)

Lemma fresh_nodes_lookup n m : 0 <= m < n -> fresh_nodes n !! m = Some (mk_move_node None MoveRaw).
Proof.
  intros Hm. unfold fresh_nodes. apply elem_of_list_to_map_1.
  - rewrite <- list_fmap_compose. simpl. rewrite list_fmap_id. apply NoDup_seqZ.
  - apply list_elem_of_fmap. exists m. split; [done |]. apply elem_of_seqZ. lia.
Qed.

Lemma move_reset_loop_run n i s :
  (forall m, i <= m < i + Z.of_nat n -> is_Some (nodes (m_base s) !! m)) ->
  exists N', move_reset_loop n i s = (Ok tt, s <| m_base ::= upd nodes (fun _ => N') |>)
    /\ (forall m, is_Some (N' !! m) <-> is_Some (nodes (m_base s) !! m))
    /\ (forall m, i <= m < i + Z.of_nat n -> nn N' m = Some (Some (m + 1)))
    /\ (forall m, ~ i <= m < i + Z.of_nat n -> nn N' m = nn (nodes (m_base s)) m).
Proof.
  induction n as [| n IH] in i, s |- *; intros Hin; cbn [move_reset_loop].
  { exists (nodes (m_base s)). split; [by destruct s as [? ? [] ? ? ? ? ?] |]. split_and!; [done | lia | done]. }
  assert (Hi : is_Some (nodes (m_base s) !! i)) by (apply Hin; lia).
  rewrite (bind_ok _ _ _ _ _ (node_upd_run _ _ _ Hi)).
  set (s1 := upd m_base _ s).
  assert (Hdom : forall m, is_Some (nodes (m_base s1) !! m) <-> is_Some (nodes (m_base s) !! m)).
  { intros m. simpl. destruct (decide (m = i)) as [-> |]; [| by rewrite lookup_alter_ne].
    rewrite lookup_alter_eq, fmap_is_Some. done. }
  destruct (IH (i + 1) s1) as (N' & E & Hd & Hlink & Hout).
  { intros m Hm. apply Hdom, Hin. lia. }
  exists N'. split; [done |]. split; [intros m; by rewrite Hd, Hdom |]. split.
  - intros m Hm. destruct (decide (m = i)) as [-> |]; [| apply Hlink; lia].
    rewrite Hout by lia. by apply nn_set_next.
  - intros m Hm. rewrite Hout by lia. simpl. apply nn_alter_ne. lia.
Qed.

Lemma alloc_chunks_loop_spec n size p can :
  let '(c, q) := alloc_chunks_loop n size p can in
  can <= c <= can + Z.of_nat n /\ q = p + (c - can) * size /\ (can < c -> q <= dynmem_end).
Proof.
  induction n as [| n IH] in p, can |- *; cbn [alloc_chunks_loop]; [lia |].
  destruct (Z.leb_spec (p + size) dynmem_end) as [Hle | Hgt]; [| lia].
  specialize (IH (p + size) (can + 1)). destruct (alloc_chunks_loop n size (p + size) (can + 1)) as [c q].
  destruct IH as (Hc & -> & Hq). split; [lia |]. split; [lia |]. intros _.
  destruct (decide (can + 1 < c)); [by apply Hq |]. replace c with (can + 1) by lia. lia.
Qed.

Lemma alloc_chunks_ok size count s data avail s' :
  0 <= count < 2 ^ 16 -> alloc_chunks size count s = (Ok (data, avail), s') ->
  1 <= avail <= count /\ data + avail * size <= dynmem_end
  /\ usedMoveQueueNumber (m_base s') = usedMoveQueueNumber (m_base s)
  /\ move_item_size (m_base s') = move_item_size (m_base s).
Proof.
  intros Hc. unfold alloc_chunks, base. msimpl.
  pose proof (alloc_chunks_loop_spec (Z.to_nat count) size (alloc_end (m_base s)) 0) as H.
  destruct (alloc_chunks_loop _ _ _ _) as [c q]. destruct H as (H1 & -> & H2).
  destruct (Z.eqb_spec c 0); [done |]. intros (a & s1 & Ea & H)%bind_inv.
  pose proof (alloc_chunk_ok _ _ _ _ Ea) as (-> & Hend & _).
  assert (Hk : usedMoveQueueNumber (m_base s1) = usedMoveQueueNumber (m_base s)
               /\ move_item_size (m_base s1) = move_item_size (m_base s)).
  { revert Ea. unfold alloc_chunk, base, set_base. msimpl. destruct (_ >? _); [done |]. msimpl. by intros [= <-]. }
  revert H. unfold set_base. msimpl. intros [= <- <- <-]. simpl. destruct Hk as [-> ->].
  rewrite u16_small by cint_lia. split; [lia |]. split; [lia | done].
Qed.

Lemma seqZ_seg N a n :
  0 <= n -> (forall m, a <= m < a + n -> nn N m = Some (if m =? a + n - 1 then None else Some (m + 1))) ->
  seg (nn N) (seqZ a n) None.
Proof.
  intros Hn. revert a. pattern n. apply natlike_ind; [| | done]; clear n Hn.
  - intros a _. done.
  - intros n Hn IH a H. rewrite seqZ_cons by lia. replace (Z.pred (Z.succ n)) with n by lia.
    split.
    + rewrite H by lia. destruct (Z.eqb_spec a (a + Z.succ n - 1)).
      * by replace n with 0 by lia.
      * rewrite seqZ_cons by lia. done.
    + apply IH. intros m Hm. rewrite H by lia. by replace (a + Z.succ n - 1) with (Z.succ a + n - 1) by lia.
Qed.

(** [move_reset] makes one free list of all nodes. *)
Lemma move_reset_run s :
  let cnt := move_count (m_base s) in
  0 < cnt -> (forall m, 0 <= m < cnt -> is_Some (nodes (m_base s) !! m)) ->
  exists N', let s1 := s <| m_base := (m_base s) <| nodes := N' |> <| move_free_list := Some 0 |> |> in
    move_reset s = output "allocMax=%u usedMax=%u" [VInt (allocMoveQueueCountMax (m_base s)); VInt (usedMoveQueueWaterLine (m_base s))] s1
    /\ seg (nn N') (seqZ 0 cnt) None /\ (forall m, is_Some (N' !! m) <-> is_Some (nodes (m_base s) !! m)).
Proof.
  intros cnt Hc Hn. unfold move_reset, base. msimpl. fold cnt. destruct (Z.eqb_spec cnt 0); [lia |].
  destruct (move_reset_loop_run (Z.to_nat (cnt - 1)) 0 s) as (N' & E & Hd & Hl & Ho).
  { intros m Hm. apply Hn. lia. }
  rewrite (bind_ok _ _ _ _ _ E). erewrite bind_ok.
  2: { apply node_upd_run. simpl. apply Hd, Hn. lia. }
  unfold set_base. msimpl. eexists. cbv zeta. split; [reflexivity |]. split.
  - apply seqZ_seg; [lia |]. intros m Hm. destruct (Z.eqb_spec m (0 + cnt - 1)) as [-> |].
    + apply nn_set_next. apply Hd, Hn. lia.
    + rewrite nn_alter_ne by lia. apply Hl. lia.
  - intros m. simpl. rewrite <- Hd. destruct (decide (m = cnt - 1)) as [-> |]; [| by rewrite lookup_alter_ne].
    rewrite lookup_alter_eq. by rewrite fmap_is_Some.
Qed.

Lemma move_reset_ok s s' :
  let cnt := move_count (m_base s) in
  0 < cnt -> (forall m, 0 <= m < cnt -> is_Some (nodes (m_base s) !! m)) ->
  move_reset s = (Ok tt, s') ->
  seg (nn (nodes (m_base s'))) (seqZ 0 cnt) None /\ move_free_list (m_base s') = Some 0
  /\ (m_base s') <| nodes := ∅ |> <| move_free_list := None |> = (m_base s) <| nodes := ∅ |> <| move_free_list := None |>.
Proof.
  intros cnt Hc Hn. destruct (move_reset_run s Hc Hn) as (N' & -> & Hs & _). intros H.
  kept m_base H Ek. rewrite Ek. done.
Qed.

(** [finalize_config] builds the pool inside the dynamic memory: when it
    succeeds there are between 1 and 4096 nodes, they all fit below the end of
    memory, and the pool invariant holds with every node on the free list and
    every queue empty. *)
Theorem move_finalize_pool nq s s' :
  move_finalize s = (Ok tt, s') -> usedMoveQueueNumber (m_base s) = 0 ->
  let cnt := move_count (m_base s') in
  1 <= cnt <= 4096 /\
  (exists data, move_list (m_base s') = Some data
     /\ data + cnt * move_item_size (m_base s') <= dynmem_end) /\
  pool_rep (m_base s') (replicate nq mq0) (seqZ 0 cnt) (replicate nq []).
Proof.
  unfold move_finalize, is_finalized, base. msimpl. destruct (truth _) eqn:Ef; [done |]. intros H Hu.
  apply bind_inv in H as (h & s1 & E1 & H).
  assert (Hu1 : usedMoveQueueNumber (m_base s1) = 0).
  { revert E1. unfold move_queue_setup, is_finalized, base, set_base. msimpl. destruct (_ || _); [done |]. msimpl.
    destruct (_ >? _); msimpl; by intros [= _ <-]. }
  revert H. msimpl. intros ([data avail] & s2 & E2 & H)%bind_inv. cbv beta iota in H.
  apply alloc_chunks_ok in E2 as (Ha & Hb & Hu2 & Hi2); [| lia]. revert H. unfold set_base. msimpl. intros H.
  set (s3 := upd m_base _ s2) in H.
  destruct (move_reset_ok s3 s') as (Hseg & Hfl & Hrest); [simpl; lia | | done |].
  { intros m Hm. simpl. rewrite fresh_nodes_lookup by done. by eexists. }
  assert (Hc : move_count (m_base s') = avail) by (by apply (f_equal move_count) in Hrest).
  assert (Hl : move_list (m_base s') = Some data) by (by apply (f_equal move_list) in Hrest).
  assert (Hi : move_item_size (m_base s') = move_item_size (m_base s1))
    by (apply (f_equal move_item_size) in Hrest; simpl in Hrest; congruence).
  assert (Hused : usedMoveQueueNumber (m_base s') = 0)
    by (apply (f_equal usedMoveQueueNumber) in Hrest; simpl in Hrest; congruence).
  cbv zeta. rewrite Hc, Hi. split; [done |]. split; [eauto |].
  assert (Econ : concat (replicate nq ([] : list Z)) = []) by (by induction nq).
  split; rewrite ?Econ, ?app_nil_r, ?Hused; try done; [| | apply NoDup_seqZ].
  - rewrite Hfl. by rewrite seqZ_cons by lia.
  - apply Forall2_replicate. done.
Qed.

End Pool.

(** A pool of three free nodes. *)
Definition demo_pool : mcu :=
  initial_mcu <| m_base ::= fun b =>
    b <| nodes := {[ 0 := mk_move_node (Some 1) MoveRaw; 1 := mk_move_node (Some 2) MoveRaw;
                     2 := mk_move_node None MoveRaw ]} |>
      <| move_free_list := Some 0 |> <| move_count := 3 |> |>.

Lemma demo_pool_rep : pool_rep (m_base demo_pool) [mq0; mq0] [0; 1; 2] [[]; []].
Proof. split; [done | done | repeat constructor; done | vm_decide | done]. Qed.

Lemma pool_ops_fifo_witness :
  exists heads' s', pool_ops [Enq 0; Enq 1; Enq 0; Deq 0; Enq 1] [mq0; mq0] demo_pool = (Ok heads', s')
    /\ pool_rep (m_base s') heads' [] [[2]; [1; 0]].
Proof.
  apply (pool_ops_fifo [Enq 0; Enq 1; Enq 0; Deq 0; Enq 1] [mq0; mq0] [0; 1; 2] [[]; []] demo_pool);
    [apply demo_pool_rep | reflexivity].
Defined.

(** 64 bytes of dynamic memory are left. *)
Definition demo_unfinalized : mcu := initial_mcu <| m_base ::= upd alloc_end (fun _ => 0x20001FC0) |>.

Lemma move_finalize_pool_witness :
  let s' := (move_finalize (B := demo_board) demo_unfinalized).2 in
  let cnt := move_count (m_base s') in
  cnt = 16 /\ 1 <= cnt <= 4096 /\
  (exists data, move_list (m_base s') = Some data
     /\ data + cnt * move_item_size (m_base s') <= 0x20002000) /\
  pool_rep (m_base s') (replicate 2 mq0) (seqZ 0 cnt) (replicate 2 []).
Proof.
  split; [vm_compute; reflexivity |].
  apply (move_finalize_pool (B := demo_board) 2 demo_unfinalized (move_finalize (B := demo_board) demo_unfinalized).2);
    vm_compute; reflexivity.
Defined.

(** ** Statistics *)

(** The load statistics never wrap around: one update of [sumsq] is the
    exact sum of the previous value and the scaled square, computed without
    intermediate 32-bit overflow, saturated at the largest 32-bit value; short
    of saturation the scaled sum is never below the true sum of squares. *)
Theorem next_sumsq_saturates sumsq diff :
  is_u32 sumsq -> is_u32 diff ->
  let inc := if diff <=? 0xffff then (diff * diff + 255) / 256
             else if diff <=? 0xfffff then ((diff + 255) / 256) * diff
             else 2 ^ 32 in
  next_sumsq sumsq diff = Z.min (sumsq + inc) (2 ^ 32 - 1)
  /\ (next_sumsq sumsq diff < 2 ^ 32 - 1 -> 256 * sumsq + diff * diff <= 256 * next_sumsq sumsq diff).
Proof.
  intros Hs Hd inc. unfold next_sumsq, DIV_ROUND_UP, SUMSQ_BASE, is_u32 in *.
  assert (E : forall q : Z, 0 <= q < 2 ^ 32 ->
    (if u32 (sumsq + q) <? sumsq then 0xffffffff else u32 (sumsq + q)) = Z.min (sumsq + q) (2 ^ 32 - 1)).
  { intros q Hq. change (2 ^ 32) with 4294967296 in *. unfold u32. change (2 ^ 32) with 4294967296.
    destruct (Z.ltb_spec ((sumsq + q) mod 4294967296) sumsq); Z.div_mod_to_equations; lia. }
  destruct (Z.leb_spec diff 0xffff) as [H1 | H1]; [| destruct (Z.leb_spec diff 0xfffff) as [H2 | H2]]; unfold inc.
  - assert (Hq : 0 <= diff * diff <= 65535 * 65535) by nia.
    rewrite (u32_small (diff * diff)) by cint_lia. replace (diff * diff + 256 - 1) with (diff * diff + 255) by lia.
    rewrite E by (Z.div_mod_to_equations; lia). split; [done |]. intros Hm. Z.div_mod_to_equations; lia.
  - replace (diff + 256 - 1) with (diff + 255) by lia.
    assert (Hq : diff <= 256 * ((diff + 255) / 256)) by (Z.div_mod_to_equations; lia).
    assert (Hq' : (diff + 255) / 256 <= 4096) by (Z.div_mod_to_equations; lia).
    assert (Hr : 0 <= (diff + 255) / 256 * diff < 2 ^ 32) by nia.
    rewrite (u32_small ((diff + 255) / 256 * diff)) by done. rewrite E by done.
    split; [done |]. intros Hm. nia.
  - change (2 ^ 32) with 4294967296 in *. destruct (Z.ltb_spec 0xffffffff sumsq); lia.
Qed.

Lemma next_sumsq_saturates_witness :
  next_sumsq 4294960000 65535 = Z.min (4294960000 + (65535 * 65535 + 255) / 256) (2 ^ 32 - 1)
  /\ (next_sumsq 4294960000 65535 < 2 ^ 32 - 1 ->
      256 * 4294960000 + 65535 * 65535 <= 256 * next_sumsq 4294960000 65535).
Proof. apply (next_sumsq_saturates 4294960000 65535); vm_decide. Defined.

Section Uptime.
Context `{B : Board}.

(** The 64-bit time [A] of the last statistics report, as stored. *)
Definition up_rep (A : Z) (b : basecmd_st) : Prop :=
  0 <= A /\ stats_send_time b = u32 A /\ stats_send_time_high b = u32 (A / 2 ^ 32).

(** The main loop calls [stats_update] at the given times. *)
Fixpoint stats_updates (runs : list (Z * Z)) : FW unit :=
  match runs with
  | [] => mret tt
  | (start, cur) :: runs => stats_update (u32 start) (u32 cur) ;; stats_updates runs
  end.

(** Consecutive times are at most [G] ticks apart. *)
Fixpoint paced (G prev : Z) (runs : list (Z * Z)) : Prop :=
  match runs with
  | [] => True
  | (_, cur) :: runs => prev <= cur <= prev + G /\ paced G cur runs
  end.

Definition last_run (prev : Z) (runs : list (Z * Z)) : Z := foldl (fun _ r => r.2) prev runs.

(** Reporting period of the statistics. *)
Definition stats_period : Z := timer_from_us 5000000.

Lemma split_next A C :
  0 <= A -> A <= C < A + 2 ^ 32 -> C / 2 ^ 32 = A / 2 ^ 32 + b2z (u32 C <? u32 A).
Proof.
  intros HA HC. cast_unfold. change (2 ^ 32) with 4294967296 in *.
  destruct (Z.ltb_spec (C mod 4294967296) (A mod 4294967296)); simpl b2z; Z.div_mod_to_equations; lia.
Qed.

Lemma u32_plus_b2z x b : u32 (u32 x + b2z b) = u32 (x + b2z b).
Proof. apply u32_add_l. Qed.

Lemma stats_update_rep A C start s s' :
  up_rep A (m_base s) -> A <= C -> C - A - stats_period < 2 ^ 31 -> C < A + 2 ^ 32 -> 0 < stats_period < 2 ^ 31 ->
  stats_update start (u32 C) s = (Ok tt, s') ->
  exists A', up_rep A' (m_base s') /\ A' <= C < A' + stats_period.
Proof.
  intros (HA & Ht & Hh) HC1 HC2 HC3 HD. unfold stats_update, base, set_base. msimpl. simpl.
  rewrite Ht. fold stats_period. rewrite u32_add_l, timer_is_before_abs by lia.
  destruct (Z.ltb_spec C (A + stats_period)) as [Hlt | Hge]; msimpl.
  - intros [= <-]. exists A. split; [done | lia].
  - intros (u & s1 & E & H)%bind_inv. kept m_base E Eb.
    assert (Hup : up_rep C (m_base s')).
    { pose proof (split_next A C HA ltac:(lia)) as Hsp. unfold up_rep. rewrite Hsp. revert H.
      destruct (u32 C <? u32 A); msimpl; intros [= <-]; simpl; rewrite Eb; simpl; rewrite Hh;
        rewrite ?u32_add_l, ?Z.add_0_r; (split; [lia | done]). }
    exists C. split; [done | lia].
Qed.

Lemma stats_updates_rep G prev runs A s s' :
  0 < stats_period < 2 ^ 31 -> 0 <= G -> stats_period + G <= 2 ^ 31 ->
  up_rep A (m_base s) -> A <= prev < A + stats_period -> paced G prev runs ->
  stats_updates runs s = (Ok tt, s') ->
  exists A', up_rep A' (m_base s') /\ A' <= last_run prev runs < A' + stats_period.
Proof.
  intros HD HG HDG. revert prev A s. induction runs as [| [start cur] runs IH]; intros prev A s HA Hp Hpc; cbn [stats_updates].
  { intros [= <-]. exists A. done. }
  destruct Hpc as [Hc Hpc]. intros ([] & s1 & E & H)%bind_inv.
  apply (stats_update_rep A) in E as (A1 & HA1 & Hr); [| done | lia | lia | lia | lia]. by apply (IH cur A1 s1).
Qed.

(** The 64-bit uptime is exact.  If the main loop comes round at least
    every [G] ticks (with [G] and the reporting period together at most half a
    clock period), then after any number of iterations, across any number of
    wrap-arounds of the 32-bit clock, [get_uptime] answers with the two halves
    of the 64-bit time of its clock reading. *)
Theorem uptime_exact G t0 runs C args s0 s1 s2 :
  0 < stats_period < 2 ^ 31 -> 0 <= G -> stats_period + G <= 2 ^ 31 ->
  up_rep t0 (m_base s0) -> paced G t0 runs -> stats_updates runs s0 = (Ok tt, s1) ->
  last_run t0 runs <= C <= last_run t0 runs + G -> u32 (hw_time (ticks (m_hw s1))) = u32 C ->
  in_sendf (m_cmd s1) = 0 -> command_get_uptime args s1 = (Ok tt, s2) ->
  exists high clk,
    head (sent_log (m_hw s2)) = Some ("uptime high=%u clock=%u"%string, [VInt high; VInt clk])
    /\ high * 2 ^ 32 + clk = C mod 2 ^ 64.
Proof.
  intros HD HG HDG HA Hpc Hrun HC Hclk Hin.
  destruct (stats_updates_rep G t0 runs t0 s0 s1) as (A & (HA0 & Ht & Hh) & Hl); try done; [lia |].
  unfold command_get_uptime, base. rewrite (bind_ok _ _ _ _ _ (timer_read_time_run s1)). msimpl. simpl m_base.
  rewrite Hclk, Ht, Hh, u32_add_l. intros H.
  pose proof (split_next A C HA0 ltac:(lia)) as Hsp. rewrite <- Hsp in H.
  exists (u32 (C / 2 ^ 32)), (u32 C). split; [| cast_unfold; Z.div_mod_to_equations; lia].
  revert H. unfold sendf, command_sendf. msimpl.
  change (m_cmd (upd m_hw ?g s1)) with (m_cmd s1). rewrite Hin. cbn [truth Z.eqb negb]. msimpl.
  intros (u & s3 & E & H)%bind_inv. revert H. msimpl. intros [= <-]. simpl.
  assert (Ek : sent_log (m_hw s3) = ("uptime high=%u clock=%u"%string, [VInt (u32 (C / 2 ^ 32)); VInt (u32 C)])
                                     :: sent_log (m_hw s1)).
  { refine (keeps_run (fun s => sent_log (m_hw s)) _ _ _ _ _ E).
    unfold console_sendf, console_put, command_encode_and_frame, set_con. keeps_tac. }
  by rewrite Ek.
Qed.

End Uptime.

(** A main loop with an iteration about every 15 seconds, over one wrap-around
    of the clock. *)
Definition demo_runs : list (Z * Z) :=
  [(0, 1000000000); (1000000000, 2000000000); (2000000000, 3000000000); (3000000000, 4000000000);
   (4000000000, 4900000000)].

Lemma uptime_exact_witness :
  let b := demo_board_clock (fun _ => 5000000000) in
  let s1 := (stats_updates (B := b) demo_runs initial_mcu).2 in
  let s2 := (command_get_uptime (B := b) [] s1).2 in
  exists high clk,
    head (sent_log (m_hw s2)) = Some ("uptime high=%u clock=%u"%string, [VInt high; VInt clk])
    /\ high * 2 ^ 32 + clk = 5000000000 mod 2 ^ 64.
Proof.
  set (b := demo_board_clock (fun _ => 5000000000)).
  apply (uptime_exact (B := b) (2 ^ 30) 0 demo_runs 5000000000 [] initial_mcu
           (stats_updates (B := b) demo_runs initial_mcu).2);
    vm_compute; repeat split; congruence.
Defined.

(** ** Identify *)

Section Identify.
Context `{B : Board}.

(** The bytes the host takes out of a response. *)
Definition identify_bytes (args : list varg) : list Z :=
  match args with
  | [VInt _; VBuf c data] => take (Z.to_nat c) data
  | _ => []
  end.

(** The responses to [n] consecutive requests for [k] bytes each. *)
Definition identify_fetch (k : Z) (n : nat) : list Z :=
  concat ((fun i => identify_bytes (identify_args (u32 (Z.of_nat i * k)) k)) <$> seq 0 n).

Lemma identify_chunk offset k :
  let isize := Z.of_nat (length command_identify_data) in
  0 <= offset -> 0 <= k < 256 -> isize + 256 < 2 ^ 32 -> is_u32 offset ->
  identify_bytes (identify_args offset k) = take (Z.to_nat k) (drop (Z.to_nat offset) command_identify_data).
Proof.
  intros isize Ho Hk Hi Hu. unfold identify_args, identify_bytes, identify_count. fold isize.
  destruct (Z.geb_spec offset isize) as [H1 | H1].
  { rewrite take_0, (drop_ge command_identify_data) by lia. by rewrite take_nil. }
  rewrite (u32_small (offset + k)) by cint_lia. destruct (Z.gtb_spec (offset + k) isize); [| done].
  rewrite (u8_small (isize - offset)) by cint_lia.
  rewrite !take_ge; [done | rewrite length_drop; lia | rewrite length_drop; lia].
Qed.

(** Reading the data dictionary: the responses to consecutive [identify]
    requests, put together, are a prefix of the identify data, and all of it
    once enough requests were made; no response reads outside the data. *)
Theorem identify_roundtrip k n :
  let isize := Z.of_nat (length command_identify_data) in
  0 < k < 256 -> isize + 256 < 2 ^ 32 -> Z.of_nat n * k < 2 ^ 32 ->
  identify_fetch k n = take (n * Z.to_nat k) command_identify_data
  /\ (isize <= Z.of_nat n * k -> identify_fetch k n = command_identify_data)
  /\ (forall offset c, is_u32 offset -> 0 <= c < 256 ->
       0 <= identify_count offset c isize <= c /\
       (identify_count offset c isize = 0 \/ offset + identify_count offset c isize <= isize)).
Proof.
  intros isize Hk Hi Hn.
  assert (E : identify_fetch k n = take (n * Z.to_nat k) command_identify_data).
  { unfold identify_fetch. induction n as [| n IH]; [done |].
    assert (Hnk : 0 <= Z.of_nat n * k < 2 ^ 32) by nia.
    rewrite seq_S, fmap_app, concat_app, IH by lia. cbn [fmap list_fmap concat Nat.add]. rewrite app_nil_r.
    rewrite identify_chunk; [| cint_lia | lia | done | apply u32_range].
    rewrite u32_small by done. rewrite Z2Nat.inj_mul, Nat2Z.id by lia.
    replace (S n * Z.to_nat k)%nat with (n * Z.to_nat k + Z.to_nat k)%nat by lia.
    by rewrite take_take_drop. }
  split; [done |]. split.
  - intros Hle. rewrite E. apply take_ge. unfold isize in *. nia.
  - intros offset c Ho Hc. unfold identify_count. destruct (Z.geb_spec offset isize); [lia |].
    rewrite (u32_small (offset + c)) by cint_lia. destruct (Z.gtb_spec (offset + c) isize); [| lia].
    rewrite u8_small by cint_lia. lia.
Qed.

End Identify.

Lemma identify_roundtrip_witness :
  identify_fetch (B := demo_board) 40 3 = take (3 * 40) (seqZ 0 100)
  /\ (100 <= 3 * 40 -> identify_fetch (B := demo_board) 40 3 = seqZ 0 100)
  /\ (forall offset c, is_u32 offset -> 0 <= c < 256 ->
       0 <= identify_count offset c 100 <= c /\
       (identify_count offset c 100 = 0 \/ offset + identify_count offset c 100 <= 100)).
Proof. apply (identify_roundtrip (B := demo_board) 40 3); vm_decide. Defined.

(** ** Reading and writing objects *)

Definition obj_view (s : mcu) (oid : Z) : option obj :=
  os ← oids (m_base s); e ← os !! Z.to_nat oid; o_data e.

(** The state with the object [oid] replaced. *)
Definition put_obj (oid : Z) (o : obj) (s : mcu) : mcu :=
  s <| m_base ::= upd oids (fmap (alter (fun e => e <| o_data := Some o |>) (Z.to_nat oid))) |>.

Lemma obj_get_run oid o s : obj_view s oid = Some o -> obj_get oid s = (Ok o, s).
Proof.
  unfold obj_view, obj_get, oid_entry, base. intros H. msimpl.
  destruct (oids (m_base s)) as [os |]; [| done]. msimpl. simpl in H.
  destruct (os !! Z.to_nat oid) as [e |]; [| done]. msimpl. simpl in H. by rewrite H.
Qed.

Lemma oid_lookup_inv `{B : Board} o ty (s : mcu) r s1 : oid_lookup o ty s = (Ok r, s1) -> r = u8 o /\ s1 = s.
Proof.
  unfold oid_lookup, oid_entry, base. msimpl. case_match; [done |]. msimpl.
  destruct (oids (m_base s)) as [os |]; [| done]. msimpl. destruct (os !! _) as [e |]; [| done]. msimpl.
  case_match; [done |]. intros H'. by inversion H'.
Qed.

Lemma obj_put_run oid o s : obj_put oid o s = (Ok tt, put_obj oid o s).
Proof. done. Qed.

Lemma obj_view_put oid o o' s : obj_view s oid = Some o' -> obj_view (put_obj oid o s) oid = Some o.
Proof.
  unfold obj_view, put_obj. simpl. destruct (oids (m_base s)) as [os |]; [| done]. simpl.
  rewrite list_lookup_alter_eq. destruct (os !! Z.to_nat oid); done.
Qed.

Lemma obj_view_put_ne oid oid' o s :
  0 <= oid -> 0 <= oid' -> oid <> oid' -> obj_view (put_obj oid o s) oid' = obj_view s oid'.
Proof.
  intros H1 H2 Hne. unfold obj_view, put_obj. simpl. destruct (oids (m_base s)) as [os |]; [| done]. simpl.
  rewrite list_lookup_alter_ne by lia. done.
Qed.

Lemma put_obj_put oid o o' s : put_obj oid o' (put_obj oid o s) = put_obj oid o' s.
Proof.
  unfold put_obj. destruct s as [? ? b ? ? ? ? ?]. simpl. f_equal. destruct b as [? ? ? ? ? ? ? ? ? os ? ? ? ? ? ? ?]. simpl.
  f_equal. destruct os as [os |]; [| done]. simpl. f_equal. apply list_eq. intros i.
  destruct (decide (i = Z.to_nat oid)) as [-> |]; [| by rewrite !list_lookup_alter_ne].
  rewrite !list_lookup_alter_eq. by destruct (os !! Z.to_nat oid).
Qed.

(** ** Objects with one timer

    [device oid s o f w]: the object [o] is configured as [oid], its timer runs
    [f] at [w]. *)
Section Device.
Context (oid : Z).
Implicit Types (s : mcu) (o : obj).

Record device s o (f : tfunc) (w : Z) : Prop := {
  dv_view : obj_view s oid = Some o;
  dv_timer : exists tm, timers (m_sched s) !! ObjTimer oid 0 = Some tm /\ t_func tm = Some f /\ t_waketime tm = w;
}.

Lemma device_put s o o' f w : device s o f w -> device (put_obj oid o' s) o' f w.
Proof. intros [V T]. split; [by eapply obj_view_put | done]. Qed.

Lemma device_hw s o f w g : device s o f w -> device (s <| m_hw ::= g |>) o f w.
Proof. intros [V T]. by split. Qed.

Lemma device_frame s s' o f w :
  oids (m_base s') = oids (m_base s) -> timers (m_sched s') = timers (m_sched s) -> device s o f w -> device s' o f w.
Proof. intros Ho Ht [V T]. split; [unfold obj_view; by rewrite Ho | by rewrite Ht]. Qed.

Lemma device_upd s o f f' w w' (g : timer -> timer) :
  device s o f w -> (forall tm, t_func tm = Some f -> t_waketime tm = w -> t_func (g tm) = Some f' /\ t_waketime (g tm) = w') ->
  exists s', tm_upd (ObjTimer oid 0) g s = (Ok tt, s') /\ device s' o f' w'
    /\ m_base s' = m_base s /\ m_hw s' = m_hw s /\ m_con s' = m_con s /\ m_cmd s' = m_cmd s /\ m_wake s' = m_wake s.
Proof.
  intros [V (tm & T & F & W)] Hg. eexists. split; [apply tm_upd_run; by eexists |]. split; [| done].
  split; [done |]. exists (g tm). simpl. rewrite lookup_alter_eq, T. split; [done | by apply Hg].
Qed.

Lemma device_get s o f w :
  device s o f w -> exists tm, tm_get (ObjTimer oid 0) s = (Ok tm, s) /\ t_func tm = Some f /\ t_waketime tm = w.
Proof. intros [V (tm & T & F & W)]. exists tm. split; [by apply tm_get_run | done]. Qed.
End Device.

(** ** Queued updates

    [nodes_hold pay N l us]: the nodes [l] carry the updates [us], each as the
    payload [pay] makes of it. *)
Definition nodes_hold {A} (pay : A -> move_payload) (N : gmap Z move_node) (l : list Z) (us : list A) : Prop :=
  Forall2 (fun n u => exists nd, N !! n = Some nd /\ mn_data nd = pay u) l us.

Lemma nodes_hold_frame {A} (pay : A -> move_payload) N N' l us :
  (forall q, q ∈ l -> N' !! q = N !! q) -> nodes_hold pay N l us -> nodes_hold pay N' l us.
Proof.
  intros HN H. unfold nodes_hold in *. induction H as [| n m l ms (nd & Hn & Hm) H IH]; constructor.
  - exists nd. rewrite HN by apply list_elem_of_here. done.
  - apply IH. intros q Hq. by apply HN, list_elem_of_further.
Qed.

(** ** What a computation makes of one object

    [turns oid o o' m]: a run of [m] that returns turns the object [oid] from
    [o] into [o']. *)
Section Turns.
Context (oid : Z).
Implicit Types (s : mcu) (o : obj).

Definition turns {A : Type} o o' (m : FW A) : Prop :=
  forall s s' a, obj_view s oid = Some o -> m s = (Ok a, s') -> obj_view s' oid = Some o'.

Lemma turns_bind {A C} o o1 o2 (m : FW A) (k : A -> FW C) :
  turns o o1 m -> (forall a, turns o1 o2 (k a)) -> turns o o2 (m ≫= k).
Proof. intros Hm Hk s s' c V (a & s1 & E1 & E2)%bind_inv. exact (Hk a s1 s' c (Hm s s1 a V E1) E2). Qed.

Lemma turns_keeps {A} o (m : FW A) : keeps (fun s => obj_view s oid) m -> turns o o m.
Proof. intros K s s' a V E. rewrite <- V. exact (keeps_run _ _ _ _ _ K E). Qed.

(** A read of the object. *)
Lemma turns_get {A C} o o' (get : FW A) (x : A) (k : A -> FW C) :
  (forall s, obj_view s oid = Some o -> get s = (Ok x, s)) -> turns o o' (k x) -> turns o o' (get ≫= k).
Proof. intros Hg Hk s s' c V. rewrite (bind_ok _ _ _ _ _ (Hg s V)). by apply Hk. Qed.

Lemma turns_deref {A C} o o' w (x : A) (k : A -> FW C) : turns o o' (k x) -> turns o o' (deref w (Some x) ≫= k).
Proof. done. Qed.

Lemma turns_when o o' (b : bool) (m : FW unit) :
  (b = true -> turns o o' m) -> (b = false -> o' = o) -> turns o o' (when b m).
Proof. destruct b; intros H1 H2; [by apply H1 |]. rewrite H2 by done. intros s s' a V [= _ <-]. exact V. Qed.

Lemma turns_put o o' f (upd : FW unit) :
  (forall s, obj_view s oid = Some o -> upd s = (Ok tt, put_obj oid (f o) s)) -> o' = f o -> turns o o' upd.
Proof. intros Hu -> s s' a V. rewrite (Hu s V). intros [= _ <-]. by eapply obj_view_put. Qed.
End Turns.
