(* ===== verification/Stepper.v ===== *)
(** * Stepper: step generation

    Models [src/src/stepper.c] (all but the trigger subscription, which is in
    Trsync).  A stepper is named by its oid; its timer is [ObjTimer oid 0]. *)

From S2P Require Import Prelude Wire State Command Sched Basecmd.
Import Encode.

Definition MF_DIR : Z := 1.
Definition POSITION_BIAS : Z := 0x40000000.
Definition SF_LAST_DIR : Z := 1.
Definition SF_NEXT_DIR : Z := 2.
Definition SF_INVERT_STEP : Z := 4.
Definition SF_NEED_RESET : Z := 8.
Definition SF_SINGLE_SCHED : Z := 16.
Definition SF_HAVE_ADD : Z := 32.
Definition AVR_STEP_INSNS : Z := 40.

(** ** General purpose pins *)

Section Gpio.
Context `{B : Board}.

Definition log_pin (e : pin_event) : FW unit := modify (fun s => s <| m_hw ::= upd pin_log (cons e) |>).

Definition gpio_out_setup (pin val : Z) : FW Z :=
  if gpio_out_ok pin then log_pin (EvSetup pin (truth val)) ;; mret pin
  else shutdown "Not an output pin".
Definition gpio_out_toggle_noirq (pin : Z) : FW unit := log_pin (EvToggle pin).
Definition gpio_out_write (pin val : Z) : FW unit := log_pin (EvWrite pin (truth val)).

Definition gpio_out_toggle (pin : Z) : FW unit := gpio_out_toggle_noirq pin.
Definition gpio_out_reset (pin val : Z) : FW unit := log_pin (EvSetup pin (truth val)).
Definition gpio_in_reset (pin pull_up : Z) : FW unit := log_pin (EvInput pin (truth pull_up)).

Definition gpio_in_setup (pin pull_up : Z) : FW Z :=
  if gpio_in_ok pin then mret pin else shutdown "Not a valid input pin".

(** Every read of a pin is a new reading of the hardware. *)
Definition gpio_in_read (pin : Z) : FW bool :=
  n ← gets (fun s => ticks (m_hw s));
  modify (fun s => s <| m_hw ::= upd ticks S |>) ;;
  mret (hw_pin n pin).

(** Conversion to [int_fast8_t] and [uint_fast8_t]. *)
Definition int_fast8 (x : Z) : Z := if CONFIG_MACH_AVR || wide_size_t then s8 x else s32 x.
Definition uint_fast8 (x : Z) : Z := if CONFIG_MACH_AVR || wide_size_t then u8 x else u32 x.

End Gpio.

Section WithBoard.
Context `{B : Board}.

Definition HAVE_SINGLE_SCHEDULE : bool :=
  CONFIG_INLINE_STEPPER_HACK && (CONFIG_HAVE_STEPPER_BOTH_EDGE || CONFIG_MACH_AVR).
Definition HAVE_EDGE_OPTIMIZATION : bool := CONFIG_INLINE_STEPPER_HACK && CONFIG_HAVE_STEPPER_BOTH_EDGE.
Definition HAVE_AVR_OPTIMIZATION : bool :=
  CONFIG_INLINE_STEPPER_HACK && negb CONFIG_HAVE_STEPPER_BOTH_EDGE && CONFIG_MACH_AVR.

(** ** Access to [struct stepper] *)

Definition get_stepper (oid : Z) : FW stepper :=
  o ← obj_get oid;
  match o with OStepper s => mret s | _ => fault "struct stepper" end.

Definition upd_stepper (oid : Z) (f : stepper -> stepper) : FW unit :=
  s ← get_stepper oid; obj_put oid (OStepper (f s)).

Definition stepper_timer (oid : Z) : tptr := ObjTimer oid 0.

Definition set_waketime (t : tptr) (w : Z) : FW unit := tm_upd t (fun r => r <| t_waketime := w |>).
Definition add_waketime (t : tptr) (d : Z) : FW unit := tm_upd t (fun r => r <| t_waketime ::= fun w => u32 (w + d) |>).

(** [container_of] of a queue node. *)
Definition stepper_move_of (mn : Z) : FW stepper_move :=
  n ← node_get mn;
  match mn_data n with MoveStepper m => mret m | _ => fault "struct stepper_move" end.

(** ** Step events *)

(** The scheduling part of [stepper_load_next]. *)
Definition load_schedule (oid : Z) (m : stepper_move) : FW unit :=
  s ← get_stepper oid;
  if HAVE_SINGLE_SCHEDULE && has (s_flags s) SF_SINGLE_SCHED
  then
    add_waketime (stepper_timer oid) (sm_interval m) ;;
    when HAVE_AVR_OPTIMIZATION (upd_stepper oid (fun s =>
      s <| s_flags ::= fun f => if truth (sm_add m) then Z.lor f SF_HAVE_ADD else clr f SF_HAVE_ADD |>)) ;;
    upd_stepper oid (fun s => s <| s_count := sm_count m |>)
  else
    upd_stepper oid (fun s => s <| s_next_step_time ::= fun t => u32 (t + sm_interval m) |>) ;;
    s ← get_stepper oid;
    set_waketime (stepper_timer oid) (s_next_step_time s) ;;
    upd_stepper oid (fun s => s <| s_count := u32 (sm_count m * 2) |>).

(** The position part: [position] counts in the direction of travel. *)
Definition load_position (oid : Z) (m : stepper_move) : FW unit :=
  if has (sm_flags m) MF_DIR
  then
    upd_stepper oid (fun s => s <| s_position ::= fun p => u32 (- p + sm_count m) |>) ;;
    s ← get_stepper oid;
    gpio_out_toggle_noirq (s_dir_pin s)
  else upd_stepper oid (fun s => s <| s_position ::= fun p => u32 (p + sm_count m) |>).

Definition stepper_load_next (oid : Z) : FW Z :=
  s ← get_stepper oid;
  if move_queue_empty (s_mq s)
  then upd_stepper oid (fun s => s <| s_count := 0 |>) ;; mret SF_DONE
  else
    '(mn, mh) ← move_queue_pop (s_mq s);
    upd_stepper oid (fun s => s <| s_mq := mh |>) ;;
    m ← stepper_move_of mn;
    upd_stepper oid (fun s => s <| s_add := sm_add m |> <| s_interval := u32 (sm_interval m + sm_add m) |>) ;;
    load_schedule oid m ;;
    load_position oid m ;;
    move_free mn ;;
    mret SF_RESCHEDULE.

Definition stepper_event_edge (oid : Z) : FW Z :=
  s ← get_stepper oid;
  gpio_out_toggle_noirq (s_step_pin s) ;;
  let count := u32 (s_count s - 1) in
  if truth count
  then
    upd_stepper oid (fun s => s <| s_count := count |>) ;;
    add_waketime (stepper_timer oid) (s_interval s) ;;
    upd_stepper oid (fun s => s <| s_interval ::= fun i => u32 (i + s_add s) |>) ;;
    mret SF_RESCHEDULE
  else stepper_load_next oid.

(** The AVR variant decrements the low half of [count] only. *)
Definition stepper_event_avr (oid : Z) : FW Z :=
  s ← get_stepper oid;
  gpio_out_toggle_noirq (s_step_pin s) ;;
  let count := u16 (u16 (s_count s) - 1) in
  if truth count
  then
    upd_stepper oid (fun s => s <| s_count ::= fun c => c - u16 c + count |>) ;;
    add_waketime (stepper_timer oid) (s_interval s) ;;
    gpio_out_toggle_noirq (s_step_pin s) ;;
    when (has (s_flags s) SF_HAVE_ADD)
      (upd_stepper oid (fun s => s <| s_interval ::= fun i => u32 (i + s_add s) |>)) ;;
    mret SF_RESCHEDULE
  else
    ret ← stepper_load_next oid;
    gpio_out_toggle_noirq (s_step_pin s) ;;
    mret ret.

(** Label [reschedule_min]. *)
Definition reschedule_min (oid min_next_time : Z) : FW Z :=
  set_waketime (stepper_timer oid) min_next_time ;; mret SF_RESCHEDULE.

Definition stepper_event_full (oid : Z) : FW Z :=
  s ← get_stepper oid;
  gpio_out_toggle_noirq (s_step_pin s) ;;
  curtime ← timer_read_time;
  let min_next_time := u32 (curtime + s_step_pulse_ticks s) in
  upd_stepper oid (fun s => s <| s_count ::= fun c => u32 (c - 1) |>) ;;
  s ← get_stepper oid;
  if has (s_count s) 1 then reschedule_min oid min_next_time
  else if truth (s_count s)
  then
    upd_stepper oid (fun s => s <| s_next_step_time ::= fun t => u32 (t + s_interval s) |>) ;;
    upd_stepper oid (fun s => s <| s_interval ::= fun i => u32 (i + s_add s) |>) ;;
    s ← get_stepper oid;
    if timer_is_before (s_next_step_time s) min_next_time then reschedule_min oid min_next_time
    else set_waketime (stepper_timer oid) (s_next_step_time s) ;; mret SF_RESCHEDULE
  else
    ret ← stepper_load_next oid;
    t ← tm_get (stepper_timer oid);
    if (ret =? SF_DONE) || negb (timer_is_before (t_waketime t) min_next_time) then mret ret
    else
      let diff := s32 (t_waketime t - min_next_time) in
      if diff <? s32 (- timer_from_us 1000) then shutdown "Stepper too far in past"
      else reschedule_min oid min_next_time.

Definition stepper_event (oid : Z) : FW Z :=
  if HAVE_EDGE_OPTIMIZATION then stepper_event_edge oid
  else if HAVE_AVR_OPTIMIZATION then stepper_event_avr oid
  else stepper_event_full oid.

(** ** Commands *)

Definition set_func (t : tptr) (f : tfunc) : FW unit := tm_upd t (fun r => r <| t_func := Some f |>).

(** Choice of the event function in [command_config_stepper]. *)
Definition config_stepper_func (oid invert_step : Z) : FW unit :=
  s ← get_stepper oid;
  let single := upd_stepper oid (fun s => s <| s_flags ::= fun f => Z.lor f SF_SINGLE_SCHED |>) in
  let full := set_func (stepper_timer oid) F_stepper_event_full in
  if HAVE_EDGE_OPTIMIZATION
  then if negb (truth (s_step_pulse_ticks s)) && (invert_step <? 0) then single else full
  else if HAVE_AVR_OPTIMIZATION
  then if s_step_pulse_ticks s <=? AVR_STEP_INSNS then single else full
  else when (negb CONFIG_INLINE_STEPPER_HACK) full.

Definition command_config_stepper (args : list Z) : FW unit :=
  a0 ← arg args 0;
  oid ← oid_alloc a0 T_stepper (sizeof_obj T_stepper);
  a3 ← arg args 3;
  let invert_step := int_fast8 a3 in
  let flags := if invert_step >? 0 then SF_INVERT_STEP else 0 in
  upd_stepper oid (fun s => s <| s_flags := flags |>) ;;
  a1 ← arg args 1;
  step_pin ← gpio_out_setup a1 (Z.land flags SF_INVERT_STEP);
  upd_stepper oid (fun s => s <| s_step_pin := step_pin |>) ;;
  a2 ← arg args 2;
  dir_pin ← gpio_out_setup a2 0;
  upd_stepper oid (fun s => s <| s_dir_pin := dir_pin |> <| s_position := u32 (- POSITION_BIAS) |>) ;;
  a4 ← arg args 4;
  upd_stepper oid (fun s => s <| s_step_pulse_ticks := a4 |>) ;;
  mq ← move_queue_setup (sizeof_move T_stepper);
  upd_stepper oid (fun s => s <| s_mq := mq |>) ;;
  config_stepper_func oid invert_step.

Definition stepper_oid_lookup (oid : Z) : FW Z := oid_lookup oid T_stepper.

(** The body of [command_queue_step] between [irq_disable] and [irq_enable];
    [m] has its fields but [flags] set. *)
Definition queue_step_push (oid m : Z) : FW unit :=
  s ← get_stepper oid;
  let turn := negb (Bool.eqb (has (s_flags s) SF_LAST_DIR) (has (s_flags s) SF_NEXT_DIR)) in
  let flags := if turn then Z.lxor (s_flags s) SF_LAST_DIR else s_flags s in
  mv ← stepper_move_of m;
  when turn (node_upd m (fun n => n <| mn_data := MoveStepper (mv <| sm_flags ::= fun f => Z.lor f MF_DIR |>) |>)) ;;
  if truth (s_count s)
  then
    upd_stepper oid (fun s => s <| s_flags := flags |>) ;;
    '(_, mh) ← move_queue_push m (s_mq s);
    upd_stepper oid (fun s => s <| s_mq := mh |>)
  else if has flags SF_NEED_RESET then move_free m
  else
    upd_stepper oid (fun s => s <| s_flags := flags |>) ;;
    '(_, mh) ← move_queue_push m (s_mq s);
    upd_stepper oid (fun s => s <| s_mq := mh |>) ;;
    _ ← stepper_load_next oid;
    sched_add_timer (stepper_timer oid).

Definition command_queue_step (args : list Z) : FW unit :=
  a0 ← arg args 0;
  oid ← stepper_oid_lookup a0;
  m ← move_alloc;
  interval ← arg args 1;
  a2 ← arg args 2;
  let count := u16 a2 in
  if negb (truth count) then shutdown "Invalid count parameter"
  else
    a3 ← arg args 3;
    node_upd m (fun n => n <| mn_data := MoveStepper (mk_stepper_move interval (s16 a3) count 0) |>) ;;
    queue_step_push oid m.

Definition command_set_next_step_dir (args : list Z) : FW unit :=
  a0 ← arg args 0;
  oid ← stepper_oid_lookup a0;
  a1 ← arg args 1;
  let nextdir := if truth a1 then SF_NEXT_DIR else 0 in
  upd_stepper oid (fun s => s <| s_flags ::= fun f => Z.lor (clr f SF_NEXT_DIR) nextdir |>).

Definition command_reset_step_clock (args : list Z) : FW unit :=
  a0 ← arg args 0;
  oid ← stepper_oid_lookup a0;
  waketime ← arg args 1;
  s ← get_stepper oid;
  if truth (s_count s) then shutdown "Can't reset time when stepper active"
  else
    set_waketime (stepper_timer oid) waketime ;;
    upd_stepper oid (fun s => s <| s_next_step_time := waketime |> <| s_flags ::= fun f => clr f SF_NEED_RESET |>).

(** ** Position *)

(** [stepper_get_position], on the fields it reads. *)
Definition stepper_get_position (s : stepper) : Z :=
  let position :=
    if HAVE_SINGLE_SCHEDULE && has (s_flags s) SF_SINGLE_SCHED
    then u32 (s_position s - s_count s)
    else u32 (s_position s - s_count s / 2) in
  if has position 0x80000000 then u32 (- position) else position.

Definition command_stepper_get_position (args : list Z) : FW unit :=
  a0 ← arg args 0;
  let oid := u8 a0 in
  p ← stepper_oid_lookup oid;
  s ← get_stepper p;
  sendf "stepper_position oid=%c pos=%i" [VInt oid; VInt (u32 (stepper_get_position s - POSITION_BIAS))].

(** ** Stopping *)

(** The draining loop of [stepper_stop]. *)
Fixpoint stepper_drain (fuel : nat) (oid : Z) : FW unit :=
  match fuel with
  | O => lift_res OutOfFuel
  | S fuel =>
      s ← get_stepper oid;
      if move_queue_empty (s_mq s) then mret tt
      else
        '(mn, mh) ← move_queue_pop (s_mq s);
        upd_stepper oid (fun s => s <| s_mq := mh |>) ;;
        move_free mn ;;
        stepper_drain fuel oid
  end.

(** The statements of [stepper_stop] between the removal of the timer and the
    loop. *)
Definition stepper_halt (oid : Z) : FW unit :=
  set_waketime (stepper_timer oid) 0 ;;
  upd_stepper oid (fun s => s <| s_next_step_time := 0 |>) ;;
  upd_stepper oid (fun s => s <| s_position := u32 (- stepper_get_position s) |>) ;;
  upd_stepper oid (fun s => s <| s_count := 0 |>) ;;
  upd_stepper oid (fun s => s <| s_flags ::= fun f =>
    Z.lor (Z.land f (Z.lor SF_INVERT_STEP SF_SINGLE_SCHED)) SF_NEED_RESET |>) ;;
  s ← get_stepper oid;
  gpio_out_write (s_dir_pin s) 0 ;;
  when (negb (HAVE_EDGE_OPTIMIZATION && has (s_flags s) SF_SINGLE_SCHED))
    (gpio_out_write (s_step_pin s) (Z.land (s_flags s) SF_INVERT_STEP)).

Definition stepper_stop (oid reason : Z) : FW unit :=
  sched_del_timer (stepper_timer oid) ;;
  stepper_halt oid ;;
  n ← base (fun b => size (nodes b));
  stepper_drain (S n) oid.

Definition stepper_shutdown : FW unit :=
  foreach_oid T_stepper (fun oid =>
    upd_stepper oid (fun s => s <| s_mq ::= move_queue_clear |>) ;;
    stepper_stop oid 0).

(** ** Probe support *)

Definition step_prtouch_get_pos_v65 (step_oid : Z) : FW Z :=
  oid ← stepper_oid_lookup step_oid;
  s ← get_stepper oid;
  let position := u32 (s_position s - (if HAVE_SINGLE_SCHEDULE && has (s_flags s) SF_SINGLE_SCHED
                                       then s_count s else s_count s / 2)) in
  let position := if has position 0x80000000 then u32 (- position) else position in
  mret (s32 (position - POSITION_BIAS)).

Definition step_prtouch_get_ivt (step_oid : Z) : FW Z :=
  oid ← stepper_oid_lookup step_oid;
  s ← get_stepper oid;
  mret (s32 ((if has (s_flags s) SF_NEXT_DIR then -1 else 1) * (if truth (s_count s) then s_interval s else 0))).

Definition step_prtouch_get_cnt (step_oid : Z) : FW Z :=
  oid ← stepper_oid_lookup step_oid;
  s ← get_stepper oid;
  mret (s32 (s_count s)).

End WithBoard.

(** ** Step timing *)

(** Time of the [k]-th step of a move queued behind time [t]. *)
Definition step_time (t interval add k : Z) : Z := t + interval * k + add * (k * (k - 1) / 2).

Definition move_end (t : Z) (m : stepper_move) : Z := step_time t (sm_interval m) (sm_add m) (sm_count m).

(** The step times (on the 32-bit clock) a sequence of moves asks for. *)
Fixpoint plan (t : Z) (ms : list stepper_move) : list Z :=
  match ms with
  | [] => []
  | m :: ms =>
      ((fun k => u32 (step_time t (sm_interval m) (sm_add m) k)) <$> seqZ 1 (sm_count m))
      ++ plan (move_end t m) ms
  end.

Lemma step_time_succ t i a k :
  step_time t i a (k + 1) = step_time t i a k + (i + a * k).
Proof.
  unfold step_time. replace ((k + 1) * (k + 1 - 1)) with (k * (k - 1) + k * 2) by lia.
  rewrite Z.div_add by lia. lia.
Qed.

Section Runs.
Context `{B : Board}.
Implicit Types s : mcu.

Lemma get_stepper_run oid st s : obj_view s oid = Some (OStepper st) -> get_stepper oid s = (Ok st, s).
Proof. intros H. unfold get_stepper. by rewrite (bind_ok _ _ _ _ _ (obj_get_run _ _ _ H)). Qed.

Lemma upd_stepper_run oid st f s :
  obj_view s oid = Some (OStepper st) -> upd_stepper oid f s = (Ok tt, put_obj oid (OStepper (f st)) s).
Proof. intros H. unfold upd_stepper. by rewrite (bind_ok _ _ _ _ _ (get_stepper_run _ _ _ H)). Qed.

(** Symbolic execution with a known object. *)
Lemma obj_view_sched g s oid : obj_view (s <| m_sched ::= g |>) oid = obj_view s oid.
Proof. done. Qed.
Lemma obj_view_hw g s oid : obj_view (s <| m_hw ::= g |>) oid = obj_view s oid.
Proof. done. Qed.
Lemma obj_view_nodes g s oid : obj_view (s <| m_base ::= upd nodes g |>) oid = obj_view s oid.
Proof. done. Qed.
Lemma obj_view_free g s oid : obj_view (s <| m_base ::= upd move_free_list g |>) oid = obj_view s oid.
Proof. done. Qed.
Lemma obj_view_used g s oid : obj_view (s <| m_base ::= upd usedMoveQueueNumber g |>) oid = obj_view s oid.
Proof. done. Qed.

(** The moves stored in a list of nodes. *)
Abbreviation holds_moves := (nodes_hold MoveStepper).

(** A stepper with its next event at [w] and the moves [ms] queued. *)
Record stepping (oid : Z) (s : mcu) (st : stepper) (w : Z) (l : list Z) (ms : list stepper_move) : Prop := {
  sp_view : obj_view s oid = Some (OStepper st);
  sp_wake : wk (timers (m_sched s)) (stepper_timer oid) = Some w;
  sp_queue : mq_rep (nodes (m_base s)) (s_mq st) l;
  sp_moves : holds_moves (nodes (m_base s)) l ms;
  sp_nodup : NoDup l;
}.

(** The stepper after loading [m]. *)
Definition loaded (single : bool) (st : stepper) (m : stepper_move) (mh : move_queue_head) : stepper :=
  mk_stepper (u32 (sm_interval m + sm_add m)) (sm_add m)
    (if single then sm_count m else u32 (sm_count m * 2))
    (if single then s_next_step_time st else u32 (s_next_step_time st + sm_interval m))
    (s_step_pulse_ticks st) (s_step_pin st) (s_dir_pin st)
    (if has (sm_flags m) MF_DIR then u32 (- s_position st + sm_count m) else u32 (s_position st + sm_count m))
    mh (s_sig_next st) (s_sig_func st) (s_flags st).

Definition load_wake (single : bool) (st : stepper) (w : Z) (m : stepper_move) : Z :=
  if single then u32 (w + sm_interval m) else u32 (s_next_step_time st + sm_interval m).

Lemma wk_some_lookup T t w : wk T t = Some w -> is_Some (T !! t).
Proof. unfold wk. intros H. by destruct (T !! t). Qed.

Lemma load_schedule_run oid st w m s :
  obj_view s oid = Some (OStepper st) -> wk (timers (m_sched s)) (stepper_timer oid) = Some w ->
  HAVE_AVR_OPTIMIZATION = false ->
  let single := HAVE_SINGLE_SCHEDULE && has (s_flags st) SF_SINGLE_SCHED in
  exists s', load_schedule oid m s = (Ok tt, s')
    /\ obj_view s' oid = Some (OStepper (st
          <| s_next_step_time ::= fun t => if single then t else u32 (t + sm_interval m) |>
          <| s_count := if single then sm_count m else u32 (sm_count m * 2) |>))
    /\ wk (timers (m_sched s')) (stepper_timer oid) = Some (load_wake single st w m)
    /\ nodes (m_base s') = nodes (m_base s) /\ move_free_list (m_base s') = move_free_list (m_base s)
    /\ m_hw s' = m_hw s.
Proof.
  intros Hv Hw Havr single. pose proof (wk_some_lookup _ _ _ Hw) as HT.
  unfold load_schedule, add_waketime, set_waketime. rewrite (bind_ok _ _ _ _ _ (get_stepper_run _ _ _ Hv)).
  fold single. rewrite Havr. unfold load_wake. destruct single eqn:Es.
  - erewrite bind_ok by (by apply tm_upd_run). msimpl. erewrite upd_stepper_run by (rewrite obj_view_sched; exact Hv).
    eexists. split; [reflexivity |]. split; [eapply obj_view_put; rewrite obj_view_sched; exact Hv |].
    split; [| done]. simpl. rewrite wk_alter. unfold wk in Hw. destruct (_ !! stepper_timer oid); [| done].
    injection Hw as <-. done.
  - erewrite bind_ok by (by eapply upd_stepper_run). erewrite bind_ok by (eapply get_stepper_run, obj_view_put; exact Hv).
    erewrite bind_ok by (by apply tm_upd_run).
    erewrite upd_stepper_run by (rewrite obj_view_sched; eapply obj_view_put; exact Hv).
    eexists. split; [reflexivity |].
    split; [eapply obj_view_put; rewrite obj_view_sched; eapply obj_view_put; exact Hv |].
    split; [| done]. apply wk_set_wake. done.
Qed.

Lemma load_position_run oid st m s :
  obj_view s oid = Some (OStepper st) ->
  exists s', load_position oid m s = (Ok tt, s')
    /\ obj_view s' oid = Some (OStepper (st <| s_position ::= fun p =>
          if has (sm_flags m) MF_DIR then u32 (- p + sm_count m) else u32 (p + sm_count m) |>))
    /\ m_sched s' = m_sched s /\ nodes (m_base s') = nodes (m_base s)
    /\ move_free_list (m_base s') = move_free_list (m_base s)
    /\ pin_log (m_hw s') = (if has (sm_flags m) MF_DIR then [EvToggle (s_dir_pin st)] else []) ++ pin_log (m_hw s).
Proof.
  intros Hv. unfold load_position. destruct (has (sm_flags m) MF_DIR).
  - erewrite bind_ok by (by eapply upd_stepper_run). erewrite bind_ok by (eapply get_stepper_run, obj_view_put; exact Hv).
    eexists. split; [reflexivity |]. split; [rewrite obj_view_hw; eapply obj_view_put; exact Hv |]. done.
  - erewrite upd_stepper_run by exact Hv. eexists. split; [reflexivity |].
    split; [eapply obj_view_put; exact Hv |]. done.
Qed.

(** Loading the next move: the stepper takes the move's timing, the node goes
    back to the pool. *)
Lemma stepper_load_next_ok oid s st w n l m ms :
  stepping oid s st w (n :: l) (m :: ms) -> HAVE_AVR_OPTIMIZATION = false ->
  let single := HAVE_SINGLE_SCHEDULE && has (s_flags st) SF_SINGLE_SCHED in
  exists s' mh, stepper_load_next oid s = (Ok SF_RESCHEDULE, s')
    /\ stepping oid s' (loaded single st m mh) (load_wake single st w m) l ms
    /\ pin_log (m_hw s') = (if has (sm_flags m) MF_DIR then [EvToggle (s_dir_pin st)] else []) ++ pin_log (m_hw s)
    /\ move_free_list (m_base s') = Some n.
Proof.
  intros [Hv Hw Hq Hm Hnd] Havr single.
  apply Forall2_cons_1 in Hm as [(nd & Hn & Hmd) Hm]. apply NoDup_cons in Hnd as [Hnl Hnd].
  unfold stepper_load_next. rewrite (bind_ok _ _ _ _ _ (get_stepper_run _ _ _ Hv)).
  assert (Hne : move_queue_empty (s_mq st) = false).
  { destruct Hq as (_ & Hf & _). unfold move_queue_empty. rewrite Hf. done. }
  rewrite Hne. destruct (move_queue_pop_ok s (s_mq st) n l Hq) as (mh & Ep & Hq').
  rewrite (bind_ok _ _ _ _ _ Ep). cbv beta iota. erewrite bind_ok by (by eapply upd_stepper_run).
  set (s1 := put_obj oid _ s).
  assert (Hv1 : obj_view s1 oid = Some (OStepper (st <| s_mq := mh |>))) by (eapply obj_view_put; exact Hv).
  assert (Em : stepper_move_of n s1 = (Ok m, s1)).
  { unfold stepper_move_of. rewrite (bind_ok _ _ _ _ _ (node_get_run n nd s1 Hn)), Hmd. done. }
  rewrite (bind_ok _ _ _ _ _ Em). erewrite bind_ok by (by eapply upd_stepper_run).
  set (s2 := put_obj oid _ s1). pose proof (obj_view_put oid _ _ _ Hv1 : obj_view s2 oid = _) as Hv2.
  destruct (load_schedule_run oid _ w m s2 Hv2 Hw Havr) as (s3 & E3 & Hv3 & Hw3 & N3 & F3 & P3).
  rewrite (bind_ok _ _ _ _ _ E3).
  destruct (load_position_run oid _ m s3 Hv3) as (s4 & E4 & Hv4 & S4 & N4 & F4 & P4).
  rewrite (bind_ok _ _ _ _ _ E4).
  assert (Nn : nodes (m_base s4) = nodes (m_base s)) by (by rewrite N4, N3).
  destruct (move_free_ok s4 n) as (s5 & E5 & F5 & _ & Hfr & _ & Hnode & O5 & S5 & H5).
  { rewrite Nn, Hn. by eexists. }
  rewrite (bind_ok _ _ _ _ _ E5). exists s5, mh. split; [reflexivity |].
  split; [split |].
  - unfold obj_view in Hv4 |- *. rewrite O5, Hv4. unfold loaded, single. simpl.
    by destruct (HAVE_SINGLE_SCHEDULE && has (s_flags st) SF_SINGLE_SCHED).
  - by rewrite S5, S4, Hw3.
  - eapply mq_rep_frame; [| exact Hq']. intros q Hql. rewrite Hfr, Nn by (by intros ->). done.
  - eapply nodes_hold_frame; [| exact Hm]. intros q Hql. rewrite Hnode, Nn by (by intros ->). done.
  - done.
  - rewrite H5, P4, P3. done.
Qed.

Lemma stepper_load_next_done oid s st w :
  stepping oid s st w [] [] ->
  stepper_load_next oid s = (Ok SF_DONE, put_obj oid (OStepper (st <| s_count := 0 |>)) s).
Proof.
  intros [Hv Hw (_ & Hf & _) _ _]. unfold stepper_load_next. rewrite (bind_ok _ _ _ _ _ (get_stepper_run _ _ _ Hv)).
  unfold move_queue_empty. rewrite Hf. simpl. by erewrite bind_ok by (by eapply upd_stepper_run).
Qed.

(** Changing the stepper's own fields and its wake time. *)
Lemma stepping_put oid s st st' w w' l ms g :
  stepping oid s st w l ms -> s_mq st' = s_mq st ->
  (forall T : timer_map, wk T (stepper_timer oid) = Some w -> wk (g T) (stepper_timer oid) = Some w') ->
  stepping oid (put_obj oid (OStepper st') (s <| m_sched ::= upd timers g |>)) st' w' l ms.
Proof.
  intros [Hv Hw Hq Hm Hnd] Hmq Hg. split; try done; [| by apply Hg | by rewrite Hmq].
  eapply obj_view_put. rewrite obj_view_sched. exact Hv.
Qed.

(** *** Position

    [position], less the steps not yet taken, is the distance travelled in the
    current direction: [pos_ok d x st] says that it stands for the position [x]
    when the direction is [d]. *)
Definition steps_left (st : stepper) : Z :=
  if HAVE_SINGLE_SCHEDULE && has (s_flags st) SF_SINGLE_SCHED then s_count st else s_count st / 2.

Definition pos_ok (d : bool) (x : Z) (st : stepper) : Prop :=
  u32 (s_position st - steps_left st) = u32 (if d then POSITION_BIAS + x else - (POSITION_BIAS + x)).

Definition in_range (x : Z) : Prop := - 2 ^ 30 < x < 2 ^ 30.

Lemma has_top p : is_u32 p -> has p 0x80000000 = (2 ^ 31 <=? p).
Proof.
  intros Hp. unfold has, truth. change 0x80000000 with (2 ^ 31).
  destruct (Z.leb_spec (2 ^ 31) p) as [H | H].
  - apply negb_true_iff, Z.eqb_neq. intros E.
    assert (Hb : Z.testbit (Z.land p (2 ^ 31)) 31 = false) by (by rewrite E, Z.bits_0).
    rewrite Z.land_spec, Z.pow2_bits_true, andb_true_r in Hb by lia.
    assert (Ht : Z.testbit p 31 = true); [| congruence].
    rewrite Z.testbit_true by lia. unfold is_u32 in Hp. Z.div_mod_to_equations; lia.
  - apply negb_false_iff, Z.eqb_eq. rewrite Z.land_comm. apply Z.bits_inj'. intros i Hi. rewrite Z.land_spec, Z.bits_0.
    destruct (decide (i = 31)) as [-> |]; [| by rewrite Z.pow2_bits_false by lia].
    rewrite (testbit_above 31 p) by (unfold is_u32 in Hp; lia). apply andb_false_r.
Qed.

Lemma stepper_get_position_ok d x st :
  pos_ok d x st -> in_range x -> stepper_get_position st = POSITION_BIAS + x.
Proof.
  unfold pos_ok, steps_left, in_range, stepper_get_position, POSITION_BIAS. intros H Hx.
  assert (E : (if HAVE_SINGLE_SCHEDULE && has (s_flags st) SF_SINGLE_SCHED
     then u32 (s_position st - s_count st) else u32 (s_position st - s_count st / 2))
     = u32 (if d then 0x40000000 + x else - (0x40000000 + x))).
  { by destruct (HAVE_SINGLE_SCHEDULE && has (s_flags st) SF_SINGLE_SCHED). }
  rewrite E, has_top by apply u32_range. clear E H.
  change (2 ^ 31) with 2147483648. change (2 ^ 30) with 1073741824 in Hx.
  destruct (Z.leb_spec 2147483648 (u32 (if d then 0x40000000 + x else - (0x40000000 + x)))); destruct d; cint_lia.
Qed.

(** Direction and position after a sequence of moves. *)
Fixpoint travel (d : bool) (x : Z) (ms : list stepper_move) : bool * Z :=
  match ms with
  | [] => (d, x)
  | m :: ms =>
      let d' := xorb d (has (sm_flags m) MF_DIR) in
      travel d' (if d' then x + sm_count m else x - sm_count m) ms
  end.

Lemma pos_ok_load d x st m mh :
  let single := HAVE_SINGLE_SCHEDULE && has (s_flags st) SF_SINGLE_SCHED in
  0 < sm_count m < 2 ^ 16 -> steps_left st = 0 -> pos_ok d x st ->
  pos_ok (xorb d (has (sm_flags m) MF_DIR)) x (loaded single st m mh).
Proof.
  intros single Hc Hz. unfold pos_ok. rewrite Hz, Z.sub_0_r.
  assert (Hl : steps_left (loaded single st m mh) = sm_count m).
  { unfold steps_left, loaded. simpl. fold single. destruct single; [done |].
    rewrite u32_small by cint_lia. rewrite Z.div_mul; lia. }
  rewrite Hl. unfold loaded. simpl s_position. unfold POSITION_BIAS.
  destruct (has (sm_flags m) MF_DIR), d; cbn [xorb]; cint_lia.
Qed.

(** *** A run of events *)

(** [n] events of a stepper: the time each was scheduled for and what it
    returned. *)
Fixpoint stepper_events (ev : Z -> FW Z) (n : nat) (oid : Z) : FW (list (Z * Z)) :=
  match n with
  | O => mret []
  | S n =>
      t ← tm_get (stepper_timer oid);
      r ← ev oid;
      rest ← stepper_events ev n oid;
      mret ((t_waketime t, r) :: rest)
  end.

Definition steps_of (ms : list stepper_move) : nat := foldr (fun m n => (Z.to_nat (sm_count m) + n)%nat) O ms.

Lemma log_pin_run e s : log_pin e s = (Ok tt, s <| m_hw ::= upd pin_log (cons e) |>).
Proof. done. Qed.

(** One event of the single-scheduled stepper in the middle of a move. *)
Lemma edge_tick oid s st w l ms :
  stepping oid s st w l ms -> 1 < s_count st < 2 ^ 32 ->
  exists s', stepper_event_edge oid s = (Ok SF_RESCHEDULE, s')
    /\ stepping oid s' (st <| s_count := s_count st - 1 |> <| s_interval := u32 (s_interval st + s_add st) |>)
         (u32 (w + s_interval st)) l ms.
Proof.
  intros [Hv Hw Hq Hm Hnd] Hc. pose proof (wk_some_lookup _ _ _ Hw) as HT.
  unfold stepper_event_edge, gpio_out_toggle_noirq, add_waketime.
  rewrite (bind_ok _ _ _ _ _ (get_stepper_run _ _ _ Hv)), (bind_ok _ _ _ _ _ (log_pin_run _ s)). cbv zeta.
  rewrite (u32_small (s_count st - 1)) by cint_lia. unfold truth. rewrite (proj2 (Z.eqb_neq _ _)) by lia. cbn [negb].
  erewrite bind_ok by (eapply upd_stepper_run; rewrite obj_view_hw; exact Hv).
  erewrite bind_ok by (by apply tm_upd_run).
  erewrite bind_ok by (eapply upd_stepper_run; rewrite obj_view_sched; eapply obj_view_put; rewrite obj_view_hw; exact Hv).
  eexists. split; [reflexivity |]. split; try done.
  - eapply obj_view_put. rewrite obj_view_sched. eapply obj_view_put. rewrite obj_view_hw. exact Hv.
  - simpl. rewrite wk_alter. unfold wk in Hw. destruct (_ !! stepper_timer oid); [| done]. by injection Hw as <-.
Qed.

(** The last event of a move goes on with the queue. *)
Lemma edge_last oid s st w l ms :
  stepping oid s st w l ms -> s_count st = 1 ->
  exists s1, stepper_event_edge oid s = stepper_load_next oid s1 /\ stepping oid s1 st w l ms.
Proof.
  intros [Hv Hw Hq Hm Hnd] Hc. unfold stepper_event_edge, gpio_out_toggle_noirq.
  rewrite (bind_ok _ _ _ _ _ (get_stepper_run _ _ _ Hv)), (bind_ok _ _ _ _ _ (log_pin_run _ s)). cbv zeta.
  rewrite Hc. cbn. eexists. split; [reflexivity |]. by split.
Qed.

Lemma stepper_events_S ev n oid s w r s1 rest s2 :
  wk (timers (m_sched s)) (stepper_timer oid) = Some w -> ev oid s = (Ok r, s1) ->
  stepper_events ev n oid s1 = (Ok rest, s2) ->
  stepper_events ev (S n) oid s = (Ok ((w, r) :: rest), s2).
Proof.
  intros Hw Ev Er. cbn [stepper_events]. apply wk_lookup in Hw as (t & Ht & <-).
  by rewrite (bind_ok _ _ _ _ _ (tm_get_run _ _ _ Ht)), (bind_ok _ _ _ _ _ Ev), (bind_ok _ _ _ _ _ Er).
Qed.

(** The returns of a run: the timer is rescheduled until the last event. *)
Definition run_rets (n : nat) : list Z := replicate (pred n) SF_RESCHEDULE ++ [SF_DONE].

Lemma run_rets_S n : (0 < n)%nat -> SF_RESCHEDULE :: run_rets n = run_rets (S n).
Proof. destruct n; [lia | done]. Qed.

(** What is left of the move in progress: its steps [k] to [k + r]. *)
Definition in_move (st : stepper) (w t i a k : Z) (r : nat) : Prop :=
  w = u32 (step_time t i a k) /\ s_interval st = u32 (i + a * k) /\ s_add st = a
  /\ s_count st = Z.of_nat r + 1.

Lemma in_move_tick st w t i a k r :
  in_move st w t i a k (S r) ->
  in_move (st <| s_count := s_count st - 1 |> <| s_interval := u32 (s_interval st + s_add st) |>)
    (u32 (w + s_interval st)) t i a (k + 1) r.
Proof.
  intros (-> & Hi & Ha & Hc). unfold in_move. rewrite step_time_succ, Hi, Ha. simpl. split; [cint_lia |].
  split; [| split; [done | lia]]. replace (i + a * (k + 1)) with (i + a * k + a) by lia. cint_lia.
Qed.

Lemma in_move_load st m mh t :
  0 < sm_count m ->
  in_move (loaded true st m mh) (u32 (t + sm_interval m)) t (sm_interval m) (sm_add m) 1
    (pred (Z.to_nat (sm_count m))).
Proof.
  intros Hc. unfold in_move, step_time. change (1 * (1 - 1) / 2) with 0. simpl.
  split; [apply (f_equal u32); lia |]. split; [apply (f_equal u32); lia |]. split; [done | lia].
Qed.

Lemma plan_head t i a k r :
  (fun j => u32 (step_time t i a j)) <$> seqZ k (Z.of_nat (S r))
  = u32 (step_time t i a k) :: ((fun j => u32 (step_time t i a j)) <$> seqZ (k + 1) (Z.of_nat r)).
Proof.
  rewrite seqZ_cons by lia. rewrite fmap_cons.
  by replace (Z.pred (Z.of_nat (S r))) with (Z.of_nat r) by lia; replace (Z.succ k) with (k + 1) by lia.
Qed.

Lemma pos_ok_tick d x st :
  HAVE_SINGLE_SCHEDULE && has (s_flags st) SF_SINGLE_SCHED = true -> pos_ok d x st ->
  pos_ok d (if d then x + 1 else x - 1)
    (st <| s_count := s_count st - 1 |> <| s_interval := u32 (s_interval st + s_add st) |>).
Proof. unfold pos_ok, steps_left. simpl. intros ->. unfold POSITION_BIAS. destruct d; cint_lia. Qed.

Definition valid_moves (ms : list stepper_move) : Prop := Forall (fun m => 0 < sm_count m < 2 ^ 16) ms.

Lemma stepping_put_count oid s st w l ms :
  stepping oid s st w l ms ->
  stepping oid (put_obj oid (OStepper (st <| s_count := 0 |>)) s) (st <| s_count := 0 |>) w l ms.
Proof. intros [Hv Hw Hq Hm Hnd]. split; try done. by eapply obj_view_put. Qed.

Section Edge.
Context (oid : Z).
Hypothesis Hedge : HAVE_EDGE_OPTIMIZATION = true.

Lemma edge_single : HAVE_SINGLE_SCHEDULE = true /\ HAVE_AVR_OPTIMIZATION = false.
Proof.
  revert Hedge. unfold HAVE_EDGE_OPTIMIZATION, HAVE_SINGLE_SCHEDULE, HAVE_AVR_OPTIMIZATION.
  by destruct CONFIG_INLINE_STEPPER_HACK, CONFIG_HAVE_STEPPER_BOTH_EDGE, CONFIG_MACH_AVR.
Qed.

(** The run of the rest of a move and the moves behind it. *)
Definition edge_runs (ms : list stepper_move) (r : nat) : Prop :=
  forall l s st w t i a k d x,
  stepping oid s st w l ms -> has (s_flags st) SF_SINGLE_SCHED = true -> valid_moves ms ->
  in_move st w t i a k r -> Z.of_nat r < 2 ^ 31 -> pos_ok d x st ->
  let n := (S r + steps_of ms)%nat in
  let q := travel d (if d then x + Z.of_nat (S r) else x - Z.of_nat (S r)) ms in
  exists evs s' st' w', stepper_events stepper_event_edge n oid s = (Ok evs, s')
    /\ evs.*1 = ((fun j => u32 (step_time t i a j)) <$> seqZ k (Z.of_nat (S r)))
                 ++ plan (step_time t i a (k + Z.of_nat r)) ms
    /\ evs.*2 = run_rets n
    /\ stepping oid s' st' w' [] [] /\ s_count st' = 0 /\ pos_ok q.1 q.2 st'.

Lemma edge_runs_tick ms r : edge_runs ms r -> edge_runs ms (S r).
Proof.
  intros IH l s st w t i a k d x Hst Hf Hval Hin Hr Hpos n q. pose proof Hin as (Hw & _ & _ & Hc).
  destruct edge_single as [Hsi _].
  destruct (edge_tick oid s st w l ms Hst) as (s1 & E1 & Hst1); [lia |].
  edestruct (IH l s1) as (evs & s' & st' & w' & Ev & Et & Er & Hs' & Hc' & Hp');
    [exact Hst1 | done | done | by apply in_move_tick | lia | apply pos_ok_tick; [by rewrite Hsi, Hf | exact Hpos] |].
  exists ((w, SF_RESCHEDULE) :: evs), s', st', w'.
  split; [eapply stepper_events_S; [apply (sp_wake _ _ _ _ _ _ Hst) | exact E1 | exact Ev] |].
  rewrite plan_head, !fmap_cons, Et, Er, Hw. split.
  { simpl. replace (k + 1 + Z.of_nat r) with (k + Z.of_nat (S r)) by lia. done. }
  split; [by rewrite run_rets_S by lia |]. split; [done |]. split; [done |].
  unfold q. destruct d; [replace (x + Z.of_nat (S (S r))) with (x + 1 + Z.of_nat (S r)) by lia
    | replace (x - Z.of_nat (S (S r))) with (x - 1 - Z.of_nat (S r)) by lia]; done.
Qed.

Lemma pos_ok_last d x st :
  HAVE_SINGLE_SCHEDULE && has (s_flags st) SF_SINGLE_SCHED = true -> s_count st = 1 -> pos_ok d x st ->
  pos_ok d (if d then x + 1 else x - 1) (st <| s_count := 0 |>).
Proof. unfold pos_ok, steps_left. simpl. intros -> ->. unfold POSITION_BIAS. destruct d; cint_lia. Qed.

Lemma edge_runs_done : edge_runs [] 0.
Proof.
  intros l s st w t i a k d x Hst Hf Hval Hin Hr Hpos n q. pose proof Hin as (Hw & _ & _ & Hc).
  destruct edge_single as [Hsi _]. simpl in Hc.
  assert (l = []) as -> by (destruct Hst as [_ _ _ Hm _]; by apply Forall2_nil_inv_r in Hm).
  destruct (edge_last oid s st w [] [] Hst Hc) as (s1 & E1 & Hst1).
  rewrite (stepper_load_next_done oid s1 st w Hst1) in E1.
  eexists [(w, SF_DONE)], _, _, w.
  split; [eapply stepper_events_S; [apply (sp_wake _ _ _ _ _ _ Hst) | exact E1 | reflexivity] |].
  split; [simpl; by rewrite Hw |]. split; [done |].
  split; [by apply stepping_put_count |]. split; [done |]. apply pos_ok_last; [by rewrite Hsi, Hf | done | done].
Qed.

Lemma edge_runs_load m ms : (forall r, edge_runs ms r) -> edge_runs (m :: ms) 0.
Proof.
  intros IH l s st w t i a k d x Hst Hf Hval Hin Hr Hpos n q. pose proof Hin as (Hw & _ & _ & Hc). simpl in Hc.
  destruct edge_single as [Hsi Havr]. apply Forall_cons in Hval as [Hcnt Hval].
  assert (exists nd l', l = nd :: l') as (nd & l' & ->).
  { destruct Hst as [_ _ _ Hm _]. inversion Hm; subst; eauto. }
  destruct (edge_last oid s st w _ _ Hst Hc) as (s1 & E1 & Hst1).
  destruct (stepper_load_next_ok oid s1 st w nd l' m ms Hst1 Havr) as (s2 & mh & E2 & Hst2 & _).
  rewrite Hsi, Hf in Hst2. cbn [andb load_wake] in Hst2. rewrite E2 in E1.
  assert (Hp2 : pos_ok (xorb d (has (sm_flags m) MF_DIR)) (if d then x + 1 else x - 1) (loaded true st m mh)).
  { pose proof (pos_ok_last d x st) as Hl. rewrite Hsi, Hf in Hl. specialize (Hl eq_refl Hc Hpos).
    eapply (pos_ok_load d _ (st <| s_count := 0 |>) m mh) in Hl; [| done | unfold steps_left; simpl; by rewrite Hsi, Hf].
    simpl in Hl. by rewrite Hsi, Hf in Hl. }
  edestruct (IH (pred (Z.to_nat (sm_count m))) l' s2) as (evs & s' & st' & w' & Ev & Et & Er & Hs' & Hc' & Hp');
    [exact Hst2 | done | done | | lia | exact Hp2 |].
  { rewrite Hw, u32_add_l. apply in_move_load. lia. }
  replace (S (pred (Z.to_nat (sm_count m)))) with (Z.to_nat (sm_count m)) in * by lia.
  rewrite !Z2Nat.id in * by lia.
  exists ((w, SF_RESCHEDULE) :: evs), s', st', w'.
  split; [eapply stepper_events_S; [apply (sp_wake _ _ _ _ _ _ Hst) | exact E1 | exact Ev] |].
  rewrite !fmap_cons, Et, Er, Hw. rewrite Z.add_0_r.
  replace (1 + Z.of_nat (pred (Z.to_nat (sm_count m)))) with (sm_count m) by lia.
  split; [done |]. split; [apply run_rets_S; lia |]. split; [done |]. split; [done |].
  unfold q. simpl. exact Hp'.
Qed.

Lemma edge_runs_all ms r : edge_runs ms r.
Proof.
  revert r. induction ms as [| m ms IHms]; induction r as [| r IHr];
    auto using edge_runs_done, edge_runs_tick, edge_runs_load.
Qed.


End Edge.

(** *** The double-scheduled stepper *)

(** A step and its unstep event: the planned time, the scheduled time and the
    final return. *)
Fixpoint stepper_pairs (n : nat) (oid : Z) : FW (list (Z * Z * Z)) :=
  match n with
  | O => mret []
  | S n =>
      t ← tm_get (stepper_timer oid);
      st ← get_stepper oid;
      _ ← stepper_event_full oid;
      r ← stepper_event_full oid;
      rest ← stepper_pairs n oid;
      mret ((s_next_step_time st, t_waketime t, r) :: rest)
  end.

(** A step is never scheduled before its planned time. *)
Definition not_early (e : Z * Z * Z) : Prop :=
  let '(planned, sched, _) := e in sched = planned \/ timer_is_before planned sched = true.

Lemma odd_bit c : 0 <= c -> has (2 * c + 1) 1 = true /\ has (2 * c) 1 = false.
Proof.
  intros Hc. unfold has, truth.
  assert (E : forall x, Z.land x 1 = x mod 2) by (intros x; apply (Z.land_ones x 1); lia). rewrite !E.
  split; [replace ((2 * c + 1) mod 2) with 1 by (Z.div_mod_to_equations; lia)
    | replace ((2 * c) mod 2) with 0 by (Z.div_mod_to_equations; lia)]; done.
Qed.

Section Full.
Context (oid : Z).
Hypothesis Havr : HAVE_AVR_OPTIMIZATION = false.

Lemma stepping_misc s st w l ms g :
  stepping oid s st w l ms -> stepping oid (s <| m_hw ::= g |>) st w l ms.
Proof. intros [Hv Hw Hq Hm Hnd]. by split. Qed.

Lemma stepping_upd s st st' w l ms :
  stepping oid s st w l ms -> s_mq st' = s_mq st ->
  stepping oid (put_obj oid (OStepper st') s) st' w l ms.
Proof. intros [Hv Hw Hq Hm Hnd] Hmq. split; try done; [by eapply obj_view_put | by rewrite Hmq]. Qed.

Lemma stepping_wake s st w l ms w' :
  stepping oid s st w l ms ->
  exists s', set_waketime (stepper_timer oid) w' s = (Ok tt, s') /\ stepping oid s' st w' l ms.
Proof.
  intros [Hv Hw Hq Hm Hnd]. pose proof (wk_some_lookup _ _ _ Hw) as HT. unfold set_waketime.
  rewrite tm_upd_run by done. eexists. split; [reflexivity |]. split; try done. by apply wk_set_wake.
Qed.

Lemma reschedule_min_ok s st w l ms w' :
  stepping oid s st w l ms ->
  exists s', reschedule_min oid w' s = (Ok SF_RESCHEDULE, s') /\ stepping oid s' st w' l ms.
Proof.
  intros H. unfold reschedule_min. destruct (stepping_wake s st w l ms w' H) as (s' & E & H').
  rewrite (bind_ok _ _ _ _ _ E). eauto.
Qed.

(** Up to the first test every event does the same. *)
Lemma full_prefix s st w l ms c :
  stepping oid s st w l ms -> s_count st = c + 1 -> 0 <= c < 2 ^ 32 - 1 ->
  exists s1 min, stepping oid s1 (st <| s_count := c |>) w l ms /\
    stepper_event_full oid s =
      (if has c 1 then reschedule_min oid min
       else if truth c
       then
         upd_stepper oid (fun e => e <| s_next_step_time ::= fun t => u32 (t + s_interval e) |>) ;;
         upd_stepper oid (fun e => e <| s_interval ::= fun i => u32 (i + s_add e) |>) ;;
         e ← get_stepper oid;
         if timer_is_before (s_next_step_time e) min then reschedule_min oid min
         else set_waketime (stepper_timer oid) (s_next_step_time e) ;; mret SF_RESCHEDULE
       else
         ret ← stepper_load_next oid;
         t ← tm_get (stepper_timer oid);
         if (ret =? SF_DONE) || negb (timer_is_before (t_waketime t) min) then mret ret
         else
           let diff := s32 (t_waketime t - min) in
           if diff <? s32 (- timer_from_us 1000) then shutdown "Stepper too far in past"
           else reschedule_min oid min) s1.
Proof.
  intros Hst Hc Hr. unfold stepper_event_full, gpio_out_toggle_noirq.
  rewrite (bind_ok _ _ _ _ _ (get_stepper_run _ _ _ (sp_view _ _ _ _ _ _ Hst))), (bind_ok _ _ _ _ _ (log_pin_run _ s)).
  rewrite (bind_ok _ _ _ _ _ (timer_read_time_run _)). cbv zeta.
  set (s1 := upd m_hw (upd ticks S) _). set (min := u32 _).
  assert (Hs1 : stepping oid s1 st w l ms) by (by do 2 apply stepping_misc).
  erewrite bind_ok by (eapply upd_stepper_run, (sp_view _ _ _ _ _ _ Hs1)).
  assert (Hs2 : stepping oid (put_obj oid (OStepper (st <| s_count := c |>)) s1) (st <| s_count := c |>) w l ms)
    by (by eapply stepping_upd).
  replace (st <| s_count ::= fun c0 => u32 (c0 - 1) |>) with (st <| s_count := c |>).
  2: { destruct st; simpl in *. f_equal. subst. replace (c + 1 - 1) with c by lia. rewrite u32_small; [done | cint_lia]. }
  rewrite (bind_ok _ _ _ _ _ (get_stepper_run _ _ _ (sp_view _ _ _ _ _ _ Hs2))).
  eexists _, min. split; [exact Hs2 |]. done.
Qed.

Lemma full_step s st w l ms c :
  stepping oid s st w l ms -> s_count st = 2 * c + 2 -> 0 <= c < 2 ^ 30 ->
  exists s1 w1, stepper_event_full oid s = (Ok SF_RESCHEDULE, s1)
    /\ stepping oid s1 (st <| s_count := 2 * c + 1 |>) w1 l ms.
Proof.
  intros Hst Hc Hr. destruct (full_prefix s st w l ms (2 * c + 1) Hst) as (s1 & min & Hs1 & E); [lia | lia |].
  destruct (odd_bit c) as [-> _] in E; [lia |]. rewrite E.
  destruct (reschedule_min_ok s1 _ w l ms min Hs1) as (s' & E' & H'). eauto.
Qed.

(** The stepper after a step and its unstep event within a move. *)
Definition stepped (st : stepper) : stepper :=
  st <| s_count := s_count st - 2 |> <| s_next_step_time := u32 (s_next_step_time st + s_interval st) |>
     <| s_interval := u32 (s_interval st + s_add st) |>.

Lemma full_unstep s st w l ms c :
  stepping oid s (st <| s_count := 2 * c + 3 |>) w l ms -> s_count st = 2 * c + 4 -> 0 <= c < 2 ^ 30 ->
  exists s1 w1, stepper_event_full oid s = (Ok SF_RESCHEDULE, s1) /\ stepping oid s1 (stepped st) w1 l ms
    /\ (w1 = s_next_step_time (stepped st) \/ timer_is_before (s_next_step_time (stepped st)) w1 = true).
Proof.
  intros Hst Hc Hr.
  destruct (full_prefix s _ w l ms (2 * (c + 1)) Hst) as (s1 & min & Hs1 & E); [simpl; lia | lia |].
  destruct (odd_bit (c + 1)) as [_ Eb]; [lia |]. rewrite Eb in E. rewrite E. clear E Eb.
  unfold truth. rewrite (proj2 (Z.eqb_neq _ _)) by lia. cbn [negb].
  erewrite bind_ok by (eapply upd_stepper_run, (sp_view _ _ _ _ _ _ Hs1)).
  erewrite bind_ok by (eapply upd_stepper_run, obj_view_put, (sp_view _ _ _ _ _ _ Hs1)).
  rewrite put_obj_put. set (st2 := upd s_interval _ _).
  assert (Est : st2 = stepped st).
  { unfold st2, stepped. rewrite Hc. destruct st; simpl. f_equal; lia. }
  assert (Hs2 : stepping oid (put_obj oid (OStepper st2) s1) st2 w l ms) by (by eapply stepping_upd).
  rewrite (bind_ok _ _ _ _ _ (get_stepper_run _ _ _ (sp_view _ _ _ _ _ _ Hs2))). rewrite Est in *.
  destruct (timer_is_before _ min) eqn:Eb.
  - destruct (reschedule_min_ok _ _ w l ms min Hs2) as (s' & E' & H'). exists s', min. auto.
  - destruct (stepping_wake _ _ w l ms (s_next_step_time (stepped st)) Hs2) as (s' & E' & H').
    rewrite (bind_ok _ _ _ _ _ E'). exists s', (s_next_step_time (stepped st)). auto.
Qed.

Lemma full_unstep_last s st w l ms :
  stepping oid s (st <| s_count := 1 |>) w l ms -> HAVE_SINGLE_SCHEDULE && has (s_flags st) SF_SINGLE_SCHED = false ->
  match l, ms with
  | [], [] => exists s1 w1, stepper_event_full oid s = (Ok SF_DONE, s1) /\ stepping oid s1 (st <| s_count := 0 |>) w1 [] []
  | n :: l, m :: ms =>
      (exists s1, stepper_event_full oid s = (Shut "Stepper too far in past", s1)) \/
      (exists s1 w1 mh, stepper_event_full oid s = (Ok SF_RESCHEDULE, s1)
         /\ let st1 := loaded false (st <| s_count := 0 |>) m mh in
            stepping oid s1 st1 w1 l ms
            /\ (w1 = s_next_step_time st1 \/ timer_is_before (s_next_step_time st1) w1 = true))
  | _, _ => False
  end.
Proof.
  intros Hst Hns. destruct (full_prefix s _ w l ms 0 Hst) as (s1 & min & Hs1 & E); [done | lia |]. simpl in Hs1.
  change (has 0 1) with false in E. change (truth 0) with false in E. cbv iota in E. rewrite E. clear E.
  pose proof (sp_moves _ _ _ _ _ _ Hs1) as Hm. destruct Hm as [| n m l ms _ _].
  - rewrite (bind_ok _ _ _ _ _ (stepper_load_next_done oid s1 _ w Hs1)).
    pose proof (stepping_put_count oid s1 _ w [] [] Hs1) as Hs2. simpl in Hs2.
    pose proof (sp_wake _ _ _ _ _ _ Hs2) as (t & Ht & _)%wk_lookup.
    erewrite bind_ok by (apply tm_get_run; exact Ht). change (SF_DONE =? SF_DONE) with true. cbn [orb].
    eexists _, w. split; [reflexivity | exact Hs2].
  - destruct (stepper_load_next_ok oid s1 _ w n l m ms Hs1 Havr) as (s2 & mh & E2 & Hs2 & _).
    simpl in Hs2. rewrite Hns in Hs2. rewrite (bind_ok _ _ _ _ _ E2).
    pose proof (sp_wake _ _ _ _ _ _ Hs2) as (t & Ht & Hwt)%wk_lookup.
    erewrite bind_ok by (apply tm_get_run; exact Ht). rewrite Hwt. change (SF_RESCHEDULE =? SF_DONE) with false. cbn [orb].
    destruct (timer_is_before _ min) eqn:Eb; cbn [negb].
    + cbv zeta. destruct (_ <? _); [left; by eexists |]. right.
      destruct (reschedule_min_ok _ _ _ l ms min Hs2) as (s3 & E3 & H3). exists s3, min, mh. auto.
    + right. eexists s2, _, mh. split; [reflexivity |]. split; [exact Hs2 |]. by left.
Qed.

(** What is left of the move in progress, in pairs of events. *)
Definition in_fmove (st : stepper) (t i a k : Z) (r : nat) : Prop :=
  s_next_step_time st = u32 (step_time t i a k) /\ s_interval st = u32 (i + a * k) /\ s_add st = a
  /\ s_count st = 2 * Z.of_nat r + 2.

Definition on_time (st : stepper) (w : Z) : Prop :=
  w = s_next_step_time st \/ timer_is_before (s_next_step_time st) w = true.

Lemma in_fmove_step st t i a k r : in_fmove st t i a k (S r) -> in_fmove (stepped st) t i a (k + 1) r.
Proof.
  intros (Hn & Hi & Ha & Hc). unfold in_fmove, stepped. simpl. rewrite step_time_succ, Hn, Hi, Ha.
  split; [cint_lia |]. split; [| split; [done | lia]]. replace (i + a * (k + 1)) with (i + a * k + a) by lia. cint_lia.
Qed.

Lemma in_fmove_load st m mh t :
  0 < sm_count m < 2 ^ 16 -> s_next_step_time st = u32 t ->
  in_fmove (loaded false st m mh) t (sm_interval m) (sm_add m) 1 (pred (Z.to_nat (sm_count m))).
Proof.
  intros Hc Hn. unfold in_fmove, step_time. change (1 * (1 - 1) / 2) with 0. simpl. rewrite Hn, u32_add_l.
  split; [apply (f_equal u32); lia |]. split; [apply (f_equal u32); lia |]. split; [done |].
  rewrite u32_small by cint_lia. lia.
Qed.

Lemma pos_ok_stepped d x st :
  HAVE_SINGLE_SCHEDULE && has (s_flags st) SF_SINGLE_SCHED = false -> pos_ok d x st ->
  pos_ok d (if d then x + 1 else x - 1) (stepped st).
Proof.
  unfold pos_ok, steps_left, stepped. simpl. intros ->. unfold POSITION_BIAS.
  replace ((s_count st - 2) / 2) with (s_count st / 2 - 1) by (Z.div_mod_to_equations; lia). destruct d; cint_lia.
Qed.

Lemma pos_ok_last2 d x st :
  HAVE_SINGLE_SCHEDULE && has (s_flags st) SF_SINGLE_SCHED = false -> s_count st = 2 -> pos_ok d x st ->
  pos_ok d (if d then x + 1 else x - 1) (st <| s_count := 0 |>).
Proof.
  unfold pos_ok, steps_left. simpl. intros -> ->. change (2 / 2) with 1. change (0 / 2) with 0.
  unfold POSITION_BIAS. destruct d; cint_lia.
Qed.

Definition too_late {A} (r : res A * mcu) : Prop := exists s', r = (Shut "Stepper too far in past", s').

Definition full_runs (ms : list stepper_move) (r : nat) : Prop :=
  forall l s st w t i a k d x,
  stepping oid s st w l ms -> HAVE_SINGLE_SCHEDULE && has (s_flags st) SF_SINGLE_SCHED = false -> valid_moves ms ->
  in_fmove st t i a k r -> Z.of_nat r < 2 ^ 16 -> pos_ok d x st -> on_time st w ->
  let n := (S r + steps_of ms)%nat in
  let q := travel d (if d then x + Z.of_nat (S r) else x - Z.of_nat (S r)) ms in
  too_late (stepper_pairs n oid s) \/
  exists evs s' st' w', stepper_pairs n oid s = (Ok evs, s')
    /\ evs.*1.*1 = ((fun j => u32 (step_time t i a j)) <$> seqZ k (Z.of_nat (S r)))
                 ++ plan (step_time t i a (k + Z.of_nat r)) ms
    /\ evs.*2 = run_rets n /\ Forall not_early evs
    /\ stepping oid s' st' w' [] [] /\ s_count st' = 0 /\ pos_ok q.1 q.2 st'.

Lemma stepper_pairs_S n s st w l ms r1 s1 r s2 :
  stepping oid s st w l ms -> stepper_event_full oid s = (Ok r1, s1) -> stepper_event_full oid s1 = (Ok r, s2) ->
  stepper_pairs (S n) oid s = (rest ← stepper_pairs n oid; mret ((s_next_step_time st, w, r) :: rest)) s2.
Proof.
  intros Hst E1 E2. cbn [stepper_pairs]. pose proof (sp_wake _ _ _ _ _ _ Hst) as (t & Ht & <-)%wk_lookup.
  by rewrite (bind_ok _ _ _ _ _ (tm_get_run _ _ _ Ht)),
    (bind_ok _ _ _ _ _ (get_stepper_run _ _ _ (sp_view _ _ _ _ _ _ Hst))), (bind_ok _ _ _ _ _ E1), (bind_ok _ _ _ _ _ E2).
Qed.

Lemma too_late_bind {A C} (m : FW A) (k : A -> FW C) s : too_late (m s) -> too_late ((m ≫= k) s).
Proof. intros (s' & E). exists s'. by apply bind_shut. Qed.

Lemma full_runs_tick ms r : full_runs ms r -> full_runs ms (S r).
Proof.
  intros IH l s st w t i a k d x Hst Hf Hval Hin Hr Hpos Hw n q. pose proof Hin as (Hn & _ & _ & Hc).
  destruct (full_step s st w l ms (Z.of_nat (S r)) Hst) as (s1 & w1 & E1 & Hs1); [lia | lia |].
  destruct (full_unstep s1 st w1 l ms (Z.of_nat r)) as (s2 & w2 & E2 & Hs2 & Hw2);
    [by replace (2 * Z.of_nat r + 3) with (2 * Z.of_nat (S r) + 1) by lia | lia | lia |].
  subst n. cbn [Nat.add]. rewrite (stepper_pairs_S _ s st w l ms _ s1 _ s2 Hst E1 E2).
  edestruct (IH l s2) as [Hx | (evs & s' & st' & w' & Ev & Et & Er & Hne & Hs' & Hc' & Hp')];
    [exact Hs2 | done | done | by apply in_fmove_step | lia | by apply pos_ok_stepped | done | |].
  { left. by apply too_late_bind. }
  right. rewrite (bind_ok _ _ _ _ _ Ev). eexists _, s', st', w'. split; [reflexivity |].
  rewrite plan_head, !fmap_cons, Et, Er. cbn [fst snd]. rewrite Hn. split.
  { simpl. replace (k + 1 + Z.of_nat r) with (k + Z.of_nat (S r)) by lia. done. }
  split; [by rewrite run_rets_S by lia |]. split; [constructor; [by rewrite <- Hn | done] |].
  split; [done |]. split; [done |].
  unfold q. destruct d; [replace (x + Z.of_nat (S (S r))) with (x + 1 + Z.of_nat (S r)) by lia
    | replace (x - Z.of_nat (S (S r))) with (x - 1 - Z.of_nat (S r)) by lia]; done.
Qed.

Lemma full_runs_done : full_runs [] 0.
Proof.
  intros l s st w t i a k d x Hst Hf Hval Hin Hr Hpos Hw n q. pose proof Hin as (Hn & _ & _ & Hc). simpl in Hc.
  assert (l = []) as -> by (destruct Hst as [_ _ _ Hm _]; by apply Forall2_nil_inv_r in Hm).
  destruct (full_step s st w [] [] 0 Hst) as (s1 & w1 & E1 & Hs1); [lia | lia |].
  destruct (full_unstep_last s1 st w1 [] [] Hs1 Hf) as (s2 & w2 & E2 & Hs2).
  right. subst n. cbn [Nat.add]. rewrite (stepper_pairs_S _ s st w [] [] _ s1 _ s2 Hst E1 E2).
  eexists _, s2, _, w2. split; [reflexivity |]. split; [simpl; by rewrite Hn |]. split; [done |].
  split; [by constructor |]. split; [exact Hs2 |]. split; [done |]. by apply pos_ok_last2.
Qed.

Lemma full_runs_load m ms : (forall r, full_runs ms r) -> full_runs (m :: ms) 0.
Proof.
  intros IH l s st w t i a k d x Hst Hf Hval Hin Hr Hpos Hw n q. pose proof Hin as (Hn & _ & _ & Hc). simpl in Hc.
  apply Forall_cons in Hval as [Hcnt Hval].
  assert (exists nd l', l = nd :: l') as (nd & l' & ->).
  { destruct Hst as [_ _ _ Hm _]. inversion Hm; subst; eauto. }
  destruct (full_step s st w _ _ 0 Hst) as (s1 & w1 & E1 & Hs1); [lia | lia |].
  destruct (full_unstep_last s1 st w1 _ _ Hs1 Hf) as [(s2 & E2) | (s2 & w2 & mh & E2 & Hs2 & Hw2)].
  { left. exists s2. subst n. cbn [Nat.add stepper_pairs]. pose proof (sp_wake _ _ _ _ _ _ Hst) as (tm & Ht & _)%wk_lookup.
    rewrite (bind_ok _ _ _ _ _ (tm_get_run _ _ _ Ht)), (bind_ok _ _ _ _ _ (get_stepper_run _ _ _ (sp_view _ _ _ _ _ _ Hst))).
    rewrite (bind_ok _ _ _ _ _ E1). by apply bind_shut. }
  assert (Hp2 : pos_ok (xorb d (has (sm_flags m) MF_DIR)) (if d then x + 1 else x - 1) (loaded false (st <| s_count := 0 |>) m mh)).
  { pose proof (pos_ok_last2 d x st Hf Hc Hpos) as Hl.
    eapply (pos_ok_load d _ (st <| s_count := 0 |>) m mh) in Hl; [| done | unfold steps_left; simpl; by rewrite Hf].
    simpl in Hl. by rewrite Hf in Hl. }
  subst n. cbn [Nat.add]. rewrite (stepper_pairs_S _ s st w _ _ _ s1 _ s2 Hst E1 E2).
  change (steps_of (m :: ms)) with (Z.to_nat (sm_count m) + steps_of ms)%nat.
  edestruct (IH (pred (Z.to_nat (sm_count m))) l' s2) as [Hx | (evs & s' & st' & w' & Ev & Et & Er & Hne & Hs' & Hc' & Hp')];
    [exact Hs2 | done | done | by apply in_fmove_load | lia | exact Hp2 | done | |];
    replace (S (pred (Z.to_nat (sm_count m)))) with (Z.to_nat (sm_count m)) in * by lia.
  { left. by apply too_late_bind. }
  rewrite !Z2Nat.id in * by lia. right. rewrite (bind_ok _ _ _ _ _ Ev). eexists _, s', st', w'. split; [reflexivity |].
  rewrite !fmap_cons, Et, Er. cbn [fst snd]. rewrite Hn, Z.add_0_r.
  replace (1 + Z.of_nat (pred (Z.to_nat (sm_count m)))) with (sm_count m) by lia.
  split; [done |]. split; [apply run_rets_S; lia |]. split; [constructor; [by rewrite <- Hn | done] |].
  split; [done |]. split; [done |]. unfold q. simpl. exact Hp'.
Qed.

Lemma full_runs_all ms r : full_runs ms r.
Proof.
  revert r. induction ms as [| m ms IHms]; induction r as [| r IHr];
    auto using full_runs_done, full_runs_tick, full_runs_load.
Qed.


End Full.

(** *** Stopping *)

Lemma get_stepper_keeps {C} (f : mcu -> C) oid : keeps f (get_stepper oid).
Proof. unfold get_stepper, obj_get, oid_entry, base. keeps_tac. Qed.

(** The free list together with the nodes a stepper holds. *)
Definition holding (s : mcu) (l free : list Z) : Prop :=
  seg (nn (nodes (m_base s))) free None /\ move_free_list (m_base s) = hd_or free None /\ NoDup (l ++ free).

(** What stopping the stepper [oid] with the queue [l] leaves alone. *)
Record stop_frame (oid : Z) (l : list Z) (s s' : mcu) : Prop := {
  sf_view : forall o, 0 <= o -> o <> oid -> obj_view s' o = obj_view s o;
  sf_nodes : forall q, q ∉ l -> nodes (m_base s') !! q = nodes (m_base s) !! q;
  sf_wk : forall p, p <> DeletedTimer -> p <> stepper_timer oid ->
    wk (timers (m_sched s')) p = wk (timers (m_sched s)) p;
  sf_wake : m_wake s' = m_wake s;
}.

Lemma stop_frame_trans oid l1 l2 s s1 s2 :
  stop_frame oid l1 s s1 -> stop_frame oid l2 s1 s2 -> stop_frame oid (l1 ++ l2) s s2.
Proof.
  intros [V1 N1 W1 A1] [V2 N2 W2 A2]. split.
  - intros o Ho Hne. by rewrite V2, V1.
  - intros q Hq. rewrite elem_of_app in Hq. rewrite N2, N1; tauto.
  - intros p Hp Hne. by rewrite W2, W1.
  - by rewrite A2.
Qed.

Lemma stepper_drain_ok oid fuel s st w l ms free :
  0 <= oid -> stepping oid s st w l ms -> holding s l free -> (length l < fuel)%nat ->
  exists s' st', stepper_drain fuel oid s = (Ok tt, s') /\ stepping oid s' st' w [] []
    /\ st' = st <| s_mq := s_mq st' |> /\ holding s' [] (rev l ++ free) /\ m_sched s' = m_sched s
    /\ stop_frame oid l s s'.
Proof.
  intros Ho. induction l as [| n l IH] in fuel, s, st, ms, free |- *; intros Hst (Hfs & Hfl & Hnd) Hfu;
    (destruct fuel as [| fuel]; [simpl in Hfu; lia |]); cbn [stepper_drain];
    rewrite (bind_ok _ _ _ _ _ (get_stepper_run _ _ _ (sp_view _ _ _ _ _ _ Hst)));
    destruct (sp_queue _ _ _ _ _ _ Hst) as (Hseg & Hf & Hl); unfold move_queue_empty; rewrite Hf.
  - simpl. exists s, st. split; [done |]. assert (ms = []) as ->.
    { destruct Hst as [_ _ _ Hm _]. by apply Forall2_nil_inv_l in Hm. }
    split; [done |]. split; [by destruct st |]. done.
  - cbn [hd_or]. rewrite bool_decide_eq_false_2 by done.
    destruct (move_queue_pop_ok s (s_mq st) n l (sp_queue _ _ _ _ _ _ Hst)) as (mh & Ep & Hq').
    rewrite (bind_ok _ _ _ _ _ Ep). cbv beta iota.
    erewrite bind_ok by (eapply upd_stepper_run, (sp_view _ _ _ _ _ _ Hst)).
    pose proof (sp_moves _ _ _ _ _ _ Hst) as Hm. inversion Hm as [| ? m ? ms' (nd & Hn & _) Hm']; subst.
    simpl in Hnd. apply NoDup_cons in Hnd as [Hnf Hnd]. rewrite elem_of_app in Hnf.
    edestruct (move_free_ok (put_obj oid (OStepper (st <| s_mq := mh |>)) s) n) as
      (s2 & E2 & F2 & Nn2 & Hfr & _ & Hnode & O2 & S2 & H2); [simpl; rewrite Hn; by eexists |].
    rewrite (bind_ok _ _ _ _ _ E2). kept m_wake E2 Ew.
    destruct (IH fuel s2 (st <| s_mq := mh |>) ms' (n :: free)) as (s' & st' & E & Hs' & Est & Hh & Hsc & Hfrm).
    + split.
      * unfold obj_view. rewrite O2. by apply (obj_view_put oid _ _ _ (sp_view _ _ _ _ _ _ Hst)).
      * rewrite S2. apply (sp_wake _ _ _ _ _ _ Hst).
      * eapply mq_rep_frame; [| exact Hq']. intros q Hql. apply Hfr. intros ->. tauto.
      * eapply nodes_hold_frame; [| exact Hm']. intros q Hql. apply Hnode. intros ->. tauto.
      * by apply NoDup_app in Hnd as (? & _).
    + split; [| split; [done |]].
      * split; [by rewrite Nn2, <- Hfl |]. eapply seg_frame; [| exact Hfs]. intros q Hq. apply Hfr. intros ->. tauto.
      * apply NoDup_app in Hnd as (Hnl & Hx & Hnfr). apply NoDup_app. split; [done |].
        split; [intros q Hq [-> | Hqf]%elem_of_cons; [tauto | by apply (Hx q)] | apply NoDup_cons; tauto].
    + simpl in Hfu. lia.
    + exists s', st'. split; [exact E |]. split; [done |]. split; [by rewrite Est; destruct st |].
      split; [simpl; by rewrite <- app_assoc |]. split; [by rewrite Hsc, S2 |].
      apply (stop_frame_trans oid [n] l s s2 s'); [split |]; [.. | done].
      * intros o Ho' Hne. unfold obj_view. rewrite O2. by apply (obj_view_put_ne oid).
      * intros q Hq. rewrite list_elem_of_singleton in Hq. by apply Hnode.
      * intros p Hp _. by rewrite S2.
      * by rewrite Ew.
Qed.

(** The stepper after [stepper_halt]. *)
Definition halted (st : stepper) : stepper :=
  st <| s_next_step_time := 0 |> <| s_position := u32 (- stepper_get_position st) |> <| s_count := 0 |>
     <| s_flags := Z.lor (Z.land (s_flags st) (Z.lor SF_INVERT_STEP SF_SINGLE_SCHED)) SF_NEED_RESET |>.

Lemma stepper_halt_run oid st s :
  0 <= oid -> obj_view s oid = Some (OStepper st) -> is_Some (timers (m_sched s) !! stepper_timer oid) ->
  exists s', stepper_halt oid s = (Ok tt, s') /\ obj_view s' oid = Some (OStepper (halted st))
    /\ m_sched s' = (m_sched s) <| timers ::= alter (fun r => r <| t_waketime := 0 |>) (stepper_timer oid) |>
    /\ nodes (m_base s') = nodes (m_base s) /\ move_free_list (m_base s') = move_free_list (m_base s)
    /\ stop_frame oid [] s s'.
Proof.
  intros Ho Hv Ht. unfold stepper_halt, set_waketime. erewrite bind_ok by (by apply tm_upd_run).
  set (s1 := upd m_sched _ s). assert (Hv1 : obj_view s1 oid = Some (OStepper st)) by done.
  do 4 (erewrite bind_ok by (eapply upd_stepper_run; first [exact Hv1 | eapply obj_view_put; repeat eapply obj_view_put; exact Hv1]);
        rewrite ?put_obj_put).
  erewrite bind_ok by (eapply get_stepper_run, obj_view_put; exact Hv1).
  unfold gpio_out_write, log_pin. msimpl.
  match goal with |- context [put_obj oid ?o s1] => assert (Hv2 : obj_view (put_obj oid o s1) oid = Some o) by (eapply obj_view_put; exact Hv1) end.
  destruct (negb _); (eexists; split; [reflexivity | split; [exact Hv2 |]]); (split; [done |]);
    (split; [done |]); (split; [done |]); (split; [| done | | done]).
  1, 3: intros o Ho' Hne; exact (obj_view_put_ne oid o _ s1 Ho Ho' (not_eq_sym Hne)).
  all: intros p _ Hne; by apply wk_alter_ne.
Qed.

Lemma halted_position st x d :
  pos_ok d x st -> in_range x -> pos_ok false x (halted st).
Proof.
  intros Hp Hx. assert (Hz : steps_left (halted st) = 0).
  { unfold steps_left, halted. simpl. by destruct (HAVE_SINGLE_SCHEDULE && _). }
  unfold pos_ok. rewrite Hz. unfold halted. simpl. rewrite (stepper_get_position_ok d x st Hp Hx).
  unfold POSITION_BIAS. cint_lia.
Qed.

Lemma stepper_stop_run lo abs tl oid s st w l ms free reason :
  0 <= oid -> sched_inv lo abs tl s -> stepping oid s st w l ms -> holding s l free ->
  exists abs' tl' s' st', stepper_stop oid reason s = (Ok tt, s')
    /\ sched_inv lo abs' tl' s' /\ queue tl' = filter (fun p => p <> stepper_timer oid) (queue tl)
    /\ stepping oid s' st' 0 [] [] /\ st' = halted st <| s_mq := s_mq st' |>
    /\ holding s' [] (rev l ++ free) /\ stop_frame oid l s s'.
Proof.
  intros Ho Hi Hst Hh. unfold stepper_stop.
  destruct (sched_del_timer_ok lo abs tl (stepper_timer oid) s Hi) as (abs' & tl' & s1 & E1 & [I1 Hs1] & Hq & _); [done.. |].
  rewrite (bind_ok _ _ _ _ _ E1).
  kept m_base E1 Eb. kept m_wake E1 Ew.
  pose proof (keeps_run _ _ _ _ _ (sched_del_timer_dom _) E1) as Ed.
  assert (Ht : is_Some (timers (m_sched s1) !! stepper_timer oid)).
  { apply elem_of_dom. unfold timer_dom in Ed. rewrite Ed. apply elem_of_dom, (wk_some_lookup _ _ w), Hst. }
  assert (Hf1 : stop_frame oid [] s s1).
  { split; [intros; unfold obj_view; by rewrite Eb | intros; by rewrite Eb | | done].
    intros p Hp _. apply (keeps_run _ _ _ _ _ (sched_del_timer_wk _ p Hp) E1). }
  destruct (stepper_halt_run oid st s1) as (s2 & E2 & Hv2 & S2 & N2 & F2 & Hf2); [done | | done |].
  { unfold obj_view. rewrite Eb. apply Hst. }
  rewrite (bind_ok _ _ _ _ _ E2). unfold base. msimpl.
  assert (Hst2 : stepping oid s2 (halted st) 0 l ms).
  { destruct Hst as [Hv Hw Hmq Hm Hnd]. split; rewrite ?N2, ?Eb; try done. rewrite S2. by apply wk_set_wake. }
  assert (Hlen : (length l <= size (nodes (m_base s2)))%nat).
  { apply NoDup_size; [apply Hst |]. rewrite N2, Eb. intros q Hql.
    eapply seg_nn_is_Some; [apply (sp_queue _ _ _ _ _ _ Hst) | done]. }
  destruct (stepper_drain_ok oid (S (size (nodes (m_base s2)))) s2 _ 0 l ms free Ho Hst2) as (s3 & st3 & E3 & Hst3 & Est & Hh3 & S3 & Hf3);
    [unfold holding; rewrite N2, F2, Eb; exact Hh | lia |].
  exists abs', tl', s3, st3. split; [done |]. split; [| split; [exact Hq |]].
  { split; [| done]. rewrite S3, S2. apply queue_inv_outside; [done | | done].
    intros Hin. assert (H : stepper_timer oid ∈ queue tl') by (apply list_elem_of_filter; done).
    rewrite Hq in H. apply list_elem_of_filter in H as [H _]. done. }
  do 3 (split; [done |]). apply (stop_frame_trans oid [] l s s2); [| done]. exact (stop_frame_trans oid [] [] _ _ _ Hf1 Hf2).
Qed.

(** Stopping a stepper.  Its timer leaves the queue (which stays
    well formed and sorted), its pending moves go back to the pool, it accepts
    no step before its clock is reset, and the position it reports is the one
    it had reached. *)
Theorem stepper_stop_ok lo abs tl oid s st w l ms free d x reason :
  0 <= oid -> sched_inv lo abs tl s -> stepping oid s st w l ms -> holding s l free -> pos_ok d x st -> in_range x ->
  exists abs' tl' s' st', stepper_stop oid reason s = (Ok tt, s')
    /\ sched_inv lo abs' tl' s' /\ queue tl' = filter (fun p => p <> stepper_timer oid) (queue tl)
    /\ stepping oid s' st' 0 [] [] /\ s_count st' = 0 /\ s_next_step_time st' = 0
    /\ has (s_flags st') SF_NEED_RESET = true /\ stepper_get_position st' = POSITION_BIAS + x
    /\ holding s' [] (rev l ++ free).
Proof.
  intros Ho Hi Hst Hh Hp Hx.
  destruct (stepper_stop_run lo abs tl oid s st w l ms free reason Ho Hi Hst Hh)
    as (abs' & tl' & s' & st' & E & Hi' & Hq & Hst' & Est & Hh' & _).
  exists abs', tl', s', st'. do 4 (split; [done |]). rewrite Est. simpl. do 2 (split; [done |]).
  split; [by apply has_lor_same |]. split; [| done].
  eapply (stepper_get_position_ok false x); [| done]. exact (halted_position st x d Hp Hx).
Qed.

End Runs.

(** ** Examples *)

(** A stepper at position 0 with two queued moves: three accelerating steps
    forward, then two back. *)
Definition demo_moves : list stepper_move := [mk_stepper_move 1000 (-10) 3 MF_DIR; mk_stepper_move 500 0 2 MF_DIR].

Definition demo_stepper (flags : Z) : stepper :=
  mk_stepper 0 0 0 5000 64 10 11 (u32 (- POSITION_BIAS)) (mk_mq (Some 0) (Some 1)) None false flags.

Definition demo_stepping (flags : Z) : mcu :=
  initial_mcu <| m_base ::= fun b =>
      b <| nodes := {[ 0 := mk_move_node (Some 1) (MoveStepper (mk_stepper_move 1000 (-10) 3 MF_DIR));
                       1 := mk_move_node None (MoveStepper (mk_stepper_move 500 0 2 MF_DIR));
                       2 := mk_move_node None MoveRaw ]} |>
        <| move_free_list := Some 2 |> <| move_count := 3 |> <| oid_count := 1 |>
        <| oids := Some [mk_oid (Some T_stepper) (Some (OStepper (demo_stepper flags)))] |> |>
    <| m_sched ::= upd timers (fun _ => demo_timers 1000 5000 true) |>.

Lemma demo_stepping_ok flags : stepping 0 (demo_stepping flags) (demo_stepper flags) 5000 [0; 1] demo_moves.
Proof.
  split; [done | vm_compute; reflexivity | split; [done | split; [done | intros _; reflexivity]] | | vm_decide].
  repeat constructor; eexists; (split; [vm_compute; reflexivity | reflexivity]).
Qed.



Lemma demo_stepping_inv flags :
  sched_inv 0 (demo_abs 1000 5000) [PeriodicTimer; stepper_timer 0] (demo_stepping flags).
Proof. destruct demo_sched_inv as [I Hs]. split; [exact I | exact Hs]. Qed.

Lemma stepper_stop_ok_witness :
  let B := demo_board in
  exists abs' tl' s' st', stepper_stop 0 2 (demo_stepping 0) = (Ok tt, s')
    /\ sched_inv 0 abs' tl' s' /\ queue tl' = [PeriodicTimer]
    /\ stepping 0 s' st' 0 [] [] /\ s_count st' = 0 /\ s_next_step_time st' = 0
    /\ has (s_flags st') SF_NEED_RESET = true /\ stepper_get_position st' = POSITION_BIAS + 0
    /\ holding s' [] [1; 0; 2].
Proof.
  intros B.
  apply (stepper_stop_ok (B := B) 0 (demo_abs 1000 5000) [PeriodicTimer; stepper_timer 0] 0
    (demo_stepping 0) (demo_stepper 0) 5000 [0; 1] demo_moves [2] false 0 2);
    [lia | apply demo_stepping_inv | apply demo_stepping_ok | split; [done | split; [done | vm_decide]] | reflexivity | done].
Defined.
