(* ===== verification/Trsync.v ===== *)
(** * Trsync: synchronised triggers

    Models [src/src/trsync.c] and the trigger subscription of
    [src/src/stepper.c].  A [struct trsync] is named by its oid; its report
    timer is slot 0, its expire timer slot 1.  The only signals of the program
    are the [stop_signal]s embedded in the steppers, so a signal pointer is the
    oid of its stepper, and the only callback is [stepper_stop]. *)

From S2P Require Import Prelude Wire State Command Sched Basecmd Stepper.
Import Encode.

Definition TSF_CAN_TRIGGER : Z := 1.
Definition TSF_REPORT : Z := 4.

Section WithBoard.
Context `{B : Board}.

Definition get_trsync (oid : Z) : FW trsync :=
  o ← obj_get oid;
  match o with OTrsync t => mret t | _ => fault "struct trsync" end.

Definition upd_trsync (oid : Z) (f : trsync -> trsync) : FW unit :=
  t ← get_trsync oid; obj_put oid (OTrsync (f t)).

Definition report_time (oid : Z) : tptr := ObjTimer oid 0.
Definition expire_time (oid : Z) : tptr := ObjTimer oid 1.

(** ** Triggering *)

(** The dispatch loop of [trsync_do_trigger]. *)
Fixpoint trigger_loop (fuel : nat) (ts reason : Z) : FW unit :=
  match fuel with
  | O => lift_res OutOfFuel
  | S fuel =>
      t ← get_trsync ts;
      match ts_signals t with
      | None => mret tt
      | Some tss =>
          st ← get_stepper tss;
          let func := s_sig_func st in
          upd_trsync ts (fun t => t <| ts_signals := s_sig_next st |>) ;;
          upd_stepper tss (fun s => s <| s_sig_next := None |>) ;;
          upd_stepper tss (fun s => s <| s_sig_func := false |>) ;;
          (if (func : bool) then stepper_stop tss reason else fault "NULL trsync_callback_t") ;;
          trigger_loop fuel ts reason
      end
  end.

(** There are at most [oid_count] signals. *)
Definition trsync_do_trigger (ts reason : Z) : FW unit :=
  t ← get_trsync ts;
  let flags := ts_flags t in
  if negb (has flags TSF_CAN_TRIGGER) then mret tt
  else
    upd_trsync ts (fun t => t <| ts_trigger_reason := reason |>) ;;
    upd_trsync ts (fun t => t <| ts_flags := Z.lor (clr flags TSF_CAN_TRIGGER) TSF_REPORT |>) ;;
    trigger_loop 257 ts reason ;;
    sched_wake_task W_trsync.

Definition trsync_expire_event (ts : Z) : FW Z :=
  t ← get_trsync ts;
  trsync_do_trigger ts (ts_expire_reason t) ;;
  mret SF_DONE.

Definition trsync_report_event (ts : Z) : FW Z :=
  upd_trsync ts (fun t => t <| ts_flags ::= fun f => Z.lor f TSF_REPORT |>) ;;
  sched_wake_task W_trsync ;;
  t ← get_trsync ts;
  add_waketime (report_time ts) (ts_report_ticks t) ;;
  mret SF_RESCHEDULE.

(** ** Commands *)

Definition command_config_trsync (args : list Z) : FW unit :=
  a0 ← arg args 0;
  ts ← oid_alloc a0 T_trsync (sizeof_obj T_trsync);
  set_func (report_time ts) F_trsync_report_event ;;
  set_func (expire_time ts) F_trsync_expire_event.

Definition trsync_oid_lookup (oid : Z) : FW Z := oid_lookup oid T_trsync.

Definition trsync_add_signal (ts tss : Z) (func : bool) : FW unit :=
  st ← get_stepper tss;
  if s_sig_func st || negb func then shutdown "Can't add signal that is already active"
  else
    upd_stepper tss (fun s => s <| s_sig_func := func |>) ;;
    t ← get_trsync ts;
    upd_stepper tss (fun s => s <| s_sig_next := ts_signals t |>) ;;
    upd_trsync ts (fun t => t <| ts_signals := Some tss |>).

(** The loop of [trsync_clear]. *)
Fixpoint clear_loop (fuel : nat) (tss : option Z) : FW unit :=
  match fuel with
  | O => lift_res OutOfFuel
  | S fuel =>
      match tss with
      | None => mret tt
      | Some tss =>
          st ← get_stepper tss;
          upd_stepper tss (fun s => s <| s_sig_func := false |>) ;;
          upd_stepper tss (fun s => s <| s_sig_next := None |>) ;;
          clear_loop fuel (s_sig_next st)
      end
  end.

Definition trsync_clear (ts : Z) : FW unit :=
  sched_del_timer (report_time ts) ;;
  sched_del_timer (expire_time ts) ;;
  t ← get_trsync ts;
  clear_loop 257 (ts_signals t) ;;
  upd_trsync ts (fun t => t <| ts_signals := None |>) ;;
  upd_trsync ts (fun t => t <| ts_flags := 0 |> <| ts_trigger_reason := 0 |> <| ts_expire_reason := 0 |>).

Definition command_trsync_start (args : list Z) : FW unit :=
  a0 ← arg args 0;
  ts ← trsync_oid_lookup a0;
  trsync_clear ts ;;
  upd_trsync ts (fun t => t <| ts_flags := TSF_CAN_TRIGGER |>) ;;
  a1 ← arg args 1;
  set_waketime (report_time ts) a1 ;;
  a2 ← arg args 2;
  upd_trsync ts (fun t => t <| ts_report_ticks := a2 |>) ;;
  when (truth a2) (sched_add_timer (report_time ts)) ;;
  a3 ← arg args 3;
  upd_trsync ts (fun t => t <| ts_expire_reason := u8 a3 |>).

Definition command_trsync_set_timeout (args : list Z) : FW unit :=
  a0 ← arg args 0;
  ts ← trsync_oid_lookup a0;
  t ← get_trsync ts;
  when (has (ts_flags t) TSF_CAN_TRIGGER)
    (sched_del_timer (expire_time ts) ;;
     a1 ← arg args 1;
     set_waketime (expire_time ts) a1 ;;
     sched_add_timer (expire_time ts)).

Definition trsync_report (oid flags reason clock : Z) : FW unit :=
  sendf "trsync_state oid=%c can_trigger=%c trigger_reason=%c clock=%u"
    [VInt oid; VInt (b2z (has flags TSF_CAN_TRIGGER)); VInt reason; VInt clock].

Definition command_trsync_trigger (args : list Z) : FW unit :=
  a0 ← arg args 0;
  let oid := u8 a0 in
  ts ← trsync_oid_lookup oid;
  a1 ← arg args 1;
  trsync_do_trigger ts (u8 a1) ;;
  sched_del_timer (report_time ts) ;;
  sched_del_timer (expire_time ts) ;;
  upd_trsync ts (fun t => t <| ts_flags := 0 |>) ;;
  t ← get_trsync ts;
  trsync_report oid 0 (ts_trigger_reason t) 0.

(** Body of the loop of [trsync_task]. *)
Definition trsync_task_one (oid : Z) : FW unit :=
  t ← get_trsync oid;
  when (has (ts_flags t) TSF_REPORT)
    (time ← timer_read_time;
     t ← get_trsync oid;
     upd_trsync oid (fun r => r <| ts_flags := clr (ts_flags t) TSF_REPORT |>) ;;
     trsync_report oid (ts_flags t) (ts_trigger_reason t) time).

Definition trsync_task : FW unit :=
  w ← sched_check_wake W_trsync;
  when w (foreach_oid T_trsync trsync_task_one).

Definition trsync_shutdown : FW unit := foreach_oid T_trsync trsync_clear.

Definition command_stepper_stop_on_trigger (args : list Z) : FW unit :=
  a0 ← arg args 0;
  s ← stepper_oid_lookup a0;
  a1 ← arg args 1;
  ts ← trsync_oid_lookup a1;
  trsync_add_signal ts s true.

End WithBoard.

(** ** Stopping all subscribed steppers *)

Section Trigger.
Context `{B : Board}.
Implicit Types (s : mcu) (st : Z -> stepper) (l : list Z).

Lemma get_trsync_run ts t s : obj_view s ts = Some (OTrsync t) -> get_trsync ts s = (Ok t, s).
Proof. intros H. unfold get_trsync. by rewrite (bind_ok _ _ _ _ _ (obj_get_run _ _ _ H)). Qed.

Lemma upd_trsync_run ts t f s :
  obj_view s ts = Some (OTrsync t) -> upd_trsync ts f s = (Ok tt, put_obj ts (OTrsync (f t)) s).
Proof. intros H. unfold upd_trsync. by rewrite (bind_ok _ _ _ _ _ (get_trsync_run _ _ _ H)). Qed.

Lemma stepping_frame oid s s' x w q ms :
  obj_view s' oid = obj_view s oid ->
  wk (timers (m_sched s')) (stepper_timer oid) = wk (timers (m_sched s)) (stepper_timer oid) ->
  (forall n, n ∈ q -> nodes (m_base s') !! n = nodes (m_base s) !! n) ->
  stepping oid s x w q ms -> stepping oid s' x w q ms.
Proof.
  intros Hv Hw Hn [V W Q M N]. split; [by rewrite Hv | by rewrite Hw | | | done].
  - eapply mq_rep_frame; [| exact Q]. intros n Hq. unfold nn. by rewrite Hn.
  - by eapply nodes_hold_frame.
Qed.

Lemma stepping_view oid s x x' w q ms :
  stepping oid s x w q ms -> s_mq x' = s_mq x -> stepping oid (put_obj oid (OStepper x') s) x' w q ms.
Proof.
  intros [V W Q M N] E. split; try done; [by eapply obj_view_put | by rewrite E].
Qed.

(** The steppers [l] with their pending moves, and the free list. *)
Record fleet s l st (w : Z -> Z) (q : Z -> list Z) (ms : Z -> list stepper_move) (free : list Z) : Prop := {
  fl_stepping : forall o, o ∈ l -> 0 <= o /\ stepping o s (st o) (w o) (q o) (ms o);
  fl_nodup : NoDup l;
  fl_free : seg (nn (nodes (m_base s))) free None;
  fl_free_head : move_free_list (m_base s) = hd_or free None;
  fl_disjoint : NoDup (concat (q <$> l) ++ free);
}.

(** The stop signals of [l] are linked in this order and active. *)
Definition subscribed l st : Prop :=
  seg (fun o => Some (s_sig_next (st o))) l None /\ forall o, o ∈ l -> s_sig_func (st o) = true.

(** The stepper is stopped where it was, its signal unregistered. *)
Definition unsubscribed (x : stepper) : stepper := x <| s_sig_next := None |> <| s_sig_func := false |>.
Definition stopped s (o : Z) (x : stepper) : Prop :=
  exists x', stepping o s x' 0 [] [] /\ x' = halted (unsubscribed x) <| s_mq := s_mq x' |>.

Lemma NoDup_app_tail {A} (l k : list A) : NoDup (l ++ k) -> NoDup k.
Proof. by intros (_ & _ & H)%NoDup_app. Qed.

Lemma in_concat {A} (q : Z -> list A) l o n : o ∈ l -> n ∈ q o -> n ∈ concat (q <$> l).
Proof.
  intros Ho Hn. apply list_elem_of_In, in_concat. exists (q o). split; [| by apply list_elem_of_In].
  apply list_elem_of_In, list_elem_of_fmap. eauto.
Qed.

(** The fleet without the stepper that was stopped. *)
Lemma fleet_tail s s' o l st w q ms free :
  fleet s (o :: l) st w q ms free -> holding s' [] (rev (q o) ++ free) ->
  (forall i, i ∈ l -> obj_view s' i = obj_view s i) ->
  (forall i, i ∈ l -> wk (timers (m_sched s')) (stepper_timer i) = wk (timers (m_sched s)) (stepper_timer i)) ->
  (forall n, n ∉ q o -> nodes (m_base s') !! n = nodes (m_base s) !! n) ->
  fleet s' l st w q ms (rev (q o) ++ free).
Proof.
  intros [Hs Hn Hf Hfh Hd] (Hf' & Hfh' & Hd') Hv Hw Hnd. apply NoDup_cons in Hn as [Hol Hnl].
  simpl in Hd. rewrite <- app_assoc in Hd. apply NoDup_app in Hd as (H1 & H2 & H3).
  split; [| done | done | done |].
  - intros i Hi. destruct (Hs i) as [H0 Hst]; [by apply list_elem_of_further |]. split; [done |].
    apply (stepping_frame i s); [by apply Hv | by apply Hw | | done].
    intros n Hq. apply Hnd. intros Hno. apply (H2 n Hno), elem_of_app. left. by eapply in_concat.
  - apply NoDup_app in H3 as (H3 & H4 & H5). apply NoDup_app. split; [done |]. split; [| exact Hd'].
    intros n Hn1 [Hn2%list_elem_of_In | Hn2]%elem_of_app; [| by apply (H4 n)].
    apply in_rev, list_elem_of_In in Hn2. apply (H2 n Hn2), elem_of_app. by left.
Qed.

Lemma filter_ne_cons (o : Z) (l : list Z) (k : list tptr) :
  filter (fun p => p ∉ stepper_timer <$> l) (filter (fun p => p <> stepper_timer o) k)
  = filter (fun p => p ∉ stepper_timer <$> o :: l) k.
Proof.
  rewrite list_filter_filter. apply list_filter_iff. intros p. rewrite fmap_cons, not_elem_of_cons. tauto.
Qed.

(** One turn of the dispatch loop. *)
Lemma trigger_step lo abs tl fuel ts t reason o l s st w q ms free :
  0 <= ts -> obj_view s ts = Some (OTrsync t) -> ts_signals t = Some o -> subscribed (o :: l) st ->
  fleet s (o :: l) st w q ms free -> sched_inv lo abs tl s ->
  exists abs' tl' s', trigger_loop (S fuel) ts reason s = trigger_loop fuel ts reason s'
    /\ sched_inv lo abs' tl' s' /\ queue tl' = filter (fun p => p <> stepper_timer o) (queue tl)
    /\ obj_view s' ts = Some (OTrsync (t <| ts_signals := hd_or l None |>))
    /\ stopped s' o (st o) /\ fleet s' l st w q ms (rev (q o) ++ free)
    /\ (forall i, 0 <= i -> i <> o -> i <> ts -> obj_view s' i = obj_view s i) /\ m_wake s' = m_wake s
    /\ (forall p, p <> DeletedTimer -> p <> stepper_timer o -> wk (timers (m_sched s')) p = wk (timers (m_sched s)) p).
Proof.
  intros Hts Hv Hsig [[Hnx _] Hfn] HF Hi.
  destruct (fl_stepping _ _ _ _ _ _ _ HF o) as [Ho Hst]; [apply list_elem_of_here |].
  assert (Hne : o <> ts) by (intros ->; destruct Hst as [V _ _ _ _]; congruence).
  cbn [trigger_loop]. rewrite (bind_ok _ _ _ _ _ (get_trsync_run _ _ _ Hv)), Hsig.
  rewrite (bind_ok _ _ _ _ _ (get_stepper_run _ _ _ (sp_view _ _ _ _ _ _ Hst))).
  rewrite (Hfn o) by apply list_elem_of_here. injection Hnx as ->.
  erewrite bind_ok by (by eapply upd_trsync_run). set (s1 := put_obj ts _ s).
  assert (Hst1 : stepping o s1 (st o) (w o) (q o) (ms o)).
  { apply (stepping_frame o s); [by apply obj_view_put_ne | done | done | exact Hst]. }
  erewrite bind_ok by (eapply upd_stepper_run, (sp_view _ _ _ _ _ _ Hst1)).
  erewrite bind_ok by (eapply upd_stepper_run, obj_view_put, (sp_view _ _ _ _ _ _ Hst1)).
  rewrite put_obj_put. set (s2 := put_obj o _ s1).
  assert (Hst2 : stepping o s2 (unsubscribed (st o)) (w o) (q o) (ms o)) by (by eapply stepping_view).
  pose proof (fl_disjoint _ _ _ _ _ _ _ HF) as Hd. simpl in Hd. rewrite <- app_assoc in Hd.
  assert (Hh : holding s2 (q o) free).
  { split; [apply (fl_free _ _ _ _ _ _ _ HF) |]. split; [apply (fl_free_head _ _ _ _ _ _ _ HF) |].
    apply NoDup_app in Hd as (H1 & H2 & H3). apply NoDup_app. split; [done |]. split; [| by apply NoDup_app_tail in H3].
    intros n Hn Hf. apply (H2 n Hn), elem_of_app. by right. }
  destruct (stepper_stop_run lo abs tl o s2 _ _ _ _ free reason Ho Hi Hst2 Hh)
    as (abs' & tl' & s3 & x & E & Hi' & Hq & Hst3 & Ex & Hh3 & Hfr).
  rewrite (bind_ok _ _ _ _ _ E). exists abs', tl', s3.
  destruct Hfr as [Fv Fn Fw Fa]. pose proof (fl_nodup _ _ _ _ _ _ _ HF) as [Hol Hnl]%NoDup_cons.
  assert (Hview : forall i, 0 <= i -> i <> o -> i <> ts -> obj_view s3 i = obj_view s i).
  { intros i Hi0 Hio Hit. rewrite Fv by done. unfold s2. rewrite obj_view_put_ne by done. unfold s1. by apply obj_view_put_ne. }
  split; [done |]. split; [done |]. split; [done |]. split.
  { rewrite Fv by done. unfold s2. rewrite obj_view_put_ne by done. unfold s1. by eapply obj_view_put. }
  split; [by exists x |]. split; [| split; [exact Hview | split; [exact Fa | exact Fw]]].
  assert (Hl : forall i, i ∈ l -> 0 <= i /\ i <> o /\ i <> ts).
  { intros i Hil. destruct (fl_stepping _ _ _ _ _ _ _ HF i) as [H0 [V _ _ _ _]]; [by apply list_elem_of_further |].
    split; [done |]. split; [by intros -> |]. intros ->. congruence. }
  eapply fleet_tail; [exact HF | done | | | exact Fn].
  - intros i Hil. destruct (Hl i Hil) as (? & ? & ?). by apply Hview.
  - intros i Hil. destruct (Hl i Hil) as (? & ? & ?). apply Fw; [done |]. unfold stepper_timer. congruence.
Qed.
Lemma stopped_frame s s' o x :
  obj_view s' o = obj_view s o ->
  wk (timers (m_sched s')) (stepper_timer o) = wk (timers (m_sched s)) (stepper_timer o) ->
  stopped s o x -> stopped s' o x.
Proof.
  intros Hv Hw (x' & Hst & Ex). exists x'. split; [| done].
  apply (stepping_frame o s); [done | done | by intros n ?%elem_of_nil | done].
Qed.

Lemma trigger_loop_ok ts reason l : forall fuel lo abs tl t s st w q ms free,
  0 <= ts -> (length l < fuel)%nat -> obj_view s ts = Some (OTrsync t) -> ts_signals t = hd_or l None ->
  subscribed l st -> fleet s l st w q ms free -> sched_inv lo abs tl s ->
  exists abs' tl' s' free', trigger_loop fuel ts reason s = (Ok tt, s')
    /\ sched_inv lo abs' tl' s' /\ queue tl' = filter (fun p => p ∉ stepper_timer <$> l) (queue tl)
    /\ obj_view s' ts = Some (OTrsync (t <| ts_signals := None |>))
    /\ (forall o, o ∈ l -> stopped s' o (st o))
    /\ holding s' [] free' /\ free' ≡ₚ concat (q <$> l) ++ free
    /\ (forall i, 0 <= i -> i ∉ l -> i <> ts -> obj_view s' i = obj_view s i) /\ m_wake s' = m_wake s
    /\ (forall p, p <> DeletedTimer -> p ∉ stepper_timer <$> l ->
         wk (timers (m_sched s')) p = wk (timers (m_sched s)) p).
Proof.
  induction l as [| o l IH]; intros fuel lo abs tl t s st w q ms free Hts Hfu Hv Hsig Hsub HF Hi;
    (destruct fuel as [| fuel]; [simpl in Hfu; lia |]).
  - cbn [trigger_loop]. rewrite (bind_ok _ _ _ _ _ (get_trsync_run _ _ _ Hv)), Hsig. simpl.
    exists abs, tl, s, free. split; [done |]. split; [done |]. split.
    { clear. induction (queue tl) as [| p k IH]; [done |]. rewrite filter_cons_True by apply not_elem_of_nil. by f_equal. }
    split; [rewrite Hv; simpl in Hsig; rewrite <- Hsig; by destruct t |]. split; [by intros o ?%elem_of_nil |].
    split; [split; [apply HF | split; [apply HF | apply HF]] | done].
  - destruct (trigger_step lo abs tl fuel ts t reason o l s st w q ms free) as
      (abs1 & tl1 & s1 & E & Hi1 & Hq1 & Hv1 & Hst1 & HF1 & Hview1 & Hw1 & Hwk1); try done.
    rewrite E. destruct Hsub as [[_ Hlk] Hfn]. pose proof (fl_nodup _ _ _ _ _ _ _ HF) as [Hol Hnl]%NoDup_cons.
    destruct (fl_stepping _ _ _ _ _ _ _ HF o) as [Ho0 Hso]; [apply list_elem_of_here |].
    assert (Hots : o <> ts) by (intros ->; destruct Hso as [V _ _ _ _]; congruence).
    edestruct (IH fuel lo abs1 tl1) as
      (abs' & tl' & s' & free' & E' & Hi' & Hq' & Hv' & Hst' & Hh' & Hp' & Hview' & Hw' & Hwk');
      [done | simpl in Hfu; lia | exact Hv1 | done | split; [exact Hlk | intros i Hil; by apply Hfn, list_elem_of_further]
      | exact HF1 | exact Hi1 |].
    exists abs', tl', s', free'. split; [exact E' |]. split; [done |]. split; [| split; [| split; [| split; [| split; [| split; [| split]]]]]].
    + rewrite Hq', Hq1. apply filter_ne_cons.
    + by rewrite Hv'.
    + intros i [-> | Hil]%elem_of_cons; [| by apply Hst'].
      apply (stopped_frame s1); [by apply Hview' | | done]. apply Hwk'; [done |].
      intros (j & Ej & Hj)%list_elem_of_fmap. unfold stepper_timer in Ej. congruence.
    + done.
    + rewrite Hp'. simpl. rewrite <- (Permutation_rev (q o)), <- app_assoc. apply Permutation_app_swap_app.
    + intros i Hi0 Hil Hits. rewrite not_elem_of_cons in Hil. destruct Hil. rewrite Hview', Hview1 by done. done.
    + by rewrite Hw'.
    + intros p Hpd Hpl. rewrite fmap_cons, not_elem_of_cons in Hpl. destruct Hpl. by rewrite Hwk', Hwk1.
Qed.

Lemma sched_inv_tasks lo abs tl s v W :
  sched_inv lo abs tl s -> sched_inv lo abs tl (s <| m_sched ::= upd tasks_status v |> <| m_wake ::= W |>).
Proof. intros [[] Hs]. split; [by split | done]. Qed.

(** A stopped stepper, as seen by its client. *)
Definition at_rest s (o : Z) (x : stepper) : Prop :=
  exists x', stepping o s x' 0 [] [] /\ s_count x' = 0 /\ has (s_flags x') SF_NEED_RESET = true
    /\ s_sig_func x' = false /\ s_sig_next x' = None
    /\ (forall d p, pos_ok d p x -> in_range p -> stepper_get_position x' = POSITION_BIAS + p).

Lemma stopped_at_rest s s' o x :
  stopped s o x -> obj_view s' o = obj_view s o -> timers (m_sched s') = timers (m_sched s) -> at_rest s' o x.
Proof.
  intros (x' & Hst & Ex) Hv Ht. exists x'. split.
  { apply (stepping_frame o s); [done | by rewrite Ht | by intros n ?%elem_of_nil | done]. }
  rewrite Ex. split; [done |]. split; [by apply has_lor_same |]. split; [done |]. split; [done |].
  intros d p Hp Hr. eapply (stepper_get_position_ok false p); [| done]. exact (halted_position (unsubscribed x) p d Hp Hr).
Qed.

(** C21: one trigger stops every subscribed stepper, once.  Whatever the number
    of steppers subscribed to an armed trigger, [trsync_do_trigger] stops each
    of them where it is, returns all their pending moves to the pool, takes
    exactly their timers out of the (still sorted) timer queue, unregisters all
    signals, records the reason, disarms itself and wakes the reporting task;
    triggering again has no effect. *)
Theorem trsync_do_trigger_stops lo abs tl ts t reason l s st w q ms free :
  0 <= ts -> obj_view s ts = Some (OTrsync t) -> has (ts_flags t) TSF_CAN_TRIGGER = true ->
  ts_signals t = hd_or l None -> (length l <= 256)%nat ->
  subscribed l st -> fleet s l st w q ms free -> sched_inv lo abs tl s ->
  exists abs' tl' s' t' free', trsync_do_trigger ts reason s = (Ok tt, s')
    /\ sched_inv lo abs' tl' s' /\ queue tl' = filter (fun p => p ∉ stepper_timer <$> l) (queue tl)
    /\ (forall o, o ∈ l -> at_rest s' o (st o))
    /\ holding s' [] free' /\ free' ≡ₚ concat (q <$> l) ++ free
    /\ obj_view s' ts = Some (OTrsync t') /\ ts_signals t' = None /\ ts_trigger_reason t' = reason
    /\ has (ts_flags t') TSF_REPORT = true /\ m_wake s' W_trsync = true
    /\ (forall reason', trsync_do_trigger ts reason' s' = (Ok tt, s')).
Proof.
  intros Hts Hv Hcan Hsig Hlen Hsub HF Hi. unfold trsync_do_trigger at 1.
  rewrite (bind_ok _ _ _ _ _ (get_trsync_run _ _ _ Hv)), Hcan. cbn [negb].
  erewrite bind_ok by (by eapply upd_trsync_run). erewrite bind_ok by (eapply upd_trsync_run, obj_view_put; exact Hv).
  rewrite put_obj_put. set (t1 := upd ts_flags _ _). set (s1 := put_obj ts _ s).
  assert (HF1 : fleet s1 l st w q ms free).
  { destruct HF as [Hs Hn Hf Hfh Hd]. split; try done. intros o Ho. destruct (Hs o Ho) as [H0 Hst]. split; [done |].
    apply (stepping_frame o s); [| done | done | done]. apply obj_view_put_ne; [done | done |].
    intros ->. destruct Hst as [V _ _ _ _]. congruence. }
  edestruct (trigger_loop_ok ts reason l 257 lo abs tl t1 s1) as
    (abs' & tl' & s' & free' & E & Hi' & Hq & Hv' & Hst' & Hh & Hp & _ & _ & _);
    [done | lia | by eapply obj_view_put | done | done | exact HF1 | exact Hi |].
  rewrite (bind_ok _ _ _ _ _ E). unfold sched_wake_task, sched_wake_tasks, set_sched. msimpl.
  eexists abs', tl', _, _, free'. split; [reflexivity |]. split; [by apply sched_inv_tasks |]. split; [done |].
  split; [intros o Ho; by apply (stopped_at_rest s'); [apply Hst' | ..] |].
  split; [done |]. split; [done |]. split; [exact Hv' |]. split; [done |]. split; [done |].
  split; [by apply has_lor_same |]. split; [done |].
  intros reason'. unfold trsync_do_trigger. erewrite bind_ok by (apply get_trsync_run; exact Hv').
  unfold t1. simpl. rewrite has_lor_other, has_clr_same by done. done.
Qed.

End Trigger.

(** ** Examples *)

(** The stepper of [demo_stepping], subscribed to the trigger with oid 1. *)
Definition demo_trigger : mcu :=
  (demo_stepping 0) <| m_base ::= upd oids (fun _ => Some
    [mk_oid (Some T_stepper) (Some (OStepper ((demo_stepper 0) <| s_sig_func := true |>)));
     mk_oid (Some T_trsync) (Some (OTrsync (mk_trsync 0 (Some 0) TSF_CAN_TRIGGER 0 4)))]) |>.

Lemma demo_trigger_fleet :
  let st := fun _ : Z => (demo_stepper 0) <| s_sig_func := true |> in
  subscribed [0] st /\ fleet demo_trigger [0] st (fun _ => 5000) (fun _ => [0; 1]) (fun _ => demo_moves) [2].
Proof.
  intros st. split; [split; [by split | done] |]. split; [| vm_decide | done | done | vm_decide].
  intros o ->%list_elem_of_singleton. split; [done |].
  split; [done | vm_compute; reflexivity | split; [done | split; [done | intros _; reflexivity]] | | vm_decide].
  repeat constructor; eexists; (split; [vm_compute; reflexivity | reflexivity]).
Qed.

Lemma trsync_do_trigger_stops_witness :
  let B := demo_board in
  let st := fun _ : Z => (demo_stepper 0) <| s_sig_func := true |> in
  exists abs' tl' s' t' free', trsync_do_trigger 1 2 demo_trigger = (Ok tt, s')
    /\ sched_inv 0 abs' tl' s' /\ queue tl' = [PeriodicTimer]
    /\ (forall o, o ∈ [0] -> at_rest s' o (st o))
    /\ holding s' [] free' /\ free' ≡ₚ [0; 1; 2]
    /\ obj_view s' 1 = Some (OTrsync t') /\ ts_signals t' = None /\ ts_trigger_reason t' = 2
    /\ has (ts_flags t') TSF_REPORT = true /\ m_wake s' W_trsync = true
    /\ (forall reason', trsync_do_trigger 1 reason' s' = (Ok tt, s')).
Proof.
  intros B st. destruct demo_trigger_fleet as [Hsub HF].
  apply (trsync_do_trigger_stops (B := B) 0 (demo_abs 1000 5000) [PeriodicTimer; stepper_timer 0] 1
    (mk_trsync 0 (Some 0) TSF_CAN_TRIGGER 0 4) 2 [0] demo_trigger st (fun _ => 5000) (fun _ => [0; 1]) (fun _ => demo_moves) [2]);
    [lia | reflexivity | reflexivity | reflexivity | vm_decide | exact Hsub | exact HF | split; [apply (demo_stepping_inv 0) | apply (demo_stepping_inv 0)]].
Defined.
