(* ===== verification/Endstop.v ===== *)
(** * Endstop: sampling of end stop switches

    Models [src/src/endstop.c]: the polling and oversampling timer callbacks
    and the homing commands.  The timer of an end stop is [ObjTimer oid 0]. *)

From S2P Require Import Prelude Wire State Command Sched Basecmd Stepper Trsync.
Import Encode.

Definition ESF_PIN_HIGH : Z := 1.
Definition ESF_HOMING : Z := 2.

Section WithBoard.
Context `{B : Board}.

Definition get_endstop (oid : Z) : FW endstop :=
  o ← obj_get oid;
  match o with OEndstop e => mret e | _ => fault "struct endstop" end.

Definition upd_endstop (oid : Z) (f : endstop -> endstop) : FW unit :=
  e ← get_endstop oid; obj_put oid (OEndstop (f e)).

Definition endstop_timer (oid : Z) : tptr := ObjTimer oid 0.

(** The condition of both callbacks: the pin does not have the value sought. *)
Definition no_match (val : bool) (flags : Z) : bool := has (if val then Z.lnot flags else flags) ESF_PIN_HIGH.

Definition endstop_oversample_event (oid : Z) : FW Z :=
  e ← get_endstop oid;
  val ← gpio_in_read (e_pin e);
  if no_match val (e_flags e)
  then
    set_func (endstop_timer oid) F_endstop_event ;;
    set_waketime (endstop_timer oid) (e_nextwake e) ;;
    upd_endstop oid (fun e => e <| e_trigger_count := e_sample_count e |>) ;;
    mret SF_RESCHEDULE
  else
    let count := u8 (e_trigger_count e - 1) in
    if count =? 0
    then
      ts ← deref "e->ts" (e_ts e);
      trsync_do_trigger ts (e_trigger_reason e) ;;
      mret SF_DONE
    else
      upd_endstop oid (fun e => e <| e_trigger_count := count |>) ;;
      add_waketime (endstop_timer oid) (e_sample_time e) ;;
      mret SF_RESCHEDULE.

Definition endstop_event (oid : Z) : FW Z :=
  e ← get_endstop oid;
  val ← gpio_in_read (e_pin e);
  t ← tm_get (endstop_timer oid);
  let nextwake := u32 (t_waketime t + e_rest_time e) in
  if no_match val (e_flags e)
  then set_waketime (endstop_timer oid) nextwake ;; mret SF_RESCHEDULE
  else
    upd_endstop oid (fun e => e <| e_nextwake := nextwake |>) ;;
    set_func (endstop_timer oid) F_endstop_oversample_event ;;
    endstop_oversample_event oid.

Definition command_config_endstop (args : list Z) : FW unit :=
  a0 ← arg args 0;
  oid ← oid_alloc a0 T_endstop (sizeof_obj T_endstop);
  a1 ← arg args 1;
  a2 ← arg args 2;
  pin ← gpio_in_setup a1 a2;
  upd_endstop oid (fun e => e <| e_pin := pin |>).

(** The end stop is armed for homing. *)
Definition endstop_arm (oid rest pin_value trsync_oid reason : Z) : FW unit :=
  upd_endstop oid (fun e => e <| e_rest_time := rest |>) ;;
  set_func (endstop_timer oid) F_endstop_event ;;
  upd_endstop oid (fun e => e <| e_trigger_count := e_sample_count e |>) ;;
  upd_endstop oid (fun e => e <| e_flags := Z.lor ESF_HOMING (if truth pin_value then ESF_PIN_HIGH else 0) |>) ;;
  ts ← trsync_oid_lookup trsync_oid;
  upd_endstop oid (fun e => e <| e_ts := Some ts |>) ;;
  upd_endstop oid (fun e => e <| e_trigger_reason := u8 reason |>) ;;
  sched_add_timer (endstop_timer oid).

Definition command_endstop_home (args : list Z) : FW unit :=
  a0 ← arg args 0;
  oid ← oid_lookup a0 T_endstop;
  sched_del_timer (endstop_timer oid) ;;
  a1 ← arg args 1;
  set_waketime (endstop_timer oid) a1 ;;
  a2 ← arg args 2;
  upd_endstop oid (fun e => e <| e_sample_time := a2 |>) ;;
  a3 ← arg args 3;
  upd_endstop oid (fun e => e <| e_sample_count := u8 a3 |>) ;;
  e ← get_endstop oid;
  if e_sample_count e =? 0
  then upd_endstop oid (fun e => e <| e_ts := None |> <| e_flags := 0 |>)
  else
    a4 ← arg args 4;
    a5 ← arg args 5;
    a6 ← arg args 6;
    a7 ← arg args 7;
    endstop_arm oid a4 a5 a6 a7.

Definition command_endstop_query_state (args : list Z) : FW unit :=
  a0 ← arg args 0;
  let oid := u8 a0 in
  p ← oid_lookup oid T_endstop;
  e ← get_endstop p;
  val ← gpio_in_read (e_pin e);
  sendf "endstop_state oid=%c homing=%c next_clock=%u pin_value=%c"
    [VInt oid; VInt (b2z (has (e_flags e) ESF_HOMING)); VInt (e_nextwake e); VInt (b2z val)].

(** ** Runs of the end stop timer *)

(** One expiry of the timer, through its function pointer. *)
Definition endstop_fire (oid : Z) : FW Z :=
  t ← tm_get (endstop_timer oid);
  match t_func t with
  | Some F_endstop_event => endstop_event oid
  | Some F_endstop_oversample_event => endstop_oversample_event oid
  | _ => fault "endstop func"
  end.

(** [n] expiries: the times at which they happen and the results. *)
Fixpoint endstop_events (n : nat) (oid : Z) : FW (list (Z * Z)) :=
  match n with
  | O => mret []
  | S n =>
      t ← tm_get (endstop_timer oid);
      r ← endstop_fire oid;
      rest ← endstop_events n oid;
      mret ((t_waketime t, r) :: rest)
  end.
End WithBoard.

Section Sampling.
Context `{B : Board}.
Context (oid : Z).
Implicit Types (s : mcu) (e : endstop).

(** The reading number [n] of the end stop's pin has the value sought. *)
Definition matches e (n : nat) : bool := negb (no_match (hw_pin n (e_pin e)) (e_flags e)).

(** The end stop [e] with its timer at [w] running [f], after [n] readings. *)
Record sampling s e (f : tfunc) (w : Z) (n : nat) : Prop := {
  sa_view : obj_view s oid = Some (OEndstop e);
  sa_timer : exists tm, timers (m_sched s) !! endstop_timer oid = Some tm /\ t_func tm = Some f /\ t_waketime tm = w;
  sa_reads : ticks (m_hw s) = n;
}.

(** What sampling may change of the state: this end stop, its timer and the
    number of readings. *)
Record sample_frame s s' : Prop := {
  fr_view : forall o, 0 <= o -> o <> oid -> obj_view s' o = obj_view s o;
  fr_pool : nodes (m_base s') = nodes (m_base s) /\ move_free_list (m_base s') = move_free_list (m_base s);
  fr_timers : forall p, p <> endstop_timer oid -> timers (m_sched s') !! p = timers (m_sched s) !! p;
  fr_list : (m_sched s') <| timers := ∅ |> = (m_sched s) <| timers := ∅ |>;
  fr_wake : m_wake s' = m_wake s;
  fr_pins : pin_log (m_hw s') = pin_log (m_hw s);
}.

Lemma sample_frame_trans s1 s2 s3 : sample_frame s1 s2 -> sample_frame s2 s3 -> sample_frame s1 s3.
Proof.
  intros [V1 [N1 L1] T1 Q1 W1 P1] [V2 [N2 L2] T2 Q2 W2 P2]. split.
  - intros o Ho Hne. by rewrite V2, V1.
  - by rewrite N2, L2.
  - intros p Hp. by rewrite T2, T1.
  - by rewrite Q2.
  - by rewrite W2.
  - by rewrite P2.
Qed.

Hypothesis Hoid : 0 <= oid.

Lemma get_endstop_run e s : obj_view s oid = Some (OEndstop e) -> get_endstop oid s = (Ok e, s).
Proof. intros H. unfold get_endstop. by rewrite (bind_ok _ _ _ _ _ (obj_get_run _ _ _ H)). Qed.

Lemma upd_endstop_run e f s :
  obj_view s oid = Some (OEndstop e) -> upd_endstop oid f s = (Ok tt, put_obj oid (OEndstop (f e)) s).
Proof. intros H. unfold upd_endstop. by rewrite (bind_ok _ _ _ _ _ (get_endstop_run _ _ H)). Qed.

(** The elementary changes. *)
Lemma sampling_read s e f w n :
  sampling s e f w n ->
  exists s', gpio_in_read (e_pin e) s = (Ok (hw_pin n (e_pin e)), s') /\ sampling s' e f w (S n) /\ sample_frame s s'.
Proof.
  intros [V T R]. unfold gpio_in_read. msimpl. rewrite R. eexists. split; [reflexivity |].
  split; [split; [done | done | simpl; by rewrite R] | by split].
Qed.

Lemma sampling_put s e e' f w n :
  sampling s e f w n ->
  sampling (put_obj oid (OEndstop e') s) e' f w n /\ sample_frame s (put_obj oid (OEndstop e') s).
Proof.
  intros [V T R]. split; [split; [by eapply obj_view_put | done | done] |]. split; try done.
  intros o Ho Hne. by apply obj_view_put_ne.
Qed.

Lemma sampling_timer s e f f' w w' n (g : timer -> timer) :
  sampling s e f w n -> (forall tm, t_func tm = Some f -> t_waketime tm = w -> t_func (g tm) = Some f' /\ t_waketime (g tm) = w') ->
  exists s', tm_upd (endstop_timer oid) g s = (Ok tt, s') /\ sampling s' e f' w' n /\ sample_frame s s'.
Proof.
  intros [V (tm & T & F & W) R] Hg. eexists. split; [apply tm_upd_run; by eexists |]. split.
  - split; [done | | done]. exists (g tm). simpl. rewrite lookup_alter_eq, T. split; [done | by apply Hg].
  - split; try done. intros p Hp. simpl. by rewrite lookup_alter_ne.
Qed.

Lemma over_miss s e w n :
  sampling s e F_endstop_oversample_event w n -> matches e n = false ->
  exists s', endstop_oversample_event oid s = (Ok SF_RESCHEDULE, s')
    /\ sampling s' (e <| e_trigger_count := e_sample_count e |>) F_endstop_event (e_nextwake e) (S n) /\ sample_frame s s'.
Proof.
  intros HS Hm. unfold endstop_oversample_event, set_func, set_waketime.
  rewrite (bind_ok _ _ _ _ _ (get_endstop_run _ _ (sa_view _ _ _ _ _ HS))).
  destruct (sampling_read _ _ _ _ _ HS) as (s1 & E1 & HS1 & F1). rewrite (bind_ok _ _ _ _ _ E1).
  apply negb_false_iff in Hm. rewrite Hm.
  edestruct (sampling_timer s1 e _ F_endstop_event w w _ (fun r => r <| t_func := Some F_endstop_event |>) HS1)
    as (s2 & E2 & HS2 & F2); [done |]. rewrite (bind_ok _ _ _ _ _ E2).
  edestruct (sampling_timer s2 e _ F_endstop_event w (e_nextwake e) _ (fun r => r <| t_waketime := e_nextwake e |>) HS2)
    as (s3 & E3 & HS3 & F3); [done |]. rewrite (bind_ok _ _ _ _ _ E3).
  rewrite (bind_ok _ _ _ _ _ (upd_endstop_run _ _ _ (sa_view _ _ _ _ _ HS3))).
  eexists. split; [reflexivity |]. edestruct (sampling_put s3 e) as [HS4 F4]; [exact HS3 |]. split; [exact HS4 |].
  eauto using sample_frame_trans.
Qed.

Lemma over_hit s e w n :
  sampling s e F_endstop_oversample_event w n -> matches e n = true -> 1 < e_trigger_count e < 256 ->
  exists s', endstop_oversample_event oid s = (Ok SF_RESCHEDULE, s')
    /\ sampling s' (e <| e_trigger_count := e_trigger_count e - 1 |>) F_endstop_oversample_event
         (u32 (w + e_sample_time e)) (S n) /\ sample_frame s s'.
Proof.
  intros HS Hm Hc. unfold endstop_oversample_event, add_waketime.
  rewrite (bind_ok _ _ _ _ _ (get_endstop_run _ _ (sa_view _ _ _ _ _ HS))).
  destruct (sampling_read _ _ _ _ _ HS) as (s1 & E1 & HS1 & F1). rewrite (bind_ok _ _ _ _ _ E1).
  apply negb_true_iff in Hm. rewrite Hm. rewrite u8_small by cint_lia. cbv zeta.
  destruct (Z.eqb_spec (e_trigger_count e - 1) 0); [lia |].
  rewrite (bind_ok _ _ _ _ _ (upd_endstop_run _ _ _ (sa_view _ _ _ _ _ HS1))).
  edestruct (sampling_put s1 e (e <| e_trigger_count := e_trigger_count e - 1 |>)) as [HS2 F2]; [exact HS1 |].
  edestruct (sampling_timer _ _ _ F_endstop_oversample_event w (u32 (w + e_sample_time e)) _
    (fun r => r <| t_waketime ::= fun w => u32 (w + e_sample_time e) |>) HS2) as (s3 & E3 & HS3 & F3).
  { intros tm Hf Hw. simpl. by rewrite Hw. }
  rewrite (bind_ok _ _ _ _ _ E3). exists s3. split; [done |]. split; [done |]. eauto using sample_frame_trans.
Qed.

Lemma over_last s e w n ts :
  sampling s e F_endstop_oversample_event w n -> matches e n = true -> e_trigger_count e = 1 -> e_ts e = Some ts ->
  exists s', endstop_oversample_event oid s = (trsync_do_trigger ts (e_trigger_reason e) ;; mret SF_DONE) s'
    /\ sampling s' e F_endstop_oversample_event w (S n) /\ sample_frame s s'.
Proof.
  intros HS Hm Hc Hts. unfold endstop_oversample_event.
  rewrite (bind_ok _ _ _ _ _ (get_endstop_run _ _ (sa_view _ _ _ _ _ HS))).
  destruct (sampling_read _ _ _ _ _ HS) as (s1 & E1 & HS1 & F1). rewrite (bind_ok _ _ _ _ _ E1).
  apply negb_true_iff in Hm. rewrite Hm, Hc, Hts. exists s1. split; [done |]. by split.
Qed.

Lemma rest_miss s e w n :
  sampling s e F_endstop_event w n -> matches e n = false ->
  exists s', endstop_event oid s = (Ok SF_RESCHEDULE, s')
    /\ sampling s' e F_endstop_event (u32 (w + e_rest_time e)) (S n) /\ sample_frame s s'.
Proof.
  intros HS Hm. unfold endstop_event, set_waketime.
  rewrite (bind_ok _ _ _ _ _ (get_endstop_run _ _ (sa_view _ _ _ _ _ HS))).
  destruct (sampling_read _ _ _ _ _ HS) as (s1 & E1 & HS1 & F1). rewrite (bind_ok _ _ _ _ _ E1).
  destruct (sa_timer _ _ _ _ _ HS1) as (tm & T & F & W). rewrite (bind_ok _ _ _ _ _ (tm_get_run _ _ _ T)).
  apply negb_false_iff in Hm. rewrite Hm, W. cbv zeta.
  edestruct (sampling_timer s1 e _ F_endstop_event w (u32 (w + e_rest_time e)) _
    (fun r => r <| t_waketime := u32 (w + e_rest_time e) |>) HS1) as (s2 & E2 & HS2 & F2); [done |].
  rewrite (bind_ok _ _ _ _ _ E2). exists s2. split; [done |]. split; [done |]. eauto using sample_frame_trans.
Qed.

Lemma rest_hit s e w n :
  sampling s e F_endstop_event w n -> matches e n = true ->
  exists s', endstop_event oid s = endstop_oversample_event oid s'
    /\ sampling s' (e <| e_nextwake := u32 (w + e_rest_time e) |>) F_endstop_oversample_event w (S n) /\ sample_frame s s'.
Proof.
  intros HS Hm. unfold endstop_event, set_func.
  rewrite (bind_ok _ _ _ _ _ (get_endstop_run _ _ (sa_view _ _ _ _ _ HS))).
  destruct (sampling_read _ _ _ _ _ HS) as (s1 & E1 & HS1 & F1). rewrite (bind_ok _ _ _ _ _ E1).
  destruct (sa_timer _ _ _ _ _ HS1) as (tm & T & F & W). rewrite (bind_ok _ _ _ _ _ (tm_get_run _ _ _ T)).
  apply negb_true_iff in Hm. rewrite Hm, W. cbv zeta.
  rewrite (bind_ok _ _ _ _ _ (upd_endstop_run _ _ _ (sa_view _ _ _ _ _ HS1))).
  edestruct (sampling_put s1 e (e <| e_nextwake := u32 (w + e_rest_time e) |>)) as [HS2 F2]; [exact HS1 |].
  edestruct (sampling_timer _ _ _ F_endstop_oversample_event w w _
    (fun r => r <| t_func := Some F_endstop_oversample_event |>) HS2) as (s3 & E3 & HS3 & F3); [done |].
  rewrite (bind_ok _ _ _ _ _ E3). exists s3. split; [done |]. split; [done |]. eauto using sample_frame_trans.
Qed.

(** The first [k] times of an oversampling run that starts at [t]. *)
Definition sample_times (t st : Z) (k : nat) : list (Z * Z) :=
  (fun i => (u32 (t + Z.of_nat i * st), SF_RESCHEDULE)) <$> seq 0 k.

Lemma sample_times_S t st k : sample_times t st (S k) = (u32 t, SF_RESCHEDULE) :: sample_times (t + st) st k.
Proof.
  unfold sample_times. rewrite <- cons_seq, fmap_cons. f_equal; [by rewrite Z.add_0_r |].
  rewrite <- fmap_S_seq, <- list_fmap_compose. apply list_fmap_ext. intros _ i _. simpl. do 2 f_equal. lia.
Qed.

Lemma events_S s e f w n k r s1 :
  sampling s e f w n -> endstop_fire oid s = (Ok r, s1) ->
  endstop_events (S k) oid s = (rest ← endstop_events k oid; mret ((w, r) :: rest)) s1.
Proof.
  intros HS E. destruct (sa_timer _ _ _ _ _ HS) as (tm & T & F & W). cbn [endstop_events].
  by rewrite (bind_ok _ _ _ _ _ (tm_get_run _ _ _ T)), (bind_ok _ _ _ _ _ E), W.
Qed.

Lemma fire_over s e w n :
  sampling s e F_endstop_oversample_event w n -> endstop_fire oid s = endstop_oversample_event oid s.
Proof.
  intros HS. destruct (sa_timer _ _ _ _ _ HS) as (tm & T & F & W). unfold endstop_fire.
  by rewrite (bind_ok _ _ _ _ _ (tm_get_run _ _ _ T)), F.
Qed.

Lemma fire_rest s e w n : sampling s e F_endstop_event w n -> endstop_fire oid s = endstop_event oid s.
Proof.
  intros HS. destruct (sa_timer _ _ _ _ _ HS) as (tm & T & F & W). unfold endstop_fire.
  by rewrite (bind_ok _ _ _ _ _ (tm_get_run _ _ _ T)), F.
Qed.

(** [k] matching samples in a row. *)
Lemma over_hits k : forall s e t n,
  sampling s e F_endstop_oversample_event (u32 t) n -> Z.of_nat k < e_trigger_count e < 256 ->
  (forall i, (i < k)%nat -> matches e (n + i) = true) ->
  exists s', endstop_events k oid s = (Ok (sample_times t (e_sample_time e) k), s')
    /\ sampling s' (e <| e_trigger_count := e_trigger_count e - Z.of_nat k |>) F_endstop_oversample_event
         (u32 (t + Z.of_nat k * e_sample_time e)) (n + k) /\ sample_frame s s'.
Proof.
  induction k as [| k IH]; intros s e t n HS Hc Hm.
  - exists s. split; [done |]. rewrite Z.sub_0_r, Z.mul_0_l, Z.add_0_r, Nat.add_0_r. split; [by destruct e | by split].
  - destruct (over_hit s e (u32 t) n HS) as (s1 & E1 & HS1 & F1); [rewrite <- (Nat.add_0_r n); apply Hm; lia | lia |].
    rewrite u32_add_l in HS1.
    edestruct (IH s1 _ _ _ HS1) as (s' & E & HS' & F'); [simpl; lia | |].
    { intros i Hi. unfold matches. simpl. replace (S (n + i)) with (n + S i)%nat by lia. apply Hm. lia. }
    exists s'. rewrite (events_S _ _ _ _ _ k _ _ HS (eq_trans (fire_over _ _ _ _ HS) E1)), sample_times_S.
    rewrite (bind_ok _ _ _ _ _ E). split; [done |]. split; [| eauto using sample_frame_trans].
    simpl in HS'. replace (n + S k)%nat with (S (n + k)) by lia.
    replace (t + Z.of_nat (S k) * e_sample_time e) with (t + e_sample_time e + Z.of_nat k * e_sample_time e) by lia.
    replace (e_trigger_count e - Z.of_nat (S k)) with (e_trigger_count e - 1 - Z.of_nat k) by lia. exact HS'.
Qed.

(** A matching poll continues with the first extra sample at once. *)
Lemma rest_hit_events s e w n :
  sampling s e F_endstop_event w n -> matches e n = true ->
  exists s1, (forall k, endstop_events (S k) oid s = endstop_events (S k) oid s1)
    /\ sampling s1 (e <| e_nextwake := u32 (w + e_rest_time e) |>) F_endstop_oversample_event w (S n) /\ sample_frame s s1.
Proof.
  intros HS Hm. destruct (rest_hit s e w n HS Hm) as (s1 & E & HS1 & F). exists s1. split; [| done]. intros k.
  cbn [endstop_events]. destruct (sa_timer _ _ _ _ _ HS) as (tm & T & _ & W).
  destruct (sa_timer _ _ _ _ _ HS1) as (tm1 & T1 & _ & W1).
  rewrite (bind_ok _ _ _ _ _ (tm_get_run _ _ _ T)), (bind_ok _ _ _ _ _ (tm_get_run _ _ _ T1)), W, W1.
  unfold mbind, M_bind. by rewrite (fire_rest _ _ _ _ HS), (fire_over _ _ _ _ HS1), E.
Qed.

Lemma events_app k m s :
  endstop_events (k + m) oid s = (a ← endstop_events k oid; b ← endstop_events m oid; mret (a ++ b)) s.
Proof.
  revert s. induction k as [| k IH]; intros s.
  - cbn [Nat.add]. unfold mbind, M_bind. simpl. destruct (endstop_events m oid s) as [[] ?]; reflexivity.
  - cbn [Nat.add endstop_events]. unfold mbind, M_bind in *. destruct (tm_get _ s) as [[t | | |] s1]; try done.
    destruct (endstop_fire oid s1) as [[r | | |] s2]; try done. rewrite IH.
    destruct (endstop_events k oid s2) as [[a | | |] s3]; try done.
    simpl. destruct (endstop_events m oid s3) as [[b | | |] s4]; reflexivity.
Qed.

(** An oversampling run cut short by a sample that does not match. *)
Lemma over_bounce j s e t n :
  sampling s e F_endstop_oversample_event (u32 t) n -> Z.of_nat j < e_trigger_count e < 256 ->
  (forall i, (i < j)%nat -> matches e (n + i) = true) -> matches e (n + j) = false ->
  exists s', endstop_events (j + 1) oid s = (Ok (sample_times t (e_sample_time e) (j + 1)), s')
    /\ sampling s' (e <| e_trigger_count := e_sample_count e |>) F_endstop_event (e_nextwake e) (n + j + 1) /\ sample_frame s s'.
Proof.
  intros HS Hc Hm Hno. destruct (over_hits j s e t n HS Hc Hm) as (s1 & E1 & HS1 & F1).
  edestruct (over_miss s1) as (s2 & E2 & HS2 & F2); [exact HS1 | exact Hno |].
  rewrite events_app, (bind_ok _ _ _ _ _ E1).
  erewrite bind_ok by (rewrite (events_S _ _ _ _ _ 0 _ _ HS1 (eq_trans (fire_over _ _ _ _ HS1) E2)); reflexivity).
  exists s2. split.
  { unfold sample_times. rewrite seq_app, fmap_app. simpl. done. }
  split; [| eauto using sample_frame_trans]. replace (n + j + 1)%nat with (S (n + j)) by lia. exact HS2.
Qed.

(** A full oversampling run. *)
Lemma over_full j s e t n ts :
  sampling s e F_endstop_oversample_event (u32 t) n -> e_trigger_count e = Z.of_nat (S j) -> e_trigger_count e < 256 ->
  e_ts e = Some ts -> (forall i, (i <= j)%nat -> matches e (n + i) = true) ->
  exists s', endstop_events (S j) oid s
      = (trsync_do_trigger ts (e_trigger_reason e) ;;
         mret (sample_times t (e_sample_time e) j ++ [(u32 (t + Z.of_nat j * e_sample_time e), SF_DONE)])) s'
    /\ sample_frame s s'.
Proof.
  intros HS Hc Hc2 Hts Hm. destruct (over_hits j s e t n HS) as (s1 & E1 & HS1 & F1); [lia | intros i Hi; apply Hm; lia |].
  edestruct (over_last s1) as (s2 & E2 & HS2 & F2); [exact HS1 | apply (Hm j); lia | simpl; lia | exact Hts |].
  replace (S j) with (j + 1)%nat by lia. rewrite events_app, (bind_ok _ _ _ _ _ E1).
  exists s2. split; [| eauto using sample_frame_trans]. cbn [endstop_events].
  destruct (sa_timer _ _ _ _ _ HS1) as (tm & T & _ & W). rewrite bind_assoc, (bind_ok _ _ _ _ _ (tm_get_run _ _ _ T)), W.
  unfold mbind, M_bind in *. rewrite (fire_over _ _ _ _ HS1), E2. simpl.
  destruct (trsync_do_trigger ts (e_trigger_reason e) s2) as [[] ?]; reflexivity.
Qed.

(** C22: end stop oversampling.  A poll that does not see the sought level is
    repeated after [rest_time].  A poll that does is followed, in the same
    event, by extra samples [sample_time] apart: if one of the first
    [sample_count] of them differs the end stop goes back to polling on the
    original grid with a fresh count and nothing was triggered; if all of them
    match, the trigger fires at exactly the last of them and the timer ends.
    Nothing but the end stop and its own timer is touched before that. *)
Theorem endstop_oversampling s e t n ts :
  sampling s e F_endstop_event (u32 t) n -> e_trigger_count e = e_sample_count e -> 0 < e_sample_count e < 256 ->
  e_ts e = Some ts ->
  let c := Z.to_nat (e_sample_count e) in
  let st := e_sample_time e in
  let next := u32 (t + e_rest_time e) in
  (matches e n = false ->
     exists s', endstop_events 1 oid s = (Ok [(u32 t, SF_RESCHEDULE)], s')
       /\ sampling s' e F_endstop_event next (n + 1) /\ sample_frame s s')
  /\ (forall j, (j < c)%nat -> (forall i, (i <= j)%nat -> matches e (n + i) = true) -> matches e (n + j + 1) = false ->
     exists s', endstop_events (j + 1) oid s = (Ok (sample_times t st (j + 1)), s')
       /\ sampling s' (e <| e_nextwake := next |>) F_endstop_event next (n + j + 2) /\ sample_frame s s')
  /\ ((forall i, (i <= c)%nat -> matches e (n + i) = true) ->
     exists s', endstop_events c oid s
         = (trsync_do_trigger ts (e_trigger_reason e) ;;
            mret (sample_times t st (c - 1) ++ [(u32 (t + (Z.of_nat c - 1) * st), SF_DONE)])) s'
       /\ sample_frame s s').
Proof.
  intros HS Htc Hc Hts c st next. split; [| split].
  - intros Hm. destruct (rest_miss s e (u32 t) n HS Hm) as (s' & E & HS' & F). exists s'.
    rewrite (events_S _ _ _ _ _ 0 _ _ HS (eq_trans (fire_rest _ _ _ _ HS) E)). split; [done |]. split; [| done].
    rewrite u32_add_l in HS'. by rewrite Nat.add_1_r.
  - intros j Hj Hm Hno. destruct (rest_hit_events s e (u32 t) n HS) as (s1 & E1 & HS1 & F1); [rewrite <- (Nat.add_0_r n); apply Hm; lia |].
    rewrite u32_add_l in HS1. fold next in HS1.
    edestruct (over_bounce j s1) as (s' & E & HS' & F'); [exact HS1 | simpl; lia | | |].
    { intros i Hi. unfold matches. simpl. replace (S (n + i)) with (n + S i)%nat by lia. apply Hm. lia. }
    { unfold matches. simpl. replace (S (n + j)) with (n + j + 1)%nat by lia. exact Hno. }
    exists s'. rewrite Nat.add_1_r, E1, <- Nat.add_1_r. split; [exact E |]. split; [| eauto using sample_frame_trans].
    simpl in HS'. replace (n + j + 2)%nat with (S (n + j + 1)) by lia. destruct e; simpl in *; rewrite Htc; exact HS'.
  - intros Hm. destruct (rest_hit_events s e (u32 t) n HS) as (s1 & E1 & HS1 & F1); [rewrite <- (Nat.add_0_r n); apply Hm; lia |].
    assert (Ec : c = S (c - 1)) by (unfold c; lia).
    edestruct (over_full (c - 1) s1) as (s' & E & F'); [exact HS1 | simpl; lia | simpl; lia | exact Hts | |].
    { intros i Hi. unfold matches. simpl. replace (S (n + i)) with (n + S i)%nat by lia. apply Hm. lia. }
    exists s'. rewrite Ec at 1. rewrite E1, E. simpl. replace (Z.of_nat (c - 1)) with (Z.of_nat c - 1) by lia.
    split; [done | eauto using sample_frame_trans].
Qed.

End Sampling.

(** ** Examples *)

(** An end stop with three samples per trigger, polled at 5000, on a board
    whose pins read high at even readings only. *)
Definition demo_endstop : endstop := mk_endstop 5 1000 20 0 (Some 1) (Z.lor ESF_HOMING ESF_PIN_HIGH) 3 3 1.
Definition demo_homing : mcu :=
  initial_mcu <| m_base ::= fun b => b <| oids := Some [mk_oid (Some T_endstop) (Some (OEndstop demo_endstop))] |> <| oid_count := 1 |> |>
    <| m_sched ::= upd timers (insert (endstop_timer 0) (mk_timer None (Some F_endstop_event) 5000)) |>.

Lemma endstop_oversampling_witness :
  let B := demo_board in
  let next := u32 (5000 + e_rest_time demo_endstop) in
  next = 6000 /\ sample_times 5000 20 1 = [(5000, SF_RESCHEDULE)] /\
  exists s', endstop_events (0 + 1) 0 demo_homing = (Ok (sample_times 5000 (e_sample_time demo_endstop) (0 + 1)), s')
    /\ sampling 0 s' (demo_endstop <| e_nextwake := next |>) F_endstop_event next (0 + 0 + 2) /\ sample_frame 0 demo_homing s'.
Proof.
  intros B next. split; [reflexivity |]. split; [reflexivity |].
  assert (HS : sampling 0 demo_homing demo_endstop F_endstop_event (u32 5000) 0).
  { split; [reflexivity | exists (mk_timer None (Some F_endstop_event) 5000) | reflexivity].
    split; [vm_compute; reflexivity | split; reflexivity]. }
  destruct (endstop_oversampling (B := B) 0 (Z.le_refl 0) demo_homing demo_endstop 5000 0 1 HS eq_refl
    (conj eq_refl eq_refl) eq_refl) as (_ & Hbounce & _).
  apply (Hbounce 0%nat).
  - vm_decide.
  - intros i Hi. replace i with 0%nat by lia. reflexivity.
  - reflexivity.
Defined.
