(* ===== verification/Dispatch.v ===== *)
(** * Dispatch: parsing and routing of commands, the serial console

    Models the parsing and routing half of [src/src/command.c] and the receive
    half of [src/src/generic/serial_irq.c].  The table [command_index] is
    generated at build time and is a parameter; a pointer into the receive
    buffer is an offset from its start. *)

From S2P Require Import Prelude Wire State Command Sched Basecmd.
Import Crc Vlq Encode Block.

Definition HF_IN_SHUTDOWN : Z := 1.

Record command_parser := mk_parser {
  cp_num_args : Z;
  cp_flags : Z;
  cp_param_types : list param_type;
  cp_func : list Z -> FW unit;
}.

Section WithBoard.
Context `{B : Board}.

(** ** Pointers in messages *)

Definition command_encode_ptr (p : Z) : Z := if wide_size_t then u32 p else u32 (recv_base + p).
Definition command_decode_ptr (v : Z) : Z := if wide_size_t then v else v - recv_base.

(** The bytes a decoded pointer leads to. *)
Definition recv_bytes (p len : Z) : FW (list Z) :=
  rb ← gets (fun s => receive_buf (m_con s));
  if (0 <=? p) && (0 <=? len) && (p + len <=? Z.of_nat (length rb))
  then mret (take (Z.to_nat len) (drop (Z.to_nat p) rb)) else fault "receive_buf[]".

Definition recv_store (p : Z) (data : list Z) : FW unit :=
  set_con (fun c => c <| receive_buf ::= fun b =>
    take (Z.to_nat p) b ++ data ++ drop (Z.to_nat p + length data) b |>).

(** ** Parsing *)

(** One turn of the loop of [command_parsef]: the words stored through [args]
    and the new [p]. *)
Definition parse_param (buf : list Z) (p maxend : Z) (t : param_type) : res (list Z * Z) :=
  if p >? maxend then Shut "Command parser error"
  else
    match t with
    | PT_uint32 | PT_int32 | PT_uint16 | PT_int16 | PT_byte =>
        match parse_int (drop (Z.to_nat p) buf) with
        | Some (v, rest) => Ok ([v], Z.of_nat (length buf - length rest))
        | None => Fault "*p"
        end
    | PT_buffer =>
        match buf !! Z.to_nat p with
        | Some len =>
            let p := p + 1 in
            if p + len >? maxend then Shut "Command parser error"
            else Ok ([len; command_encode_ptr p], p + len)
        | None => Fault "*p"
        end
    | PT_string | PT_progmem_buffer => Shut "Command parser error"
    end.

(** [command_parsef]; [room] is what is left of the array [args]. *)
Fixpoint command_parsef (buf : list Z) (p maxend : Z) (ts : list param_type) (room : Z) : res (list Z * Z) :=
  match ts with
  | [] => Ok ([], p)
  | t :: ts =>
      '(a, p) ← parse_param buf p maxend t;
      if Z.of_nat (length a) >? room then Fault "args[]"
      else
        '(args, p) ← command_parsef buf p maxend ts (room - Z.of_nat (length a));
        Ok (a ++ args, p)
  end.

(** ** Routing *)

Context (command_index : list command_parser).

Definition command_lookup_parser (cmdid : Z) : FW command_parser :=
  if (cmdid =? 0) || (cmdid >=? Z.of_nat (length command_index)) then shutdown "Invalid command"
  else deref "command_index[]" (command_index !! Z.to_nat cmdid).

(** [irq_poll] of [armcm_irq.c] does nothing. *)
Definition irq_poll : FW unit := mret tt.

(** The handler of a parsed command, or the shutdown report. *)
Definition run_command (cp : command_parser) (args : list Z) : FW unit :=
  sd ← sched_is_shutdown;
  if sd && negb (has (cp_flags cp) HF_IN_SHUTDOWN) then sched_report_shutdown
  else irq_poll ;; cp_func cp args.

(** The loop of [command_dispatch]. *)
Fixpoint dispatch_loop (fuel : nat) (buf : list Z) (p msgend : Z) : FW unit :=
  match fuel with
  | O => lift_res OutOfFuel
  | S fuel =>
      if p >=? msgend then mret tt
      else
        cmdid ← deref "*p" (buf !! Z.to_nat p);
        let p := p + 1 in
        cp ← command_lookup_parser cmdid;
        '(args, p) ← lift_res (command_parsef buf p msgend (cp_param_types cp) (cp_num_args cp));
        run_command cp args ;;
        dispatch_loop fuel buf p msgend
  end.

(** Every turn consumes a byte of the block. *)
Definition command_dispatch (buf : list Z) (msglen : Z) : FW unit :=
  dispatch_loop (Z.to_nat msglen) buf MESSAGE_HEADER_SIZE (msglen - MESSAGE_TRAILER_SIZE).

Definition command_find_and_dispatch (buf : list Z) : FW (Z * Z) :=
  '(ret, pop_count) ← command_find_block buf;
  when (ret >? 0) (command_dispatch buf pop_count ;; command_send_ack) ;;
  mret (ret, pop_count).

(** ** The serial console *)

(** Receive interrupt. *)
Definition serial_rx_byte (data : Z) : FW unit :=
  when (data =? MESSAGE_SYNC) sched_wake_tasks ;;
  pos ← gets (fun s => receive_pos (m_con s));
  if pos >=? RX_BUFFER_SIZE then mret tt
  else set_con (fun c => c <| receive_buf ::= <[Z.to_nat pos := data]> |> <| receive_pos := pos + 1 |>).

(** Transmit interrupt: the return value and [*pdata]. *)
Definition serial_get_tx_byte : FW (Z * option Z) :=
  c ← gets m_con;
  if transmit_pos c >=? transmit_max c then mret (-1, None)
  else
    d ← deref "transmit_buf[]" (transmit_buf c !! Z.to_nat (transmit_pos c));
    set_con (fun c => c <| transmit_pos ::= fun p => p + 1 |>) ;;
    mret (0, Some d).

Fixpoint serial_rx_bytes (data : list Z) : FW unit :=
  match data with
  | [] => mret tt
  | d :: data => serial_rx_byte d ;; serial_rx_bytes data
  end.

(** [memmove] within an array. *)
Definition memmove (buf : list Z) (dst src : Z) (n : Z) : list Z :=
  take (Z.to_nat dst) buf ++ take (Z.to_nat n) (drop (Z.to_nat src) buf) ++ drop (Z.to_nat (dst + n)) buf.

(** [console_pop_input].  [races] is what the receive interrupt delivers while
    the loop runs: its first entry between the first read of [receive_pos] and
    [irq_save], the next one in the retry, and so on. *)
Fixpoint pop_input_loop (races : list (list Z)) (len copied : Z) : FW unit :=
  rpos ← gets (fun s => receive_pos (m_con s));
  let needcopy := u8 (rpos - len) in
  copied ←
    (if truth needcopy
     then
       set_con (fun c => c <| receive_buf ::= fun b => memmove b copied (copied + len) (needcopy - copied) |>) ;;
       sched_wake_tasks ;;
       mret needcopy
     else mret copied);
  match races with
  | [] => set_con (fun c => c <| receive_pos := needcopy |>)
  | arrived :: races =>
      serial_rx_bytes arrived ;;
      rpos' ← gets (fun s => receive_pos (m_con s));
      if negb (rpos =? rpos') then pop_input_loop races len copied
      else set_con (fun c => c <| receive_pos := needcopy |>)
  end.

Definition console_pop_input (races : list (list Z)) (len : Z) : FW unit := pop_input_loop races len 0.

(** The request " \x1c Request Serial Bootloader!! ~". *)
Definition bootloader_key : list Z :=
  [32; 28; 32; 82; 101; 113; 117; 101; 115; 116; 32; 83; 101; 114; 105; 97; 108; 32;
   66; 111; 111; 116; 108; 111; 97; 100; 101; 114; 33; 33; 32; 126].

(** [bootloader_request] is the board's. *)
Context (bootloader_request : FW unit).

Definition console_task (races : list (list Z)) : FW unit :=
  con ← gets m_con;
  let buf := take (Z.to_nat (receive_pos con)) (receive_buf con) in
  '(ret, pop_count) ← command_find_block buf;
  when (ret >? 0) (command_dispatch (receive_buf con) pop_count) ;;
  when (truth ret)
    (rb ← gets (fun s => receive_buf (m_con s));
     when (CONFIG_SERIAL_BOOTLOADER_SIDECHANNEL && (ret <? 0) && (pop_count =? 32)
           && bool_decide (take 32 rb = bootloader_key)) bootloader_request ;;
     console_pop_input races pop_count ;;
     when (ret >? 0) command_send_ack).

End WithBoard.

(** ** Parsing is confined to the block *)

Section Parse.
Context `{B : Board}.
Implicit Types (buf pre rest : list Z).

(** Words a parameter stores in [args]. *)
Definition param_words (t : param_type) : Z := match t with PT_buffer => 2 | _ => 1 end.
Definition params_words (ts : list param_type) : Z := foldr (fun t n => param_words t + n) 0 ts.

Lemma params_words_nonneg ts : 0 <= params_words ts.
Proof. induction ts as [| t ts IH]; simpl; [lia |]. destruct t; simpl; lia. Qed.

Lemma parse_param_safe pre rest p t :
  Forall is_u8 pre -> 0 <= p -> let maxend := Z.of_nat (length pre) - 2 in
  match parse_param (pre ++ MESSAGE_SYNC :: rest) p maxend t with
  | Ok (a, p') => p < p' <= Z.of_nat (length pre) + 1 /\ Z.of_nat (length a) = param_words t
  | Shut e => e = "Command parser error"%string
  | _ => False
  end.
Proof.
  intros Hpre Hp maxend. unfold parse_param. destruct (Z.gtb_spec p maxend) as [| Hm]; [done |].
  assert (Hint : exists v l1, parse_int (drop (Z.to_nat p) (pre ++ MESSAGE_SYNC :: rest)) = Some (v, l1 ++ rest)
            /\ (length l1 <= length pre - Z.to_nat p)%nat).
  { rewrite drop_app_le by lia. destruct (parse_int_stops (drop (Z.to_nat p) pre) MESSAGE_SYNC rest) as (v & l1 & E & _ & Hl);
      [unfold MESSAGE_SYNC; lia |]. exists v, l1. rewrite length_drop in Hl. done. }
  destruct Hint as (v & l1 & E & Hl).
  destruct t; try (rewrite E, !length_app; simpl; lia); [done | done |].
  destruct (lookup_lt_is_Some_2 pre (Z.to_nat p)) as [len El]; [lia |].
  rewrite (lookup_app_l_Some _ _ _ _ El). cbv zeta. destruct (Z.gtb_spec (p + 1 + len) maxend); [done |].
  pose proof (Forall_lookup_1 _ _ _ _ Hpre El) as Hlen. unfold is_u8 in Hlen. simpl. lia.
Qed.

Lemma command_parsef_block pre rest ts : forall p room,
  Forall is_u8 pre -> 0 <= p -> p <= Z.of_nat (length pre) + 1 -> params_words ts <= room ->
  match command_parsef (pre ++ MESSAGE_SYNC :: rest) p (Z.of_nat (length pre) - 2) ts room with
  | Ok (a, p') => p <= p' <= Z.of_nat (length pre) + 1 /\ Z.of_nat (length a) = params_words ts
  | Shut e => e = "Command parser error"%string
  | _ => False
  end.
Proof.
  induction ts as [| t ts IH]; intros p room Hpre Hp Hp2 Hroom; cbn [command_parsef]; [simpl; lia |].
  pose proof (parse_param_safe pre rest p t Hpre Hp) as H. cbv zeta in H.
  destruct (parse_param _ p _ t) as [[a p1] | e | |]; [| done | done | done]. destruct H as [H1 H2].
  cbn [mbind res_bind params_words foldr] in *. fold (params_words ts) in *.
  pose proof (params_words_nonneg ts). destruct (Z.gtb_spec (Z.of_nat (length a)) room); [lia |].
  specialize (IH p1 (room - Z.of_nat (length a))).
  destruct (command_parsef _ p1 _ ts _) as [[a' p2] | e | |]; try (apply IH; [done | lia | lia | lia]).
  destruct IH as [H3 H4]; [done | lia | lia | lia |]. cbn [mbind res_bind]. rewrite length_app. lia.
Qed.

Lemma framed_sync buf n q payload rest :
  framed buf n q payload rest -> Forall is_u8 payload -> is_u8 q ->
  exists pre, buf = pre ++ MESSAGE_SYNC :: rest /\ Forall is_u8 pre /\ Z.of_nat (length pre) = n - 1
    /\ exists c1 c2, pre = [u8 n; q] ++ payload ++ [c1; c2].
Proof.
  intros (-> & Hn & _ & _) Hp Hq. unfold command_add_frame.
  set (crc := crc16_ccitt _ _). exists (u8 n :: q :: payload ++ [u8 (Z.shiftr crc 8); u8 crc]).
  split; [simpl; rewrite <- !app_assoc; done |]. split.
  - repeat (constructor; [done || apply u8_range |]). apply Forall_app. split; [done |].
    repeat (constructor; [apply u8_range |]). constructor.
  - split; [| by eexists _, _]. simpl. rewrite length_app. simpl. unfold MESSAGE_MIN in Hn. lia.
Qed.

(** C25: parsing never leaves the block.  Whatever the payload of a well-formed
    block and whatever parameters the command expects, [command_parsef] either
    returns with its arguments filled exactly and [p] still inside the block
    (the trailing SYNC byte stops a truncated integer), or shuts down with
    "Command parser error"; it reads no byte behind the block and writes no
    word behind [args]. *)
Theorem command_parsef_safe buf n q payload rest ts p num_args :
  framed buf n q payload rest -> Forall is_u8 payload -> is_u8 q ->
  MESSAGE_HEADER_SIZE <= p <= n -> params_words ts <= num_args ->
  match command_parsef buf p (n - MESSAGE_TRAILER_SIZE) ts num_args with
  | Ok (args, p') => p <= p' <= n /\ Z.of_nat (length args) = params_words ts
  | Shut e => e = "Command parser error"%string
  | Fault _ | OutOfFuel => False
  end.
Proof.
  intros HF Hb Hq Hp Hw. destruct (framed_sync _ _ _ _ _ HF Hb Hq) as (pre & -> & Hpre & Hl & _).
  pose proof (command_parsef_block pre rest ts p num_args Hpre) as H.
  unfold MESSAGE_HEADER_SIZE, MESSAGE_TRAILER_SIZE in *.
  replace (Z.of_nat (length pre) - 2) with (n - 3) in H by lia.
  destruct (command_parsef _ p (n - 3) ts num_args) as [[a p'] | e | |]; try (apply H; lia).
  destruct H as [H1 H2]; lia.
Qed.

End Parse.

(** ** Dispatch runs the commands that were sent *)

Section Calls.
Context `{B : Board} (command_index : list command_parser).
Implicit Types (buf pre post : list Z).

(** An argument value with its wire form (an integer has several), and the words
    the handler receives for it when its wire form starts at offset [off] of the
    receive buffer. *)
Inductive cval := CInt (v : Z) (wire : list Z) | CBuf (data : list Z).

Definition encode_cval (v : cval) : list Z :=
  match v with CInt _ wire => wire | CBuf data => Z.of_nat (length data) :: data end.

Definition cval_words (off : Z) (v : cval) : list Z :=
  match v with CInt v _ => [v] | CBuf data => [Z.of_nat (length data); command_encode_ptr (off + 1)] end.

(** [parse_int] takes [wire] for [v], whatever follows. *)
Definition reads_as (wire : list Z) (v : Z) : Prop := forall post, parse_int (wire ++ post) = Some (v, post).

Lemma encode_int_reads v : is_u32 v -> reads_as (encode_int v) v.
Proof. intros H post. by apply parse_encode_int_ok. Qed.

Definition cval_typed (t : param_type) (v : cval) : Prop :=
  match t, v with
  | (PT_uint32 | PT_int32 | PT_uint16 | PT_int16 | PT_byte), CInt v wire => reads_as wire v
  | PT_buffer, CBuf data => Z.of_nat (length data) < 256
  | _, _ => False
  end.

Definition encode_cvals (vs : list cval) : list Z := concat (encode_cval <$> vs).

Fixpoint cvals_words (off : Z) (vs : list cval) : list Z :=
  match vs with
  | [] => []
  | v :: vs => cval_words off v ++ cvals_words (off + Z.of_nat (length (encode_cval v))) vs
  end.

Lemma parse_param_cval pre post maxend t v :
  cval_typed t v -> Z.of_nat (length pre + length (encode_cval v)) <= maxend ->
  parse_param (pre ++ encode_cval v ++ post) (Z.of_nat (length pre)) maxend t
  = Ok (cval_words (Z.of_nat (length pre)) v, Z.of_nat (length pre + length (encode_cval v))).
Proof.
  intros Ht Hm. unfold parse_param. destruct (Z.gtb_spec (Z.of_nat (length pre)) maxend); [lia |].
  rewrite Nat2Z.id. destruct v as [v wire | data].
  - assert (Hv : reads_as wire v) by (destruct t; done). cbn [encode_cval cval_words].
    assert (E : parse_int (drop (length pre) (pre ++ wire ++ post)) = Some (v, post)).
    { rewrite drop_app_length. apply Hv. }
    rewrite E, !length_app. replace (length pre + (length wire + length post) - length post)%nat
      with (length pre + length wire)%nat by lia. by destruct t.
  - destruct t; try done. cbn [encode_cval cval_words app] in *. rewrite list_lookup_middle by done. cbv zeta.
    simpl in Hm. destruct (Z.gtb_spec (Z.of_nat (length pre) + 1 + Z.of_nat (length data)) maxend); [lia |].
    do 2 f_equal. simpl. lia.
Qed.

Lemma command_parsef_cvals ts : forall vs pre post maxend room,
  Forall2 cval_typed ts vs -> params_words ts <= room ->
  Z.of_nat (length pre + length (encode_cvals vs)) <= maxend ->
  command_parsef (pre ++ encode_cvals vs ++ post) (Z.of_nat (length pre)) maxend ts room
  = Ok (cvals_words (Z.of_nat (length pre)) vs, Z.of_nat (length pre + length (encode_cvals vs))).
Proof.
  induction ts as [| t ts IH]; intros vs pre post maxend room Ht Hr Hm; inversion Ht as [| ? v ? vs' Hv Hvs]; subst;
    cbn [command_parsef]; [by rewrite Nat.add_0_r |].
  unfold encode_cvals in *. cbn [fmap list_fmap concat cvals_words] in *. rewrite length_app in Hm. rewrite <- app_assoc.
  rewrite parse_param_cval by (done || lia). cbn [mbind res_bind params_words foldr] in *. fold (params_words ts) in Hr.
  pose proof (params_words_nonneg ts).
  assert (Hl : Z.of_nat (length (cval_words (Z.of_nat (length pre)) v)) = param_words t) by (destruct t, v; done).
  destruct (Z.gtb_spec (Z.of_nat (length (cval_words (Z.of_nat (length pre)) v))) room); [lia |].
  pose proof (IH vs' (pre ++ encode_cval v) post maxend (room - Z.of_nat (length (cval_words (Z.of_nat (length pre)) v))) Hvs) as IHv.
  rewrite length_app, <- app_assoc in IHv. rewrite IHv by lia. cbn [mbind res_bind]. rewrite Nat2Z.inj_add, length_app.
  do 2 f_equal. lia.
Qed.

(** A command as the host sends it. *)
Record call := mk_call { c_id : Z; c_vals : list cval }.

Definition encode_call (c : call) : list Z := c_id c :: encode_cvals (c_vals c).

Definition valid_call (c : call) : Prop :=
  exists cp, 0 < c_id c /\ command_index !! Z.to_nat (c_id c) = Some cp
    /\ Forall2 cval_typed (cp_param_types cp) (c_vals c) /\ params_words (cp_param_types cp) <= cp_num_args cp.

(** The commands in order, the first one at offset [off] of the buffer. *)
Fixpoint run_calls (off : Z) (cs : list call) : FW unit :=
  match cs with
  | [] => mret tt
  | c :: cs =>
      cp ← deref "command_index[]" (command_index !! Z.to_nat (c_id c));
      run_command cp (cvals_words (off + 1) (c_vals c)) ;;
      run_calls (off + Z.of_nat (length (encode_call c))) cs
  end.

Lemma dispatch_loop_calls cs : forall fuel pre post s,
  Forall valid_call cs -> (length (concat (encode_call <$> cs)) < fuel)%nat ->
  dispatch_loop command_index fuel (pre ++ concat (encode_call <$> cs) ++ post) (Z.of_nat (length pre))
    (Z.of_nat (length pre + length (concat (encode_call <$> cs)))) s
  = run_calls (Z.of_nat (length pre)) cs s.
Proof.
  induction cs as [| c cs IH]; intros [| fuel] pre post s Hv Hf; try (simpl in Hf; lia); cbn [dispatch_loop run_calls].
  { destruct (Z.geb_spec (Z.of_nat (length pre)) (Z.of_nat (length pre + length (concat (encode_call <$> []))))); [done |].
    simpl in *. lia. }
  apply Forall_cons in Hv as [(cp & Hid & Hcp & Ht & Hw) Hv]. cbn [fmap list_fmap concat] in *. rewrite length_app in *.
  set (tail := concat (encode_call <$> cs)) in *.
  assert (Ec : encode_call c = c_id c :: encode_cvals (c_vals c)) by done.
  assert (Hlc : length (encode_call c) = S (length (encode_cvals (c_vals c)))) by done.
  destruct (Z.geb_spec (Z.of_nat (length pre)) (Z.of_nat (length pre + (length (encode_call c) + length tail)))); [lia |].
  replace (pre ++ (encode_call c ++ tail) ++ post) with ((pre ++ [c_id c]) ++ encode_cvals (c_vals c) ++ tail ++ post)
    by (rewrite Ec, <- !app_assoc; done).
  rewrite Nat2Z.id, <- app_assoc. cbn [app]. rewrite list_lookup_middle by done. msimpl.
  unfold command_lookup_parser.
  assert ((c_id c =? 0) || (c_id c >=? Z.of_nat (length command_index)) = false) as ->.
  { apply lookup_lt_Some in Hcp. lia. }
  rewrite Hcp. msimpl.
  replace (pre ++ c_id c :: encode_cvals (c_vals c) ++ tail ++ post)
    with ((pre ++ [c_id c]) ++ encode_cvals (c_vals c) ++ tail ++ post) by (rewrite <- app_assoc; done).
  replace (Z.of_nat (length pre) + 1) with (Z.of_nat (length (pre ++ [c_id c]))) by (rewrite length_app; simpl; lia).
  rewrite command_parsef_cvals; [| done | done | rewrite length_app; simpl; lia]. msimpl.
  unfold mbind, M_bind. destruct (run_command cp _ s) as [[[] | | |] s1]; try done.
  pose proof (IH fuel (pre ++ encode_call c) post s1 Hv) as IHc. rewrite length_app in IHc.
  rewrite <- Nat2Z.inj_add, <- IHc by lia. rewrite Ec, <- !app_assoc, !length_app. cbn [app length]. f_equal; lia.
Qed.

Lemma command_dispatch_calls buf n q cs rest s :
  framed buf n q (concat (encode_call <$> cs)) rest -> Forall valid_call cs ->
  command_dispatch command_index buf n s = run_calls MESSAGE_HEADER_SIZE cs s.
Proof.
  intros (Hb & Hn & Hmx & _) Hv. unfold command_dispatch.
  assert (Eb : exists c1 c2 c3, buf = [u8 n; q] ++ concat (encode_call <$> cs) ++ [c1; c2; c3] ++ rest).
  { rewrite Hb. unfold command_add_frame. eexists _, _, _. simpl. rewrite <- app_assoc. reflexivity. }
  destruct Eb as (c1 & c2 & c3 & ->). unfold MESSAGE_MIN in Hn.
  pose proof (dispatch_loop_calls cs (Z.to_nat n) [u8 n; q] ([c1; c2; c3] ++ rest) s Hv) as H.
  simpl length in H. change (Z.of_nat 2) with MESSAGE_HEADER_SIZE in H. rewrite <- H by lia. f_equal. unfold MESSAGE_TRAILER_SIZE. lia.
Qed.

(** The bytes of a buffer argument are found through its pointer. *)
Lemma buffer_at buf pre data post :
  0 <= recv_base -> recv_base + Z.of_nat (length buf) < 2 ^ 32 -> buf = pre ++ encode_cval (CBuf data) ++ post ->
  let p := command_encode_ptr (Z.of_nat (length pre) + 1) in
  take (length data) (drop (Z.to_nat (command_decode_ptr p)) buf) = data.
Proof.
  intros Hr0 Hr E p. assert (Hd : Z.to_nat (command_decode_ptr p) = (length pre + 1)%nat).
  { apply (f_equal length) in E. rewrite !length_app in E. simpl in E.
    unfold p, command_decode_ptr, command_encode_ptr. destruct wide_size_t; rewrite u32_small by cint_lia; lia. }
  rewrite Hd, E, <- drop_drop, drop_app_length. simpl. rewrite drop_0. apply take_app_length.
Qed.


End Calls.

(** ** Removing a block while bytes arrive *)

Section Pop.
Context `{B : Board}.
Implicit Types (c : console_st) (data : list Z).

Definition rx_wf c : Prop :=
  Z.of_nat (length (receive_buf c)) = RX_BUFFER_SIZE /\ 0 <= receive_pos c <= RX_BUFFER_SIZE.

(** The bytes received and not yet removed. *)
Definition received c : list Z := take (Z.to_nat (receive_pos c)) (receive_buf c).

(** What the receive interrupt keeps of [data] when [n] bytes are there. *)
Definition accepted (n : nat) data : list Z := take (Z.to_nat RX_BUFFER_SIZE - n) data.

Lemma received_length c : rx_wf c -> Z.of_nat (length (received c)) = receive_pos c.
Proof. intros [Hl Hp]. unfold received. rewrite length_take. lia. Qed.

(** The state of the receive half after some bytes. *)
Definition rx_same (s s' : mcu) : Prop :=
  transmit_buf (m_con s') = transmit_buf (m_con s) /\ transmit_pos (m_con s') = transmit_pos (m_con s)
  /\ transmit_max (m_con s') = transmit_max (m_con s) /\ m_base s' = m_base s /\ m_hw s' = m_hw s /\ m_cmd s' = m_cmd s.

Lemma serial_rx_byte_ok d s :
  rx_wf (m_con s) ->
  exists s', serial_rx_byte d s = (Ok tt, s') /\ rx_wf (m_con s') /\ rx_same s s'
    /\ received (m_con s') = received (m_con s) ++ accepted (length (received (m_con s))) [d].
Proof.
  intros Hwf. pose proof (received_length _ Hwf) as Hrl. destruct Hwf as [Hl Hp].
  unfold serial_rx_byte, set_con, sched_wake_tasks, set_sched, accepted.
  assert (Ht : forall T : mcu, m_con T = m_con s -> m_base T = m_base s -> m_hw T = m_hw s -> m_cmd T = m_cmd s ->
    exists s', (pos ← gets (fun s => receive_pos (m_con s));
      if pos >=? RX_BUFFER_SIZE then mret tt
      else modify (fun s => s <| m_con ::= fun c => c <| receive_buf ::= <[Z.to_nat pos := d]> |> <| receive_pos := pos + 1 |> |>)) T
      = (Ok tt, s') /\ rx_wf (m_con s') /\ rx_same s s'
    /\ received (m_con s') = received (m_con s) ++ take (Z.to_nat RX_BUFFER_SIZE - length (received (m_con s))) [d]).
  { intros T H1 H2 H3 H4. msimpl. rewrite H1. destruct (Z.geb_spec (receive_pos (m_con s)) RX_BUFFER_SIZE).
    - eexists. split; [reflexivity |]. split; [by rewrite H1 |]. split; [unfold rx_same; by rewrite H1, H2, H3, H4 |].
      replace (Z.to_nat RX_BUFFER_SIZE - length (received (m_con s)))%nat with 0%nat by lia. by rewrite app_nil_r, H1.
    - eexists. split; [reflexivity |]. split; [|split; [unfold rx_same; simpl; by rewrite H1, H2, H3, H4 |]].
      { unfold rx_wf. simpl. rewrite H1, length_insert. lia. }
      unfold received at 1. simpl. rewrite H1. replace (Z.to_nat (receive_pos (m_con s) + 1)) with (S (Z.to_nat (receive_pos (m_con s)))) by lia.
      rewrite (take_S_r _ _ d) by (apply list_lookup_insert_eq; lia). rewrite take_insert_ge by lia.
      f_equal. rewrite take_ge; [done |]. simpl. lia. }
  destruct (d =? MESSAGE_SYNC); msimpl; by apply Ht.
Qed.

Lemma accepted_cons n d data :
  accepted n (d :: data) = accepted n [d] ++ accepted (n + length (accepted n [d])) data.
Proof.
  unfold accepted. destruct (Z.to_nat RX_BUFFER_SIZE - n)%nat as [| k] eqn:E.
  - simpl. rewrite Nat.add_0_r, E. done.
  - simpl. rewrite take_nil. simpl. replace (Z.to_nat RX_BUFFER_SIZE - (n + 1))%nat with k by lia. done.
Qed.

Lemma serial_rx_bytes_ok data : forall s,
  rx_wf (m_con s) ->
  exists s', serial_rx_bytes data s = (Ok tt, s') /\ rx_wf (m_con s') /\ rx_same s s'
    /\ received (m_con s') = received (m_con s) ++ accepted (length (received (m_con s))) data.
Proof.
  induction data as [| d data IH]; intros s Hwf; cbn [serial_rx_bytes].
  - exists s. split; [done |]. split; [done |]. split; [done |]. unfold accepted. by rewrite take_nil, app_nil_r.
  - destruct (serial_rx_byte_ok d s Hwf) as (s1 & E1 & Hwf1 & (A1 & A2 & A3 & A4 & A5 & A6) & R1).
    rewrite (bind_ok _ _ _ _ _ E1). destruct (IH s1 Hwf1) as (s2 & E2 & Hwf2 & (B1 & B2 & B3 & B4 & B5 & B6) & R2).
    exists s2. split; [done |]. split; [done |]. split; [unfold rx_same; repeat split; congruence |].
    rewrite R2, R1, length_app, <- app_assoc, <- accepted_cons. done.
Qed.
(** The stream of received bytes, with those accepted during the removal. *)
Fixpoint raced (stream : list Z) (races : list (list Z)) : list Z :=
  match races with
  | [] => stream
  | data :: races =>
      match accepted (length stream) data with
      | [] => stream
      | a => raced (stream ++ a) races
      end
  end.

(** At the head of the loop: the first [copied] bytes are already in place, the
    bytes behind [copied + len] are still where they were received. *)
Record popping (s : mcu) (stream : list Z) (len copied : Z) : Prop := {
  pp_wf : rx_wf (m_con s);
  pp_len : length (received (m_con s)) = length stream;
  pp_bound : 0 <= copied /\ 0 <= len /\ copied + len <= Z.of_nat (length stream);
  pp_done : take (Z.to_nat copied) (received (m_con s)) = take (Z.to_nat copied) (drop (Z.to_nat len) stream);
  pp_todo : drop (Z.to_nat (copied + len)) (received (m_con s)) = drop (Z.to_nat (copied + len)) stream;
}.

Lemma memmove_pop (b stream : list Z) (pos len copied : Z) :
  0 <= copied -> 0 <= len -> copied + len <= pos -> pos <= Z.of_nat (length b) -> Z.of_nat (length stream) = pos ->
  take (Z.to_nat copied) (take (Z.to_nat pos) b) = take (Z.to_nat copied) (drop (Z.to_nat len) stream) ->
  drop (Z.to_nat (copied + len)) (take (Z.to_nat pos) b) = drop (Z.to_nat (copied + len)) stream ->
  let b' := memmove b copied (copied + len) (pos - len - copied) in
  length b' = length b /\ take (Z.to_nat (pos - len)) b' = drop (Z.to_nat len) stream.
Proof.
  intros Hc Hl Hcl Hp Hs Hd Ht b'. unfold b', memmove.
  assert (E : take (Z.to_nat (pos - len - copied)) (drop (Z.to_nat (copied + len)) b) = drop (Z.to_nat (copied + len)) stream).
  { rewrite <- Ht, take_drop_commute. do 2 f_equal. lia. }
  rewrite E. rewrite take_take, Nat.min_l in Hd by lia. rewrite Hd.
  assert (Ej : take (Z.to_nat copied) (drop (Z.to_nat len) stream) ++ drop (Z.to_nat (copied + len)) stream = drop (Z.to_nat len) stream).
  { rewrite <- (take_drop (Z.to_nat copied) (drop (Z.to_nat len) stream)) at 2. f_equal. rewrite drop_drop. f_equal. lia. }
  rewrite app_assoc, Ej. split.
  - rewrite length_app, !length_drop. lia.
  - apply take_app_length'. rewrite length_drop. lia.
Qed.

(** One pass up to the check for a race. *)
Lemma pop_input_pass races s stream len copied :
  popping s stream len copied ->
  let pos := Z.of_nat (length stream) in
  exists s1 copied', pop_input_loop races len copied s
    = (match races with
       | [] => set_con (fun c => c <| receive_pos := pos - len |>)
       | arrived :: races =>
           serial_rx_bytes arrived ;;
           rpos' ← gets (fun s => receive_pos (m_con s));
           if negb (pos =? rpos') then pop_input_loop races len copied'
           else set_con (fun c => c <| receive_pos := pos - len |>)
       end) s1
    /\ rx_wf (m_con s1) /\ length (received (m_con s1)) = length stream /\ copied' = pos - len
    /\ take (Z.to_nat (pos - len)) (received (m_con s1)) = drop (Z.to_nat len) stream.
Proof.
  intros [Hwf Hlen (Hc & Hl & Hcl) Hd Ht] pos. pose proof (received_length _ Hwf) as Hrl. pose proof Hwf as [Hbl Hpos].
  assert (Ep : receive_pos (m_con s) = pos) by (unfold pos; lia).
  assert (Hu : u8 (pos - len) = pos - len) by (apply u8_small; unfold RX_BUFFER_SIZE in Hpos; cint_lia).
  destruct races as [| arrived races]; cbn [pop_input_loop]; msimpl; rewrite Ep, Hu; unfold truth.
  all: destruct (Z.eqb_spec (pos - len) 0) as [E0 | E0]; cbn [negb]; msimpl.
  1, 3: exists s, (pos - len); (split; [replace (pos - len) with copied by lia; done |]);
    (split; [done |]); (split; [done |]); (split; [done |]); rewrite E0, (drop_ge stream) by lia; done.
  all: unfold set_con at 1, sched_wake_tasks, set_sched; msimpl; simpl.
  all: destruct (memmove_pop (receive_buf (m_con s)) stream pos len copied) as [Hbl' Hd']; [lia.. | | |];
    [rewrite <- Ep; exact Hd | rewrite <- Ep; exact Ht |].
  all: eexists _, (pos - len); (split; [reflexivity |]); unfold rx_wf, received; simpl; rewrite Ep, Hbl';
    (split; [lia |]); (split; [rewrite length_take; lia |]); (split; [done |]); rewrite take_take, Nat.min_l by lia; exact Hd'.
Qed.

Lemma pop_finish s1 stream len :
  rx_wf (m_con s1) -> length (received (m_con s1)) = length stream -> 0 <= len <= Z.of_nat (length stream) ->
  take (Z.to_nat (Z.of_nat (length stream) - len)) (received (m_con s1)) = drop (Z.to_nat len) stream ->
  let s' := s1 <| m_con ::= fun c => c <| receive_pos := Z.of_nat (length stream) - len |> |> in
  rx_wf (m_con s') /\ received (m_con s') = drop (Z.to_nat len) stream.
Proof.
  intros Hwf Hl Hb Ht s'. pose proof (received_length _ Hwf). destruct Hwf as [Hbl Hp].
  split; [unfold rx_wf; simpl; lia |]. unfold received in *. simpl. rewrite take_take, Nat.min_l in Ht by lia. exact Ht.
Qed.

Lemma pop_input_loop_ok races : forall s stream len copied,
  popping s stream len copied ->
  exists s', pop_input_loop races len copied s = (Ok tt, s') /\ rx_wf (m_con s')
    /\ received (m_con s') = drop (Z.to_nat len) (raced stream races).
Proof.
  induction races as [| data races IH]; intros s stream len copied HP; pose proof (pp_bound _ _ _ _ HP) as (Hc & Hl & Hcl); cbn [raced].
  - destruct (pop_input_pass [] s stream len copied HP) as (s1 & copied' & E & Hwf1 & Hl1 & Ec & Ht1). rewrite E.
    eexists. split; [reflexivity |]. apply pop_finish; [done | done | lia | done].
  - destruct (pop_input_pass (data :: races) s stream len copied HP) as (s1 & copied' & E & Hwf1 & Hl1 & Ec & Ht1).
    rewrite E. destruct (serial_rx_bytes_ok data s1 Hwf1) as (s2 & E2 & Hwf2 & _ & R2). rewrite (bind_ok _ _ _ _ _ E2). msimpl.
    pose proof (received_length _ Hwf2) as Hrl2. rewrite R2, Hl1 in Hrl2. rewrite length_app, Hl1 in Hrl2.
    assert (Ht2 : take (Z.to_nat (Z.of_nat (length stream) - len)) (received (m_con s2)) = drop (Z.to_nat len) stream).
    { rewrite R2, take_app_le by lia. exact Ht1. }
    destruct (accepted (length stream) data) as [| a0 al] eqn:Ea.
    + simpl in Hrl2. rewrite Nat.add_0_r in Hrl2. rewrite <- Hrl2, Z.eqb_refl. cbn [negb].
      eexists. split; [reflexivity |]. apply pop_finish; [done | | lia | done]. by rewrite R2, Hl1, Ea, app_nil_r.
    + destruct (Z.eqb_spec (Z.of_nat (length stream)) (receive_pos (m_con s2))); [simpl in Hrl2; lia |]. cbn [negb].
      apply IH. rewrite Hl1, Ea in R2. subst copied'. split; [done | | | |].
      * rewrite R2, !length_app. lia.
      * rewrite length_app. simpl. lia.
      * rewrite Ht2. rewrite drop_app_le by lia. rewrite take_app_le by (rewrite length_drop; lia).
        rewrite take_ge; [done | rewrite length_drop; lia].
      * rewrite R2. replace (Z.of_nat (length stream) - len + len) with (Z.of_nat (length stream)) by lia.
        rewrite Nat2Z.id, drop_app_length, <- Hl1, drop_app_length. done.
Qed.

(** C32: removing a block loses no byte.  However often the receive interrupt
    races with [console_pop_input], the loop ends and afterwards the buffer
    holds exactly the bytes behind the removed ones, followed by those that
    arrived (and fit) while the removal was going on, in order. *)
Theorem console_pop_input_races races s len :
  rx_wf (m_con s) -> 0 <= len <= receive_pos (m_con s) ->
  exists s', console_pop_input races len s = (Ok tt, s') /\ rx_wf (m_con s')
    /\ received (m_con s') = drop (Z.to_nat len) (raced (received (m_con s)) races).
Proof.
  intros Hwf Hlen. pose proof (received_length _ Hwf) as Hrl. apply pop_input_loop_ok. split; [done | done | lia | done | done].
Qed.

End Pop.

(** ** Examples *)

(** A table with one command that takes an integer and a buffer. *)
Definition demo_index : list command_parser :=
  [mk_parser 0 0 [] (fun _ => mret tt);
   mk_parser 3 0 [PT_uint32; PT_buffer]
     (fun args => a0 ← arg args 0; set_base (fun b => b <| config_crc := a0 |>))].

Definition demo_calls : list call :=
  [mk_call 1 [CInt 1000 (encode_int 1000); CBuf [1; 2; 3]]; mk_call 1 [CInt 4294967295 (encode_int 4294967295); CBuf []]].

Definition demo_payload : list Z := concat (encode_call <$> demo_calls).
Definition demo_block : list Z := command_add_frame 0x10 (Z.of_nat (length demo_payload) + 5) demo_payload ++ [1; 2].

Lemma demo_block_framed : framed demo_block 15 0x10 demo_payload [1; 2].
Proof. split; [reflexivity | split; [reflexivity | split; [vm_compute; discriminate | reflexivity]]]. Qed.

Lemma command_parsef_safe_witness :
  let B := demo_board in
  command_parsef demo_block 3 12 [PT_uint32; PT_buffer] 3 = Ok ([1000; 3; 0x20004006], 9) /\
  match command_parsef demo_block 11 12 [PT_uint32; PT_uint32] 2 with
  | Ok (args, p') => 11 <= p' <= 15 /\ Z.of_nat (length args) = 2
  | Shut e => e = "Command parser error"%string
  | Fault _ | OutOfFuel => False
  end.
Proof.
  intros B. split; [vm_compute; reflexivity |].
  apply (command_parsef_safe (B := B) demo_block 15 0x10 demo_payload [1; 2] [PT_uint32; PT_uint32] 11 2);
    [exact demo_block_framed | vm_decide | vm_decide | vm_decide | vm_decide].
Defined.


(** Ten bytes received, five of them removed, three more arriving meanwhile. *)
Definition demo_rx : mcu :=
  initial_mcu <| m_con ::= fun c => c <| receive_buf := seqZ 1 10 ++ replicate 182 0 |> <| receive_pos := 10 |> |>.

Lemma console_pop_input_races_witness :
  let B := demo_board in
  exists s', console_pop_input [[20; 21]; [22]; []] 5 demo_rx = (Ok tt, s') /\ rx_wf (m_con s')
    /\ received (m_con s') = [6; 7; 8; 9; 10; 20; 21; 22].
Proof.
  intros B. apply (console_pop_input_races [[20; 21]; [22]; []] demo_rx 5); [split; vm_decide | vm_decide].
Defined.
