(* ===== verification/Gpiocmds.v ===== *)
(** * Gpiocmds: digital outputs and software PWM

    Models [src/src/gpiocmds.c] and [src/src/initial_pins.c].  A digital output
    is named by its oid; its timer is [ObjTimer oid 0]. *)

From S2P Require Import Prelude Wire State Command Sched Basecmd Stepper.
Import Encode.

Definition DF_ON : Z := 1.
Definition DF_TOGGLING : Z := 2.
Definition DF_CHECK_END : Z := 4.
Definition DF_DEFAULT_ON : Z := 16.
Definition IP_OUT_HIGH : Z := 1.

Section WithBoard.
Context `{B : Board}.

Definition get_digital (oid : Z) : FW digital_out :=
  o ← obj_get oid;
  match o with ODigital d => mret d | _ => fault "struct digital_out_s" end.

Definition upd_digital (oid : Z) (f : digital_out -> digital_out) : FW unit :=
  d ← get_digital oid; obj_put oid (ODigital (f d)).

Definition digital_timer (oid : Z) : tptr := ObjTimer oid 0.

(** [container_of] of a queue node. *)
Definition digital_move_of (mn : Z) : FW digital_move :=
  n ← node_get mn;
  match mn_data n with MoveDigital m => mret m | _ => fault "struct digital_move" end.

(** ** Timer callbacks *)

Definition digital_toggle_event (oid : Z) : FW Z :=
  d ← get_digital oid;
  gpio_out_toggle_noirq (d_pin d) ;;
  upd_digital oid (fun d => d <| d_flags ::= fun f => Z.lxor f DF_ON |>) ;;
  d ← get_digital oid;
  t ← tm_get (digital_timer oid);
  let waketime := u32 (t_waketime t + (if has (d_flags d) DF_ON then d_on_duration d else d_off_duration d)) in
  if has (d_flags d) DF_CHECK_END && negb (timer_is_before waketime (d_end_time d))
  then
    set_func (digital_timer oid) F_digital_load_event ;;
    set_waketime (digital_timer oid) (d_end_time d) ;;
    mret SF_RESCHEDULE
  else set_waketime (digital_timer oid) waketime ;; mret SF_RESCHEDULE.

(** "Calculate next end_time and flags" of [digital_load_event], without the
    queued update: the flags and the end time, for an update that takes effect
    at [waketime]. *)
Definition load_limits (d : digital_out) (waketime on_duration : Z) : Z * Z :=
  let flags := if truth on_duration then DF_ON else 0 in
  if negb (truth flags) || (on_duration >=? d_cycle_time d)
  then
    if negb (Bool.eqb (negb (truth flags)) (negb (has (d_flags d) DF_DEFAULT_ON))) && truth (d_max_duration d)
    then (Z.lor flags DF_CHECK_END, u32 (waketime + d_max_duration d))
    else (flags, 0)
  else
    let flags := Z.lor flags DF_TOGGLING in
    if truth (d_max_duration d) then (Z.lor flags DF_CHECK_END, u32 (waketime + d_max_duration d))
    else (flags, 0).

(** The limit a queued update puts on the current one. *)
Definition load_next_update (d : digital_out) (flags end_time : Z) : FW (Z * Z) :=
  if move_queue_empty (d_mq d) then mret (flags, end_time)
  else
    nn ← deref "move_queue_first" (move_queue_first (d_mq d));
    m ← digital_move_of nn;
    let wake := dm_waketime m in
    if has flags DF_CHECK_END && timer_is_before end_time wake
    then shutdown "Scheduled digital out event will exceed max_duration"
    else mret (Z.lor flags DF_CHECK_END, wake).

(** "Schedule next event" of [digital_load_event]. *)
Definition load_schedule_next (oid flags end_time on_duration : Z) : FW Z :=
  t ← tm_get (digital_timer oid);
  if negb (has flags DF_TOGGLING)
  then
    if negb (has flags DF_CHECK_END) then mret SF_DONE
    else set_waketime (digital_timer oid) end_time ;; mret SF_RESCHEDULE
  else
    let waketime := u32 (t_waketime t + on_duration) in
    if has flags DF_CHECK_END && negb (timer_is_before waketime end_time)
    then set_waketime (digital_timer oid) end_time ;; mret SF_RESCHEDULE
    else
      set_func (digital_timer oid) F_digital_toggle_event ;;
      set_waketime (digital_timer oid) waketime ;;
      upd_digital oid (fun d => d <| d_on_duration := on_duration |>
                                  <| d_off_duration := u32 (d_cycle_time d - on_duration) |>) ;;
      mret SF_RESCHEDULE.

Definition digital_load_event (oid : Z) : FW Z :=
  d ← get_digital oid;
  if move_queue_empty (d_mq d) then shutdown "Missed scheduling of next digital out event"
  else
    '(mn, mh) ← move_queue_pop (d_mq d);
    upd_digital oid (fun d => d <| d_mq := mh |>) ;;
    m ← digital_move_of mn;
    let on_duration := dm_on_duration m in
    gpio_out_write (d_pin d) (if truth on_duration then DF_ON else 0) ;;
    move_free mn ;;
    t ← tm_get (digital_timer oid);
    d ← get_digital oid;
    let '(flags, end_time) := load_limits d (t_waketime t) on_duration in
    '(flags, end_time) ← load_next_update d flags end_time;
    upd_digital oid (fun d => d <| d_end_time := end_time |>
                                <| d_flags := Z.lor flags (Z.land (d_flags d) DF_DEFAULT_ON) |>) ;;
    load_schedule_next oid flags end_time on_duration.

(** ** Commands *)

Definition command_config_digital_out (args : list Z) : FW unit :=
  a1 ← arg args 1;
  a2 ← arg args 2;
  pin ← gpio_out_setup a1 (b2z (truth a2));
  a0 ← arg args 0;
  oid ← oid_alloc a0 T_digital_out (sizeof_obj T_digital_out);
  a3 ← arg args 3;
  a4 ← arg args 4;
  upd_digital oid (fun d => d <| d_pin := pin |>
    <| d_flags := Z.lor (if truth a2 then DF_ON else 0) (if truth a3 then DF_DEFAULT_ON else 0) |>
    <| d_max_duration := a4 |>) ;;
  mq ← move_queue_setup (sizeof_move T_digital_out);
  upd_digital oid (fun d => d <| d_mq := mq |>).

Definition command_set_digital_out_pwm_cycle (args : list Z) : FW unit :=
  a0 ← arg args 0;
  oid ← oid_lookup a0 T_digital_out;
  d ← get_digital oid;
  if negb (move_queue_empty (d_mq d)) then shutdown "Can not set soft pwm cycle ticks while updates pending"
  else
    a1 ← arg args 1;
    upd_digital oid (fun d => d <| d_cycle_time := a1 |>).

(** The first update of an idle queue: when the output is loaded. *)
Definition queue_digital_first (oid time : Z) : FW unit :=
  d ← get_digital oid;
  let flags := d_flags d in
  if has flags DF_CHECK_END && timer_is_before (d_end_time d) time
  then shutdown "Scheduled digital out event will exceed max_duration"
  else
    upd_digital oid (fun d => d <| d_end_time := time |> <| d_flags := Z.lor flags DF_CHECK_END |>) ;;
    t ← tm_get (digital_timer oid);
    if has flags DF_TOGGLING && timer_is_before (t_waketime t) time then mret tt
    else
      sched_del_timer (digital_timer oid) ;;
      set_waketime (digital_timer oid) time ;;
      set_func (digital_timer oid) F_digital_load_event ;;
      sched_add_timer (digital_timer oid).

Definition command_queue_digital_out (args : list Z) : FW unit :=
  a0 ← arg args 0;
  oid ← oid_lookup a0 T_digital_out;
  m ← move_alloc;
  time ← arg args 1;
  a2 ← arg args 2;
  node_upd m (fun n => n <| mn_data := MoveDigital (mk_digital_move time a2) |>) ;;
  d ← get_digital oid;
  '(first_on_queue, mh) ← move_queue_push m (d_mq d);
  upd_digital oid (fun d => d <| d_mq := mh |>) ;;
  when (truth first_on_queue) (queue_digital_first oid time).

Definition command_update_digital_out (args : list Z) : FW unit :=
  a0 ← arg args 0;
  oid ← oid_lookup a0 T_digital_out;
  sched_del_timer (digital_timer oid) ;;
  d ← get_digital oid;
  if negb (move_queue_empty (d_mq d)) then shutdown "update_digital_out not valid with active queue"
  else
    a1 ← arg args 1;
    let value := u8 a1 in
    let flags := d_flags d in
    let on_flag := if truth value then DF_ON else 0 in
    gpio_out_write (d_pin d) on_flag ;;
    if negb (Bool.eqb (negb (truth on_flag)) (negb (has flags DF_DEFAULT_ON))) && truth (d_max_duration d)
    then
      now ← timer_read_time;
      let end_time := u32 (now + d_max_duration d) in
      upd_digital oid (fun d => d <| d_end_time := end_time |>) ;;
      set_waketime (digital_timer oid) end_time ;;
      set_func (digital_timer oid) F_digital_load_event ;;
      upd_digital oid (fun d => d <| d_flags := Z.lor (Z.lor (Z.land flags DF_DEFAULT_ON) on_flag) DF_CHECK_END |>) ;;
      sched_add_timer (digital_timer oid)
    else upd_digital oid (fun d => d <| d_flags := Z.lor (Z.land flags DF_DEFAULT_ON) on_flag |>).

Definition digital_out_shutdown : FW unit :=
  foreach_oid T_digital_out (fun oid =>
    d ← get_digital oid;
    gpio_out_write (d_pin d) (Z.land (d_flags d) DF_DEFAULT_ON) ;;
    upd_digital oid (fun d => d <| d_flags := if has (d_flags d) DF_DEFAULT_ON then Z.lor DF_ON DF_DEFAULT_ON else 0 |>) ;;
    upd_digital oid (fun d => d <| d_mq ::= move_queue_clear |>)).

Definition command_set_digital_out (args : list Z) : FW unit :=
  a0 ← arg args 0;
  a1 ← arg args 1;
  _ ← gpio_out_setup a0 a1;
  mret tt.

(** [initial_pins] is generated from the configuration: pins and flags. *)
Fixpoint initial_pins_setup (initial_pins : list (Z * Z)) : FW unit :=
  match initial_pins with
  | [] => mret tt
  | (pin, flags) :: ips => _ ← gpio_out_setup pin (Z.land flags IP_OUT_HIGH); initial_pins_setup ips
  end.

(** ** Runs of the output timer *)

Definition digital_fire (oid : Z) : FW Z :=
  t ← tm_get (digital_timer oid);
  match t_func t with
  | Some F_digital_load_event => digital_load_event oid
  | Some F_digital_toggle_event => digital_toggle_event oid
  | _ => fault "digital_out func"
  end.

Fixpoint digital_events (n : nat) (oid : Z) : FW (list (Z * Z)) :=
  match n with
  | O => mret []
  | S n =>
      t ← tm_get (digital_timer oid);
      r ← digital_fire oid;
      rest ← digital_events n oid;
      mret ((t_waketime t, r) :: rest)
  end.
End WithBoard.

(** ** The watchdog *)

Section Watchdog.
Context `{B : Board} (oid : Z).
Implicit Types (s : mcu) (d : digital_out).

Lemma get_digital_run d s : obj_view s oid = Some (ODigital d) -> get_digital oid s = (Ok d, s).
Proof. intros H. unfold get_digital. by rewrite (bind_ok _ _ _ _ _ (obj_get_run _ _ _ H)). Qed.

Lemma upd_digital_run d f s :
  obj_view s oid = Some (ODigital d) -> upd_digital oid f s = (Ok tt, put_obj oid (ODigital (f d)) s).
Proof. intros H. unfold upd_digital. by rewrite (bind_ok _ _ _ _ _ (get_digital_run _ _ H)). Qed.

(** An output that toggles until its end time [E], with nothing queued. *)
Record toggling d (E : Z) : Prop := {
  tg_check : has (d_flags d) DF_CHECK_END = true;
  tg_end : d_end_time d = u32 E;
  tg_on : 0 < d_on_duration d < 2 ^ 31;
  tg_off : 0 < d_off_duration d < 2 ^ 31;
  tg_queue : move_queue_empty (d_mq d) = true;
}.

Lemma has_lxor_on f : has (Z.lxor f DF_ON) DF_CHECK_END = has f DF_CHECK_END.
Proof.
  unfold has. f_equal. apply Z.bits_inj'. intros i Hi. rewrite !Z.land_spec, Z.lxor_spec.
  unfold DF_ON, DF_CHECK_END. change 4 with (2 ^ 2). change 1 with (2 ^ 0).
  destruct (decide (i = 2)) as [-> |]; [by rewrite xorb_false_r |].
  rewrite (Z.pow2_bits_false 2 i) by lia. by rewrite !andb_false_r.
Qed.

(** One toggle: later, but not behind the end time. *)
Lemma toggle_step s d T E :
  device oid s (ODigital d) F_digital_toggle_event (u32 T) -> toggling d E -> E - 2 ^ 31 < T <= E ->
  exists s' d' T', digital_fire oid s = (Ok SF_RESCHEDULE, s') /\ toggling d' E /\ T < T' /\
    ((T' < E /\ device oid s' (ODigital d') F_digital_toggle_event (u32 T')) \/
     device oid s' (ODigital d') F_digital_load_event (u32 E)).
Proof.
  intros HD [Hc He Hon Hoff Hq] HT. unfold digital_fire.
  destruct (device_get _ _ _ _ _ HD) as (tm & Et & Hf & Hw). unfold digital_timer.
  rewrite (bind_ok _ _ _ _ _ Et), Hf. unfold digital_toggle_event, gpio_out_toggle_noirq, log_pin.
  rewrite (bind_ok _ _ _ _ _ (get_digital_run _ _ (dv_view _ _ _ _ _ HD))). msimpl.
  pose proof (device_hw oid s _ _ _ (upd pin_log (cons (EvToggle (d_pin d)))) HD) as HD1.
  rewrite (bind_ok _ _ _ _ _ (upd_digital_run _ _ _ (dv_view _ _ _ _ _ HD1))).
  set (d1 := d <| d_flags ::= fun f => Z.lxor f DF_ON |>).
  pose proof (device_put oid _ _ (ODigital d1) _ _ HD1) as HD2.
  rewrite (bind_ok _ _ _ _ _ (get_digital_run _ _ (dv_view _ _ _ _ _ HD2))).
  destruct (device_get _ _ _ _ _ HD2) as (tm2 & Et2 & Hf2 & Hw2). unfold digital_timer.
  rewrite (bind_ok _ _ _ _ _ Et2), Hw2.
  assert (Hd1 : toggling d1 E) by (split; [by unfold d1; simpl; rewrite has_lxor_on | done..]).
  set (dur := if has (d_flags d1) DF_ON then d_on_duration d1 else d_off_duration d1).
  assert (Hdur : 0 < dur < 2 ^ 31) by (unfold dur, d1; simpl; by case_match).
  rewrite (tg_check _ _ Hd1), (tg_end _ _ Hd1), u32_add_l, timer_is_before_abs by lia. cbn [andb].
  unfold set_func, set_waketime, digital_timer.
  destruct (Z.ltb_spec (T + dur) E) as [Hlt | Hge]; cbn [negb].
  - edestruct (device_upd oid _ _ F_digital_toggle_event F_digital_toggle_event (u32 T) (u32 (T + dur))
      (fun r => r <| t_waketime := u32 (T + dur) |>) HD2) as (s3 & E3 & HD3 & _); [done |].
    rewrite (bind_ok _ _ _ _ _ E3). exists s3, d1, (T + dur). split; [done |]. split; [done |]. split; [lia |]. by left.
  - edestruct (device_upd oid _ _ F_digital_toggle_event F_digital_load_event (u32 T) (u32 T)
      (fun r => r <| t_func := Some F_digital_load_event |>) HD2) as (s3 & E3 & HD3 & _); [done |].
    rewrite (bind_ok _ _ _ _ _ E3).
    edestruct (device_upd oid _ _ F_digital_load_event F_digital_load_event (u32 T) (u32 E)
      (fun r => r <| t_waketime := u32 E |>) HD3) as (s4 & E4 & HD4 & _); [done |].
    rewrite (bind_ok _ _ _ _ _ E4). exists s4, d1, (T + dur). split; [done |]. split; [done |]. split; [lia |]. by right.
Qed.

(** Events that happen between [T] and [E] and ask to be rescheduled. *)
Definition in_window (T E : Z) (evs : list (Z * Z)) : Prop :=
  exists ts, evs = (fun t => (u32 t, SF_RESCHEDULE)) <$> ts /\ Forall (fun t => T <= t <= E) ts.

Lemma in_window_cons T T' E evs : T <= T' -> T <= E -> in_window T' E evs -> in_window T E ((u32 T, SF_RESCHEDULE) :: evs).
Proof.
  intros HT HE (ts & -> & Hts). exists (T :: ts). split; [done |]. constructor; [lia |].
  eapply Forall_impl; [exact Hts |]. simpl. lia.
Qed.

Lemma digital_events_S s o f w k r s1 :
  device oid s o f w -> digital_fire oid s = (Ok r, s1) ->
  digital_events (S k) oid s = (rest ← digital_events k oid; mret ((w, r) :: rest)) s1.
Proof.
  intros HD E. destruct (device_get _ _ _ _ _ HD) as (tm & Et & _ & Hw). cbn [digital_events]. unfold digital_timer.
  by rewrite (bind_ok _ _ _ _ _ Et), (bind_ok _ _ _ _ _ E), Hw.
Qed.

(** Without a further update, the output runs until [E] and is then due for a
    load with an empty queue. *)
Definition expires (s : mcu) (T E : Z) : Prop :=
  exists k evs s' d, digital_events k oid s = (Ok evs, s') /\ in_window T E evs
    /\ device oid s' (ODigital d) F_digital_load_event (u32 E) /\ move_queue_empty (d_mq d) = true.

Lemma toggles_expire E n : forall s d T,
  (Z.to_nat (E - T) <= n)%nat ->
  device oid s (ODigital d) F_digital_toggle_event (u32 T) -> toggling d E -> E - 2 ^ 31 < T <= E -> expires s T E.
Proof.
  induction n as [| n IH]; intros s d T Hn HD Hd HT;
    destruct (toggle_step s d T E HD Hd HT) as (s1 & d1 & T' & E1 & Hd1 & HT' & [[Hlt HD1] | HD1]).
  1: lia.
  2: destruct (IH s1 d1 T') as (k & evs & s' & d' & Ek & Hw & HD' & Hq); [lia | done | done | lia |];
    exists (S k), ((u32 T, SF_RESCHEDULE) :: evs), s', d';
    rewrite (digital_events_S _ _ _ _ k _ _ HD E1), (bind_ok _ _ _ _ _ Ek);
    (split; [done |]); (split; [eapply in_window_cons; [| | exact Hw]; lia | done]).
  all: exists 1%nat, [(u32 T, SF_RESCHEDULE)], s1, d1; rewrite (digital_events_S _ _ _ _ 0 _ _ HD E1);
    (split; [done |]); (split; [| by split; [| apply Hd1]]); exists [T]; (split; [done |]);
    constructor; [lia | constructor].
Qed.

(** The update that is loaded, and what it does to the pin: on for
    [on_duration] of each cycle, or constantly on or off. *)
Definition constant_default (d : digital_out) (on_duration : Z) : Prop :=
  (on_duration = 0 \/ d_cycle_time d <= on_duration) /\ truth on_duration = has (d_flags d) DF_DEFAULT_ON.

(** [digital_load_event] of the last queued update, up to the scheduling. *)
Lemma load_event_run s d t n m :
  device oid s (ODigital d) F_digital_load_event (u32 t) -> mq_rep (nodes (m_base s)) (d_mq d) [n] ->
  (exists nd, nodes (m_base s) !! n = Some nd /\ mn_data nd = MoveDigital m) ->
  let '(flags, end_time) := load_limits d (u32 t) (dm_on_duration m) in
  exists s' mh, move_queue_empty mh = true
    /\ device oid s' (ODigital (d <| d_mq := mh |> <| d_end_time := end_time |>
          <| d_flags := Z.lor flags (Z.land (d_flags d) DF_DEFAULT_ON) |>)) F_digital_load_event (u32 t)
    /\ digital_fire oid s = load_schedule_next oid flags end_time (dm_on_duration m) s'
    /\ pin_log (m_hw s') = EvWrite (d_pin d) (truth (dm_on_duration m)) :: pin_log (m_hw s).
Proof.
  intros HD Hq (nd & Hn & Hm). destruct (load_limits d (u32 t) (dm_on_duration m)) as [flags end_time] eqn:El.
  unfold digital_fire. destruct (device_get _ _ _ _ _ HD) as (tm & Et & Hf & Hw). unfold digital_timer.
  rewrite (bind_ok _ _ _ _ _ Et), Hf. unfold digital_load_event.
  rewrite (bind_ok _ _ _ _ _ (get_digital_run _ _ (dv_view _ _ _ _ _ HD))).
  assert (Hne : move_queue_empty (d_mq d) = false) by (destruct Hq as (_ & Hfst & _); unfold move_queue_empty; by rewrite Hfst).
  rewrite Hne. destruct (move_queue_pop_ok s (d_mq d) n [] Hq) as (mh & Ep & Hq'). rewrite (bind_ok _ _ _ _ _ Ep). cbv beta iota.
  rewrite (bind_ok _ _ _ _ _ (upd_digital_run _ _ _ (dv_view _ _ _ _ _ HD))).
  set (d1 := d <| d_mq := mh |>). pose proof (device_put oid _ _ (ODigital d1) _ _ HD) as HD1.
  set (s1 := put_obj oid (ODigital d1) s) in *.
  assert (Em : digital_move_of n s1 = (Ok m, s1)).
  { unfold digital_move_of. rewrite (bind_ok _ _ _ _ _ (node_get_run n nd s1 Hn)), Hm. done. }
  rewrite (bind_ok _ _ _ _ _ Em). unfold gpio_out_write, log_pin. msimpl.
  pose proof (device_hw oid s1 _ _ _ (upd pin_log (cons (EvWrite (d_pin d) (truth (if truth (dm_on_duration m) then DF_ON else 0))))) HD1) as HD2.
  destruct (move_free_ok (s1 <| m_hw ::= upd pin_log (cons (EvWrite (d_pin d) (truth (if truth (dm_on_duration m) then DF_ON else 0)))) |>) n)
    as (s3 & E3 & _ & _ & _ & _ & _ & O3 & S3 & H3); [simpl; rewrite Hn; by eexists |].
  rewrite (bind_ok _ _ _ _ _ E3).
  assert (HD3 : device oid s3 (ODigital d1) F_digital_load_event (u32 t)).
  { eapply device_frame; [exact O3 | by rewrite S3 | exact HD2]. }
  destruct (device_get _ _ _ _ _ HD3) as (tm3 & Et3 & Hf3 & Hw3). rewrite (bind_ok _ _ _ _ _ Et3).
  rewrite (bind_ok _ _ _ _ _ (get_digital_run _ _ (dv_view _ _ _ _ _ HD3))), Hw3.
  change (load_limits d1 (u32 t) (dm_on_duration m)) with (load_limits d (u32 t) (dm_on_duration m)). rewrite El.
  assert (Hmh : move_queue_empty mh = true) by (destruct Hq' as (_ & Hfst & _); unfold move_queue_empty; by rewrite Hfst).
  unfold load_next_update. change (d_mq d1) with mh. rewrite Hmh. msimpl.
  rewrite (bind_ok _ _ _ _ _ (upd_digital_run _ _ _ (dv_view _ _ _ _ _ HD3))).
  eexists _, mh. split; [done |]. split; [eapply device_put; exact HD3 |]. split; [reflexivity |].
  simpl. rewrite H3. simpl. by destruct (truth (dm_on_duration m)).
Qed.

Lemma missed_update s d w :
  device oid s (ODigital d) F_digital_load_event w -> move_queue_empty (d_mq d) = true ->
  digital_fire oid s = (Shut "Missed scheduling of next digital out event", s).
Proof.
  intros HD Hq. unfold digital_fire. destruct (device_get _ _ _ _ _ HD) as (tm & Et & Hf & _). unfold digital_timer.
  rewrite (bind_ok _ _ _ _ _ Et), Hf. unfold digital_load_event.
  by rewrite (bind_ok _ _ _ _ _ (get_digital_run _ _ (dv_view _ _ _ _ _ HD))), Hq.
Qed.

(** A load that keeps the timer at its load function and moves it to [E]. *)
Lemma expires_at_end s s1 d t E :
  device oid s (ODigital d) F_digital_load_event (u32 t) -> t <= E ->
  (exists d1, device oid s1 (ODigital d1) F_digital_load_event (u32 t) /\ move_queue_empty (d_mq d1) = true) ->
  digital_fire oid s = (set_waketime (digital_timer oid) (u32 E) ;; mret SF_RESCHEDULE) s1 -> expires s t E.
Proof.
  intros HD HE (d1 & HD1 & Hq) Ef. unfold set_waketime, digital_timer in Ef.
  edestruct (device_upd oid _ _ F_digital_load_event F_digital_load_event (u32 t) (u32 E)
    (fun r => r <| t_waketime := u32 E |>) HD1) as (s2 & E2 & HD2 & _); [done |].
  rewrite (bind_ok _ _ _ _ _ E2) in Ef. exists 1%nat, [(u32 t, SF_RESCHEDULE)], s2, d1.
  rewrite (digital_events_S _ _ _ _ 0 _ _ HD Ef). split; [done |]. split; [| done].
  exists [t]. split; [done |]. constructor; [lia | constructor].
Qed.

Lemma load_toggling s d t n m :
  device oid s (ODigital d) F_digital_load_event (u32 t) -> mq_rep (nodes (m_base s)) (d_mq d) [n] ->
  (exists nd, nodes (m_base s) !! n = Some nd /\ mn_data nd = MoveDigital m) ->
  0 < d_max_duration d < 2 ^ 31 -> d_cycle_time d < 2 ^ 31 -> 0 < dm_on_duration m < d_cycle_time d ->
  expires s t (t + d_max_duration d).
Proof.
  intros HD Hq Hn Hmd Hcy Hon. pose proof (load_event_run s d t n m HD Hq Hn) as H.
  assert (El : load_limits d (u32 t) (dm_on_duration m) = (7, u32 (t + d_max_duration d))).
  { unfold load_limits, truth. destruct (Z.eqb_spec (dm_on_duration m) 0); [lia |].
    destruct (Z.geb_spec (dm_on_duration m) (d_cycle_time d)); [lia |].
    destruct (Z.eqb_spec (d_max_duration d) 0); [lia |]. by rewrite u32_add_l. }
  rewrite El in H. destruct H as (s1 & mh & Hmh & HD1 & Ef & _). unfold load_schedule_next in Ef.
  destruct (device_get _ _ _ _ _ HD1) as (tm & Et & _ & Hw). unfold digital_timer in Ef.
  rewrite (bind_ok _ _ _ _ _ Et), Hw in Ef. change (has 7 DF_TOGGLING) with true in Ef. change (has 7 DF_CHECK_END) with true in Ef.
  cbn [negb andb] in Ef. rewrite u32_add_l, timer_is_before_abs in Ef by lia.
  destruct (Z.ltb_spec (t + dm_on_duration m) (t + d_max_duration d)) as [Hlt | Hge]; cbn [negb] in Ef;
    [| by eapply expires_at_end; [exact HD | lia | eexists; split; [exact HD1 |] | exact Ef]].
  unfold set_func, set_waketime in Ef.
  edestruct (device_upd oid _ _ F_digital_load_event F_digital_toggle_event (u32 t) (u32 t)
    (fun r => r <| t_func := Some F_digital_toggle_event |>) HD1) as (s2 & E2 & HD2 & _); [done |].
  rewrite (bind_ok _ _ _ _ _ E2) in Ef.
  edestruct (device_upd oid _ _ F_digital_toggle_event F_digital_toggle_event (u32 t) (u32 (t + dm_on_duration m))
    (fun r => r <| t_waketime := u32 (t + dm_on_duration m) |>) HD2) as (s3 & E3 & HD3 & _); [done |].
  rewrite (bind_ok _ _ _ _ _ E3), (bind_ok _ _ _ _ _ (upd_digital_run _ _ _ (dv_view _ _ _ _ _ HD3))) in Ef.
  match type of Ef with _ = mret _ (put_obj oid ?o s3) => pose proof (device_put oid _ _ o _ _ HD3) as HD4 end.
  edestruct (toggles_expire (t + d_max_duration d)) as (k & evs & s' & d' & Ek & Hwin & HD' & Hq');
    [reflexivity | exact HD4 | | lia |].
  { split; simpl; [by apply has_lor_l | done | lia | rewrite u32_small by cint_lia; lia | done]. }
  exists (S k), ((u32 t, SF_RESCHEDULE) :: evs), s', d'. rewrite (digital_events_S _ _ _ _ k _ _ HD Ef), (bind_ok _ _ _ _ _ Ek).
  split; [done |]. split; [eapply in_window_cons; [| | exact Hwin]; lia | done].
Qed.

Lemma expires_shutdown s T E :
  expires s T E -> exists k evs s', digital_events k oid s = (Ok evs, s') /\ in_window T E evs
    /\ wk (timers (m_sched s')) (digital_timer oid) = Some (u32 E)
    /\ digital_fire oid s' = (Shut "Missed scheduling of next digital out event", s').
Proof.
  intros (k & evs & s' & d' & Ek & Hw & HD' & Hq'). exists k, evs, s'. split; [done |]. split; [done |]. split.
  - destruct (dv_timer _ _ _ _ _ HD') as (tm & Ht & _ & Hwt). unfold wk, digital_timer. by rewrite Ht, <- Hwt.
  - by eapply missed_update.
Qed.

(** C23: the output watchdog.  When the last queued update of an output with a
    [max_duration] is loaded at time [t] and leaves the pin constantly at its
    default level, the timer ends.  Otherwise (the pin is off its default, or
    pulsing), unless another update is queued, every later event of the output
    happens between [t] and [t + max_duration], and the event at exactly
    [t + max_duration] shuts the machine down; the wrap-around of the clock and
    the length of the pulses make no difference. *)
Theorem digital_out_watchdog s d t n m :
  device oid s (ODigital d) F_digital_load_event (u32 t) -> mq_rep (nodes (m_base s)) (d_mq d) [n] ->
  (exists nd, nodes (m_base s) !! n = Some nd /\ mn_data nd = MoveDigital m) ->
  0 < d_max_duration d < 2 ^ 31 -> d_cycle_time d < 2 ^ 31 -> 0 <= dm_on_duration m ->
  let E := t + d_max_duration d in
  (constant_default d (dm_on_duration m) -> exists s', digital_fire oid s = (Ok SF_DONE, s')
     /\ pin_log (m_hw s') = EvWrite (d_pin d) (has (d_flags d) DF_DEFAULT_ON) :: pin_log (m_hw s))
  /\ (~ constant_default d (dm_on_duration m) ->
     exists k evs s', digital_events k oid s = (Ok evs, s') /\ in_window t E evs
       /\ wk (timers (m_sched s')) (digital_timer oid) = Some (u32 E)
       /\ digital_fire oid s' = (Shut "Missed scheduling of next digital out event", s')).
Proof.
  intros HD Hq Hn Hmd Hcy Hon E. pose proof (load_event_run s d t n m HD Hq Hn) as H.
  assert (Hmt : truth (d_max_duration d) = true) by (unfold truth; destruct (Z.eqb_spec (d_max_duration d) 0); [lia | done]).
  assert (Hcase : (dm_on_duration m = 0 \/ d_cycle_time d <= dm_on_duration m) \/ 0 < dm_on_duration m < d_cycle_time d) by lia.
  destruct Hcase as [Hconst | Htog].
  2: { split; [unfold constant_default; lia |]. intros _. by eapply expires_shutdown, load_toggling. }
  set (on := dm_on_duration m) in *. set (fl := if truth on then DF_ON else 0).
  assert (El : load_limits d (u32 t) on = if Bool.eqb (truth on) (has (d_flags d) DF_DEFAULT_ON)
    then (fl, 0) else (Z.lor fl DF_CHECK_END, u32 E)).
  { unfold load_limits, fl. rewrite Hmt, u32_add_l. fold E.
    assert (negb (truth (if truth on then DF_ON else 0)) || (on >=? d_cycle_time d) = true) as ->.
    { unfold truth. destruct Hconst as [-> |]; [done |]. destruct (Z.eqb_spec on 0); [done |]. simpl. lia. }
    by destruct (truth on), (has (d_flags d) DF_DEFAULT_ON). }
  rewrite El in H. unfold constant_default.
  destruct (Bool.eqb_spec (truth on) (has (d_flags d) DF_DEFAULT_ON)) as [Heq | Hne].
  - split; [| tauto]. intros _. destruct H as (s1 & mh & Hmh & HD1 & Ef & Hlog). unfold load_schedule_next in Ef.
    destruct (device_get _ _ _ _ _ HD1) as (tm & Et & _ & Hw). unfold digital_timer in Ef.
    rewrite (bind_ok _ _ _ _ _ Et) in Ef. exists s1. split; [| by rewrite Hlog, Heq]. rewrite Ef. by destruct (truth on).
  - split; [tauto |]. intros _. apply expires_shutdown. destruct H as (s1 & mh & Hmh & HD1 & Ef & _). unfold load_schedule_next in Ef.
    destruct (device_get _ _ _ _ _ HD1) as (tm & Et & _ & Hw). unfold digital_timer in Ef.
    rewrite (bind_ok _ _ _ _ _ Et) in Ef. eapply expires_at_end; [exact HD | unfold E; lia | by eexists; split; [exact HD1 |] |].
    rewrite Ef. by destruct (truth on).
Qed.

End Watchdog.

(** ** Examples *)

(** A heater pulsing for half of each 100 ms cycle, with a limit of 5 s. *)
Definition demo_heater : digital_out := mk_digital_out 0 0 0 3 320000000 6400000 (mk_mq (Some 0) (Some 0)) 0.
Definition demo_heating : mcu :=
  initial_mcu <| m_base ::= fun b =>
      b <| oids := Some [mk_oid (Some T_digital_out) (Some (ODigital demo_heater))] |> <| oid_count := 1 |>
        <| nodes := {[ 0 := mk_move_node None (MoveDigital (mk_digital_move 5000 3200000)) ]} |> |>
    <| m_sched ::= upd timers (insert (digital_timer 0) (mk_timer None (Some F_digital_load_event) 5000)) |>.

Lemma digital_out_watchdog_witness :
  exists k evs s', digital_events k 0 demo_heating = (Ok evs, s') /\ in_window 5000 (5000 + 320000000) evs
    /\ wk (timers (m_sched s')) (digital_timer 0) = Some (u32 (5000 + 320000000))
    /\ digital_fire 0 s' = (Shut "Missed scheduling of next digital out event", s').
Proof.
  refine (proj2 (digital_out_watchdog 0 demo_heating demo_heater 5000 0 (mk_digital_move 5000 3200000) _ _ _ _ _ _) _).
  - split; [reflexivity |]. exists (mk_timer None (Some F_digital_load_event) 5000).
    split; [vm_compute; reflexivity | split; reflexivity].
  - split; [by split | split; [reflexivity | intros _; reflexivity]].
  - exists (mk_move_node None (MoveDigital (mk_digital_move 5000 3200000))). split; [vm_compute; reflexivity | reflexivity].
  - vm_decide.
  - vm_decide.
  - vm_decide.
  - intros [[H | H] _]; vm_compute in H; [discriminate H | apply H; reflexivity].
Defined.
