(* ===== verification/Pwmcmds.v ===== *)
(** * Pwmcmds: hardware PWM outputs

    Models [src/src/pwmcmds.c].  A PWM output is named by its oid; its timer is
    [ObjTimer oid 0].  The pin driver itself is the board's: a write is logged
    as a pin event. *)

From S2P Require Import Prelude Wire State Command Sched Basecmd Stepper.
Import Encode.

Section WithBoard.
Context `{B : Board}.

Definition gpio_pwm_setup (pin cycle_time val : Z) : FW Z :=
  if gpio_pwm_ok pin then log_pin (EvPwm pin val) ;; mret pin else shutdown "Not a valid PWM pin".
Definition gpio_pwm_write (pin val : Z) : FW unit := log_pin (EvPwm pin val).

Definition get_pwm (oid : Z) : FW pwm_out :=
  o ← obj_get oid;
  match o with OPwm p => mret p | _ => fault "struct pwm_out_s" end.

Definition upd_pwm (oid : Z) (f : pwm_out -> pwm_out) : FW unit :=
  p ← get_pwm oid; obj_put oid (OPwm (f p)).

Definition pwm_timer (oid : Z) : tptr := ObjTimer oid 0.

Definition pwm_move_of (mn : Z) : FW pwm_move :=
  n ← node_get mn;
  match mn_data n with MovePwm m => mret m | _ => fault "struct pwm_move" end.

(** ** Timer callbacks *)

Definition pwm_end_event (oid : Z) : FW Z := shutdown "Missed scheduling of next hard pwm event".

(** "Schedule next update" of [pwm_event]. *)
Definition pwm_schedule_next (oid value : Z) : FW Z :=
  p ← get_pwm oid;
  nn ← deref "move_queue_first" (move_queue_first (p_mq p));
  m ← pwm_move_of nn;
  let wake := pm_waketime m in
  t ← tm_get (pwm_timer oid);
  if negb (value =? p_default_value p) && truth (p_max_duration p)
     && timer_is_before (u32 (t_waketime t + p_max_duration p)) wake
  then shutdown "Scheduled pwm event will exceed max_duration"
  else set_waketime (pwm_timer oid) wake ;; mret SF_RESCHEDULE.

Definition pwm_event (oid : Z) : FW Z :=
  p ← get_pwm oid;
  '(mn, mh) ← move_queue_pop (p_mq p);
  upd_pwm oid (fun p => p <| p_mq := mh |>) ;;
  m ← pwm_move_of mn;
  let value := pm_value m in
  gpio_pwm_write (p_pin p) value ;;
  move_free mn ;;
  p ← get_pwm oid;
  if move_queue_empty (p_mq p)
  then
    if (value =? p_default_value p) || negb (truth (p_max_duration p)) then mret SF_DONE
    else
      add_waketime (pwm_timer oid) (p_max_duration p) ;;
      set_func (pwm_timer oid) F_pwm_end_event ;;
      mret SF_RESCHEDULE
  else pwm_schedule_next oid value.

(** ** Commands *)

Definition command_config_pwm_out (args : list Z) : FW unit :=
  a1 ← arg args 1;
  a2 ← arg args 2;
  a3 ← arg args 3;
  pin ← gpio_pwm_setup a1 a2 a3;
  a0 ← arg args 0;
  oid ← oid_alloc a0 T_pwm_out (sizeof_obj T_pwm_out);
  a4 ← arg args 4;
  a5 ← arg args 5;
  upd_pwm oid (fun p => p <| p_pin := pin |> <| p_default_value := u16 a4 |> <| p_max_duration := a5 |>) ;;
  set_func (pwm_timer oid) F_pwm_event ;;
  mq ← move_queue_setup (sizeof_move T_pwm_out);
  upd_pwm oid (fun p => p <| p_mq := mq |>).

(** The queue was empty and the timer has to be added. *)
Definition queue_pwm_first (oid waketime : Z) : FW unit :=
  sched_del_timer (pwm_timer oid) ;;
  t ← tm_get (pwm_timer oid);
  if bool_decide (t_func t = Some F_pwm_end_event) && timer_is_before (t_waketime t) waketime
  then shutdown "Scheduled pwm event will exceed max_duration"
  else
    set_func (pwm_timer oid) F_pwm_event ;;
    set_waketime (pwm_timer oid) waketime ;;
    sched_add_timer (pwm_timer oid).

Definition command_queue_pwm_out (args : list Z) : FW unit :=
  a0 ← arg args 0;
  oid ← oid_lookup a0 T_pwm_out;
  m ← move_alloc;
  a1 ← arg args 1;
  a2 ← arg args 2;
  node_upd m (fun n => n <| mn_data := MovePwm (mk_pwm_move a1 (u16 a2)) |>) ;;
  p ← get_pwm oid;
  '(need_add_timer, mh) ← move_queue_push m (p_mq p);
  upd_pwm oid (fun p => p <| p_mq := mh |>) ;;
  when (truth need_add_timer) (queue_pwm_first oid a1).

Definition pwm_shutdown : FW unit :=
  foreach_oid T_pwm_out (fun oid =>
    p ← get_pwm oid;
    gpio_pwm_write (p_pin p) (p_default_value p) ;;
    set_func (pwm_timer oid) F_pwm_event ;;
    upd_pwm oid (fun p => p <| p_mq ::= move_queue_clear |>)).

Definition command_set_pwm_out (args : list Z) : FW unit :=
  a0 ← arg args 0;
  a1 ← arg args 1;
  a2 ← arg args 2;
  _ ← gpio_pwm_setup a0 a1 a2;
  mret tt.

(** ** Runs of the output timer *)

Definition pwm_fire (oid : Z) : FW Z :=
  t ← tm_get (pwm_timer oid);
  match t_func t with
  | Some F_pwm_event => pwm_event oid
  | Some F_pwm_end_event => pwm_end_event oid
  | _ => fault "pwm_out func"
  end.

Fixpoint pwm_events (n : nat) (oid : Z) : FW (list (Z * Z)) :=
  match n with
  | O => mret []
  | S n =>
      t ← tm_get (pwm_timer oid);
      r ← pwm_fire oid;
      rest ← pwm_events n oid;
      mret ((t_waketime t, r) :: rest)
  end.
End WithBoard.

(** ** The queue of updates is executed *)

Section Queue.
Context `{B : Board} (oid : Z).
Implicit Types (s : mcu) (p : pwm_out).

Lemma get_pwm_run p s : obj_view s oid = Some (OPwm p) -> get_pwm oid s = (Ok p, s).
Proof. intros H. unfold get_pwm. by rewrite (bind_ok _ _ _ _ _ (obj_get_run _ _ _ H)). Qed.

Lemma upd_pwm_run p f s :
  obj_view s oid = Some (OPwm p) -> upd_pwm oid f s = (Ok tt, put_obj oid (OPwm (f p)) s).
Proof. intros H. unfold upd_pwm. by rewrite (bind_ok _ _ _ _ _ (get_pwm_run _ _ H)). Qed.

(** An update: its time and its value. *)
Definition update : Type := (Z * Z)%type.

Definition pwm_payload (u : update) : move_payload := MovePwm (mk_pwm_move (u32 u.1) u.2).

(** Between two updates the output may be off its default for at most
    [max_duration]. *)
Definition gap_ok p (u v : update) : Prop :=
  - 2 ^ 31 <= u.1 + p_max_duration p - v.1 < 2 ^ 31
  /\ (u.2 = p_default_value p \/ p_max_duration p = 0 \/ v.1 <= u.1 + p_max_duration p).

Fixpoint gaps_ok p (us : list update) : Prop :=
  match us with
  | u :: (v :: _) as rest => gap_ok p u v /\ gaps_ok p rest
  | _ => True
  end.

(** The events of the queue [u :: us]: what the last one returns depends on
    whether the output was left off its default. *)
Definition last_ret p (u : update) : Z :=
  if (u.2 =? p_default_value p) || negb (truth (p_max_duration p)) then SF_DONE else SF_RESCHEDULE.

Fixpoint update_events p (u : update) (us : list update) : list (Z * Z) :=
  match us with
  | [] => [(u32 u.1, last_ret p u)]
  | v :: us => (u32 u.1, SF_RESCHEDULE) :: update_events p v us
  end.

Definition pwm_log p (us : list update) : list pin_event := (fun u => EvPwm (p_pin p) u.2) <$> us.

Record pwm_queue s p (f : tfunc) (w : Z) (l : list Z) (us : list update) : Prop := {
  pq_dev : device oid s (OPwm p) f w;
  pq_queue : mq_rep (nodes (m_base s)) (p_mq p) l;
  pq_moves : nodes_hold pwm_payload (nodes (m_base s)) l us;
  pq_nodup : NoDup l;
}.
(** [pwm_event] up to the check for more updates. *)
Lemma pwm_event_pop s p n l u us :
  pwm_queue s p F_pwm_event (u32 u.1) (n :: l) (u :: us) ->
  exists s1 mh, let p1 := p <| p_mq := mh |> in
    pwm_queue s1 p1 F_pwm_event (u32 u.1) l us
    /\ pin_log (m_hw s1) = EvPwm (p_pin p) u.2 :: pin_log (m_hw s)
    /\ pwm_fire oid s =
       (if move_queue_empty mh
        then
          if (u.2 =? p_default_value p) || negb (truth (p_max_duration p)) then mret SF_DONE
          else
            add_waketime (pwm_timer oid) (p_max_duration p) ;;
            set_func (pwm_timer oid) F_pwm_end_event ;;
            mret SF_RESCHEDULE
        else pwm_schedule_next oid u.2) s1.
Proof.
  intros [HD Hq Hm Hnd]. apply Forall2_cons_1 in Hm as [(nd & Hn & Hmd) Hm]. apply NoDup_cons in Hnd as [Hnl Hnd].
  unfold pwm_fire. destruct (device_get _ _ _ _ _ HD) as (tm & Et & Hf & _). unfold pwm_timer at 1.
  rewrite (bind_ok _ _ _ _ _ Et), Hf. unfold pwm_event.
  rewrite (bind_ok _ _ _ _ _ (get_pwm_run _ _ (dv_view _ _ _ _ _ HD))).
  destruct (move_queue_pop_ok s (p_mq p) n l Hq) as (mh & Ep & Hq'). rewrite (bind_ok _ _ _ _ _ Ep). cbv beta iota.
  rewrite (bind_ok _ _ _ _ _ (upd_pwm_run _ _ _ (dv_view _ _ _ _ _ HD))).
  pose proof (device_put oid _ _ (OPwm (p <| p_mq := mh |>)) _ _ HD) as HD1. set (s1 := put_obj oid (OPwm _) s) in *.
  assert (Em : pwm_move_of n s1 = (Ok (mk_pwm_move (u32 u.1) u.2), s1)).
  { unfold pwm_move_of. by rewrite (bind_ok _ _ _ _ _ (node_get_run n nd s1 Hn)), Hmd. }
  rewrite (bind_ok _ _ _ _ _ Em). unfold gpio_pwm_write, log_pin. msimpl. simpl pm_value.
  pose proof (device_hw oid s1 _ _ _ (upd pin_log (cons (EvPwm (p_pin p) u.2))) HD1) as HD2.
  set (s2 := upd m_hw _ s1) in *.
  destruct (move_free_ok s2 n) as (s3 & E3 & _ & _ & Hfr & _ & Hnode & O3 & S3 & H3); [simpl; rewrite Hn; by eexists |].
  rewrite (bind_ok _ _ _ _ _ E3).
  assert (HD3 : device oid s3 (OPwm (p <| p_mq := mh |>)) F_pwm_event (u32 u.1)).
  { eapply device_frame; [exact O3 | by rewrite S3 | exact HD2]. }
  rewrite (bind_ok _ _ _ _ _ (get_pwm_run _ _ (dv_view _ _ _ _ _ HD3))).
  exists s3, mh. split; [| split; [by rewrite H3 | done]]. split; [done | | | done].
  - eapply mq_rep_frame; [| exact Hq']. intros q Hql. apply Hfr. by intros ->.
  - eapply nodes_hold_frame; [| exact Hm]. intros q Hql. apply Hnode. by intros ->.
Qed.

Lemma pwm_events_S s o f w k r s1 :
  device oid s o f w -> pwm_fire oid s = (Ok r, s1) ->
  pwm_events (S k) oid s = (rest ← pwm_events k oid; mret ((w, r) :: rest)) s1.
Proof.
  intros HD E. destruct (device_get _ _ _ _ _ HD) as (tm & Et & _ & Hw). cbn [pwm_events]. unfold pwm_timer.
  by rewrite (bind_ok _ _ _ _ _ Et), (bind_ok _ _ _ _ _ E), Hw.
Qed.

(** An update with another one behind it: the timer moves to that one. *)
Lemma pwm_event_more s p n n' l u v us :
  pwm_queue s p F_pwm_event (u32 u.1) (n :: n' :: l) (u :: v :: us) -> gap_ok p u v ->
  exists s' p', pwm_fire oid s = (Ok SF_RESCHEDULE, s') /\ pwm_queue s' p' F_pwm_event (u32 v.1) (n' :: l) (v :: us)
    /\ pin_log (m_hw s') = EvPwm (p_pin p) u.2 :: pin_log (m_hw s)
    /\ p' = p <| p_mq := p_mq p' |>.
Proof.
  intros HQ [Hr Hg]. destruct (pwm_event_pop _ _ _ _ _ _ HQ) as (s1 & mh & HQ1 & Hlog & Ef).
  destruct HQ1 as [HD Hq Hm Hnd]. pose proof Hq as (_ & Hfst & _). simpl in Hfst.
  assert (Hne : move_queue_empty mh = false) by (unfold move_queue_empty; by rewrite Hfst).
  rewrite Hne in Ef. unfold pwm_schedule_next, move_queue_first in Ef.
  rewrite (bind_ok _ _ _ _ _ (get_pwm_run _ _ (dv_view _ _ _ _ _ HD))) in Ef. simpl p_mq in Ef. rewrite Hfst in Ef.
  rewrite bind_deref in Ef. pose proof Hm as [(nd & Hn & Hmd) _]%Forall2_cons_1.
  assert (Em : pwm_move_of n' s1 = (Ok (mk_pwm_move (u32 v.1) v.2), s1)).
  { unfold pwm_move_of. by rewrite (bind_ok _ _ _ _ _ (node_get_run n' nd s1 Hn)), Hmd. }
  rewrite (bind_ok _ _ _ _ _ Em) in Ef. destruct (device_get _ _ _ _ _ HD) as (tm & Et & _ & Hw).
  unfold pwm_timer, set_waketime in Ef. rewrite (bind_ok _ _ _ _ _ Et), Hw, u32_add_l in Ef. cbn [pm_waketime] in Ef.
  change (p_max_duration (p <| p_mq := mh |>)) with (p_max_duration p) in Ef.
  change (p_default_value (p <| p_mq := mh |>)) with (p_default_value p) in Ef.
  rewrite timer_is_before_abs in Ef by exact Hr.
  assert (Hc : negb (u.2 =? p_default_value p) && truth (p_max_duration p) && (u.1 + p_max_duration p <? v.1) = false).
  { unfold truth. destruct Hg as [-> | [-> | Hg]]; [by rewrite Z.eqb_refl | by rewrite andb_false_r |].
    destruct (Z.ltb_spec (u.1 + p_max_duration p) v.1); [lia |]. apply andb_false_r. }
  rewrite Hc in Ef.
  edestruct (device_upd oid _ _ F_pwm_event F_pwm_event (u32 u.1) (u32 v.1)
    (fun r => r <| t_waketime := u32 v.1 |>) HD) as (s2 & E2 & HD2 & B2 & H2 & _); [done |].
  rewrite (bind_ok _ _ _ _ _ E2) in Ef. eexists s2, _. split; [exact Ef |].
  split; [split; [exact HD2 | by rewrite B2 | by rewrite B2 | done] |]. split; [by rewrite H2 | done].
Qed.

(** The last update: the end event guards an output left off its default. *)
Definition guarded s p (u : update) : Prop :=
  last_ret p u = SF_DONE \/
  (wk (timers (m_sched s)) (pwm_timer oid) = Some (u32 (u.1 + p_max_duration p))
   /\ pwm_fire oid s = (Shut "Missed scheduling of next hard pwm event", s)).

Lemma pwm_event_last s p n u :
  pwm_queue s p F_pwm_event (u32 u.1) [n] [u] ->
  exists s', pwm_fire oid s = (Ok (last_ret p u), s') /\ guarded s' p u
    /\ pin_log (m_hw s') = EvPwm (p_pin p) u.2 :: pin_log (m_hw s).
Proof.
  intros HQ. destruct (pwm_event_pop _ _ _ _ _ _ HQ) as (s1 & mh & HQ1 & Hlog & Ef).
  destruct HQ1 as [HD (_ & Hfst & _) _ _]. simpl in Hfst.
  assert (He : move_queue_empty mh = true) by (unfold move_queue_empty; by rewrite Hfst).
  rewrite He in Ef. unfold guarded, last_ret in *. destruct (_ || _) eqn:Ec in Ef; rewrite Ec.
  { exists s1. split; [done |]. split; [by left | done]. }
  unfold add_waketime, set_func, pwm_timer in *.
  edestruct (device_upd oid _ _ F_pwm_event F_pwm_event (u32 u.1) (u32 (u.1 + p_max_duration p))
    (fun r => r <| t_waketime ::= fun w => u32 (w + p_max_duration p) |>) HD) as (s2 & E2 & HD2 & _ & H2 & _).
  { intros tm Hf Hw. simpl. by rewrite Hw, u32_add_l. }
  rewrite (bind_ok _ _ _ _ _ E2) in Ef.
  edestruct (device_upd oid _ _ F_pwm_event F_pwm_end_event _ (u32 (u.1 + p_max_duration p))
    (fun r => r <| t_func := Some F_pwm_end_event |>) HD2) as (s3 & E3 & HD3 & _ & H3 & _); [done |].
  rewrite (bind_ok _ _ _ _ _ E3) in Ef. exists s3. split; [done |]. split; [right | by rewrite H3, H2].
  destruct (dv_timer _ _ _ _ _ HD3) as (tm & Ht & Hf & Hwt). split; [unfold wk; by rewrite Ht, <- Hwt |].
  unfold pwm_fire, pwm_timer. by rewrite (bind_ok _ _ _ _ _ (tm_get_run _ _ _ Ht)), Hf.
Qed.

(** The update after which the queue is empty. *)
Definition last_update (u : update) (us : list update) : update := default u (last us).

Lemma last_update_cons u v us : last_update u (v :: us) = last_update v us.
Proof. unfold last_update. destruct us as [| x us]; [done |]. rewrite last_cons_cons. by destruct (last (x :: us)) eqn:E; [| apply last_None in E]. Qed.

(** The queue pointers play no part in the specification. *)
Lemma gaps_ok_mq p mh us : gaps_ok p us -> gaps_ok (p <| p_mq := mh |>) us.
Proof. induction us as [| u [| v us] IH]; [done | done |]. intros [Hg Hgs]. split; [exact Hg | by apply IH]. Qed.

Lemma update_events_mq p mh us : forall u, update_events (p <| p_mq := mh |>) u us = update_events p u us.
Proof. induction us as [| v us IH]; intros u; [done |]. cbn [update_events]. by rewrite IH. Qed.

(** C33: a hardware PWM output executes its queue.  Every queued update is
    applied in order, exactly at its requested time, as long as no gap between
    updates leaves the output off its default for more than [max_duration];
    after the last one the timer ends if the output is at its default (or has
    no limit), and otherwise the machine is shut down [max_duration] later
    unless a new update comes. *)
Theorem pwm_executes_queue us : forall s p n l u,
  pwm_queue s p F_pwm_event (u32 u.1) (n :: l) (u :: us) -> gaps_ok p (u :: us) ->
  exists s', pwm_events (S (length us)) oid s = (Ok (update_events p u us), s')
    /\ pin_log (m_hw s') = rev (pwm_log p (u :: us)) ++ pin_log (m_hw s)
    /\ guarded s' p (last_update u us).
Proof.
  induction us as [| v us IH]; intros s p n l u HQ Hg.
  - destruct (Forall2_cons_inv_r _ _ _ _ (pq_moves _ _ _ _ _ _ HQ)) as (n0 & l0 & _ & Hnil & El).
    apply Forall2_nil_inv_r in Hnil as ->. injection El as -> ->.
    destruct (pwm_event_last _ _ _ _ HQ) as (s' & E & Hgd & Hlog). exists s'. cbn [length].
    rewrite (pwm_events_S _ _ _ _ 0 _ _ (pq_dev _ _ _ _ _ _ HQ) E). done.
  - destruct (Forall2_cons_inv_r _ _ _ _ (pq_moves _ _ _ _ _ _ HQ)) as (n0 & l0 & _ & Hl0 & El). injection El as -> ->.
    destruct (Forall2_cons_inv_r _ _ _ _ Hl0) as (n1 & l1 & _ & _ & ->). destruct Hg as [Hg Hgs].
    destruct (pwm_event_more _ _ _ _ _ _ _ _ HQ Hg) as (s1 & p1 & E1 & HQ1 & Hlog & Ep).
    assert (Hgs1 : gaps_ok p1 (v :: us)) by (rewrite Ep; by apply gaps_ok_mq).
    destruct (IH s1 p1 n1 l1 v HQ1 Hgs1) as (s' & E & Hlog' & Hgd). exists s'. cbn [length].
    rewrite (pwm_events_S _ _ _ _ (S (length us)) _ _ (pq_dev _ _ _ _ _ _ HQ) E1), (bind_ok _ _ _ _ _ E).
    rewrite last_update_cons. rewrite Ep in Hlog', Hgd |- *. rewrite update_events_mq. split; [done |]. split; [| exact Hgd].
    rewrite Hlog', Hlog. unfold pwm_log. simpl. rewrite <- !app_assoc. done.
Qed.

End Queue.

(** ** Examples *)

(** A fan with two queued updates, and a limit of 5 s off its default. *)
Definition demo_pwm : pwm_out := mk_pwm_out 7 320000000 0 (mk_mq (Some 0) (Some 1)).
Definition demo_fan : mcu :=
  initial_mcu <| m_base ::= fun b =>
      b <| oids := Some [mk_oid (Some T_pwm_out) (Some (OPwm demo_pwm))] |> <| oid_count := 1 |>
        <| nodes := {[ 0 := mk_move_node (Some 1) (pwm_payload (5000, 128)); 1 := mk_move_node None (pwm_payload (70000, 255)) ]} |> |>
    <| m_sched ::= upd timers (insert (pwm_timer 0) (mk_timer None (Some F_pwm_event) 5000)) |>.

Lemma demo_fan_queue : pwm_queue 0 demo_fan demo_pwm F_pwm_event (u32 5000) [0; 1] [(5000, 128); (70000, 255)].
Proof.
  split; [split; [reflexivity |] | | | vm_decide].
  - exists (mk_timer None (Some F_pwm_event) 5000). split; [vm_compute; reflexivity | split; reflexivity].
  - split; [| split; [reflexivity | intros _; reflexivity]]. split; [vm_compute; reflexivity | split; [vm_compute; reflexivity | done]].
  - constructor; [| constructor; [| constructor]]; (eexists; split; [vm_compute; reflexivity | reflexivity]).
Qed.

Lemma pwm_executes_queue_witness :
  exists s', pwm_events 2 0 demo_fan = (Ok (update_events demo_pwm (5000, 128) [(70000, 255)]), s')
    /\ pin_log (m_hw s') = rev (pwm_log demo_pwm [(5000, 128); (70000, 255)]) ++ pin_log (m_hw demo_fan)
    /\ guarded 0 s' demo_pwm (70000, 255).
Proof.
  apply (pwm_executes_queue 0 [(70000, 255)] demo_fan demo_pwm 0 [1] (5000, 128)); [exact demo_fan_queue |].
  split; [split; [vm_decide | right; right; vm_decide] | exact I].
Defined.
