(* ===== verification/Adccmds.v ===== *)
(** * Adccmds: analog inputs

    Models [src/src/adccmds.c].  The converter is the board's: a call of
    [gpio_adc_sample] or [gpio_adc_read] is a new reading of the hardware. *)

From S2P Require Import Prelude Wire State Command Sched Basecmd Stepper.
Import Encode.

Section WithBoard.
Context `{B : Board}.

Definition gpio_adc_setup (pin : Z) : FW Z :=
  if gpio_adc_ok pin then mret pin else shutdown "Not a valid ADC pin".
Definition gpio_adc_sample (pin : Z) : FW Z :=
  n ← gets (fun s => ticks (m_hw s));
  modify (fun s => s <| m_hw ::= upd ticks S |>) ;;
  mret (hw_adc_sample n pin).
Definition gpio_adc_read (pin : Z) : FW Z :=
  n ← gets (fun s => ticks (m_hw s));
  modify (fun s => s <| m_hw ::= upd ticks S |>) ;;
  mret (u16 (hw_adc_read n pin)).
Definition gpio_adc_cancel_sample (pin : Z) : FW unit := mret tt.

Definition get_analog (oid : Z) : FW analog_in :=
  o ← obj_get oid;
  match o with OAnalog a => mret a | _ => fault "struct analog_in" end.

Definition upd_analog (oid : Z) (f : analog_in -> analog_in) : FW unit :=
  a ← get_analog oid; obj_put oid (OAnalog (f a)).

Definition analog_timer (oid : Z) : tptr := ObjTimer oid 0.

(** The range check of a complete measurement. *)
Definition analog_check_range (oid : Z) : FW unit :=
  a ← get_analog oid;
  if (a_value a >=? a_min_value a) && (a_value a <=? a_max_value a)
  then upd_analog oid (fun a => a <| a_invalid_count := 0 |>)
  else
    upd_analog oid (fun a => a <| a_invalid_count ::= fun c => u8 (c + 1) |>) ;;
    a ← get_analog oid;
    when (a_invalid_count a >=? a_range_check_count a)
      (sched_fake_shutdown (BOARD_MCU_TYPE ++ " ADC out of range") ;;
       upd_analog oid (fun a => a <| a_invalid_count := 0 |>)).

Definition analog_in_event (oid : Z) : FW Z :=
  a ← get_analog oid;
  sample_delay ← gpio_adc_sample (a_pin a);
  if truth sample_delay
  then add_waketime (analog_timer oid) sample_delay ;; mret SF_RESCHEDULE
  else
    value ← gpio_adc_read (a_pin a);
    let state := a_state a in
    let '(state, value) :=
      if state >=? a_sample_count a then (0, value) else (state, u16 (value + a_value a)) in
    upd_analog oid (fun a => a <| a_value := value |> <| a_state := u8 (state + 1) |>) ;;
    a ← get_analog oid;
    if a_state a <? a_sample_count a
    then add_waketime (analog_timer oid) (a_sample_time a) ;; mret SF_RESCHEDULE
    else
      analog_check_range oid ;;
      sched_wake_task W_analog ;;
      upd_analog oid (fun a => a <| a_next_begin_time ::= fun t => u32 (t + a_rest_time a) |>) ;;
      a ← get_analog oid;
      set_waketime (analog_timer oid) (a_next_begin_time a) ;;
      mret SF_RESCHEDULE.

Definition command_config_analog_in (args : list Z) : FW unit :=
  a1 ← arg args 1;
  pin ← gpio_adc_setup a1;
  a0 ← arg args 0;
  oid ← oid_alloc a0 T_analog_in (sizeof_obj T_analog_in);
  set_func (analog_timer oid) F_analog_in_event ;;
  upd_analog oid (fun a => a <| a_pin := pin |> <| a_state := 1 |>).

Definition command_query_analog_in (args : list Z) : FW unit :=
  a0 ← arg args 0;
  oid ← oid_lookup a0 T_analog_in;
  sched_del_timer (analog_timer oid) ;;
  a ← get_analog oid;
  gpio_adc_cancel_sample (a_pin a) ;;
  a1 ← arg args 1;
  a2 ← arg args 2;
  a3 ← arg args 3;
  a4 ← arg args 4;
  a5 ← arg args 5;
  a6 ← arg args 6;
  a7 ← arg args 7;
  upd_analog oid (fun a => a <| a_next_begin_time := a1 |>) ;;
  set_waketime (analog_timer oid) a1 ;;
  upd_analog oid (fun a => a <| a_sample_time := a2 |> <| a_sample_count := u8 a3 |>) ;;
  upd_analog oid (fun a => a <| a_state := u8 (a_sample_count a + 1) |> <| a_rest_time := a4 |>
    <| a_min_value := u16 a5 |> <| a_max_value := u16 a6 |> <| a_range_check_count := u8 a7 |>) ;;
  a ← get_analog oid;
  when (negb (a_sample_count a =? 0)) (sched_add_timer (analog_timer oid)).

(** Body of the loop of [analog_in_task]. *)
Definition analog_in_report (oid : Z) : FW unit :=
  a ← get_analog oid;
  if negb (a_state a =? a_sample_count a) then mret tt
  else
    upd_analog oid (fun a => a <| a_state ::= fun x => u8 (x + 1) |>) ;;
    sendf "analog_in_state oid=%c next_clock=%u value=%hu" [VInt oid; VInt (a_next_begin_time a); VInt (a_value a)].

Definition analog_in_task : FW unit :=
  w ← sched_check_wake W_analog;
  when w (foreach_oid T_analog_in analog_in_report).

Definition analog_in_shutdown : FW unit :=
  foreach_oid T_analog_in (fun oid =>
    a ← get_analog oid;
    gpio_adc_cancel_sample (a_pin a) ;;
    when (truth (a_sample_count a))
      (upd_analog oid (fun a => a <| a_state := u8 (a_sample_count a + 1) |>
         <| a_next_begin_time ::= fun t => u32 (t + a_rest_time a) |>) ;;
       a ← get_analog oid;
       set_waketime (analog_timer oid) (a_next_begin_time a) ;;
       sched_add_timer (analog_timer oid))).

(** ** Runs of the input timer *)

Fixpoint analog_events (n : nat) (oid : Z) : FW (list (Z * Z)) :=
  match n with
  | O => mret []
  | S n =>
      t ← tm_get (analog_timer oid);
      r ← analog_in_event oid;
      rest ← analog_events n oid;
      mret ((t_waketime t, r) :: rest)
  end.
End WithBoard.

(** ** A measurement *)

Section Measure.
Context `{B : Board} (oid : Z).
Implicit Types (s : mcu) (a : analog_in).

Lemma get_analog_run a s : obj_view s oid = Some (OAnalog a) -> get_analog oid s = (Ok a, s).
Proof. intros H. unfold get_analog. by rewrite (bind_ok _ _ _ _ _ (obj_get_run _ _ _ H)). Qed.

Lemma upd_analog_run a f s :
  obj_view s oid = Some (OAnalog a) -> upd_analog oid f s = (Ok tt, put_obj oid (OAnalog (f a)) s).
Proof. intros H. unfold upd_analog. by rewrite (bind_ok _ _ _ _ _ (get_analog_run _ _ H)). Qed.

(** An analog input whose timer is due at [t], after [n] accesses to the
    converter. *)
Definition measuring s a (t : Z) (n : nat) : Prop :=
  device oid s (OAnalog a) F_analog_in_event (u32 t) /\ ticks (m_hw s) = n.

(** The [i]-th reading of a run that starts at access [n]. *)
Definition reading a (n i : nat) : Z := u16 (hw_adc_read (n + 2 * i + 1) (a_pin a)).
Definition readings a (n k : nat) : Z := foldr Z.add 0 (reading a n <$> seq 0 k).

Lemma readings_S a n k : readings a n (S k) = readings a n k + reading a n k.
Proof.
  unfold readings. rewrite seq_S, fmap_app, foldr_app. simpl.
  generalize (reading a n <$> seq 0 k). intros l. induction l as [| x l IH]; simpl; [lia |]. rewrite IH. lia.
Qed.

Lemma readings_cons a n k : readings a n (S k) = reading a n 0 + readings a (n + 2) k.
Proof.
  unfold readings. rewrite <- cons_seq, fmap_cons. cbn [foldr]. f_equal. f_equal.
  rewrite <- fmap_S_seq, <- list_fmap_compose. apply list_fmap_ext. intros _ i _. unfold reading. simpl. do 2 f_equal. lia.
Qed.

(** The input after a sample, before the check for completion. *)
Definition sampled a (r : Z) : analog_in :=
  if a_state a >=? a_sample_count a then a <| a_value := r |> <| a_state := 1 |>
  else a <| a_value := u16 (r + a_value a) |> <| a_state := u8 (a_state a + 1) |>.

(** The part of [analog_in_event] behind the sample. *)
Definition event_tail : FW Z :=
  a ← get_analog oid;
  if a_state a <? a_sample_count a
  then add_waketime (analog_timer oid) (a_sample_time a) ;; mret SF_RESCHEDULE
  else
    analog_check_range oid ;;
    sched_wake_task W_analog ;;
    upd_analog oid (fun a => a <| a_next_begin_time ::= fun t => u32 (t + a_rest_time a) |>) ;;
    a ← get_analog oid;
    set_waketime (analog_timer oid) (a_next_begin_time a) ;;
    mret SF_RESCHEDULE.

Lemma event_sample s a t n :
  measuring s a t n -> hw_adc_sample n (a_pin a) = 0 ->
  exists s', analog_in_event oid s = event_tail s' /\ measuring s' (sampled a (reading a n 0)) t (n + 2).
Proof.
  intros [HD Hn] Hz. unfold analog_in_event. rewrite (bind_ok _ _ _ _ _ (get_analog_run _ _ (dv_view _ _ _ _ _ HD))).
  unfold gpio_adc_sample, gpio_adc_read. msimpl. rewrite Hn, Hz. change (truth 0) with false. cbv iota. msimpl.
  change (ticks (m_hw (s <| m_hw ::= upd ticks S |>))) with (S (ticks (m_hw s))). rewrite Hn.
  pose proof (device_hw oid _ _ _ _ (upd ticks S) (device_hw oid _ _ _ _ (upd ticks S) HD)) as HD2.
  replace (u16 (hw_adc_read (S n) (a_pin a))) with (reading a n 0) by (unfold reading; do 2 f_equal; lia).
  unfold sampled. destruct (a_state a >=? a_sample_count a).
  all: erewrite bind_ok by (eapply upd_analog_run, (dv_view _ _ _ _ _ HD2)).
  all: eexists; split; [reflexivity |]; split; [eapply device_put; exact HD2 | simpl; lia].
Qed.

(** A sample that does not complete the measurement. *)
Lemma event_more s a t n :
  measuring s a t n -> hw_adc_sample n (a_pin a) = 0 ->
  let a' := sampled a (reading a n 0) in
  a_state a' < a_sample_count a ->
  exists s', analog_in_event oid s = (Ok SF_RESCHEDULE, s') /\ measuring s' a' (t + a_sample_time a) (n + 2).
Proof.
  intros HM Hz a' Hlt. destruct (event_sample s a t n HM Hz) as (s1 & -> & [HD1 Hn1]). fold a' in HD1.
  unfold event_tail. rewrite (bind_ok _ _ _ _ _ (get_analog_run _ _ (dv_view _ _ _ _ _ HD1))).
  assert (Hsc : a_sample_count a' = a_sample_count a /\ a_sample_time a' = a_sample_time a) by (unfold a', sampled; by case_match).
  destruct Hsc as [-> ->]. destruct (Z.ltb_spec (a_state a') (a_sample_count a)); [| lia].
  unfold add_waketime, analog_timer.
  edestruct (device_upd oid _ _ F_analog_in_event F_analog_in_event (u32 t) (u32 (t + a_sample_time a))
    (fun r => r <| t_waketime ::= fun w => u32 (w + a_sample_time a) |>) HD1) as (s2 & E2 & HD2 & _ & H2 & _).
  { intros tm Hf Hw. simpl. by rewrite Hw, u32_add_l. }
  rewrite (bind_ok _ _ _ _ _ E2). exists s2. split; [done |]. split; [done | by rewrite H2].
Qed.

(** The verdict of the range check, when it does not reach its limit. *)
Definition in_limits a : bool := (a_value a >=? a_min_value a) && (a_value a <=? a_max_value a).
Definition next_invalid a : Z := if in_limits a then 0 else a_invalid_count a + 1.

Lemma check_range_run s a w :
  device oid s (OAnalog a) F_analog_in_event w ->
  (in_limits a = false -> 0 <= a_invalid_count a /\ a_invalid_count a + 1 < a_range_check_count a < 256) ->
  analog_check_range oid s = (Ok tt, put_obj oid (OAnalog (a <| a_invalid_count := next_invalid a |>)) s).
Proof.
  intros HD Hi. unfold analog_check_range, next_invalid. rewrite (bind_ok _ _ _ _ _ (get_analog_run _ _ (dv_view _ _ _ _ _ HD))).
  fold (in_limits a). destruct (in_limits a).
  - by rewrite (upd_analog_run _ _ _ (dv_view _ _ _ _ _ HD)).
  - destruct Hi as [Hc Hr]; [done |]. rewrite (bind_ok _ _ _ _ _ (upd_analog_run _ _ _ (dv_view _ _ _ _ _ HD))).
    erewrite bind_ok by (eapply get_analog_run, obj_view_put, (dv_view _ _ _ _ _ HD)). simpl.
    rewrite u8_small by cint_lia. destruct (Z.geb_spec (a_invalid_count a + 1) (a_range_check_count a)); [lia |]. done.
Qed.

(** The sample that completes it. *)
Lemma event_last s a t n :
  measuring s a t n -> hw_adc_sample n (a_pin a) = 0 ->
  let a' := sampled a (reading a n 0) in
  a_sample_count a <= a_state a' ->
  (in_limits a' = false -> 0 <= a_invalid_count a' /\ a_invalid_count a' + 1 < a_range_check_count a' < 256) ->
  exists s', analog_in_event oid s = (Ok SF_RESCHEDULE, s') /\ m_wake s' W_analog = true
    /\ device oid s' (OAnalog (a' <| a_invalid_count := next_invalid a' |>
          <| a_next_begin_time := u32 (a_next_begin_time a + a_rest_time a) |>))
         F_analog_in_event (u32 (a_next_begin_time a + a_rest_time a)).
Proof.
  intros HM Hz a' Hge Hi. destruct (event_sample s a t n HM Hz) as (s1 & -> & [HD1 Hn1]). fold a' in HD1.
  unfold event_tail. rewrite (bind_ok _ _ _ _ _ (get_analog_run _ _ (dv_view _ _ _ _ _ HD1))).
  assert (Hsc : a_sample_count a' = a_sample_count a /\ a_next_begin_time a' = a_next_begin_time a /\ a_rest_time a' = a_rest_time a)
    by (unfold a', sampled; by case_match).
  destruct Hsc as (-> & Hnb & Hrt). destruct (Z.ltb_spec (a_state a') (a_sample_count a)); [lia |].
  rewrite (bind_ok _ _ _ _ _ (check_range_run _ _ _ HD1 Hi)). set (a1 := a' <| a_invalid_count := _ |>).
  pose proof (device_put oid _ _ (OAnalog a1) _ _ HD1) as HD2. unfold sched_wake_task, sched_wake_tasks, set_sched. msimpl.
  set (s2 := upd m_wake _ _).
  assert (HD3 : device oid s2 (OAnalog a1) F_analog_in_event (u32 t)) by (eapply device_frame; [| | exact HD2]; done).
  rewrite (bind_ok _ _ _ _ _ (upd_analog_run _ _ _ (dv_view _ _ _ _ _ HD3))).
  set (a2 := upd a_next_begin_time _ a1). pose proof (device_put oid _ _ (OAnalog a2) _ _ HD3) as HD4.
  rewrite (bind_ok _ _ _ _ _ (get_analog_run _ _ (dv_view _ _ _ _ _ HD4))).
  unfold set_waketime, analog_timer.
  edestruct (device_upd oid _ _ F_analog_in_event F_analog_in_event (u32 t) (a_next_begin_time a2)
    (fun r => r <| t_waketime := a_next_begin_time a2 |>) HD4) as (s5 & E5 & HD5 & _ & _ & _ & _ & W5); [done |].
  rewrite (bind_ok _ _ _ _ _ E5). exists s5. split; [done |]. split; [by rewrite W5 |].
  assert (En : a_next_begin_time a2 = u32 (a_next_begin_time a + a_rest_time a)).
  { unfold a2. simpl. by rewrite Hnb, Hrt. }
  rewrite En in HD5. assert (Ea : a2 = a1 <| a_next_begin_time := u32 (a_next_begin_time a + a_rest_time a) |>).
  { unfold a2. simpl. by rewrite Hnb, Hrt. }
  rewrite Ea in HD5. exact HD5.
Qed.

Lemma analog_events_S s a t n k r s1 :
  measuring s a t n -> analog_in_event oid s = (Ok r, s1) ->
  analog_events (S k) oid s = (rest ← analog_events k oid; mret ((u32 t, r) :: rest)) s1.
Proof.
  intros [HD _] E. destruct (device_get _ _ _ _ _ HD) as (tm & Et & _ & Hw). cbn [analog_events]. unfold analog_timer.
  by rewrite (bind_ok _ _ _ _ _ Et), (bind_ok _ _ _ _ _ E), Hw.
Qed.

(** Times of [k] samples, the first one at [t]. *)
Definition adc_times (t st : Z) (k : nat) : list (Z * Z) :=
  (fun i => (u32 (t + Z.of_nat i * st), SF_RESCHEDULE)) <$> seq 0 k.

Lemma adc_times_S t st k : adc_times t st (S k) = (u32 t, SF_RESCHEDULE) :: adc_times (t + st) st k.
Proof.
  unfold adc_times. rewrite <- cons_seq, fmap_cons. f_equal; [by rewrite Z.add_0_r |].
  rewrite <- fmap_S_seq, <- list_fmap_compose. apply list_fmap_ext. intros _ i _. simpl. do 2 f_equal. lia.
Qed.

(** The input after a whole measurement with the value [v]. *)
Definition measured a (v : Z) : analog_in :=
  let a' := a <| a_value := v |> <| a_state := a_sample_count a |> in
  a' <| a_invalid_count := next_invalid a' |> <| a_next_begin_time := u32 (a_next_begin_time a + a_rest_time a) |>.

(** What is left of a measurement that has [i] samples summed up to [v]. *)
Lemma adc_rest k : forall s a t n (v : Z),
  measuring s a t n -> a_state a = a_sample_count a - Z.of_nat (S k) -> 0 < a_state a -> a_sample_count a < 255 ->
  a_value a = u16 v -> (forall i, (i <= k)%nat -> hw_adc_sample (n + 2 * i) (a_pin a) = 0) ->
  let total := u16 (v + readings a n (S k)) in
  (in_limits (a <| a_value := total |>) = false -> 0 <= a_invalid_count a /\ a_invalid_count a + 1 < a_range_check_count a < 256) ->
  exists s', analog_events (S k) oid s = (Ok (adc_times t (a_sample_time a) (S k)), s') /\ m_wake s' W_analog = true
    /\ device oid s' (OAnalog (measured a total)) F_analog_in_event (u32 (a_next_begin_time a + a_rest_time a)).
Proof.
  induction k as [| k IH]; intros s a t n v HM Hst Hpos Hc Hv Hz total Hlim.
  - assert (Es : sampled a (reading a n 0) = a <| a_value := total |> <| a_state := a_sample_count a |>).
    { unfold sampled. destruct (Z.geb_spec (a_state a) (a_sample_count a)); [lia |]. rewrite Hv, u8_small by cint_lia.
      replace (a_state a + 1) with (a_sample_count a) by lia. unfold total. rewrite readings_S.
      replace (u16 (reading a n 0 + u16 v)) with (u16 (v + (readings a n 0 + reading a n 0))) by (unfold readings; simpl; cint_lia). done. }
    destruct (event_last s a t n HM) as (s' & E & Hw & HD); rewrite ?Es in *;
      [rewrite <- (Nat.add_0_r n); apply (Hz 0%nat); lia | simpl; lia | exact Hlim |].
    exists s'. rewrite (analog_events_S _ _ _ _ 0 _ _ HM E). split; [by rewrite adc_times_S |]. split; [done |]. exact HD.
  - set (v1 := v + reading a n 0).
    assert (Es : sampled a (reading a n 0) = a <| a_value := u16 v1 |> <| a_state := a_state a + 1 |>).
    { unfold sampled. destruct (Z.geb_spec (a_state a) (a_sample_count a)); [lia |]. rewrite Hv, u8_small by cint_lia.
      replace (u16 (reading a n 0 + u16 v)) with (u16 v1) by (unfold v1; cint_lia). done. }
    destruct (event_more s a t n HM) as (s1 & E1 & HM1); rewrite ?Es in *;
      [rewrite <- (Nat.add_0_r n); apply (Hz 0%nat); lia | simpl; lia |].
    assert (Et : u16 (v1 + readings (a <| a_value := u16 v1 |> <| a_state := a_state a + 1 |>) (n + 2) (S k)) = total).
    { unfold total. apply (f_equal u16). rewrite (readings_cons a n (S k)).
      change (readings (a <| a_value := u16 v1 |> <| a_state := a_state a + 1 |>) (n + 2) (S k)) with (readings a (n + 2) (S k)). unfold v1. lia. }
    edestruct (IH s1 _ _ _ v1 HM1) as (s' & E & Hw & HD); [simpl; lia | simpl; lia | done | done | | |].
    { intros i Hi. simpl. replace (n + 2 + (i + (i + 0)))%nat with (n + 2 * S i)%nat by lia. apply Hz. lia. }
    { rewrite Et. exact Hlim. }
    exists s'. rewrite (analog_events_S _ _ _ _ (S k) _ _ HM E1), adc_times_S, (bind_ok _ _ _ _ _ E).
    split; [done |]. split; [done |]. rewrite Et in HD. exact HD.
Qed.


End Measure.

(** ** Examples *)

(** A thermistor with eight samples per measurement; it reads 1000. *)
Definition demo_analog : analog_in := mk_analog_in 19200000 64000 5000 77 0 60000 2 1 4 9 8.
Definition demo_measuring : mcu :=
  initial_mcu <| m_base ::= fun b => b <| oids := Some [mk_oid (Some T_analog_in) (Some (OAnalog demo_analog))] |> <| oid_count := 1 |> |>
    <| m_sched ::= upd timers (insert (analog_timer 0) (mk_timer None (Some F_analog_in_event) 5000)) |>.

