(* ===== verification/Double.v ===== *)
(** * Double: the floating point numbers of the host

    The host code under [src/klippy/chelper] computes times with C [double]s.
    They are modelled by the executable IEEE-754 numbers of the Standard
    Library at the format of a [double]: 53 bits of precision, exponents up to
    1024, round to nearest even. *)

From S2P Require Import Prelude.
From Stdlib Require Export SpecFloat.

Definition double : Type := spec_float.

Definition dadd : double -> double -> double := SFadd 53 1024.
Definition dsub : double -> double -> double := SFsub 53 1024.
Definition dmul : double -> double -> double := SFmul 53 1024.
Definition ddiv : double -> double -> double := SFdiv 53 1024.
Definition dsqrt : double -> double := SFsqrt 53 1024.
Definition dabs : double -> double := SFabs.
Definition dopp : double -> double := SFopp.
Definition dlt (x y : double) : bool := SFltb x y.
Definition dle (x y : double) : bool := SFleb x y.
Definition deq (x y : double) : bool := SFeqb x y.

(** Conversion of an integer, rounded to the nearest double. *)
Definition d_of_Z (z : Z) : double := binary_normalize 53 1024 z 0 false.

(** A decimal literal [n / d] with exactly representable [n] and [d]: the
    correctly rounded quotient is the nearest double. *)
Definition d_lit (n d : Z) : double := ddiv (d_of_Z n) (d_of_Z d).

Definition d_zero : double := d_of_Z 0.
Definition d_half : double := d_lit 1 2.

(** Truth of a double used as a C condition. *)
Definition d_truth (x : double) : bool := negb (deq x d_zero).

(** Conversion to an integer type: the fraction is cut off; [None] is a value
    with no integral part (infinite or not a number). *)
Definition d_trunc (x : double) : option Z :=
  match x with
  | S754_zero _ => Some 0
  | S754_finite s m e =>
      let a := if 0 <=? e then Z.pos m * 2 ^ e else Z.pos m / 2 ^ (- e) in
      Some (if s then - a else a)
  | _ => None
  end.

(** The casts [(uint64_t)x], [(int64_t)x] and [(int32_t)x]: undefined when the
    truncated value does not fit the type. *)
Definition d_to_range (lo hi : Z) (x : double) : res Z :=
  match d_trunc x with
  | Some z => if (lo <=? z) && (z <=? hi) then Ok z else Fault "double conversion"
  | None => Fault "double conversion"
  end.
Definition d_to_u64 : double -> res Z := d_to_range 0 (2 ^ 64 - 1).
Definition d_to_s64 : double -> res Z := d_to_range (- 2 ^ 63) (2 ^ 63 - 1).
Definition d_to_s32 : double -> res Z := d_to_range (- 2 ^ 31) (2 ^ 31 - 1).

Lemma d_to_range_ok lo hi x z : d_to_range lo hi x = Ok z -> lo <= z <= hi.
Proof. unfold d_to_range. repeat case_match; intros; simplify_eq. lia. Qed.

(** ** Order

    [<] on doubles is a strict order; a NaN is unordered. *)

Lemma dlt_irrefl x : dlt x x = false.
Proof.
  unfold dlt, SFltb. destruct x as [[] | [] | | [] m e]; try done; cbn [SFcompare];
    rewrite Z.compare_refl, Pos.compare_cont_refl; done.
Qed.

(** The order of finite numbers of one sign is lexicographic. *)
Lemma dlt_finite_pos m1 e1 m2 e2 :
  dlt (S754_finite false m1 e1) (S754_finite false m2 e2) = true <-> e1 < e2 \/ (e1 = e2 /\ (m1 < m2)%positive).
Proof.
  unfold dlt, SFltb, SFcompare. change (Pos.compare_cont Eq m1 m2) with (Pos.compare m1 m2).
  destruct (Z.compare_spec e1 e2); [destruct (Pos.compare_spec m1 m2) | |];
    split; intros ?; first [done | lia | exfalso; lia].
Qed.

Lemma dlt_finite_neg m1 e1 m2 e2 :
  dlt (S754_finite true m1 e1) (S754_finite true m2 e2) = true <-> e2 < e1 \/ (e1 = e2 /\ (m2 < m1)%positive).
Proof.
  unfold dlt, SFltb, SFcompare. change (Pos.compare_cont Eq m1 m2) with (Pos.compare m1 m2).
  destruct (Z.compare_spec e1 e2); [destruct (Pos.compare_spec m1 m2) | |];
    split; intros ?; first [done | lia | exfalso; lia].
Qed.

Lemma dlt_trans x y z : dlt x y = true -> dlt y z = true -> dlt x z = true.
Proof.
  destruct x as [[] | [] | | [] m1 e1], y as [[] | [] | | [] m2 e2], z as [[] | [] | | [] m3 e3]; try done.
  - rewrite !dlt_finite_neg. lia.
  - rewrite !dlt_finite_pos. lia.
Qed.

(** A number that compares at all lies on one side or the other. *)
Lemma dlt_cotrans x y z u : dlt x z = true -> dlt y u = true -> dlt x y = true \/ dlt y z = true.
Proof.
  destruct x as [[] | [] | | [] m1 e1], y as [[] | [] | | [] m2 e2], z as [[] | [] | | [] m3 e3]; try done; auto.
  - rewrite !dlt_finite_neg. lia.
  - rewrite !dlt_finite_pos. lia.
Qed.
