(* ===== verification/Rounding.v ===== *)
(** * Rounding: what floating point arithmetic guarantees

    The rounding of the executable IEEE-754 numbers of [Double] never crosses a
    representable number: if a double lies below the exact result of an
    operation, it lies below the rounded result, and likewise above.  This is
    what the planner's comparisons of times rely on. *)

From S2P Require Import Prelude Double.

Abbreviation fexp := (SpecFloat.fexp 53 1024).

Lemma fexp_eq e : fexp e = Z.max (e - 53) (-1074).
Proof. done. Qed.

(** ** Digits *)

Lemma digits2_pos_bounds p : 2 ^ (Z.pos (digits2_pos p) - 1) <= Z.pos p < 2 ^ Z.pos (digits2_pos p).
Proof.
  induction p as [p IH | p IH |]; cbn [digits2_pos]; [| | done];
    rewrite Pos2Z.inj_succ; replace (Z.succ (Z.pos (digits2_pos p)) - 1) with (Z.succ (Z.pos (digits2_pos p) - 1)) by lia;
    rewrite !Z.pow_succ_r by lia; lia.
Qed.

Lemma digits2_unique p d : 2 ^ (d - 1) <= Z.pos p < 2 ^ d -> 0 < d -> Z.pos (digits2_pos p) = d.
Proof.
  intros H Hd. pose proof (digits2_pos_bounds p) as Hp. set (k := Z.pos (digits2_pos p)) in *.
  destruct (Z.lt_trichotomy k d) as [Hk | [Hk | Hk]]; [exfalso | done | exfalso].
  - assert (2 ^ k <= 2 ^ (d - 1)) by (apply Z.pow_le_mono_r; lia). lia.
  - assert (2 ^ d <= 2 ^ (k - 1)) by (apply Z.pow_le_mono_r; lia). lia.
Qed.

(** ** Shifting with sticky bits *)

Lemma iter_pos_nat {A} (f : A -> A) n x : iter_pos f n x = Nat.iter (Pos.to_nat n) f x.
Proof.
  revert x. induction n as [n IH | n IH |]; intros x; cbn [iter_pos]; [| | done]; rewrite !IH, <- Nat.iter_add.
  - replace (f x) with (Nat.iter 1 f x) by done. rewrite <- Nat.iter_add. f_equal. lia.
  - f_equal. lia.
Qed.

(** [exact_rec x]: nothing was shifted out. *)
Definition exact_rec (x : shr_record) : Prop := shr_r x = false /\ shr_s x = false.

Lemma shr_1_spec x : 0 <= shr_m x ->
  shr_m (shr_1 x) = shr_m x / 2 /\ (exact_rec (shr_1 x) <-> exact_rec x /\ shr_m x mod 2 = 0).
Proof.
  destruct x as [m r s]. unfold exact_rec. cbn [shr_m shr_r shr_s]. intros Hm.
  destruct m as [| [p | p |] | p]; [| | | | lia]; cbn [shr_1 shr_m shr_r shr_s].
  - split; [done |]. destruct r, s; intuition done.
  - split; [apply (Z.div_unique _ _ _ 1); lia |]. assert (Z.pos p~1 mod 2 = 1) as -> by (symmetry; apply (Z.mod_unique _ _ (Z.pos p)); lia).
    intuition done.
  - split; [apply (Z.div_unique _ _ _ 0); lia |]. assert (Z.pos p~0 mod 2 = 0) as -> by (symmetry; apply (Z.mod_unique _ _ (Z.pos p)); lia).
    destruct r, s; intuition done.
  - split; [done |]. change (1 mod 2) with 1. intuition done.
Qed.

Lemma shr_iter_spec n x : 0 <= shr_m x ->
  let y := Nat.iter n shr_1 x in
  shr_m y = shr_m x / 2 ^ Z.of_nat n /\ (exact_rec y <-> exact_rec x /\ shr_m x mod 2 ^ Z.of_nat n = 0).
Proof.
  intros Hm. induction n as [| n IH]; cbn zeta.
  - simpl. rewrite Z.div_1_r, Z.mod_1_r. split; [done | tauto].
  - destruct IH as [IH1 IH2]. cbn zeta in *. set (y := Nat.iter n shr_1 x) in *.
    destruct (shr_1_spec y) as [H1 H2]; [rewrite IH1; apply Z.div_pos; lia |].
    change (Nat.iter (S n) shr_1 x) with (shr_1 y). rewrite Nat2Z.inj_succ, Z.pow_succ_r, (Z.mul_comm 2) by lia. split.
    + rewrite H1, IH1. apply Z.div_div; lia.
    + rewrite H2, IH2, Z.rem_mul_r, <- IH1 by lia.
      assert (0 <= shr_m x mod 2 ^ Z.of_nat n < 2 ^ Z.of_nat n) by (apply Z.mod_pos_bound; lia).
      assert (0 <= shr_m y mod 2 < 2) by (apply Z.mod_pos_bound; lia). split; [intros [[? ->] ->]; split; [done | lia] |].
      intros [? ?]. split; [split; [done |] |]; nia.
Qed.

(** The two bits tell on which side of one half the part shifted out lies. *)
Definition half_side (x : shr_record) (twice whole : Z) : Prop :=
  match shr_r x, shr_s x with
  | false, false => twice = 0
  | false, true => twice < whole
  | true, false => twice = whole
  | true, true => whole < twice
  end.

Lemma shr_iter_half n m : 0 <= m ->
  half_side (Nat.iter n shr_1 (Build_shr_record m false false)) (2 * (m mod 2 ^ Z.of_nat n)) (2 ^ Z.of_nat n).
Proof.
  intros Hm. destruct n as [| n]; [unfold half_side; cbn; rewrite Z.mod_1_r; reflexivity |].
  set (x := Build_shr_record m false false). destruct (shr_iter_spec n x Hm) as [H1 H2]. set (y := Nat.iter n shr_1 x) in *.
  change (Nat.iter (S n) shr_1 x) with (shr_1 y). change (shr_m x) with m in *.
  assert (Hx : exact_rec y <-> m mod 2 ^ Z.of_nat n = 0) by (rewrite H2; unfold exact_rec; cbn; tauto). clear H2.
  rewrite Nat2Z.inj_succ, Z.pow_succ_r, (Z.mul_comm 2 (2 ^ _)), Z.rem_mul_r, <- H1 by lia.
  assert (Hr : 0 <= m mod 2 ^ Z.of_nat n < 2 ^ Z.of_nat n) by (apply Z.mod_pos_bound; lia).
  assert (Hy : 0 <= shr_m y) by (rewrite H1; apply Z.div_pos; lia).
  unfold half_side, exact_rec in *. destruct y as [my r s]. cbn [shr_m shr_r shr_s] in *.
  assert (Hb : shr_r (shr_1 (Build_shr_record my r s)) = negb (my mod 2 =? 0) /\ shr_s (shr_1 (Build_shr_record my r s)) = r || s).
  { destruct my as [| [q | q |] | q]; [done | | | done | lia]; cbn [shr_1 shr_r shr_s]; (split; [| done]).
    - assert (Z.pos q~1 mod 2 = 1) as -> by (symmetry; apply (Z.mod_unique _ _ (Z.pos q)); lia). done.
    - assert (Z.pos q~0 mod 2 = 0) as -> by (symmetry; apply (Z.mod_unique _ _ (Z.pos q)); lia). done. }
  destruct Hb as [-> ->]. assert (0 <= my mod 2 < 2) by (apply Z.mod_pos_bound; lia).
  assert (H0 : r || s = false <-> m mod 2 ^ Z.of_nat n = 0) by (rewrite <- Hx; destruct r, s; cbn; intuition done).
  destruct (Z.eqb_spec (my mod 2) 0) as [-> | Ho]; [| replace (my mod 2) with 1 by lia]; cbn [negb];
    destruct (r || s); (destruct H0 as [H01 H02]; try rewrite (H01 eq_refl));
    try (assert (m mod 2 ^ Z.of_nat n <> 0) by (intros E; discriminate (H02 E))); lia.
Qed.

Lemma shr_half m e k : 0 <= m -> 0 <= k ->
  half_side (shr (Build_shr_record m false false) e k).1 (2 * (m mod 2 ^ k)) (2 ^ k).
Proof.
  intros Hm Hk. destruct k as [| p | p]; [| | lia]; cbn [shr fst].
  - exact (shr_iter_half 0 m Hm).
  - rewrite iter_pos_nat. pose proof (shr_iter_half (Pos.to_nat p) m Hm) as H. by rewrite positive_nat_Z in H.
Qed.

Lemma shr_spec x e k : 0 <= shr_m x -> 0 <= k ->
  exists y, shr x e k = (y, e + k) /\ shr_m y = shr_m x / 2 ^ k /\ (exact_rec y <-> exact_rec x /\ shr_m x mod 2 ^ k = 0).
Proof.
  intros Hm Hk. destruct k as [| p | p]; [| | lia]; cbn [shr].
  - exists x. rewrite Z.add_0_r, Z.pow_0_r, Z.div_1_r, Z.mod_1_r. split_and!; try done; tauto.
  - rewrite iter_pos_nat. destruct (shr_iter_spec (Pos.to_nat p) x Hm) as [H1 H2].
    rewrite positive_nat_Z in H1, H2. by eexists.
Qed.

Lemma shr_none x e k : k <= 0 -> shr x e k = (x, e).
Proof. destruct k; [done | lia | done]. Qed.

Lemma round_nearest_even_cases y :
  let M := round_nearest_even (shr_m y) (loc_of_shr_record y) in
  (M = shr_m y \/ M = shr_m y + 1) /\ (exact_rec y -> M = shr_m y) /\ (M = shr_m y + 1 -> ~ exact_rec y).
Proof.
  destruct y as [m r s]. unfold exact_rec. cbn. destruct r, s; cbn; try (destruct (Z.even m)); intuition (done || lia).
Qed.

(** Rounding to nearest: the error is at most one half. *)
Lemma round_nearest_even_half y rem whole : 0 <= rem < whole -> half_side y (2 * rem) whole ->
  let M := round_nearest_even (shr_m y) (loc_of_shr_record y) in
  (M = shr_m y /\ 2 * rem <= whole) \/ (M = shr_m y + 1 /\ whole <= 2 * rem).
Proof.
  intros Hr. unfold half_side. destruct y as [m r s]. cbn. destruct r, s; cbn; try (destruct (Z.even m)); lia.
Qed.

(** ** Canonical numbers *)

Definition canonical (m : positive) (e : Z) : Prop := fexp (Z.pos (digits2_pos m) + e) = e.

Lemma canonical_iff m e :
  canonical m e <-> -1074 <= e /\ Z.pos m < 2 ^ 53 /\ (-1074 < e -> 2 ^ 52 <= Z.pos m).
Proof.
  unfold canonical. rewrite fexp_eq. pose proof (digits2_pos_bounds m) as Hb. set (d := Z.pos (digits2_pos m)) in *. split.
  - intros H. split; [lia |]. assert (d <= 53) by lia. assert (2 ^ d <= 2 ^ 53) by (apply Z.pow_le_mono_r; lia).
    split; [lia |]. intros He. assert (d = 53) as Hd by lia. rewrite Hd in Hb. exact (proj1 Hb).
  - intros (He & Hm & Hn). assert (d <= 53).
    { destruct (decide (d <= 53)); [done |]. assert (2 ^ 53 <= 2 ^ (d - 1)) by (apply Z.pow_le_mono_r; lia). lia. }
    destruct (decide (e = -1074)); [lia |]. assert (53 <= d).
    { destruct (decide (53 <= d)); [done |]. assert (2 ^ d <= 2 ^ 52) by (apply Z.pow_le_mono_r; lia). lia. }
    lia.
Qed.

(** ** Rounding *)

Definition mk_double (sx : bool) (M E : Z) : double :=
  match M with
  | Z0 => S754_zero sx
  | Z.pos m => if E <=? 971 then S754_finite sx m E else S754_infinity sx
  | Z.neg _ => S754_nan
  end.

(** The second normalisation: only a carry into the 54th bit moves anything. *)
Lemma renormalise M0 e1 :
  0 <= M0 <= 2 ^ 53 -> -1074 <= e1 -> (-1074 < e1 -> 2 ^ 52 <= M0) ->
  exists y E, shr_fexp 53 1024 M0 e1 loc_Exact = (y, E) /\ e1 <= E /\ shr_m y * 2 ^ (E - e1) = M0
    /\ (shr_m y = 0 \/ (0 < shr_m y /\ canonical (Z.to_pos (shr_m y)) E)).
Proof.
  intros HM He Hn. unfold shr_fexp. destruct (decide (M0 = 2 ^ 53)) as [-> | Hne].
  - change (Zdigits2 (2 ^ 53)) with 54. rewrite fexp_eq, Z.max_l by lia. replace (54 + e1 - 53 - e1) with 1 by lia.
    exists (Build_shr_record (2 ^ 52) false false), (e1 + 1). split; [done |]. split; [lia |].
    cbn [shr_m]. replace (e1 + 1 - e1) with 1 by lia. split; [done |]. right. split; [done |]. apply canonical_iff. lia.
  - assert (Hd : M0 = 0 \/ Zdigits2 M0 <= 53).
    { destruct M0 as [| p |]; [by left | right | lia]. cbn [Zdigits2]. pose proof (digits2_pos_bounds p) as Hb.
      destruct (decide (Z.pos (digits2_pos p) <= 53)); [done |].
      assert (2 ^ 53 <= 2 ^ (Z.pos (digits2_pos p) - 1)) by (apply Z.pow_le_mono_r; lia). lia. }
    assert (Zdigits2 M0 <= 53) by (destruct Hd as [-> |]; [done | lia]).
    rewrite shr_none by (rewrite fexp_eq; lia). exists (Build_shr_record M0 false false), e1. cbn [shr_m].
    rewrite Z.sub_diag. split_and!; [done | lia | lia |]. destruct (decide (M0 = 0)); [by left | right]. split; [lia |].
    apply canonical_iff. rewrite Z2Pos.id by lia. lia.
Qed.

(** The result of rounding a mantissa that is long enough: the quotient
    by the power of two dropped, or one more, and that only if inexact. *)
Lemma round_aux_spec sx m e l :
  0 <= m -> let e1 := fexp (Zdigits2 m + e) in e <= e1 ->
  exists M E M0, binary_round_aux 53 1024 sx m e l = mk_double sx M E
    /\ (M = 0 \/ (0 < M /\ canonical (Z.to_pos M) E)) /\ e1 <= E /\ M * 2 ^ (E - e1) = M0
    /\ m / 2 ^ (e1 - e) <= M0 <= m / 2 ^ (e1 - e) + 1
    /\ (-1074 < e1 -> 2 ^ 52 <= m / 2 ^ (e1 - e))
    /\ (l = loc_Exact -> m mod 2 ^ (e1 - e) = 0 -> M0 = m / 2 ^ (e1 - e))
    /\ (l = loc_Exact -> (M0 = m / 2 ^ (e1 - e) /\ 2 * (m mod 2 ^ (e1 - e)) <= 2 ^ (e1 - e))
                         \/ (M0 = m / 2 ^ (e1 - e) + 1 /\ 2 ^ (e1 - e) <= 2 * (m mod 2 ^ (e1 - e)))).
Proof.
  intros Hm e1 He. set (d := Zdigits2 m) in *.
  assert (Hd : m < 2 ^ d /\ (-1074 < e1 -> 2 ^ (d - 1) <= m)).
  { destruct m as [| p |]; [| | lia].
    - split; [done |]. intros H. unfold d, e1 in *. rewrite fexp_eq in *. cbn [Zdigits2] in *. lia.
    - pose proof (digits2_pos_bounds p). unfold d. cbn [Zdigits2]. lia. }
  assert (0 <= d) by (unfold d; by destruct m).
  unfold binary_round_aux, shr_fexp at 1. fold d. fold e1.
  assert (Hx : shr_m (shr_record_of_loc m l) = m) by (by destruct l as [| []]).
  assert (Hh : l = loc_Exact -> half_side (shr (shr_record_of_loc m l) e (e1 - e)).1 (2 * (m mod 2 ^ (e1 - e))) (2 ^ (e1 - e)))
    by (intros ->; apply shr_half; lia).
  destruct (shr_spec (shr_record_of_loc m l) e (e1 - e)) as (y & Ey & Hy & Hex); [rewrite Hx; lia | lia |]. rewrite Ey in *. cbn [fst] in Hh.
  rewrite Hx in Hy, Hex. replace (e + (e1 - e)) with e1 by lia.
  destruct (round_nearest_even_cases y) as (Hc & He1 & He2). cbn zeta in *.
  set (M0 := round_nearest_even (shr_m y) (loc_of_shr_record y)) in *. rewrite Hy in *.
  assert (Hk : e1 - e = Z.max (d - 53) (-1074 - e)) by (unfold e1; rewrite fexp_eq; lia).
  assert (Hq : 0 <= m / 2 ^ (e1 - e) < 2 ^ 53).
  { split; [apply Z.div_pos; lia |]. apply Z.div_lt_upper_bound; [lia |]. rewrite <- Z.pow_add_r by lia.
    assert (2 ^ d <= 2 ^ (e1 - e + 53)) by (apply Z.pow_le_mono_r; lia). lia. }
  assert (Hn : -1074 < e1 -> 2 ^ 52 <= m / 2 ^ (e1 - e)).
  { intros H1. apply Z.div_le_lower_bound; [lia |]. rewrite <- Z.pow_add_r by lia.
    assert (e1 - e + 52 = d - 1) as -> by (unfold e1 in *; rewrite fexp_eq in *; lia). lia. }
  destruct (renormalise M0 e1) as (y' & E & -> & HE & HM & Hcan); [lia | unfold e1; rewrite fexp_eq; lia | lia |].
  exists (shr_m y'), E, M0. split; [by destruct (shr_m y') |]. split_and!; try done; [lia | lia | |].
  - intros -> Hr. apply He1, Hex. by split.
  - intros Hl. specialize (Hh Hl). apply round_nearest_even_half in Hh; [| apply Z.mod_pos_bound; lia]. cbn zeta in Hh.
    fold M0 in Hh. rewrite Hy in Hh. exact Hh.
Qed.

(** ** Values

    The value of a finite double in units of the smallest one, 2^-1074. *)
Definition dval (x : double) : Z :=
  match x with
  | S754_finite s m e => (if s then Z.neg m else Z.pos m) * 2 ^ (e + 1074)
  | _ => 0
  end.

Definition dvalid (x : double) : Prop :=
  match x with S754_finite _ m e => canonical m e /\ e <= 971 | _ => True end.

Definition dfin (x : double) : Prop :=
  match x with
  | S754_zero _ => True
  | S754_finite _ m e => canonical m e /\ e <= 971
  | _ => False
  end.

Lemma canonical_order m1 e1 m2 e2 c :
  canonical m1 e1 -> canonical m2 e2 -> c <= e1 -> c <= e2 ->
  Z.pos m1 * 2 ^ (e1 - c) <= Z.pos m2 * 2 ^ (e2 - c) <-> e1 < e2 \/ (e1 = e2 /\ Z.pos m1 <= Z.pos m2).
Proof.
  intros (A1 & A2 & A3)%canonical_iff (B1 & B2 & B3)%canonical_iff H1 H2.
  assert (Hlt : forall m e m' e', c <= e < e' -> Z.pos m < 2 ^ 53 -> 2 ^ 52 <= Z.pos m' ->
    Z.pos m * 2 ^ (e - c) < Z.pos m' * 2 ^ (e' - c)).
  { intros m e m' e' He Hm Hm'. assert (0 < 2 ^ (e - c)) by lia.
    assert (2 * 2 ^ (e - c) <= 2 ^ (e' - c)) by (rewrite <- Z.pow_succ_r by lia; apply Z.pow_le_mono_r; lia). nia. }
  destruct (Z.lt_trichotomy e1 e2) as [He | [-> | He]].
  - pose proof (Hlt m1 e1 m2 e2 ltac:(lia) A2 ltac:(lia)). lia.
  - assert (0 < 2 ^ (e2 - c)) by lia. split; [intros; right; split; [done | nia] | intros [|[]]; [lia | nia]].
  - pose proof (Hlt m2 e2 m1 e1 ltac:(lia) B2 ltac:(lia)). lia.
Qed.

Lemma dval_sign m e : -1074 <= e -> 0 < Z.pos m * 2 ^ (e + 1074).
Proof. intros. apply Z.mul_pos_pos; lia. Qed.

Lemma dle_val x y : dfin x -> dfin y -> dle x y = true <-> dval x <= dval y.
Proof.
  destruct x as [s1 | | | s1 m1 e1], y as [s2 | | | s2 m2 e2]; cbn [dfin dval]; intros Hx Hy; try done.
  - destruct Hy as [(Hy & _)%canonical_iff _]. pose proof (dval_sign m2 e2 Hy). change (Z.neg m2) with (- Z.pos m2); rewrite ?Z.mul_opp_l; destruct s1, s2; cbn -[Z.mul Z.pow]; split; intros; try done; lia.
  - destruct Hx as [(Hx & _)%canonical_iff _]. pose proof (dval_sign m1 e1 Hx). change (Z.neg m1) with (- Z.pos m1); rewrite ?Z.mul_opp_l; destruct s1, s2; cbn -[Z.mul Z.pow]; split; intros; try done; lia.
  - destruct Hx as [Hx _], Hy as [Hy _]. pose proof (proj1 (canonical_iff _ _) Hx) as [Gx _].
    pose proof (proj1 (canonical_iff _ _) Hy) as [Gy _]. pose proof (dval_sign m1 e1 Gx). pose proof (dval_sign m2 e2 Gy).
    pose proof (canonical_order m1 e1 m2 e2 (-1074) Hx Hy ltac:(lia) ltac:(lia)) as C1.
    pose proof (canonical_order m2 e2 m1 e1 (-1074) Hy Hx ltac:(lia) ltac:(lia)) as C2.
    replace (e1 - -1074) with (e1 + 1074) in * by lia. replace (e2 - -1074) with (e2 + 1074) in * by lia. unfold dle, SFleb, SFcompare. change (Pos.compare_cont Eq m1 m2) with (Pos.compare m1 m2).
    destruct s1, s2; [| split; [intros; lia | done] | split; [done | intros; lia] |].
    + change (Z.neg m1) with (- Z.pos m1). change (Z.neg m2) with (- Z.pos m2). rewrite !Z.mul_opp_l.
      destruct (Z.compare_spec e1 e2); [destruct (Pos.compare_spec m1 m2) | |]; cbn; split; intros; try done; lia.
    + destruct (Z.compare_spec e1 e2); [destruct (Pos.compare_spec m1 m2) | |]; cbn; split; intros; try done; lia.
Qed.

Lemma dlt_negb x y : dfin x -> dfin y -> dlt x y = negb (dle y x).
Proof.
  destruct x as [[] | | | s1 m1 e1], y as [[] | | | s2 m2 e2]; intros Hx Hy; try done; try (by destruct s1); try (by destruct s2).
  unfold dlt, dle, SFltb, SFleb, SFcompare. rewrite (Z.compare_antisym e1 e2).
  change (Pos.compare_cont Eq m1 m2) with (Pos.compare m1 m2). change (Pos.compare_cont Eq m2 m1) with (Pos.compare m2 m1).
  rewrite (Pos.compare_antisym m1 m2). destruct s1, s2, (e1 ?= e2), (m1 ?= m2)%positive; done.
Qed.

Lemma dlt_val x y : dfin x -> dfin y -> dlt x y = true <-> dval x < dval y.
Proof.
  intros Hx Hy. rewrite dlt_negb by done. pose proof (dle_val y x Hy Hx). destruct (dle y x); simpl; split; intros; try done; lia.
Qed.

(** ** No crossing *)

Lemma sandwich_ge my ey m e e1 c :
  canonical my ey -> c <= e -> c <= ey -> e <= e1 -> (-1074 < e1 -> 2 ^ 52 <= m / 2 ^ (e1 - e)) ->
  Z.pos my * 2 ^ (ey - c) <= m * 2 ^ (e - c) -> Z.pos my * 2 ^ (ey - c) <= m / 2 ^ (e1 - e) * 2 ^ (e1 - c).
Proof.
  intros (H1 & H2 & _)%canonical_iff Hc Hcy He Hn H. set (q := m / 2 ^ (e1 - e)) in *.
  assert (Hm : m < (q + 1) * 2 ^ (e1 - e)).
  { pose proof (Z.mul_succ_div_gt m (2 ^ (e1 - e)) ltac:(lia)). unfold q. lia. }
  assert (Hs : 2 ^ (e1 - c) = 2 ^ (e1 - e) * 2 ^ (e - c)) by (rewrite <- Z.pow_add_r by lia; f_equal; lia).
  assert (0 < 2 ^ (e - c)) by lia. assert (0 < 2 ^ (e1 - e)) by lia.
  destruct (decide (e1 <= ey)) as [Hle | Hgt].
  - assert (Hy : 2 ^ (ey - c) = 2 ^ (ey - e1) * 2 ^ (e1 - c)) by (rewrite <- Z.pow_add_r by lia; f_equal; lia).
    rewrite Hy in *. assert (Z.pos my * 2 ^ (ey - e1) <= q); [| nia].
    assert (Z.pos my * 2 ^ (ey - e1) < q + 1); [| lia].
    apply (Z.mul_lt_mono_pos_r (2 ^ (e1 - c))); [lia |]. rewrite Hs in *. nia.
  - assert (2 * 2 ^ (ey - c) <= 2 ^ (e1 - c)) by (rewrite <- Z.pow_succ_r by lia; apply Z.pow_le_mono_r; lia).
    specialize (Hn ltac:(lia)). assert (0 < 2 ^ (ey - c)) by lia. nia.
Qed.

Lemma sandwich_le my ey m e e1 c :
  canonical my ey -> c <= e -> c <= ey -> e <= e1 -> (-1074 < e1 -> 2 ^ 52 <= m / 2 ^ (e1 - e)) ->
  m * 2 ^ (e - c) <= Z.pos my * 2 ^ (ey - c) -> m mod 2 ^ (e1 - e) <> 0 ->
  (m / 2 ^ (e1 - e) + 1) * 2 ^ (e1 - c) <= Z.pos my * 2 ^ (ey - c).
Proof.
  intros (H1 & H2 & _)%canonical_iff Hc Hcy He Hn H Hr. set (q := m / 2 ^ (e1 - e)) in *.
  assert (0 < 2 ^ (e - c)) by lia. assert (0 < 2 ^ (e1 - e)) by lia.
  assert (Hm : q * 2 ^ (e1 - e) < m).
  { pose proof (Z.div_mod m (2 ^ (e1 - e)) ltac:(lia)). pose proof (Z.mod_pos_bound m (2 ^ (e1 - e)) ltac:(lia)). unfold q. lia. }
  assert (Hs : 2 ^ (e1 - c) = 2 ^ (e1 - e) * 2 ^ (e - c)) by (rewrite <- Z.pow_add_r by lia; f_equal; lia).
  destruct (decide (e1 <= ey)) as [Hle | Hgt].
  - assert (Hy : 2 ^ (ey - c) = 2 ^ (ey - e1) * 2 ^ (e1 - c)) by (rewrite <- Z.pow_add_r by lia; f_equal; lia).
    rewrite Hy in *. assert (q < Z.pos my * 2 ^ (ey - e1)); [| nia].
    apply (Z.mul_lt_mono_pos_r (2 ^ (e1 - c))); [lia |]. rewrite Hs in *. nia.
  - exfalso. assert (2 * 2 ^ (ey - c) <= 2 ^ (e1 - c)) by (rewrite <- Z.pow_succ_r by lia; apply Z.pow_le_mono_r; lia).
    specialize (Hn ltac:(lia)). assert (0 < 2 ^ (ey - c)) by lia.
    assert (q * 2 ^ (e1 - c) < m * 2 ^ (e - c)) by (rewrite Hs; nia). nia.
Qed.

Lemma mk_double_valid sx M E : M = 0 \/ (0 < M /\ canonical (Z.to_pos M) E) -> dvalid (mk_double sx M E).
Proof. intros [-> | [HM HC]]; [done |]. destruct M as [| m |]; [done | | done]. cbn in *. case_match; [split; [done | lia] | done]. Qed.

Lemma round_aux_valid sx m e l : 0 <= m -> e <= fexp (Zdigits2 m + e) -> dvalid (binary_round_aux 53 1024 sx m e l).
Proof. intros Hm He. destruct (round_aux_spec sx m e l Hm He) as (M & E & M0 & -> & HC & _). by apply mk_double_valid. Qed.

(** Comparison of a positive double with a rounded number, from the values. *)
Lemma mk_double_ge my ey M E c :
  canonical my ey -> ey <= 971 -> c <= -1074 -> -1074 <= E -> M = 0 \/ (0 < M /\ canonical (Z.to_pos M) E) ->
  Z.pos my * 2 ^ (ey - c) <= M * 2 ^ (E - c) -> dle (S754_finite false my ey) (mk_double false M E) = true.
Proof.
  intros Hy Hb Hc HE HM H. pose proof (proj1 (canonical_iff _ _) Hy) as [Gy _].
  assert (0 < 2 ^ (ey - c)) by lia. destruct HM as [-> | [HM HC]]; [nia |].
  destruct M as [| m |]; [lia | | lia]. cbn [mk_double]. destruct (E <=? 971) eqn:E1; [| done].
  apply dle_val; [done | split; [done | lia] |]. cbn [dval Z.to_pos] in *.
  pose proof (proj1 (canonical_order my ey m E c Hy HC ltac:(lia) ltac:(lia)) H) as HO.
  replace (ey + 1074) with (ey - -1074) by lia. replace (E + 1074) with (E - -1074) by lia.
  apply canonical_order; [done | done | lia | lia | done].
Qed.

Lemma mk_double_le my ey M E c :
  canonical my ey -> ey <= 971 -> c <= -1074 -> -1074 <= E -> M = 0 \/ (0 < M /\ canonical (Z.to_pos M) E) ->
  M * 2 ^ (E - c) <= Z.pos my * 2 ^ (ey - c) -> dle (mk_double false M E) (S754_finite false my ey) = true.
Proof.
  intros Hy Hb Hc HE HM H. pose proof (proj1 (canonical_iff _ _) Hy) as [Gy _].
  destruct HM as [-> | [HM HC]]; [done |]. destruct M as [| m |]; [lia | | lia]. cbn [mk_double Z.to_pos] in *.
  pose proof (proj1 (canonical_order m E my ey c HC Hy ltac:(lia) ltac:(lia)) H) as HO.
  destruct (E <=? 971) eqn:E1; [| lia]. apply dle_val; [split; [done | lia] | done |]. cbn [dval].
  replace (ey + 1074) with (ey - -1074) by lia. replace (E + 1074) with (E - -1074) by lia.
  apply canonical_order; [done | done | lia | lia | done].
Qed.

(** The rounded number is on the same side of every double as the exact one;
    [m * 2^e] and the double are compared in units of 2^(-1074-K). *)
Lemma round_aux_ge m e l y K :
  0 <= m -> e <= fexp (Zdigits2 m + e) -> dfin y -> 0 <= K -> 0 <= e + 1074 + K ->
  dval y * 2 ^ K <= m * 2 ^ (e + 1074 + K) -> dle y (binary_round_aux 53 1024 false m e l) = true.
Proof.
  intros Hm He Hy HK HeK H. destruct (round_aux_spec false m e l Hm He) as (M & E & M0 & -> & HC & HE & HM & Hq & Hn & _).
  set (e1 := fexp (Zdigits2 m + e)) in *. assert (-1074 <= e1) by (unfold e1; rewrite fexp_eq; lia).
  destruct y as [s | | | [] my ey]; try done.
  - destruct HC as [-> | [HC _]]; [done |]. destruct M as [| p |]; [done | | lia]. cbn. by case_match.
  - destruct HC as [-> | [HC _]]; [done |]. destruct M as [| p |]; [done | | lia]. cbn. by case_match.
  - destruct Hy as [Hy Hb]. pose proof (proj1 (canonical_iff _ _) Hy) as [Gy _].
    apply (mk_double_ge _ _ _ _ (-1074 - K)); [done | done | lia | lia | done |].
    assert (Hv : Z.pos my * 2 ^ (ey - (-1074 - K)) <= m * 2 ^ (e - (-1074 - K))).
    { cbn [dval] in H. rewrite <- Z.mul_assoc, <- Z.pow_add_r in H by lia.
      replace (ey - (-1074 - K)) with (ey + 1074 + K) by lia. by replace (e - (-1074 - K)) with (e + 1074 + K) by lia. }
    apply (sandwich_ge _ _ _ _ e1) in Hv; [| done | lia | lia | done | done].
    etrans; [exact Hv |]. replace (E - (-1074 - K)) with (E - e1 + (e1 - (-1074 - K))) by lia.
    rewrite Z.pow_add_r by lia. rewrite Z.mul_assoc, HM. apply Z.mul_le_mono_nonneg_r; lia.
Qed.

Lemma round_aux_le m e y K :
  0 < m -> e <= fexp (Zdigits2 m + e) -> dfin y -> 0 <= K -> 0 <= e + 1074 + K ->
  m * 2 ^ (e + 1074 + K) <= dval y * 2 ^ K -> dle (binary_round_aux 53 1024 false m e loc_Exact) y = true.
Proof.
  intros Hm He Hy HK HeK H. destruct (round_aux_spec false m e loc_Exact ltac:(lia) He) as (M & E & M0 & -> & HC & HE & HM & Hq & Hn & Hx & _).
  set (e1 := fexp (Zdigits2 m + e)) in *. assert (-1074 <= e1) by (unfold e1; rewrite fexp_eq; lia).
  assert (0 < 2 ^ (e + 1074 + K)) by lia. assert (0 < 2 ^ K) by lia.
  destruct y as [s | | | [] my ey]; try done.
  - cbn [dval] in H. nia.
  - cbn [dval] in H. destruct Hy as [(Gy & _)%canonical_iff _]. pose proof (dval_sign my ey Gy). nia.
  - destruct Hy as [Hy Hb]. pose proof (proj1 (canonical_iff _ _) Hy) as [Gy _].
    apply (mk_double_le _ _ _ _ (-1074 - K)); [done | done | lia | lia | done |].
    assert (Hv : m * 2 ^ (e - (-1074 - K)) <= Z.pos my * 2 ^ (ey - (-1074 - K))).
    { cbn [dval] in H. rewrite <- (Z.mul_assoc (Z.pos my)), <- Z.pow_add_r in H by lia.
      replace (ey - (-1074 - K)) with (ey + 1074 + K) by lia. by replace (e - (-1074 - K)) with (e + 1074 + K) by lia. }
    replace (E - (-1074 - K)) with (E - e1 + (e1 - (-1074 - K))) by lia.
    rewrite Z.pow_add_r by lia. rewrite Z.mul_assoc, HM.
    destruct (decide (m mod 2 ^ (e1 - e) = 0)) as [Hr | Hr].
    + rewrite Hx by done. replace (e1 - (-1074 - K)) with (e1 - e + (e - (-1074 - K))) by lia.
      rewrite Z.pow_add_r by lia. rewrite Z.mul_assoc, (Z.mul_comm (m / _)), <- (Z_div_exact_full_2 m) by lia. exact Hv.
    + apply (sandwich_le _ _ _ _ e1) in Hv; [| done | lia | lia | done | done | done].
      etrans; [| exact Hv]. apply Z.mul_le_mono_nonneg_r; lia.
Qed.

(** ** Rounding of an integer multiple of a power of two *)

Lemma shl_align_spec mx ex ex' : ex' <= ex ->
  exists p, shl_align mx ex ex' = (p, ex') /\ Z.pos p = Z.pos mx * 2 ^ (ex - ex').
Proof.
  intros H. unfold shl_align. destruct (ex' - ex) as [| d | d] eqn:E; [| lia |].
  - assert (ex = ex') as -> by lia. exists mx. rewrite Z.sub_diag. split; [done | lia].
  - eexists. split; [done |]. replace (ex - ex') with (Z.pos d) by lia.
    clear. induction d as [| d IH] using Pos.peano_ind; [simpl; lia |].
    rewrite Pos.iter_succ, Pos2Z.inj_succ, Z.pow_succ_r by lia. lia.
Qed.

Lemma shl_align_none mx ex ex' : ex <= ex' -> shl_align mx ex ex' = (mx, ex).
Proof. intros H. unfold shl_align. destruct (ex' - ex) eqn:E; [done | done | lia]. Qed.

(** [binary_round] hands a mantissa that is long enough to the rounding. *)
Lemma binary_round_unfold sx m e :
  exists m' e', binary_round 53 1024 sx m e = binary_round_aux 53 1024 sx m' e' loc_Exact
    /\ 0 < m' /\ e' <= fexp (Zdigits2 m' + e') /\ e' <= e /\ m' = Z.pos m * 2 ^ (e - e')
    /\ (e' = e \/ -1074 <= e').
Proof.
  unfold binary_round. set (f := fexp (Z.pos (digits2_pos m) + e)). destruct (decide (f <= e)) as [Hf | Hf].
  - destruct (shl_align_spec m e f Hf) as (p & -> & Hp). exists (Z.pos p), f. split_and!; [done | lia | | lia | done |].
    + pose proof (digits2_pos_bounds m) as Hb. pose proof (digits2_unique p (Z.pos (digits2_pos m) + (e - f))) as Hd.
      cbn [Zdigits2]. rewrite Hd; [| | lia].
      * replace (Z.pos (digits2_pos m) + (e - f) + f) with (Z.pos (digits2_pos m) + e) by lia. fold f. lia.
      * rewrite Hp. replace (Z.pos (digits2_pos m) + (e - f) - 1) with (Z.pos (digits2_pos m) - 1 + (e - f)) by lia.
        rewrite !Z.pow_add_r by lia. assert (0 < 2 ^ (e - f)) by lia. nia.
    + right. unfold f. rewrite fexp_eq. lia.
  - rewrite shl_align_none by lia. exists (Z.pos m), e. split_and!; [done | lia | | lia | | by left].
    + cbn [Zdigits2]. fold f. lia.
    + rewrite Z.sub_diag. lia.
Qed.

Lemma round_aux_opp m e l : binary_round_aux 53 1024 true m e l = dopp (binary_round_aux 53 1024 false m e l).
Proof. unfold binary_round_aux. repeat case_match; done. Qed.

Lemma binary_round_opp m e : binary_round 53 1024 true m e = dopp (binary_round 53 1024 false m e).
Proof. unfold binary_round. case_match. apply round_aux_opp. Qed.

Lemma dle_opp x y : dle (dopp x) (dopp y) = dle y x.
Proof.
  destruct x as [[] | [] | | [] m1 e1], y as [[] | [] | | [] m2 e2]; try done;
    unfold dle, SFleb; cbn [dopp SFopp negb SFcompare];
    change (Pos.compare_cont Eq m1 m2) with (Pos.compare m1 m2); change (Pos.compare_cont Eq m2 m1) with (Pos.compare m2 m1);
    rewrite (Z.compare_antisym e1 e2), (Pos.compare_antisym m1 m2); destruct (e1 ?= e2), (m1 ?= m2)%positive; done.
Qed.

Lemma dval_opp x : dval (dopp x) = - dval x.
Proof. destruct x as [| | | [] m e]; try done; cbn [dopp SFopp negb dval]; change (Z.neg m) with (- Z.pos m); lia. Qed.

Lemma dfin_opp x : dfin (dopp x) <-> dfin x.
Proof. by destruct x. Qed.

Lemma dopp_involutive x : dopp (dopp x) = x.
Proof. by destruct x as [[] | [] | | []]. Qed.

Lemma binary_round_ge m e y K :
  dfin y -> 0 <= K -> 0 <= e + 1074 + K -> dval y * 2 ^ K <= Z.pos m * 2 ^ (e + 1074 + K) ->
  dle y (binary_round 53 1024 false m e) = true.
Proof.
  intros Hy HK He H. destruct (binary_round_unfold false m e) as (m' & e' & -> & Hm & Hf & Hle & Hv & Hc).
  apply (round_aux_ge m' e' _ y K); [lia | done | done | done | lia |]. etrans; [exact H |].
  rewrite Hv, <- Z.mul_assoc, <- Z.pow_add_r by lia. replace (e - e' + (e' + 1074 + K)) with (e + 1074 + K) by lia. lia.
Qed.

Lemma binary_round_le m e y K :
  dfin y -> 0 <= K -> 0 <= e + 1074 + K -> Z.pos m * 2 ^ (e + 1074 + K) <= dval y * 2 ^ K ->
  dle (binary_round 53 1024 false m e) y = true.
Proof.
  intros Hy HK He H. destruct (binary_round_unfold false m e) as (m' & e' & -> & Hm & Hf & Hle & Hv & Hc).
  apply (round_aux_le m' e' y K); [done | done | done | done | lia |]. etrans; [| exact H].
  rewrite Hv, <- Z.mul_assoc, <- Z.pow_add_r by lia. replace (e - e' + (e' + 1074 + K)) with (e + 1074 + K) by lia. lia.
Qed.

Lemma zero_le y sz : dfin y -> dle (S754_zero sz) y = true <-> 0 <= dval y.
Proof. intros Hy. exact (dle_val (S754_zero sz) y I Hy). Qed.

Lemma le_zero y sz : dfin y -> dle y (S754_zero sz) = true <-> dval y <= 0.
Proof. intros Hy. exact (dle_val y (S754_zero sz) Hy I). Qed.

Lemma normalize_ge n e sz y K :
  dfin y -> 0 <= K -> 0 <= e + 1074 + K -> dval y * 2 ^ K <= n * 2 ^ (e + 1074 + K) ->
  dle y (binary_normalize 53 1024 n e sz) = true.
Proof.
  intros Hy HK He H. destruct n as [| m | m]; cbn [binary_normalize].
  - apply le_zero; [done |]. assert (0 < 2 ^ K) by lia. nia.
  - by apply (binary_round_ge _ _ _ K).
  - rewrite binary_round_opp, <- (dopp_involutive y), dle_opp.
    apply (binary_round_le _ _ _ K); [by apply dfin_opp | done | done |]. rewrite dval_opp.
    change (Z.neg m) with (- Z.pos m) in H. lia.
Qed.

Lemma normalize_le n e sz y K :
  dfin y -> 0 <= K -> 0 <= e + 1074 + K -> n * 2 ^ (e + 1074 + K) <= dval y * 2 ^ K ->
  dle (binary_normalize 53 1024 n e sz) y = true.
Proof.
  intros Hy HK He H. destruct n as [| m | m]; cbn [binary_normalize].
  - apply zero_le; [done |]. assert (0 < 2 ^ K) by lia. nia.
  - by apply (binary_round_le _ _ _ K).
  - rewrite binary_round_opp, <- (dopp_involutive y), dle_opp.
    apply (binary_round_ge _ _ _ K); [by apply dfin_opp | done | done |]. rewrite dval_opp.
    change (Z.neg m) with (- Z.pos m) in H. lia.
Qed.

Lemma dvalid_opp x : dvalid (dopp x) <-> dvalid x.
Proof. by destruct x. Qed.

Lemma binary_round_valid m e : dvalid (binary_round 53 1024 false m e).
Proof. destruct (binary_round_unfold false m e) as (m' & e' & -> & Hm & Hf & _). apply round_aux_valid; [lia | done]. Qed.

Lemma normalize_valid n e sz : dvalid (binary_normalize 53 1024 n e sz).
Proof.
  destruct n as [| m | m]; cbn [binary_normalize]; [done | apply binary_round_valid |].
  rewrite binary_round_opp. apply dvalid_opp, binary_round_valid.
Qed.

(** ** The operations *)

Lemma dfin_valid x : dfin x -> dvalid x.
Proof. by destruct x. Qed.

(** A number between two finite ones is finite. *)
Lemma dfin_between lo x hi : dvalid x -> dfin lo -> dfin hi -> dle lo x = true -> dle x hi = true -> dfin x.
Proof. destruct x as [| [] | | ]; try done; destruct lo as [| [] | |[]], hi as [| [] | |[]]; done. Qed.

(** A sum or difference is exact, or it is the rounding of the exact value. *)
Definition rounds (v : Z) (r : double) : Prop :=
  (dfin r /\ dval r = v)
  \/ exists n e sz, -1074 <= e /\ r = binary_normalize 53 1024 n e sz /\ n * 2 ^ (e + 1074) = v.

Lemma rounds_ge v r lo : rounds v r -> dfin lo -> dval lo <= v -> dle lo r = true.
Proof.
  intros [[Hr <-] | (n & e & sz & He & -> & <-)] Hlo H; [by apply dle_val |].
  apply (normalize_ge _ _ _ _ 0); [done | done | lia |]. rewrite Z.add_0_r, Z.pow_0_r. lia.
Qed.

Lemma rounds_le v r hi : rounds v r -> dfin hi -> v <= dval hi -> dle r hi = true.
Proof.
  intros [[Hr <-] | (n & e & sz & He & -> & <-)] Hhi H; [by apply dle_val |].
  apply (normalize_le _ _ _ _ 0); [done | done | lia |]. rewrite Z.add_0_r, Z.pow_0_r. lia.
Qed.

Lemma rounds_valid v r : rounds v r -> dvalid r.
Proof. intros [[Hr _] | (n & e & sz & _ & -> & _)]; [by apply dfin_valid | apply normalize_valid]. Qed.

Lemma dval_align s m e ez : ez <= e ->
  cond_Zopp s (Z.pos (shl_align m e ez).1) * 2 ^ (ez + 1074) = (if s then Z.neg m else Z.pos m) * 2 ^ (e + 1074) \/ ez < -1074.
Proof.
  intros H. destruct (decide (ez < -1074)); [by right | left]. destruct (shl_align_spec m e ez H) as (p & -> & Hp).
  assert (2 ^ (e + 1074) = 2 ^ (e - ez) * 2 ^ (ez + 1074)) as -> by (rewrite <- Z.pow_add_r by lia; f_equal; lia).
  cbn [fst]. destruct s; cbn [cond_Zopp]; change (Z.neg m) with (- Z.pos m); rewrite Hp; lia.
Qed.

Lemma dadd_rounds x y : dfin x -> dfin y -> rounds (dval x + dval y) (dadd x y).
Proof.
  destruct x as [s1 | | | s1 m1 e1], y as [s2 | | | s2 m2 e2]; intros Hx Hy; try done.
  - left. by destruct s1, s2.
  - by left.
  - left. split; [done |]. cbn [dval]. by rewrite Z.add_0_r.
  - right. destruct Hx as [(Hx & _)%canonical_iff _], Hy as [(Hy & _)%canonical_iff _].
    eexists _, (Z.min e1 e2), _. split; [lia |]. split; [reflexivity |].
    destruct (dval_align s1 m1 e1 (Z.min e1 e2) ltac:(lia)) as [E1 |]; [| lia].
    destruct (dval_align s2 m2 e2 (Z.min e1 e2) ltac:(lia)) as [E2 |]; [| lia].
    cbn [dval]. rewrite <- E1, <- E2. lia.
Qed.

Lemma dsub_rounds x y : dfin x -> dfin y -> rounds (dval x - dval y) (dsub x y).
Proof.
  destruct x as [s1 | | | s1 m1 e1], y as [s2 | | | s2 m2 e2]; intros Hx Hy; try done.
  - left. by destruct s1, s2.
  - left. split; [done |]. rewrite Z.sub_0_l, <- dval_opp. done.
  - left. split; [done |]. cbn [dval]. by rewrite Z.sub_0_r.
  - right. destruct Hx as [(Hx & _)%canonical_iff _], Hy as [(Hy & _)%canonical_iff _].
    eexists _, (Z.min e1 e2), _. split; [lia |]. split; [reflexivity |].
    destruct (dval_align s1 m1 e1 (Z.min e1 e2) ltac:(lia)) as [E1 |]; [| lia].
    destruct (dval_align s2 m2 e2 (Z.min e1 e2) ltac:(lia)) as [E2 |]; [| lia].
    cbn [dval]. rewrite <- E1, <- E2. lia.
Qed.

(** *** Products *)

Lemma mul_digits m1 m2 e1 e2 : canonical m1 e1 -> canonical m2 e2 ->
  e1 + e2 <= fexp (Zdigits2 (Z.pos (m1 * m2)) + (e1 + e2)).
Proof.
  intros H1 H2. unfold canonical in *. rewrite fexp_eq in *. cbn [Zdigits2].
  pose proof (digits2_pos_bounds m1) as B1. pose proof (digits2_pos_bounds m2) as B2.
  pose proof (digits2_pos_bounds (m1 * m2)) as B3. rewrite Pos2Z.inj_mul in B3.
  set (d1 := Z.pos (digits2_pos m1)) in *. set (d2 := Z.pos (digits2_pos m2)) in *. set (d3 := Z.pos (digits2_pos (m1 * m2))) in *.
  assert (d1 + d2 - 1 <= d3); [| lia]. destruct (decide (d1 + d2 - 1 <= d3)); [done | exfalso].
  assert (2 ^ d3 <= 2 ^ (d1 - 1 + (d2 - 1))) by (apply Z.pow_le_mono_r; lia). rewrite Z.pow_add_r in * by lia. nia.
Qed.

Lemma dmul_valid x y : dvalid x -> dvalid y -> dvalid (dmul x y).
Proof.
  destruct x as [| | | s1 m1 e1], y as [| | | s2 m2 e2]; intros Hx Hy; try done. unfold dmul, SFmul.
  apply round_aux_valid; [lia |]. destruct Hx, Hy. by apply mul_digits.
Qed.

(** Products of numbers that are not negative, in units of 2^-2148. *)
Definition dnonneg (x : double) : Prop := match x with S754_zero _ => True | S754_finite s _ _ => s = false | _ => False end.

Lemma dmul_ge x y lo : dfin x -> dfin y -> dnonneg x -> dnonneg y -> dfin lo ->
  dval lo * 2 ^ 1074 <= dval x * dval y -> dle lo (dmul x y) = true.
Proof.
  destruct x as [s1 | | | s1 m1 e1], y as [s2 | | | s2 m2 e2]; intros Hx Hy Nx Ny Hlo H; try done;
    try (apply le_zero; [done |]; cbn [dval] in H; nia).
  simpl in Nx, Ny. subst s1 s2. destruct Hx as [Hx _], Hy as [Hy _]. pose proof (mul_digits _ _ _ _ Hx Hy) as HD.
  apply canonical_iff in Hx as [Hx _], Hy as [Hy _]. unfold dmul, SFmul. cbn [xorb].
  apply (round_aux_ge _ _ _ _ 1074); [lia | done | done | lia | lia |]. etrans; [exact H |]. cbn [dval].
  replace (e1 + e2 + 1074 + 1074) with (e1 + 1074 + (e2 + 1074)) by lia. rewrite (Z.pow_add_r 2 (e1 + 1074)), Pos2Z.inj_mul by lia. apply Z.eq_le_incl. ring.
Qed.

Lemma dmul_le x y hi : dfin x -> dfin y -> dnonneg x -> dnonneg y -> dfin hi ->
  dval x * dval y <= dval hi * 2 ^ 1074 -> dle (dmul x y) hi = true.
Proof.
  destruct x as [s1 | | | s1 m1 e1], y as [s2 | | | s2 m2 e2]; intros Hx Hy Nx Ny Hhi H; try done;
    try (apply zero_le; [done |]; cbn [dval] in H; nia).
  simpl in Nx, Ny. subst s1 s2. destruct Hx as [Hx _], Hy as [Hy _]. pose proof (mul_digits _ _ _ _ Hx Hy) as HD.
  apply canonical_iff in Hx as [Hx _], Hy as [Hy _]. unfold dmul, SFmul. cbn [xorb].
  apply (round_aux_le _ _ _ 1074); [lia | done | done | lia | lia |]. etrans; [| exact H]. cbn [dval].
  replace (e1 + e2 + 1074 + 1074) with (e1 + 1074 + (e2 + 1074)) by lia. rewrite (Z.pow_add_r 2 (e1 + 1074)), Pos2Z.inj_mul by lia. apply Z.eq_le_incl. ring.
Qed.

(** *** Quotients *)

Lemma div_digits m1 e1 m2 e2 :
  let '(q, e', l) := SFdiv_core_binary 53 1024 (Z.pos m1) e1 (Z.pos m2) e2 in 0 <= q /\ e' <= fexp (Zdigits2 q + e').
Proof.
  unfold SFdiv_core_binary. cbn [Zdigits2]. pose proof (digits2_pos_bounds m1) as B1. pose proof (digits2_pos_bounds m2) as B2.
  set (d1 := Z.pos (digits2_pos m1)) in *. set (d2 := Z.pos (digits2_pos m2)) in *.
  set (e' := Z.min (fexp (d1 + e1 - (d2 + e2))) (e1 - e2)). set (s := e1 - e2 - e').
  assert (Hs : 0 <= s) by lia.
  assert (Hm : match s with Z0 => Z.pos m1 | Z.pos _ => Z.shiftl (Z.pos m1) s | Z.neg _ => 0 end = Z.pos m1 * 2 ^ s).
  { destruct s; [by rewrite Z.pow_0_r, Z.mul_1_r | by rewrite Z.shiftl_mul_pow2 | lia]. }
  rewrite Hm. pose proof (Z_div_mod (Z.pos m1 * 2 ^ s) (Z.pos m2) ltac:(lia)) as HD.
  destruct (Z.div_eucl (Z.pos m1 * 2 ^ s) (Z.pos m2)) as [q r]. destruct HD as [HD Hr].
  assert (0 < 2 ^ s) by lia. assert (Hq : 0 <= q) by nia. split; [done |].
  assert (He : e' <= fexp (d1 + e1 - (d2 + e2))) by lia. rewrite fexp_eq in *.
  assert (HQ : d1 + s - d2 <= Zdigits2 q); [| lia].
  destruct (decide (d1 + s - d2 <= Zdigits2 q)); [done | exfalso].
  assert (Hqb : q < 2 ^ Zdigits2 q) by (destruct q as [| p |]; [done | apply digits2_pos_bounds | lia]).
  assert (0 <= Zdigits2 q) by (by destruct q).
  assert (2 ^ Zdigits2 q <= 2 ^ (d1 + s - d2 - 1)) by (apply Z.pow_le_mono_r; lia).
  assert (Hp : 2 ^ (d1 - 1) * 2 ^ s = 2 ^ (d1 + s - d2 - 1) * 2 ^ d2) by (rewrite <- !Z.pow_add_r by lia; f_equal; lia).
  assert (0 < 2 ^ d2) by lia. nia.
Qed.

Lemma ddiv_valid x y : dvalid x -> dvalid y -> dvalid (ddiv x y).
Proof.
  destruct x as [| | | s1 m1 e1], y as [| | | s2 m2 e2]; intros Hx Hy; try done. unfold ddiv, SFdiv.
  pose proof (div_digits m1 e1 m2 e2) as H. destruct (SFdiv_core_binary _ _ _ _ _ _) as [[q e'] l].
  destruct H. by apply round_aux_valid.
Qed.

Lemma dadd_valid x y : dvalid x -> dvalid y -> dvalid (dadd x y).
Proof.
  destruct x as [s1 | s1 | | s1 m1 e1], y as [s2 | s2 | | s2 m2 e2]; intros Hx Hy; try done; try (by destruct s1, s2).
  apply normalize_valid.
Qed.

Lemma dsub_valid x y : dvalid x -> dvalid y -> dvalid (dsub x y).
Proof.
  destruct x as [s1 | s1 | | s1 m1 e1], y as [s2 | s2 | | s2 m2 e2]; intros Hx Hy; try done; try (by destruct s1, s2).
  apply normalize_valid.
Qed.

(** ** Bounds

    [dpow k] is 2^k. *)
Definition dpow (k : Z) : double := S754_finite false (2 ^ 52)%positive (k - 52).

Lemma dpow_spec k : -1022 <= k <= 1023 -> dfin (dpow k) /\ dval (dpow k) = 2 ^ (k + 1074).
Proof.
  intros Hk. split.
  - split; [| lia]. apply canonical_iff. change (Z.pos (2 ^ 52)) with (2 ^ 52). lia.
  - cbn [dval dpow]. change (Z.pos (2 ^ 52)) with (2 ^ 52). rewrite <- Z.pow_add_r by lia. f_equal. lia.
Qed.

Lemma rounds_between v r lo hi : rounds v r -> dfin lo -> dfin hi -> dval lo <= v <= dval hi ->
  dfin r /\ dval lo <= dval r <= dval hi.
Proof.
  intros Hr Hlo Hhi [H1 H2]. pose proof (rounds_ge _ _ _ Hr Hlo H1) as G1. pose proof (rounds_le _ _ _ Hr Hhi H2) as G2.
  assert (Hf : dfin r) by exact (dfin_between lo r hi (rounds_valid _ _ Hr) Hlo Hhi G1 G2).
  split; [done |]. rewrite dle_val in G1, G2 by done. done.
Qed.

(** [dtime x]: a finite number between 0 and 2^100. *)
Definition dtime (x : double) : Prop := dfin x /\ 0 <= dval x <= 2 ^ 1174.

Lemma dtime_fin x : dtime x -> dfin x.
Proof. by intros []. Qed.

Lemma dadd_time x y : dfin x -> dfin y -> 0 <= dval x <= 2 ^ 1184 -> 0 <= dval y <= 2 ^ 1184 ->
  dfin (dadd x y) /\ dval x <= dval (dadd x y) /\ dval y <= dval (dadd x y) <= 2 ^ 1185.
Proof.
  intros Fx Fy Hx Hy. destruct (dpow_spec 111 ltac:(lia)) as [P1 P2]. change (111 + 1074) with 1185 in P2.
  pose proof (dadd_rounds x y Fx Fy) as HR.
  destruct (rounds_between _ _ x (dpow 111) HR Fx P1) as [R1 R2]; [rewrite P2; lia |].
  destruct (rounds_between _ _ y (dpow 111) HR Fy P1) as [_ R3]; [rewrite P2; lia |]. rewrite P2 in *. split_and!; lia || done.
Qed.

Lemma dadd_bound k x y : 100 <= k <= 1300 -> dfin x -> dfin y -> 0 <= dval x <= 2 ^ k -> 0 <= dval y <= 2 ^ k ->
  dfin (dadd x y) /\ dval x <= dval (dadd x y) /\ dval y <= dval (dadd x y) <= 2 ^ (k + 1).
Proof.
  intros Hk Fx Fy Hx Hy. destruct (dpow_spec (k + 1 - 1074) ltac:(lia)) as [P1 P2]. replace (k + 1 - 1074 + 1074) with (k + 1) in P2 by lia.
  assert (2 ^ (k + 1) = 2 * 2 ^ k) by (rewrite Z.pow_add_r by lia; lia).
  pose proof (dadd_rounds x y Fx Fy) as HR.
  destruct (rounds_between _ _ x (dpow (k + 1 - 1074)) HR Fx P1) as [R1 R2]; [rewrite P2; lia |].
  destruct (rounds_between _ _ y (dpow (k + 1 - 1074)) HR Fy P1) as [_ R3]; [rewrite P2; lia |]. rewrite P2 in *. split_and!; lia || done.
Qed.

(** A difference of times is finite, and at most the first. *)
Lemma dsub_time x y : dfin x -> dfin y -> 0 <= dval x -> 0 <= dval y ->
  dfin (dsub x y) /\ - dval y <= dval (dsub x y) <= dval x /\ (dval y <= dval x -> 0 <= dval (dsub x y)).
Proof.
  intros Fx Fy Hx Hy. pose proof (dsub_rounds x y Fx Fy) as HR.
  destruct (rounds_between _ _ (dopp y) x HR) as [R1 R2]; [by apply dfin_opp | done | rewrite dval_opp; lia |].
  rewrite dval_opp in R2. split_and!; [done | lia | lia |]. intros H.
  destruct (rounds_between _ _ d_zero x HR) as [_ R3]; [done | done | cbn [dval]; change (dval d_zero) with 0; lia |].
  change (dval d_zero) with 0 in R3. lia.
Qed.

Lemma dnonneg_val x : dfin x -> 0 <= dval x -> dnonneg x.
Proof.
  destruct x as [| | | s m e]; try done. intros [(He & _)%canonical_iff _]. cbn. destruct s; [| done].
  pose proof (dval_sign m e He). change (Z.neg m) with (- Z.pos m). nia.
Qed.

Lemma dmul_between x y lo hi : dfin x -> dfin y -> 0 <= dval x -> 0 <= dval y -> dfin lo -> dfin hi ->
  dval lo * 2 ^ 1074 <= dval x * dval y <= dval hi * 2 ^ 1074 ->
  dfin (dmul x y) /\ dval lo <= dval (dmul x y) <= dval hi.
Proof.
  intros Fx Fy Hx Hy Hlo Hhi [H1 H2]. pose proof (dnonneg_val x Fx Hx) as Nx. pose proof (dnonneg_val y Fy Hy) as Ny.
  pose proof (dmul_ge x y lo Fx Fy Nx Ny Hlo H1) as G1. pose proof (dmul_le x y hi Fx Fy Nx Ny Hhi H2) as G2.
  assert (Hf : dfin (dmul x y)).
  { apply (dfin_between lo _ hi); [apply dmul_valid; by apply dfin_valid | done | done | done | done]. }
  split; [done |]. rewrite dle_val in G1, G2 by done. done.
Qed.

(** The double of a number below the top is a double. *)
Lemma dfin_twice x : dfin x -> 0 <= dval x <= 2 ^ 1185 -> exists y, dfin y /\ dval y = 2 * dval x.
Proof.
  destruct x as [s | | | [] m e]; try done.
  - intros _ _. by exists (S754_zero false).
  - intros [(He & _)%canonical_iff _] H. pose proof (dval_sign m e He). cbn [dval] in H. change (Z.neg m) with (- Z.pos m) in H. nia.
  - intros [HC Hb] H. cbn [dval] in H. apply canonical_iff in HC as (He & Hm & Hn). destruct (decide (2 ^ 52 <= Z.pos m)) as [Hm2 | Hm2].
    + assert (e < 200).
      { destruct (decide (e < 200)); [done | exfalso]. assert (2 ^ 1274 <= 2 ^ (e + 1074)) by (apply Z.pow_le_mono_r; lia).
        assert (2 ^ 1274 = 2 ^ 89 * 2 ^ 1185) by (rewrite <- Z.pow_add_r by lia; done). nia. }
      exists (S754_finite false m (e + 1)). split; [split; [apply canonical_iff; lia | lia] |]. cbn [dval].
      replace (e + 1 + 1074) with (Z.succ (e + 1074)) by lia. rewrite Z.pow_succ_r by lia. lia.
    + assert (e = -1074) as -> by lia. exists (S754_finite false (m * 2) (-1074)).
      split; [split; [apply canonical_iff; lia | lia] |]. cbn [dval]. lia.
Qed.

(** The midpoint of an interval is in it. *)
Lemma dmid l h : dfin l -> dfin h -> 0 <= dval l <= dval h -> dval h <= 2 ^ 1184 ->
  let r := dmul (dadd l h) d_half in dfin r /\ dval l <= dval r <= dval h.
Proof.
  intros Fl Fh Hl Hh. destruct (dfin_twice l Fl) as (l2 & Fl2 & El2); [lia |]. destruct (dfin_twice h Fh) as (h2 & Fh2 & Eh2); [lia |].
  destruct (rounds_between _ _ l2 h2 (dadd_rounds l h Fl Fh) Fl2 Fh2) as [Fs Hs]; [lia |].
  assert (Eh : dval d_half = 2 ^ 1073) by (vm_compute; reflexivity).
  assert (Ff : dfin d_half) by (vm_compute; intuition congruence).
  apply dmul_between; [done | done | lia | rewrite Eh; lia | done | done |]. rewrite Eh.
  change (2 ^ 1074) with (2 * 2 ^ 1073). lia.
Qed.

(** Going on from [h] by as much as it is ahead of [l]. *)
Lemma dseek l h : dfin l -> dfin h -> 0 <= dval l <= dval h -> dval h <= 2 ^ 1184 ->
  let r := dsub (dmul (d_of_Z 2) h) l in dfin r /\ dval h <= dval r.
Proof.
  intros Fl Fh Hl Hh. destruct (dfin_twice h Fh) as (h2 & Fh2 & Eh2); [lia |].
  assert (E2 : dval (d_of_Z 2) = 2 ^ 1075) by (vm_compute; reflexivity).
  assert (F2 : dfin (d_of_Z 2)) by (vm_compute; intuition congruence).
  destruct (dmul_between (d_of_Z 2) h h2 h2) as [Fm Hm]; [done | done | rewrite E2; lia | lia | done | done | |].
  { rewrite E2, Eh2. change (2 ^ 1075) with (2 * 2 ^ 1074). lia. }
  destruct (rounds_between _ _ h h2 (dsub_rounds _ l Fm Fl) Fh Fh2) as [Fr Hr]; [lia |]. split; [done | lia].
Qed.

(** ** Nearest

    No double is closer to the exact value than the rounded one; hence rounding
    keeps the order of values. *)
Lemma binary_round_near m e f : -1074 <= e -> dfin f ->
  let r := binary_round 53 1024 false m e in let v := Z.pos m * 2 ^ (e + 1074) in
  dfin r -> Z.abs (dval r - v) <= Z.abs (dval f - v).
Proof.
  intros He Hf r v. subst r v. destruct (binary_round_unfold false m e) as (m' & e' & -> & Hm & Hd & Hle & Hv & Hc).
  assert (He' : -1074 <= e') by lia.
  assert (Z.pos m * 2 ^ (e + 1074) = m' * 2 ^ (e' + 1074)) as ->.
  { rewrite Hv, <- Z.mul_assoc, <- Z.pow_add_r by lia. do 2 f_equal. lia. }
  destruct (round_aux_spec false m' e' loc_Exact ltac:(lia) Hd) as (M & E & M0 & -> & HC & HE & HM & Hq & Hn & _ & Hh).
  specialize (Hh eq_refl). set (e1 := fexp (Zdigits2 m' + e')) in *. set (q := m' / 2 ^ (e1 - e')) in *.
  set (rem := m' mod 2 ^ (e1 - e')) in *.
  assert (Hqr : m' = 2 ^ (e1 - e') * q + rem) by (apply Z.div_mod; lia).
  assert (Hrem : 0 <= rem < 2 ^ (e1 - e')) by (apply Z.mod_pos_bound; lia).
  assert (He1 : 2 ^ (e1 + 1074) = 2 ^ (e1 - e') * 2 ^ (e' + 1074)) by (rewrite <- Z.pow_add_r by lia; f_equal; lia).
  intros Hr. assert (Hval : dval (mk_double false M E) = M0 * 2 ^ (e1 + 1074)).
  { rewrite <- HM, <- Z.mul_assoc, <- Z.pow_add_r by lia. replace (E - e1 + (e1 + 1074)) with (E + 1074) by lia.
    destruct M as [| p | p]; cbn [mk_double] in *; [done | | destruct Hr]. destruct (E <=? 971); [done | destruct Hr]. }
  rewrite Hval. set (u := 2 ^ (e' + 1074)) in *. assert (0 < u) by (unfold u; lia).
  assert (Hside : dval f <= q * 2 ^ (e1 + 1074) \/ (q + 1) * 2 ^ (e1 + 1074) <= dval f \/ (rem = 0 /\ M0 = q)).
  { destruct f as [s | | | [] my ey]; try done; cbn [dval].
    - left. nia.
    - left. destruct Hf as [(Hf & _)%canonical_iff _]. pose proof (dval_sign my ey Hf). change (Z.neg my) with (- Z.pos my). nia.
    - destruct Hf as [Hf _]. pose proof (proj1 (canonical_iff _ _) Hf) as [Hf1 _].
      destruct (decide (rem = 0)) as [Hr0 | Hr0]; [destruct Hh as [Hh | Hh]; [right; right; split; [exact Hr0 | exact (proj1 Hh)] | lia] |].
      destruct (decide (Z.pos my * 2 ^ (ey + 1074) <= m' * u)) as [Hlo | Hhi]; [left | right; left].
      + pose proof (sandwich_ge my ey m' e' e1 (-1074) Hf He' Hf1 ltac:(lia) Hn) as S1.
        replace (ey - -1074) with (ey + 1074) in S1 by lia. replace (e1 - -1074) with (e1 + 1074) in S1 by lia.
        replace (e' - -1074) with (e' + 1074) in S1 by lia. apply S1. exact Hlo.
      + pose proof (sandwich_le my ey m' e' e1 (-1074) Hf He' Hf1 ltac:(lia) Hn) as S1.
        replace (ey - -1074) with (ey + 1074) in S1 by lia. replace (e1 - -1074) with (e1 + 1074) in S1 by lia.
        replace (e' - -1074) with (e' + 1074) in S1 by lia. apply S1; [fold u; lia | exact Hr0]. }
  rewrite He1 in *. clearbody rem q u. set (P := 2 ^ (e1 - e')) in *. clearbody P. clear -Hside Hh Hqr Hrem H. subst m'. nia.
Qed.

Lemma rounds_near v r f : rounds v r -> dfin r -> dfin f -> Z.abs (dval r - v) <= Z.abs (dval f - v).
Proof.
  intros [[_ ->] | (n & e & sz & He & -> & <-)] Hr Hf; [lia |]. destruct n as [| m | m]; cbn [binary_normalize] in *.
  - cbn [dval]. lia.
  - exact (binary_round_near m e f He Hf Hr).
  - rewrite binary_round_opp in *. rewrite dfin_opp in Hr. rewrite dval_opp.
    pose proof (binary_round_near m e (dopp f) He (proj2 (dfin_opp f) Hf) Hr) as H. cbn zeta in H. rewrite dval_opp in H.
    change (Z.neg m) with (- Z.pos m). rewrite Z.mul_opp_l. lia.
Qed.

Lemma rounds_mono v1 v2 r1 r2 : rounds v1 r1 -> rounds v2 r2 -> dfin r1 -> dfin r2 -> v1 < v2 -> dval r1 <= dval r2.
Proof.
  intros H1 H2 F1 F2 Hv. pose proof (rounds_near v1 r1 r2 H1 F1 F2). pose proof (rounds_near v2 r2 r1 H2 F2 F1). lia.
Qed.

Lemma dval_inj x y : dfin x -> dfin y -> dval x = dval y -> dval x <> 0 -> x = y.
Proof.
  destruct x as [s1 | | | s1 m1 e1], y as [s2 | | | s2 m2 e2]; intros Hx Hy E H0; try done.
  destruct Hx as [Hx _], Hy as [Hy _]. pose proof (proj1 (canonical_iff _ _) Hx) as [Gx _]. pose proof (proj1 (canonical_iff _ _) Hy) as [Gy _].
  pose proof (dval_sign m1 e1 Gx). pose proof (dval_sign m2 e2 Gy).
  pose proof (canonical_order m1 e1 m2 e2 (-1074) Hx Hy ltac:(lia) ltac:(lia)) as C1.
  pose proof (canonical_order m2 e2 m1 e1 (-1074) Hy Hx ltac:(lia) ltac:(lia)) as C2.
  replace (e1 - -1074) with (e1 + 1074) in * by lia. replace (e2 - -1074) with (e2 + 1074) in * by lia. cbn [dval] in E.
  assert (Z.pos m1 * 2 ^ (e1 + 1074) = Z.pos m2 * 2 ^ (e2 + 1074) /\ s1 = s2) as [EV ->].
  { destruct s1, s2; change (Z.neg m1) with (- Z.pos m1) in *; change (Z.neg m2) with (- Z.pos m2) in *; (split; [lia | try done; lia]). }
  assert (e1 = e2 /\ m1 = m2) as [-> ->] by lia. done.
Qed.

(** Subtracting the same number keeps the order. *)
Lemma dsub_mono x x' y : dfin x -> dfin x' -> dfin y -> 0 <= dval x -> dval x <= dval x' -> 0 <= dval y ->
  dval (dsub x y) <= dval (dsub x' y).
Proof.
  intros Fx Fx' Fy Hx Hle Hy. destruct (dsub_time x y Fx Fy Hx Hy) as (F1 & B1 & _).
  destruct (dsub_time x' y Fx' Fy ltac:(lia) Hy) as (F2 & B2 & _).
  destruct (decide (dval x = dval x')) as [E | Hne].
  - destruct (decide (dval x = 0)) as [E0 | H0]; [| rewrite (dval_inj x x' Fx Fx' E H0); reflexivity].
    pose proof (dsub_rounds x y Fx Fy) as R1.
    destruct (rounds_between _ _ (dopp y) (dopp y) R1 (proj2 (dfin_opp y) Fy) (proj2 (dfin_opp y) Fy)) as [_ C1]; [rewrite dval_opp; lia |].
    rewrite dval_opp in C1. lia.
  - exact (rounds_mono _ _ _ _ (dsub_rounds x y Fx Fy) (dsub_rounds x' y Fx' Fy) F1 F2 ltac:(lia)).
Qed.

(** ** Times that may overflow

    The finite numbers and the positive infinity, in order. *)
Definition dnum (x : double) : Prop := dfin x \/ x = S754_infinity false.

Definition dtop : Z := 2 ^ 2200.

Definition dext (x : double) : Z := match x with S754_infinity _ => dtop | _ => dval x end.

Lemma dext_fin x : dfin x -> dext x = dval x /\ dval x < dtop.
Proof.
  destruct x as [| | | [] m e]; try done. intros [(He & _)%canonical_iff _]; split; [reflexivity |].
  - pose proof (dval_sign m e He). cbn [dval]. change (Z.neg m) with (- Z.pos m). assert (0 < dtop) by (unfold dtop; lia). lia.
  - intros [(He & Hm & _)%canonical_iff Hb]. split; [reflexivity |]. cbn [dval].
    assert (2 ^ (e + 1074) <= 2 ^ 2045) by (apply Z.pow_le_mono_r; lia).
    assert (Z.pos m * 2 ^ (e + 1074) < 2 ^ 53 * 2 ^ 2045) by (assert (0 < 2 ^ (e + 1074)) by lia; nia).
    rewrite <- Z.pow_add_r in H0 by lia. assert (2 ^ (53 + 2045) <= dtop) by (unfold dtop; apply Z.pow_le_mono_r; lia). lia.
Qed.

Lemma dle_ext x y : dnum x -> dnum y -> dle x y = true <-> dext x <= dext y.
Proof.
  intros [Fx | ->] [Fy | ->].
  - rewrite (proj1 (dext_fin x Fx)), (proj1 (dext_fin y Fy)). apply dle_val; assumption.
  - destruct (dext_fin x Fx) as [-> Hx]. split; [intros _; cbn [dext]; lia |]. intros _. destruct x as [| | | []]; try destruct Fx; reflexivity.
  - destruct (dext_fin y Fy) as [-> Hy]. cbn [dext]. split; [| lia]. destruct y as [| | | []]; try destruct Fy; intros; discriminate.
  - cbn [dext]. split; [lia | reflexivity].
Qed.

Lemma dlt_ext x y : dnum x -> dnum y -> dlt x y = true <-> dext x < dext y.
Proof.
  intros Hx Hy. assert (E : dlt x y = negb (dle y x)).
  { destruct Hx as [Fx | ->], Hy as [Fy | ->]; [apply dlt_negb; assumption | | |].
    - destruct x as [| | | []]; try destruct Fx; reflexivity.
    - destruct y as [| | | []]; try destruct Fy; reflexivity.
    - reflexivity. }
  rewrite E. pose proof (dle_ext y x Hy Hx) as H. destruct (dle y x); cbn [negb].
  - split; [discriminate |]. intros. pose proof (proj1 H eq_refl). lia.
  - split; [| reflexivity]. intros _. destruct (decide (dext x < dext y)); [assumption |].
    assert (false = true) by (apply H; lia). discriminate.
Qed.

Lemma dle_num x r : dfin x -> dvalid r -> dle x r = true -> dnum r /\ dext x <= dext r.
Proof.
  intros Fx Vr H. assert (Hr : dnum r).
  { destruct r as [| [] | |]; [by left | | by right | | by left]; destruct x as [| | | []]; try destruct Fx; discriminate. }
  split; [assumption |]. apply dle_ext; [by left | assumption | assumption].
Qed.

Lemma dadd_ext x y : dnum x -> dnum y -> 0 <= dext x -> 0 <= dext y ->
  dnum (dadd x y) /\ dext x <= dext (dadd x y) /\ dext y <= dext (dadd x y).
Proof.
  intros Hx Hy Px Py. assert (Ht : forall z, dfin z -> dext z <= dtop) by (intros z Hz; destruct (dext_fin z Hz); lia).
  destruct Hx as [Fx | ->], Hy as [Fy | ->].
  - destruct (dext_fin x Fx) as [Ex _], (dext_fin y Fy) as [Ey _]. rewrite Ex, Ey in *. pose proof (dadd_rounds x y Fx Fy) as R.
    destruct (dle_num x _ Fx (rounds_valid _ _ R)) as [N1 B1]; [apply (rounds_ge _ _ _ R Fx); lia |].
    destruct (dle_num y _ Fy (rounds_valid _ _ R)) as [_ B2]; [apply (rounds_ge _ _ _ R Fy); lia |].
    rewrite Ex in B1. rewrite Ey in B2. auto.
  - assert (dadd x (S754_infinity false) = S754_infinity false) as -> by (destruct x as [| | | []]; try destruct Fx; reflexivity).
    split; [by right |]. split; [exact (Ht x Fx) | cbn [dext]; lia].
  - assert (dadd (S754_infinity false) y = S754_infinity false) as -> by (destruct y as [| | | []]; try destruct Fy; reflexivity).
    split; [by right |]. split; [cbn [dext]; lia | exact (Ht y Fy)].
  - split; [by right |]. cbn. lia.
Qed.

Lemma dsub_ext x y : dnum x -> dfin y -> 0 <= dext x -> 0 <= dval y -> dnum (dsub x y) /\ dext (dsub x y) <= dext x.
Proof.
  intros [Fx | ->] Fy Px Py.
  - destruct (dext_fin x Fx) as [Ex _]. rewrite Ex in *. destruct (dsub_time x y Fx Fy Px Py) as (F & B & _).
    split; [by left |]. rewrite (proj1 (dext_fin _ F)). lia.
  - assert (dsub (S754_infinity false) y = S754_infinity false) as -> by (destruct y as [| | | []]; try destruct Fy; reflexivity).
    split; [by right |]. lia.
Qed.

Lemma dsub_ext_mono x x' y : dnum x -> dnum x' -> dfin y -> 0 <= dext x -> dext x <= dext x' -> 0 <= dval y ->
  dext (dsub x y) <= dext (dsub x' y).
Proof.
  intros Hx [Fx' | ->] Fy Px Hle Py.
  - destruct (dext_fin x' Fx') as [Ex' Bx']. destruct Hx as [Fx | ->]; [| cbn [dext] in Hle; lia].
    destruct (dext_fin x Fx) as [Ex _]. rewrite Ex, Ex' in *. destruct (dsub_time x y Fx Fy Px Py) as (F1 & _ & _).
    destruct (dsub_time x' y Fx' Fy ltac:(lia) Py) as (F2 & _ & _). rewrite (proj1 (dext_fin _ F1)), (proj1 (dext_fin _ F2)).
    apply dsub_mono; assumption.
  - assert (dsub (S754_infinity false) y = S754_infinity false) as -> by (destruct y as [| | | []]; try destruct Fy; reflexivity).
    destruct (dsub_ext x y Hx Fy Px Py) as [_ B]. cbn [dext] in *. lia.
Qed.

(** ** Steps of a quarter

    Numbers of at most 53 bits are doubles, so adding one half to a time below
    2^50 moves it on by at least one quarter. *)
Lemma dyadic_double k e : 0 <= k < 2 ^ 53 -> -1074 <= e <= 971 -> exists f, dfin f /\ dval f = k * 2 ^ (e + 1074).
Proof.
  intros Hk He. destruct k as [| p | p]; [by exists (S754_zero false) | | lia].
  pose proof (digits2_pos_bounds p) as Hb. set (d := Z.pos (digits2_pos p)) in *.
  assert (Hd : d <= 53).
  { destruct (decide (d <= 53)); [assumption |]. assert (2 ^ 53 <= 2 ^ (d - 1)) by (apply Z.pow_le_mono_r; lia). lia. }
  set (h := Z.min (53 - d) (e + 1074)). assert (Hh : 0 <= h) by lia.
  assert (Hm : 2 ^ (d - 1 + h) <= Z.pos p * 2 ^ h < 2 ^ (d + h)) by (rewrite !Z.pow_add_r by lia; nia).
  assert (2 ^ (d + h) <= 2 ^ 53) by (apply Z.pow_le_mono_r; lia).
  exists (S754_finite false (Z.to_pos (Z.pos p * 2 ^ h)) (e - h)). cbn [dfin dval]. rewrite Z2Pos.id by lia. split.
  - split; [| lia]. apply canonical_iff. rewrite Z2Pos.id by lia. split; [lia |]. split; [lia |]. intros Hlt.
    replace (d - 1 + h) with 52 in Hm by lia. lia.
  - rewrite <- Z.mul_assoc, <- Z.pow_add_r by lia. do 2 f_equal. lia.
Qed.

Lemma dadd_half x : dfin x -> 0 <= dval x <= 2 ^ 1124 -> let r := dadd x d_half in dfin r -> dval x + 2 ^ 1072 <= dval r.
Proof.
  intros Fx Hx r Fr. assert (Eh : dval d_half = 2 ^ 1073) by (vm_compute; reflexivity).
  assert (Fh : dfin d_half) by (vm_compute; intuition congruence).
  set (v := dval x + dval d_half). set (k := v / 2 ^ 1072).
  assert (E3 : 2 ^ 1073 = 2 * 2 ^ 1072) by reflexivity. assert (E4 : 2 ^ 1124 = 2 ^ 52 * 2 ^ 1072) by reflexivity.
  assert (Hu : 0 < 2 ^ 1072) by lia. remember (2 ^ 1072) as u eqn:Eu.
  pose proof (Z.div_mod v u ltac:(lia)) as Hv. pose proof (Z.mod_pos_bound v u Hu) as Hr. fold k in Hv.
  assert (Hk : 0 <= k < 2 ^ 53).
  { split; [apply Z.div_pos; unfold v; lia |]. apply Z.div_lt_upper_bound; [lia |]. unfold v. change (2 ^ 53) with (2 * 2 ^ 52). lia. }
  destruct (dyadic_double k (-2) Hk ltac:(lia)) as (f & Ff & Ef). change (-2 + 1074) with 1072 in Ef.
  pose proof (rounds_near _ _ f (dadd_rounds x d_half Fx Fh) Fr Ff) as HN. fold v in HN. fold r in HN.
  rewrite Ef, <- Eu in HN. unfold v in *. clear -HN Hv Hr Eh E3 Hu. nia.
Qed.
