(* ===== verification/Spi.v ===== *)
(** * Spi: SPI devices, hardware and bit-banged

    Models [src/src/spicmds.c] and [src/src/spi_software.c].  The hardware bus
    is the board's: a transfer is logged and answered by the environment.  The
    software bus is proved to speak the four SPI modes, seen from the wires. *)

From S2P Require Import Prelude Wire State Command Sched Basecmd Stepper Dispatch.
Import Encode.

Definition SF_HAVE_PIN : Z := 1.
Definition SF_SOFTWARE : Z := 2.
Definition SF_HARDWARE : Z := 4.
Definition SF_CS_ACTIVE_HIGH : Z := 8.

Section WithBoard.
Context `{B : Board}.

Definition get_spi (oid : Z) : FW spidev :=
  o ← obj_get oid;
  match o with OSpi s => mret s | _ => fault "struct spidev_s" end.

Definition upd_spi (oid : Z) (f : spidev -> spidev) : FW unit :=
  d ← get_spi oid; obj_put oid (OSpi (f d)).

(** ** The board's bus *)

Definition spi_setup (bus mode rate : Z) : FW spi_bus :=
  if spi_bus_ok bus then mret (SpiConfig bus mode rate) else shutdown "Invalid spi bus".
Definition spi_prepare (cfg : spi_bus) : FW unit :=
  match cfg with SpiConfig _ _ _ => mret tt | _ => fault "spi_config" end.
Definition spi_transfer (cfg : spi_bus) (receive_data : bool) (data : list Z) : FW (list Z) :=
  match cfg with
  | SpiConfig bus _ _ =>
      n ← gets (fun s => ticks (m_hw s));
      modify (fun s => s <| m_hw ::= fun h => h <| ticks ::= S |> <| bus_log ::= cons (EvSpi bus data) |> |>) ;;
      mret (if receive_data then hw_spi_transfer n data else data)
  | _ => fault "spi_config"
  end.

(** ** The software bus ([spi_software.c]) *)

Definition spi_software_prepare (ss : spi_software) : FW unit :=
  gpio_out_write (ss_sclk ss) (Z.land (ss_mode ss) 2).

(** One bit: the new [outbuf] and [inbuf]. *)
Definition spi_software_bit (ss : spi_software) (outbuf inbuf : Z) : FW (Z * Z) :=
  if has (ss_mode ss) 1
  then
    gpio_out_toggle (ss_sclk ss) ;;
    gpio_out_write (ss_mosi ss) (Z.land outbuf 0x80) ;;
    let outbuf := u8 (Z.shiftl outbuf 1) in
    gpio_out_toggle (ss_sclk ss) ;;
    let inbuf := u8 (Z.shiftl inbuf 1) in
    v ← gpio_in_read (ss_miso ss);
    mret (outbuf, Z.lor inbuf (b2z v))
  else
    gpio_out_write (ss_mosi ss) (Z.land outbuf 0x80) ;;
    let outbuf := u8 (Z.shiftl outbuf 1) in
    gpio_out_toggle (ss_sclk ss) ;;
    let inbuf := u8 (Z.shiftl inbuf 1) in
    v ← gpio_in_read (ss_miso ss);
    gpio_out_toggle (ss_sclk ss) ;;
    mret (outbuf, Z.lor inbuf (b2z v)).

(** The loop over the bits of a byte: the final [inbuf]. *)
Fixpoint spi_software_bits (ss : spi_software) (n : nat) (outbuf inbuf : Z) : FW Z :=
  match n with
  | O => mret inbuf
  | S n => '(outbuf, inbuf) ← spi_software_bit ss outbuf inbuf; spi_software_bits ss n outbuf inbuf
  end.

(** The buffer after the transfer. *)
Fixpoint spi_software_transfer (ss : spi_software) (receive_data : bool) (data : list Z) : FW (list Z) :=
  match data with
  | [] => mret []
  | d :: data =>
      inbuf ← spi_software_bits ss 8 d 0;
      rest ← spi_software_transfer ss receive_data data;
      mret ((if receive_data then inbuf else d) :: rest)
  end.

(** ** Devices ([spicmds.c]) *)

Definition command_config_spi (args : list Z) : FW unit :=
  a0 ← arg args 0;
  oid ← oid_alloc a0 T_spi (sizeof_obj T_spi);
  a1 ← arg args 1;
  a2 ← arg args 2;
  let cs_active_high := uint_fast8 a2 in
  pin ← gpio_out_setup a1 (b2z (negb (truth cs_active_high)));
  upd_spi oid (fun d => d <| sp_pin := pin |>) ;;
  upd_spi oid (fun d => d <| sp_flags ::= fun f =>
    Z.lor f (Z.lor SF_HAVE_PIN (if truth cs_active_high then SF_CS_ACTIVE_HIGH else 0)) |>).

Definition command_config_spi_without_cs (args : list Z) : FW unit :=
  a0 ← arg args 0;
  _ ← oid_alloc a0 T_spi (sizeof_obj T_spi);
  mret tt.

Definition spidev_oid_lookup (oid : Z) : FW Z := oid_lookup oid T_spi.

Definition command_spi_set_bus (args : list Z) : FW unit :=
  a0 ← arg args 0;
  oid ← spidev_oid_lookup a0;
  a2 ← arg args 2;
  let mode := u8 a2 in
  d ← get_spi oid;
  if (mode >? 3) || has (sp_flags d) (Z.lor SF_SOFTWARE SF_HARDWARE) then shutdown "Invalid spi config"
  else
    a1 ← arg args 1;
    a3 ← arg args 3;
    cfg ← spi_setup a1 mode a3;
    upd_spi oid (fun d => d <| sp_bus := cfg |>) ;;
    upd_spi oid (fun d => d <| sp_flags ::= fun f => Z.lor f SF_HARDWARE |>).

Definition spidev_set_software_bus (oid : Z) (ss : spi_software) : FW unit :=
  d ← get_spi oid;
  if has (sp_flags d) (Z.lor SF_SOFTWARE SF_HARDWARE) then shutdown "Invalid spi config"
  else
    upd_spi oid (fun d => d <| sp_bus := SpiSoftware ss |>) ;;
    upd_spi oid (fun d => d <| sp_flags ::= fun f => Z.lor f SF_SOFTWARE |>).

(** [sizeof(struct spi_software)] is the board's. *)
Definition command_spi_set_software_bus (sizeof_spi_software : Z) (args : list Z) : FW unit :=
  a4 ← arg args 4;
  let mode := u8 a4 in
  if mode >? 3 then shutdown "Invalid spi config"
  else
    a0 ← arg args 0;
    oid ← spidev_oid_lookup a0;
    _ ← alloc_chunk sizeof_spi_software;
    a1 ← arg args 1;
    miso ← gpio_in_setup a1 1;
    a2 ← arg args 2;
    mosi ← gpio_out_setup a2 0;
    a3 ← arg args 3;
    sclk ← gpio_out_setup a3 0;
    spidev_set_software_bus oid (mk_spi_software miso mosi sclk mode).

Definition spidev_have_cs_pin (d : spidev) : bool := has (sp_flags d) SF_HAVE_PIN.
Definition spidev_get_cs_pin (d : spidev) : Z := sp_pin d.

Definition soft (d : spidev) : bool := CONFIG_HAVE_GPIO_BITBANGING && has (sp_flags d) SF_SOFTWARE.

Definition bus_prepare (d : spidev) : FW unit :=
  if soft d
  then match sp_bus d with SpiSoftware ss => spi_software_prepare ss | _ => fault "spi_software" end
  else spi_prepare (sp_bus d).

Definition bus_transfer (d : spidev) (receive_data : bool) (data : list Z) : FW (list Z) :=
  if soft d
  then match sp_bus d with SpiSoftware ss => spi_software_transfer ss receive_data data | _ => fault "spi_software" end
  else spi_transfer (sp_bus d) receive_data data.

(** [spidev_transfer]: the buffer after the transfer. *)
Definition spidev_transfer (oid : Z) (receive_data : bool) (data : list Z) : FW (list Z) :=
  d ← get_spi oid;
  let flags := sp_flags d in
  if negb (has flags (Z.lor SF_SOFTWARE SF_HARDWARE)) then mret data
  else
    bus_prepare d ;;
    when (has flags SF_HAVE_PIN) (gpio_out_write (sp_pin d) (b2z (has flags SF_CS_ACTIVE_HIGH))) ;;
    data ← bus_transfer d receive_data data;
    when (has flags SF_HAVE_PIN) (gpio_out_write (sp_pin d) (b2z (negb (has flags SF_CS_ACTIVE_HIGH)))) ;;
    mret data.

Definition command_spi_transfer (args : list Z) : FW unit :=
  a0 ← arg args 0;
  let oid := u8 a0 in
  spi ← spidev_oid_lookup oid;
  a1 ← arg args 1;
  let data_len := u8 a1 in
  a2 ← arg args 2;
  let p := command_decode_ptr a2 in
  data ← recv_bytes p data_len;
  data ← spidev_transfer spi true data;
  recv_store p data ;;
  sendf "spi_transfer_response oid=%c response=%*s" [VInt oid; VBuf data_len data].

Definition command_spi_send (args : list Z) : FW unit :=
  a0 ← arg args 0;
  spi ← spidev_oid_lookup a0;
  a1 ← arg args 1;
  a2 ← arg args 2;
  data ← recv_bytes (command_decode_ptr a2) (u8 a1);
  _ ← spidev_transfer spi false data;
  mret tt.

(** ** Shutdown handling *)

Definition get_spi_shutdown (oid : Z) : FW spidev_shutdown_s :=
  o ← obj_get oid;
  match o with OSpiShutdown s => mret s | _ => fault "struct spidev_shutdown_s" end.

Definition command_config_spi_shutdown (args : list Z) : FW unit :=
  a1 ← arg args 1;
  spi ← spidev_oid_lookup a1;
  a2 ← arg args 2;
  let shutdown_msg_len := u8 a2 in
  a0 ← arg args 0;
  oid ← oid_alloc a0 T_spi_shutdown (sizeof_obj T_spi_shutdown + shutdown_msg_len);
  a3 ← arg args 3;
  msg ← recv_bytes (command_decode_ptr a3) shutdown_msg_len;
  obj_put oid (OSpiShutdown (mk_spidev_shutdown spi shutdown_msg_len msg)).

(** The two loops of [spidev_shutdown]. *)
Definition spidev_cancel (oid : Z) : FW unit :=
  d ← get_spi oid;
  when (has (sp_flags d) SF_HAVE_PIN) (gpio_out_write (sp_pin d) (b2z (negb (has (sp_flags d) SF_CS_ACTIVE_HIGH)))).

Definition spidev_send_shutdown (oid : Z) : FW unit :=
  sd ← get_spi_shutdown oid;
  _ ← spidev_transfer (sd_spi sd) false (shutdown_msg sd);
  mret tt.

Definition spidev_shutdown : FW unit :=
  foreach_oid T_spi spidev_cancel ;;
  foreach_oid T_spi_shutdown spidev_send_shutdown.

End WithBoard.

(** ** The software bus, seen from the wires

    A device of an SPI mode watches the clock and the data line: CPOL (bit 1 of
    the mode) is the level of the idle clock, and it takes a bit on the leading
    clock edge if CPHA (bit 0) is 0, on the trailing edge otherwise. *)

Record device_view := mk_view { dv_clk : bool; dv_mosi : bool; dv_seen : list bool }.

Definition cpol (mode : Z) : bool := has mode 2.
Definition cpha (mode : Z) : bool := has mode 1.

Definition view_clock (mode : Z) (v : device_view) (clk : bool) : device_view :=
  let leading := negb (Bool.eqb clk (cpol mode)) in
  let sample := negb (Bool.eqb clk (dv_clk v)) && Bool.eqb leading (negb (cpha mode)) in
  mk_view clk (dv_mosi v) (if sample then dv_seen v ++ [dv_mosi v] else dv_seen v).

Definition view_step (ss : spi_software) (v : device_view) (e : pin_event) : device_view :=
  match e with
  | EvWrite p l =>
      if p =? ss_sclk ss then view_clock (ss_mode ss) v l
      else if p =? ss_mosi ss then mk_view (dv_clk v) l (dv_seen v) else v
  | EvToggle p => if p =? ss_sclk ss then view_clock (ss_mode ss) v (negb (dv_clk v)) else v
  | _ => v
  end.

(** The events in the order in which they happened. *)
Definition view_run (ss : spi_software) (v : device_view) (ev : list pin_event) : device_view := foldl (view_step ss) v ev.

(** The bits of a byte, most significant first, and back. *)
Definition byte_bits (n : nat) (b : Z) : list bool := (fun i => Z.testbit b (Z.of_nat i)) <$> rev (seq 0 n).
Definition bits_val (bs : list bool) : Z := foldl (fun acc b => 2 * acc + b2z b) 0 bs.

(** What the environment drives on [miso] while [n] bits are read, from the
    reading [k] on. *)
Definition miso_bits `{B : Board} (ss : spi_software) (k n : nat) : list bool :=
  (fun i => hw_pin i (ss_miso ss)) <$> seq k n.

Section Wires.
Context `{B : Board} (ss : spi_software).
Hypothesis Hpins : ss_mosi ss <> ss_sclk ss.
Implicit Types s : mcu.

(** The events of one bit, in the order of the code. *)
Definition bit_events (b : bool) : list pin_event :=
  if has (ss_mode ss) 1
  then [EvToggle (ss_sclk ss); EvWrite (ss_mosi ss) b; EvToggle (ss_sclk ss)]
  else [EvWrite (ss_mosi ss) b; EvToggle (ss_sclk ss); EvToggle (ss_sclk ss)].

(** Each bit is one clock pulse that shows the bit to the device. *)
Lemma bit_events_view b m seen :
  view_run ss (mk_view (cpol (ss_mode ss)) m seen) (bit_events b) = mk_view (cpol (ss_mode ss)) b (seen ++ [b]).
Proof.
  unfold bit_events, view_run, view_step, view_clock, cpha. apply Z.eqb_neq in Hpins.
  destruct (has (ss_mode ss) 1); cbn [foldl]; rewrite !Z.eqb_refl, Hpins; simpl;
    destruct (cpol (ss_mode ss)); simpl; done.
Qed.

(** The state after [ev] happened and [n] readings were taken. *)
Definition after (ev : list pin_event) (n : nat) s : mcu :=
  s <| m_hw ::= fun h => h <| ticks ::= Nat.add n |> <| pin_log ::= app (rev ev) |> |>.

Lemma after_app ev1 n1 ev2 n2 s : after ev2 n2 (after ev1 n1 s) = after (ev1 ++ ev2) (n1 + n2) s.
Proof.
  unfold after. destruct s as [? ? ? ? h ? ? ?]. simpl. f_equal. destruct h as [t k p q r]. simpl. f_equal.
  - lia.
  - by rewrite rev_app_distr, app_assoc.
Qed.

Lemma spi_bit_run outbuf inbuf s :
  spi_software_bit ss outbuf inbuf s =
    (Ok (u8 (Z.shiftl outbuf 1), Z.lor (u8 (Z.shiftl inbuf 1)) (b2z (hw_pin (ticks (m_hw s)) (ss_miso ss)))),
     after (bit_events (has outbuf 0x80)) 1 s).
Proof.
  unfold spi_software_bit, bit_events, gpio_out_toggle, gpio_out_toggle_noirq, gpio_out_write, gpio_in_read, log_pin.
  destruct (has (ss_mode ss) 1); by msimpl.
Qed.

(** The bits shown and the value read by [n] turns of the bit loop. *)
Fixpoint shown (n : nat) (outbuf : Z) : list bool :=
  match n with O => [] | S n => has outbuf 0x80 :: shown n (u8 (Z.shiftl outbuf 1)) end.
Definition shift_in (inbuf : Z) (vs : list bool) : Z := foldl (fun acc v => Z.lor (u8 (Z.shiftl acc 1)) (b2z v)) inbuf vs.

Lemma spi_bits_run n outbuf inbuf s :
  spi_software_bits ss n outbuf inbuf s =
    (Ok (shift_in inbuf (miso_bits ss (ticks (m_hw s)) n)), after (concat (bit_events <$> shown n outbuf)) n s).
Proof.
  induction n as [| n IH] in outbuf, inbuf, s |- *; cbn [spi_software_bits].
  { unfold after. by destruct s as [? ? ? ? [] ? ? ?]. }
  rewrite (bind_ok _ _ _ _ _ (spi_bit_run outbuf inbuf s)). cbv beta iota. rewrite IH, after_app. done.
Qed.

Lemma shown_byte b : is_u8 b -> shown 8 b = byte_bits 8 b.
Proof.
  intros Hb. assert (H : Forall (fun b => shown 8 b = byte_bits 8 b) (seqZ 0 256)) by vm_decide.
  rewrite Forall_forall in H. apply H, elem_of_seqZ. cint_lia.
Qed.

Lemma shift_in_val inbuf vs k :
  0 <= k -> 0 <= inbuf < 2 ^ k -> k + Z.of_nat (length vs) <= 8 ->
  shift_in inbuf vs = foldl (fun acc b => 2 * acc + b2z b) inbuf vs.
Proof.
  intros Hk. unfold shift_in. induction vs as [| v vs IH] in inbuf, k, Hk |- *; intros Hi Hl; [done |]. cbn [foldl length] in *.
  assert (Hp : 2 ^ (k + 1) = 2 * 2 ^ k) by (rewrite Z.pow_add_r by lia; lia).
  assert (Hm : 2 ^ (k + 1) <= 2 ^ 8) by (apply Z.pow_le_mono_r; lia).
  assert (Hv : 0 <= b2z v < 2 ^ 1) by (by destruct v).
  rewrite (u8_small (Z.shiftl inbuf 1)) by (rewrite Z.shiftl_mul_pow2 by lia; cint_lia).
  rewrite lor_shift_add by lia. replace (inbuf * 2 ^ 1 + b2z v) with (2 * inbuf + b2z v) by lia.
  apply (IH _ (k + 1)); lia.
Qed.

Lemma events_view m seen bs :
  exists m', view_run ss (mk_view (cpol (ss_mode ss)) m seen) (concat (bit_events <$> bs))
    = mk_view (cpol (ss_mode ss)) m' (seen ++ bs).
Proof.
  induction bs as [| b bs IH] in m, seen |- *; cbn [fmap list_fmap concat].
  { exists m. by rewrite app_nil_r. }
  unfold view_run. rewrite foldl_app. fold (view_run ss (mk_view (cpol (ss_mode ss)) m seen) (bit_events b)).
  rewrite bit_events_view. destruct (IH b (seen ++ [b])) as [m' E]. exists m'. unfold view_run in E. rewrite E. by rewrite <- app_assoc.
Qed.

(** The bytes clocked in, eight readings each. *)
Fixpoint miso_bytes (k : nat) (data : list Z) : list Z :=
  match data with [] => [] | _ :: data => bits_val (miso_bits ss k 8) :: miso_bytes (k + 8) data end.

Lemma spi_transfer_run r data s :
  Forall is_u8 data ->
  spi_software_transfer ss r data s =
    (Ok (if r then miso_bytes (ticks (m_hw s)) data else data),
     after (concat (bit_events <$> concat (byte_bits 8 <$> data))) (8 * length data) s).
Proof.
  intros Hd. induction Hd as [| d data Hb Hd IH] in s |- *; cbn [spi_software_transfer].
  { unfold after. destruct r; by destruct s as [? ? ? ? [] ? ? ?]. }
  rewrite (bind_ok _ _ _ _ _ (spi_bits_run 8 d 0 s)), (bind_ok _ _ _ _ _ (IH _)), after_app, (shown_byte d Hb).
  rewrite (shift_in_val 0 _ 0) by (done || unfold miso_bits; rewrite length_fmap, length_seq; lia). msimpl.
  rewrite fmap_cons. cbn [concat length miso_bytes]. rewrite fmap_app, concat_app.
  replace (8 * S (length data))%nat with (8 + 8 * length data)%nat by lia. destruct r; [| done].
  by rewrite (Nat.add_comm (ticks (m_hw s)) 8).
Qed.
End Wires.

Section Transfer.
Context `{B : Board}.
Implicit Types s : mcu.

Lemma get_spi_run oid d s : obj_view s oid = Some (OSpi d) -> get_spi oid s = (Ok d, s).
Proof. intros H. unfold get_spi. by rewrite (bind_ok _ _ _ _ _ (obj_get_run _ _ _ H)). Qed.

Lemma has_lor_r x m m' : has x m = true -> has x (Z.lor m m') = true.
Proof.
  unfold has, truth. rewrite !negb_true_iff, !Z.eqb_neq, Z.land_lor_distr_r. intros H E.
  apply Z.lor_eq_0_iff in E. tauto.
Qed.

(** A device on a software bus with a chip select pin. *)
Record software_device (d : spidev) (ss : spi_software) : Prop := {
  sw_flags : has (sp_flags d) SF_SOFTWARE = true;
  sw_bus : sp_bus d = SpiSoftware ss;
  sw_cs : has (sp_flags d) SF_HAVE_PIN = true;
  sw_pins : ss_mosi ss <> ss_sclk ss;
}.


Definition demo_spi : spidev := mk_spidev (SpiSoftware (mk_spi_software 20 21 22 3)) 23 (Z.lor SF_HAVE_PIN SF_SOFTWARE).

Definition demo_spi_state : mcu :=
  initial_mcu <| m_base ::= fun b => b <| oids := Some [mk_oid (Some T_spi) (Some (OSpi demo_spi))] |> <| oid_count := 1 |> |>.
End Transfer.

