(* ===== verification/Tmcuart.v ===== *)
(** * Tmcuart: the single wire UART of the stepper drivers

    Models [src/src/tmcuart.c]: messages are sent and received bit by bit from
    timer events.  A device is named by its oid; its timer is [ObjTimer oid 0]. *)

From S2P Require Import Prelude Wire State Command Sched Basecmd Stepper Dispatch.
Import Encode.

Definition TU_LINE_HIGH : Z := 1.
Definition TU_ACTIVE : Z := 2.
Definition TU_READ_SYNC : Z := 4.
Definition TU_REPORT : Z := 8.
Definition TU_PULLUP : Z := 16.
Definition TU_SINGLE_WIRE : Z := 32.

(** [DIV_ROUND_CLOSEST] of a signed number; the division truncates. *)
Definition DIV_ROUND_CLOSEST (x d : Z) : Z := Z.quot (x + Z.quot d 2) d.

Section WithBoard.
Context `{B : Board}.

Definition get_tmcuart (oid : Z) : FW tmcuart :=
  o ← obj_get oid;
  match o with OTmcuart t => mret t | _ => fault "struct tmcuart_s" end.

Definition upd_tmcuart (oid : Z) (f : tmcuart -> tmcuart) : FW unit :=
  t ← get_tmcuart oid; obj_put oid (OTmcuart (f t)).

Definition tmcuart_timer (oid : Z) : tptr := ObjTimer oid 0.

(** [t->data[pos >> 3]]. *)
Definition data_at (t : tmcuart) (pos : Z) : FW Z := deref "data[]" (tu_data t !! Z.to_nat (Z.shiftr pos 3)).

(** ** Timer callbacks *)

Definition tmcuart_reset_line (oid : Z) : FW unit :=
  t ← get_tmcuart oid;
  (if has (tu_flags t) TU_SINGLE_WIRE then gpio_out_reset (tu_tx_pin t) 1 else gpio_out_write (tu_tx_pin t) 1) ;;
  upd_tmcuart oid (fun t => t <| tu_flags ::= fun f => Z.lor (Z.land f (Z.lor TU_PULLUP TU_SINGLE_WIRE)) TU_LINE_HIGH |>).

Definition tmcuart_finalize (oid : Z) : FW Z :=
  tmcuart_reset_line oid ;;
  upd_tmcuart oid (fun t => t <| tu_flags ::= fun f => Z.lor f TU_REPORT |>) ;;
  sched_wake_task W_tmcuart ;;
  mret SF_DONE.

Definition tmcuart_read_event (oid : Z) : FW Z :=
  t ← get_tmcuart oid;
  v ← gpio_in_read (tu_rx_pin t);
  let pos := tu_pos t in
  let mask := u8 (Z.shiftl 1 (Z.land pos 7)) in
  data ← data_at t pos;
  let data := if (v : bool) then Z.lor data mask else Z.ldiff data mask in
  upd_tmcuart oid (fun t => t <| tu_data ::= <[Z.to_nat (Z.shiftr pos 3) := data]> |>) ;;
  let pos := u8 (pos + 1) in
  if pos >=? tu_read_count t then tmcuart_finalize oid
  else
    upd_tmcuart oid (fun t => t <| tu_pos := pos |>) ;;
    add_waketime (tmcuart_timer oid) (tu_bit_time t) ;;
    mret SF_RESCHEDULE.

Definition tmcuart_read_sync_event (oid : Z) : FW Z :=
  t ← get_tmcuart oid;
  v ← gpio_in_read (tu_rx_pin t);
  if negb v && has (tu_flags t) TU_READ_SYNC
  then
    upd_tmcuart oid (fun t => t <| tu_pos := 0 |>) ;;
    set_func (tmcuart_timer oid) F_tmcuart_read_event ;;
    tmcuart_read_event oid
  else
    when v (upd_tmcuart oid (fun t => t <| tu_flags ::= fun f => Z.lor f TU_READ_SYNC |>)) ;;
    let pos := tu_pos t in
    upd_tmcuart oid (fun t => t <| tu_pos := u8 (pos + 1) |>) ;;
    if pos >=? 64
    then upd_tmcuart oid (fun t => t <| tu_read_count := 0 |>) ;; tmcuart_finalize oid
    else add_waketime (tmcuart_timer oid) (tu_bit_time t) ;; mret SF_RESCHEDULE.

Definition tmcuart_send_finish_event (oid : Z) : FW Z :=
  t ← get_tmcuart oid;
  if negb (truth (tu_read_count t)) then tmcuart_finalize oid
  else
    when (has (tu_flags t) TU_SINGLE_WIRE) (gpio_in_reset (tu_rx_pin t) (Z.land (tu_flags t) TU_PULLUP)) ;;
    upd_tmcuart oid (fun t => t <| tu_pos := 0 |>) ;;
    set_func (tmcuart_timer oid) F_tmcuart_read_sync_event ;;
    add_waketime (tmcuart_timer oid) (u32 (tu_bit_time t * 4)) ;;
    mret SF_RESCHEDULE.

(** The [for (;;)] of [tmcuart_send_event]: the position of the next toggle, or
    none, and the time to it. *)
Fixpoint send_scan (fuel : nat) (t : tmcuart) (line_state : bool) (pos next : Z) : FW (option Z * Z) :=
  match fuel with
  | O => lift_res OutOfFuel
  | S fuel =>
      let pos := u8 (pos + 1) in
      if pos >=? tu_write_count t then mret (None, next)
      else
        data ← data_at t pos;
        let bit := has (Z.shiftr data (Z.land pos 7)) 1 in
        if negb (Bool.eqb bit line_state) then mret (Some pos, next)
        else send_scan fuel t line_state pos (u32 (next + tu_bit_time t))
  end.

(** [pos] is a byte: 256 turns are enough. *)
Definition tmcuart_send_event (oid : Z) : FW Z :=
  t ← get_tmcuart oid;
  gpio_out_toggle_noirq (tu_tx_pin t) ;;
  upd_tmcuart oid (fun t => t <| tu_flags ::= fun f => Z.lxor f TU_LINE_HIGH |>) ;;
  t ← get_tmcuart oid;
  '(q, next) ← send_scan 256 t (has (tu_flags t) TU_LINE_HIGH) (tu_pos t) (tu_bit_time t);
  match q with
  | None =>
      set_func (tmcuart_timer oid) F_tmcuart_send_finish_event ;;
      add_waketime (tmcuart_timer oid) next ;;
      mret SF_RESCHEDULE
  | Some pos =>
      upd_tmcuart oid (fun t => t <| tu_pos := pos |>) ;;
      add_waketime (tmcuart_timer oid) next ;;
      mret SF_RESCHEDULE
  end.

Definition tmcuart_send_sync_event (oid : Z) : FW Z :=
  t ← get_tmcuart oid;
  gpio_out_toggle_noirq (tu_tx_pin t) ;;
  cur ← timer_read_time;
  upd_tmcuart oid (fun t => t <| tu_flags ::= fun f => Z.lxor f TU_LINE_HIGH |>) ;;
  let pos := u8 (tu_pos t + 1) in
  upd_tmcuart oid (fun t => t <| tu_pos := pos |>) ;;
  tm ← tm_get (tmcuart_timer oid);
  let offset := u32 (cur - t_waketime tm) in
  if pos >=? 5
  then
    let diff := s32 (offset - tu_bit_time t) in
    if diff + 2 >=? 2 ^ 31 then fault "signed overflow"
    else
      let bit_time := u32 (tu_cfg_bit_time t + DIV_ROUND_CLOSEST diff 4) in
      upd_tmcuart oid (fun t => t <| tu_bit_time := bit_time |>) ;;
      set_func (tmcuart_timer oid) F_tmcuart_send_event ;;
      add_waketime (tmcuart_timer oid) (diff + bit_time) ;;
      mret SF_RESCHEDULE
  else
    when (pos =? 1) (upd_tmcuart oid (fun t => t <| tu_bit_time := offset |>)) ;;
    add_waketime (tmcuart_timer oid) (tu_cfg_bit_time t) ;;
    mret SF_RESCHEDULE.

(** ** Commands *)

Definition command_config_tmcuart (args : list Z) : FW unit :=
  a0 ← arg args 0;
  oid ← oid_alloc a0 T_tmcuart (sizeof_obj T_tmcuart);
  a2 ← arg args 2;
  let pull_up := u8 a2 in
  rx_pin ← arg args 1;
  tx_pin ← arg args 3;
  rx ← gpio_in_setup rx_pin (b2z (truth pull_up));
  upd_tmcuart oid (fun t => t <| tu_rx_pin := rx |>) ;;
  tx ← gpio_out_setup tx_pin 1;
  upd_tmcuart oid (fun t => t <| tu_tx_pin := tx |>) ;;
  a4 ← arg args 4;
  upd_tmcuart oid (fun t => t <| tu_cfg_bit_time := a4 |>
    <| tu_flags := Z.lor (Z.lor TU_LINE_HIGH (if truth pull_up then TU_PULLUP else 0))
                         (if rx_pin =? tx_pin then TU_SINGLE_WIRE else 0) |>).

Definition command_tmcuart_send (args : list Z) : FW unit :=
  a0 ← arg args 0;
  oid ← oid_lookup a0 T_tmcuart;
  t ← get_tmcuart oid;
  if has (tu_flags t) TU_ACTIVE then mret tt
  else
    a1 ← arg args 1;
    let write_len := u8 a1 in
    a2 ← arg args 2;
    let write := command_decode_ptr a2 in
    a3 ← arg args 3;
    let read_len := u8 a3 in
    if (write_len >? 10) || (read_len >? 10) then shutdown "tmcuart data too large"
    else
      w ← recv_bytes write write_len;
      upd_tmcuart oid (fun t => t <| tu_data ::= fun d => w ++ drop (length w) d |> <| tu_pos := 0 |>
        <| tu_flags ::= fun f => Z.lor (Z.land f (Z.lor TU_LINE_HIGH (Z.lor TU_PULLUP TU_SINGLE_WIRE))) TU_ACTIVE |>
        <| tu_write_count := u8 (write_len * 8) |> <| tu_read_count := u8 (read_len * 8) |>) ;;
      t ← get_tmcuart oid;
      d0 ← data_at t 0;
      (if (write_len >=? 1) && (Z.land d0 0x3f =? 0x2a)
       then set_func (tmcuart_timer oid) F_tmcuart_send_sync_event
       else
         upd_tmcuart oid (fun t => t <| tu_bit_time := tu_cfg_bit_time t |>) ;;
         set_func (tmcuart_timer oid) F_tmcuart_send_event) ;;
      now ← timer_read_time;
      set_waketime (tmcuart_timer oid) (u32 (now + timer_from_us 200)) ;;
      sched_add_timer (tmcuart_timer oid).

(** ** Task and shutdown *)

Definition tmcuart_report (oid : Z) : FW unit :=
  t ← get_tmcuart oid;
  if negb (has (tu_flags t) TU_REPORT) then mret tt
  else
    upd_tmcuart oid (fun t => t <| tu_flags ::= fun f => clr f TU_REPORT |>) ;;
    sendf "tmcuart_response oid=%c read=%*s" [VInt oid; VBuf (tu_read_count t / 8) (tu_data t)].

Definition tmcuart_task : FW unit :=
  w ← sched_check_wake W_tmcuart;
  when w (foreach_oid T_tmcuart tmcuart_report).

Definition tmcuart_shutdown : FW unit := foreach_oid T_tmcuart tmcuart_reset_line.

(** ** Runs of the device *)

(** What the timer of the device runs. *)
Definition tmcuart_fire (oid : Z) : FW Z :=
  tm ← tm_get (tmcuart_timer oid);
  match t_func tm with
  | Some F_tmcuart_read_event => tmcuart_read_event oid
  | Some F_tmcuart_read_sync_event => tmcuart_read_sync_event oid
  | Some F_tmcuart_send_finish_event => tmcuart_send_finish_event oid
  | Some F_tmcuart_send_event => tmcuart_send_event oid
  | Some F_tmcuart_send_sync_event => tmcuart_send_sync_event oid
  | _ => fault "timer func"
  end.

(** [n] events: when each one ran, and what it returned. *)
Fixpoint tmcuart_events (n : nat) (oid : Z) : FW (list (Z * Z)) :=
  match n with
  | O => mret []
  | S n =>
      tm ← tm_get (tmcuart_timer oid);
      r ← tmcuart_fire oid;
      rest ← tmcuart_events n oid;
      mret ((t_waketime tm, r) :: rest)
  end.

End WithBoard.

(** ** The waveform of a message

    The bits of the buffer go out least significant first, one per bit time,
    on a line that idles high.  [edges lvl k bs]: where the line changes when
    the bits [bs] follow the level [lvl], counted in bit times from [k]. *)
Fixpoint edges (lvl : bool) (k : nat) (bs : list bool) : list nat :=
  match bs with
  | [] => []
  | b :: bs => if Bool.eqb b lvl then edges lvl (S k) bs else k :: edges b (S k) bs
  end.

Definition data_bit (data : list Z) (k : nat) : bool := Z.testbit (data !!! (k / 8)%nat) (Z.of_nat (k mod 8)).
Definition data_bits (data : list Z) (n : nat) : list bool := data_bit data <$> seq 0 n.

Lemma data_bits_drop data n p :
  (p < n)%nat -> drop p (data_bits data n) = data_bit data p :: drop (S p) (data_bits data n).
Proof.
  intros Hp. apply drop_S. unfold data_bits. rewrite list_lookup_fmap, lookup_seq_lt by done. done.
Qed.

Lemma data_bits_nil data n p : (n <= p)%nat -> drop p (data_bits data n) = [].
Proof. intros H. apply drop_ge. unfold data_bits. rewrite length_fmap, length_seq. done. Qed.

Lemma has_shiftr x i : 0 <= i -> has (Z.shiftr x i) 1 = Z.testbit x i.
Proof.
  intros Hi. assert (E : Z.land (Z.shiftr x i) 1 = (Z.shiftr x i) mod 2) by exact (Z.land_ones (Z.shiftr x i) 1 ltac:(lia)).
  unfold has, truth. rewrite E, Z.testbit_odd, Zmod_odd. by destruct (Z.odd _).
Qed.

Section Sending.
Context `{B : Board} (oid : Z).
Implicit Types (s : mcu) (t : tmcuart).

(** A message in the buffer: at most ten bytes. *)
Record message t (n : nat) : Prop := {
  mg_count : tu_write_count t = Z.of_nat n;
  mg_size : (n <= 80)%nat;
  mg_data : length (tu_data t) = 10%nat;
}.

Lemma data_at_run t p s :
  length (tu_data t) = 10%nat -> (p < 80)%nat ->
  data_at t (Z.of_nat p) s = (Ok (tu_data t !!! (p / 8)%nat), s).
Proof.
  intros Hl Hp. unfold data_at. rewrite Z.shiftr_div_pow2 by lia. change (2 ^ 3) with (Z.of_nat 8).
  rewrite <- Nat2Z.inj_div, Nat2Z.id.
  assert ((p / 8 < 10)%nat) by (apply Nat.Div0.div_lt_upper_bound; lia).
  by rewrite (list_lookup_lookup_total_lt (tu_data t) (p / 8)) by lia.
Qed.

Lemma land_mod8 p : Z.land (Z.of_nat p) 7 = Z.of_nat (p mod 8).
Proof.
  change 7 with (Z.ones 3). rewrite Z.land_ones by lia. change (2 ^ 3) with (Z.of_nat 8). by rewrite <- Nat2Z.inj_mod.
Qed.

(** The scan finds the next edge. *)
Lemma send_scan_run t n lvl p next fuel s :
  message t n -> (p < n)%nat -> (n - p <= fuel)%nat ->
  send_scan fuel t lvl (Z.of_nat p) (u32 next) s =
    (Ok (match edges lvl (S p) (drop (S p) (data_bits (tu_data t) n)) with
         | [] => (None, u32 (next + (Z.of_nat n - 1 - Z.of_nat p) * tu_bit_time t))
         | k :: _ => (Some (Z.of_nat k), u32 (next + (Z.of_nat k - 1 - Z.of_nat p) * tu_bit_time t))
         end), s).
Proof.
  intros [Hc Hs Hd]. induction fuel as [| fuel IH] in p, next |- *; intros Hp Hf; [lia |]. cbn [send_scan].
  assert (Eu : u8 (Z.of_nat p + 1) = Z.of_nat (S p)) by (rewrite u8_small by cint_lia; lia). rewrite Eu, Hc.
  destruct (Z.geb_spec (Z.of_nat (S p)) (Z.of_nat n)) as [Hge | Hlt].
  { rewrite data_bits_nil by lia. cbn [edges]. replace (Z.of_nat n - 1 - Z.of_nat p) with 0 by lia. by rewrite Z.add_0_r. }
  rewrite (bind_ok _ _ _ _ _ (data_at_run t (S p) s Hd ltac:(lia))), land_mod8, has_shiftr by lia.
  rewrite (data_bits_drop _ _ (S p)) by lia. cbn [edges]. fold (data_bit (tu_data t) (S p)).
  destruct (Bool.eqb (data_bit (tu_data t) (S p)) lvl); cbn [negb].
  - rewrite u32_add_l, IH by lia.
    destruct (edges _ _ _) as [| k l]; [| ]; do 3 f_equal; f_equal; lia.
  - replace (Z.of_nat (S p) - 1 - Z.of_nat p) with 0 by lia. by rewrite Z.add_0_r.
Qed.

Lemma edges_head data n lvl a k l :
  edges lvl a (drop a (data_bits data n)) = k :: l ->
  (a <= k < n)%nat /\ data_bit data k = negb lvl /\ l = edges (negb lvl) (S k) (drop (S k) (data_bits data n)).
Proof.
  remember (n - a)%nat as d eqn:Ed. induction d as [| d IH] in a, Ed |- *.
  { rewrite data_bits_nil by lia. done. }
  rewrite data_bits_drop by lia. cbn [edges]. destruct (Bool.eqb (data_bit data a) lvl) eqn:E.
  - intros H. destruct (IH (S a)) as (H1 & H2 & H3); [lia | done |]. split; [lia | done].
  - intros [= <- <-]. assert (Eb : data_bit data a = negb lvl) by (by destruct (data_bit data a), lvl).
    rewrite Eb. split; [lia | done].
Qed.

Lemma edges_none data n lvl a :
  edges lvl a (drop a (data_bits data n)) = [] -> forall k, (a <= k < n)%nat -> data_bit data k = lvl.
Proof.
  remember (n - a)%nat as d eqn:Ed. induction d as [| d IH] in a, Ed |- *; [intros _ k; lia |].
  rewrite data_bits_drop by lia. cbn [edges]. destruct (Bool.eqb (data_bit data a) lvl) eqn:E; [| done].
  intros H k Hk. destruct (decide (k = a)) as [-> |]; [by apply Bool.eqb_prop | apply (IH (S a)); [lia | done | lia]].
Qed.

Lemma has_lxor_line f : has (Z.lxor f TU_LINE_HIGH) TU_LINE_HIGH = negb (has f TU_LINE_HIGH).
Proof.
  unfold has, TU_LINE_HIGH. replace (Z.lxor f 1) with (Z.lxor (Z.shiftr f 0) 1) by done.
  assert (H : forall y, Z.land y 1 = Z.b2z (Z.odd y)).
  { intros y. change 1 with (Z.ones 1) at 1. rewrite Z.land_ones by lia. change (2 ^ 1) with 2. rewrite Zmod_odd. by destruct (Z.odd y). }
  rewrite !H, Z.shiftr_0_r, <- !Z.bit0_odd, Z.lxor_spec. by destruct (Z.testbit f 0).
Qed.

Lemma get_tmcuart_run t s : obj_view s oid = Some (OTmcuart t) -> get_tmcuart oid s = (Ok t, s).
Proof. intros H. unfold get_tmcuart. by rewrite (bind_ok _ _ _ _ _ (obj_get_run _ _ _ H)). Qed.

Lemma upd_tmcuart_run t f s :
  obj_view s oid = Some (OTmcuart t) -> upd_tmcuart oid f s = (Ok tt, put_obj oid (OTmcuart (f t)) s).
Proof. intros H. unfold upd_tmcuart. by rewrite (bind_ok _ _ _ _ _ (get_tmcuart_run _ _ H)). Qed.

(** The device is about to toggle the line at the bit [p]. *)
Record sending s t (n p : nat) (w : Z) : Prop := {
  sn_device : device oid s (OTmcuart t) F_tmcuart_send_event (u32 w);
  sn_msg : message t n;
  sn_pos : tu_pos t = Z.of_nat p;
  sn_in : (p < n)%nat;
  sn_line : has (tu_flags t) TU_LINE_HIGH = negb (data_bit (tu_data t) p);
  sn_time : is_u32 (tu_bit_time t);
}.

(** What a toggle changes of the device. *)
Definition toggled (t : tmcuart) : tmcuart := t <| tu_flags ::= fun f => Z.lxor f TU_LINE_HIGH |>.

Lemma fire_send s t n p w : sending s t n p w -> tmcuart_fire oid s = tmcuart_send_event oid s.
Proof.
  intros [D _ _ _ _ _]. destruct (device_get _ _ _ _ _ D) as (tm & E & Hf & _).
  unfold tmcuart_fire, tmcuart_timer. by rewrite (bind_ok _ _ _ _ _ E), Hf.
Qed.

(** Adding to the wake time and choosing the function, on the device. *)
Lemma device_add_wake s o f w d :
  device oid s o f (u32 w) ->
  exists s', add_waketime (ObjTimer oid 0) d s = (Ok tt, s') /\ device oid s' o f (u32 (w + d)) /\ m_hw s' = m_hw s.
Proof.
  intros D. destruct (device_upd oid s o f f (u32 w) (u32 (w + d)) (fun r => r <| t_waketime ::= fun w => u32 (w + d) |>) D)
    as (s' & E & D' & _ & H & _).
  { intros tm H1 H2. simpl. rewrite H1, H2. by rewrite u32_add_l. }
  by exists s'.
Qed.

Lemma device_set_func s o f f' w :
  device oid s o f w ->
  exists s', set_func (ObjTimer oid 0) f' s = (Ok tt, s') /\ device oid s' o f' w /\ m_hw s' = m_hw s.
Proof.
  intros D. destruct (device_upd oid s o f f' w w (fun r => r <| t_func := Some f' |>) D) as (s' & E & D' & _ & H & _); [done |].
  by exists s'.
Qed.

Lemma send_step s t n p w :
  sending s t n p w ->
  exists s' t', tmcuart_send_event oid s = (Ok SF_RESCHEDULE, s') /\ tu_data t' = tu_data t
    /\ tu_tx_pin t' = tu_tx_pin t /\ tu_bit_time t' = tu_bit_time t /\ tu_flags t' = Z.lxor (tu_flags t) TU_LINE_HIGH
    /\ tu_read_count t' = tu_read_count t
    /\ pin_log (m_hw s') = EvToggle (tu_tx_pin t) :: pin_log (m_hw s)
    /\ match edges (data_bit (tu_data t) p) (S p) (drop (S p) (data_bits (tu_data t) n)) with
       | [] => device oid s' (OTmcuart t') F_tmcuart_send_finish_event (u32 (w + (Z.of_nat n - Z.of_nat p) * tu_bit_time t))
       | k :: _ => sending s' t' n k (w + (Z.of_nat k - Z.of_nat p) * tu_bit_time t)
       end.
Proof.
  intros [D M P I L T]. pose proof (dv_view _ _ _ _ _ D) as V. unfold tmcuart_send_event.
  rewrite (bind_ok _ _ _ _ _ (get_tmcuart_run _ _ V)). unfold gpio_out_toggle_noirq. rewrite (bind_ok _ _ _ _ _ (log_pin_run _ _)).
  set (s1 := s <| m_hw ::= _ |>). assert (D1 : device oid s1 (OTmcuart t) F_tmcuart_send_event (u32 w)) by (by apply device_hw).
  rewrite (bind_ok _ _ _ _ _ (upd_tmcuart_run _ _ _ (dv_view _ _ _ _ _ D1))). fold (toggled t).
  pose proof (device_put oid _ _ (OTmcuart (toggled t)) _ _ D1) as D2. set (s2 := put_obj _ _ s1) in *.
  rewrite (bind_ok _ _ _ _ _ (get_tmcuart_run _ _ (dv_view _ _ _ _ _ D2))).
  assert (M2 : message (toggled t) n) by (by destruct M).
  change (tu_flags (toggled t)) with (Z.lxor (tu_flags t) TU_LINE_HIGH). rewrite has_lxor_line, L, negb_involutive.
  change (tu_pos (toggled t)) with (tu_pos t). rewrite P.
  change (tu_bit_time (toggled t)) with (tu_bit_time t).
  assert (Hfuel : (n - p <= 256)%nat) by (destruct M; lia).
  pose proof (send_scan_run (toggled t) n (data_bit (tu_data t) p) p (tu_bit_time t) 256 s2 M2 I Hfuel) as Es.
  rewrite (u32_small (tu_bit_time t) T) in Es. rewrite (bind_ok _ _ _ _ _ Es). clear Es.
  change (tu_data (toggled t)) with (tu_data t). change (tu_bit_time (toggled t)) with (tu_bit_time t).
  destruct (edges _ (S p) _) as [| k l] eqn:E; cbv beta iota; unfold tmcuart_timer.
  - destruct (device_set_func _ _ _ F_tmcuart_send_finish_event _ D2) as (s3 & E3 & D3 & H3). rewrite (bind_ok _ _ _ _ _ E3).
    destruct (device_add_wake _ _ _ _ (u32 (tu_bit_time t + (Z.of_nat n - 1 - Z.of_nat p) * tu_bit_time t)) D3) as (s4 & E4 & D4 & H4).
    rewrite (bind_ok _ _ _ _ _ E4). exists s4, (toggled t). split; [done |]. split_and!; try done; [by rewrite H4, H3 |].
    rewrite u32_add_r in D4. by replace (w + (Z.of_nat n - Z.of_nat p) * tu_bit_time t)
      with (w + (tu_bit_time t + (Z.of_nat n - 1 - Z.of_nat p) * tu_bit_time t)) by lia.
  - apply edges_head in E as (Hk & Hb & _).
    rewrite (bind_ok _ _ _ _ _ (upd_tmcuart_run _ _ _ (dv_view _ _ _ _ _ D2))).
    set (t3 := (toggled t) <| tu_pos := Z.of_nat k |>). pose proof (device_put oid _ _ (OTmcuart t3) _ _ D2) as D3.
    destruct (device_add_wake _ _ _ _ (u32 (tu_bit_time t + (Z.of_nat k - 1 - Z.of_nat p) * tu_bit_time t)) D3) as (s4 & E4 & D4 & H4).
    rewrite (bind_ok _ _ _ _ _ E4). exists s4, t3. split; [done |]. split_and!; try done; [by rewrite H4 |].
    rewrite u32_add_r in D4. split; try done; [| by destruct M2 | lia |].
    + by replace (w + (Z.of_nat k - Z.of_nat p) * tu_bit_time t)
        with (w + (tu_bit_time t + (Z.of_nat k - 1 - Z.of_nat p) * tu_bit_time t)) by lia.
    + simpl. by rewrite has_lxor_line, L, negb_involutive, Hb, negb_involutive.
Qed.

Lemma send_run l : forall s t n p w,
  sending s t n p w -> edges (data_bit (tu_data t) p) (S p) (drop (S p) (data_bits (tu_data t) n)) = l ->
  exists s' t', tmcuart_events (S (length l)) oid s
      = (Ok ((fun k => (u32 (w + (Z.of_nat k - Z.of_nat p) * tu_bit_time t), SF_RESCHEDULE)) <$> p :: l), s')
    /\ device oid s' (OTmcuart t') F_tmcuart_send_finish_event (u32 (w + (Z.of_nat n - Z.of_nat p) * tu_bit_time t))
    /\ pin_log (m_hw s') = replicate (S (length l)) (EvToggle (tu_tx_pin t)) ++ pin_log (m_hw s)
    /\ has (tu_flags t') TU_LINE_HIGH = data_bit (tu_data t) (n - 1).
Proof.
  induction l as [| k l IH]; intros s t n p w S El.
  all: destruct (device_get _ _ _ _ _ (sn_device _ _ _ _ _ S)) as (tm & Et & _ & Hw);
    destruct (send_step s t n p w S) as (s1 & t1 & E1 & A1 & A2 & A3 & A4 & _ & A6 & A7); rewrite El in A7;
    cbn [tmcuart_events length]; unfold tmcuart_timer; rewrite (bind_ok _ _ _ _ _ Et), (bind_ok _ _ _ _ _ (eq_trans (fire_send s t n p w S) E1)).
  - msimpl. exists s1, t1. split; [rewrite Hw; do 2 f_equal; simpl; do 3 f_equal; lia |]. split_and!; try done.
    destruct S as [_ _ _ Hp L _]. rewrite A4, has_lxor_line, L, negb_involutive.
    destruct (decide (p = n - 1)%nat) as [<- |]; [done |]. symmetry. apply (edges_none _ n _ (Datatypes.S p) El). lia.
  - destruct (edges_head _ _ _ _ _ _ El) as (Hk & Hb & Hl).
    destruct (IH s1 t1 n k (w + (Z.of_nat k - Z.of_nat p) * tu_bit_time t)) as (s2 & t2 & E2 & D2 & P2 & F2); [done | by rewrite A1, Hb |].
    rewrite A1, A2, A3 in *.
    cbn [tmcuart_events length] in E2. rewrite (bind_ok _ _ _ _ _ E2). msimpl. exists s2, t2.
    rewrite Hw. split_and!.
    + f_equal. f_equal. rewrite !fmap_cons. f_equal; [do 2 f_equal; lia |]. f_equal; [do 2 f_equal; lia |].
      apply list_fmap_ext. intros _ j _. do 2 f_equal. lia.
    + by replace (w + (Z.of_nat n - Z.of_nat p) * tu_bit_time t)
        with (w + (Z.of_nat k - Z.of_nat p) * tu_bit_time t + (Z.of_nat n - Z.of_nat k) * tu_bit_time t) by lia.
    + rewrite P2, A6. change (EvToggle (tu_tx_pin t) :: pin_log (m_hw s)) with ([EvToggle (tu_tx_pin t)] ++ pin_log (m_hw s)).
      rewrite app_assoc. by rewrite <- (replicate_S_end (Datatypes.S (length l))).
    + done.
Qed.


(** ** Reception *)

(** The buffer with the bit [p] replaced, as the code does it. *)
Definition put_bit (data : list Z) (p : nat) (v : bool) : list Z :=
  let mask := 2 ^ Z.of_nat (p mod 8) in
  let d := data !!! (p / 8)%nat in
  <[(p / 8)%nat := if v then Z.lor d mask else Z.ldiff d mask]> data.

Lemma put_bit_spec data p v k :
  length data = 10%nat -> (p < 80)%nat ->
  length (put_bit data p v) = 10%nat /\ data_bit (put_bit data p v) k = if decide (k = p) then v else data_bit data k.
Proof.
  intros Hl Hp. assert ((p / 8 < 10)%nat) by (apply Nat.Div0.div_lt_upper_bound; lia).
  unfold put_bit. split; [by rewrite length_insert |]. unfold data_bit.
  assert (Hm : forall i, Z.testbit (2 ^ Z.of_nat (p mod 8)) (Z.of_nat i) = bool_decide (i = p mod 8)%nat).
  { intros i. rewrite Z.pow2_bits_eqb by lia. case_bool_decide; [subst; apply Z.eqb_refl | apply Z.eqb_neq; lia]. }
  destruct (decide (k / 8 = p / 8)%nat) as [E | E].
  - rewrite E, list_lookup_total_insert_eq by lia.
    assert (Hb : Z.testbit (if v then Z.lor (data !!! (p / 8)%nat) (2 ^ Z.of_nat (p mod 8)) else Z.ldiff (data !!! (p / 8)%nat) (2 ^ Z.of_nat (p mod 8))) (Z.of_nat (k mod 8))
      = if decide (k mod 8 = p mod 8)%nat then v else Z.testbit (data !!! (p / 8)%nat) (Z.of_nat (k mod 8))).
    { destruct v; rewrite ?Z.lor_spec, ?Z.ldiff_spec, Hm; case_bool_decide; case_decide; try done;
        by rewrite ?orb_true_r, ?orb_false_r, ?andb_true_r, ?andb_false_r. }
    rewrite Hb. pose proof (Nat.div_mod_eq k 8). pose proof (Nat.div_mod_eq p 8).
    destruct (decide (k mod 8 = p mod 8)%nat), (decide (k = p)); try done; subst; lia.
  - rewrite list_lookup_total_insert_ne by done. rewrite decide_False; [done |]. by intros ->.
Qed.

(** The device is about to read the bit [p] of [n], with reading number [c]. *)
Record reading s t (n p c : nat) (w : Z) : Prop := {
  rd_device : device oid s (OTmcuart t) F_tmcuart_read_event (u32 w);
  rd_data : length (tu_data t) = 10%nat;
  rd_count : tu_read_count t = Z.of_nat n;
  rd_pos : tu_pos t = Z.of_nat p;
  rd_in : (p < n <= 80)%nat;
  rd_reads : ticks (m_hw s) = c;
}.

(** The device has finished and asked for its report. *)
Definition reported s (data : list Z) (n : nat) : Prop :=
  exists t, obj_view s oid = Some (OTmcuart t) /\ tu_data t = data /\ tu_read_count t = Z.of_nat n
    /\ has (tu_flags t) TU_REPORT = true /\ has (tu_flags t) TU_ACTIVE = false /\ m_wake s W_tmcuart = true.

Lemma finalize_run s t f w :
  device oid s (OTmcuart t) f w ->
  exists s', tmcuart_finalize oid s = (Ok SF_DONE, s')
    /\ (forall n, tu_read_count t = Z.of_nat n -> reported s' (tu_data t) n).
Proof.
  intros D. pose proof (dv_view _ _ _ _ _ D) as V. unfold tmcuart_finalize, tmcuart_reset_line.
  rewrite !bind_assoc, (bind_ok _ _ _ _ _ (get_tmcuart_run _ _ V)).
  set (fl := Z.lor (Z.lor (Z.land (tu_flags t) (Z.lor TU_PULLUP TU_SINGLE_WIRE)) TU_LINE_HIGH) TU_REPORT).
  assert (E : exists e, (if has (tu_flags t) TU_SINGLE_WIRE then gpio_out_reset (tu_tx_pin t) 1 else gpio_out_write (tu_tx_pin t) 1) s
    = (Ok tt, s <| m_hw ::= upd pin_log (cons e) |>)) by (destruct (has _ _); eexists; apply log_pin_run).
  destruct E as [e E]. rewrite bind_assoc, (bind_ok _ _ _ _ _ E).
  erewrite bind_ok by (apply (upd_tmcuart_run t); exact V).
  erewrite bind_ok by (apply upd_tmcuart_run; eapply obj_view_put; exact V). rewrite put_obj_put.
  unfold sched_wake_task, sched_wake_tasks, set_sched. msimpl. eexists. split; [reflexivity |].
  intros n Hn. exists (t <| tu_flags := fl |>). split; [eapply obj_view_put; exact V |]. split_and!; try done.
  - simpl. unfold fl. by apply has_lor_same.
  - simpl. unfold fl, has. rewrite !Z.land_lor_distr_l, <- Z.land_assoc. by rewrite Z.land_0_r.
Qed.

Definition read_bit t (p c : nat) : tmcuart :=
  t <| tu_data ::= fun d => put_bit d p (hw_pin c (tu_rx_pin t)) |>.

Lemma read_step s t n p c w :
  reading s t n p c w ->
  exists s' r, tmcuart_read_event oid s = (Ok r, s')
    /\ if decide (S p = n) then r = SF_DONE /\ reported s' (tu_data (read_bit t p c)) n
       else r = SF_RESCHEDULE /\ reading s' ((read_bit t p c) <| tu_pos := Z.of_nat (S p) |>) n (S p) (S c) (w + tu_bit_time t).
Proof.
  intros [D L C P I R]. pose proof (dv_view _ _ _ _ _ D) as V. unfold tmcuart_read_event, gpio_in_read.
  rewrite (bind_ok _ _ _ _ _ (get_tmcuart_run _ _ V)). msimpl. rewrite R, P.
  set (s1 := s <| m_hw ::= _ |>). assert (D1 : device oid s1 (OTmcuart t) F_tmcuart_read_event (u32 w)) by (by apply device_hw).
  rewrite (bind_ok _ _ _ _ _ (data_at_run t p s1 L ltac:(lia))), land_mod8.
  assert (Em : u8 (Z.shiftl 1 (Z.of_nat (p mod 8))) = 2 ^ Z.of_nat (p mod 8)).
  { assert ((p mod 8 < 8)%nat) by (apply Nat.mod_upper_bound; lia). rewrite Z.shiftl_1_l. apply u8_small.
    split; [lia |]. apply (Z.lt_le_trans _ (2 ^ 8)); [apply Z.pow_lt_mono_r; lia | done]. }
  assert (Es : Z.to_nat (Z.shiftr (Z.of_nat p) 3) = (p / 8)%nat).
  { rewrite Z.shiftr_div_pow2 by lia. change (2 ^ 3) with (Z.of_nat 8). by rewrite <- Nat2Z.inj_div, Nat2Z.id. }
  rewrite Em, Es, (bind_ok _ _ _ _ _ (upd_tmcuart_run _ _ _ (dv_view _ _ _ _ _ D1))).
  change (put_obj oid _ s1) with (put_obj oid (OTmcuart (read_bit t p c)) s1).
  pose proof (device_put oid _ _ (OTmcuart (read_bit t p c)) _ _ D1) as D2. set (s2 := put_obj _ _ s1) in *.
  assert (Eu : u8 (Z.of_nat p + 1) = Z.of_nat (S p)) by (rewrite u8_small by cint_lia; lia). rewrite Eu, C.
  destruct (decide (S p = n)) as [<- | Hne].
  - destruct (Z.geb_spec (Z.of_nat (S p)) (Z.of_nat (S p))); [| lia].
    destruct (finalize_run s2 (read_bit t p c) _ _ D2) as (s3 & E3 & H3). exists s3, SF_DONE. split; [done |]. split; [done |]. by apply H3.
  - destruct (Z.geb_spec (Z.of_nat (S p)) (Z.of_nat n)); [lia |].
    rewrite (bind_ok _ _ _ _ _ (upd_tmcuart_run _ _ _ (dv_view _ _ _ _ _ D2))).
    set (t3 := (read_bit t p c) <| tu_pos := _ |>). pose proof (device_put oid _ _ (OTmcuart t3) _ _ D2) as D3.
    destruct (device_add_wake _ _ _ _ (tu_bit_time t) D3) as (s4 & E4 & D4 & H4). unfold tmcuart_timer. rewrite (bind_ok _ _ _ _ _ E4).
    exists s4, SF_RESCHEDULE. split; [done |]. split; [done |]. split; try done.
    + simpl. by destruct (put_bit_spec (tu_data t) p (hw_pin c (tu_rx_pin t)) 0 L ltac:(lia)).
    + lia.
    + rewrite H4. simpl. by rewrite R.
Qed.

Lemma fire_read s t n p c w : reading s t n p c w -> tmcuart_fire oid s = tmcuart_read_event oid s.
Proof.
  intros [D _ _ _ _ _]. destruct (device_get _ _ _ _ _ D) as (tm & E & Hf & _).
  unfold tmcuart_fire, tmcuart_timer. by rewrite (bind_ok _ _ _ _ _ E), Hf.
Qed.

(** The events of the remaining bits; [lead] has run before, as part of the
    same event or the one before. *)
Lemma read_run d : forall s t n p c w,
  reading s t n p c w -> n = (p + S d)%nat ->
  exists s' data, tmcuart_events (S d) oid s =
      (Ok (((fun i => (u32 (w + Z.of_nat i * tu_bit_time t), SF_RESCHEDULE)) <$> seq 0 d)
           ++ [(u32 (w + Z.of_nat d * tu_bit_time t), SF_DONE)]), s')
    /\ reported s' data n
    /\ forall k, data_bit data k = if decide (p <= k < n)%nat then hw_pin (c + (k - p)) (tu_rx_pin t) else data_bit (tu_data t) k.
Proof.
  induction d as [| d IH]; intros s t n p c w R En.
  all: destruct (device_get _ _ _ _ _ (rd_device _ _ _ _ _ _ R)) as (tm & Et & _ & Hw);
    destruct (read_step s t n p c w R) as (s1 & r & E1 & Hr);
    destruct (put_bit_spec (tu_data t) p (hw_pin c (tu_rx_pin t)) 0 (rd_data _ _ _ _ _ _ R)) as [Hlen _]; [destruct R; lia |];
    assert (Hput : forall k, data_bit (tu_data (read_bit t p c)) k = if decide (k = p) then hw_pin c (tu_rx_pin t) else data_bit (tu_data t) k)
      by (intros k; apply put_bit_spec; destruct R; [done | lia]);
    cbn [tmcuart_events]; unfold tmcuart_timer; rewrite (bind_ok _ _ _ _ _ Et), (bind_ok _ _ _ _ _ (eq_trans (fire_read s t n p c w R) E1)).
  - rewrite decide_True in Hr by lia. destruct Hr as [-> Hr]. msimpl. exists s1, (tu_data (read_bit t p c)).
    split; [rewrite Hw; do 2 f_equal; simpl; do 3 f_equal; lia |]. split; [done |].
    intros k. rewrite Hput. destruct (decide (k = p)), (decide (p <= k < n)%nat); try lia; [| done]. subst k. by rewrite Nat.sub_diag, Nat.add_0_r.
  - rewrite decide_False in Hr by lia. destruct Hr as [-> R1].
    destruct (IH _ _ _ _ _ _ R1) as (s2 & data & E2 & R2 & H2); [lia |].
    cbn [tmcuart_events] in E2. rewrite (bind_ok _ _ _ _ _ E2). msimpl. exists s2, data. split; [| split; [done |]].
    + rewrite Hw. do 2 f_equal. cbn [seq fmap list_fmap]. rewrite <- fmap_S_seq, <- list_fmap_compose. simpl.
      f_equal; [do 2 f_equal; lia |]. f_equal; [| do 3 f_equal; lia]. apply list_fmap_ext. intros _ j _. simpl. do 2 f_equal. lia.
    + intros k. rewrite H2. simpl tu_rx_pin. destruct (decide (S p <= k < n)%nat), (decide (p <= k < n)%nat); try lia.
      * f_equal. lia.
      * simpl. rewrite Hput. rewrite decide_True by lia. replace k with p by lia. by rewrite Nat.sub_diag, Nat.add_0_r.
      * simpl. rewrite Hput. by rewrite decide_False by lia.
Qed.

(** The device waits for the start bit: [i] polls are done, [seen] tells that
    the line was high in one of them. *)
Record syncing s t (n i c : nat) (seen : bool) (w : Z) : Prop := {
  sy_device : device oid s (OTmcuart t) F_tmcuart_read_sync_event (u32 w);
  sy_data : length (tu_data t) = 10%nat;
  sy_count : tu_read_count t = Z.of_nat n;
  sy_pos : tu_pos t = Z.of_nat i;
  sy_in : (0 < n <= 80)%nat;
  sy_reads : ticks (m_hw s) = (c + i)%nat;
  sy_seen : has (tu_flags t) TU_READ_SYNC = seen;
}.

Lemma fire_sync s t n i c seen w : syncing s t n i c seen w -> tmcuart_fire oid s = tmcuart_read_sync_event oid s.
Proof.
  intros [D _ _ _ _ _ _]. destruct (device_get _ _ _ _ _ D) as (tm & E & Hf & _).
  unfold tmcuart_fire, tmcuart_timer. by rewrite (bind_ok _ _ _ _ _ E), Hf.
Qed.

(** A poll that finds no start bit. *)
Definition polled t (v : bool) (i : nat) : tmcuart :=
  (if v then t <| tu_flags ::= fun f => Z.lor f TU_READ_SYNC |> else t) <| tu_pos := Z.of_nat (S i) |>.

Lemma poll_run s t n i c seen w :
  syncing s t n i c seen w -> (i <= 64)%nat -> let v := hw_pin (c + i) (tu_rx_pin t) in
  negb v && seen = false ->
  exists s1, device oid s1 (OTmcuart (polled t v i)) F_tmcuart_read_sync_event (u32 w) /\ ticks (m_hw s1) = (c + S i)%nat
    /\ tmcuart_read_sync_event oid s =
         (if Z.of_nat i >=? 64
          then upd_tmcuart oid (fun t => t <| tu_read_count := 0 |>) ;; tmcuart_finalize oid
          else add_waketime (tmcuart_timer oid) (tu_bit_time t) ;; mret SF_RESCHEDULE) s1.
Proof.
  intros [D L C P I R S] Hi v Hv. pose proof (dv_view _ _ _ _ _ D) as V. unfold tmcuart_read_sync_event, gpio_in_read.
  rewrite (bind_ok _ _ _ _ _ (get_tmcuart_run _ _ V)). msimpl. rewrite R, P. fold v. rewrite S, Hv.
  set (s0 := s <| m_hw ::= _ |>). assert (D0 : device oid s0 (OTmcuart t) F_tmcuart_read_sync_event (u32 w)) by (by apply device_hw).
  assert (Eu : u8 (Z.of_nat i + 1) = Z.of_nat (Datatypes.S i)) by (rewrite u8_small by cint_lia; lia). rewrite Eu.
  assert (E1 : exists s1, (when v (upd_tmcuart oid (fun t => t <| tu_flags ::= fun f => Z.lor f TU_READ_SYNC |>)) ;;
     upd_tmcuart oid (fun t => t <| tu_pos := Z.of_nat (Datatypes.S i) |>)) s0 = (Ok tt, s1)
     /\ device oid s1 (OTmcuart (polled t v i)) F_tmcuart_read_sync_event (u32 w) /\ m_hw s1 = m_hw s0).
  { unfold polled. destruct v; msimpl.
    - rewrite (bind_ok _ _ _ _ _ (upd_tmcuart_run _ _ _ (dv_view _ _ _ _ _ D0))).
      erewrite upd_tmcuart_run by (eapply obj_view_put, (dv_view _ _ _ _ _ D0)). eexists. split; [reflexivity |]. split; [| done].
      by eapply device_put, device_put.
    - erewrite upd_tmcuart_run by apply (dv_view _ _ _ _ _ D0). eexists. split; [reflexivity |]. split; [| done]. by eapply device_put. }
  destruct E1 as (s1 & E1 & D1 & H1). exists s1. split; [done |]. split; [rewrite H1; simpl; rewrite R; lia |].
  rewrite <- bind_assoc. by rewrite (bind_ok _ _ _ _ _ E1).
Qed.

Lemma polled_sync t v i : has (tu_flags (polled t v i)) TU_READ_SYNC = v || has (tu_flags t) TU_READ_SYNC.
Proof. unfold polled. destruct v; simpl; [by apply has_lor_same | done]. Qed.

Lemma poll_step s t n i c seen w :
  syncing s t n i c seen w -> (i < 64)%nat -> let v := hw_pin (c + i) (tu_rx_pin t) in
  negb v && seen = false ->
  exists s', tmcuart_fire oid s = (Ok SF_RESCHEDULE, s')
    /\ syncing s' (polled t v i) n (S i) c (v || seen) (w + tu_bit_time t).
Proof.
  intros S Hi v Hv. destruct (poll_run s t n i c seen w S ltac:(lia) Hv) as (s1 & D1 & T1 & E). fold v in D1.
  rewrite (fire_sync _ _ _ _ _ _ _ S), E. destruct (Z.geb_spec (Z.of_nat i) 64); [lia |].
  destruct (device_add_wake _ _ _ _ (tu_bit_time t) D1) as (s2 & E2 & D2 & H2). unfold tmcuart_timer. rewrite (bind_ok _ _ _ _ _ E2).
  exists s2. split; [done |]. destruct S as [_ L C P I R Sn].
  split; [exact D2 | | | done | done | by rewrite H2 | rewrite polled_sync; by f_equal]; by destruct v.
Qed.

Lemma uart_events_app a b s l1 s1 l2 s2 :
  tmcuart_events a oid s = (Ok l1, s1) -> tmcuart_events b oid s1 = (Ok l2, s2) ->
  tmcuart_events (a + b) oid s = (Ok (l1 ++ l2), s2).
Proof.
  induction a as [| a IH] in s, l1 |- *; cbn [tmcuart_events Nat.add]; [by intros [= <- <-] |].
  intros (tm & s0 & E0 & H)%bind_inv E2. rewrite (bind_ok _ _ _ _ _ E0).
  apply bind_inv in H as (r & s3 & E3 & H). rewrite (bind_ok _ _ _ _ _ E3).
  apply bind_inv in H as (l & s4 & E4 & [= <- <-]). by rewrite (bind_ok _ _ _ _ _ (IH _ _ E4 E2)).
Qed.

(** The line was high before poll [i]; poll [m] finds the start bit. *)
Definition high_before t (c i : nat) : bool := existsb (fun k => hw_pin (c + k) (tu_rx_pin t)) (seq 0 i).
Definition start_bit t (c m : nat) : bool := negb (hw_pin (c + m) (tu_rx_pin t)) && high_before t c m.

Definition polls t (w : Z) (i m : nat) : list (Z * Z) :=
  (fun k => (u32 (w + Z.of_nat k * tu_bit_time t), SF_RESCHEDULE)) <$> seq i m.

Lemma polls_run s t n c w m :
  syncing s t n 0 c false w -> (m <= 64)%nat -> (forall q, (q < m)%nat -> start_bit t c q = false) ->
  exists s' t', tmcuart_events m oid s = (Ok (polls t w 0 m), s')
    /\ syncing s' t' n m c (high_before t c m) (w + Z.of_nat m * tu_bit_time t)
    /\ tu_data t' = tu_data t /\ tu_rx_pin t' = tu_rx_pin t /\ tu_bit_time t' = tu_bit_time t.
Proof.
  intros S. induction m as [| m IH]; intros Hm Hno.
  { exists s, t. split; [done |]. rewrite Z.mul_0_l, Z.add_0_r. done. }
  destruct IH as (s1 & t1 & E1 & S1 & A1 & A2 & A3); [lia | intros q Hq; apply Hno; lia |].
  destruct (poll_step s1 t1 n m c _ _ S1 ltac:(lia)) as (s2 & E2 & S2); [rewrite A2; apply (Hno m); lia |].
  rewrite A2 in S2.
  destruct (device_get _ _ _ _ _ (sy_device _ _ _ _ _ _ _ S1)) as (tm & Et & _ & Hw).
  exists s2, (polled t1 (hw_pin (c + m) (tu_rx_pin t)) m). split; [| split].
  - replace (Datatypes.S m) with (m + 1)%nat by lia. unfold polls. rewrite seq_app, fmap_app. apply (uart_events_app m 1 s _ s1 _ s2 E1).
    cbn [tmcuart_events]. unfold tmcuart_timer. rewrite (bind_ok _ _ _ _ _ Et), (bind_ok _ _ _ _ _ E2). msimpl. by rewrite Hw.
  - rewrite A3 in S2. unfold high_before. rewrite seq_S, existsb_app. simpl existsb. rewrite orb_false_r, orb_comm.
    by replace (w + Z.of_nat (Datatypes.S m) * tu_bit_time t) with (w + Z.of_nat m * tu_bit_time t + tu_bit_time t) by lia.
  - unfold polled. by destruct (hw_pin _ _).
Qed.

(** The poll that finds the start bit reads the first bit at once. *)
Lemma start_step s t n m c w d :
  syncing s t n m c true w -> hw_pin (c + m) (tu_rx_pin t) = false ->
  exists s1, tmcuart_events (S d) oid s = tmcuart_events (S d) oid s1
    /\ reading s1 (t <| tu_pos := 0 |>) n 0 (c + m + 1) w.
Proof.
  intros S Hv. pose proof S as [D L C P I R Sn]. pose proof (dv_view _ _ _ _ _ D) as V.
  destruct (device_get _ _ _ _ _ D) as (tm & Et & _ & Hw).
  set (s0 := s <| m_hw ::= upd ticks Datatypes.S |>).
  assert (D0 : device oid s0 (OTmcuart t) F_tmcuart_read_sync_event (u32 w)) by (by apply device_hw).
  pose proof (device_put oid _ _ (OTmcuart (t <| tu_pos := 0 |>)) _ _ D0) as D1.
  destruct (device_set_func _ _ _ F_tmcuart_read_event _ D1) as (s1 & E1 & D2 & H1).
  assert (R1 : reading s1 (t <| tu_pos := 0 |>) n 0 (c + m + 1) w).
  { split; try done. rewrite H1. simpl. rewrite R. lia. }
  exists s1. split; [| done].
  assert (Ef : tmcuart_fire oid s = tmcuart_fire oid s1).
  { rewrite (fire_sync _ _ _ _ _ _ _ S), (fire_read _ _ _ _ _ _ R1). unfold tmcuart_read_sync_event, gpio_in_read.
    rewrite (bind_ok _ _ _ _ _ (get_tmcuart_run _ _ V)). msimpl. rewrite R, Hv, Sn. cbn [negb andb]. fold s0.
    rewrite (bind_ok _ _ _ _ _ (upd_tmcuart_run _ _ _ (dv_view _ _ _ _ _ D0))). unfold tmcuart_timer. by rewrite (bind_ok _ _ _ _ _ E1). }
  destruct (device_get _ _ _ _ _ D2) as (tm1 & Et1 & _ & Hw1).
  cbn [tmcuart_events]. unfold tmcuart_timer. rewrite (bind_ok _ _ _ _ _ Et), (bind_ok _ _ _ _ _ Et1), Hw, Hw1.
  unfold mbind, M_bind. by rewrite Ef.
Qed.

(** Reception.  Waiting for a reply of [n] bits, the device polls the line
    once per bit time.  If the first falling edge is found by poll [m], within
    64 polls, the buffer holds the next [n] readings, least significant bit
    first, one bit time apart, and the report is requested; without a falling
    edge in 65 polls it gives up and reports an empty reply. *)
Theorem tmcuart_receive s t n c w :
  syncing s t n 0 c false w ->
  (forall m, (m <= 64)%nat -> start_bit t c m = true -> (forall q, (q < m)%nat -> start_bit t c q = false) ->
     exists s' l data, tmcuart_events (m + n) oid s = (Ok (l ++ [(u32 (w + Z.of_nat (m + n - 1) * tu_bit_time t), SF_DONE)]), s')
       /\ reported s' data n /\ forall k, (k < n)%nat -> data_bit data k = hw_pin (c + m + 1 + k) (tu_rx_pin t))
  /\ ((forall m, (m <= 64)%nat -> start_bit t c m = false) ->
     exists s' l, tmcuart_events 65 oid s = (Ok (l ++ [(u32 (w + 64 * tu_bit_time t), SF_DONE)]), s') /\ reported s' (tu_data t) 0).
Proof.
  intros S. split.
  - intros m Hm Hst Hno. destruct (polls_run s t n c w m S Hm Hno) as (s1 & t1 & E1 & S1 & A1 & A2 & A3).
    unfold start_bit in Hst. apply andb_prop in Hst as [Hv%negb_true_iff Hh]. rewrite Hh in S1.
    pose proof (sy_in _ _ _ _ _ _ _ S) as Hn. destruct n as [| d]; [lia |].
    destruct (start_step _ _ _ _ _ _ d S1) as (s2 & E2 & R2); [by rewrite A2 |].
    destruct (read_run d _ _ _ _ _ _ R2) as (s3 & data & E3 & R3 & H3); [lia |]. rewrite <- E2 in E3.
    eexists s3, _, data. split; [| split; [done |]].
    + rewrite (uart_events_app _ _ _ _ _ _ _ E1 E3), app_assoc. replace (m + Datatypes.S d - 1)%nat with (m + d)%nat by lia.
      rewrite Nat2Z.inj_add, Z.mul_add_distr_r, Z.add_assoc. change (tu_bit_time (t1 <| tu_pos := 0 |>)) with (tu_bit_time t1). by rewrite A3.
    + intros k Hk. rewrite H3, decide_True by lia. simpl. rewrite A2, Nat.sub_0_r. done.
  - intros Hno. destruct (polls_run s t n c w 64 S ltac:(lia)) as (s1 & t1 & E1 & S1 & A1 & A2 & A3); [intros q Hq; apply Hno; lia |].
    destruct (poll_run s1 t1 n 64 c _ _ S1 ltac:(lia)) as (s2 & D2 & _ & E2); [rewrite A2; by apply (Hno 64%nat) |].
    destruct (device_get _ _ _ _ _ (sy_device _ _ _ _ _ _ _ S1)) as (tm & Et & _ & Hw).
    pose proof (device_put oid _ _ (OTmcuart ((polled t1 (hw_pin (c + 64) (tu_rx_pin t1)) 64) <| tu_read_count := 0 |>)) _ _ D2) as D3.
    destruct (finalize_run _ _ _ _ D3) as (s4 & E4 & R4). exists s4, (polls t w 0 64). split.
    + apply (uart_events_app 64 1 s _ s1 _ s4 E1). cbn [tmcuart_events]. unfold tmcuart_timer. rewrite (bind_ok _ _ _ _ _ Et).
      assert (Ef : tmcuart_fire oid s1 = (Ok SF_DONE, s4)).
      { rewrite (fire_sync _ _ _ _ _ _ _ S1), E2. change (Z.of_nat 64 >=? 64) with true. cbv iota.
        by rewrite (bind_ok _ _ _ _ _ (upd_tmcuart_run _ _ _ (dv_view _ _ _ _ _ D2))). }
      rewrite (bind_ok _ _ _ _ _ Ef). msimpl. by rewrite Hw.
    + replace (tu_data t) with (tu_data (polled t1 (hw_pin (c + 64) (tu_rx_pin t1)) 64)) by (unfold polled; by destruct (hw_pin _ _)).
      by apply R4.
Qed.
End Sending.

(** ** Concrete runs *)

Definition demo_uart (flags pos read_count : Z) : tmcuart :=
  mk_tmcuart 5 6 flags pos read_count 16 1000 1000 (0x0a :: 0x3c :: replicate 8 0).

Definition demo_uart_state (f : tfunc) (t : tmcuart) : mcu :=
  initial_mcu <| m_base ::= fun b => b <| oids := Some [mk_oid (Some T_tmcuart) (Some (OTmcuart t))] |> <| oid_count := 1 |> |>
    <| m_sched ::= upd timers (insert (ObjTimer 0 0) (mk_timer None (Some f) 50000)) |>.

Lemma demo_uart_device f t : device 0 (demo_uart_state f t) (OTmcuart t) f (u32 50000).
Proof. split; [done |]. eexists. split; [apply lookup_insert_eq |]. done. Qed.


Lemma tmcuart_receive_witness :
  exists s' data l, tmcuart_events (B := demo_board) 9 0 (demo_uart_state F_tmcuart_read_sync_event (demo_uart 3 0 8))
      = (Ok (l ++ [(58000, SF_DONE)]), s') /\ reported 0 s' data 8
    /\ (fun k => data_bit data k) <$> seq 0 8 = [true; false; true; false; true; false; true; false].
Proof.
  destruct (tmcuart_receive (B := demo_board) 0 (demo_uart_state F_tmcuart_read_sync_event (demo_uart 3 0 8)) (demo_uart 3 0 8) 8 0 50000)
    as [H _].
  - split; [apply demo_uart_device | done | done | done | lia | done | done].
  - destruct (H 1%nat) as (s' & l & data & E & R & D); [lia | done | |].
    + intros q Hq. by replace q with 0%nat by lia.
    + exists s', data, l. split; [exact E |]. split; [exact R |]. cbn [seq fmap list_fmap].
      rewrite !D by lia. done.
Defined.
