(* ===== verification/Fancheck.v ===== *)
(** * Fancheck: measuring the speed of fans

    Models [src/src/fan_check.c]: the tachometer lines of up to five fans are
    sampled from a periodic timer, and the speed is computed from the average
    width of the pulses in a buffer of 120 samples.  The buffers are the static
    array [fc_status], shared by all configured objects. *)

From S2P Require Import Prelude Wire State Command Sched Basecmd Stepper Double.
Import Encode.

Definition USR_EXTRAS_FAN_MAX_SPEED_RPM : Z := 12000.
Definition USR_EXTRAS_FAN_CHECK_PERIOD_PREDIV : Z := 2.
Definition USR_EXTRAS_FAN_CHECK_CNT_LIMIT : Z := Z.shiftl 1 USR_EXTRAS_FAN_CHECK_PERIOD_PREDIV * 30.
Definition USR_EXTRAS_FAN_START : Z := 1.
Definition USR_EXTRAS_FAN_MAX : nat := 5.

(** ** Pulse width *)

Definition pb (pbuff : list Z) (i : Z) : res Z :=
  match pbuff !! Z.to_nat i with Some v => Ok v | None => Fault "pbuff[]" end.

(** [for(i = from; i < len; i++) if(pbuff[i] != v) ...; break;]: the index of
    the break, or [dflt]. *)
Fixpoint scan_up (fuel : nat) (pbuff : list Z) (i len v dflt : Z) : res Z :=
  match fuel with
  | O => OutOfFuel
  | S fuel =>
      if i <? len
      then x ← pb pbuff i; if negb (x =? v) then Ok i else scan_up fuel pbuff (i + 1) len v dflt
      else Ok dflt
  end.

(** [for(i = from; i > 0; i--) if(pbuff[i] != v) ...; break;]. *)
Fixpoint scan_down (fuel : nat) (pbuff : list Z) (i v dflt : Z) : res Z :=
  match fuel with
  | O => OutOfFuel
  | S fuel =>
      if 0 <? i
      then x ← pb pbuff i; if negb (x =? v) then Ok i else scan_down fuel pbuff (i - 1) v dflt
      else Ok dflt
  end.

(** The loop over the window: [sum] and [pulse_cnt]. *)
Fixpoint count_pulses (fuel : nat) (pbuff : list Z) (i last oldval sum pulse_cnt : Z) : res (Z * Z) :=
  match fuel with
  | O => OutOfFuel
  | S fuel =>
      if i <? last + 1
      then
        x ← pb pbuff i;
        let sum := u8 (sum + x) in
        if negb (x =? oldval) then count_pulses fuel pbuff (i + 1) last x sum (u8 (pulse_cnt + 1))
        else count_pulses fuel pbuff (i + 1) last oldval sum pulse_cnt
      else Ok (sum, pulse_cnt)
  end.

(** [fancheck_cal_pulse]; the loops have at most [len] turns ([len] is at most
    127, so that the counters of type [int8_t] do not wrap). *)
Definition fancheck_cal_pulse (pbuff : list Z) (len : Z) : res Z :=
  let fuel := S (Z.to_nat len) in
  if len <? 3 then Ok 0
  else
    first ← pb pbuff 0;
    lowindex ← scan_up fuel pbuff 1 len first (len - 1);
    if lowindex >=? len - 1 then Ok 0
    else
      last ← pb pbuff (len - 1);
      highindex ← scan_down fuel pbuff (len - 2) last 0;
      if highindex <=? 1 then Ok 0
      else
        lv ← pb pbuff lowindex;
        hv ← pb pbuff highindex;
        highindex ← (if lv =? hv then scan_down fuel pbuff (highindex - 1) hv highindex else Ok highindex);
        if highindex <? lowindex + 4 then Ok 0
        else
          let filter_max := u8 (Z.shiftr ((highindex - lowindex + 1) * 3) 2) in
          let filter_min := u8 (Z.shiftr (highindex - lowindex + 1) 2) in
          '(sum, pulse_cnt) ← count_pulses fuel pbuff lowindex highindex lv 0 0;
          if (sum <? filter_min) || (sum >? filter_max) then Ok 0
          else
            let pulse_cnt := u8 (Z.shiftr (pulse_cnt + 1) 1) in
            if pulse_cnt =? 0 then Fault "division by zero" else Ok (u8 (sum / pulse_cnt)).

Section WithBoard.
Context `{B : Board}.

Definition USR_EXTRAS_FAN_MIN_PULSE_WIDTH : Z := CONFIG_CLOCK_FREQ / (USR_EXTRAS_FAN_MAX_SPEED_RPM / 60 * 4).
Definition USR_EXTRAS_FAN_CHECK_PERIOD : Z := Z.shiftr USR_EXTRAS_FAN_MIN_PULSE_WIDTH USR_EXTRAS_FAN_CHECK_PERIOD_PREDIV.

(** The speed of a pulse width, computed in [double] and cut off. *)
Definition pulse_speed (pulse_cnt : Z) : res Z :=
  d_to_range 0 (2 ^ 32 - 1)
    (dmul (ddiv (d_of_Z CONFIG_CLOCK_FREQ)
                (dmul (d_of_Z (pulse_cnt * USR_EXTRAS_FAN_CHECK_PERIOD)) (d_of_Z 4)))
          (d_of_Z 60)).

Definition get_fancheck (oid : Z) : FW fancheck :=
  o ← obj_get oid;
  match o with OFancheck f => mret f | _ => fault "struct fancheck" end.

Definition upd_fancheck (oid : Z) (f : fancheck -> fancheck) : FW unit :=
  c ← get_fancheck oid; obj_put oid (OFancheck (f c)).

Definition fancheck_timer (oid : Z) : tptr := ObjTimer oid 0.

(** [fc->status[i]]. *)
Definition get_status (i : nat) : FW fancheck_status :=
  st ← gets fc_status; deref "fc_status[]" (st !! i).
Definition upd_status (i : nat) (f : fancheck_status -> fancheck_status) : FW unit :=
  _ ← get_status i; modify (fun s => s <| fc_status ::= alter f i |>).

Definition fancheck_cal_speed (i : nat) : FW unit :=
  fs ← get_status i;
  pulse_cnt ← lift_res (fancheck_cal_pulse (check_sample fs) USR_EXTRAS_FAN_CHECK_CNT_LIMIT);
  speed ← (if truth pulse_cnt then lift_res (pulse_speed pulse_cnt) else mret 0);
  upd_status i (fun fs => fs <| fs_speed := speed |>).

(** ** Timer and commands *)

Definition fancheck_period_event (oid : Z) : FW Z :=
  c ← get_fancheck oid;
  add_waketime (fancheck_timer oid) (fc_period_ticks c) ;;
  sched_wake_task W_fancheck ;;
  mret (if has (fc_flags c) USR_EXTRAS_FAN_START then SF_RESCHEDULE else SF_DONE).

(** [for(i = 1; i < args[1] + 1; i++)]. *)
Fixpoint setup_fans (n : nat) (i : nat) (oid : Z) (args : list Z) : FW unit :=
  match n with
  | O => mret tt
  | S n =>
      a ← arg args (2 * i);
      b ← arg args (2 * i + 1);
      pin ← gpio_in_setup a (b2z (truth b));
      upd_fancheck oid (fun c => c <| fc_fan ::= <[(i - 1)%nat := pin]> |>) ;;
      setup_fans n (S i) oid args
  end.

Definition command_config_fancheck (args : list Z) : FW unit :=
  a0 ← arg args 0;
  oid ← oid_alloc a0 T_fancheck (sizeof_obj T_fancheck);
  set_func (fancheck_timer oid) F_fancheck_period_event ;;
  a1 ← arg args 1;
  if a1 >? Z.of_nat USR_EXTRAS_FAN_MAX then shutdown "The fan number is more than USR_EXTRAS_FAN_MAX"
  else
    setup_fans (Z.to_nat a1) 1 oid args ;;
    upd_fancheck oid (fun c => c <| fc_period_ticks := USR_EXTRAS_FAN_CHECK_PERIOD |>
      <| fc_check_indx := 0 |> <| fc_flags := 0 |>).

Definition command_query_fancheck (args : list Z) : FW unit :=
  a0 ← arg args 0;
  oid ← oid_lookup a0 T_fancheck;
  sched_del_timer (fancheck_timer oid) ;;
  a1 ← arg args 1;
  upd_fancheck oid (fun c => c <| fc_flags := u8 (Z.shiftl a1 1) |>) ;;
  c ← get_fancheck oid;
  if negb (truth (fc_flags c)) || has (fc_flags c) 0xC1 then shutdown "args[1] is invalid"
  else
    upd_fancheck oid (fun c => c <| fc_flags ::= fun f => Z.lor f USR_EXTRAS_FAN_START |>) ;;
    now ← timer_read_time;
    set_waketime (fancheck_timer oid) (u32 (now + timer_from_us 500)) ;;
    sched_add_timer (fancheck_timer oid).

(** ** The task *)

Definition fan_on (c : fancheck) (i : nat) : bool := has (Z.shiftr (fc_flags c) (Z.of_nat i + 1)) 1.

(** One sample of every fan ([n] fans left, from [i] on). *)
Fixpoint take_samples (n i : nat) (c : fancheck) : FW unit :=
  match n with
  | O => mret tt
  | S n =>
      temp ← (if fan_on c i
              then pin ← deref "fan[]" (fc_fan c !! i); gpio_in_read pin
              else mret false);
      upd_status i (fun fs => fs <| check_sample ::= <[Z.to_nat (fc_check_indx c) := b2z temp]> |>) ;;
      take_samples n (S i) c
  end.

Fixpoint cal_speeds (n i : nat) (c : fancheck) : FW unit :=
  match n with
  | O => mret tt
  | S n =>
      (if fan_on c i then fancheck_cal_speed i else upd_status i (fun fs => fs <| fs_speed := 0 |>)) ;;
      cal_speeds n (S i) c
  end.

(** The loops that clear the buffers and the fan bits. *)
Fixpoint clear_status (n j : nat) (oid : Z) : FW unit :=
  match n with
  | O => mret tt
  | S n =>
      upd_status j (fun fs => mk_fancheck_status (replicate (Z.to_nat USR_EXTRAS_FAN_CHECK_CNT_LIMIT) 0) 0) ;;
      upd_fancheck oid (fun c => c <| fc_flags ::= fun f => clr f (Z.shiftl 1 (Z.of_nat j + 1)) |>) ;;
      clear_status n (S j) oid
  end.

Definition speeds : FW (list varg) := gets (fun s => (fun fs => VInt (fs_speed fs)) <$> fc_status s).

Definition fancheck_task_one (oid : Z) : FW unit :=
  c ← get_fancheck oid;
  if fc_check_indx c <? USR_EXTRAS_FAN_CHECK_CNT_LIMIT
  then
    take_samples USR_EXTRAS_FAN_MAX 0 c ;;
    upd_fancheck oid (fun c => c <| fc_check_indx ::= fun i => u8 (i + 1) |>)
  else
    upd_fancheck oid (fun c => c <| fc_flags ::= fun f => clr f USR_EXTRAS_FAN_START |>) ;;
    cal_speeds USR_EXTRAS_FAN_MAX 0 c ;;
    v ← speeds;
    sendf "fan_status oid=%c fan0_speed=%u fan1_speed=%u fan2_speed=%u fan3_speed=%u fan4_speed=%u" (VInt oid :: v) ;;
    clear_status USR_EXTRAS_FAN_MAX 0 oid ;;
    upd_fancheck oid (fun c => c <| fc_check_indx := 0 |>).

Definition fancheck_task : FW unit :=
  w ← sched_check_wake W_fancheck;
  when w (foreach_oid T_fancheck fancheck_task_one).

Definition fancheck_shutdown_one (oid : Z) : FW unit :=
  upd_fancheck oid (fun c => c <| fc_check_indx := 0 |> <| fc_period_ticks := 0 |> <| fc_flags := 0 |>) ;;
  clear_status USR_EXTRAS_FAN_MAX 0 oid.

Definition fancheck_shutdown : FW unit := foreach_oid T_fancheck fancheck_shutdown_one.

End WithBoard.

(** ** The pulse width of a square wave *)

(** A square wave of half period [w], sampled from the phase [ph] on. *)
Definition square (w ph : Z) (n : nat) : list Z :=
  (fun i => b2z (Z.odd ((Z.of_nat i + ph) / w))) <$> seq 0 n.

(** Only the phase within a period matters. *)
Lemma square_phase w ph n : 0 < w -> square w ph n = square w (ph mod (2 * w)) n.
Proof.
  intros Hw. unfold square. apply list_fmap_ext. intros _ i _. f_equal.
  rewrite (Z.div_mod ph (2 * w)) at 1 by lia.
  replace (Z.of_nat i + (2 * w * (ph / (2 * w)) + ph mod (2 * w)))
    with (Z.of_nat i + ph mod (2 * w) + 2 * (ph / (2 * w)) * w) by lia.
  rewrite Z.div_add by lia. by rewrite Z.odd_add_mul_2.
Qed.

(** The measurement is exact.  For a fan that gives a steady square wave of
    half period [w], for every width up to 39 samples and whatever its phase
    when the measurement begins, the pulse width computed from the 120 samples
    is [w]. *)
Theorem fancheck_pulse_exact w ph :
  1 <= w <= 39 -> fancheck_cal_pulse (square w ph 120) USR_EXTRAS_FAN_CHECK_CNT_LIMIT = Ok w.
Proof.
  intros Hw. rewrite square_phase by lia.
  assert (H : forallb (fun w => forallb (fun ph =>
    match fancheck_cal_pulse (square w ph 120) USR_EXTRAS_FAN_CHECK_CNT_LIMIT with Ok r => r =? w | _ => false end)
    (seqZ 0 (2 * w))) (seqZ 1 39) = true) by (vm_compute; reflexivity).
  rewrite forallb_forall in H. specialize (H w). rewrite <- list_elem_of_In, elem_of_seqZ, forallb_forall in H.
  specialize (H ltac:(lia) (ph mod (2 * w))). rewrite <- list_elem_of_In, elem_of_seqZ in H.
  specialize (H ltac:(pose proof (Z.mod_pos_bound ph (2 * w)); lia)).
  destruct (fancheck_cal_pulse _ _); try done. by apply Z.eqb_eq in H as ->.
Qed.

Lemma fancheck_pulse_exact_witness : fancheck_cal_pulse (square 7 100 120) USR_EXTRAS_FAN_CHECK_CNT_LIMIT = Ok 7.
Proof. apply (fancheck_pulse_exact 7 100). lia. Defined.

(** ** Any samples *)

Section Safe.
Context (l : list Z).
Hypothesis Hbits : Forall (fun x => x = 0 \/ x = 1) l.
Hypothesis Hlen : Z.of_nat (length l) <= 127.

(** [pbuff[i]] inside the buffer. *)
Definition sample (i : Z) : Z := l !!! Z.to_nat i.

Lemma pb_run i : 0 <= i < Z.of_nat (length l) -> pb l i = Ok (sample i).
Proof. intros Hi. unfold pb, sample. by rewrite (list_lookup_lookup_total_lt l (Z.to_nat i)) by lia. Qed.

Lemma sample_bit i : 0 <= i < Z.of_nat (length l) -> sample i = 0 \/ sample i = 1.
Proof.
  intros Hi. rewrite Forall_lookup in Hbits. apply (Hbits (Z.to_nat i)).
  unfold sample. apply list_lookup_lookup_total_lt. lia.
Qed.

Lemma scan_up_ends fuel i len v dflt :
  0 <= i -> len <= Z.of_nat (length l) -> 0 < Z.of_nat fuel -> len - i < Z.of_nat fuel ->
  exists r, scan_up fuel l i len v dflt = Ok r /\ (i <= r < len \/ r = dflt).
Proof.
  induction fuel as [| fuel IH] in i |- *; intros Hi Hl Hf0 Hf; [lia |]. cbn [scan_up].
  destruct (Z.ltb_spec i len); [| exists dflt; auto].
  rewrite pb_run by lia. cbn [mbind res_bind]. destruct (negb _); [exists i; split; [done | lia] |].
  destruct (IH (i + 1)) as (r & E & Hr); [lia.. |]. exists r. split; [done | lia].
Qed.

Lemma scan_down_ends fuel i v dflt :
  i < Z.of_nat (length l) -> 0 < Z.of_nat fuel -> i < Z.of_nat fuel ->
  exists r, scan_down fuel l i v dflt = Ok r
    /\ ((0 < r <= i /\ sample r <> v) \/ (r = dflt /\ forall j, 0 < j <= i -> sample j = v)).
Proof.
  induction fuel as [| fuel IH] in i |- *; intros Hl Hf0 Hf; [lia |]. cbn [scan_down].
  destruct (Z.ltb_spec 0 i); [| exists dflt; split; [done |]; right; split; [done | lia]].
  rewrite pb_run by lia. cbn [mbind res_bind]. destruct (Z.eqb_spec (sample i) v) as [Ev | Ev]; cbn [negb].
  2: { exists i. split; [done |]. left. split; [lia | done]. }
  destruct (decide (i = 1)) as [-> |].
  { destruct fuel; [lia |]. exists dflt. split; [done |]. right. split; [done |]. intros j Hj. by replace j with 1 by lia. }
  destruct (IH (i - 1)) as (r & E & [Hr | [-> Hr]]); [lia.. | exists r; split; [done | left; split; [lia | tauto]] |].
  exists dflt. split; [done |]. right. split; [done |]. intros j Hj. destruct (decide (j = i)) as [-> |]; [done | apply Hr; lia].
Qed.

(** The window has a change of level, or is all of one level. *)
Lemma count_pulses_ends fuel i last old sum cnt :
  0 <= i <= last + 1 -> last < Z.of_nat (length l) -> last + 1 - i < Z.of_nat fuel ->
  old = 0 \/ old = 1 -> 0 <= sum <= i -> 0 <= cnt <= i ->
  exists sum' cnt', count_pulses fuel l i last old sum cnt = Ok (sum', cnt')
    /\ sum <= sum' <= sum + (last + 1 - i) /\ cnt <= cnt' <= last + 1
    /\ (cnt < cnt' \/ (sum' = sum + old * (last + 1 - i) /\ forall j, i <= j <= last -> sample j = old)).
Proof.
  induction fuel as [| fuel IH] in i, old, sum, cnt |- *; intros Hi Hl Hf Ho Hs Hc; [lia |]. cbn [count_pulses].
  destruct (Z.ltb_spec i (last + 1)).
  2: { exists sum, cnt. split; [done |]. split; [lia |]. split; [lia |]. right. split; [nia | lia]. }
  rewrite pb_run by lia. cbn [mbind res_bind]. destruct (sample_bit i) as [Hb | Hb]; [lia | |].
  all: rewrite (u8_small (sum + sample i)) by cint_lia.
  all: destruct (Z.eqb_spec (sample i) old) as [Ev | Ev]; cbn [negb].
  1, 3: destruct (IH (i + 1) old (sum + sample i) cnt) as (s' & c' & E & H1 & H2 & H3); [lia.. |];
    exists s', c'; (split; [done |]); (split; [lia |]); (split; [lia |]);
    (destruct H3 as [H3 | [H3 H4]]; [by left | right]); (split; [nia |]); intros j Hj;
    destruct (decide (j = i)) as [-> |]; [done | apply H4; lia].
  all: rewrite (u8_small (cnt + 1)) by cint_lia;
    destruct (IH (i + 1) (sample i) (sum + sample i) (cnt + 1)) as (s' & c' & E & H1 & H2 & _); [lia.. |];
    exists s', c'; (split; [done |]); (split; [lia |]); (split; [lia |]); left; lia.
Qed.

(** C38: the computation is safe.  Whatever the samples, every access stays in
    the buffer, every loop ends, the division is never by zero, and the width
    is at most the number of samples. *)
Theorem fancheck_cal_pulse_safe :
  exists r, fancheck_cal_pulse l (Z.of_nat (length l)) = Ok r /\ 0 <= r <= Z.of_nat (length l).
Proof.
  set (len := Z.of_nat (length l)). unfold fancheck_cal_pulse. cbv zeta.
  destruct (Z.ltb_spec len 3); [exists 0; split; [done | lia] |].
  assert (Hz : exists r, (Ok 0 : res Z) = Ok r /\ 0 <= r <= len) by (exists 0; split; [done | lia]).
  rewrite (pb_run 0) by lia. cbn [mbind res_bind].
  destruct (scan_up_ends (S (Z.to_nat len)) 1 len (sample 0) (len - 1)) as (low & -> & Hlow); [lia.. |]. cbn [mbind res_bind].
  destruct (Z.geb_spec low (len - 1)); [done |]. rewrite (pb_run (len - 1)) by lia. cbn [mbind res_bind].
  destruct (scan_down_ends (S (Z.to_nat len)) (len - 2) (sample (len - 1)) 0) as (high & -> & Hhigh); [lia.. |]. cbn [mbind res_bind].
  destruct (Z.leb_spec high 1); [done |]. rewrite (pb_run low), (pb_run high) by lia. cbn [mbind res_bind].
  assert (Hh : exists high', (if sample low =? sample high then scan_down (S (Z.to_nat len)) l (high - 1) (sample high) high else Ok high) = Ok high'
    /\ 0 < high' < len).
  { destruct (sample low =? sample high); [| exists high; split; [done | lia]].
    destruct (scan_down_ends (S (Z.to_nat len)) (high - 1) (sample high) high) as (h & -> & [[Hr _] | [-> _]]); [lia.. | |];
      eexists; (split; [done | lia]). }
  destruct Hh as (high' & -> & Hr). cbn [mbind res_bind]. destruct (Z.ltb_spec high' (low + 4)); [done |].
  destruct (count_pulses_ends (S (Z.to_nat len)) low high' (sample low) 0 0) as (sum & cnt & -> & Hs & Hc & Hor);
    [lia.. | apply sample_bit; lia | lia | lia |]. cbn [mbind res_bind].
  assert (E2 : Z.shiftr (high' - low + 1) 2 = (high' - low + 1) / 4) by (by rewrite Z.shiftr_div_pow2).
  assert (E3 : Z.shiftr ((high' - low + 1) * 3) 2 = ((high' - low + 1) * 3) / 4) by (by rewrite Z.shiftr_div_pow2).
  assert (E1 : Z.shiftr (cnt + 1) 1 = (cnt + 1) / 2) by (by rewrite Z.shiftr_div_pow2).
  rewrite E1, E2, E3, !u8_small by (unfold is_u8; split; [apply Z.div_pos; lia | apply Z.div_lt_upper_bound; lia]).
  destruct (Z.ltb_spec sum ((high' - low + 1) / 4)); [done |]. cbn [orb].
  destruct (Z.gtb_spec sum ((high' - low + 1) * 3 / 4)); [done |].
  destruct Hor as [Hgt | [Hsum _]].
  - assert (1 <= (cnt + 1) / 2) by (apply Z.div_le_lower_bound; lia).
    destruct (Z.eqb_spec ((cnt + 1) / 2) 0); [lia |].
    assert (0 <= sum / ((cnt + 1) / 2) <= sum) by (split; [apply Z.div_pos; lia | apply Z.div_le_upper_bound; nia]).
    eexists. split; [done |]. rewrite u8_small by cint_lia. lia.
  - exfalso. assert (1 <= (high' - low + 1) / 4) by (apply Z.div_le_lower_bound; lia).
    assert ((high' - low + 1) * 3 / 4 < high' - low + 1) by (apply Z.div_lt_upper_bound; lia).
    destruct (sample_bit low) as [Hb | Hb]; [lia | |]; rewrite Hb in Hsum; lia.
Qed.
End Safe.

Lemma fancheck_cal_pulse_safe_witness :
  exists r, fancheck_cal_pulse (replicate 60 1 ++ [0; 1; 0; 0; 1]) 65 = Ok r /\ 0 <= r <= 65.
Proof.
  apply (fancheck_cal_pulse_safe (replicate 60 1 ++ [0; 1; 0; 0; 1])); [| done].
  repeat first [left; done | right; done | constructor].
Defined.

(** ** A measurement after a shutdown *)
Section Stuck.
Context `{B : Board} (oid : Z).
Implicit Types s : mcu.

(** The fan object is there, with a period of zero. *)
Definition no_period s : Prop := exists c, obj_view s oid = Some (OFancheck c) /\ fc_period_ticks c = 0.

Lemma get_fancheck_run c s : obj_view s oid = Some (OFancheck c) -> get_fancheck oid s = (Ok c, s).
Proof. intros H. unfold get_fancheck. by rewrite (bind_ok _ _ _ _ _ (obj_get_run _ _ _ H)). Qed.

Lemma upd_fancheck_run f c s :
  obj_view s oid = Some (OFancheck c) -> upd_fancheck oid f s = (Ok tt, put_obj oid (OFancheck (f c)) s).
Proof. intros H. unfold upd_fancheck. by rewrite (bind_ok _ _ _ _ _ (get_fancheck_run _ _ H)). Qed.

Lemma upd_fancheck_period f :
  (forall c, fc_period_ticks (f c) = fc_period_ticks c) -> preserves no_period (upd_fancheck oid f) (fun _ => True).
Proof.
  intros Hf s (c & V & P). rewrite (upd_fancheck_run f c s V). split; [| done].
  exists (f c). split; [by eapply obj_view_put | by rewrite Hf].
Qed.

Lemma clear_status_period n j : preserves no_period (clear_status n j oid) (fun _ => True).
Proof.
  induction n as [| n IH] in j |- *; cbn [clear_status]; [by apply preserves_ret |].
  apply (preserves_bind _ (fun _ => True)).
  { intros s H. unfold upd_status, get_status. msimpl. by destruct (fc_status s !! j). }
  intros _ _. apply (preserves_bind _ (fun _ => True)); [by apply upd_fancheck_period | intros _ _; apply IH].
Qed.

Lemma shutdown_no_period s s' c :
  obj_view s oid = Some (OFancheck c) -> fancheck_shutdown_one oid s = (Ok tt, s') -> no_period s'.
Proof.
  intros V. unfold fancheck_shutdown_one. rewrite (bind_ok _ _ _ _ _ (upd_fancheck_run _ _ _ V)). intros E.
  replace s' with (clear_status USR_EXTRAS_FAN_MAX 0 oid (put_obj oid (OFancheck
    (c <| fc_check_indx := 0 |> <| fc_period_ticks := 0 |> <| fc_flags := 0 |>)) s)).2 by (by rewrite E).
  apply clear_status_period. eexists. split; [by eapply obj_view_put | done].
Qed.

(** What the query leaves: the measurement is on, the period as it was. *)
Lemma query_starts which s s' :
  is_u8 oid -> no_period s -> command_query_fancheck [oid; which] s = (Ok tt, s') ->
  exists c, obj_view s' oid = Some (OFancheck c) /\ fc_period_ticks c = 0 /\ has (fc_flags c) USR_EXTRAS_FAN_START = true.
Proof.
  intros Ho (c & V & P). unfold command_query_fancheck. unfold arg. cbn [lookup list_lookup]. msimpl.
  intros (o & s1 & E1 & H)%bind_inv.
  apply oid_lookup_inv in E1 as [-> ->]. rewrite (u8_small oid) in H by done.
  apply bind_inv in H as ([] & s2 & E2 & H).
  assert (V2 : obj_view s2 oid = Some (OFancheck c)).
  { rewrite <- V. revert E2. apply (keeps_run (fun s => obj_view s oid)). by apply sched_del_timer_keeps. }
  revert H. msimpl. rewrite (bind_ok _ _ _ _ _ (upd_fancheck_run _ _ _ V2)).
  erewrite bind_ok by (eapply get_fancheck_run, obj_view_put; exact V2).
  case_match; [done |]. erewrite bind_ok by (eapply upd_fancheck_run, obj_view_put; exact V2).
  intros E3. match type of E3 with ?m ?s3 = _ => assert (K : obj_view s' oid = obj_view s3 oid) end.
  { revert E3. apply (keeps_run (fun s => obj_view s oid)).
    apply keeps_bind; [unfold timer_read_time; keeps_tac | intros now].
    apply keeps_bind; [by apply tm_upd_keeps | intros _; apply sched_add_timer_keeps; auto with keeps]. }
  rewrite K. eexists. split; [eapply obj_view_put, obj_view_put; exact V2 |]. split; [exact P |]. by apply has_lor_same.
Qed.

End Stuck.

(** A fan being measured when the board shuts down. *)
Definition demo_fancheck : fancheck := mk_fancheck [30; 31; 0; 0; 0] 22500 17 7.
Definition demo_measured : mcu :=
  initial_mcu <| m_base ::= fun b => b <| oids := Some [mk_oid (Some T_fancheck) (Some (OFancheck demo_fancheck))] |> <| oid_count := 1 |> |>
    <| m_sched ::= upd timers (insert (fancheck_timer 0) (mk_timer None (Some F_fancheck_period_event) 5000)) |>.
Definition demo_stopped : mcu := (fancheck_shutdown_one 0 demo_measured).2.
Definition demo_queried : mcu := (command_query_fancheck (B := demo_board) [0; 1] demo_stopped).2.

