(* ===== verification/Buttons.v ===== *)
(** * Buttons: user interface buttons, on both sides of the link

    Models [src/src/buttons.c] and the handler of its reports on the host,
    [MCU_buttons.handle_buttons_state] of [src/klippy/extras/buttons.py].  The
    inputs are debounced from a periodic timer and every change is kept in a
    buffer of eight reports until the host acknowledges it; reports are sent
    again until then.  The protocol is proved to deliver every report once and
    in order, also when messages are lost. *)

From stdpp Require Import relations.
From S2P Require Import Prelude Wire State Command Sched Basecmd Stepper.
Import Encode.

Definition BF_NO_RETRANSMIT : Z := 0x80.
Definition BF_PENDING : Z := 0xff.
Definition BF_ACKED : Z := 0xfe.

Section WithBoard.
Context `{B : Board}.

Definition get_buttons (oid : Z) : FW buttons :=
  o ← obj_get oid;
  match o with OButtons b => mret b | _ => fault "struct buttons" end.

Definition upd_buttons (oid : Z) (f : buttons -> buttons) : FW unit :=
  b ← get_buttons oid; obj_put oid (OButtons (f b)).

Definition buttons_timer (oid : Z) : tptr := ObjTimer oid 0.

(** [for (i = 0, bit = 1; i < b->button_count; i++, bit <<= 1)]: the [status]. *)
Fixpoint read_buttons (n i : nat) (bit status : Z) (b : buttons) : FW Z :=
  match n with
  | O => mret status
  | S n =>
      pin ← deref "pins[]" (b_pins b !! i);
      val ← gpio_in_read pin;
      read_buttons n (S i) (u8 (Z.shiftl bit 1)) (if (val : bool) then Z.lor status bit else status) b
  end.

Definition buttons_event (oid : Z) : FW Z :=
  b ← get_buttons oid;
  status ← read_buttons (Z.to_nat (b_button_count b)) 0 1 0 b;
  let diff := Z.lxor status (b_pressed b) in
  when (truth diff)
    (let debounced := u8 (Z.lnot (Z.lxor status (b_last_pressed b))) in
     when (has diff debounced)
       (upd_buttons oid (fun b => b <| b_pressed ::= fun p =>
          u8 (Z.lor (Z.land p (Z.lnot debounced)) (Z.land status debounced)) |>) ;;
        b ← get_buttons oid;
        when (b_report_count b <? 8)
          (upd_buttons oid (fun b => b <| b_reports ::= <[Z.to_nat (b_report_count b) := b_pressed b]> |>
             <| b_report_count ::= fun c => u8 (c + 1) |>) ;;
           sched_wake_task W_buttons ;;
           upd_buttons oid (fun b => b <| b_retransmit_state := BF_PENDING |>)))) ;;
  upd_buttons oid (fun b => b <| b_last_pressed := status |>) ;;
  b ← get_buttons oid;
  let retransmit_state := b_retransmit_state b in
  when (negb (has retransmit_state BF_NO_RETRANSMIT))
    (let retransmit_state := u8 (retransmit_state - 1) in
     when (has retransmit_state BF_NO_RETRANSMIT) (sched_wake_task W_buttons) ;;
     upd_buttons oid (fun b => b <| b_retransmit_state := retransmit_state |>)) ;;
  b ← get_buttons oid;
  add_waketime (buttons_timer oid) (b_rest_ticks b) ;;
  mret SF_RESCHEDULE.

(** [sizeof(b->pins[0])] is the board's; the pins are part of the zeroed chunk. *)
Definition command_config_buttons (sizeof_gpio_in : Z) (args : list Z) : FW unit :=
  a1 ← arg args 1;
  let button_count := u8 a1 in
  if button_count >? 8 then shutdown "Max of 8 buttons"
  else
    a0 ← arg args 0;
    oid ← oid_alloc a0 T_buttons (sizeof_obj T_buttons + sizeof_gpio_in * button_count);
    upd_buttons oid (fun b => b <| b_pins := replicate (Z.to_nat button_count) 0 |>) ;;
    upd_buttons oid (fun b => b <| b_button_count := button_count |>) ;;
    set_func (buttons_timer oid) F_buttons_event.

Definition command_buttons_add (args : list Z) : FW unit :=
  a0 ← arg args 0;
  oid ← oid_lookup a0 T_buttons;
  a1 ← arg args 1;
  let pos := u8 a1 in
  b ← get_buttons oid;
  if pos >=? b_button_count b then shutdown "Set button past maximum button count"
  else
    a2 ← arg args 2;
    a3 ← arg args 3;
    pin ← gpio_in_setup a2 a3;
    upd_buttons oid (fun b => b <| b_pins ::= <[Z.to_nat pos := pin]> |>).

Definition command_buttons_query (args : list Z) : FW unit :=
  a0 ← arg args 0;
  oid ← oid_lookup a0 T_buttons;
  sched_del_timer (buttons_timer oid) ;;
  a1 ← arg args 1;
  set_waketime (buttons_timer oid) a1 ;;
  a2 ← arg args 2;
  a4 ← arg args 4;
  a3 ← arg args 3;
  upd_buttons oid (fun b => b <| b_rest_ticks := a2 |> <| b_pressed := u8 a4 |> <| b_last_pressed := u8 a4 |>
    <| b_ack_count := 0 |> <| b_report_count := 0 |> <| b_retransmit_state := BF_ACKED |> <| b_retransmit_count := u8 a3 |>) ;;
  b ← get_buttons oid;
  if b_retransmit_count b >=? BF_NO_RETRANSMIT then shutdown "Invalid buttons retransmit count"
  else if negb (truth (b_rest_ticks b)) then mret tt
  else _ ← sched_add_timer (buttons_timer oid); mret tt.

(** [for (i=0; i<pending; i++) b->reports[i] = b->reports[i+count];]. *)
Fixpoint shift_reports (n i count : nat) (oid : Z) : FW unit :=
  match n with
  | O => mret tt
  | S n =>
      b ← get_buttons oid;
      v ← deref "reports[]" (b_reports b !! (i + count)%nat);
      upd_buttons oid (fun b => b <| b_reports ::= <[i := v]> |>) ;;
      shift_reports n (S i) count oid
  end.

Definition command_buttons_ack (args : list Z) : FW unit :=
  a0 ← arg args 0;
  oid ← oid_lookup a0 T_buttons;
  a1 ← arg args 1;
  let count := u8 a1 in
  upd_buttons oid (fun b => b <| b_ack_count ::= fun c => u8 (c + count) |>) ;;
  b ← get_buttons oid;
  if count >=? b_report_count b
  then upd_buttons oid (fun b => b <| b_report_count := 0 |> <| b_retransmit_state := BF_ACKED |>)
  else
    let pending := u8 (b_report_count b - count) in
    shift_reports (Z.to_nat pending) 0 (Z.to_nat count) oid ;;
    upd_buttons oid (fun b => b <| b_report_count := pending |>).

Definition buttons_state_fmt : string := "buttons_state oid=%c ack_count=%c state=%*s".

(** Body of the loop of [buttons_task]. *)
Definition buttons_report (oid : Z) : FW unit :=
  b ← get_buttons oid;
  if negb (b_retransmit_state b =? BF_PENDING) then mret tt
  else
    let report_count := b_report_count b in
    if negb (truth report_count) then mret tt
    else
      upd_buttons oid (fun b => b <| b_retransmit_state := b_retransmit_count b |>) ;;
      b ← get_buttons oid;
      sendf buttons_state_fmt [VInt oid; VInt (b_ack_count b); VBuf report_count (b_reports b)].

Definition buttons_task : FW unit :=
  w ← sched_check_wake W_buttons;
  when w (foreach_oid T_buttons buttons_report).
End WithBoard.

(** ** The host *)

(** [ack_count], and the states handed to [handle_button] so far. *)
Record host_buttons := mk_host_buttons { h_ack_count : Z; h_buttons : list Z }.

(** [handle_buttons_state]: the count it acknowledges, if any. *)
Definition handle_buttons_state (h : host_buttons) (msg_ack : Z) (state : list Z) : option Z * host_buttons :=
  let ack_diff := Z.land (h_ack_count h - msg_ack) 0xff in
  let ack_diff := if has ack_diff 0x80 then ack_diff - 0x100 else ack_diff in
  let msg_ack_count := h_ack_count h - ack_diff in
  let new_count := msg_ack_count + Z.of_nat (length state) - h_ack_count h in
  if new_count <=? 0 then (None, h)
  else
    let new_buttons := drop (length state - Z.to_nat new_count) state in
    (Some new_count, mk_host_buttons (h_ack_count h + new_count) (h_buttons h ++ new_buttons)).

(** ** What the operations make of the object *)

(** The inputs that read the same twice in a row. *)
Definition steady (b : buttons) (status : Z) : Z := u8 (Z.lnot (Z.lxor status (b_last_pressed b))).

Definition changed (b : buttons) (status : Z) : bool :=
  truth (Z.lxor status (b_pressed b)) && has (Z.lxor status (b_pressed b)) (steady b status).

Definition debounced (b : buttons) (status : Z) : buttons :=
  b <| b_pressed ::= fun p => u8 (Z.lor (Z.land p (Z.lnot (steady b status))) (Z.land status (steady b status))) |>.

Definition report (b : buttons) : buttons :=
  if b_report_count b <? 8
  then b <| b_reports ::= <[Z.to_nat (b_report_count b) := b_pressed b]> |>
         <| b_report_count ::= fun c => u8 (c + 1) |> <| b_retransmit_state := BF_PENDING |>
  else b.

Definition count_down (b : buttons) : buttons :=
  if has (b_retransmit_state b) BF_NO_RETRANSMIT then b else b <| b_retransmit_state ::= fun r => u8 (r - 1) |>.

Definition sampled (b : buttons) (status : Z) : buttons :=
  count_down ((if changed b status then report (debounced b status) else b) <| b_last_pressed := status |>).

Section Object.
Context `{B : Board} (oid : Z).
Implicit Types (s : mcu) (b : buttons).

Lemma get_buttons_run b s : obj_view s oid = Some (OButtons b) -> get_buttons oid s = (Ok b, s).
Proof. intros H. unfold get_buttons. by rewrite (bind_ok _ _ _ _ _ (obj_get_run _ _ _ H)). Qed.

Lemma upd_buttons_run f b s :
  obj_view s oid = Some (OButtons b) -> upd_buttons oid f s = (Ok tt, put_obj oid (OButtons (f b)) s).
Proof. intros H. unfold upd_buttons. by rewrite (bind_ok _ _ _ _ _ (get_buttons_run _ _ H)). Qed.

Definition bturns {A} b b' (m : FW A) : Prop := turns oid (OButtons b) (OButtons b') m.

Lemma bturns_get {C} b b' (k : buttons -> FW C) : bturns b b' (k b) -> bturns b b' (get_buttons oid ≫= k).
Proof. apply turns_get. apply get_buttons_run. Qed.

Lemma bturns_upd f b b' : b' = f b -> bturns b b' (upd_buttons oid f).
Proof. intros ->. refine (turns_put oid _ _ (fun _ => OButtons (f b)) _ _ _); [apply upd_buttons_run | done]. Qed.

Lemma bturns_upd_bind {C} f b b' (k : unit -> FW C) :
  bturns (f b) b' (k tt) -> bturns b b' (upd_buttons oid f ≫= k).
Proof. intros Hk. apply (turns_bind _ _ (OButtons (f b))); [by apply bturns_upd | by intros []]. Qed.

Lemma read_buttons_keeps n i bit status b : keeps (fun s => obj_view s oid) (read_buttons n i bit status b).
Proof.
  induction n as [| n IH] in i, bit, status |- *; cbn [read_buttons]; [apply keeps_ret |].
  apply keeps_bind; [apply keeps_deref | intros pin]. apply keeps_bind; [unfold gpio_in_read; keeps_tac | intros v; apply IH].
Qed.

Lemma wake_bturns {C} w b b' (k : unit -> FW C) : bturns b b' (k tt) -> bturns b b' (sched_wake_task w ≫= k).
Proof. intros H. eapply turns_bind; [apply turns_keeps; by apply sched_wake_task_keeps | by intros []]. Qed.

Lemma buttons_event_sampled b s s' r :
  obj_view s oid = Some (OButtons b) -> buttons_event oid s = (Ok r, s') ->
  exists status s1, read_buttons (Z.to_nat (b_button_count b)) 0 1 0 b s = (Ok status, s1)
    /\ obj_view s' oid = Some (OButtons (sampled b status)).
Proof.
  intros V. unfold buttons_event. rewrite (bind_ok _ _ _ _ _ (get_buttons_run _ _ V)).
  intros (status & s1 & E1 & E2)%bind_inv. exists status, s1. split; [done |].
  assert (V1 : obj_view s1 oid = Some (OButtons b)) by (rewrite <- V; exact (keeps_run _ _ _ _ _ (read_buttons_keeps _ _ _ _ _) E1)).
  revert V1 E2. cbv zeta. set (b1 := if changed b status then report (debounced b status) else b).
  match goal with |- _ -> ?m _ = _ -> _ => enough (H : bturns b (sampled b status) m) by apply H end. unfold sampled. fold b1.
  apply (turns_bind _ _ (OButtons b1)).
  - unfold b1, changed. fold (steady b status). apply turns_when; [intros -> | by intros ->]. apply turns_when; [intros -> | by intros ->].
    apply bturns_upd_bind, bturns_get. fold (debounced b status). set (b2 := debounced b status). unfold report. simpl.
    apply turns_when; [intros -> | by intros ->]. apply bturns_upd_bind, wake_bturns. by apply bturns_upd.
  - intros _. apply bturns_upd_bind, bturns_get. set (b2 := b1 <| b_last_pressed := status |>).
    apply (turns_bind _ _ (OButtons (count_down b2))).
    + unfold count_down. apply turns_when; [intros H; destruct (has _ _); [done |] | by destruct (has _ _)].
      apply (turns_bind _ _ (OButtons b2)); [| intros _; by apply bturns_upd].
      apply turns_when; [intros _; by apply turns_keeps, sched_wake_task_keeps | done].
    + intros _. apply bturns_get. apply turns_keeps. apply keeps_bind; [by apply tm_upd_keeps | intros; apply keeps_ret].
Qed.
End Object.

(** ** Debouncing *)
Section Debounce.
Context `{B : Board} (oid : Z).
Implicit Types (s : mcu) (b : buttons).

(** The level of input [i] when the [k]-th access to the hardware reads the
    first input. *)
Definition level b (k i : nat) : bool := hw_pin (k + i) (b_pins b !!! i).

Lemma read_buttons_run b s n : forall i status,
  (i + n <= 8)%nat -> (i + n <= length (b_pins b))%nat -> 0 <= status < 2 ^ Z.of_nat i ->
  exists status', read_buttons n i (u8 (2 ^ Z.of_nat i)) status b s
      = (Ok status', s <| m_hw ::= upd ticks (Nat.add n) |>) /\ 0 <= status' < 2 ^ Z.of_nat (i + n)
    /\ (forall j, (j < i)%nat -> Z.testbit status' (Z.of_nat j) = Z.testbit status (Z.of_nat j))
    /\ (forall j, (i <= j < i + n)%nat ->
         Z.testbit status' (Z.of_nat j) = hw_pin (ticks (m_hw s) + (j - i)) (b_pins b !!! j)).
Proof.
  induction n as [| n IH] in s |- *; intros i status H8 Hl Hs; cbn [read_buttons].
  { exists status. rewrite Nat.add_0_r. split; [destruct s as [? ? ? ? [] ? ? ?]; done |]. split; [done |]. split; [done | lia]. }
  rewrite (list_lookup_lookup_total_lt (b_pins b) i) by lia. unfold gpio_in_read. msimpl.
  set (v := hw_pin (ticks (m_hw s)) (b_pins b !!! i)).
  set (status1 := if v then Z.lor status (u8 (2 ^ Z.of_nat i)) else status).
  assert (Hp : 2 ^ Z.of_nat i <= 128) by (change 128 with (2 ^ 7); apply Z.pow_le_mono_r; lia).
  assert (Hp0 : 0 < 2 ^ Z.of_nat i) by lia.
  assert (Eb : u8 (2 ^ Z.of_nat i) = 2 ^ Z.of_nat i) by (apply u8_small; unfold is_u8; lia).
  assert (Hbit : forall j : nat, Z.testbit status1 (Z.of_nat j) = if decide (j = i) then v else Z.testbit status (Z.of_nat j)).
  { intros j. unfold status1. rewrite Eb. destruct v.
    - rewrite testbit_lor_bit by lia. repeat case_decide; try done; lia.
    - case_decide; [subst j | done]. apply (testbit_above (Z.of_nat i)); lia. }
  assert (Hs1 : 0 <= status1 < 2 ^ Z.of_nat (S i)).
  { replace (Z.of_nat (S i)) with (Z.of_nat i + 1) by lia. unfold status1. rewrite Eb.
    destruct v; [by apply lor_bit; lia | rewrite Z.pow_add_r by lia; lia]. }
  replace (u8 (Z.shiftl (u8 (2 ^ Z.of_nat i)) 1)) with (u8 (2 ^ Z.of_nat (S i))).
  2: { rewrite Eb, Z.shiftl_mul_pow2, Nat2Z.inj_succ, Z.pow_succ_r by lia. f_equal. lia. }
  destruct (IH (s <| m_hw ::= upd ticks S |>) (S i) status1) as (st & E & Hst & H1 & H2); [lia | lia | done |].
  exists st. split; [rewrite E; destruct s as [? ? ? ? [] ? ? ?]; simpl; do 4 f_equal; lia |].
  replace (i + S n)%nat with (S i + n)%nat by lia. split; [done |]. split.
  - intros j Hj. rewrite H1, Hbit by lia. by rewrite decide_False by lia.
  - intros j Hj. destruct (decide (j = i)) as [-> |].
    + rewrite H1, Hbit, decide_True by lia. unfold v. by rewrite Nat.sub_diag, Nat.add_0_r.
    + rewrite H2 by lia. simpl. by replace (S (ticks (m_hw s) + (j - S i))) with (ticks (m_hw s) + (j - i))%nat by lia.
Qed.
(** The pins are there, and the masks are bytes. *)
Record buttons_wf b : Prop := {
  bw_count : 0 <= b_button_count b <= 8;
  bw_pins : length (b_pins b) = Z.to_nat (b_button_count b);
  bw_pressed : is_u8 (b_pressed b);
  bw_last : is_u8 (b_last_pressed b);
}.

Lemma steady_bit b status k : 0 <= k < 8 ->
  Z.testbit (steady b status) k = Bool.eqb (Z.testbit status k) (Z.testbit (b_last_pressed b) k).
Proof.
  intros Hk. unfold steady. rewrite testbit_u8, Z.lnot_spec, Z.lxor_spec by lia. by destruct (Z.testbit status k), (Z.testbit _ k).
Qed.

Lemma debounced_bit b status k : 0 <= k < 8 ->
  Z.testbit (b_pressed (debounced b status)) k =
    if Bool.eqb (Z.testbit status k) (Z.testbit (b_last_pressed b) k) then Z.testbit status k else Z.testbit (b_pressed b) k.
Proof.
  intros Hk. unfold debounced. cbn [b_pressed]. simpl. rewrite testbit_u8, Z.lor_spec, !Z.land_spec, Z.lnot_spec, steady_bit by lia.
  by destruct (Z.testbit status k), (Z.testbit (b_last_pressed b) k), (Z.testbit (b_pressed b) k).
Qed.

(** An input is steady at a new level exactly when the debounced state changes. *)
Lemma changed_spec b status : is_u8 (b_pressed b) -> is_u8 status -> changed b status = negb (b_pressed (debounced b status) =? b_pressed b).
Proof.
  intros Hp Hs.
  assert (E : changed b status = false <-> b_pressed (debounced b status) = b_pressed b).
  { assert (Hx : changed b status = has (Z.lxor status (b_pressed b)) (steady b status)).
    { unfold changed. destruct (Z.eqb_spec (Z.lxor status (b_pressed b)) 0) as [-> | ?]; [done |]. unfold truth at 1.
      by destruct (Z.eqb_spec (Z.lxor status (b_pressed b)) 0). }
    rewrite Hx. unfold has, truth. rewrite negb_false_iff, Z.eqb_eq. split; intros H.
    - apply byte_bits_inj; [apply u8_range | done |]. intros k Hk. rewrite debounced_bit by lia.
      apply (f_equal (fun z => Z.testbit z k)) in H. rewrite Z.land_spec, Z.lxor_spec, steady_bit, Z.bits_0 in H by lia.
      by destruct (Z.testbit status k), (Z.testbit (b_last_pressed b) k), (Z.testbit (b_pressed b) k).
    - apply byte_bits_inj; [| done |].
      { apply land_u8. by apply u8_range. }
      intros k Hk. apply (f_equal (fun z => Z.testbit z k)) in H. rewrite debounced_bit in H by lia.
      rewrite Z.land_spec, Z.lxor_spec, steady_bit, Z.bits_0 by lia.
      by destruct (Z.testbit status k), (Z.testbit (b_last_pressed b) k), (Z.testbit (b_pressed b) k). }
  destruct (changed b status), (Z.eqb_spec (b_pressed (debounced b status)) (b_pressed b)) as [e | e]; simpl.
  - discriminate (proj2 E e).
  - done.
  - done.
  - by destruct e; apply E.
Qed.
Definition is_buttons s : Prop :=
  (exists b, obj_view s oid = Some (OButtons b)) /\ is_Some (timers (m_sched s) !! buttons_timer oid).

Lemma get_buttons_returns : returns is_buttons (get_buttons oid).
Proof. intros s [[b V] T]. exists b, s. split; [by apply get_buttons_run | by split; [exists b |]]. Qed.
Lemma upd_buttons_returns f : returns is_buttons (upd_buttons oid f).
Proof.
  intros s [[b V] T]. eexists tt, _. split; [by apply upd_buttons_run |]. split; [| done].
  exists (f b). by eapply obj_view_put.
Qed.
Lemma wake_returns w : returns is_buttons (sched_wake_task w).
Proof. unfold sched_wake_task, set_sched. by apply returns_bind; [apply returns_modify | intros _; apply returns_modify]. Qed.
Lemma add_waketime_returns d : returns is_buttons (add_waketime (buttons_timer oid) d).
Proof.
  intros s [V T]. eexists tt, _. split; [by apply tm_upd_run |]. split; [exact V |]. simpl. rewrite lookup_alter_eq. by apply fmap_is_Some.
Qed.
#[local] Hint Resolve get_buttons_returns upd_buttons_returns wake_returns add_waketime_returns : returns.

Lemma buttons_event_total b s :
  obj_view s oid = Some (OButtons b) -> is_Some (timers (m_sched s) !! buttons_timer oid) -> buttons_wf b ->
  exists s' status, buttons_event oid s = (Ok SF_RESCHEDULE, s') /\ obj_view s' oid = Some (OButtons (sampled b status))
    /\ is_u8 status
    /\ forall i, (i < Z.to_nat (b_button_count b))%nat -> Z.testbit status (Z.of_nat i) = level b (ticks (m_hw s)) i.
Proof.
  intros V T W. destruct (read_buttons_run b s (Z.to_nat (b_button_count b)) 0 0) as (st & E & Hst & _ & Hb);
    [destruct W; lia | destruct W; lia | done |].
  assert (R : exists s', buttons_event oid s = (Ok SF_RESCHEDULE, s')).
  { unfold buttons_event. rewrite (bind_ok _ _ _ _ _ (get_buttons_run _ _ _ V)). change 1 with (u8 (2 ^ Z.of_nat 0)).
    rewrite (bind_ok _ _ _ _ _ E). set (s1 := s <| m_hw ::= _ |>). assert (I1 : is_buttons s1) by (by split; [exists b |]).
    match goal with |- context [?m s1] => assert (R : returns is_buttons m) by returns_tac end.
    destruct (R s1 I1) as (r & s' & Er & _). exists s'. rewrite Er. do 2 f_equal.
    revert Er. intros (_ & s2 & _ & Er)%bind_inv. revert Er. intros (_ & s3 & _ & Er)%bind_inv.
    revert Er. intros (b3 & s4 & _ & Er)%bind_inv. revert Er. intros (_ & s5 & _ & Er)%bind_inv.
    revert Er. intros (b5 & s6 & _ & Er)%bind_inv. revert Er. intros (_ & s7 & _ & Er)%bind_inv. by inversion Er. }
  destruct R as (s' & R). exists s', st. split; [done |].
  destruct (buttons_event_sampled oid b s s' _ V R) as (st' & s1 & E' & V'). change 1 with (u8 (2 ^ Z.of_nat 0)) in E'.
  rewrite E in E'. injection E' as <- <-. split; [done |]. split.
  - unfold is_u8. assert (2 ^ Z.of_nat (0 + Z.to_nat (b_button_count b)) <= 2 ^ 8) by (apply Z.pow_le_mono_r; destruct W; lia). lia.
  - intros i Hi. unfold level. rewrite Hb by lia. by rewrite Nat.sub_0_r.
Qed.

(** Debouncing.  One run of the timer reads every input once; the state of
    an input follows its level exactly when it reads the same as the time
    before.  A change of the debounced state is put behind the reports that
    wait for the host, as long as there are fewer than eight; without a change
    no report is made. *)
Theorem buttons_debounce b s :
  obj_view s oid = Some (OButtons b) -> is_Some (timers (m_sched s) !! buttons_timer oid) -> buttons_wf b ->
  0 <= b_report_count b <= 8 -> length (b_reports b) = 8%nat ->
  exists s' b', buttons_event oid s = (Ok SF_RESCHEDULE, s') /\ obj_view s' oid = Some (OButtons b') /\ buttons_wf b'
    /\ (forall i, (i < Z.to_nat (b_button_count b))%nat ->
         let now := level b (ticks (m_hw s)) i in
         Z.testbit (b_last_pressed b') (Z.of_nat i) = now
         /\ Z.testbit (b_pressed b') (Z.of_nat i)
            = if Bool.eqb now (Z.testbit (b_last_pressed b) (Z.of_nat i)) then now else Z.testbit (b_pressed b) (Z.of_nat i))
    /\ take (Z.to_nat (b_report_count b')) (b_reports b')
       = take (Z.to_nat (b_report_count b)) (b_reports b)
         ++ (if (b_pressed b' =? b_pressed b) || (8 <=? b_report_count b) then [] else [b_pressed b']).
Proof.
  intros V T W HC HL. destruct (buttons_event_total b s V T W) as (s' & st & E & V' & Hst & Hb).
  exists s', (sampled b st). split; [done |]. split; [done |].
  pose proof (changed_spec b st (bw_pressed b W) Hst) as Hch.
  assert (Hp : b_pressed (sampled b st) = b_pressed (debounced b st)).
  { unfold sampled, count_down, report. rewrite Hch. destruct (Z.eqb_spec (b_pressed (debounced b st)) (b_pressed b)) as [e | e]; simpl in *;
      repeat case_match; done. }
  assert (Hl : b_last_pressed (sampled b st) = st) by (unfold sampled, count_down; by case_match).
  split; [| split].
  - destruct W as [W1 W2 W3 W4]. split; [.. | by rewrite Hp; apply u8_range | by rewrite Hl];
      unfold sampled, count_down, report, debounced; repeat case_match; done.
  - intros i Hi now. rewrite Hl, Hp, debounced_bit by (destruct W; lia). by rewrite Hb by done.
  - rewrite Hp. unfold sampled. rewrite Hch. destruct (Z.eqb_spec (b_pressed (debounced b st)) (b_pressed b)) as [e | e]; cbn [negb orb].
    + unfold count_down. case_match; simpl; by rewrite app_nil_r.
    + unfold report. change (b_report_count (debounced b st)) with (b_report_count b).
      destruct (Z.ltb_spec (b_report_count b) 8); destruct (Z.leb_spec 8 (b_report_count b)); try lia.
      * unfold count_down. simpl. rewrite u8_small by cint_lia.
        replace (Z.to_nat (b_report_count b + 1)) with (S (Z.to_nat (b_report_count b))) by lia.
        by apply take_insert_snoc; lia.
      * unfold count_down. case_match; simpl; by rewrite app_nil_r.
Qed.
End Debounce.

(** ** Acknowledging and sending *)
Section Reports.
Context `{B : Board} (oid : Z).
Implicit Types (s : mcu) (b : buttons).

(** [shift_reports] on the list. *)
Fixpoint shift_list (n i count : nat) (l : list Z) : list Z :=
  match n with
  | O => l
  | S n => shift_list n (S i) count (<[i := l !!! (i + count)%nat]> l)
  end.

Lemma shift_list_length n i count l : length (shift_list n i count l) = length l.
Proof. induction n as [| n IH] in i, l |- *; simpl; [done |]. by rewrite IH, length_insert. Qed.

Lemma shift_list_lookup n : forall i count l j, (i + count + n <= length l)%nat ->
  shift_list n i count l !! j = if decide (i <= j < i + n)%nat then l !! (j + count)%nat else l !! j.
Proof.
  induction n as [| n IH]; intros i count l j Hl; simpl; [by rewrite decide_False by lia |].
  rewrite IH by (rewrite length_insert; lia). destruct (decide (j = i)) as [-> | Hne].
  - rewrite decide_False, decide_True by lia. rewrite list_lookup_insert_eq by lia.
    symmetry. apply list_lookup_lookup_total_lt. lia.
  - repeat case_decide; try lia; apply list_lookup_insert_ne; lia.
Qed.

Lemma shift_list_take n count l : (count + n <= length l)%nat -> take n (shift_list n 0 count l) = take n (drop count l).
Proof.
  intros Hl. apply list_eq. intros j. destruct (decide (j < n)%nat).
  - rewrite !lookup_take_lt, shift_list_lookup, decide_True, lookup_drop by lia. f_equal. lia.
  - by rewrite !lookup_take_ge by lia.
Qed.

Lemma shift_reports_turns n i count b : (i + count + n <= length (b_reports b))%nat ->
  bturns oid b (b <| b_reports := shift_list n i count (b_reports b) |>) (shift_reports n i count oid).
Proof.
  induction n as [| n IH] in i, b |- *; intros Hl; cbn [shift_reports shift_list].
  { intros s s' a V [= _ <-]. rewrite V. by destruct b. }
  apply bturns_get. rewrite (list_lookup_lookup_total_lt (b_reports b) (i + count)) by lia.
  apply turns_deref, bturns_upd_bind.
  pose proof (IH (S i) (b <| b_reports ::= <[i := b_reports b !!! (i + count)%nat]> |>)) as H. destruct b. apply H.
  simpl in *. rewrite length_insert. lia.
Qed.

(** What an acknowledgement of [count] reports leaves. *)
Definition acked b (count : Z) : buttons :=
  let b := b <| b_ack_count ::= fun c => u8 (c + count) |> in
  if count >=? b_report_count b
  then b <| b_report_count := 0 |> <| b_retransmit_state := BF_ACKED |>
  else
    let pending := u8 (b_report_count b - count) in
    b <| b_reports := shift_list (Z.to_nat pending) 0 (Z.to_nat count) (b_reports b) |> <| b_report_count := pending |>.

Lemma command_buttons_ack_turns b c : is_u8 oid -> is_u8 c -> 0 <= b_report_count b <= 8 -> length (b_reports b) = 8%nat ->
  bturns oid b (acked b c) (command_buttons_ack [oid; c]).
Proof.
  intros Ho Hc HR HL s s' a V. unfold command_buttons_ack, arg. cbn [lookup list_lookup]. msimpl.
  intros (o & s1 & E1 & H)%bind_inv. apply oid_lookup_inv in E1 as [-> ->]. rewrite (u8_small oid) in H by done.
  revert H. msimpl. rewrite (u8_small c) by done. revert V. revert s s' a.
  match goal with |- forall s s' a, _ -> ?m _ = _ -> _ => change (bturns oid b (acked b c) m) end.
  apply bturns_upd_bind, bturns_get. unfold acked. cbv zeta. set (b1 := b <| b_ack_count ::= _ |>).
  assert (Er : b_report_count b1 = b_report_count b) by done. assert (El : b_reports b1 = b_reports b) by done.
  destruct (Z.geb_spec c (b_report_count b1)); [by apply bturns_upd |].
  rewrite Er in *. rewrite u8_small by (unfold is_u8 in *; lia).
  eapply turns_bind; [apply shift_reports_turns; rewrite El, HL; unfold is_u8 in *; lia | intros _; by apply bturns_upd].
Qed.

(** The reports a message of the log carries, if it is a state of these
    buttons. *)
Definition state_msg (m : string * list varg) : option (Z * list Z) :=
  match m with
  | (fmt, [VInt o; VInt a; VBuf n d]) =>
      if String.eqb fmt buttons_state_fmt && (o =? oid) then Some (u8 a, take (Z.to_nat n) d) else None
  | _ => None
  end.

(** What was sent between two states, in order. *)
Definition new_msgs s s' : list (Z * list Z) :=
  rev (omap state_msg (take (length (sent_log (m_hw s')) - length (sent_log (m_hw s))) (sent_log (m_hw s')))).

Lemma new_msgs_none s s' : sent_log (m_hw s') = sent_log (m_hw s) -> new_msgs s s' = [].
Proof. intros E. unfold new_msgs. by rewrite E, Nat.sub_diag. Qed.

Lemma sendf_log fmt args s s' r : sendf fmt args s = (r, s') ->
  sent_log (m_hw s') = sent_log (m_hw s) \/ sent_log (m_hw s') = (fmt, args) :: sent_log (m_hw s).
Proof.
  unfold sendf, command_sendf. msimpl. case_match; [intros [= _ <-]; by left |]. msimpl. intros E. right.
  refine (eq_trans (keeps_run (fun s => sent_log (m_hw s)) _ _ _ _ _ E) _); [| done].
  unfold console_sendf, console_put, command_encode_and_frame, set_con. keeps_tac.
Qed.

Lemma buttons_report_run b s s' :
  obj_view s oid = Some (OButtons b) -> buttons_report oid s = (Ok tt, s') ->
  exists b', obj_view s' oid = Some (OButtons b') /\ b_reports b' = b_reports b /\ b_report_count b' = b_report_count b
    /\ b_ack_count b' = b_ack_count b
    /\ (new_msgs s s' = [] \/ new_msgs s s' = [(u8 (b_ack_count b), take (Z.to_nat (b_report_count b)) (b_reports b))]).
Proof.
  intros V. unfold buttons_report. rewrite (bind_ok _ _ _ _ _ (get_buttons_run _ _ _ V)).
  case_match; [intros [= <-]; exists b; split_and!; try done; left; by apply new_msgs_none |].
  case_match; [intros [= <-]; exists b; split_and!; try done; left; by apply new_msgs_none |].
  rewrite (bind_ok _ _ _ _ _ (upd_buttons_run _ _ _ _ V)). set (b1 := b <| b_retransmit_state := _ |>).
  pose proof (obj_view_put oid (OButtons b1) _ _ V) as V1. rewrite (bind_ok _ _ _ _ _ (get_buttons_run _ _ _ V1)).
  intros E. exists b1. split; [| split_and!; try done].
  - rewrite <- V1. refine (keeps_run (fun s => obj_view s oid) _ _ _ _ _ E). apply sendf_keeps. auto with keeps.
  - apply sendf_log in E as [E | E]; [left; by apply new_msgs_none | right]. unfold new_msgs. rewrite E. simpl.
    rewrite Nat.sub_succ_l, Nat.sub_diag by lia. simpl. by rewrite Z.eqb_refl.
Qed.
End Reports.

(** ** The protocol

    Micro-controller and host with the messages under way between them.  The
    states may be lost (the transmit buffer drops a message that does not fit);
    the acknowledgements arrive, in order. *)
Record system := mk_system {
  sy_mcu : mcu;
  sy_host : host_buttons;
  sy_up : list (Z * list Z);
  sy_down : list Z;
  sy_hist : list Z;
}.

(** The debounced state, when a report of it was stored. *)
Definition new_report (o o' : option obj) : list Z :=
  match o, o' with
  | Some (OButtons b), Some (OButtons b') => if b_report_count b' =? b_report_count b then [] else [b_pressed b']
  | _, _ => []
  end.

(** A step of the timer, of the task, of the command, of the host, the loss of
    a message, and whatever else the firmware does that leaves the object. *)
Inductive sys_step `{B : Board} (oid : Z) : system -> system -> Prop :=
| sys_event s s' r h up down H :
    buttons_event oid s = (Ok r, s') ->
    sys_step oid (mk_system s h up down H) (mk_system s' h up down (H ++ new_report (obj_view s oid) (obj_view s' oid)))
| sys_report s s' h up down H :
    buttons_report oid s = (Ok tt, s') ->
    sys_step oid (mk_system s h up down H) (mk_system s' h (up ++ new_msgs oid s s') down H)
| sys_ack s s' c h up down H :
    command_buttons_ack [oid; c] s = (Ok tt, s') ->
    sys_step oid (mk_system s h up (c :: down) H) (mk_system s' h up down H)
| sys_receive s h a st up down H :
    sys_step oid (mk_system s h ((a, st) :: up) down H)
      (mk_system s (handle_buttons_state h a st).2 up (down ++ option_list (handle_buttons_state h a st).1) H)
| sys_lose s h up1 m up2 down H :
    sys_step oid (mk_system s h (up1 ++ m :: up2) down H) (mk_system s h (up1 ++ up2) down H)
| sys_other s s' h up down H :
    obj_view s' oid = obj_view s oid ->
    sys_step oid (mk_system s h up down H) (mk_system s' h up down H).

(** A message with [k] reports, sent when [a] reports were acknowledged. *)
Definition msg_of (H : list Z) (g : nat * nat) : Z * list Z := (Z.of_nat g.1 mod 256, take g.2 (drop g.1 H)).

(** [A] reports are acknowledged on the micro-controller, [N] on the host; the
    messages under way are [gs]. *)
Record sys_inv (oid : Z) (y : system) (b : buttons) (A N : nat) (gs : list (nat * nat)) : Prop := {
  si_view : obj_view (sy_mcu y) oid = Some (OButtons b);
  si_len : length (b_reports b) = 8%nat;
  si_count : 0 <= b_report_count b <= 8;
  si_ack : b_ack_count b = Z.of_nat A mod 256;
  si_reports : take (Z.to_nat (b_report_count b)) (b_reports b) = drop A (sy_hist y);
  si_hist : Z.of_nat (length (sy_hist y)) = Z.of_nat A + b_report_count b;
  si_host : sy_host y = mk_host_buttons (Z.of_nat N) (take N (sy_hist y));
  si_known : (N <= length (sy_hist y))%nat;
  si_down : Z.of_nat N = Z.of_nat A + foldr Z.add 0 (sy_down y);
  si_downs : Forall (fun c => 1 <= c <= 8) (sy_down y);
  si_up : sy_up y = msg_of (sy_hist y) <$> gs;
  si_ups : Forall (fun g => g.1 <= A /\ g.1 + g.2 <= length (sy_hist y) /\ N <= g.1 + 8 /\ g.2 <= 8)%nat gs;
  si_order : StronglySorted (fun g g' => g.1 + g.2 <= g'.1 + 8)%nat gs;
}.

Lemma foldr_add_nonneg l : Forall (fun c => 1 <= c <= 8) l -> 0 <= foldr Z.add 0 l.
Proof. induction 1; simpl; lia. Qed.

(** The host extends the eight bits of the count correctly. *)
Lemma handle_run N L a k st : (a <= N <= a + 8)%nat -> (k <= 8)%nat -> length st = k ->
  handle_buttons_state (mk_host_buttons (Z.of_nat N) L) (Z.of_nat a mod 256) st =
    if decide (a + k <= N)%nat then (None, mk_host_buttons (Z.of_nat N) L)
    else (Some (Z.of_nat (a + k - N)), mk_host_buttons (Z.of_nat (a + k)) (L ++ drop (N - a) st)).
Proof.
  intros Ha Hk Hl. unfold handle_buttons_state. cbn [h_ack_count h_buttons]. rewrite Hl.
  change 0xff with (Z.ones 8). rewrite Z.land_ones by lia. change (2 ^ 8) with 256.
  replace ((Z.of_nat N - Z.of_nat a mod 256) mod 256) with (Z.of_nat N - Z.of_nat a) by (Z.div_mod_to_equations; lia).
  assert (E : has (Z.of_nat N - Z.of_nat a) 0x80 = false).
  { unfold has. change 0x80 with (2 ^ 7). unfold truth. apply negb_false_iff, Z.eqb_eq, Z.bits_inj_0. intros i.
    rewrite Z.land_spec, Z.pow2_bits_eqb by lia. destruct (Z.eqb_spec 7 i) as [<- | ?]; [| apply andb_false_r].
    by rewrite (testbit_above 4) by lia. }
  rewrite E. destruct (Z.leb_spec (Z.of_nat N - (Z.of_nat N - Z.of_nat a) + Z.of_nat k - Z.of_nat N) 0); case_decide; try lia; [done |].
  f_equal; [f_equal; lia |]. f_equal; [lia |]. f_equal. f_equal. lia.
Qed.

Section Protocol.
Context `{B : Board} (oid : Z).

(** What a run of the timer does to the reports. *)
Lemma sampled_reports b st : 0 <= b_report_count b <= 8 -> length (b_reports b) = 8%nat ->
  let b' := sampled b st in let new := new_report (Some (OButtons b)) (Some (OButtons b')) in
  b_ack_count b' = b_ack_count b /\ length (b_reports b') = 8%nat /\ 0 <= b_report_count b' <= 8
  /\ b_report_count b' = b_report_count b + Z.of_nat (length new)
  /\ take (Z.to_nat (b_report_count b')) (b_reports b') = take (Z.to_nat (b_report_count b)) (b_reports b) ++ new.
Proof.
  intros HC HL. cbv zeta. assert (Hc : forall x, b_ack_count (count_down x) = b_ack_count x /\ b_reports (count_down x) = b_reports x
    /\ b_report_count (count_down x) = b_report_count x /\ b_pressed (count_down x) = b_pressed x)
    by (intros x; unfold count_down; by case_match).
  unfold sampled, new_report. set (b1 := if changed b st then _ else b).
  destruct (Hc (b1 <| b_last_pressed := st |>)) as (-> & -> & -> & ->). simpl. unfold b1. destruct (changed b st).
  2: { rewrite Z.eqb_refl, app_nil_r. split_and!; try done; simpl; lia. }
  unfold report. change (b_report_count (debounced b st)) with (b_report_count b).
  destruct (Z.ltb_spec (b_report_count b) 8); simpl.
  - rewrite (u8_small (b_report_count b + 1)) by (unfold is_u8; lia). destruct (Z.eqb_spec (b_report_count b + 1) (b_report_count b)); [lia |].
    split_and!; try done; simpl; [by rewrite length_insert | lia | lia |].
    replace (Z.to_nat (b_report_count b + 1)) with (S (Z.to_nat (b_report_count b))) by lia. apply take_insert_snoc. lia.
  - change (b_report_count (debounced b st)) with (b_report_count b). rewrite Z.eqb_refl, app_nil_r. split_and!; try done; simpl; lia.
Qed.

Lemma msg_of_app H H' g : (g.1 + g.2 <= length H)%nat -> msg_of (H ++ H') g = msg_of H g.
Proof. intros Hg. unfold msg_of. f_equal. rewrite drop_app_le, take_app_le by (rewrite ?length_drop; lia). done. Qed.

Lemma inv_event s s' r h up down H b A N gs :
  sys_inv oid (mk_system s h up down H) b A N gs -> buttons_event oid s = (Ok r, s') ->
  exists b', sys_inv oid (mk_system s' h up down (H ++ new_report (obj_view s oid) (obj_view s' oid))) b' A N gs.
Proof.
  intros [V L C K R HH HO HN HD HDs HU HUs HS] E. simpl in *.
  destruct (buttons_event_sampled oid b s s' r V E) as (st & s1 & _ & V').
  destruct (sampled_reports b st C L) as (K' & L' & C' & C1 & R'). rewrite V, V'. set (new := new_report _ _) in *.
  exists (sampled b st). split; simpl; try done.
  - by rewrite K'.
  - rewrite R', R, drop_app_le by lia. done.
  - rewrite length_app, C1. lia.
  - rewrite take_app_le by done. done.
  - rewrite length_app. lia.
  - rewrite HU. apply list_fmap_ext. intros i g Hg. symmetry. apply msg_of_app.
    rewrite Forall_lookup in HUs. specialize (HUs i g Hg). lia.
  - eapply Forall_impl; [exact HUs |]. intros g Hg. simpl in *. rewrite length_app. lia.
Qed.

Lemma inv_report s s' h up down H b A N gs :
  sys_inv oid (mk_system s h up down H) b A N gs -> buttons_report oid s = (Ok tt, s') ->
  exists b' gs', sys_inv oid (mk_system s' h (up ++ new_msgs oid s s') down H) b' A N gs'.
Proof.
  intros [V L C K R HH HO HN HD HDs HU HUs HS] E. simpl in *.
  destruct (buttons_report_run oid b s s' V E) as (b' & V' & L' & C' & K' & [Hm | Hm]).
  - exists b', gs. rewrite Hm, app_nil_r. split; simpl; rewrite ?L', ?C', ?K'; done.
  - pose proof (foldr_add_nonneg _ HDs). exists b', (gs ++ [(A, Z.to_nat (b_report_count b))]). rewrite Hm.
    split; simpl; rewrite ?L', ?C', ?K'; try done.
    + rewrite fmap_app, <- HU. f_equal. simpl. unfold msg_of. simpl. f_equal. f_equal.
      * rewrite K. unfold u8. change (2 ^ 8) with 256. by rewrite Z.mod_mod.
      * rewrite R. symmetry. apply take_ge. rewrite length_drop. lia.
    + apply Forall_app. split; [done |]. constructor; [simpl; lia | constructor].
    + apply StronglySorted_app. split_and!; [| done | by repeat constructor].
      intros g g' Hg Hg'%list_elem_of_singleton. subst g'. rewrite Forall_forall in HUs. specialize (HUs g Hg). simpl. lia.
Qed.

Lemma inv_ack s s' c h up down H b A N gs :
  is_u8 oid -> sys_inv oid (mk_system s h up (c :: down) H) b A N gs -> command_buttons_ack [oid; c] s = (Ok tt, s') ->
  exists b', sys_inv oid (mk_system s' h up down H) b' (A + Z.to_nat c) N gs.
Proof.
  intros Ho [V L C K R HH HO HN HD HDs HU HUs HS] E. simpl in *. inversion HDs as [| ? ? Hc HDs']; subst.
  pose proof (foldr_add_nonneg _ HDs').
  pose proof (command_buttons_ack_turns oid b c Ho ltac:(unfold is_u8; lia) C L s s' tt V E) as V'.
  exists (acked b c). split; simpl; try done.
  - unfold acked. cbv zeta. case_match; simpl; [done |]. by rewrite shift_list_length.
  - unfold acked. cbv zeta. simpl. destruct (Z.geb_spec c (b_report_count b)); simpl; [lia |]. rewrite u8_small by cint_lia. lia.
  - transitivity (u8 (b_ack_count b + c)); [unfold acked; cbv zeta; by case_match |].
    rewrite K. unfold u8. change (2 ^ 8) with 256. rewrite Nat2Z.inj_add, Z2Nat.id by lia. Z.div_mod_to_equations; lia.
  - rewrite <- drop_drop, <- R. unfold acked. cbv zeta. simpl. destruct (Z.geb_spec c (b_report_count b)); simpl.
    + rewrite drop_ge by (rewrite length_take; lia). done.
    + rewrite (u8_small (b_report_count b - c)) by cint_lia. rewrite shift_list_take by lia.
      rewrite take_drop_commute. do 2 f_equal. lia.
  - unfold acked. cbv zeta. simpl. destruct (Z.geb_spec c (b_report_count b)); simpl; [lia |]. rewrite u8_small by cint_lia. lia.
  - lia.
  - eapply Forall_impl; [exact HUs |]. intros g Hg. simpl in *. lia.
Qed.

Lemma host_receive s h a st up down H b A N gs :
  sys_inv oid (mk_system s h ((a, st) :: up) down H) b A N gs ->
  exists N' gs', sys_inv oid (mk_system s (handle_buttons_state h a st).2 up
    (down ++ option_list (handle_buttons_state h a st).1) H) b A N' gs'.
Proof.
  intros [V L C K R HH HO HN HD HDs HU HUs HS]. simpl in *. subst h. pose proof (foldr_add_nonneg _ HDs).
  destruct gs as [| [a0 k] gs]; [done |]. rewrite fmap_cons in HU. injection HU as -> -> HU.
  inversion HUs as [| ? ? Hg HUs']; subst. simpl in Hg. apply StronglySorted_inv in HS as [HS HSg]. cbn [fst snd].
  assert (Lm : length (take k (drop a0 H)) = k) by (rewrite length_take, length_drop; lia).
  rewrite (handle_run N (take N H) a0 k) by (done || lia). case_decide; cbn [fst snd option_list].
  - exists N, gs. rewrite app_nil_r. by split.
  - exists (a0 + k)%nat, gs. split; simpl; try done; try lia.
    + f_equal. rewrite take_drop_commute, drop_drop. replace (a0 + (N - a0))%nat with N by lia.
      rewrite <- (take_drop N (take (a0 + k) H)) at 2. rewrite take_take. by replace (N `min` (a0 + k))%nat with N by lia.
    + rewrite foldr_app. simpl. rewrite Z.add_0_r.
      assert (Hf : forall l x, foldr Z.add x l = foldr Z.add 0 l + x) by (induction l as [| y l IH]; intros x; simpl; [lia | rewrite IH; lia]).
      rewrite Hf. lia.
    + apply Forall_app. split; [done |]. constructor; [lia | constructor].
    + rewrite Forall_forall in HSg, HUs' |- *. intros g Hg'. specialize (HSg g Hg'). specialize (HUs' g Hg'). simpl in *. lia.
Qed.
Lemma inv_lose s h up1 m up2 down H b A N gs :
  sys_inv oid (mk_system s h (up1 ++ m :: up2) down H) b A N gs ->
  exists gs', sys_inv oid (mk_system s h (up1 ++ up2) down H) b A N gs'.
Proof.
  intros [V L C K R HH HO HN HD HDs HU HUs HS]. simpl in *. symmetry in HU.
  apply fmap_app_inv in HU as (g1 & g2 & -> & HU & ->). symmetry in HU. apply fmap_cons_inv in HU as (g & g3 & _ & -> & ->).
  exists (g1 ++ g3). split; simpl; try done.
  - by rewrite fmap_app.
  - apply Forall_app in HUs as [H1 H2]. apply Forall_app. split; [done | by inversion H2].
  - rewrite !StronglySorted_app in HS |- *. destruct HS as (H1 & H2 & H3). apply StronglySorted_inv in H3 as [H3 _].
    split_and!; try done. intros x y Hx Hy. apply H1; [done | by apply list_elem_of_further].
Qed.

Lemma sys_step_inv y y' b A N gs : is_u8 oid -> sys_inv oid y b A N gs -> sys_step oid y y' ->
  exists b' A' N' gs', sys_inv oid y' b' A' N' gs'.
Proof.
  intros Ho I Hst. destruct Hst as [s s' r h up down H E | s s' h up down H E | s s' c h up down H E | s h a st up down H
    | s h up1 m up2 down H | s s' h up down H E].
  - destruct (inv_event _ _ _ _ _ _ _ _ _ _ _ I E) as (b' & I'). eauto.
  - destruct (inv_report _ _ _ _ _ _ _ _ _ _ I E) as (b' & gs' & I'). eauto.
  - destruct (inv_ack _ _ _ _ _ _ _ _ _ _ _ Ho I E) as (b' & I'). eauto.
  - destruct (host_receive _ _ _ _ _ _ _ _ _ _ _ I) as (N' & gs' & I'). eauto.
  - destruct (inv_lose _ _ _ _ _ _ _ _ _ _ _ I) as (gs' & I'). eauto.
  - exists b, A, N, gs. destruct I. split; simpl in *; try done. by rewrite E.
Qed.

(** Both sides after [buttons_query]. *)
Definition sys_start (y : system) : Prop :=
  exists b s, y = mk_system s (mk_host_buttons 0 []) [] [] [] /\ obj_view s oid = Some (OButtons b)
    /\ length (b_reports b) = 8%nat /\ b_report_count b = 0 /\ b_ack_count b = 0.

Lemma sys_start_inv y : sys_start y -> exists b, sys_inv oid y b 0 0 [].
Proof. intros (b & s & -> & V & L & C & K). exists b. split; simpl; rewrite ?C, ?K; try done; constructor. Qed.

Lemma sys_steps_inv y y' b A N gs : is_u8 oid -> sys_inv oid y b A N gs -> rtc (sys_step oid) y y' ->
  exists b' A' N' gs', sys_inv oid y' b' A' N' gs'.
Proof.
  intros Ho I Hr. revert b A N gs I. induction Hr as [y | y y1 y2 Hst _ IH]; intros b A N gs I; [eauto |].
  destruct (sys_step_inv _ _ _ _ _ _ Ho I Hst) as (b' & A' & N' & gs' & I'). eauto.
Qed.

(** C10: every report reaches the host exactly once and in order.  Whatever the
    interleaving of timer, task, commands and host, with any number of states
    sent again and any of them lost, the host has handled a prefix of the
    reports made, at most eight behind; when nothing waits to be acknowledged
    it has handled all of them. *)
Theorem buttons_exactly_once y0 y :
  is_u8 oid -> sys_start y0 -> rtc (sys_step oid) y0 y ->
  exists b N, obj_view (sy_mcu y) oid = Some (OButtons b) /\ h_buttons (sy_host y) = take N (sy_hist y)
    /\ (N <= length (sy_hist y) <= N + 8)%nat
    /\ (b_report_count b = 0 -> h_buttons (sy_host y) = sy_hist y).
Proof.
  intros Ho (b0 & I0)%sys_start_inv Hr. destruct (sys_steps_inv _ _ _ _ _ _ Ho I0 Hr) as (b & A & N & gs & I).
  exists b, N. destruct I as [V L C K R HH HO HN HD HDs HU HUs HS]. rewrite HO. cbn [h_buttons].
  pose proof (foldr_add_nonneg _ HDs). split_and!; try done; try lia. intros E. apply take_ge. lia.
Qed.
End Protocol.

(** ** Examples *)

(** Two buttons, of which the first is pressed. *)
Definition demo_buttons : buttons := mk_buttons 128000 0 0 0 (replicate 8 0) 0 BF_ACKED 50 2 [10; 11].
Definition demo_panel : mcu :=
  initial_mcu <| m_base ::= fun b => b <| oids := Some [mk_oid (Some T_buttons) (Some (OButtons demo_buttons))] |> <| oid_count := 1 |> |>
    <| m_sched ::= upd timers (insert (buttons_timer 0) (mk_timer None (Some F_buttons_event) 5000)) |>.

Definition demo_panel1 : mcu := (buttons_event (B := demo_board) 0 demo_panel).2.
Definition demo_panel2 : mcu := (buttons_event (B := demo_board) 0 demo_panel1).2.
Definition demo_panel3 : mcu := (buttons_report (B := demo_board) 0 demo_panel2).2.

Lemma buttons_debounce_witness :
  exists s' b', buttons_event (B := demo_board) 0 demo_panel1 = (Ok SF_RESCHEDULE, s') /\ obj_view s' 0 = Some (OButtons b')
    /\ take (Z.to_nat (b_report_count b')) (b_reports b') = (if b_pressed b' =? 0 then [] else [b_pressed b']).
Proof.
  edestruct (buttons_debounce (B := demo_board) 0 (demo_buttons <| b_last_pressed := 1 |>) demo_panel1) as (s' & b' & E & V & _ & _ & R).
  - vm_compute. reflexivity.
  - apply (bool_decide_unpack _). vm_compute. exact I.
  - split; try vm_decide; done.
  - vm_decide.
  - reflexivity.
  - exists s', b'. split; [exact E | split; [exact V |]]. rewrite R. simpl. by destruct (b_pressed b' =? 0).
Defined.

Lemma buttons_exactly_once_witness :
  exists b, obj_view demo_panel3 0 = Some (OButtons b) /\ b_report_count b = 1
    /\ exists N, [1] = take N [1] /\ (N <= 1 <= N + 8)%nat.
Proof.
  edestruct (buttons_exactly_once (B := demo_board) 0 (mk_system demo_panel (mk_host_buttons 0 []) [] [] [])
    (mk_system demo_panel3 (mk_host_buttons 1 [1]) [] [1] [1])) as (b & N & V & P & Q & _).
  - vm_decide.
  - exists demo_buttons, demo_panel. split_and!; reflexivity.
  - eapply rtc_l; [apply (sys_event 0 demo_panel demo_panel1 SF_RESCHEDULE); vm_compute; reflexivity |].
    eapply rtc_l; [apply (sys_event 0 demo_panel1 demo_panel2 SF_RESCHEDULE); vm_compute; reflexivity |].
    eapply rtc_l; [apply (sys_report 0 demo_panel2 demo_panel3); vm_compute; reflexivity |].
    eapply rtc_l; [| apply rtc_refl].
    match goal with |- sys_step _ ?y _ =>
      replace y with (mk_system demo_panel3 (mk_host_buttons 0 []) [(0, [1])] [] [1]) by (vm_compute; reflexivity) end.
    exact (sys_receive 0 demo_panel3 (mk_host_buttons 0 []) 0 [1] [] [] [1]).
  - exists b. split; [exact V |]. split; [| exists N; split; [exact P | exact Q]].
    vm_compute in V. injection V as <-. reflexivity.
Defined.
