(* ===== verification/Counter.v ===== *)
(** * Counter: counting the edges of an input

    Models [src/src/pulse_counter.c]: an input is polled from a timer and its
    level changes are counted. *)

From S2P Require Import Prelude Wire State Command Sched Basecmd Stepper.
Import Encode.

Definition CF_PENDING : Z := 1.

Section WithBoard.
Context `{B : Board}.

Definition get_counter (oid : Z) : FW counter :=
  o ← obj_get oid;
  match o with OCounter c => mret c | _ => fault "struct counter" end.

Definition upd_counter (oid : Z) (f : counter -> counter) : FW unit :=
  c ← get_counter oid; obj_put oid (OCounter (f c)).

Definition counter_timer (oid : Z) : tptr := ObjTimer oid 0.

Definition counter_event (oid : Z) : FW Z :=
  c ← get_counter oid;
  tm ← tm_get (counter_timer oid);
  let time := t_waketime tm in
  let last_value := Z.land (c_count c) 1 in
  v ← gpio_in_read (c_pin c);
  let value := b2z v in
  when (negb (last_value =? value))
    (upd_counter oid (fun c => c <| c_count ::= fun n => u32 (n + 1) |> <| c_last_count_time := time |>)) ;;
  when (timer_is_before (c_next_sample_time c) time)
    (upd_counter oid (fun c => c <| c_flags ::= fun f => Z.lor f CF_PENDING |>
       <| c_next_sample_time := u32 (time + c_sample_ticks c) |>) ;;
     sched_wake_task W_counter) ;;
  add_waketime (counter_timer oid) (c_poll_ticks c) ;;
  mret SF_RESCHEDULE.

Definition command_config_counter (args : list Z) : FW unit :=
  a0 ← arg args 0;
  oid ← oid_alloc a0 T_counter (sizeof_obj T_counter);
  a1 ← arg args 1;
  a2 ← arg args 2;
  pin ← gpio_in_setup a1 a2;
  upd_counter oid (fun c => c <| c_pin := pin |>) ;;
  set_func (counter_timer oid) F_counter_event.

Definition command_query_counter (args : list Z) : FW unit :=
  a0 ← arg args 0;
  oid ← oid_lookup a0 T_counter;
  sched_del_timer (counter_timer oid) ;;
  a1 ← arg args 1;
  set_waketime (counter_timer oid) a1 ;;
  a2 ← arg args 2;
  a3 ← arg args 3;
  upd_counter oid (fun c => c <| c_poll_ticks := a2 |> <| c_sample_ticks := a3 |>) ;;
  tm ← tm_get (counter_timer oid);
  upd_counter oid (fun c => c <| c_next_sample_time := t_waketime tm |>) ;;
  sched_add_timer (counter_timer oid).

(** Body of the loop of [counter_task]. *)
Definition counter_report (oid : Z) : FW unit :=
  c ← get_counter oid;
  if negb (has (c_flags c) CF_PENDING) then mret tt
  else
    tm ← tm_get (counter_timer oid);
    upd_counter oid (fun c => c <| c_flags ::= fun f => clr f CF_PENDING |>) ;;
    sendf "counter_state oid=%c next_clock=%u count=%u count_clock=%u"
      [VInt oid; VInt (t_waketime tm); VInt (c_count c); VInt (c_last_count_time c)].

Definition counter_task : FW unit :=
  w ← sched_check_wake W_counter;
  when w (foreach_oid T_counter counter_report).

(** [n] polls. *)
Fixpoint counter_events (n : nat) (oid : Z) : FW unit :=
  match n with
  | O => mret tt
  | S n => _ ← counter_event oid; counter_events n oid
  end.
End WithBoard.

(** ** Counting *)

(** The changes of level in a sequence that starts at [v], and when the last
    one was ([t] before the first poll at [w], a poll every [d]). *)
Fixpoint flips (v : bool) (l : list bool) : nat :=
  match l with
  | [] => 0
  | x :: l => (if Bool.eqb x v then 0 else 1) + flips x l
  end.

Fixpoint last_flip (v : bool) (l : list bool) (t w d : Z) : Z :=
  match l with
  | [] => t
  | x :: l => last_flip x l (if Bool.eqb x v then t else u32 w) (w + d) d
  end.

Lemma last_cons_default {A} (l : list A) x d : List.last (x :: l) d = List.last l x.
Proof. induction l as [| y l IH] in x, d |- *; [done |]. change (List.last (y :: l) d = List.last (y :: l) x). by rewrite !IH. Qed.

Section Counting.
Context `{B : Board} (oid : Z).
Implicit Types (s : mcu) (c : counter).

Lemma get_counter_run c s : obj_view s oid = Some (OCounter c) -> get_counter oid s = (Ok c, s).
Proof. intros H. unfold get_counter. by rewrite (bind_ok _ _ _ _ _ (obj_get_run _ _ _ H)). Qed.

Lemma upd_counter_run f c s :
  obj_view s oid = Some (OCounter c) -> upd_counter oid f s = (Ok tt, put_obj oid (OCounter (f c)) s).
Proof. intros H. unfold upd_counter. by rewrite (bind_ok _ _ _ _ _ (get_counter_run _ _ H)). Qed.

Definition polling s c (w : Z) : Prop := device oid s (OCounter c) F_counter_event (u32 w).

(** The levels the next [n] polls read. *)
Definition levels (pin : Z) (k n : nat) : list bool := (fun i => hw_pin i pin) <$> seq k n.

(** What one poll at [w] makes of the counter. *)
Definition polled c (v : bool) (w : Z) : counter :=
  let c1 := if Bool.eqb v (Z.odd (c_count c)) then c
            else c <| c_count ::= fun n => u32 (n + 1) |> <| c_last_count_time := u32 w |> in
  if timer_is_before (c_next_sample_time c) (u32 w)
  then c1 <| c_flags ::= fun f => Z.lor f CF_PENDING |> <| c_next_sample_time := u32 (u32 w + c_sample_ticks c) |>
  else c1.

Lemma land_1_odd x v : (Z.land x 1 =? b2z v) = Bool.eqb v (Z.odd x).
Proof.
  change 1 with (Z.ones 1). rewrite Z.land_ones by lia. change (2 ^ 1) with 2. rewrite Zmod_odd.
  by destruct (Z.odd x), v.
Qed.

Lemma counter_poll c s w :
  polling s c w ->
  exists s', counter_event oid s = (Ok SF_RESCHEDULE, s')
    /\ polling s' (polled c (hw_pin (ticks (m_hw s)) (c_pin c)) w) (w + c_poll_ticks c) /\ ticks (m_hw s') = S (ticks (m_hw s)).
Proof.
  intros D. pose proof (dv_view _ _ _ _ _ D) as V. unfold counter_event. rewrite (bind_ok _ _ _ _ _ (get_counter_run _ _ V)).
  destruct (device_get _ _ _ _ _ D) as (tm & Et & _ & Ew). unfold counter_timer. rewrite (bind_ok _ _ _ _ _ Et), Ew.
  unfold gpio_in_read. msimpl. set (v := hw_pin _ _). set (s1 := s <| m_hw ::= upd ticks S |>). rewrite land_1_odd.
  assert (D1 : device oid s1 (OCounter c) F_counter_event (u32 w)) by (by apply device_hw).
  set (c1 := if Bool.eqb v (Z.odd (c_count c)) then c else c <| c_count ::= fun n => u32 (n + 1) |> <| c_last_count_time := u32 w |>).
  assert (exists s2, when (negb (Bool.eqb v (Z.odd (c_count c))))
      (upd_counter oid (fun c => c <| c_count ::= fun n => u32 (n + 1) |> <| c_last_count_time := u32 w |>)) s1 = (Ok tt, s2)
    /\ device oid s2 (OCounter c1) F_counter_event (u32 w) /\ m_hw s2 = m_hw s1) as (s2 & E2 & D2 & H2).
  { unfold c1. destruct (Bool.eqb v (Z.odd (c_count c))); cbn [negb]; [by exists s1 |].
    eexists. split; [exact (upd_counter_run _ c s1 V) |]. split; [by eapply device_put | done]. }
  change (if negb ?b then ?m else mret tt) with (when (negb b) m). rewrite (bind_ok _ _ _ _ _ E2).
  set (c2 := polled c v w).
  match goal with |- context [(if timer_is_before _ _ then ?m else mret tt)] =>
    assert (exists s3, (if timer_is_before (c_next_sample_time c) (u32 w) then m else mret tt) s2 = (Ok tt, s3)
      /\ device oid s3 (OCounter c2) F_counter_event (u32 w) /\ m_hw s3 = m_hw s1) as (s3 & E3 & D3 & H3) end.
  { unfold c2, polled. fold c1. destruct (timer_is_before _ _); [| by exists s2].
    rewrite (bind_ok _ _ _ _ _ (upd_counter_run _ _ _ (dv_view _ _ _ _ _ D2))). eexists. split; [reflexivity |].
    split; [| done]. pose proof (device_put oid s2 _ (OCounter (c1 <| c_flags ::= fun f => Z.lor f CF_PENDING |>
      <| c_next_sample_time := u32 (u32 w + c_sample_ticks c1) |>)) _ _ D2) as D3.
    replace (c_sample_ticks c) with (c_sample_ticks c1) by (unfold c1; by case_match).
    revert D3. by apply device_frame. }
  rewrite (bind_ok _ _ _ _ _ E3). unfold add_waketime.
  destruct (device_upd oid s3 _ _ F_counter_event (u32 w) (u32 (w + c_poll_ticks c))
    (fun r => r <| t_waketime ::= fun w => u32 (w + c_poll_ticks c) |>) D3) as (s4 & E4 & D4 & _ & H4 & _).
  { intros t Hf Hw. simpl. rewrite Hf, Hw. by rewrite u32_add_l. }
  rewrite (bind_ok _ _ _ _ _ E4). exists s4. split; [done |]. split; [done |]. by rewrite H4, H3.
Qed.

Lemma polled_pin c v w : c_pin (polled c v w) = c_pin c /\ c_poll_ticks (polled c v w) = c_poll_ticks c.
Proof. unfold polled. repeat case_match; done. Qed.

Lemma polled_count c v w : is_u32 (c_count c) ->
  is_u32 (c_count (polled c v w)) /\ Z.odd (c_count (polled c v w)) = v
  /\ c_count (polled c v w) = u32 (c_count c + (if Bool.eqb v (Z.odd (c_count c)) then 0 else 1))
  /\ c_last_count_time (polled c v w) = if Bool.eqb v (Z.odd (c_count c)) then c_last_count_time c else u32 w.
Proof.
  intros Hc. unfold polled. destruct (Bool.eqb_spec v (Z.odd (c_count c))) as [-> | Hne].
  - rewrite Z.add_0_r, (u32_small (c_count c)) by done. by case_match.
  - assert (Ho : Z.odd (u32 (c_count c + 1)) = v).
    { unfold u32. rewrite Z.mod_eq by lia.
      replace (c_count c + 1 - 2 ^ 32 * ((c_count c + 1) / 2 ^ 32)) with (c_count c + 1 + 2 * (- (2 ^ 31 * ((c_count c + 1) / 2 ^ 32)))) by lia.
      rewrite Z.odd_add_mul_2, Z.odd_add. by destruct v, (Z.odd (c_count c)). }
    case_match; simpl; split_and!; try done; apply u32_range.
Qed.

(** The counter counts edges.  After any number of polls the count has
    grown by the number of level changes read, its lowest bit is the level read
    last, and the time reported with it is that of the poll that saw the last
    change. *)
Theorem counter_counts_edges n : forall s c w,
  polling s c w -> is_u32 (c_count c) ->
  let l := levels (c_pin c) (ticks (m_hw s)) n in
  exists s' c', counter_events n oid s = (Ok tt, s') /\ polling s' c' (w + Z.of_nat n * c_poll_ticks c)
    /\ c_count c' = u32 (c_count c + Z.of_nat (flips (Z.odd (c_count c)) l))
    /\ Z.odd (c_count c') = List.last l (Z.odd (c_count c))
    /\ c_last_count_time c' = last_flip (Z.odd (c_count c)) l (c_last_count_time c) w (c_poll_ticks c).
Proof.
  induction n as [| n IH]; intros s c w P Hc l.
  { exists s, c. rewrite Z.mul_0_l, !Z.add_0_r, u32_small by done. done. }
  destruct (counter_poll c s w P) as (s1 & E1 & P1 & T1). cbn [counter_events]. rewrite (bind_ok _ _ _ _ _ E1).
  unfold l, levels. cbn [seq fmap list_fmap]. set (v := hw_pin (ticks (m_hw s)) (c_pin c)) in *.
  destruct (polled_pin c v w) as [Hp Ht]. destruct (polled_count c v w Hc) as (Hc1 & Ho & Hn & Hl).
  destruct (IH s1 (polled c v w) (w + c_poll_ticks c) P1 Hc1) as (s' & c' & E & P' & R1 & R2 & R3).
  rewrite Hp, Ht, T1, Ho in *. fold (levels (c_pin c) (S (ticks (m_hw s))) n). set (l' := levels _ _ n) in *.
  exists s', c'. split; [done |]. split_and!.
  - replace (w + Z.of_nat (S n) * c_poll_ticks c) with (w + c_poll_ticks c + Z.of_nat n * c_poll_ticks c) by lia. done.
  - rewrite R1, Hn, u32_add_l. cbn [flips]. f_equal. destruct (Bool.eqb v _); lia.
  - rewrite R2. symmetry. apply last_cons_default.
  - rewrite R3, Hl. done.
Qed.
End Counting.

(** A fan tachometer, polled every 1000 ticks. *)
Definition demo_tacho : counter := mk_counter 1000 64000 5000 0xffffffff 0 0 12.
Definition demo_counting : mcu :=
  initial_mcu <| m_base ::= fun b => b <| oids := Some [mk_oid (Some T_counter) (Some (OCounter demo_tacho))] |> <| oid_count := 1 |> |>
    <| m_sched ::= upd timers (insert (counter_timer 0) (mk_timer None (Some F_counter_event) 5000)) |>.

Lemma counter_counts_edges_witness :
  exists s' c', counter_events (B := demo_board) 4 0 demo_counting = (Ok tt, s') /\ polling 0 s' c' 9000
    /\ c_count c' = 2 /\ c_last_count_time c' = 8000.
Proof.
  edestruct (counter_counts_edges (B := demo_board) 0 4 demo_counting demo_tacho 5000) as (s' & c' & E & P & R & _ & T).
  - split; [reflexivity |]. exists (mk_timer None (Some F_counter_event) 5000). split; [vm_compute; reflexivity | split; reflexivity].
  - vm_decide.
  - exists s', c'. split; [exact E |]. split; [exact P |]. split; [rewrite R; vm_compute; reflexivity | rewrite T; vm_compute; reflexivity].
Defined.
