(* ===== verification/Thermocouple.v ===== *)
(** * Thermocouple: temperature chips on an SPI bus

    Models [src/src/thermocouple.c]: a timer asks for a reading, a task reads
    the chip, reports the value and shuts the machine down after too many
    invalid readings in a row. *)

From S2P Require Import Prelude Wire State Command Sched Basecmd Stepper Spi.
Import Encode.

Definition TS_CHIP_MAX31855 : Z := 0.
Definition TS_CHIP_MAX31856 : Z := 1.
Definition TS_CHIP_MAX31865 : Z := 2.
Definition TS_CHIP_MAX6675 : Z := 3.

Definition TS_PENDING : Z := 1.

Definition MAX31856_LTCBH_REG : Z := 0x0C.
Definition MAX31856_SR_REG : Z := 0x0F.
Definition MAX31865_RTDMSB_REG : Z := 0x01.
Definition MAX31865_FAULTSTAT_REG : Z := 0x07.

(** [be32_to_cpu] of the bytes of a buffer, on a machine of either order. *)
Definition be_bytes (l : list Z) : Z := foldl (fun v b => v * 256 + b) 0 l.

Section WithBoard.
Context `{B : Board}.

Definition get_thermocouple (oid : Z) : FW thermocouple :=
  o ← obj_get oid;
  match o with OThermocouple t => mret t | _ => fault "struct thermocouple_spi" end.

Definition upd_thermocouple (oid : Z) (f : thermocouple -> thermocouple) : FW unit :=
  t ← get_thermocouple oid; obj_put oid (OThermocouple (f t)).

Definition thermocouple_timer (oid : Z) : tptr := ObjTimer oid 0.

Definition thermocouple_event (oid : Z) : FW Z :=
  sched_wake_task W_thermocouple ;;
  upd_thermocouple oid (fun t => t <| tc_flags ::= fun f => Z.lor f TS_PENDING |>) ;;
  t ← get_thermocouple oid;
  add_waketime (thermocouple_timer oid) (tc_rest_time t) ;;
  mret SF_RESCHEDULE.

Definition command_config_thermocouple (args : list Z) : FW unit :=
  a2 ← arg args 2;
  let chip_type := u8 a2 in
  if chip_type >? TS_CHIP_MAX6675 then shutdown "Invalid thermocouple chip type"
  else
    a0 ← arg args 0;
    oid ← oid_alloc a0 T_thermocouple (sizeof_obj T_thermocouple);
    set_func (thermocouple_timer oid) F_thermocouple_event ;;
    a1 ← arg args 1;
    spi ← spidev_oid_lookup a1;
    upd_thermocouple oid (fun t => t <| tc_spi := spi |>) ;;
    upd_thermocouple oid (fun t => t <| tc_chip_type := chip_type |>).

Definition command_query_thermocouple (args : list Z) : FW unit :=
  a0 ← arg args 0;
  oid ← oid_lookup a0 T_thermocouple;
  sched_del_timer (thermocouple_timer oid) ;;
  a1 ← arg args 1;
  set_waketime (thermocouple_timer oid) a1 ;;
  a2 ← arg args 2;
  upd_thermocouple oid (fun t => t <| tc_rest_time := a2 |>) ;;
  if negb (truth a2) then mret tt
  else
    a3 ← arg args 3;
    a4 ← arg args 4;
    a5 ← arg args 5;
    upd_thermocouple oid (fun t => t <| tc_min_value := a3 |> <| tc_max_value := a4 |>
      <| tc_max_invalid := u8 a5 |> <| tc_invalid_count := 0 |>) ;;
    sched_add_timer (thermocouple_timer oid).

Definition thermocouple_fmt : string := "thermocouple_result oid=%c next_clock=%u value=%u fault=%c".
Definition thermocouple_reason : string := "Thermocouple reader fault".

Definition thermocouple_respond (oid next_begin_time value fault : Z) : FW unit :=
  sendf thermocouple_fmt [VInt oid; VInt next_begin_time; VInt value; VInt fault] ;;
  t ← get_thermocouple oid;
  if truth fault || (value <? tc_min_value t) || (value >? tc_max_value t)
  then
    upd_thermocouple oid (fun t => t <| tc_invalid_count ::= fun c => u8 (c + 1) |>) ;;
    t ← get_thermocouple oid;
    if tc_invalid_count t <? tc_max_invalid t then mret tt
    else
      sched_try_shutdown thermocouple_reason ;;
      upd_thermocouple oid (fun t => t <| tc_invalid_count := 0 |>)
  else upd_thermocouple oid (fun t => t <| tc_invalid_count := 0 |>).

(** [msg[i]]. *)
Definition msg_byte (msg : list Z) (i : nat) : FW Z := deref "msg[]" (msg !! i).

Definition thermocouple_handle_max31855 (oid next_begin_time : Z) : FW unit :=
  t ← get_thermocouple oid;
  msg ← spidev_transfer (tc_spi t) true [0; 0; 0; 0];
  let value := u32 (be_bytes msg) in
  thermocouple_respond oid next_begin_time value (u8 (Z.land value 0x07)).

Definition thermocouple_handle_max31856 (oid next_begin_time : Z) : FW unit :=
  t ← get_thermocouple oid;
  msg ← spidev_transfer (tc_spi t) true [MAX31856_LTCBH_REG; 0; 0; 0];
  let value := Z.land (u32 (be_bytes msg)) 0x00ffffff in
  msg ← spidev_transfer (tc_spi t) true [MAX31856_SR_REG; 0];
  fault ← msg_byte msg 1;
  thermocouple_respond oid next_begin_time value fault.

(** The fourth byte of [msg] is not part of the transfer. *)
Definition thermocouple_handle_max31865 (oid next_begin_time : Z) : FW unit :=
  t ← get_thermocouple oid;
  msg ← spidev_transfer (tc_spi t) true [MAX31865_RTDMSB_REG; 0; 0];
  let value := Z.land (Z.shiftr (u32 (be_bytes (msg ++ [0]))) 8) 0xffff in
  msg ← spidev_transfer (tc_spi t) true [MAX31865_FAULTSTAT_REG; 0];
  b ← msg_byte msg 1;
  let fault := Z.lor (clr b 0x03) (Z.land value 0x0001) in
  thermocouple_respond oid next_begin_time value fault.

Definition thermocouple_handle_max6675 (oid next_begin_time : Z) : FW unit :=
  t ← get_thermocouple oid;
  msg ← spidev_transfer (tc_spi t) true [0; 0];
  let value := u16 (be_bytes msg) in
  thermocouple_respond oid next_begin_time value (u8 (Z.land value 0x06)).

(** Body of the loop of [thermocouple_task]. *)
Definition thermocouple_read (oid : Z) : FW unit :=
  t ← get_thermocouple oid;
  if negb (has (tc_flags t) TS_PENDING) then mret tt
  else
    tm ← tm_get (thermocouple_timer oid);
    let next_begin_time := t_waketime tm in
    upd_thermocouple oid (fun t => t <| tc_flags ::= fun f => clr f TS_PENDING |>) ;;
    if tc_chip_type t =? TS_CHIP_MAX31855 then thermocouple_handle_max31855 oid next_begin_time
    else if tc_chip_type t =? TS_CHIP_MAX31856 then thermocouple_handle_max31856 oid next_begin_time
    else if tc_chip_type t =? TS_CHIP_MAX31865 then thermocouple_handle_max31865 oid next_begin_time
    else if tc_chip_type t =? TS_CHIP_MAX6675 then thermocouple_handle_max6675 oid next_begin_time
    else mret tt.

Definition thermocouple_task : FW unit :=
  w ← sched_check_wake W_thermocouple;
  when w (foreach_oid T_thermocouple thermocouple_read).

(** A series of readings: time, value and fault. *)
Fixpoint respond_all (oid : Z) (rs : list (Z * Z * Z)) : FW unit :=
  match rs with
  | [] => mret tt
  | (time, value, fault) :: rs => thermocouple_respond oid time value fault ;; respond_all oid rs
  end.
End WithBoard.

(** ** Invalid readings in a row *)
Section Invalid.
Context `{B : Board} (oid : Z) (lo hi m : Z).
Implicit Types (s : mcu) (t : thermocouple) (r : Z * Z * Z).

(** A reading with a fault or outside the limits. *)
Definition bad r : bool := let '(_, value, fault) := r in truth fault || (value <? lo) || (value >? hi).

Hypothesis Hmsg : forall time value fault, is_u8 fault ->
  fits (ctr_lookup_encoder thermocouple_fmt) [VInt oid; VInt time; VInt value; VInt fault].

(** The thermocouple after [k] bad readings in a row, in a running machine. *)
Record watching s (k : Z) : Prop := {
  wt_view : exists t, obj_view s oid = Some (OThermocouple t) /\ tc_min_value t = lo /\ tc_max_value t = hi
    /\ tc_max_invalid t = m /\ tc_invalid_count t = k;
  wt_con : con_wf (m_con s);
  wt_running : shutdown_status (m_sched s) = 0;
}.

Lemma get_thermocouple_run t s : obj_view s oid = Some (OThermocouple t) -> get_thermocouple oid s = (Ok t, s).
Proof. intros H. unfold get_thermocouple. by rewrite (bind_ok _ _ _ _ _ (obj_get_run _ _ _ H)). Qed.

Lemma upd_thermocouple_run f t s :
  obj_view s oid = Some (OThermocouple t) -> upd_thermocouple oid f s = (Ok tt, put_obj oid (OThermocouple (f t)) s).
Proof. intros H. unfold upd_thermocouple. by rewrite (bind_ok _ _ _ _ _ (get_thermocouple_run _ _ H)). Qed.

Lemma watching_count s k c t :
  watching s k -> obj_view s oid = Some (OThermocouple t) ->
  watching (put_obj oid (OThermocouple (t <| tc_invalid_count := c |>)) s) c.
Proof.
  intros [(t' & V & H) C R] V'. simplify_eq. split; [| done | done]. eexists. split; [by eapply obj_view_put | tauto].
Qed.

(** One reading. *)
Lemma respond_step s k time value fault :
  watching s k -> 0 <= k <= 254 -> is_u8 fault ->
  if bad (time, value, fault)
  then if k + 1 <? m then exists s', thermocouple_respond oid time value fault s = (Ok tt, s') /\ watching s' (k + 1)
       else exists s', thermocouple_respond oid time value fault s = (Shut thermocouple_reason, s')
  else exists s', thermocouple_respond oid time value fault s = (Ok tt, s') /\ watching s' 0.
Proof.
  intros [(t & V & H1 & H2 & H3 & Hk) C R] Hr Hf. unfold thermocouple_respond.
  destruct (command_sendf_total thermocouple_fmt (ctr_lookup_encoder thermocouple_fmt)
    [VInt oid; VInt time; VInt value; VInt fault] s C (Hmsg _ _ _ Hf)) as (c' & log & E & Hc & _).
  fold (sendf thermocouple_fmt [VInt oid; VInt time; VInt value; VInt fault]) in E. rewrite (bind_ok _ _ _ _ _ E).
  set (s1 := upd m_hw _ _). assert (V1 : obj_view s1 oid = Some (OThermocouple t)) by done.
  assert (W1 : watching s1 k) by (split; [by exists t | done | done]). rewrite (bind_ok _ _ _ _ _ (get_thermocouple_run _ _ V1)).
  cbn [bad]. rewrite H1, H2. destruct (truth fault || _ || _).
  - rewrite (bind_ok _ _ _ _ _ (upd_thermocouple_run _ _ _ V1)), (bind_ok _ _ _ _ _ (get_thermocouple_run _ _ (obj_view_put _ _ _ _ V1))).
    set (t2 := t <| tc_invalid_count ::= _ |>). change (tc_max_invalid t2) with (tc_max_invalid t).
    assert (E2 : tc_invalid_count t2 = k + 1) by (unfold t2; simpl; rewrite Hk; apply u8_small; unfold is_u8; lia).
    rewrite E2, H3. destruct (k + 1 <? m).
    + eexists. split; [reflexivity |]. rewrite <- E2. exact (watching_count s1 k (u8 (tc_invalid_count t + 1)) t W1 V1).
    + unfold sched_try_shutdown. rewrite bind_assoc, bind_gets. simpl. rewrite R. simpl. by eexists.
  - rewrite (upd_thermocouple_run _ _ _ V1). eexists. split; [reflexivity |]. exact (watching_count s1 k 0 t W1 V1).
Qed.

(** [m] bad readings in a row somewhere in [rs], the first [k] of them before it. *)
Definition run_of_bad (k : Z) (rs : list (Z * Z * Z)) : Prop :=
  (exists l1 l2, rs = l1 ++ l2 /\ Forall (fun r => bad r = true) l1 /\ Z.of_nat (length l1) + k = m /\ l1 <> [])
  \/ exists l0 l1 l2, rs = l0 ++ l1 ++ l2 /\ Forall (fun r => bad r = true) l1 /\ Z.of_nat (length l1) = m /\ l1 <> [].

Lemma run_bad k r rs : bad r = true -> 0 <= k -> k + 1 < m -> run_of_bad k (r :: rs) <-> run_of_bad (k + 1) rs.
Proof.
  intros Hb Hk Hm. split.
  - intros [(l1 & l2 & E & Hl & Hn & Hne) | (l0 & l1 & l2 & E & Hl & Hn & Hne)].
    + destruct l1 as [| r1 l1]; [done |]. injection E as <- ->. inversion Hl; subst. left. exists l1, l2.
      split_and!; try done; simpl in *; [lia |]. intros ->. simpl in *. lia.
    + destruct l0 as [| r0 l0]; [| right; exists l0, l1, l2; injection E as _ ->; done].
      destruct l1 as [| r1 l1]; [done |]. injection E as <- ->. inversion Hl; subst. simpl in Hn. left.
      exists (take (Z.to_nat (m - k - 1)) l1), (drop (Z.to_nat (m - k - 1)) l1 ++ l2). split_and!.
      * by rewrite app_assoc, take_drop.
      * by apply Forall_take.
      * rewrite length_take. lia.
      * intros E%(f_equal length). rewrite length_take in E. simpl in E. lia.
  - intros [(l1 & l2 & -> & Hl & Hn & Hne) | (l0 & l1 & l2 & -> & Hl & Hn & Hne)].
    + left. exists (r :: l1), l2. split_and!; try done; [by constructor | simpl; lia].
    + right. by exists (r :: l0), l1, l2.
Qed.

Lemma run_good k r rs : bad r = false -> run_of_bad k (r :: rs) <-> run_of_bad 0 rs.
Proof.
  intros Hb. split.
  - intros [(l1 & l2 & E & Hl & Hn & Hne) | (l0 & l1 & l2 & E & Hl & Hn & Hne)].
    + destruct l1 as [| r1 l1]; [done |]. injection E as <- ->. inversion Hl; congruence.
    + destruct l0 as [| r0 l0]; [| right; exists l0, l1, l2; injection E as _ ->; done].
      destruct l1 as [| r1 l1]; [done |]. injection E as <- ->. inversion Hl; congruence.
  - intros [(l1 & l2 & -> & Hl & Hn & Hne) | (l0 & l1 & l2 & -> & Hl & Hn & Hne)]; right;
      [exists [r], l1, l2 | exists (r :: l0), l1, l2]; split_and!; try done; lia.
Qed.

(** C35: the machine is shut down when, and only when, [max_invalid] readings in
    a row are invalid: a shorter series of bad readings, however often it
    occurs, is tolerated, and a longer one never is. *)
Theorem thermocouple_shutdown_iff rs : forall s k,
  watching s k -> 1 <= m <= 255 -> 0 <= k < m -> Forall (fun r => is_u8 r.2) rs ->
  (run_of_bad k rs -> exists s', respond_all oid rs s = (Shut thermocouple_reason, s'))
  /\ (~ run_of_bad k rs -> exists s' k', respond_all oid rs s = (Ok tt, s') /\ watching s' k' /\ 0 <= k' < m).
Proof.
  induction rs as [| [[time value] fault] rs IH]; intros s k W Hm Hk Hu; cbn [respond_all].
  { split; [| intros _; by exists s, k]. intros [(l1 & l2 & E & _ & _ & Hne) | (l0 & l1 & l2 & E & _ & _ & Hne)].
    - symmetry in E. by apply app_eq_nil in E as [-> _].
    - symmetry in E. apply app_eq_nil in E as [_ E]. by apply app_eq_nil in E as [-> _]. }
  inversion Hu as [| ? ? Hf Hu']; subst. pose proof (respond_step s k time value fault W ltac:(lia) Hf) as Hstep. destruct (bad (time, value, fault)) eqn:Hb.
  - destruct (Z.ltb_spec (k + 1) m).
    + destruct Hstep as (s1 & E & W1). rewrite (bind_ok _ _ _ _ _ E), (run_bad k _ rs Hb) by lia. apply IH; [done | done | lia | done].
    + destruct Hstep as (s1 & E). rewrite (bind_shut _ _ _ _ _ E). split; [by exists s1 |]. intros Hn. exfalso. apply Hn.
      left. exists [(time, value, fault)], rs. split_and!; try done; [by constructor | simpl; lia].
  - destruct Hstep as (s1 & E & W1). rewrite (bind_ok _ _ _ _ _ E), (run_good k _ rs Hb). apply IH; [done | done | lia | done].
Qed.
End Invalid.

(** A chip with limits 100 and 4000 that may fail twice. *)
Definition demo_thermocouple : thermocouple := mk_thermocouple 64000 100 4000 0 3 0 0 0.
Definition demo_temperature : mcu :=
  initial_mcu <| m_base ::= fun b => b <| oids := Some [mk_oid (Some T_thermocouple) (Some (OThermocouple demo_thermocouple))] |> <| oid_count := 1 |> |>.
Definition demo_chip_encoder : command_encoder := mk_encoder 5 30 [PT_byte; PT_uint32; PT_uint32; PT_byte].
#[local] Instance demo_chip_board : Board :=
  demo_board_msgs (fun _ => demo_chip_encoder) (fun _ => demo_encoder) false (fun n => u32 (100 * Z.of_nat n)).

Lemma thermocouple_shutdown_iff_witness :
  exists s', respond_all 0 [(1, 5, 0); (2, 200, 0); (3, 5, 0); (4, 300, 1); (5, 5000, 0); (6, 300, 0)] demo_temperature
    = (Shut thermocouple_reason, s').
Proof.
  destruct (thermocouple_shutdown_iff 0 100 4000 3) with
    (rs := [(1, 5, 0); (2, 200, 0); (3, 5, 0); (4, 300, 1); (5, 5000, 0); (6, 300, 0)]) (s := demo_temperature) (k := 0) as [H _].
  - intros time value fault Hf. split; [| vm_compute; discriminate]. repeat (apply Forall2_cons; split; [try done; vm_decide |]). done.
  - split; [eexists; split_and!; reflexivity | vm_decide | reflexivity].
  - lia.
  - lia.
  - apply (bool_decide_unpack _). vm_compute. exact I.
  - apply H. right. exists [(1, 5, 0); (2, 200, 0)], [(3, 5, 0); (4, 300, 1); (5, 5000, 0)], [(6, 300, 0)].
    split_and!; try reflexivity; [repeat constructor | discriminate].
Defined.
