(* ===== verification/Lis2dw.v ===== *)
(** * Lis2dw: an accelerometer on an SPI bus

    Models [src/src/sensor_lis2dw.c]: a timer starts the measurements, a task
    reads samples of six bytes from the chip into a buffer of 48 bytes, and a
    full buffer is sent to the host under a sequence number. *)

From S2P Require Import Prelude Wire State Command Sched Basecmd Stepper Spi.
Import Encode.

Definition LIS_AR_DATAX0 : Z := 0x28.
Definition LIS_AM_READ : Z := 0x80.
Definition LIS_FIFO_CTRL : Z := 0x2E.
Definition LIS_FIFO_SAMPLES : Z := 0x2F.

Definition LIS_HAVE_START : Z := 1.
Definition LIS_RUNNING : Z := 2.
Definition LIS_PENDING : Z := 4.

Section WithBoard.
Context `{B : Board}.

Definition get_lis2dw (oid : Z) : FW lis2dw :=
  o ← obj_get oid;
  match o with OLis2dw l => mret l | _ => fault "struct lis2dw" end.

Definition upd_lis2dw (oid : Z) (f : lis2dw -> lis2dw) : FW unit :=
  l ← get_lis2dw oid; obj_put oid (OLis2dw (f l)).

Definition lis2dw_timer (oid : Z) : tptr := ObjTimer oid 0.

Definition lis2dw_event (oid : Z) : FW Z :=
  upd_lis2dw oid (fun l => l <| lx_flags ::= fun f => Z.lor f LIS_PENDING |>) ;;
  sched_wake_task W_lis2dw ;;
  mret SF_DONE.

Definition command_config_lis2dw (args : list Z) : FW unit :=
  a0 ← arg args 0;
  oid ← oid_alloc a0 T_lis2dw (sizeof_obj T_lis2dw);
  set_func (lis2dw_timer oid) F_lis2dw_event ;;
  a1 ← arg args 1;
  spi ← spidev_oid_lookup a1;
  upd_lis2dw oid (fun l => l <| lx_spi := spi |>).

Definition lis2dw_data_fmt : string := "lis2dw_data oid=%c sequence=%hu data=%*s".

Definition lis2dw_report (ax oid : Z) : FW unit :=
  l ← get_lis2dw ax;
  sendf lis2dw_data_fmt [VInt oid; VInt (lx_sequence l); VBuf (lx_data_count l) (lx_data l)] ;;
  upd_lis2dw ax (fun l => l <| lx_data_count := 0 |> <| lx_sequence ::= fun q => u16 (q + 1) |>).

Definition lis2dw_status (ax oid time1 time2 fifo : Z) : FW unit :=
  l ← get_lis2dw ax;
  sendf "lis2dw_status oid=%c clock=%u query_ticks=%u next_sequence=%hu buffered=%c fifo=%c limit_count=%hu"
    [VInt oid; VInt time1; VInt (u32 (time2 - time1)); VInt (lx_sequence l); VInt (lx_data_count l); VInt fifo; VInt (lx_limit_count l)].

Definition lis2dw_reschedule_timer (ax : Z) : FW unit :=
  now ← timer_read_time;
  l ← get_lis2dw ax;
  set_waketime (lis2dw_timer ax) (u32 (now + lx_rest_ticks l)) ;;
  sched_add_timer (lis2dw_timer ax).

(** [msg[i]]. *)
Definition msg_at (msg : list Z) (i : nat) : FW Z := deref "msg[]" (msg !! i).

(** [ax->data[ax->data_count]] and the five bytes behind it. *)
Definition lis2dw_store (ax : Z) (d : list Z) : FW unit :=
  l ← get_lis2dw ax;
  data ← deref "data[]" (store_bytes (lx_data l) (lx_data_count l) d);
  upd_lis2dw ax (fun l => l <| lx_data := data |> <| lx_data_count ::= fun c => u8 (c + 6) |>).

Definition lis2dw_query (ax oid : Z) : FW unit :=
  l ← get_lis2dw ax;
  msg ← spidev_transfer (lx_spi l) true [Z.lor LIS_AR_DATAX0 LIS_AM_READ; 0; 0; 0; 0; 0; 0];
  fifo ← spidev_transfer (lx_spi l) true [Z.lor LIS_FIFO_SAMPLES LIS_AM_READ; 0];
  f1 ← msg_at fifo 1;
  let fifo_empty := Z.land f1 0x3F in
  let fifo_ovrn := Z.land f1 0x40 in
  d0 ← msg_at msg 1; d1 ← msg_at msg 2; d2 ← msg_at msg 3; d3 ← msg_at msg 4; d4 ← msg_at msg 5; d5 ← msg_at msg 6;
  lis2dw_store ax [d0; d1; d2; d3; d4; d5] ;;
  l ← get_lis2dw ax;
  when (lx_data_count l + 6 >? 48) (lis2dw_report ax oid) ;;
  when (truth fifo_ovrn) (upd_lis2dw ax (fun l => l <| lx_limit_count ::= fun c => u16 (c + 1) |>)) ;;
  l ← get_lis2dw ax;
  if negb (truth fifo_empty) && negb (truth (lx_fifo_disable l)) then sched_wake_task W_lis2dw
  else
    when (has (lx_flags l) LIS_RUNNING)
      (sched_del_timer (lis2dw_timer ax) ;;
       upd_lis2dw ax (fun l => l <| lx_flags ::= fun f => clr f LIS_PENDING |>) ;;
       lis2dw_reschedule_timer ax).

Definition lis2dw_start (ax oid : Z) : FW unit :=
  sched_del_timer (lis2dw_timer ax) ;;
  upd_lis2dw ax (fun l => l <| lx_flags := LIS_RUNNING |> <| lx_fifo_disable := 0 |>) ;;
  l ← get_lis2dw ax;
  _ ← spidev_transfer (lx_spi l) false [LIS_FIFO_CTRL; 0xC0];
  lis2dw_reschedule_timer ax.

Definition lis2dw_stop (ax oid : Z) : FW unit :=
  sched_del_timer (lis2dw_timer ax) ;;
  upd_lis2dw ax (fun l => l <| lx_flags := 0 |> <| lx_fifo_disable := 1 |>) ;;
  lis2dw_query ax oid ;;
  end1_time ← timer_read_time;
  l ← get_lis2dw ax;
  _ ← spidev_transfer (lx_spi l) false [LIS_FIFO_CTRL; 0];
  end2_time ← timer_read_time;
  msg ← spidev_transfer (lx_spi l) true [Z.lor LIS_FIFO_SAMPLES LIS_AM_READ; 0];
  m1 ← msg_at msg 1;
  l ← get_lis2dw ax;
  when (truth (lx_data_count l)) (lis2dw_report ax oid) ;;
  lis2dw_status ax oid end1_time end2_time (Z.land m1 0x1f).

Definition command_query_lis2dw (args : list Z) : FW unit :=
  a0 ← arg args 0;
  ax ← oid_lookup a0 T_lis2dw;
  a2 ← arg args 2;
  if negb (truth a2) then lis2dw_stop ax (u8 a0)
  else
    sched_del_timer (lis2dw_timer ax) ;;
    a1 ← arg args 1;
    set_waketime (lis2dw_timer ax) a1 ;;
    upd_lis2dw ax (fun l => l <| lx_rest_ticks := a2 |> <| lx_flags := LIS_HAVE_START |> <| lx_sequence := 0 |>
      <| lx_limit_count := 0 |> <| lx_data_count := 0 |> <| lx_fifo_disable := 0 |>) ;;
    sched_add_timer (lis2dw_timer ax).

Definition command_query_lis2dw_status (args : list Z) : FW unit :=
  a0 ← arg args 0;
  ax ← oid_lookup a0 T_lis2dw;
  time1 ← timer_read_time;
  l ← get_lis2dw ax;
  msg ← spidev_transfer (lx_spi l) true [Z.lor LIS_FIFO_SAMPLES LIS_AM_READ; 0];
  time2 ← timer_read_time;
  m1 ← msg_at msg 1;
  lis2dw_status ax a0 time1 time2 (Z.land m1 0x1f).

(** Body of the loop of [lis2dw_task]. *)
Definition lis2dw_task_one (oid : Z) : FW unit :=
  l ← get_lis2dw oid;
  let flags := lx_flags l in
  if negb (has flags LIS_PENDING) then mret tt
  else if has flags LIS_HAVE_START then lis2dw_start oid oid
  else lis2dw_query oid oid.

Definition lis2dw_task : FW unit :=
  w ← sched_check_wake W_lis2dw;
  when w (foreach_oid T_lis2dw lis2dw_task_one).
End WithBoard.

(** ** The stream of samples

    [lview oid s]: the part of the sensor a reading session is about (bytes
    buffered, buffer, next sequence number), the reports of it handed to the
    transport so far, oldest first, and whether a message is being sent. *)
Abbreviation report := (Z * list Z)%type.

Definition report_of (oid : Z) (m : string * list varg) : option report :=
  match m with
  | (fmt, [VInt o; VInt q; VBuf n d]) =>
      if bool_decide (fmt = lis2dw_data_fmt) && (o =? oid) then Some (q, take (Z.to_nat n) d) else None
  | _ => None
  end.

#[local] Arguments report_of : simpl never.

Definition reports (oid : Z) (s : mcu) : list report := omap (report_of oid) (rev (sent_log (m_hw s))).

Definition core (l : lis2dw) : Z * list Z * Z := (lx_data_count l, lx_data l, lx_sequence l).

Definition core_of (oid : Z) (s : mcu) : option (Z * list Z * Z) :=
  match obj_view s oid with Some (OLis2dw l) => Some (core l) | _ => None end.

Definition lview (oid : Z) (s : mcu) : option (Z * list Z * Z) * (list report * Z) :=
  (core_of oid s, (reports oid s, in_sendf (m_cmd s))).

Section Stream.
Context `{B : Board} (oid : Z).
Implicit Types (s : mcu) (l : lis2dw).

(** [goes v v' m]: a run of [m] that returns takes the view [v] to [v']. *)
Definition goes {A : Type} v v' (m : FW A) : Prop :=
  forall s a s', lview oid s = v -> m s = (Ok a, s') -> lview oid s' = v'.

Lemma goes_bind {A C} v v1 v2 (m : FW A) (k : A -> FW C) :
  goes v v1 m -> (forall a, goes v1 v2 (k a)) -> goes v v2 (m ≫= k).
Proof. intros Hm Hk s c s' V (a & s1 & E1 & E2)%bind_inv. exact (Hk a _ _ _ (Hm _ _ _ V E1) E2). Qed.

Lemma goes_keeps {A} v (m : FW A) : keeps (lview oid) m -> goes v v m.
Proof. intros K s a s' <- E. exact (keeps_run _ _ _ _ _ K E). Qed.

Lemma goes_when v v' (b : bool) (m : FW unit) :
  (b = true -> goes v v' m) -> (b = false -> v' = v) -> goes v v' (when b m).
Proof. destruct b; intros H1 H2; [by apply H1 |]. rewrite H2 by done. by intros s a s' V [= _ <-]. Qed.

Lemma goes_if {A} v v' (b : bool) (m1 m2 : FW A) : goes v v' m1 -> goes v v' m2 -> goes v v' (if b then m1 else m2).
Proof. by destruct b. Qed.

Lemma core_of_inv s c : core_of oid s = Some c -> exists l, obj_view s oid = Some (OLis2dw l) /\ core l = c.
Proof. unfold core_of. repeat case_match; try done. intros [= <-]. eauto. Qed.

Lemma get_lis2dw_run l s : obj_view s oid = Some (OLis2dw l) -> get_lis2dw oid s = (Ok l, s).
Proof. intros H. unfold get_lis2dw. by rewrite (bind_ok _ _ _ _ _ (obj_get_run _ _ _ H)). Qed.

Lemma goes_get {C} c v v' (k : lis2dw -> FW C) :
  (forall l, core l = c -> goes (Some c, v) v' (k l)) -> goes (Some c, v) v' (get_lis2dw oid ≫= k).
Proof.
  intros H s a s' V. assert (core_of oid s = Some c) as (l & E & <-)%core_of_inv by (unfold lview in V; congruence).
  rewrite (bind_ok _ _ _ _ _ (get_lis2dw_run _ _ E)). by apply H.
Qed.

Lemma goes_upd c c' v (f : lis2dw -> lis2dw) :
  (forall l, core l = c -> core (f l) = c') -> goes (Some c, v) (Some c', v) (upd_lis2dw oid f).
Proof.
  intros H. unfold upd_lis2dw. apply goes_get. intros l Hl s a s' V. rewrite obj_put_run. intros [= _ <-].
  assert (core_of oid s = Some c) as (l' & E & _)%core_of_inv by (unfold lview in V; congruence).
  revert V. unfold lview, core_of. rewrite E, (obj_view_put _ _ _ _ E). intros [= _ <-]. by rewrite (H l Hl).
Qed.

(** A message handed to the transport outside of another one. *)
Lemma goes_sendf c r fmt ce args :
  goes (c, (r, 0)) (c, (r ++ option_list (report_of oid (fmt, args)), 0)) (command_sendf fmt ce args).
Proof.
  intros s [] s' V. unfold command_sendf. msimpl. assert (in_sendf (m_cmd s) = 0) as -> by (unfold lview in V; congruence).
  change (truth 0) with false. cbv iota. rewrite !bind_modify. intros ([] & s1 & E1 & [= <-])%bind_inv.
  assert (K : lview oid s1 = (c, (r ++ option_list (report_of oid (fmt, args)), 1))).
  { refine (eq_trans (keeps_run (lview oid) _ _ _ _ _ E1) _).
    - unfold console_sendf, console_put, command_encode_and_frame, set_con. keeps_tac.
    - revert V. unfold lview, core_of, obj_view, reports. simpl. intros [= -> <- _]. f_equal. f_equal.
      rewrite omap_app. simpl. by destruct (report_of oid (fmt, args)). }
  revert K. unfold lview, core_of, obj_view, reports. simpl. by intros [= -> -> _].
Qed.

Lemma goes_sched_add_timer c r t : goes (c, (r, 0)) (c, (r, 0)) (sched_add_timer t).
Proof.
  unfold sched_add_timer. eapply goes_bind; [apply goes_keeps; keeps_tac |]. intros tm. cbv zeta.
  eapply goes_bind; [apply goes_keeps; keeps_tac |]. intros tl.
  eapply goes_bind; [apply goes_keeps; keeps_tac |]. intros tlt.
  eapply goes_bind.
  - apply goes_keeps. pose proof (insert_timer_keeps (lview oid)) as K. unfold add_timer_clamp, timer_kick, timer_read_time. keeps_tac.
  - intros b. apply goes_when; [| done]. intros _. rewrite <- (app_nil_r r) at 2. apply goes_sendf.
Qed.

Lemma spidev_transfer_lview k rd data : keeps (lview oid) (spidev_transfer k rd data).
Proof.
  assert (Hb : forall ss n o i, keeps (lview oid) (spi_software_bits ss n o i)).
  { intros ss n. induction n as [| n IH]; intros o i; cbn [spi_software_bits]; unfold spi_software_bit; keeps_tac. }
  assert (Ht : forall ss d, keeps (lview oid) (spi_software_transfer ss rd d)).
  { intros ss d. induction d as [| x d IH]; cbn [spi_software_transfer]; keeps_tac. }
  unfold spidev_transfer, get_spi, bus_prepare, bus_transfer, spi_prepare, spi_transfer, spi_software_prepare.
  keeps_tac.
Qed.

Lemma sched_wake_task_lview w : keeps (lview oid) (sched_wake_task w).
Proof. by apply sched_wake_task_keeps. Qed.

(** [stream r0 xs v]: the samples [xs] of a session that began after the reports
    [r0] are, in order, the data of the reports sent since and the bytes still
    buffered; the reports are full and numbered from zero, and the buffer has
    room for one more sample. *)
Definition numbered (rs : list report) : Prop := forall i q d, rs !! i = Some (q, d) -> q = u16 (Z.of_nat i).

Definition stream (r0 : list report) (xs : list (list Z)) (v : option (Z * list Z * Z) * (list report * Z)) : Prop :=
  exists k rs d, v = (Some (6 * Z.of_nat k, d, u16 (Z.of_nat (length rs))), (r0 ++ rs, 0))
    /\ (k < 8)%nat /\ length d = 48%nat /\ numbered rs /\ Forall (fun x => length x.2 = 48%nat) rs
    /\ concat (snd <$> rs) ++ take (6 * k) d = concat xs /\ Forall (fun x => length x = 6%nat) xs.

Lemma numbered_snoc rs d : numbered rs -> numbered (rs ++ [(u16 (Z.of_nat (length rs)), d)]).
Proof.
  intros H i q x [E | [Hl E]]%lookup_app_Some; [by eapply H |].
  apply list_lookup_singleton_Some in E as [Hi [= <- _]]. by replace i with (length rs) by lia.
Qed.

Lemma goes_store k d d' q v x :
  (k < 8)%nat -> store_bytes d (6 * Z.of_nat k) x = Some d' ->
  goes (Some (6 * Z.of_nat k, d, q), v) (Some (6 * Z.of_nat (S k), d', q), v) (lis2dw_store oid x).
Proof.
  intros Hk Hs. unfold lis2dw_store. apply goes_get. intros l [= -> -> Hq]. rewrite Hs.
  apply goes_upd. unfold core. simpl. intros l' [= -> _ ->]. f_equal. f_equal. unfold u8. rewrite Z.mod_small; lia.
Qed.

Lemma goes_report k d q r :
  goes (Some (k, d, q), (r, 0)) (Some (0, d, u16 (q + 1)), (r ++ [(q, take (Z.to_nat k) d)], 0)) (lis2dw_report oid oid).
Proof.
  unfold lis2dw_report. apply goes_get. intros l [= -> -> ->]. eapply goes_bind.
  - unfold sendf. apply goes_sendf.
  - intros _. unfold report_of. rewrite bool_decide_eq_true_2, Z.eqb_refl by done. simpl. apply goes_upd. unfold core. simpl. by intros l' [= _ -> ->].
Qed.
(** The bytes of a reading: the six behind the command byte. *)
Definition sample (msg : list Z) : list Z := take 6 (drop 1 msg).

Definition query_bytes : list Z := [Z.lor LIS_AR_DATAX0 LIS_AM_READ; 0; 0; 0; 0; 0; 0].

Lemma goes_reschedule c r : goes (Some c, (r, 0)) (Some c, (r, 0)) (lis2dw_reschedule_timer oid).
Proof.
  unfold lis2dw_reschedule_timer. eapply goes_bind; [apply goes_keeps; unfold timer_read_time; keeps_tac |]. intros now.
  apply goes_get. intros l' Hl'. eapply goes_bind; [apply goes_keeps; unfold set_waketime; keeps_tac |]. intros _.
  apply goes_sched_add_timer.
Qed.

(** What follows the reading in [lis2dw_query] leaves the samples alone. *)
Lemma goes_query_end c r (b1 b2 : bool) :
  goes (Some c, (r, 0)) (Some c, (r, 0))
    (when b1 (upd_lis2dw oid (fun l => l <| lx_limit_count ::= fun c => u16 (c + 1) |>)) ;;
     l ← get_lis2dw oid;
     if b2 && negb (truth (lx_fifo_disable l)) then sched_wake_task W_lis2dw
     else
       when (has (lx_flags l) LIS_RUNNING)
         (sched_del_timer (lis2dw_timer oid) ;;
          upd_lis2dw oid (fun l => l <| lx_flags ::= fun f => clr f LIS_PENDING |>) ;;
          lis2dw_reschedule_timer oid)).
Proof.
  eapply goes_bind; [apply goes_when; [intros _; by apply goes_upd | done] |]. intros _. apply goes_get. intros l Hl.
  apply goes_if; [apply goes_keeps, sched_wake_task_lview |]. apply goes_when; [intros _ | done].
  eapply goes_bind; [apply goes_keeps; keeps_tac |]. intros _. eapply goes_bind; [by apply goes_upd |]. intros _.
  apply goes_reschedule.
Qed.

(** A sample stored, the buffer sent when the next one would not fit. *)
Lemma goes_store_report r0 xs x v :
  length x = 6%nat -> stream r0 xs v ->
  exists v', stream r0 (xs ++ [x]) v' /\
    forall m : FW unit, goes v' v' m ->
      goes v v' (lis2dw_store oid x ;; l ← get_lis2dw oid; when (lx_data_count l + 6 >? 48) (lis2dw_report oid oid) ;; m).
Proof.
  intros Hx (k & rs & d & -> & Hk & Hd & Hn & Hf & Hc & H6).
  assert (H6' : Forall (fun y => length y = 6%nat) (xs ++ [x])) by (apply Forall_app; split; [done | by apply Forall_singleton]).
  destruct (store_bytes_append d 0 (6 * Z.of_nat k) x) as (d' & Hs & Hd'); [lia | lia |].
  assert (Hl : length d' = 48%nat) by (rewrite (store_bytes_length _ _ _ _ Hs); done).
  rewrite !drop_0, !Z.sub_0_r, Hx in Hd'. replace (Z.to_nat (6 * Z.of_nat k + Z.of_nat 6)) with (6 * S k)%nat in Hd' by lia.
  replace (Z.to_nat (6 * Z.of_nat k)) with (6 * k)%nat in Hd' by lia.
  assert (Hc' : concat (snd <$> rs) ++ take (6 * S k) d' = concat (xs ++ [x])).
  { rewrite Hd', app_assoc, Hc, concat_app. simpl. by rewrite app_nil_r. }
  assert (Hq : forall a, u16 (u16 a + 1) = u16 (a + 1)) by (intros; unfold u16; apply Zplus_mod_idemp_l).
  destruct (decide (k = 7%nat)) as [-> | Hk7].
  - exists (Some (0, d', u16 (u16 (Z.of_nat (length rs)) + 1)), ((r0 ++ rs) ++ [(u16 (Z.of_nat (length rs)), take 48 d')], 0)).
    split.
    + exists 0%nat, (rs ++ [(u16 (Z.of_nat (length rs)), take 48 d')]), d'. split_and!; [| lia | done | by apply numbered_snoc | | | done].
      * rewrite length_app, app_assoc. simpl. by rewrite Nat2Z.inj_add, Hq.
      * apply Forall_app. split; [done |]. apply Forall_singleton. simpl. rewrite length_take. lia.
      * rewrite fmap_app, concat_app, Nat.mul_0_r, take_0, app_nil_r. simpl. rewrite app_nil_r. exact Hc'.
    + intros m Hm. eapply goes_bind; [by apply goes_store |]. intros _. apply goes_get. intros l [= -> _ _].
      eapply goes_bind; [| intros _; exact Hm]. apply goes_when; [| done]. intros _. exact (goes_report 48 d' _ _).
  - exists (Some (6 * Z.of_nat (S k), d', u16 (Z.of_nat (length rs))), (r0 ++ rs, 0)). split.
    + exists (S k), rs, d'. split_and!; try done. lia.
    + intros m Hm. eapply goes_bind; [by apply goes_store |]. intros _. apply goes_get. intros l [= -> _ _].
      eapply goes_bind; [| intros _; exact Hm]. apply goes_when; [| done]. intros H%Z.gtb_lt. exfalso. lia.
Qed.
Lemma msg_at_inv msg i s x s' : msg_at msg i s = (Ok x, s') -> msg !! i = Some x /\ s' = s.
Proof. unfold msg_at. destruct (msg !! i); [| done]. by intros [= -> <-]. Qed.

Lemma sample_eq msg d0 d1 d2 d3 d4 d5 :
  msg !! 1%nat = Some d0 -> msg !! 2%nat = Some d1 -> msg !! 3%nat = Some d2 -> msg !! 4%nat = Some d3 ->
  msg !! 5%nat = Some d4 -> msg !! 6%nat = Some d5 -> sample msg = [d0; d1; d2; d3; d4; d5].
Proof.
  destruct msg as [| ? [| ? [| ? [| ? [| ? [| ? [| ? ?]]]]]]]; try done. simpl.
  by intros [= ->] [= ->] [= ->] [= ->] [= ->] [= ->].
Qed.

(** One reading adds its sample to the stream. *)
Lemma query_run r0 xs l msg s s1 s' u :
  obj_view s oid = Some (OLis2dw l) -> stream r0 xs (lview oid s) ->
  spidev_transfer (lx_spi l) true query_bytes s = (Ok msg, s1) -> lis2dw_query oid oid s = (Ok u, s') ->
  stream r0 (xs ++ [sample msg]) (lview oid s').
Proof.
  intros Hv Hs Ht. unfold lis2dw_query. rewrite (bind_ok _ _ _ _ _ (get_lis2dw_run _ _ Hv)). fold query_bytes.
  rewrite (bind_ok _ _ _ _ _ Ht). rewrite <- (keeps_run _ _ _ _ _ (spidev_transfer_lview _ _ _) Ht) in Hs. clear Ht Hv.
  intros (fifo & s2 & E & H)%bind_inv. rewrite <- (keeps_run _ _ _ _ _ (spidev_transfer_lview _ _ _) E) in Hs. clear E.
  destruct (bind_inv _ _ _ _ _ H) as (f1 & ? & [_ ->]%msg_at_inv & E). clear H. cbv zeta in E.
  destruct (bind_inv _ _ _ _ _ E) as (d0 & ? & [H0 ->]%msg_at_inv & E0). clear E.
  destruct (bind_inv _ _ _ _ _ E0) as (d1 & ? & [H1 ->]%msg_at_inv & E1). clear E0.
  destruct (bind_inv _ _ _ _ _ E1) as (d2 & ? & [H2 ->]%msg_at_inv & E2). clear E1.
  destruct (bind_inv _ _ _ _ _ E2) as (d3 & ? & [H3 ->]%msg_at_inv & E3). clear E2.
  destruct (bind_inv _ _ _ _ _ E3) as (d4 & ? & [H4 ->]%msg_at_inv & E4). clear E3.
  destruct (bind_inv _ _ _ _ _ E4) as (d5 & ? & [H5 ->]%msg_at_inv & E5). clear E4.
  rewrite (sample_eq _ _ _ _ _ _ _ H0 H1 H2 H3 H4 H5).
  destruct (goes_store_report _ _ [d0; d1; d2; d3; d4; d5] _ eq_refl Hs) as (v' & Hs' & Hg).
  refine (eq_ind_r (stream r0 _) Hs' (Hg _ _ s2 _ s' eq_refl E5)).
  destruct Hs' as (k & rs & d & -> & _). apply goes_query_end.
Qed.
(** A session: the timer's events, the start and the readings of the task, and
    whatever else the firmware does that neither touches the sensor's samples
    nor sends in its name. [xs] are the samples read. *)
Inductive session : mcu -> list (list Z) -> mcu -> Prop :=
| session_nil s : session s [] s
| session_event s xs s1 r s2 : session s xs s1 -> lis2dw_event oid s1 = (Ok r, s2) -> session s xs s2
| session_start s xs s1 s2 : session s xs s1 -> lis2dw_start oid oid s1 = (Ok tt, s2) -> session s xs s2
| session_query s xs s1 l msg s2 s3 : session s xs s1 -> obj_view s1 oid = Some (OLis2dw l) ->
    spidev_transfer (lx_spi l) true query_bytes s1 = (Ok msg, s2) -> lis2dw_query oid oid s1 = (Ok tt, s3) ->
    session s (xs ++ [sample msg]) s3
| session_other s xs s1 s2 : session s xs s1 -> lview oid s2 = lview oid s1 -> session s xs s2.

Lemma goes_event c v : goes (Some c, v) (Some c, v) (lis2dw_event oid).
Proof.
  unfold lis2dw_event. eapply goes_bind; [by apply goes_upd |]. intros _.
  eapply goes_bind; [apply goes_keeps, sched_wake_task_lview |]. intros _. apply goes_keeps. keeps_tac.
Qed.

Lemma goes_start c r : goes (Some c, (r, 0)) (Some c, (r, 0)) (lis2dw_start oid oid).
Proof.
  unfold lis2dw_start. eapply goes_bind; [apply goes_keeps; keeps_tac |]. intros _.
  eapply goes_bind; [by apply goes_upd |]. intros _. apply goes_get. intros l Hl.
  eapply goes_bind; [apply goes_keeps, spidev_transfer_lview |]. intros _. apply goes_reschedule.
Qed.

Lemma session_stream r0 s xs s' : session s xs s' -> stream r0 [] (lview oid s) -> stream r0 xs (lview oid s').
Proof.
  intros Hx H0.
  induction Hx as [s | s xs s1 r s2 _ IH E | s xs s1 s2 _ IH E | s xs s1 l msg s2 s3 _ IH Hv Ht E | s xs s1 s2 _ IH E];
    [done | | | |].
  - specialize (IH H0). pose proof IH as (k & rs & d & V & _). by rewrite (goes_event _ _ _ _ _ V E), <- V.
  - specialize (IH H0). pose proof IH as (k & rs & d & V & _). by rewrite (goes_start _ _ _ _ _ V E), <- V.
  - exact (query_run _ _ _ _ _ _ _ _ Hv (IH H0) Ht E).
  - rewrite E. by apply IH.
Qed.

(** The command on an object that exists. *)
Lemma query_lis2dw_inv clk rest s s' :
  0 <= oid < 256 -> command_query_lis2dw [oid; clk; rest] s = (Ok tt, s') ->
  (if negb (truth rest) then lis2dw_stop oid oid
   else
     sched_del_timer (lis2dw_timer oid) ;;
     set_waketime (lis2dw_timer oid) clk ;;
     upd_lis2dw oid (fun l => l <| lx_rest_ticks := rest |> <| lx_flags := LIS_HAVE_START |> <| lx_sequence := 0 |>
       <| lx_limit_count := 0 |> <| lx_data_count := 0 |> <| lx_fifo_disable := 0 |>) ;;
     sched_add_timer (lis2dw_timer oid)) s = (Ok tt, s').
Proof.
  intros Ho. unfold command_query_lis2dw, arg. cbn [lookup list_lookup]. rewrite bind_deref.
  intros (ax & s1 & [-> ->]%oid_lookup_inv & E)%bind_inv. rewrite bind_deref in E.
  assert (u8 oid = oid) as Hu by (unfold u8; apply Z.mod_small; lia). by rewrite Hu in E.
Qed.

(** The command that starts a session empties the buffer. *)
Lemma session_begins clk rest l s s' :
  0 <= oid < 256 -> rest <> 0 -> obj_view s oid = Some (OLis2dw l) -> length (lx_data l) = 48%nat ->
  in_sendf (m_cmd s) = 0 -> command_query_lis2dw [oid; clk; rest] s = (Ok tt, s') ->
  stream (reports oid s) [] (lview oid s').
Proof.
  intros Ho Hr Hv Hl Hb E. apply query_lis2dw_inv in E; [| done]. assert (truth rest = true) as Ht by (unfold truth; lia).
  rewrite Ht in E. simpl negb in E. cbv iota in E.
  assert (V : lview oid s = (Some (core l), (reports oid s, 0))) by (unfold lview, core_of; rewrite Hv, Hb; done).
  exists 0%nat, [], (lx_data l). split_and!; [| lia | done | by intros ? | done | done | done]. rewrite app_nil_r.
  revert V E. apply (goes_bind _ (Some (core l), (reports oid s, 0))); [apply goes_keeps; keeps_tac |]. intros _.
  apply (goes_bind _ (Some (core l), (reports oid s, 0))); [apply goes_keeps; unfold set_waketime; keeps_tac |]. intros _.
  eapply goes_bind; [| intros _; apply goes_sched_add_timer]. apply goes_upd. intros l'. unfold core. simpl. by intros [= _ -> _].
Qed.
(** What follows the last reading in [lis2dw_stop]: the bytes left are sent. *)
Lemma goes_stop_end k d q r :
  0 <= k ->
  goes (Some (k, d, q), (r, 0))
    (Some (0, d, if k =? 0 then q else u16 (q + 1)), (r ++ (if k =? 0 then [] else [(q, take (Z.to_nat k) d)]), 0))
    (end1_time ← timer_read_time;
     l ← get_lis2dw oid;
     _ ← spidev_transfer (lx_spi l) false [LIS_FIFO_CTRL; 0];
     end2_time ← timer_read_time;
     msg ← spidev_transfer (lx_spi l) true [Z.lor LIS_FIFO_SAMPLES LIS_AM_READ; 0];
     m1 ← msg_at msg 1;
     l ← get_lis2dw oid;
     when (truth (lx_data_count l)) (lis2dw_report oid oid) ;;
     lis2dw_status oid oid end1_time end2_time (Z.land m1 0x1f)).
Proof.
  intros Hk. assert (KT : keeps (lview oid) timer_read_time) by (unfold timer_read_time; keeps_tac).
  eapply goes_bind; [by apply goes_keeps |]. intros t1. apply goes_get. intros l _.
  eapply goes_bind; [apply goes_keeps, spidev_transfer_lview |]. intros _.
  eapply goes_bind; [by apply goes_keeps |]. intros t2.
  eapply goes_bind; [apply goes_keeps, spidev_transfer_lview |]. intros msg.
  eapply goes_bind; [apply goes_keeps; unfold msg_at; keeps_tac |]. intros m1. apply goes_get. intros l' [= -> _ _].
  eapply (goes_bind _ (Some (0, d, if k =? 0 then q else u16 (q + 1)), (r ++ (if k =? 0 then [] else [(q, take (Z.to_nat k) d)]), 0))).
  - apply goes_when; intros H; unfold truth in H; destruct (Z.eqb_spec k 0) as [-> | Hne]; try done; [apply goes_report |].
    by rewrite app_nil_r.
  - intros _. unfold lis2dw_status. apply goes_get. intros l'' _. unfold sendf.
    rewrite <- (app_nil_r (r ++ _)) at 2. apply goes_sendf.
Qed.
Lemma query_sample s s' :
  lis2dw_query oid oid s = (Ok tt, s') ->
  exists l msg s1, obj_view s oid = Some (OLis2dw l) /\ spidev_transfer (lx_spi l) true query_bytes s = (Ok msg, s1).
Proof.
  unfold lis2dw_query. intros (l & s1 & E & H)%bind_inv. apply bind_inv in H as (msg & s2 & H & _).
  revert E. unfold get_lis2dw. intros (o & s3 & E1 & E2)%bind_inv.
  destruct o; try done. injection E2 as -> ->.
  assert (obj_view s oid = Some (OLis2dw l) /\ s1 = s) as [Hv ->].
  { revert E1. unfold obj_get, oid_entry, base, obj_view. msimpl. destruct (oids (m_base s)) as [os |]; [| done]. msimpl. simpl.
    destruct (os !! Z.to_nat oid) as [e |]; [| done]. msimpl. simpl. destruct (o_data e); [| done]. by intros [= -> ->]. }
  eauto 10.
Qed.

(** The command that ends a session reads once more and sends what is left. *)
Lemma session_ends clk r0 xs s s' :
  0 <= oid < 256 -> stream r0 xs (lview oid s) -> command_query_lis2dw [oid; clk; 0] s = (Ok tt, s') ->
  exists rs x, length x = 6%nat /\ reports oid s' = r0 ++ rs /\ numbered rs
    /\ (forall i r, rs !! i = Some r -> (S i < length rs)%nat -> length r.2 = 48%nat)
    /\ concat (snd <$> rs) = concat (xs ++ [x]).
Proof.
  intros Ho Hs E. apply query_lis2dw_inv in E; [| done]. cbv [truth negb Z.eqb] in E. unfold lis2dw_stop in E.
  pose proof Hs as (k0 & rs0 & d0 & V & _). apply bind_inv in E as ([] & s1 & E1 & E).
  assert (K : keeps (lview oid) (sched_del_timer (lis2dw_timer oid))) by keeps_tac.
  apply (goes_keeps _ _ K _ _ _ V) in E1. apply bind_inv in E as ([] & s2 & E2 & E).
  eapply goes_upd in E2; [| intros ? H; exact H | exact E1]. rewrite <- V in E2. rewrite <- E2 in Hs.
  apply bind_inv in E as ([] & s3 & E3 & E). destruct (query_sample _ _ E3) as (l & msg & s4 & Hv & Ht).
  pose proof (query_run _ _ _ _ _ _ _ _ Hv Hs Ht E3) as (k & rs & d & V3 & Hk & Hd & Hn & Hf & Hc & H6).
  apply Forall_app in H6 as [_ H6]. rewrite Forall_singleton in H6.
  eapply goes_stop_end in E; [| | exact V3]; [| lia]. injection E as _ Hr _.
  destruct k as [| k].
  - exists rs, (sample msg). rewrite Nat.mul_0_r, take_0, app_nil_r in Hc. split_and!; [done | by rewrite Hr, app_nil_r | done | | done].
    intros i r Hi _. exact (proj1 (Forall_lookup _ _) Hf i r Hi).
  - exists (rs ++ [(u16 (Z.of_nat (length rs)), take (6 * S k) d)]), (sample msg).
    split_and!; [done | | by apply numbered_snoc | |].
    + rewrite Hr, app_assoc. f_equal. destruct (Z.eqb_spec (6 * Z.of_nat (S k)) 0); [exfalso; lia |].
      by replace (Z.to_nat (6 * Z.of_nat (S k))) with (6 * S k)%nat by lia.
    + intros i r [Hi | [Hl Hi]]%lookup_app_Some; [intros _; exact (proj1 (Forall_lookup _ _) Hf i r Hi) |].
      rewrite length_app. simpl. lia.
    + rewrite fmap_app, concat_app. simpl. by rewrite app_nil_r.
Qed.

End Stream.

(** ** Example: nine readings, a full report and the rest at the stop. *)
Section Example.
#[local] Existing Instance demo_board.

Definition demo_accel : mcu :=
  demo_spi_state <| m_base ::= fun b => b <| oids := Some [mk_oid (Some T_spi) (Some (OSpi demo_spi));
    mk_oid (Some T_lis2dw) (Some (OLis2dw (mk_lis2dw 0 0 0 0 0 0 0 (replicate 48 0))))] |> <| oid_count := 2 |> |>
  <| m_sched ::= upd timers <[ObjTimer 1 0 := mk_timer None (Some F_lis2dw_event) 0]> |>.

Definition demo_accel1 : mcu := (command_query_lis2dw [1; 100000; 32000] demo_accel).2.
Definition demo_accel2 : mcu := (lis2dw_event 1 demo_accel1).2.
Definition demo_accel3 : mcu := (lis2dw_start 1 1 demo_accel2).2.

Fixpoint demo_readings (n : nat) (s : mcu) : option (list (list Z) * mcu) :=
  match n with
  | O => Some ([], s)
  | S n =>
      '(xs, s1) ← demo_readings n s;
      match obj_view s1 1, lis2dw_query 1 1 s1 with
      | Some (OLis2dw l), (Ok tt, s2) =>
          match spidev_transfer (lx_spi l) true query_bytes s1 with
          | (Ok msg, _) => Some (xs ++ [sample msg], s2)
          | _ => None
          end
      | _, _ => None
      end
  end.

Lemma demo_readings_session n s0 xs0 s xs s' :
  session 1 s0 xs0 s -> demo_readings n s = Some (xs, s') -> session 1 s0 (xs0 ++ xs) s'.
Proof.
  intros H0. revert xs s'. induction n as [| n IH]; intros xs s'; simpl.
  - intros [= <- <-]. by rewrite app_nil_r.
  - destruct (demo_readings n s) as [[xs1 s1] |]; [| done]. simpl. specialize (IH _ _ eq_refl).
    destruct (obj_view s1 1) as [[] |] eqn:Hv; try done.
    destruct (lis2dw_query 1 1 s1) as [[[] | | |] s2] eqn:Hq; try done.
    destruct (spidev_transfer _ _ _ s1) as [[msg | | |] s3] eqn:Ht; try done.
    intros [= <- <-]. rewrite app_assoc. by eapply session_query.
Qed.

Definition demo_accel4 : list (list Z) * mcu := default ([], demo_accel3) (demo_readings 9 demo_accel3).
Definition demo_accel5 : mcu := (command_query_lis2dw [1; 0; 0] demo_accel4.2).2.

Lemma ok_run {A} (m : FW A) a s s' : s' = (m s).2 -> (m s).1 = Ok a -> m s = (Ok a, s').
Proof. intros ->. destruct (m s) as [r s']. simpl. by intros ->. Qed.

Lemma demo_start_run : command_query_lis2dw [1; 100000; 32000] demo_accel = (Ok tt, demo_accel1).
Proof. apply ok_run; [reflexivity | vm_compute; reflexivity]. Qed.

Lemma demo_stop_run : command_query_lis2dw [1; 0; 0] demo_accel4.2 = (Ok tt, demo_accel5).
Proof. apply ok_run; [reflexivity | vm_compute; reflexivity]. Qed.

Lemma demo_session : session 1 demo_accel1 demo_accel4.1 demo_accel4.2.
Proof.
  refine (demo_readings_session 9 demo_accel1 [] demo_accel3 demo_accel4.1 demo_accel4.2 _ _).
  - apply (session_start 1 _ _ demo_accel2); [| apply ok_run; [reflexivity | vm_compute; reflexivity]].
    apply (session_event 1 _ _ demo_accel1 SF_DONE); [apply session_nil |].
    apply ok_run; [reflexivity | vm_compute; reflexivity].
  - rewrite <- surjective_pairing. unfold demo_accel4.
    assert (H : match demo_readings 9 demo_accel3 with Some _ => true | None => false end = true) by (vm_compute; reflexivity).
    revert H. generalize (demo_readings 9 demo_accel3). by intros [].
Qed.
End Example.

