(* ===== verification/Mainloop.v ===== *)
(** * Mainloop: the task loop

    Models [run_tasks] and [sched_main] of [src/src/sched.c] with the task
    functions of the other components.  The loop is cut at its accesses to
    shared state, so that an interrupt handler can run between any two of them
    while interrupts are not masked; a task function is one step.  A shutdown is
    the [longjmp] back into [sched_main]. *)

From S2P Require Import Prelude Wire State Command Sched Armcm Basecmd Trsync Adccmds Spi Tmcuart Fancheck Buttons Counter Thermocouple.
Import Encode.

(** The functions declared by [DECL_TASK]. *)
Inductive task :=
| K_timer | K_trsync | K_analog_in | K_tmcuart | K_buttons | K_counter | K_thermocouple | K_fancheck.

(** The [task_wake] a task checks first. *)
Definition task_wake (k : task) : option wake_id :=
  match k with
  | K_timer => None
  | K_trsync => Some W_trsync
  | K_analog_in => Some W_analog
  | K_tmcuart => Some W_tmcuart
  | K_buttons => Some W_buttons
  | K_counter => Some W_counter
  | K_thermocouple => Some W_thermocouple
  | K_fancheck => Some W_fancheck
  end.

(** Where the loop is; [Jumped] is the return of [setjmp] after a [longjmp]. *)
Inductive pc :=
| Begin | Poll | Leave_start | Disable | Recheck | Set_idle | Sleep | While_idle | Enable | Enter_start
| Set_running | Task (k : nat) | Stats | Jumped (reason : string).

(** The local variable [start], and whether interrupts are masked. *)
Record loop := mk_loop { l_pc : pc; l_start : Z; l_masked : bool }.
#[export] Instance eta_loop : Eta loop := fun r => mk_loop (l_pc r) (l_start r) (l_masked r).

Section WithBoard.
Context `{B : Board}.

Definition run_task (k : task) : FW unit :=
  match k with
  | K_timer => timer_task
  | K_trsync => trsync_task
  | K_analog_in => analog_in_task
  | K_tmcuart => tmcuart_task
  | K_buttons => buttons_task
  | K_counter => counter_task
  | K_thermocouple => thermocouple_task
  | K_fancheck => fancheck_task
  end.

Definition requested : FW bool := gets (fun s => tasks_status (m_sched s) =? TS_REQUESTED).
Definition set_status (v : Z) : FW unit := set_sched (fun S => S <| tasks_status := v |>).

Section Loop.
(** The generated [ctr_run_taskfuncs] calls [tasks] in order; [prtouch_task] and
    [ctr_run_shutdownfuncs] come from outside of this file. *)
Context (tasks : list task) (prtouch_task shutdownfuncs : FW unit).

(** One step of [run_tasks], or of [sched_main] after a [longjmp]. *)
Definition main_step (l : loop) : FW loop :=
  let goto p := l <| l_pc := p |> in
  match l_pc l with
  | Begin => now ← timer_read_time; mret ((goto Poll) <| l_start := now |>)
  | Poll => b ← requested; mret (goto (if (b : bool) then Set_running else Leave_start))
  | Leave_start => now ← timer_read_time; mret ((goto Disable) <| l_start ::= fun st => u32 (st - now) |>)
  | Disable => mret ((goto Recheck) <| l_masked := true |>)
  | Recheck => b ← requested; mret (goto (if (b : bool) then Enable else Set_idle))
  | Set_idle => set_status TS_IDLE ;; mret (goto Sleep)
  | Sleep => prtouch_task ;; mret ((goto While_idle) <| l_masked := false |>)
  | While_idle => b ← requested; mret (goto (if (b : bool) then Enable else Sleep))
  | Enable => mret ((goto Enter_start) <| l_masked := false |>)
  | Enter_start => now ← timer_read_time; mret ((goto Set_running) <| l_start ::= fun st => u32 (st + now) |>)
  | Set_running => set_status TS_RUNNING ;; mret (goto (Task 0))
  | Task k =>
      match tasks !! k with
      | Some t => run_task t ;; mret (goto (Task (S k)))
      | None => mret (goto Stats)
      end
  | Stats => cur ← timer_read_time; stats_update (l_start l) cur ;; mret ((goto Poll) <| l_start := cur |>)
  | Jumped reason =>
      run_shutdown shutdownfuncs (ctr_lookup_static_string reason) ;; mret ((goto Begin) <| l_masked := false |>)
  end.

(** The loop goes on, or an interrupt comes. *)
Inductive event := E_main | E_irq (handler : FW unit).

Definition continue (l : loop) (r : res loop * mcu) : option (loop * mcu) :=
  match r with
  | (Ok l', s') => Some (l', s')
  | (Shut reason, s') => Some (l <| l_pc := Jumped reason |> <| l_masked := true |>, s')
  | _ => None
  end.

Definition loop_step (e : event) (c : loop * mcu) : option (loop * mcu) :=
  match e with
  | E_main => continue c.1 (main_step c.1 c.2)
  | E_irq handler => if l_masked c.1 then None else continue c.1 ((handler ;; mret c.1) c.2)
  end.

(** What is seen of a step: a task that had been woken runs, or a shutdown. *)
Inductive seen := Served (w : wake_id) | Halted.

Definition serves (c : loop * mcu) : option wake_id :=
  match l_pc c.1 with
  | Task k => t ← tasks !! k; w ← task_wake t; if m_wake c.2 w then Some w else None
  | _ => None
  end.

Definition observe (e : event) (c c' : loop * mcu) : list seen :=
  (match e with E_main => from_option (fun w => [Served w]) [] (serves c) | E_irq _ => [] end)
  ++ (match l_pc c'.1 with Jumped _ => [Halted] | _ => [] end).

Fixpoint loop_run (es : list event) (c : loop * mcu) : option (list seen * (loop * mcu)) :=
  match es with
  | [] => Some ([], c)
  | e :: es =>
      c' ← loop_step e c;
      '(log, c'') ← loop_run es c';
      Some (observe e c c' ++ log, c'')
  end.
End Loop.
End WithBoard.

(** ** Tasks *)

Section Tasks.
Context `{B : Board}.
Implicit Types s : mcu.

(** What the loop shares with the interrupts. *)
Definition shared s : sched_st * (wake_id -> bool) := (m_sched s, m_wake s).

Lemma foreach_keeps {C} (f : mcu -> C) ty body : (forall oid, keeps f (body oid)) -> keeps f (foreach_oid ty body).
Proof.
  intros Hb. assert (Hn : forall n pos, keeps f (oid_next n pos ty)).
  { induction n as [| n IH]; intros pos; cbn [oid_next]; keeps_tac. }
  unfold foreach_oid. generalize (u8 (-1)), 256%nat. intros pos n. revert pos.
  induction n as [| n IH]; intros pos; cbn [foreach_oid_from]; keeps_tac.
Qed.

Lemma analog_in_report_keeps oid : keeps shared (analog_in_report oid).
Proof. unfold analog_in_report, get_analog, upd_analog. keeps_tac. Qed.
Lemma buttons_report_keeps oid : keeps shared (buttons_report oid).
Proof. unfold buttons_report, get_buttons, upd_buttons. keeps_tac. Qed.
Lemma counter_report_keeps oid : keeps shared (counter_report oid).
Proof. unfold counter_report, get_counter, upd_counter. keeps_tac. Qed.
Lemma tmcuart_report_keeps oid : keeps shared (tmcuart_report oid).
Proof. unfold tmcuart_report, get_tmcuart, upd_tmcuart. keeps_tac. Qed.
Lemma trsync_task_one_keeps oid : keeps shared (trsync_task_one oid).
Proof. unfold trsync_task_one, trsync_report, get_trsync, upd_trsync. keeps_tac. Qed.
Lemma fancheck_task_one_keeps oid : keeps shared (fancheck_task_one oid).
Proof. unfold fancheck_task_one, get_fancheck, upd_fancheck. keeps_tac. Qed.

Lemma spidev_transfer_keeps oid rd data : keeps shared (spidev_transfer oid rd data).
Proof.
  assert (Hb : forall ss n o i, keeps shared (spi_software_bits ss n o i)).
  { intros ss n. induction n as [| n IH]; intros o i; cbn [spi_software_bits]; unfold spi_software_bit; keeps_tac. }
  assert (Ht : forall ss d, keeps shared (spi_software_transfer ss rd d)).
  { intros ss d. induction d as [| x d IH]; cbn [spi_software_transfer]; keeps_tac. }
  unfold spidev_transfer, get_spi, bus_prepare, bus_transfer, spi_prepare, spi_transfer, spi_software_prepare.
  keeps_tac.
Qed.

#[local] Hint Resolve spidev_transfer_keeps : keeps.

Lemma thermocouple_respond_keeps oid n v x : keeps shared (thermocouple_respond oid n v x).
Proof. unfold thermocouple_respond, sched_try_shutdown, get_thermocouple, upd_thermocouple. keeps_tac. Qed.

#[local] Hint Resolve thermocouple_respond_keeps : keeps.

Lemma thermocouple_read_keeps oid : keeps shared (thermocouple_read oid).
Proof.
  unfold thermocouple_read, thermocouple_handle_max31855, thermocouple_handle_max31856, thermocouple_handle_max31865,
    thermocouple_handle_max6675, msg_byte, get_thermocouple, upd_thermocouple.
  keeps_tac.
Qed.

(** A task takes its wake flag and leaves the others. *)
Definition taken (own : option wake_id) s s' : Prop :=
  m_sched s' = m_sched s /\ forall w, m_wake s' w = negb (bool_decide (own = Some w)) && m_wake s w.

Lemma checked_task_taken w body ty s :
  (forall oid, keeps shared (body oid)) ->
  taken (Some w) s ((b ← sched_check_wake w; when b (foreach_oid ty body)) s).2.
Proof.
  intros Hb. assert (Hw : forall w', wake_eqb w w' = bool_decide (Some w = Some w')).
  { intros w'. unfold wake_eqb. apply bool_decide_ext. split; congruence. }
  pose proof (foreach_keeps shared ty body Hb) as K. revert K. generalize (foreach_oid ty body). intros m K.
  unfold sched_check_wake. msimpl. destruct (m_wake s w) eqn:Ew; simpl.
  - set (s1 := s <| m_wake ::= fun W w' => negb (wake_eqb w w') && W w' |>).
    change (taken (Some w) s (m s1).2). specialize (K s1).
    split; [exact (f_equal fst K) |]. intros w'. rewrite (f_equal snd K : m_wake (m s1).2 = m_wake s1). simpl. by rewrite Hw.
  - split; [done |]. intros w'. simpl. case_bool_decide as H; [| done]. by injection H as <-.
Qed.

Lemma run_task_taken k s : taken (task_wake k) s (run_task k s).2.
Proof.
  destruct k; cbn [run_task task_wake].
  - assert (K : keeps shared timer_task) by (unfold timer_task, timer_read_time, set_repeat_until; keeps_tac).
    specialize (K s). split; [exact (f_equal fst K) |]. intros w. exact (f_equal (fun v => v.2 w) K).
  - exact (checked_task_taken _ _ _ _ trsync_task_one_keeps).
  - exact (checked_task_taken _ _ _ _ analog_in_report_keeps).
  - exact (checked_task_taken _ _ _ _ tmcuart_report_keeps).
  - exact (checked_task_taken _ _ _ _ buttons_report_keeps).
  - exact (checked_task_taken _ _ _ _ counter_report_keeps).
  - exact (checked_task_taken _ _ _ _ thermocouple_read_keeps).
  - exact (checked_task_taken _ _ _ _ fancheck_task_one_keeps).
Qed.
End Tasks.

(** ** Wake-ups *)

Abbreviation status s := (tasks_status (m_sched s)).

(** What an interrupt handler may do to the shared state: wake tasks. *)
Definition wakes (s s' : mcu) : Prop :=
  (status s = TS_REQUESTED -> status s' = TS_REQUESTED)
  /\ forall w, (m_wake s w = true -> m_wake s' w = true) /\ (m_wake s' w = true -> m_wake s w = true \/ status s' = TS_REQUESTED).

#[export] Instance wakes_preorder : PreOrder wakes.
Proof.
  split; [intros s; split; [done |]; intros w; auto |]. intros s1 s2 s3 [A1 A2] [B1 B2]. split; [auto |].
  intros w. destruct (A2 w) as [A3 A4], (B2 w) as [B3 B4]. split; [auto |].
  intros H. destruct (B4 H) as [H' | H']; [| by right]. destruct (A4 H'); auto.
Qed.

Definition wakes_only {A} (m : mcu -> res A * mcu) : Prop := forall s, wakes s (m s).2.

Section Wakes.
Context `{B : Board}.

Lemma wakes_keeps {A} (m : FW A) : keeps (fun s => (status s, m_wake s)) m -> wakes_only m.
Proof.
  intros K s. specialize (K s). injection K as H1 H2. split; [by rewrite H1 |]. intros w. rewrite H2. auto.
Qed.

Lemma wakes_bind {A D} (m : FW A) (k : A -> FW D) : wakes_only m -> (forall a, wakes_only (k a)) -> wakes_only (m ≫= k).
Proof.
  intros Hm Hk s. unfold mbind, M_bind. specialize (Hm s). destruct (m s) as [[a | | |] s1]; try exact Hm.
  etransitivity; [exact Hm | apply Hk].
Qed.

Lemma wakes_task w : wakes_only (sched_wake_task w).
Proof.
  intros s. unfold sched_wake_task, sched_wake_tasks, set_sched. msimpl. split; [done |]. simpl.
  intros w'. rewrite orb_true_iff. auto.
Qed.

Lemma wakes_when b (m : FW unit) : wakes_only m -> wakes_only (when b m).
Proof. destruct b; [done |]. intros _ s. reflexivity. Qed.

(** A timer event that wakes the tasks. *)
Lemma wakes_periodic : wakes_only periodic_event.
Proof.
  apply wakes_bind; [| intros _; apply wakes_keeps; unfold tm_upd, tm_get; keeps_tac].
  intros s. split; [done |]. intros w. auto.
Qed.

(** The timer interrupt wakes tasks as its callbacks do. *)
Section Interrupt.
Context `{C : Callbacks}.
Hypothesis func_wakes : forall f t, wakes_only (call_func f t).
Hypothesis stepper_wakes : forall t, wakes_only (call_stepper t).

Lemma wakes_dispatch : wakes_only sched_timer_dispatch.
Proof.
  unfold sched_timer_dispatch, run_callback. apply wakes_bind; [apply wakes_keeps; keeps_tac |]. intros t. apply wakes_bind.
  - apply wakes_bind; [apply wakes_keeps; unfold tm_get; keeps_tac |]. intros tm. destruct (t_func tm); [apply func_wakes |].
    destruct CONFIG_INLINE_STEPPER_HACK; [apply stepper_wakes | by apply wakes_keeps, keeps_fault].
  - intros r. apply wakes_keeps. assert (Hl : forall n pos w, keeps (fun s => (status s, m_wake s)) (insert_timer_loop n pos w)).
    { induction n as [| n IH]; intros q w; cbn [insert_timer_loop]; unfold tm_next, tm_get; keeps_tac. }
    unfold dispatch_update, insert_timer, tm_upd, tm_next, tm_get, set_sched. keeps_tac.
Qed.

Lemma wakes_SysTick wait fuel : wakes_only (SysTick_Handler wait fuel).
Proof.
  assert (Hr : forall n next d, wakes_only (wait_ready n next d)).
  { intros n next d. apply wakes_keeps. revert d. induction n as [| n IH]; intros d; cbn [wait_ready]; unfold timer_read_time; keeps_tac. }
  unfold SysTick_Handler, timer_dispatch_many. apply wakes_bind; [apply wakes_keeps; keeps_tac |].
  induction fuel as [| fuel IH]; intros tru; [by apply wakes_keeps, keeps_lift |]. cbn [dispatch_many].
  apply wakes_bind; [apply wakes_dispatch |]. intros next.
  apply wakes_bind; [apply wakes_keeps; unfold timer_read_time; keeps_tac |]. intros now.
  repeat first [apply IH | apply Hr | apply wakes_bind; [| intros ?] | case_match
    | apply wakes_keeps; unfold sched_try_shutdown, sched_tasks_busy, set_repeat_until; solve [keeps_tac]].
Qed.
End Interrupt.
End Wakes.

Section Served.
Context `{B : Board} (tasks : list task) (prtouch_task shutdownfuncs : FW unit).
Implicit Types (s : mcu) (l : loop) (c : loop * mcu) (e : event).
Hypothesis prtouch_wakes : wakes_only prtouch_task.

Abbreviation loop_step := (loop_step tasks prtouch_task shutdownfuncs).
Abbreviation loop_run := (loop_run tasks prtouch_task shutdownfuncs).
Abbreviation observe := (observe tasks).

Definition irq_ok e : Prop := match e with E_main => True | E_irq h => wakes_only h end.

(** Interrupts are masked from the second look at [tasks_status] until it is
    set to idle. *)
Definition mask_inv c : Prop :=
  match l_pc c.1 with
  | Recheck => l_masked c.1 = true
  | Set_idle => l_masked c.1 = true /\ status c.2 <> TS_REQUESTED
  | _ => True
  end.

(** The control flow of the loop. *)
Definition next_pc (p : pc) (req : bool) : pc :=
  match p with
  | Begin => Poll
  | Poll => if req then Set_running else Leave_start
  | Leave_start => Disable
  | Disable => Recheck
  | Recheck => if req then Enable else Set_idle
  | Set_idle => Sleep
  | Sleep => While_idle
  | While_idle => if req then Enable else Sleep
  | Enable => Enter_start
  | Enter_start => Set_running
  | Set_running => Task 0
  | Task k => match tasks !! k with Some _ => Task (S k) | None => Stats end
  | Stats => Poll
  | Jumped _ => Begin
  end.

Definition next_mask (p : pc) (masked : bool) : bool :=
  match p with Disable => true | Sleep | Enable | Jumped _ => false | _ => masked end.

(** What a step does to the shared state. *)
Definition effect (p : pc) s s' : Prop :=
  match p with
  | Set_idle => status s' = TS_IDLE /\ m_wake s' = m_wake s
  | Set_running => status s' = TS_RUNNING /\ m_wake s' = m_wake s
  | Sleep => wakes s s'
  | Task k => match tasks !! k with Some t => taken (task_wake t) s s' | None => shared s' = shared s end
  | Jumped _ => True
  | _ => shared s' = shared s
  end.

Lemma bind_ret_ok {A D} (m : FW A) (f : A -> D) s b s' :
  (m ≫= fun a => mret (f a)) s = (Ok b, s') -> exists a, m s = (Ok a, s') /\ b = f a.
Proof. intros (a & s1 & E & H)%bind_inv. injection H as <- <-. by exists a. Qed.

Lemma main_step_ok l s l' s' : main_step tasks prtouch_task shutdownfuncs l s = (Ok l', s') ->
  l_pc l' = next_pc (l_pc l) (status s =? TS_REQUESTED) /\ l_masked l' = next_mask (l_pc l) (l_masked l)
  /\ effect (l_pc l) s s'.
Proof.
  unfold main_step. destruct (l_pc l) eqn:Ep; cbv zeta; cbn [next_pc next_mask effect]; intros E.
  all: lazymatch type of E with
       | context [stats_update] => idtac
       | _ => try (apply bind_ret_ok in E as (a & E & ->))
       end.
  all: try (injection E as <- <-; done).
  - pose proof (prtouch_wakes s) as H. rewrite E in H. done.
  - destruct (tasks !! k) as [t |]; [| by injection E as <- <-].
    apply bind_ret_ok in E as (a & E & ->). pose proof (run_task_taken t s) as H. rewrite E in H. done.
  - apply bind_inv in E as (cur & s1 & E1 & E). apply bind_ret_ok in E as (a & E & ->).
    split; [done |]. split; [done |].
    kept shared E1 K1. unfold stats_update in E. kept shared E K2. by rewrite K2.
  - done.
Qed.
(** A step of the loop, an interrupt, or a shutdown. *)
Lemma loop_step_inv e c c' : loop_step e c = Some c' ->
  (e = E_main /\ main_step tasks prtouch_task shutdownfuncs c.1 c.2 = (Ok c'.1, c'.2))
  \/ (exists h, e = E_irq h /\ l_masked c.1 = false /\ c'.1 = c.1 /\ c'.2 = (h c.2).2)
  \/ (exists reason, l_pc c'.1 = Jumped reason).
Proof.
  destruct c as [l s], e as [| h]; unfold loop_step; cbn [fst snd].
  - destruct (main_step _ _ _ l s) as [[l' | reason | |] s'] eqn:Em; intros H; try discriminate H; injection H as <-.
    + by left.
    + right. right. by exists reason.
  - destruct (l_masked l) eqn:El; [done |]. unfold mbind, M_bind. destruct (h s) as [[[] | reason | |] s'] eqn:Eh; intros H; try discriminate H;
      injection H as <-.
    + right. left. exists h. by rewrite Eh.
    + right. right. by exists reason.
Qed.

Lemma mask_inv_step e c c' : loop_step e c = Some c' -> mask_inv c -> mask_inv c'.
Proof.
  intros E HI. destruct (loop_step_inv e c c' E) as [[-> Em] | [(h & -> & Hm & E1 & _) | (r & Hr)]].
  - destruct (main_step_ok _ _ _ _ Em) as (Hp & Hk & He). unfold mask_inv in *. rewrite Hp, Hk.
    destruct (l_pc c.1); simpl in *; try done; try (by case_match).
    destruct (Z.eqb_spec (status c.2) TS_REQUESTED); [done |]. split; [done |].
    by rewrite (f_equal (fun v => tasks_status v.1) He : status c'.2 = status c.2).
  - unfold mask_inv in *. rewrite E1. destruct (l_pc c.1); try done; destruct HI; congruence.
  - unfold mask_inv. by rewrite Hr.
Qed.

(** Task [i], which looks at [w], has been woken and will be reached. *)
Definition noticed (i : nat) (w : wake_id) c : Prop :=
  m_wake c.2 w = true
  /\ (status c.2 = TS_REQUESTED \/ l_pc c.1 = Set_running \/ exists k, l_pc c.1 = Task k /\ (k <= i)%nat).

(** How many steps of the loop before it is. *)
Definition dist (i : nat) (p : pc) : nat :=
  match p with
  | Task k => if decide (k <= i)%nat then i - k else (length tasks - k) + i + 4
  | Set_running => i + 1
  | Poll | Enter_start => i + 2
  | Begin | Stats | Enable => i + 3
  | Recheck | While_idle => i + 4
  | Disable | Sleep => i + 5
  | Leave_start => i + 6
  | Set_idle | Jumped _ => 0
  end.

Lemma dist_bound i p : (i < length tasks -> dist i p < 2 * length tasks + 6)%nat.
Proof. intros H. destruct p; simpl; try lia. case_decide; lia. Qed.

Definition jumped c : bool := match l_pc c.1 with Jumped _ => true | _ => false end.

Lemma noticed_main i t w c c' :
  tasks !! i = Some t -> task_wake t = Some w -> mask_inv c -> jumped c = false -> noticed i w c ->
  main_step tasks prtouch_task shutdownfuncs c.1 c.2 = (Ok c'.1, c'.2) ->
  serves tasks c = Some w \/ (noticed i w c' /\ (dist i (l_pc c'.1) < dist i (l_pc c.1))%nat).
Proof.
  intros Ht Hw HI Hj [Hn Hp] E. destruct (main_step_ok _ _ _ _ E) as (E1 & _ & He).
  unfold noticed. rewrite E1. unfold serves, mask_inv, jumped in *.
  assert (Hs : shared c'.2 = shared c.2 -> m_wake c'.2 w = true /\ status c'.2 = status c.2).
  { intros H. rewrite (f_equal (fun v => v.2 w) H : m_wake c'.2 w = m_wake c.2 w). split; [done |].
    exact (f_equal (fun v => tasks_status v.1) H). }
  destruct (l_pc c.1) as [| | | | | | | | | | | k | |] eqn:Ep; cbn [next_pc effect] in *.
  all: try (assert (Hr : status c.2 = TS_REQUESTED)
    by (destruct Hp as [Hp | [Hp | (? & Hp & _)]]; [exact Hp | discriminate Hp | discriminate Hp])).
  all: try (rewrite ?(proj2 (Z.eqb_eq _ _) Hr); destruct (Hs He) as [H1 H2]; right;
    split; [split; [done | left; congruence] | simpl; lia]).
  - by destruct HI.
  - right. destruct He as [H1 H2]. split; [split; [by apply H2 | left; auto] | simpl; lia].
  - right. destruct He as [H1 H2]. rewrite H2. split; [split; [done |] | simpl; lia].
    right. right. exists 0%nat. split; [done | lia].
  - destruct (tasks !! k) as [t' |] eqn:Et; simpl.
    + destruct He as [H1 H2]. rewrite H2. destruct (decide (task_wake t' = Some w)) as [Ew | Ew].
      * left. by rewrite Ew; simpl; rewrite Hn.
      * right. rewrite bool_decide_eq_false_2 by done. split; [split; [done |] |].
        -- rewrite H1. destruct Hp as [Hp | [Hp | (k' & [= <-] & Hk)]]; [by left | done |].
           right. right. exists (S k). split; [done |]. destruct (decide (k = i)) as [-> |]; [congruence | lia].
        -- assert (k <> i) by congruence. apply lookup_lt_Some in Et. repeat case_decide; lia.
    + right. apply lookup_ge_None in Et. apply lookup_lt_Some in Ht as Hi. destruct (Hs He) as [H1 H2].
      destruct Hp as [Hp | [Hp | (k' & [= <-] & Hk)]]; [| done | lia].
      split; [split; [done | left; congruence] |]. case_decide; lia.
  - done.
Qed.

Lemma noticed_irq i w c c' (h : FW unit) :
  wakes_only h -> c'.1 = c.1 -> c'.2 = (h c.2).2 -> noticed i w c -> noticed i w c'.
Proof.
  intros Hh E1 E2 [Hn Hp]. unfold noticed. rewrite E1, E2. destruct (Hh c.2) as [H1 H2].
  split; [by apply H2 |]. destruct Hp; auto.
Qed.

Definition is_main e : bool := match e with E_main => true | E_irq _ => false end.

Lemma noticed_runs i t w es : forall c log c',
  tasks !! i = Some t -> task_wake t = Some w -> Forall irq_ok es ->
  mask_inv c -> jumped c = false -> noticed i w c ->
  loop_run es c = Some (log, c') -> (dist i (l_pc c.1) < length (List.filter is_main es))%nat ->
  Served w ∈ log \/ Halted ∈ log.
Proof.
  induction es as [| e es IH]; intros c log c' Ht Hw Hes HI Hj Hn E Hd; [simpl in Hd; lia |].
  apply Forall_cons in Hes as [He Hes]. simpl in E.
  destruct (loop_step e c) as [c1 |] eqn:Es; simpl in E; [| done].
  destruct (loop_run es c1) as [[log1 c2] |] eqn:Er; simpl in E; [| done]. injection E as <- <-.
  assert (Hlog : Served w ∈ log1 \/ Halted ∈ log1 -> Served w ∈ observe e c c1 ++ log1 \/ Halted ∈ observe e c c1 ++ log1).
  { rewrite !elem_of_app. tauto. }
  destruct (jumped c1) eqn:Hj1.
  { right. unfold observe, jumped in *. rewrite !elem_of_app. destruct (l_pc c1.1); try done.
    left. right. apply list_elem_of_here. }
  pose proof (mask_inv_step e c c1 Es HI) as HI1.
  destruct (loop_step_inv e c c1 Es) as [[-> Em] | [(h & -> & Hm & E1 & E2) | (r & Hr)]].
  - destruct (noticed_main i t w c c1 Ht Hw HI Hj Hn Em) as [Hs | [Hn1 Hd1]].
    + left. unfold observe. rewrite Hs. simpl. apply list_elem_of_here.
    + apply Hlog, (IH c1 log1 c2 Ht Hw Hes HI1 Hj1 Hn1 Er). cbn in Hd. lia.
  - apply Hlog, (IH c1 log1 c2 Ht Hw Hes HI1 Hj1 (noticed_irq i w c c1 h He E1 E2 Hn) Er). rewrite E1. exact Hd.
  - unfold jumped in Hj1. by rewrite Hr in Hj1.
Qed.

Lemma mask_inv_run es : forall c log c', loop_run es c = Some (log, c') -> mask_inv c -> mask_inv c'.
Proof.
  induction es as [| e es IH]; intros c log c' E HI; simpl in E; [by injection E as _ <- |].
  destruct (loop_step e c) as [c1 |] eqn:Es; simpl in E; [| done].
  destruct (loop_run es c1) as [[log1 c2] |] eqn:Er; simpl in E; [| done]. injection E as _ <-.
  apply (IH _ _ _ Er), (mask_inv_step _ _ _ Es HI).
Qed.

(** Where [run_tasks] starts. *)
Definition boot : loop := mk_loop Begin 0 false.


End Served.

(** ** Example *)

Section Example.
#[local] Existing Instance demo_board.
#[local] Existing Instance sched_callbacks.

Definition systick : FW unit := SysTick_Handler 300 400 ;; mret tt.

Lemma systick_wakes : wakes_only systick.
Proof.
  apply wakes_bind; [| intros _; by apply wakes_keeps]. apply wakes_SysTick; [| by intros t; apply wakes_keeps].
  intros f t. destruct f; first [apply wakes_periodic | by apply wakes_keeps].
Qed.

Definition demo_tasks : list task := [K_timer; K_buttons].
Definition demo_before : list event := [E_main; E_main; E_main; E_main; E_irq (sched_wake_task W_buttons)].
Definition demo_after : list event := [E_main; E_irq systick; E_main; E_main; E_main; E_main; E_main; E_main; E_main; E_main; E_main].
Abbreviation demo_loop := (loop_run demo_tasks (mret tt) (mret tt)).
Definition ended (r : option (list seen * (loop * mcu))) : list seen * (loop * mcu) := default ([], (boot, initial_mcu)) r.
Definition demo_mid : loop * mcu := (ended (demo_loop demo_before (boot, initial_mcu))).2.

Lemma ended_some r : bool_decide (is_Some r) = true -> r = Some (ended r).
Proof. rewrite bool_decide_eq_true. by intros [x ->]. Qed.

End Example.
