(* ===== verification/Quiet.v ===== *)
(** * Quiet: the timer list from a reset on

    When [run_shutdown] has called [sched_timer_reset] the timer list of
    [src/src/sched.c] starts with the deleted timer, and the shutdown functions
    may still add and remove timers.  Adding and removing are proved to return
    with an intact list without any assumption on the times of the timers. *)

From S2P Require Import Prelude Wire State Command Sched Basecmd.
Import Encode.

(** ** The timer list during a shutdown

    From [sched_timer_reset] on the list starts with the deleted timer.  Times
    are arbitrary: nothing is assumed on the order of the list. *)

Record quiet_list (l : list tptr) (S : sched_st) : Prop := {
  ql_head : timer_list S = DeletedTimer;
  ql_seg : lseg (timers S) (DeletedTimer :: l ++ [SentinelTimer]) None;
  ql_nodup : NoDup (DeletedTimer :: l ++ [SentinelTimer]);
  ql_periodic : PeriodicTimer ∈ l;
  ql_sentinel : exists p, wk (timers S) PeriodicTimer = Some p
    /\ wk (timers S) SentinelTimer = Some (u32 (p + 2 ^ 31));
}.

(** Every time is before the periodic timer or before the sentinel, which is
    half a clock period later. *)
Lemma before_periodic_or_sentinel w p :
  timer_is_before w p = false -> timer_is_before w (u32 (p + 2 ^ 31)) = true.
Proof.
  unfold timer_is_before. rewrite Z.ltb_ge, Z.ltb_lt. autorewrite with wrap32. rewrite !s32_u32.
  unfold s32. cint_lia.
Qed.

Section Quiet.
Context `{B : Board}.
Implicit Types (s : mcu) (l : list tptr).

(** The insertion walk always finds a place. *)
Lemma insert_loop_stops w l pos fuel s :
  let T := timers (m_sched s) in
  lseg T (pos :: l ++ [SentinelTimer]) None ->
  (exists q v, q ∈ l ++ [SentinelTimer] /\ wk T q = Some v /\ timer_is_before w v = true) ->
  (length l < fuel)%nat ->
  exists l1 prev l2 nx, pos :: l = l1 ++ prev :: l2 /\ hd_or (l2 ++ [SentinelTimer]) None = Some nx
    /\ insert_timer_loop fuel pos w s = (Ok (prev, nx), s).
Proof.
  intros T. induction l as [| p l IH] in pos, fuel |- *; intros Hseg (q & v & Hq & Hv & Hb) Hf;
    (destruct fuel as [| fuel]; [simpl in Hf; lia |]); cbn [insert_timer_loop];
    pose proof Hseg as [Hn Hseg']; rewrite (bind_ok _ _ _ _ _ (tm_next_run _ _ _ Hn)).
  - apply list_elem_of_singleton in Hq as ->. apply wk_lookup in Hv as (t & Ht & <-).
    rewrite (bind_ok _ _ _ _ _ (tm_get_run _ _ _ Ht)), Hb. by exists [], pos, [], SentinelTimer.
  - destruct (lseg_is_Some T _ _ p Hseg') as [t Ht]; [apply list_elem_of_here |].
    rewrite (bind_ok _ _ _ _ _ (tm_get_run _ _ _ Ht)).
    destruct (timer_is_before w (t_waketime t)) eqn:E; [by exists [], pos, (p :: l), p |].
    destruct (IH p fuel) as (l1 & prev & l2 & nx & El & Enx & Er); [done | | simpl in Hf; lia |].
    { exists q, v. split; [| done]. apply elem_of_cons in Hq as [-> | Hq]; [| done].
      unfold wk in Hv. rewrite Ht in Hv. simplify_eq/=. congruence. }
    exists (pos :: l1), prev, l2, nx. by rewrite Er, El.
Qed.

Lemma quiet_list_frame l (S S' : sched_st) :
  timer_list S' = timer_list S -> (forall q, nxt (timers S') q = nxt (timers S) q) ->
  (forall q, q = PeriodicTimer \/ q = SentinelTimer -> wk (timers S') q = wk (timers S) q) ->
  quiet_list l S -> quiet_list l S'.
Proof.
  intros Hl Hn Hw [Q1 Q2 Q3 Q4 (p & Q5 & Q6)]. split; [by rewrite Hl | | done | done |].
  - eapply seg_frame; [| exact Q2]. intros q _. apply Hn.
  - exists p. rewrite !Hw by auto. done.
Qed.

(** Updates of a timer that leave its link alone. *)
Lemma quiet_list_upd l (S : sched_st) p f :
  (forall r, t_next (f r) = t_next r) -> p <> PeriodicTimer -> p <> SentinelTimer ->
  quiet_list l S -> quiet_list l (S <| timers ::= alter f p |>).
Proof.
  intros Hf H1 H2. apply quiet_list_frame; [done | |].
  - intros q. simpl. destruct (decide (q = p)) as [-> |]; [| by apply nxt_alter_ne].
    rewrite nxt_alter. unfold nxt. destruct (timers S !! p); simpl; [by rewrite Hf | done].
  - intros q Hq. simpl. apply wk_alter_ne. intros ->. tauto.
Qed.

(** What scheduling a timer leaves alone. *)
Record sched_frame s s' : Prop := {
  sc_base : m_base s' = m_base s;
  sc_cmd : m_cmd s' = m_cmd s;
  sc_pins : pin_log (m_hw s') = pin_log (m_hw s);
  sc_status : shutdown_status (m_sched s') = shutdown_status (m_sched s);
  sc_reason : shutdown_reason (m_sched s') = shutdown_reason (m_sched s);
  sc_fans : fc_status s' = fc_status s;
  sc_dom : forall p, is_Some (timers (m_sched s') !! p) <-> is_Some (timers (m_sched s) !! p);
}.

Lemma alter_dom (T : timer_map) f p q : is_Some (alter f p T !! q) <-> is_Some (T !! q).
Proof. rewrite <- !elem_of_dom. by rewrite dom_alter_L. Qed.

(** Removing a timer that is not scheduled. *)
Lemma del_quiet del l s :
  quiet_list l (m_sched s) -> del ∉ l -> del <> DeletedTimer -> del <> SentinelTimer ->
  exists s', sched_del_timer del s = (Ok tt, s') /\ quiet_list l (m_sched s') /\ sched_frame s s' /\ m_con s' = m_con s.
Proof.
  intros Q Hd Hne Hs. unfold sched_del_timer. msimpl. rewrite (ql_head _ _ Q), decide_False by done. msimpl.
  pose proof (NoDup_size _ _ (ql_nodup _ _ Q) (fun p => lseg_is_Some _ _ _ p (ql_seg _ _ Q))) as Hsz.
  simpl in Hsz. rewrite length_app in Hsz. simpl in Hsz.
  destruct (del_timer_loop_spec del l DeletedTimer (size (timers (m_sched s))) s)
    as [[Er _] | (l1 & prev & l2 & El & _)]; [apply (ql_seg _ _ Q) | done | lia | |].
  - rewrite (bind_ok _ _ _ _ _ Er), del_timer_finish. eexists. split; [reflexivity |]. split; [| by split].
    revert Q. by apply quiet_list_frame.
  - exfalso. assert (Hx : del ∈ DeletedTimer :: l) by (rewrite El, elem_of_app, !elem_of_cons; auto).
    apply elem_of_cons in Hx as [-> |]; done.
Qed.

(** Scheduling a timer from its front: what the stores leave behind. *)
Lemma quiet_front l (S : sched_st) t w :
  quiet_list l S -> t ∉ l -> t <> DeletedTimer -> t <> SentinelTimer -> is_Some (timers S !! t) ->
  quiet_list (t :: l) (S <| timers := front_timers (timers S) t (hd_or (l ++ [SentinelTimer]) None) w |>).
Proof.
  intros [Q1 Q2 Q3 Q4 (p & Q5 & Q6)] Ht Hd Hs [tm Htm].
  destruct Q2 as [HD Q2]. apply NoDup_cons in Q3 as [Q3 Q3'].
  destruct (front_timers_spec (timers S) t (hd_or (l ++ [SentinelTimer]) None) w (t_waketime tm))
    as (F1 & F2 & F3 & F4 & F5); [done | by eapply nxt_is_Some | unfold wk; by rewrite Htm |].
  assert (Hw : forall q, q <> DeletedTimer -> wk (front_timers (timers S) t (hd_or (l ++ [SentinelTimer]) None) w) q = wk (timers S) q).
  { intros q Hq. destruct (decide (q = t)) as [-> |]; [rewrite F4; unfold wk; by rewrite Htm | unfold wk; by rewrite F1]. }
  split; simpl.
  - done.
  - split_and!; [done | done |]. eapply seg_frame; [| exact Q2]. intros q Hq. unfold nxt. rewrite F1; [done | |].
    + intros ->. done.
    + intros ->. rewrite elem_of_app, list_elem_of_singleton in Hq. tauto.
  - apply NoDup_cons. split; [rewrite elem_of_cons; intros [? | ?]; congruence |].
    apply NoDup_cons. split; [| done]. rewrite elem_of_app, list_elem_of_singleton. tauto.
  - by apply list_elem_of_further.
  - exists p. rewrite !Hw by done. done.
Qed.

(** Scheduling a timer further back. *)
Lemma quiet_link l (S : sched_st) t l1 prev l2 nx :
  quiet_list l S -> t ∉ l -> t <> DeletedTimer -> t <> SentinelTimer -> is_Some (timers S !! t) ->
  DeletedTimer :: l = l1 ++ prev :: l2 -> hd_or (l2 ++ [SentinelTimer]) None = Some nx ->
  exists l', l' ≡ₚ t :: l /\ quiet_list l' (S <| timers := link (timers S) prev t (Some nx) |>).
Proof.
  intros [Q1 Q2 Q3 Q4 (p & Q5 & Q6)] Ht Hd Hs Hts El Enx.
  assert (El' : DeletedTimer :: l ++ [SentinelTimer] = l1 ++ prev :: (l2 ++ [SentinelTimer])).
  { change (DeletedTimer :: l ++ [SentinelTimer]) with ((DeletedTimer :: l) ++ [SentinelTimer]). by rewrite El, <- app_assoc. }
  assert (Hni : t ∉ DeletedTimer :: l ++ [SentinelTimer]).
  { rewrite elem_of_cons, elem_of_app, list_elem_of_singleton. tauto. }
  assert (exists l', l1 ++ prev :: t :: l2 = DeletedTimer :: l') as [l' El2].
  { destruct l1 as [| x l1]; simpl in *; simplify_eq; eauto. }
  assert (Hp : l' ≡ₚ t :: l).
  { apply (Permutation_cons_inv (a := DeletedTimer)). rewrite <- El2, (Permutation_swap t DeletedTimer l), El. solve_Permutation. }
  exists l'. split; [done |]. rewrite <- Enx.
  pose proof Q3 as Q3'. rewrite El' in Q3', Q2, Hni.
  pose proof (link_lseg _ _ _ _ _ _ Q3' Hni Hts Q2) as L.
  replace (l1 ++ prev :: t :: l2 ++ [SentinelTimer]) with (DeletedTimer :: l' ++ [SentinelTimer]) in L
    by (change (DeletedTimer :: l' ++ [SentinelTimer]) with ((DeletedTimer :: l') ++ [SentinelTimer]); by rewrite <- El2, <- app_assoc).
  split; simpl; [done | done | | rewrite Hp; by apply list_elem_of_further |].
  - rewrite Hp. simpl. rewrite (Permutation_swap t DeletedTimer (l ++ [SentinelTimer])). apply NoDup_cons. by rewrite El'.
  - exists p. unfold link. by rewrite !wk_set_next.
Qed.

Lemma clamp_quiet t w s :
  is_Some (timers (m_sched s) !! t) ->
  exists r s', add_timer_clamp t w s = (Ok r, s') /\ sched_frame s s' /\ m_con s' = m_con s
    /\ (m_sched s' = m_sched s
        \/ exists v, m_sched s' = (m_sched s) <| timers ::= alter (fun r => r <| t_waketime := v |>) t |>).
Proof.
  intros Ht. unfold add_timer_clamp. rewrite (bind_ok _ _ _ _ _ (timer_read_time_run s)).
  set (s1 := upd m_hw _ s).
  destruct (timer_is_before w _); [| eexists _, s1; split; [reflexivity |]; split; [by split | auto]].
  rewrite (bind_ok _ _ _ _ _ (timer_read_time_run s1)). cbv zeta.
  erewrite bind_ok by (by apply tm_upd_run). eexists _, _. split; [reflexivity |].
  split; [split; try done; intros p; apply alter_dom |]. split; [done |]. right. by eexists.
Qed.

(** The stores of the front insertion, in front of a continuation [k]. *)
Lemma front_run {X} (k : FW X) t nx w (td : timer) s :
  timers (m_sched s) !! DeletedTimer = Some td -> t_next td = nx -> is_Some (timers (m_sched s) !! t) -> t <> DeletedTimer ->
  exists s', ((d ← tm_get DeletedTimer; tm_upd t (fun r => r <| t_next := t_next d |>)) ;;
       tm_upd DeletedTimer (fun r => r <| t_waketime := w |>) ;;
       tm_upd DeletedTimer (fun r => r <| t_next := Some t |>) ;;
       set_sched (fun S => S <| timer_list := DeletedTimer |>) ;; timer_kick ;; k) s = k s'
    /\ sched_frame s s' /\ m_con s' = m_con s
    /\ m_sched s' = (m_sched s) <| timers := front_timers (timers (m_sched s)) t nx w |> <| timer_list := DeletedTimer |>.
Proof.
  intros HD Hn Ht Hd. rewrite bind_assoc, (bind_ok _ _ _ _ _ (tm_get_run _ _ s HD)), Hn.
  erewrite bind_ok by (by apply tm_upd_run).
  erewrite bind_ok by (apply tm_upd_run; simpl; rewrite lookup_alter_ne by done; by eexists).
  erewrite bind_ok by (apply tm_upd_run; simpl; rewrite alter_dom, lookup_alter_ne by done; by eexists).
  unfold set_sched, timer_kick. msimpl. eexists. split; [reflexivity |].
  split; [split; try done; intros p; simpl; by rewrite !alter_dom |]. done.
Qed.

Lemma sched_frame_trans s1 s2 s3 : sched_frame s1 s2 -> sched_frame s2 s3 -> sched_frame s1 s3.
Proof.
  intros [A1 A2 A3 A4 A5 A6 A7] [B1 B2 B3 B4 B5 B6 B7]. split; try congruence. intros p. by rewrite B7.
Qed.

(** [quieted l s s']: the list is now [l], and nothing but the timers, the
    clock readings and the console has changed. *)
Definition quieted (l : list tptr) s s' : Prop :=
  exists l', l' ≡ₚ l /\ quiet_list l' (m_sched s') /\ sched_frame s s'.

Lemma add_front t tm l td s :
  quiet_list l (m_sched s) -> t ∉ l -> t <> DeletedTimer -> t <> SentinelTimer ->
  timers (m_sched s) !! t = Some tm -> timers (m_sched s) !! DeletedTimer = Some td ->
  timer_is_before (t_waketime tm) (t_waketime td) = true ->
  exists (fl : bool) s', sched_add_timer t s = when fl (output "Timer too close" []) s'
    /\ m_con s' = m_con s /\ quieted (t :: l) s s'.
Proof.
  intros Q Ht Hd Hs Htm HD Hb. unfold sched_add_timer. rewrite (bind_ok _ _ _ _ _ (tm_get_run _ _ _ Htm)). msimpl.
  rewrite (ql_head _ _ Q), (bind_ok _ _ _ _ _ (tm_get_run _ _ _ HD)), Hb, bind_assoc.
  destruct (clamp_quiet t (t_waketime tm) s) as ([w fl] & s1 & E1 & F1 & C1 & S1); [by eexists |].
  rewrite (bind_ok _ _ _ _ _ E1). cbv beta iota. rewrite decide_True by done.
  assert (Q1 : quiet_list l (m_sched s1) \/ t = PeriodicTimer).
  { destruct (decide (t = PeriodicTimer)); [by right | left].
    destruct S1 as [-> | [v ->]]; [done |]. by apply quiet_list_upd. }
  destruct Q1 as [Q1 | ->]; [| by destruct (Ht (ql_periodic _ _ Q))].
  assert (HD1 : timers (m_sched s1) !! DeletedTimer = Some td).
  { destruct S1 as [-> | [v ->]]; [done |]. simpl. by rewrite lookup_alter_ne. }
  assert (Ht1 : is_Some (timers (m_sched s1) !! t)) by (apply (sc_dom _ _ F1); by eexists).
  assert (Hn : t_next td = hd_or (l ++ [SentinelTimer]) None).
  { destruct (ql_seg _ _ Q) as [Hx _]. unfold nxt in Hx. rewrite HD in Hx. by injection Hx. }
  destruct (front_run (mret fl) t _ w td s1 HD1 Hn Ht1 Hd) as (s2 & E2 & F2 & C2 & S2).
  rewrite ret_run in E2. rewrite (bind_ok _ _ _ _ _ E2). exists fl, s2. split; [done |].
  split; [by rewrite C2 |]. exists (t :: l). split; [done |]. split; [| by eapply sched_frame_trans].
  rewrite S2. eapply quiet_list_frame; [.. | by apply (quiet_front l (m_sched s1) t w)]; try done.
  simpl. by rewrite (ql_head _ _ Q1).
Qed.

Lemma add_back t tm l td s :
  quiet_list l (m_sched s) -> t ∉ l -> t <> DeletedTimer -> t <> SentinelTimer ->
  timers (m_sched s) !! t = Some tm -> timers (m_sched s) !! DeletedTimer = Some td ->
  timer_is_before (t_waketime tm) (t_waketime td) = false ->
  exists s', sched_add_timer t s = (Ok tt, s') /\ m_con s' = m_con s /\ quieted (t :: l) s s'.
Proof.
  intros Q Ht Hd Hs Htm HD Hb. unfold sched_add_timer. rewrite (bind_ok _ _ _ _ _ (tm_get_run _ _ _ Htm)). msimpl.
  rewrite (ql_head _ _ Q), (bind_ok _ _ _ _ _ (tm_get_run _ _ _ HD)), Hb.
  pose proof (NoDup_size _ _ (ql_nodup _ _ Q) (fun p => lseg_is_Some _ _ _ p (ql_seg _ _ Q))) as Hsz.
  simpl in Hsz. rewrite length_app in Hsz. simpl in Hsz.
  destruct (insert_loop_stops (t_waketime tm) l DeletedTimer (size (timers (m_sched s))) s)
    as (l1 & prev & l2 & nx & El & Enx & Er); [apply (ql_seg _ _ Q) | | lia |].
  { destruct (ql_sentinel _ _ Q) as (p & H1 & H2). destruct (timer_is_before (t_waketime tm) p) eqn:E.
    - exists PeriodicTimer, p. split; [| done]. apply elem_of_app. left. apply (ql_periodic _ _ Q).
    - exists SentinelTimer, (u32 (p + 2 ^ 31)). split; [apply elem_of_app; right; by apply list_elem_of_singleton |].
      split; [done | by apply before_periodic_or_sentinel]. }
  assert (Hts : is_Some (timers (m_sched s) !! t)) by (by eexists).
  destruct (quiet_link l (m_sched s) t l1 prev l2 nx) as (l' & Hp & Q'); try done.
  assert (Hpt : prev <> t).
  { intros ->. assert (Hx : t ∈ DeletedTimer :: l) by (rewrite El, elem_of_app, !elem_of_cons; auto).
    apply elem_of_cons in Hx as [? | ?]; done. }
  assert (Hps : is_Some (timers (m_sched s) !! prev)).
  { eapply lseg_is_Some; [apply (ql_seg _ _ Q) |].
    change (DeletedTimer :: l ++ [SentinelTimer]) with ((DeletedTimer :: l) ++ [SentinelTimer]).
    rewrite El, !elem_of_app, elem_of_cons. auto. }
  unfold insert_timer. msimpl. rewrite (bind_ok _ _ _ _ _ Er). cbv beta iota. msimpl.
  rewrite (bind_ok _ _ _ _ _ (tm_upd_run _ _ _ Hts)).
  erewrite bind_ok; [| apply tm_upd_run; simpl; by rewrite lookup_alter_ne]. msimpl.
  eexists. split; [reflexivity |]. split; [done |]. exists l'. split; [done |]. split; [exact Q' |].
  split; try done. intros p. simpl. by rewrite !alter_dom.
Qed.

(** Scheduling a timer always returns with the timer in the list. *)
Lemma add_quiet t l s :
  quiet_list l (m_sched s) -> t ∉ l -> t <> DeletedTimer -> t <> SentinelTimer ->
  is_Some (timers (m_sched s) !! t) -> con_wf (m_con s) -> fits (ctr_lookup_output "Timer too close") [] ->
  exists s', sched_add_timer t s = (Ok tt, s') /\ con_wf (m_con s') /\ quieted (t :: l) s s'.
Proof.
  intros Q Ht Hd Hs [tm Htm] Hc Hf. destruct (lseg_is_Some _ _ _ DeletedTimer (ql_seg _ _ Q)) as [td HD]; [apply list_elem_of_here |].
  destruct (timer_is_before (t_waketime tm) (t_waketime td)) eqn:E.
  - destruct (add_front t tm l td s) as (fl & s1 & -> & C1 & (l' & Hp & Q' & F)); [done.. |].
    destruct fl; [| exists s1; rewrite C1; split; [done |]; split; [done |]; by exists l'].
    destruct (command_sendf_total "Timer too close" (ctr_lookup_output "Timer too close") [] s1) as (c' & log & E2 & Hc' & _);
      [by rewrite C1 | done |].
    eexists. split; [exact E2 |]. split; [done |]. exists l'. split; [done |]. split; [done |].
    eapply sched_frame_trans; [exact F |]. by split.
  - destruct (add_back t tm l td s) as (s1 & -> & C1 & Q1); [done.. |]. exists s1. rewrite C1. done.
Qed.
End Quiet.
