(* ===== verification/Halting.v ===== *)
(** * Halting: objects at rest

    What it means that a configured object is out of action, what the shutdown
    functions may change, and the rule for a function that visits the objects of
    one type ([foreach_oid] of [src/src/basecmd.c]). *)

From S2P Require Import Prelude Wire State Command Sched Basecmd Stepper Trsync Gpiocmds Pwmcmds Adccmds Spi Tmcuart Fancheck Quiet.
Import Encode.

(** ** The configured objects *)

Definition otype_of (o : obj) : otype :=
  match o with
  | OStepper _ => T_stepper | OTrsync _ => T_trsync | OEndstop _ => T_endstop
  | ODigital _ => T_digital_out | OPwm _ => T_pwm_out | OAnalog _ => T_analog_in
  | OSpi _ => T_spi | OSpiShutdown _ => T_spi_shutdown | OTmcuart _ => T_tmcuart | OButtons _ => T_buttons
  | OCounter _ => T_counter | OLis2dw _ => T_lis2dw | OThermocouple _ => T_thermocouple
  | OFancheck _ => T_fancheck | OI2c _ => T_i2c
  end.

(** The table of [basecmd.c]: [n] entries, each with an object of its type. *)
Record table_ok (n : Z) (s : mcu) : Prop := {
  tb_count : oid_count (m_base s) = n;
  tb_range : 0 <= n <= 255;
  tb_length : Z.of_nat (length (default [] (oids (m_base s)))) = n;
  tb_types : Forall (fun e => o_type e = otype_of <$> o_data e) (default [] (oids (m_base s)));
}.

Lemma table_entry n s k :
  table_ok n s -> 0 <= k < n ->
  exists e, oid_entry k s = (Ok e, s) /\ o_data e = obj_view s k /\ o_type e = otype_of <$> obj_view s k.
Proof.
  intros [Hc Hr Hl Ht] Hk. unfold oid_entry, base, obj_view. msimpl.
  destruct (oids (m_base s)) as [os |]; simpl in Hl, Ht; [| lia].
  destruct (lookup_lt_is_Some_2 os (Z.to_nat k)) as [e He]; [lia |]. msimpl. simpl. rewrite He. msimpl.
  exists e. simpl. split_and!; [done | done |]. by apply (Forall_lookup_1 _ _ _ _ Ht He).
Qed.

Lemma table_view n s o x : table_ok n s -> 0 <= o -> obj_view s o = Some x -> o < n.
Proof.
  intros [Hc Hr Hl Ht] Ho. unfold obj_view. destruct (oids (m_base s)) as [os |]; simpl in *; [| done].
  destruct (os !! Z.to_nat o) as [e |] eqn:E; [| done]. intros _. apply lookup_lt_Some in E. lia.
Qed.

(** A rule for [foreach_oid]: [J k] holds when the objects below [k] are done. *)
Section Foreach.
Context `{B : Board} (n : Z) (ty : otype) (body : Z -> FW unit) (J : Z -> mcu -> Prop).
Hypothesis J_table : forall k s, J k s -> table_ok n s.
Hypothesis J_body : forall k s x, 0 <= k < n -> J k s -> obj_view s k = Some x -> otype_of x = ty ->
  exists s', body k s = (Ok tt, s') /\ J (k + 1) s'.
Hypothesis J_skip : forall k s, 0 <= k < n -> J k s -> (forall x, obj_view s k = Some x -> otype_of x <> ty) -> J (k + 1) s.

Lemma oid_next_step k s :
  0 <= k < n -> J k s -> (forall x, obj_view s k = Some x -> otype_of x <> ty) -> u8 (k + 1) = k + 1 /\ J (k + 1) s.
Proof.
  intros Hk Hj Hx. pose proof (tb_range _ _ (J_table _ _ Hj)). split; [apply u8_small; cint_lia | by apply J_skip].
Qed.

Lemma oid_next_rule fuel oid s :
  let k := u8 (oid + 1) in
  k <= n -> J k s -> (Z.to_nat (n - k) < fuel)%nat ->
  exists r, oid_next fuel oid ty s = (Ok r, s) /\
    match r with
    | None => J n s
    | Some o => k <= o < n /\ J o s /\ exists x, obj_view s o = Some x /\ otype_of x = ty
    end.
Proof.
  induction fuel as [| fuel IH] in oid |- *; intros k Hk Hj Hf; [lia |].
  pose proof (J_table _ _ Hj) as Ht. pose proof (tb_range _ _ Ht) as Hr.
  assert (H0 : 0 <= k) by (unfold k; pose proof (u8_range (oid + 1)); cint_lia).
  cbn [oid_next]. unfold base. msimpl. fold k. rewrite (tb_count _ _ Ht).
  destruct (Z.geb_spec k n).
  { exists None. replace n with k by lia. done. }
  destruct (table_entry n s k Ht) as (e & Ee & Hd & Hy); [lia |]. rewrite (bind_ok _ _ _ _ _ Ee), Hy, Hd.
  destruct (bool_decide_reflect (otype_of <$> obj_view s k = Some ty)) as [Hy' | Hne].
  - destruct (obj_view s k) as [x |] eqn:Ev; [| done]. rewrite bool_decide_eq_false_2 by done. msimpl.
    exists (Some k). split; [done |]. split; [lia |]. split; [done |]. exists x. by injection Hy'.
  - destruct (oid_next_step k s) as [Ek Hj']; [lia | done | intros x Ex Exy; apply Hne; by rewrite Ex, <- Exy |].
    destruct (IH k) as (r & Er & Hr'); rewrite ?Ek; [lia | done | lia |].
    exists r. split; [done |]. rewrite Ek in Hr'. destruct r as [o |]; [| done]. split; [lia | tauto].
Qed.

Lemma foreach_oid_from_rule fuel pos s :
  let k := u8 (pos + 1) in
  k <= n -> J k s -> (Z.to_nat (n - k) < fuel)%nat ->
  exists s', foreach_oid_from fuel pos ty body s = (Ok tt, s') /\ J n s'.
Proof.
  induction fuel as [| fuel IH] in pos, s |- *; intros k Hk Hj Hf; [lia |].
  pose proof (tb_range _ _ (J_table _ _ Hj)) as Hr.
  assert (H0 : 0 <= k) by (unfold k; pose proof (u8_range (pos + 1)); cint_lia).
  destruct (oid_next_rule 256 pos s) as (r & Er & Hn); [done | done | fold k; lia |].
  cbn [foreach_oid_from]. rewrite (bind_ok _ _ _ _ _ Er). destruct r as [o |]; [| by exists s].
  fold k in Hn. destruct Hn as (Ho & Hjo & x & Ex & Ey).
  destruct (J_body o s x) as (s1 & E1 & Hj1); [lia | done.. |]. rewrite (bind_ok _ _ _ _ _ E1).
  assert (Eu : u8 (o + 1) = o + 1) by (apply u8_small; cint_lia).
  destruct (IH o s1) as (s' & E' & Hj'); rewrite ?Eu; [lia | done | lia |]. by exists s'.
Qed.

Lemma foreach_oid_rule s : J 0 s -> exists s', foreach_oid ty body s = (Ok tt, s') /\ J n s'.
Proof.
  intros Hj. pose proof (tb_range _ _ (J_table _ _ Hj)) as Hr.
  apply foreach_oid_from_rule; change (u8 (u8 (-1) + 1)) with 0; [lia | done | lia].
Qed.
End Foreach.

(** *** What a stopped object looks like *)

Definition pin_of (e : pin_event) : Z :=
  match e with EvSetup p _ | EvWrite p _ | EvToggle p | EvPwm p _ | EvInput p _ => p end.

(** The last thing that was done to a pin. *)
Fixpoint last_event (pin : Z) (log : list pin_event) : option pin_event :=
  match log with
  | [] => None
  | e :: log => if pin_of e =? pin then Some e else last_event pin log
  end.

Definition out_pins (o : obj) : list Z :=
  match o with
  | OStepper st => [s_step_pin st; s_dir_pin st]
  | ODigital d => [d_pin d]
  | OPwm p => [p_pin p]
  | OSpi d => sp_pin d :: match sp_bus d with SpiSoftware ss => [ss_sclk ss; ss_mosi ss] | _ => [] end
  | OTmcuart t => [tu_tx_pin t]
  | _ => []
  end.

(** The configured default of an output; a device on an SPI bus is deselected,
    the line of a driver is high. *)
Definition default_event (o : obj) : option pin_event :=
  match o with
  | ODigital d => Some (EvWrite (d_pin d) (has (d_flags d) DF_DEFAULT_ON))
  | OPwm p => Some (EvPwm (p_pin p) (p_default_value p))
  | OSpi d => if has (sp_flags d) SF_HAVE_PIN then Some (EvWrite (sp_pin d) (negb (has (sp_flags d) SF_CS_ACTIVE_HIGH))) else None
  | OTmcuart t => Some (if has (tu_flags t) TU_SINGLE_WIRE then EvSetup (tu_tx_pin t) true else EvWrite (tu_tx_pin t) true)
  | _ => None
  end.

(** Nothing is left to do: no step, no queued update, no stop signal, no message
    under way, no measurement. *)
Definition idle (o : obj) : Prop :=
  match o with
  | OStepper st => s_count st = 0 /\ mq_first (s_mq st) = None /\ has (s_flags st) SF_NEED_RESET = true
  | ODigital d => mq_first (d_mq d) = None
  | OPwm p => mq_first (p_mq p) = None
  | OTrsync t => ts_signals t = None /\ ts_flags t = 0
  | OTmcuart t => has (tu_flags t) TU_ACTIVE = false
  | OFancheck c => fc_flags c = 0
  | _ => True
  end.

Definition at_default (o : obj) (log : list pin_event) : Prop :=
  forall e, default_event o = Some e -> last_event (pin_of e) log = Some e.

(** The stepper a stop signal or a trigger leads to. *)
Definition obj_sig (o : obj) : option Z :=
  match o with OStepper st => s_sig_next st | OTrsync t => ts_signals t | _ => None end.

(** The objects no shutdown function changes. *)
Definition fixed (o : obj) : option obj := match o with OSpi _ | OSpiShutdown _ => Some o | _ => None end.

(** What no shutdown function undoes. *)
Record obj_rel (x y : obj) : Prop := {
  or_type : otype_of y = otype_of x;
  or_pins : out_pins y = out_pins x;
  or_default : default_event y = default_event x;
  or_sig : obj_sig y = obj_sig x \/ obj_sig y = None;
  or_idle : idle x -> idle y;
  or_fixed : fixed y = fixed x;
}.

Lemma obj_rel_refl x : obj_rel x x.
Proof. split; auto. Qed.

Lemma obj_rel_trans x y z : obj_rel x y -> obj_rel y z -> obj_rel x z.
Proof.
  intros [A1 A2 A3 A4 A5 A6] [B1 B2 B3 B4 B5 B6]. split; [congruence.. | | auto | congruence].
  destruct B4 as [-> | ->]; auto.
Qed.

Lemma default_pin o e : default_event o = Some e -> pin_of e ∈ out_pins o.
Proof. destruct o; try done; simpl; repeat case_match; intros; simplify_eq; apply list_elem_of_here. Qed.

(** The steps of a shutdown function that touch the objects and the pins: [W]
    are the objects whose pins may be written. *)
Record frame (W : Z -> Prop) (s s' : mcu) : Prop := {
  fr_objs : forall o, 0 <= o -> option_Forall2 obj_rel (obj_view s o) (obj_view s' o);
  fr_table : forall n, table_ok n s -> table_ok n s';
  fr_pins : exists ev, pin_log (m_hw s') = ev ++ pin_log (m_hw s) /\
    Forall (fun e => exists o x, W o /\ 0 <= o /\ obj_view s o = Some x /\ pin_of e ∈ out_pins x) ev;
  fr_pool : nodes (m_base s') = nodes (m_base s) /\ move_free_list (m_base s') = move_free_list (m_base s)
    /\ move_count (m_base s') = move_count (m_base s);
  fr_cmd : m_cmd s' = m_cmd s;
  fr_status : shutdown_status (m_sched s') = shutdown_status (m_sched s)
    /\ shutdown_reason (m_sched s') = shutdown_reason (m_sched s);
  fr_dom : forall p, is_Some (timers (m_sched s') !! p) <-> is_Some (timers (m_sched s) !! p);
  fr_fans : length (fc_status s') = length (fc_status s);
}.

Lemma option_rel_refl (v : option obj) : option_Forall2 obj_rel v v.
Proof. destruct v; constructor. apply obj_rel_refl. Qed.

Lemma option_rel_trans (u v w : option obj) :
  option_Forall2 obj_rel u v -> option_Forall2 obj_rel v w -> option_Forall2 obj_rel u w.
Proof. intros [x y R |]; inversion 1; subst; constructor. by eapply obj_rel_trans. Qed.

Lemma frame_view W s s' o x :
  frame W s s' -> 0 <= o -> obj_view s o = Some x -> exists y, obj_view s' o = Some y /\ obj_rel x y.
Proof. intros F Ho E. pose proof (fr_objs _ _ _ F o Ho) as H. rewrite E in H. inversion H; subst. eauto. Qed.

Lemma frame_view_inv W s s' o y :
  frame W s s' -> 0 <= o -> obj_view s' o = Some y -> exists x, obj_view s o = Some x /\ obj_rel x y.
Proof. intros F Ho E. pose proof (fr_objs _ _ _ F o Ho) as H. rewrite E in H. inversion H; subst. eauto. Qed.

Lemma frame_trans W s1 s2 s3 : frame W s1 s2 -> frame W s2 s3 -> frame W s1 s3.
Proof.
  intros F G. pose proof F as [A1 A2 (ev1 & A3 & A3') (A4 & A5 & A6) A7 [A8 A9] A10 A11].
  pose proof G as [B1 B2 (ev2 & B3 & B3') (B4 & B5 & B6) B7 [B8 B9] B10 B11].
  split; [| by auto | | split_and!; congruence | congruence | split; congruence | intros p; by rewrite B10 | congruence].
  - intros o Ho. exact (option_rel_trans _ _ _ (A1 o Ho) (B1 o Ho)).
  - exists (ev2 ++ ev1). split; [by rewrite B3, A3, app_assoc |]. apply Forall_app. split; [| done].
    eapply Forall_impl; [exact B3' |]. simpl. intros e (o & y & HW & Ho & Hv & Hp).
    destruct (frame_view_inv _ _ _ _ _ F Ho Hv) as (x & Hx & R). exists o, x. rewrite (or_pins _ _ R) in Hp. done.
Qed.

Lemma frame_mono (W W' : Z -> Prop) s s' : (forall o, W o -> W' o) -> frame W s s' -> frame W' s s'.
Proof.
  intros H [A1 A2 (ev & A3 & A3') A4 A5 A6 A7 A8]. split; try done. exists ev. split; [done |].
  eapply Forall_impl; [exact A3' |]. simpl. intros e (o & x & HW & R). exists o, x. auto.
Qed.

Lemma frame_sched W s s' : sched_frame s s' -> frame W s s'.
Proof.
  intros [H1 H2 H3 H4 H5 H6 H7]. split; try done.
  - intros o _. unfold obj_view. rewrite H1. apply option_rel_refl.
  - intros n [T1 T2 T3 T4]. by split; rewrite ?H1.
  - exists []. done.
  - by rewrite H1.
  - by rewrite H6.
Qed.

Lemma frame_refl W s : frame W s s.
Proof. by apply frame_sched. Qed.

Lemma frame_put W oid x y s :
  0 <= oid -> obj_view s oid = Some x -> obj_rel x y -> frame W s (put_obj oid y s).
Proof.
  intros Ho Hv R. split; try done.
  - intros o Ho'. destruct (decide (o = oid)) as [-> | Hne].
    + rewrite Hv, (obj_view_put _ _ _ _ Hv). by constructor.
    + rewrite obj_view_put_ne by done. apply option_rel_refl.
  - intros n [T1 T2 T3 T4]. split; simpl; try done; destruct (oids (m_base s)) as [os |] eqn:E; try done; simpl in *.
    + by rewrite length_alter.
    + apply Forall_lookup. intros i e. destruct (decide (i = Z.to_nat oid)) as [-> |].
      * rewrite list_lookup_alter_eq. unfold obj_view in Hv. rewrite E in Hv. simpl in Hv.
        destruct (os !! Z.to_nat oid) as [e0 |] eqn:E0; [| done]. simpl in Hv. intros [= <-]. simpl.
        rewrite (or_type _ _ R). pose proof (Forall_lookup_1 _ _ _ _ T4 E0) as Ht. simpl in Ht. by rewrite Hv in Ht.
      * rewrite list_lookup_alter_ne by done. exact (Forall_lookup_1 _ _ i e T4).
  - exists []. done.
Qed.

Lemma frame_pins (W : Z -> Prop) o x ev s :
  W o -> 0 <= o -> obj_view s o = Some x -> Forall (fun e => pin_of e ∈ out_pins x) ev ->
  frame W s (s <| m_hw ::= upd pin_log (app ev) |>).
Proof.
  intros HW Ho Hv Hp. split; try done.
  - intros o' _. apply option_rel_refl.
  - intros n [T1 T2 T3 T4]. by split.
  - exists ev. split; [done |]. eapply Forall_impl; [exact Hp |]. simpl. intros e He. by exists o, x.
Qed.

(** *** The configuration a shutdown finds *)

(** A device whose bus was chosen has the bus its flags name. *)
Definition bus_set `{B : Board} (d : spidev) : Prop :=
  has (sp_flags d) (Z.lor SF_SOFTWARE SF_HARDWARE) = true ->
  if soft d then exists ss, sp_bus d = SpiSoftware ss else exists bus mode rate, sp_bus d = SpiConfig bus mode rate.

Record config_ok `{B : Board} (n : Z) (s : mcu) : Prop := {
  cf_table : table_ok n s;
  cf_pins : forall o1 o2 x y e, 0 <= o1 -> 0 <= o2 -> obj_view s o1 = Some x -> obj_view s o2 = Some y ->
    default_event x = Some e -> pin_of e ∈ out_pins y -> o1 = o2;
  cf_sig : forall o x k, 0 <= o -> obj_view s o = Some x -> obj_sig x = Some k ->
    0 <= k /\ exists st, obj_view s k = Some (OStepper st);
  cf_timers : forall o x slot, 0 <= o -> obj_view s o = Some x -> slot ∈ otype_slots (otype_of x) ->
    is_Some (timers (m_sched s) !! ObjTimer o slot);
  cf_wrap : is_Some (timers (m_sched s) !! WrapTimer);
  cf_nodes : 0 <= move_count (m_base s)
    /\ forall m, 0 <= m < move_count (m_base s) -> is_Some (nodes (m_base s) !! m);
  cf_spi : forall o sd, 0 <= o -> obj_view s o = Some (OSpiShutdown sd) ->
    0 <= sd_spi sd /\ exists d, obj_view s (sd_spi sd) = Some (OSpi d) /\ bus_set d;
  cf_fans : (USR_EXTRAS_FAN_MAX <= length (fc_status s))%nat;
}.

Lemma rel_stepper st y : obj_rel (OStepper st) y -> exists st', y = OStepper st'.
Proof. intros R. pose proof (or_type _ _ R) as H. destruct y; try done. eauto. Qed.

Lemma frame_config `{B : Board} W n s s' : frame W s s' -> config_ok n s -> config_ok n s'.
Proof.
  intros F [C1 C2 C3 C4 C5 [C6 C7] C8 C9]. pose proof (fr_pool _ _ _ F) as (P1 & P2 & P3). split.
  - by apply (fr_table _ _ _ F).
  - intros o1 o2 x y e H1 H2 Hx Hy Hd Hq.
    destruct (frame_view_inv _ _ _ _ _ F H1 Hx) as (x0 & E0 & R0).
    destruct (frame_view_inv _ _ _ _ _ F H2 Hy) as (y0 & E1 & R1).
    rewrite (or_default _ _ R0) in Hd. rewrite (or_pins _ _ R1) in Hq. by apply (C2 o1 o2 x0 y0 e).
  - intros o x k Ho Hx Hk. destruct (frame_view_inv _ _ _ _ _ F Ho Hx) as (x0 & E0 & R0).
    destruct (or_sig _ _ R0) as [E | E]; [| congruence]. rewrite E in Hk.
    destruct (C3 o x0 k Ho E0 Hk) as (Hk0 & st & Hst). split; [done |].
    destruct (frame_view _ _ _ _ _ F Hk0 Hst) as (y & Hy & (st' & ->)%rel_stepper). by exists st'.
  - intros o x slot Ho Hx Hs. destruct (frame_view_inv _ _ _ _ _ F Ho Hx) as (x0 & E0 & R0).
    apply (fr_dom _ _ _ F). rewrite (or_type _ _ R0) in Hs. by apply (C4 o x0).
  - by apply (fr_dom _ _ _ F).
  - by rewrite P3, P1.
  - intros o sd Ho Hx. destruct (frame_view_inv _ _ _ _ _ F Ho Hx) as (x0 & E0 & R0).
    pose proof (or_fixed _ _ R0) as Ef. destruct x0; try done. injection Ef as <-.
    destruct (C8 o sd Ho E0) as (Hd & d & Hv & Hb). split; [done |]. exists d. split; [| done].
    destruct (frame_view _ _ _ _ _ F Hd Hv) as (y & Hy & R). pose proof (or_fixed _ _ R) as Eg. destruct y; try done. by injection Eg as ->.
  - by rewrite (fr_fans _ _ _ F).
Qed.

Lemma last_event_app pin ev log :
  Forall (fun e => pin_of e <> pin) ev -> last_event pin (ev ++ log) = last_event pin log.
Proof. induction 1 as [| e ev H _ IH]; [done |]. simpl. by destruct (Z.eqb_spec (pin_of e) pin). Qed.

(** An output stays at its default while other pins are written. *)
Lemma at_default_frame `{B : Board} (W : Z -> Prop) n s s' o x y :
  config_ok n s -> frame W s s' -> 0 <= o -> ~ W o -> obj_view s o = Some x -> obj_rel x y ->
  at_default x (pin_log (m_hw s)) -> at_default y (pin_log (m_hw s')).
Proof.
  intros C F Ho HW Hx R Hd e He. rewrite (or_default _ _ R) in He.
  destruct (fr_pins _ _ _ F) as (ev & -> & Hev). rewrite last_event_app; [by apply Hd |].
  eapply Forall_impl; [exact Hev |]. simpl. intros e' (o' & x' & HW' & Ho' & Hx' & Hp') Heq.
  apply HW. assert (o = o') as ->; [| done].
  eapply (cf_pins _ _ C o o' x x'); [done | done | done | done | exact He |]. by rewrite <- Heq.
Qed.

(** Besides the periodic timer, only timers with [A] are scheduled. *)
Definition list_in (A : tptr -> Prop) (s : mcu) : Prop :=
  exists l, quiet_list l (m_sched s) /\ forall p, p ∈ l -> p = PeriodicTimer \/ A p.

Lemma list_in_mono (A A' : tptr -> Prop) s : (forall p, A p -> A' p) -> list_in A s -> list_in A' s.
Proof. intros H (l & Q & Hl). exists l. split; [done |]. intros p Hp. destruct (Hl p Hp); auto. Qed.

Lemma list_in_keep (A C : tptr -> Prop) s s' :
  m_sched s' = m_sched s -> list_in A s -> list_in (fun p => A p \/ C p) s'.
Proof. intros E (l & Q & Hl). exists l. rewrite E. split; [done |]. intros p Hp. destruct (Hl p Hp); auto. Qed.

(** An object is out of action. *)
Definition safe (o : obj) (s : mcu) : Prop := idle o /\ at_default o (pin_log (m_hw s)).

Definition typed (s : mcu) (ty : otype) (k : Z) : Prop := 0 <= k /\ exists x, obj_view s k = Some x /\ otype_of x = ty.

Lemma frame_typed W s s' ty k : frame W s s' -> typed s' ty k <-> typed s ty k.
Proof.
  intros F. split; intros (Hk & x & Hx & Ht); (split; [done |]).
  - destruct (frame_view_inv _ _ _ _ _ F Hk Hx) as (y & Hy & R). exists y. by rewrite <- (or_type _ _ R).
  - destruct (frame_view _ _ _ _ _ F Hk Hx) as (y & Hy & R). exists y. by rewrite (or_type _ _ R).
Qed.

Lemma safe_frame `{B : Board} W n s s' o x y :
  config_ok n s -> frame W s s' -> 0 <= o -> ~ W o -> obj_view s o = Some x -> obj_rel x y -> safe x s -> safe y s'.
Proof.
  intros C F Ho HW Hx R [Hi Hd]. split; [by apply (or_idle _ _ R) | by eapply at_default_frame].
Qed.

(** ** One shutdown function

    A function that visits the objects of one type is correct when its body
    makes one object safe.  Only the analog inputs go back to the timer list. *)
Section Handler.
Context `{B : Board} (n : Z) (ty : otype) (body : Z -> FW unit).

Definition readded (k : Z) (p : tptr) : Prop := ty = T_analog_in /\ p = ObjTimer k 0.

Definition stops : Prop := forall (A : tptr -> Prop) k x s,
  config_ok n s -> con_wf (m_con s) -> list_in A s -> 0 <= k -> obj_view s k = Some x -> otype_of x = ty ->
  (forall slot, ~ A (ObjTimer k slot)) ->
  exists s' y, body k s = (Ok tt, s') /\ frame (eq k) s s' /\ con_wf (m_con s')
    /\ list_in (fun p => A p \/ readded k p) s' /\ obj_view s' k = Some y /\ safe y s'.

Definition all_safe (s : mcu) : Prop := forall o x, 0 <= o -> obj_view s o = Some x -> otype_of x = ty -> safe x s.

Record progress (A : tptr -> Prop) (s0 : mcu) (k : Z) (s : mcu) : Prop := {
  pg_config : config_ok n s;
  pg_con : con_wf (m_con s);
  pg_list : list_in (fun p => A p \/ exists j, j < k /\ typed s0 ty j /\ readded j p) s;
  pg_frame : frame (typed s0 ty) s0 s;
  pg_safe : forall o x, 0 <= o < k -> obj_view s o = Some x -> otype_of x = ty -> safe x s;
}.

Lemma progress_step A s0 k s x :
  stops -> (forall j slot, typed s0 ty j -> ~ A (ObjTimer j slot)) -> 0 <= k < n -> progress A s0 k s ->
  obj_view s k = Some x -> otype_of x = ty -> exists s', body k s = (Ok tt, s') /\ progress A s0 (k + 1) s'.
Proof.
  intros Hb HA Hk [P1 P2 P3 P4 P5] Hx Hy.
  assert (Ht : typed s0 ty k) by (apply (frame_typed _ _ _ _ _ P4); split; [lia | eauto]).
  destruct (Hb _ k x s P1 P2 P3) as (s' & y & E & F & C' & L' & Hv & S'); [lia | done.. | |].
  { intros slot [Ha | (j & Hj & Htj & _ & [=])]; [by apply (HA k slot) | lia]. }
  exists s'. split; [done |]. split; [by eapply frame_config | done | | |].
  - revert L'. apply list_in_mono. intros p [[Ha | (j & Hj & R)] | R]; [by left | right; exists j; split; [lia | done] |].
    right. exists k. split; [lia |]. done.
  - eapply frame_trans; [exact P4 |]. revert F. apply frame_mono. by intros o <-.
  - intros o z Ho Hz Hzt. destruct (decide (o = k)) as [-> |]; [by simplify_eq |].
    destruct (frame_view_inv _ _ _ _ _ F (proj1 Ho) Hz) as (z0 & Hz0 & R).
    apply (safe_frame (eq k) n s s' o z0 z P1 F (proj1 Ho)); [by intros -> | done | done |].
    apply (P5 o); [lia | done |]. by rewrite <- (or_type _ _ R).
Qed.

Lemma handler_ok A s :
  stops -> config_ok n s -> con_wf (m_con s) -> list_in A s -> (forall j slot, typed s ty j -> ~ A (ObjTimer j slot)) ->
  exists s', foreach_oid ty body s = (Ok tt, s') /\ frame (typed s ty) s s' /\ con_wf (m_con s')
    /\ list_in (fun p => A p \/ exists j, typed s ty j /\ readded j p) s' /\ all_safe s'.
Proof.
  intros Hb C Hc L HA. destruct (foreach_oid_rule n ty body (progress A s)) with (s := s) as (s' & E & [P1 P2 P3 P4 P5]).
  - intros k s1 [P1 _ _ _ _]. apply (cf_table _ _ P1).
  - intros k s1 x Hk P Hx Hy. by eapply progress_step.
  - intros k s1 Hk [P1 P2 P3 P4 P5] Hno. split; try done.
    + revert P3. apply list_in_mono. intros p [Ha | (j & Hj & R)]; [by left | right; exists j; split; [lia | done]].
    + intros o x Ho Hx Hy. destruct (decide (o = k)) as [-> |]; [by destruct (Hno x) | by apply (P5 o); [lia | |]].
  - split; [done | done | | apply frame_refl | intros; lia].
    revert L. apply list_in_mono. by left.
  - exists s'. split; [done |]. split; [done |]. split; [done |]. split.
    + revert P3. apply list_in_mono. intros p [Ha | (j & Hj & R)]; [by left | right; by exists j].
    + intros o x Ho Hx Hy. apply (P5 o); [| done | done]. split; [done |]. by eapply table_view; [apply (cf_table _ _ P1) | |].
Qed.
End Handler.
