(* ===== verification/Stopping.v ===== *)
(** * Stopping: the shutdown functions, object by object

    The bodies of [stepper_shutdown], [digital_out_shutdown], [pwm_shutdown],
    [analog_in_shutdown], [trsync_shutdown], [tmcuart_shutdown],
    [fancheck_shutdown] and [spidev_shutdown]: each puts one object at rest. *)

From S2P Require Import Prelude Wire State Command Sched Basecmd Stepper Trsync Gpiocmds Pwmcmds Adccmds Spi Tmcuart Fancheck Quiet Halting.
Import Encode.

(** ** Shared steps *)

Section Bodies.
Context `{B : Board} (n : Z).
Implicit Types (s : mcu) (A : tptr -> Prop).

Lemma list_in_upd A p f s :
  (forall r, t_next (f r) = t_next r) -> p <> PeriodicTimer -> p <> SentinelTimer ->
  list_in A s -> list_in A (s <| m_sched ::= upd timers (alter f p) |>).
Proof. intros Hf H1 H2 (l & Q & Hl). exists l. split; [by apply quiet_list_upd | done]. Qed.

Lemma tm_upd_frame W p f s : frame W s (s <| m_sched ::= upd timers (alter f p) |>).
Proof. apply frame_sched. split; try done. intros q. apply alter_dom. Qed.

(** Removing the timer of an object that is not scheduled. *)
Lemma del_obj_timer A k slot s :
  list_in A s -> ~ A (ObjTimer k slot) ->
  exists s', sched_del_timer (ObjTimer k slot) s = (Ok tt, s') /\ list_in A s' /\ sched_frame s s' /\ m_con s' = m_con s.
Proof.
  intros (l & Q & Hl) HA. destruct (del_quiet (ObjTimer k slot) l s Q) as (s' & E & Q' & F); [| done | done |].
  { intros Hp. by destruct (Hl _ Hp). }
  exists s'. split; [done |]. split; [by exists l | done].
Qed.

(** ** Steppers *)

Definition halt_pins (st : stepper) : list pin_event :=
  (if negb (HAVE_EDGE_OPTIMIZATION && has (s_flags st) SF_SINGLE_SCHED)
   then [EvWrite (s_step_pin st) (truth (Z.land (s_flags st) SF_INVERT_STEP))] else [])
  ++ [EvWrite (s_dir_pin st) false].

Lemma stepper_halt_exact k st s :
  0 <= k -> obj_view s k = Some (OStepper st) -> is_Some (timers (m_sched s) !! stepper_timer k) ->
  stepper_halt k s = (Ok tt,
    (put_obj k (OStepper (halted st)) (s <| m_sched ::= upd timers (alter (fun r => r <| t_waketime := 0 |>) (stepper_timer k)) |>))
      <| m_hw ::= upd pin_log (app (halt_pins (halted st))) |>).
Proof.
  intros Ho Hv Ht. unfold stepper_halt, set_waketime. erewrite bind_ok by (by apply tm_upd_run).
  set (s1 := upd m_sched _ s). assert (Hv1 : obj_view s1 k = Some (OStepper st)) by done.
  do 4 (erewrite bind_ok by (eapply upd_stepper_run; first [exact Hv1 | eapply obj_view_put; repeat eapply obj_view_put; exact Hv1]);
        rewrite ?put_obj_put).
  erewrite bind_ok by (eapply get_stepper_run, obj_view_put; exact Hv1).
  unfold gpio_out_write, log_pin, halt_pins. msimpl. fold (halted st). by destruct (negb _).
Qed.

Lemma rel_clear st : obj_rel (OStepper st) (OStepper (st <| s_mq ::= move_queue_clear |>)).
Proof. split; simpl; try tauto. Qed.

Lemma rel_halted st : mq_first (s_mq st) = None -> obj_rel (OStepper st) (OStepper (halted st)).
Proof. intros H. split; simpl; try tauto. intros _. split_and!; [done | done | by apply has_lor_same]. Qed.

Lemma idle_halted st : mq_first (s_mq st) = None -> idle (OStepper (halted st)).
Proof. intros H. simpl. split_and!; [done | done | by apply has_lor_same]. Qed.

Lemma stepper_stop_idle A k st s :
  config_ok n s -> list_in A s -> 0 <= k -> obj_view s k = Some (OStepper st) -> mq_first (s_mq st) = None ->
  ~ A (stepper_timer k) ->
  exists s', stepper_stop k 0 s = (Ok tt, s') /\ frame (eq k) s s' /\ m_con s' = m_con s /\ list_in A s'
    /\ obj_view s' k = Some (OStepper (halted st)).
Proof.
  intros C L Hk Hv Hq HA. unfold stepper_stop.
  destruct (del_obj_timer A k 0 s L HA) as (s1 & E1 & L1 & F1 & C1). rewrite (bind_ok _ _ _ _ _ E1).
  assert (Hv1 : obj_view s1 k = Some (OStepper st)) by (unfold obj_view; by rewrite (sc_base _ _ F1)).
  assert (Ht1 : is_Some (timers (m_sched s1) !! stepper_timer k)).
  { apply (sc_dom _ _ F1), (cf_timers _ _ C k _ 0 Hk Hv). apply list_elem_of_here. }
  rewrite (bind_ok _ _ _ _ _ (stepper_halt_exact k st s1 Hk Hv1 Ht1)).
  set (s2 := s1 <| m_sched ::= _ |>). set (s3 := put_obj k _ s2). set (s4 := s3 <| m_hw ::= _ |>).
  assert (Hv3 : obj_view s3 k = Some (OStepper (halted st))) by (eapply obj_view_put; exact Hv1).
  unfold base. msimpl. cbn [stepper_drain]. rewrite (bind_ok _ _ _ _ _ (get_stepper_run k (halted st) s4 Hv3)).
  unfold move_queue_empty. rewrite bool_decide_eq_true_2 by exact Hq. msimpl.
  exists s4. split; [done |]. split_and!; [| done | | done].
  - apply (frame_trans _ s s1); [by apply frame_sched |]. apply (frame_trans _ s1 s2); [apply tm_upd_frame |].
    apply (frame_trans _ s2 s3); [eapply frame_put; [done | exact Hv1 | by apply rel_halted] |].
    apply (frame_pins _ k (OStepper (halted st))); [done | done | done |]. unfold halt_pins.
    apply Forall_app. split; [destruct (negb _); [apply Forall_singleton | constructor] | apply Forall_singleton];
      [apply list_elem_of_here | apply list_elem_of_further, list_elem_of_here].
  - by apply (list_in_upd A (stepper_timer k) _ s1).
Qed.

Lemma stepper_stops :
  stops n T_stepper (fun oid => upd_stepper oid (fun st => st <| s_mq ::= move_queue_clear |>) ;; stepper_stop oid 0).
Proof.
  intros A k x s C Hc L Hk Hv Hy HA. destruct x as [st | | | | | | | | | | | | | |]; try done.
  rewrite (bind_ok _ _ _ _ _ (upd_stepper_run _ _ _ _ Hv)).
  assert (F : frame (eq k) s (put_obj k (OStepper (st <| s_mq ::= move_queue_clear |>)) s)).
  { eapply frame_put; [done | exact Hv | apply rel_clear]. }
  destruct (stepper_stop_idle A k (st <| s_mq ::= move_queue_clear |>) (put_obj k (OStepper (st <| s_mq ::= move_queue_clear |>)) s))
    as (s' & E & F' & C' & L' & V'); [by eapply frame_config | done | done | by eapply obj_view_put | done | apply HA |].
  exists s'. eexists. split; [exact E |]. split; [by eapply frame_trans |]. split; [by rewrite C' |]. split; [| split; [exact V' |]].
  - revert L'. apply list_in_mono. by left.
  - split; [by apply idle_halted | done].
Qed.

(** ** Outputs *)

Lemma rel_digital d f m :
  has f DF_DEFAULT_ON = has (d_flags d) DF_DEFAULT_ON -> mq_first m = None \/ mq_first m = mq_first (d_mq d) ->
  obj_rel (ODigital d) (ODigital (d <| d_flags := f |> <| d_mq := m |>)).
Proof. intros Hf Hm. split; simpl; try tauto; [by rewrite Hf | intros H; destruct Hm as [-> | ->]; done]. Qed.

Lemma digital_stops :
  stops n T_digital_out (fun oid =>
    d ← get_digital oid;
    gpio_out_write (d_pin d) (Z.land (d_flags d) DF_DEFAULT_ON) ;;
    upd_digital oid (fun d => d <| d_flags := if has (d_flags d) DF_DEFAULT_ON then Z.lor DF_ON DF_DEFAULT_ON else 0 |>) ;;
    upd_digital oid (fun d => d <| d_mq ::= move_queue_clear |>)).
Proof.
  intros A k x s C Hc L Hk Hv Hy HA. destruct x as [| | | d | | | | | | | | | | |]; try done.
  set (fl := if has (d_flags d) DF_DEFAULT_ON then Z.lor DF_ON DF_DEFAULT_ON else 0).
  assert (Hfl : has fl DF_DEFAULT_ON = has (d_flags d) DF_DEFAULT_ON) by (unfold fl; by destruct (has _ _)).
  set (e := EvWrite (d_pin d) (has (d_flags d) DF_DEFAULT_ON)).
  set (s1 := s <| m_hw ::= upd pin_log (cons e) |>).
  set (d1 := d <| d_flags := fl |>). set (d2 := d1 <| d_mq ::= move_queue_clear |>).
  rewrite (bind_ok _ _ _ _ _ (get_digital_run _ _ _ Hv)). unfold gpio_out_write. rewrite (bind_ok _ _ _ _ _ (log_pin_run _ _)).
  change (truth (Z.land (d_flags d) DF_DEFAULT_ON)) with (has (d_flags d) DF_DEFAULT_ON). fold e s1.
  erewrite bind_ok by (eapply (upd_digital_run _ _ _ s1 Hv)). erewrite upd_digital_run by (eapply obj_view_put; exact Hv).
  rewrite put_obj_put. fold fl d1 d2.
  eexists _, (ODigital d2). split; [reflexivity |]. split_and!; [| done | | by eapply obj_view_put |].
  - apply (frame_trans _ s s1); [apply (frame_pins _ k (ODigital d) [e]); try done; by apply Forall_singleton, list_elem_of_here |].
    eapply frame_put; [done | exact Hv |]. apply rel_digital; [done | by left].
  - revert L. by apply list_in_keep.
  - split; [done |]. intros e' [= <-]. simpl. rewrite Hfl. by rewrite Z.eqb_refl.
Qed.

Lemma pwm_stops :
  stops n T_pwm_out (fun oid =>
    p ← get_pwm oid;
    gpio_pwm_write (p_pin p) (p_default_value p) ;;
    set_func (pwm_timer oid) F_pwm_event ;;
    upd_pwm oid (fun p => p <| p_mq ::= move_queue_clear |>)).
Proof.
  intros A k x s C Hc L Hk Hv Hy HA. destruct x as [| | | | p | | | | | | | | | |]; try done.
  set (e := EvPwm (p_pin p) (p_default_value p)). set (s1 := s <| m_hw ::= upd pin_log (cons e) |>).
  set (p1 := p <| p_mq ::= move_queue_clear |>).
  assert (Ht : is_Some (timers (m_sched s1) !! pwm_timer k)).
  { apply (cf_timers _ _ C k _ 0 Hk Hv). apply list_elem_of_here. }
  rewrite (bind_ok _ _ _ _ _ (get_pwm_run _ _ _ Hv)). unfold gpio_pwm_write. rewrite (bind_ok _ _ _ _ _ (log_pin_run _ _)).
  fold e s1. unfold set_func. rewrite (bind_ok _ _ _ _ _ (tm_upd_run _ _ _ Ht)). set (s2 := s1 <| m_sched ::= _ |>).
  assert (Hv2 : obj_view s2 k = Some (OPwm p)) by done.
  rewrite (upd_pwm_run _ _ _ _ Hv2). fold p1.
  eexists _, (OPwm p1). split; [reflexivity |]. split_and!; [| done | | by eapply obj_view_put |].
  - apply (frame_trans _ s s1); [apply (frame_pins _ k (OPwm p) [e]); try done; by apply Forall_singleton, list_elem_of_here |].
    apply (frame_trans _ s1 s2); [apply tm_upd_frame |].
    eapply frame_put; [done | exact Hv2 |]. split; simpl; tauto.
  - apply (list_in_upd _ (pwm_timer k) _ s1); [done.. |]. revert L. by apply list_in_keep.
  - split; [done |]. intros e' [= <-]. simpl. by rewrite Z.eqb_refl.
Qed.

(** ** Analog inputs: sampling goes on *)

Lemma add_obj_timer A k s :
  list_in A s -> ~ A (ObjTimer k 0) -> is_Some (timers (m_sched s) !! ObjTimer k 0) -> con_wf (m_con s) ->
  fits (ctr_lookup_output "Timer too close") [] ->
  exists s', sched_add_timer (ObjTimer k 0) s = (Ok tt, s') /\ con_wf (m_con s') /\ sched_frame s s'
    /\ list_in (fun p => A p \/ p = ObjTimer k 0) s'.
Proof.
  intros (l & Q & Hl) HA Ht Hc Hf.
  destruct (add_quiet (ObjTimer k 0) l s) as (s' & E & Hc' & l' & Hp & Q' & F); try done.
  { intros Hx. by destruct (Hl _ Hx). }
  exists s'. split_and!; [done | done | done |]. exists l'. split; [done |].
  intros p Hx. rewrite Hp in Hx. apply elem_of_cons in Hx as [-> | Hx]; [tauto |]. destruct (Hl p Hx); auto.
Qed.

Lemma analog_stops :
  fits (ctr_lookup_output "Timer too close") [] ->
  stops n T_analog_in (fun oid =>
    a ← get_analog oid;
    gpio_adc_cancel_sample (a_pin a) ;;
    when (truth (a_sample_count a))
      (upd_analog oid (fun a => a <| a_state := u8 (a_sample_count a + 1) |>
         <| a_next_begin_time ::= fun t => u32 (t + a_rest_time a) |>) ;;
       a ← get_analog oid;
       set_waketime (analog_timer oid) (a_next_begin_time a) ;;
       sched_add_timer (analog_timer oid))).
Proof.
  intros Hf A k x s C Hc L Hk Hv Hy HA. destruct x as [| | | | | a | | | | | | | | |]; try done.
  rewrite (bind_ok _ _ _ _ _ (get_analog_run _ _ _ Hv)). unfold gpio_adc_cancel_sample. msimpl.
  destruct (truth (a_sample_count a)).
  2: { exists s, (OAnalog a). split; [done |]. split_and!; [apply frame_refl | done | by apply (list_in_keep _ _ s) | done | done]. }
  erewrite bind_ok by (eapply upd_analog_run; exact Hv).
  match goal with |- context [put_obj k (OAnalog ?b) s] => set (a1 := b) end. set (s1 := put_obj k (OAnalog a1) s).
  assert (Hv1 : obj_view s1 k = Some (OAnalog a1)) by (eapply obj_view_put; exact Hv).
  rewrite (bind_ok _ _ _ _ _ (get_analog_run _ _ _ Hv1)).
  assert (Ht : is_Some (timers (m_sched s1) !! analog_timer k)).
  { apply (cf_timers _ _ C k _ 0 Hk Hv). apply list_elem_of_here. }
  unfold set_waketime. rewrite (bind_ok _ _ _ _ _ (tm_upd_run _ _ _ Ht)). set (s2 := s1 <| m_sched ::= _ |>).
  destruct (add_obj_timer A k s2) as (s3 & E3 & C3 & F3 & L3); [| apply HA | | done | done |].
  { by apply (list_in_upd _ (analog_timer k) _ s1). }
  { by apply alter_dom. }
  exists s3, (OAnalog a1). split; [exact E3 |]. split_and!; [| done | | | done].
  - apply (frame_trans _ s s1); [eapply frame_put; [done | exact Hv | split; simpl; tauto] |].
    apply (frame_trans _ s1 s2); [apply tm_upd_frame | by apply frame_sched].
  - revert L3. apply list_in_mono. intros p [? | ->]; [by left | by right].
  - unfold obj_view. rewrite (sc_base _ _ F3). exact Hv1.
Qed.

(** ** Triggers

    Each turn of [trsync_clear] cuts the link it has followed, so that it ends
    on every chain of signals, even a cyclic one. *)

Definition linked s (k : Z) : bool :=
  match obj_view s k with Some (OStepper st) => bool_decide (s_sig_next st <> None) | _ => false end.

Definition links s : nat := length (filter (fun k => linked s k = true) (seqZ 0 n)).

Lemma filter_length_le {X} (P Q : X -> bool) (l : list X) :
  (forall x, x ∈ l -> P x = true -> Q x = true) ->
  (length (filter (fun x => P x = true) l) <= length (filter (fun x => Q x = true) l))%nat.
Proof.
  induction l as [| x l IH]; intros H; [done |]. rewrite !filter_cons.
  specialize (IH (fun y Hy => H y (list_elem_of_further _ _ _ Hy))). pose proof (H x (list_elem_of_here _ _)) as Hx.
  destruct (decide (P x = true)), (decide (Q x = true)); simpl; try lia. tauto.
Qed.

Lemma filter_length_lt {X} (P Q : X -> bool) (l : list X) y :
  (forall x, x ∈ l -> P x = true -> Q x = true) -> y ∈ l -> P y = false -> Q y = true ->
  (length (filter (fun x => P x = true) l) < length (filter (fun x => Q x = true) l))%nat.
Proof.
  intros H Hy HP HQ. apply list_elem_of_split in Hy as (l1 & l2 & ->). rewrite !filter_app, !length_app, !filter_cons.
  rewrite decide_False by congruence. rewrite decide_True by done. simpl.
  assert (length (filter (fun x => P x = true) l1) <= length (filter (fun x => Q x = true) l1))%nat
    by (apply filter_length_le; intros x Hx; apply H, elem_of_app; auto).
  assert (length (filter (fun x => P x = true) l2) <= length (filter (fun x => Q x = true) l2))%nat
    by (apply filter_length_le; intros x Hx; apply H, elem_of_app; right; by apply list_elem_of_further).
  lia.
Qed.

Lemma links_bound s : 0 <= n -> (links s <= Z.to_nat n)%nat.
Proof. intros H. unfold links. rewrite length_filter. by rewrite length_seqZ. Qed.

Lemma links_cut s k st x :
  table_ok n s -> 0 <= k -> obj_view s k = Some (OStepper st) -> s_sig_next st <> None -> s_sig_next x = None ->
  (links (put_obj k (OStepper x) s) < links s)%nat.
Proof.
  intros T Hk Hv Hs Hx. unfold links. apply (filter_length_lt _ _ _ k).
  - intros o [Ho _]%elem_of_seqZ. unfold linked. destruct (decide (o = k)) as [-> |].
    + rewrite (obj_view_put _ _ _ _ Hv), Hx. by rewrite bool_decide_eq_false_2 by auto.
    + by rewrite obj_view_put_ne.
  - apply elem_of_seqZ. pose proof (table_view _ _ _ _ T Hk Hv). lia.
  - unfold linked. rewrite (obj_view_put _ _ _ _ Hv), Hx. by rewrite bool_decide_eq_false_2 by auto.
  - unfold linked. rewrite Hv. by rewrite bool_decide_eq_true_2.
Qed.

Lemma rel_unsubscribed st : obj_rel (OStepper st) (OStepper (unsubscribed st)).
Proof. split; simpl; tauto. Qed.

Lemma clear_loop_stops W fuel tss s :
  config_ok n s -> (forall k, tss = Some k -> 0 <= k /\ exists st, obj_view s k = Some (OStepper st)) ->
  (match tss with None => 1 | Some _ => links s + 2 end <= fuel)%nat ->
  exists s', clear_loop fuel tss s = (Ok tt, s') /\ frame W s s' /\ m_con s' = m_con s /\ m_sched s' = m_sched s
    /\ pin_log (m_hw s') = pin_log (m_hw s).
Proof.
  induction fuel as [| fuel IH] in tss, s |- *; intros C Ht Hf; [destruct tss; lia |]. cbn [clear_loop].
  destruct tss as [k |]; [| exists s; split; [done |]; split; [apply frame_refl | done]].
  destruct (Ht k eq_refl) as (Hk & st & Hv).
  rewrite (bind_ok _ _ _ _ _ (get_stepper_run _ _ _ Hv)), (bind_ok _ _ _ _ _ (upd_stepper_run _ _ _ _ Hv)).
  erewrite bind_ok by (eapply upd_stepper_run, obj_view_put; exact Hv). rewrite put_obj_put.
  change (put_obj k _ s) with (put_obj k (OStepper (unsubscribed st)) s). set (s1 := put_obj _ _ s).
  assert (F1 : frame W s s1) by (eapply frame_put; [done | exact Hv | apply rel_unsubscribed]).
  destruct (IH (s_sig_next st) s1) as (s' & E & F & C' & S' & L').
  - by eapply frame_config.
  - intros j Ej. destruct (cf_sig _ _ C k _ j Hk Hv Ej) as (Hj & st' & Hst'). split; [done |].
    destruct (frame_view _ _ _ _ _ F1 Hj Hst') as (y & Hy & (st2 & ->)%rel_stepper). by exists st2.
  - destruct (s_sig_next st) as [j |] eqn:Ej; [| lia].
    assert (links s1 < links s)%nat; [| lia].
    apply (links_cut s k st); [apply (cf_table _ _ C) | done | done | by rewrite Ej | done].
  - exists s'. split; [exact E |]. split; [by eapply frame_trans | done].
Qed.

Lemma rel_trsync t y : obj_rel (OTrsync t) y -> exists t', y = OTrsync t'.
Proof. intros R. pose proof (or_type _ _ R) as H. destruct y; try done. eauto. Qed.

Lemma trsync_stops : stops n T_trsync trsync_clear.
Proof.
  intros A k x s C Hc L Hk Hv Hy HA. destruct x as [| t | | | | | | | | | | | | |]; try done. unfold trsync_clear.
  destruct (del_obj_timer A k 0 s L (HA 0)) as (s1 & E1 & L1 & F1 & C1). rewrite (bind_ok _ _ _ _ _ E1).
  destruct (del_obj_timer A k 1 s1 L1 (HA 1)) as (s2 & E2 & L2 & F2 & C2). rewrite (bind_ok _ _ _ _ _ E2).
  assert (F : frame (eq k) s s2) by (eapply frame_trans; by apply frame_sched).
  assert (Hv2 : obj_view s2 k = Some (OTrsync t)) by (unfold obj_view; by rewrite (sc_base _ _ F2), (sc_base _ _ F1)).
  pose proof (frame_config _ _ _ _ F C) as Cf. pose proof (tb_range _ _ (cf_table _ _ Cf)) as Hr.
  rewrite (bind_ok _ _ _ _ _ (get_trsync_run _ _ _ Hv2)).
  destruct (clear_loop_stops (eq k) 257 (ts_signals t) s2) as (s3 & E3 & F3 & C3 & S3 & L3); [done | | |].
  { intros j Ej. by apply (cf_sig _ _ Cf k _ j Hk Hv2). }
  { pose proof (links_bound s2). destruct (ts_signals t); lia. }
  rewrite (bind_ok _ _ _ _ _ E3).
  destruct (frame_view _ _ _ _ _ F3 Hk Hv2) as (y & Hv3 & (t3 & ->)%rel_trsync).
  rewrite (bind_ok _ _ _ _ _ (upd_trsync_run _ _ _ _ Hv3)).
  erewrite upd_trsync_run by (eapply obj_view_put; exact Hv3). rewrite put_obj_put.
  eexists _, _. split; [reflexivity |]. split_and!; [| | | eapply obj_view_put; exact Hv3 | done].
  - apply (frame_trans _ s s2); [done |]. apply (frame_trans _ s2 s3); [done |].
    eapply frame_put; [done | exact Hv3 |]. split; simpl; tauto.
  - simpl. by rewrite C3, C2, C1.
  - by apply (list_in_keep _ _ s2).
Qed.

(** ** Driver lines *)

Lemma tmcuart_flags f :
  let f' := Z.lor (Z.land f (Z.lor TU_PULLUP TU_SINGLE_WIRE)) TU_LINE_HIGH in
  has f' TU_SINGLE_WIRE = has f TU_SINGLE_WIRE /\ has f' TU_ACTIVE = false.
Proof.
  unfold has. cbv zeta. rewrite !Z.land_lor_distr_l, <- !Z.land_assoc. split.
  - change (Z.land TU_LINE_HIGH TU_SINGLE_WIRE) with 0. by rewrite Z.lor_0_r.
  - change (Z.land (Z.lor TU_PULLUP TU_SINGLE_WIRE) TU_ACTIVE) with 0. by rewrite Z.land_0_r.
Qed.

Lemma tmcuart_stops : stops n T_tmcuart tmcuart_reset_line.
Proof.
  intros A k x s C Hc L Hk Hv Hy HA. destruct x as [| | | | | | | | t | | | | | |]; try done.
  unfold tmcuart_reset_line. rewrite (bind_ok _ _ _ _ _ (get_tmcuart_run _ _ _ Hv)).
  set (e := if has (tu_flags t) TU_SINGLE_WIRE then EvSetup (tu_tx_pin t) true else EvWrite (tu_tx_pin t) true).
  set (s1 := s <| m_hw ::= upd pin_log (cons e) |>).
  assert (E1 : (if has (tu_flags t) TU_SINGLE_WIRE then gpio_out_reset (tu_tx_pin t) 1 else gpio_out_write (tu_tx_pin t) 1) s = (Ok tt, s1))
    by (unfold s1, e; by destruct (has _ _)).
  rewrite (bind_ok _ _ _ _ _ E1), (upd_tmcuart_run k t _ s1 Hv).
  destruct (tmcuart_flags (tu_flags t)) as [Hs Ha]. set (fl := Z.lor _ _) in *.
  eexists _, (OTmcuart (t <| tu_flags := fl |>)). split; [reflexivity |]. split_and!; [| done | | by eapply obj_view_put |].
  - apply (frame_trans _ s s1).
    + apply (frame_pins _ k (OTmcuart t) [e]); try done. apply Forall_singleton. unfold e. by destruct (has _ _); apply list_elem_of_here.
    + eapply frame_put; [done | exact Hv |]. split; simpl; try tauto. fold fl. by rewrite Hs.
  - revert L. by apply list_in_keep.
  - split; [exact Ha |]. intros e' He. simpl in He. rewrite Hs in He. fold e in He. injection He as <-.
    simpl. by rewrite Z.eqb_refl.
Qed.

(** ** Fan measurements *)

Lemma frame_fans W f i s : frame W s (s <| fc_status ::= alter f i |>).
Proof.
  split; try done.
  - intros o _. apply option_rel_refl.
  - intros m [T1 T2 T3 T4]. by split.
  - exists []. done.
  - simpl. apply length_alter.
Qed.

Lemma clear_status_stops W k m : forall j s c,
  0 <= k -> obj_view s k = Some (OFancheck c) -> fc_flags c = 0 -> (j + m <= length (fc_status s))%nat ->
  exists s' c', clear_status m j k s = (Ok tt, s') /\ frame W s s' /\ m_con s' = m_con s /\ m_sched s' = m_sched s
    /\ m_hw s' = m_hw s /\ obj_view s' k = Some (OFancheck c') /\ fc_flags c' = 0.
Proof.
  induction m as [| m IH]; intros j s c Hk Hv Hz Hl; cbn [clear_status].
  { exists s, c. split; [done |]. split; [apply frame_refl | done]. }
  unfold upd_status, get_status. msimpl. destruct (lookup_lt_is_Some_2 (fc_status s) j) as [fs Hfs]; [lia |].
  rewrite Hfs. msimpl. set (s1 := s <| fc_status ::= _ |>).
  assert (Hv1 : obj_view s1 k = Some (OFancheck c)) by done.
  rewrite (bind_ok _ _ _ _ _ (upd_fancheck_run k _ _ _ Hv1)).
  set (c2 := c <| fc_flags ::= _ |>). assert (Hz2 : fc_flags c2 = 0) by (unfold c2, clr; simpl; rewrite Hz; apply Z.ldiff_0_l).
  assert (F : frame W s (put_obj k (OFancheck c2) s1)).
  { apply (frame_trans _ s s1); [apply frame_fans |]. eapply frame_put; [done | exact Hv1 |]. split; simpl; tauto. }
  destruct (IH (S j) (put_obj k (OFancheck c2) s1) c2) as (s' & c' & E & F' & H1 & H2 & H3 & H4 & H5);
    [done | by eapply obj_view_put | done | simpl; rewrite length_alter; lia |].
  exists s', c'. split; [exact E |]. split; [by eapply frame_trans | done].
Qed.

Lemma fancheck_stops : stops n T_fancheck fancheck_shutdown_one.
Proof.
  intros A k x s C Hc L Hk Hv Hy HA. destruct x as [| | | | | | | | | | | | | c |]; try done.
  unfold fancheck_shutdown_one. rewrite (bind_ok _ _ _ _ _ (upd_fancheck_run k _ _ _ Hv)).
  set (c1 := c <| fc_check_indx := 0 |> <| fc_period_ticks := 0 |> <| fc_flags := 0 |>). set (s1 := put_obj k (OFancheck c1) s).
  assert (F1 : frame (eq k) s s1) by (eapply frame_put; [done | exact Hv | split; simpl; tauto]).
  destruct (clear_status_stops (eq k) k USR_EXTRAS_FAN_MAX 0 s1 c1) as (s' & c' & E & F & H1 & H2 & H3 & H4 & H5);
    [done | by eapply obj_view_put | done | apply (cf_fans _ _ C) |].
  exists s', (OFancheck c'). split; [exact E |]. split_and!; [by eapply frame_trans | by rewrite H1 | | done | by split].
  by apply (list_in_keep _ _ s).
Qed.

(** ** SPI devices *)

Lemma spi_stops : stops n T_spi spidev_cancel.
Proof.
  intros A k x s C Hc L Hk Hv Hy HA. destruct x as [| | | | | | d | | | | | | | |]; try done.
  unfold spidev_cancel. rewrite (bind_ok _ _ _ _ _ (get_spi_run _ _ _ Hv)).
  destruct (has (sp_flags d) SF_HAVE_PIN) eqn:Hp; simpl.
  - set (e := EvWrite (sp_pin d) (truth (b2z (negb (has (sp_flags d) SF_CS_ACTIVE_HIGH))))).
    eexists _, (OSpi d). split; [reflexivity |]. split_and!; [| done | | done |].
    + apply (frame_pins _ k (OSpi d) [e]); try done. by apply Forall_singleton, list_elem_of_here.
    + revert L. by apply list_in_keep.
    + split; [done |]. intros e' He. simpl in He. rewrite Hp in He. injection He as <-. simpl. rewrite Z.eqb_refl.
      by destruct (has (sp_flags d) SF_CS_ACTIVE_HIGH).
  - exists s, (OSpi d). split; [done |]. split_and!; [apply frame_refl | done | by apply (list_in_keep _ _ s) | done |].
    split; [done |]. intros e' He. simpl in He. by rewrite Hp in He.
Qed.

(** [emits P m]: the run of [m] returns, and changes the state by events with
    [P] and the counter of readings only. *)
Definition emits {X} (P : pin_event -> Prop) (m : FW X) : Prop :=
  forall s, exists a g, m s = (Ok a, s <| m_hw ::= g |>)
    /\ exists ev, pin_log (g (m_hw s)) = ev ++ pin_log (m_hw s) /\ Forall P ev.

Lemma emits_ret {X} P (a : X) : emits P (mret a).
Proof. intros s. exists a, id. split; [by destruct s |]. by exists []. Qed.

Lemma emits_bind {X Y} P (m : FW X) (k : X -> FW Y) : emits P m -> (forall a, emits P (k a)) -> emits P (m ≫= k).
Proof.
  intros Hm Hk s. destruct (Hm s) as (a & g & E & ev & G & Hev). destruct (Hk a (s <| m_hw ::= g |>)) as (b & g' & E' & ev' & G' & Hev').
  exists b, (fun h => g' (g h)). rewrite (bind_ok _ _ _ _ _ E), E'. split; [by destruct s |].
  exists (ev' ++ ev). simpl in G'. rewrite G', G, app_assoc. split; [done | by apply Forall_app].
Qed.

Lemma emits_log (P : pin_event -> Prop) e : P e -> emits P (log_pin e).
Proof. intros He s. exists tt, (upd pin_log (cons e)). split; [done |]. exists [e]. split; [done | by apply Forall_singleton]. Qed.

Lemma emits_read P pin : emits P (gpio_in_read pin).
Proof. intros s. eexists _, (upd ticks S). split; [reflexivity |]. by exists []. Qed.

Definition on_bus (ss : spi_software) (e : pin_event) : Prop := pin_of e ∈ [ss_sclk ss; ss_mosi ss].

Lemma software_emits ss r data : emits (on_bus ss) (spi_software_transfer ss r data).
Proof.
  assert (Hc : forall P, (forall e, pin_of e = ss_sclk ss -> P e) -> emits P (gpio_out_toggle (ss_sclk ss))) by (intros P H; apply emits_log, H; done).
  assert (H1 : forall e, pin_of e = ss_sclk ss -> on_bus ss e) by (intros e E; unfold on_bus; rewrite E; apply list_elem_of_here).
  assert (H2 : forall v, emits (on_bus ss) (gpio_out_write (ss_mosi ss) v)).
  { intros v. apply emits_log. apply list_elem_of_further, list_elem_of_here. }
  assert (Hbit : forall a b, emits (on_bus ss) (spi_software_bit ss a b)).
  { intros a b. unfold spi_software_bit. destruct (has _ _);
      repeat first [apply emits_ret | apply emits_read | apply H2 | by apply Hc | apply emits_bind; [| intros ?]]. }
  assert (Hbits : forall m a b, emits (on_bus ss) (spi_software_bits ss m a b)).
  { induction m as [| m IH]; intros a b; cbn [spi_software_bits]; [apply emits_ret |]. apply emits_bind; [done | intros []; apply IH]. }
  induction data as [| d data IH]; cbn [spi_software_transfer]; [apply emits_ret |].
  apply emits_bind; [apply Hbits | intros x]. apply emits_bind; [done | intros y; apply emits_ret].
Qed.

Lemma hardware_emits P bus mode rate r data : emits P (spi_transfer (SpiConfig bus mode rate) r data).
Proof. intros s. eexists _, _. split; [reflexivity |]. by exists []. Qed.

(** The pins a transfer may write. *)
Definition on_device (d : spidev) (e : pin_event) : Prop := pin_of e ∈ out_pins (OSpi d).

Lemma bus_emits d r data : bus_set d -> has (sp_flags d) (Z.lor SF_SOFTWARE SF_HARDWARE) = true ->
  emits (on_device d) (bus_prepare d) /\ emits (on_device d) (bus_transfer d r data).
Proof.
  intros Hb Hf. specialize (Hb Hf). unfold bus_prepare, bus_transfer, on_device. destruct (soft d).
  - destruct Hb as [ss E0]. cbn [out_pins]. rewrite E0. split.
    + apply emits_log. simpl. apply list_elem_of_further, list_elem_of_here.
    + intros s. destruct (software_emits ss r data s) as (a & g & E & ev & G & Hev). exists a, g. split; [done |]. exists ev. split; [done |].
      eapply Forall_impl; [exact Hev |]. intros e He. by apply list_elem_of_further.
  - destruct Hb as (bus & mode & rate & E0). rewrite E0. split; [apply emits_ret | exact (hardware_emits _ bus mode rate r data)].
Qed.

(** A transfer leaves the device deselected. *)
Lemma transfer_safe k d data s :
  0 <= k -> obj_view s k = Some (OSpi d) -> bus_set d -> safe (OSpi d) s ->
  exists r s', spidev_transfer k false data s = (Ok r, s') /\ frame (eq k) s s' /\ m_con s' = m_con s /\ m_sched s' = m_sched s
    /\ obj_view s' k = Some (OSpi d) /\ safe (OSpi d) s'.
Proof.
  intros Hk Hv Hb Hs. unfold spidev_transfer. rewrite (bind_ok _ _ _ _ _ (get_spi_run _ _ _ Hv)). cbv zeta.
  destruct (has (sp_flags d) (Z.lor SF_SOFTWARE SF_HARDWARE)) eqn:Hf; cbn [negb].
  2: { exists data, s. split; [done |]. split; [apply frame_refl | done]. }
  destruct (bus_emits d false data Hb Hf) as [H1 H2].
  assert (H3 : forall b, emits (on_device d) (when (has (sp_flags d) SF_HAVE_PIN) (gpio_out_write (sp_pin d) b))).
  { intros b. destruct (has (sp_flags d) SF_HAVE_PIN); [apply emits_log, list_elem_of_here | apply emits_ret]. }
  destruct (H1 s) as (a1 & g1 & E1 & ev1 & G1 & V1). rewrite (bind_ok _ _ _ _ _ E1). set (s1 := s <| m_hw ::= g1 |>) in *.
  destruct (H3 (b2z (has (sp_flags d) SF_CS_ACTIVE_HIGH)) s1) as (a2 & g2 & E2 & ev2 & G2 & V2).
  rewrite (bind_ok _ _ _ _ _ E2). set (s2 := s1 <| m_hw ::= g2 |>) in *.
  destruct (H2 s2) as (r & g3 & E3 & ev3 & G3 & V3). rewrite (bind_ok _ _ _ _ _ E3). set (s3 := s2 <| m_hw ::= g3 |>) in *.
  assert (F3 : frame (eq k) s s3).
  { split; try done; [intros o _; apply option_rel_refl | intros m [T1 T2 T3 T4]; by split |].
    exists (ev3 ++ ev2 ++ ev1). split; [by simpl in *; rewrite G3, G2, G1, !app_assoc |].
    eapply Forall_impl; [apply Forall_app; split; [exact V3 | apply Forall_app; split; [exact V2 | exact V1]] |].
    intros e He. by exists k, (OSpi d). }
  destruct (has (sp_flags d) SF_HAVE_PIN) eqn:Hp; unfold when.
  - set (e := EvWrite (sp_pin d) (negb (has (sp_flags d) SF_CS_ACTIVE_HIGH))).
    exists r, (s3 <| m_hw ::= upd pin_log (cons e) |>).
    split; [unfold gpio_out_write, log_pin, e; msimpl; by destruct (has (sp_flags d) SF_CS_ACTIVE_HIGH) |].
    split; [| split_and!; try done].
    + apply (frame_trans _ s s3); [done |]. apply (frame_pins _ k (OSpi d) [e]); try done. by apply Forall_singleton, list_elem_of_here.
    + split; [done |]. intros e' He. simpl in He. rewrite Hp in He. injection He as <-. simpl. by rewrite Z.eqb_refl.
  - exists r, s3. split; [done |]. split; [done |]. split_and!; try done. split; [done |]. intros e' He. simpl in He. by rewrite Hp in He.
Qed.
End Bodies.
