(* ===== verification/Shutdown.v ===== *)
(** * Shutdown: the emergency stop

    [run_shutdown] of [src/src/sched.c] with the shutdown functions the
    components declare ([DECL_SHUTDOWN]): [move_reset], [sendf_shutdown],
    [stepper_shutdown], [digital_out_shutdown], [pwm_shutdown],
    [trsync_shutdown], [analog_in_shutdown], [spidev_shutdown],
    [tmcuart_shutdown], [fancheck_shutdown] and [timer_reset].  The generated
    [ctr_run_shutdownfuncs] calls each of them once, in an order the build
    decides ([HandleCallList] of [src/scripts/buildcommands.py]). *)

From S2P Require Import Prelude Wire State Command Sched Armcm Basecmd Stepper Trsync Gpiocmds Pwmcmds Adccmds Spi Tmcuart Fancheck Quiet Halting Stopping.
Import Encode.

(** The functions declared with [DECL_SHUTDOWN]. *)
Inductive handler :=
| H_move_reset | H_sendf | H_stepper | H_digital_out | H_pwm | H_trsync | H_analog_in
| H_spi | H_tmcuart | H_fancheck | H_timer_reset.

#[export] Instance handler_eq_dec : EqDecision handler.
Proof. solve_decision. Defined.

Section WithBoard.
Context `{B : Board}.

Definition run_handler (h : handler) : FW unit :=
  match h with
  | H_move_reset => move_reset
  | H_sendf => sendf_shutdown
  | H_stepper => stepper_shutdown
  | H_digital_out => digital_out_shutdown
  | H_pwm => pwm_shutdown
  | H_trsync => trsync_shutdown
  | H_analog_in => analog_in_shutdown
  | H_spi => spidev_shutdown
  | H_tmcuart => tmcuart_shutdown
  | H_fancheck => fancheck_shutdown
  | H_timer_reset => timer_reset
  end.

(** [ctr_run_shutdownfuncs], generated as a list of calls. *)
Fixpoint ctr_run_shutdownfuncs (hs : list handler) : FW unit :=
  match hs with
  | [] => mret tt
  | h :: hs => run_handler h ;; ctr_run_shutdownfuncs hs
  end.

End WithBoard.

(** ** All shutdown functions *)

Definition all_handlers : list handler :=
  [H_move_reset; H_sendf; H_stepper; H_digital_out; H_pwm; H_trsync; H_analog_in; H_spi; H_tmcuart; H_fancheck; H_timer_reset].

(** The messages sent during a shutdown have the encoders the build generates
    from their formats. *)
Record messages_ok `{B : Board} : Prop := {
  mo_close : fits (ctr_lookup_output "Timer too close") [];
  mo_alloc : forall a b, fits (ctr_lookup_output "allocMax=%u usedMax=%u") [VInt a; VInt b];
  mo_shutdown : forall c r, is_u16 r ->
    fits (ctr_lookup_encoder "shutdown clock=%u static_string_id=%hu") [VInt c; VInt r];
}.

Section Stop.
Context `{B : Board} (n : Z).
Implicit Types s : mcu.
Hypothesis Hmsg : messages_ok.

(** Every node of the move pool is free. *)
Definition pool_free s : Prop :=
  0 < move_count (m_base s) ->
  seg (nn (nodes (m_base s))) (seqZ 0 (move_count (m_base s))) None /\ move_free_list (m_base s) = Some 0.

(** What a shutdown function achieves. *)
Definition goal (h : handler) s : Prop :=
  match h with
  | H_stepper => all_safe T_stepper s
  | H_digital_out => all_safe T_digital_out s
  | H_pwm => all_safe T_pwm_out s
  | H_trsync => all_safe T_trsync s
  | H_spi => all_safe T_spi s
  | H_tmcuart => all_safe T_tmcuart s
  | H_fancheck => all_safe T_fancheck s
  | H_move_reset => pool_free s
  | H_sendf => in_sendf (m_cmd s) = 0
  | H_analog_in | H_timer_reset => True
  end.

(** The timers that are scheduled again. *)
Definition allowed (done : list handler) s (p : tptr) : Prop :=
  (H_timer_reset ∈ done /\ p = WrapTimer)
  \/ (H_analog_in ∈ done /\ exists k, typed s T_analog_in k /\ p = ObjTimer k 0).

(** The state after the functions [done], started in [s0]. *)
Record stopping (done : list handler) (s0 s : mcu) : Prop := {
  sg_config : config_ok n s;
  sg_con : con_wf (m_con s);
  sg_list : list_in (allowed done s) s;
  sg_goal : forall h, h ∈ done -> goal h s;
  sg_objs : forall o, 0 <= o -> option_Forall2 obj_rel (obj_view s0 o) (obj_view s o);
  sg_status : shutdown_status (m_sched s) = shutdown_status (m_sched s0)
    /\ shutdown_reason (m_sched s) = shutdown_reason (m_sched s0);
}.

Lemma typed_fun s ty ty' k : typed s ty k -> typed s ty' k -> ty = ty'.
Proof. intros (_ & x & Hx & <-) (_ & y & Hy & <-). congruence. Qed.

Lemma all_safe_frame W ty s s' :
  config_ok n s -> frame W s s' -> (forall o, typed s ty o -> ~ W o) -> all_safe ty s -> all_safe ty s'.
Proof.
  intros C F HW Hs o y Ho Hy Ht. destruct (frame_view_inv _ _ _ _ _ F Ho Hy) as (x & Hx & R).
  rewrite (or_type _ _ R) in Ht. eapply (safe_frame W n s s' o x y); [done | done | done | | done | done | by apply (Hs o)].
  apply HW. split; [done | eauto].
Qed.

(** The goals already reached survive the next function. *)
Lemma goal_frame W h s s' :
  config_ok n s -> frame W s s' ->
  (forall ty, (forall o, typed s ty o -> ~ W o) \/ all_safe ty s') -> goal h s -> goal h s'.
Proof.
  intros C F HW.
  assert (Ha : forall ty, all_safe ty s -> all_safe ty s').
  { intros ty Hs. destruct (HW ty) as [H | H]; [by eapply all_safe_frame | done]. }
  pose proof (fr_pool _ _ _ F) as (P1 & P2 & P3). pose proof (fr_cmd _ _ _ F) as P4.
  destruct h; simpl; auto.
  - unfold pool_free. by rewrite P1, P2, P3.
  - by rewrite P4.
Qed.

Lemma allowed_frame W done s s' p : frame W s s' -> allowed done s p -> allowed done s' p.
Proof.
  intros F [H | (H & k & Hk & ->)]; [by left | right]. split; [done |]. exists k. split; [| done].
  by apply (frame_typed _ _ _ _ _ F).
Qed.

(** One step of the shutdown, for the functions that keep to a frame. *)
Lemma stopping_step W h done s0 s s' :
  stopping done s0 s -> frame W s s' -> con_wf (m_con s') -> list_in (allowed (h :: done) s') s' ->
  (forall ty, (forall o, typed s ty o -> ~ W o) \/ all_safe ty s') -> goal h s' -> stopping (h :: done) s0 s'.
Proof.
  intros [S1 S2 S3 S4 S5 [S6 S7]] F C L HW G. pose proof (fr_status _ _ _ F) as [F1 F2].
  split; [by eapply frame_config | done | done | | | by rewrite F1, F2].
  - intros h' [-> | Hh]%elem_of_cons; [done |]. eapply goal_frame; [exact S1 | exact F | exact HW | by apply S4].
  - intros o Ho. eapply option_rel_trans; [by apply S5 | by apply (fr_objs _ _ _ F)].
Qed.

(** The functions that visit the objects of a type. *)
Lemma object_step h ty body done s0 s :
  run_handler h = foreach_oid ty body -> stops n ty body -> (ty = T_analog_in -> h = H_analog_in) ->
  (forall s', all_safe ty s' -> goal h s') -> h ∉ done -> stopping done s0 s ->
  exists s', run_handler h s = (Ok tt, s') /\ stopping (h :: done) s0 s'.
Proof.
  intros E Hb Hty Hg Hn S. rewrite E.
  destruct (handler_ok n ty body (allowed done s) s Hb) as (s' & Er & F & C & L & Hs); [apply S.. | |].
  { intros j slot Hj [[_ [=]] | (Hd & k & Hk & [= -> ->])]. apply Hn. rewrite Hty; [done |]. by eapply typed_fun. }
  exists s'. split; [done |]. eapply stopping_step; [done | exact F | done | | | by apply Hg].
  - revert L. apply list_in_mono. intros p [Ha | (j & Hj & Ht & ->)].
    + apply (allowed_frame _ _ _ _ _ F) in Ha as [[Ha ->] | (Ha & R)]; [left | right]; (split; [by apply list_elem_of_further | done]).
    + subst ty. rewrite Hty by done. right. split; [apply list_elem_of_here |]. exists j. split; [| done].
      by apply (frame_typed _ _ _ _ _ F).
  - intros ty'. destruct (decide (ty' = ty)) as [-> | Hne]; [by right | left]. intros o H1 H2. apply Hne. by eapply typed_fun.
Qed.

(** The messages that turn off the devices of an SPI bus. *)
Lemma send_shutdown_ok s :
  config_ok n s -> all_safe T_spi s ->
  exists s', foreach_oid T_spi_shutdown spidev_send_shutdown s = (Ok tt, s') /\ frame (typed s T_spi) s s'
    /\ m_con s' = m_con s /\ m_sched s' = m_sched s /\ all_safe T_spi s'.
Proof.
  intros C Hs.
  destruct (foreach_oid_rule n T_spi_shutdown spidev_send_shutdown
    (fun _ s' => config_ok n s' /\ frame (typed s T_spi) s s' /\ m_con s' = m_con s /\ m_sched s' = m_sched s /\ all_safe T_spi s'))
    with (s := s) as (s' & E & _ & R); [| | | |].
  - intros k s1 (C1 & _). apply (cf_table _ _ C1).
  - intros k s1 x Hk (C1 & F1 & K1 & S1 & A1) Hx Hy. destruct x as [| | | | | | | sd | | | | | | |]; try done.
    destruct (cf_spi _ _ C1 k sd (proj1 Hk) Hx) as (Hj & d & Hv & Hb).
    destruct (transfer_safe (sd_spi sd) d (shutdown_msg sd) s1 Hj Hv Hb (A1 _ _ Hj Hv eq_refl)) as (r & s2 & E2 & F2 & K2 & S2 & V2 & Hd).
    exists s2. unfold spidev_send_shutdown, get_spi_shutdown. rewrite bind_assoc, (bind_ok _ _ _ _ _ (obj_get_run _ _ _ Hx)). msimpl.
    rewrite (bind_ok _ _ _ _ _ E2). split; [done |]. split_and!; [by eapply frame_config | | congruence | congruence |].
    + eapply frame_trans; [exact F1 |]. revert F2. apply frame_mono. intros o <-. apply (frame_typed _ _ _ _ _ F1). split; [done | by exists (OSpi d)].
    + intros o y Ho Hy2 Ht. destruct (decide (o = sd_spi sd)) as [-> |]; [by simplify_eq |].
      destruct (frame_view_inv _ _ _ _ _ F2 Ho Hy2) as (y0 & Hy0 & R0).
      apply (safe_frame (eq (sd_spi sd)) n s1 s2 o y0 y C1 F2 Ho); [congruence | done | done |]. apply (A1 o); [done | done |]. by rewrite <- (or_type _ _ R0).
  - done.
  - split_and!; try done. apply frame_refl.
  - by exists s'.
Qed.

Lemma spi_step done s0 s :
  stopping done s0 s -> exists s', spidev_shutdown s = (Ok tt, s') /\ stopping (H_spi :: done) s0 s'.
Proof.
  intros S. unfold spidev_shutdown.
  destruct (handler_ok n T_spi spidev_cancel (allowed done s) s (spi_stops n)) as (s1 & E1 & F1 & C1 & L1 & A1); [apply S.. | |].
  { intros j slot Hj [[_ [=]] | (_ & k & Hk & [= -> ->])]. by pose proof (typed_fun _ _ _ _ Hj Hk). }
  rewrite (bind_ok _ _ _ _ _ E1). pose proof (frame_config _ _ _ _ F1 (sg_config _ _ _ S)) as Cf.
  destruct (send_shutdown_ok s1 Cf A1) as (s2 & E2 & F2 & K2 & S2 & A2). exists s2. split; [done |].
  assert (F : frame (typed s T_spi) s s2).
  { eapply frame_trans; [exact F1 |]. revert F2. apply frame_mono. intros o. by apply frame_typed with (1 := F1). }
  eapply stopping_step; [done | exact F | by rewrite K2 | | | done].
  - destruct L1 as (l & Q & Hl). exists l. rewrite S2. split; [done |]. intros p Hp. destruct (Hl p Hp) as [-> | [Ha | (j & _ & [=] & _)]]; [by left | right].
    apply (allowed_frame _ _ _ _ _ F) in Ha as [[Ha ->] | (Ha & R)]; [left | right]; (split; [by apply list_elem_of_further | done]).
  - intros ty'. destruct (decide (ty' = T_spi)) as [-> | Hne]; [by right | left]. intros o G1 G2. apply Hne. by eapply typed_fun.
Qed.

Lemma allowed_cons h done s p : allowed done s p -> allowed (h :: done) s p.
Proof. intros [[H ->] | (H & R)]; [left | right]; (split; [by apply list_elem_of_further | done]). Qed.

Lemma timer_step done s0 s :
  H_timer_reset ∉ done -> stopping done s0 s ->
  exists s', timer_reset s = (Ok tt, s') /\ stopping (H_timer_reset :: done) s0 s'.
Proof.
  intros Hn S. unfold timer_reset.
  assert (HW : forall s' ty, (forall o, typed s ty o -> ~ False) \/ all_safe ty s') by (left; tauto).
  destruct (_ <=? _).
  { exists s. split; [done |]. eapply (stopping_step (fun _ => False)); [done | apply frame_refl | apply S | | done | done].
    eapply list_in_mono; [apply allowed_cons | apply S]. }
  destruct (sg_list _ _ _ S) as (l & Q & Hl).
  destruct (add_quiet WrapTimer l s) as (s' & E & C & l' & Hp & Q' & F); try done;
    [| apply (cf_wrap _ _ (sg_config _ _ _ S)) | apply S | apply Hmsg |].
  { intros Hx. destruct (Hl _ Hx) as [[=] | [[Hd _] | (_ & k & _ & [=])]]. done. }
  exists s'. split; [done |].
  assert (F' : frame (fun _ => False) s s') by (by apply frame_sched).
  eapply stopping_step; [done | exact F' | done | | done | done].
  exists l'. split; [done |]. intros p Hx. rewrite Hp in Hx. apply elem_of_cons in Hx as [-> | Hx].
  - right. left. split; [apply list_elem_of_here | done].
  - destruct (Hl p Hx) as [-> | Ha]; [by left | right]. by eapply allowed_cons, allowed_frame.
Qed.

(** The functions that touch neither objects nor timers. *)
Lemma stopping_ext h done s0 s s' :
  oids (m_base s') = oids (m_base s) -> oid_count (m_base s') = oid_count (m_base s) ->
  move_count (m_base s') = move_count (m_base s) -> m_sched s' = m_sched s -> pin_log (m_hw s') = pin_log (m_hw s) ->
  (forall m, is_Some (nodes (m_base s') !! m) <-> is_Some (nodes (m_base s) !! m)) -> fc_status s' = fc_status s ->
  con_wf (m_con s') -> (forall h', h' ∈ [H_move_reset; H_sendf] -> h' = h \/ (goal h' s -> goal h' s')) ->
  goal h s' -> stopping done s0 s -> stopping (h :: done) s0 s'.
Proof.
  intros Eo Ec Em Es Ep En Ef C Hg G [S1 S2 S3 S4 S5 S6].
  assert (Ev : forall o, obj_view s' o = obj_view s o) by (intros o; unfold obj_view; by rewrite Eo).
  assert (Hs : forall ty, all_safe ty s -> all_safe ty s').
  { intros ty H o x Ho. rewrite Ev. intros Hx Ht. destruct (H o x Ho Hx Ht). split; [done | by rewrite Ep]. }
  split; try done.
  - destruct S1 as [[T1 T2 T3 T4] C2 C3 C4 C5 [C6 C7] C8 C9]. split.
    + split; by rewrite ?Eo, ?Ec.
    + intros o1 o2 x y e. rewrite !Ev. apply C2.
    + intros o x k. rewrite Ev. intros H1 H2 H3. destruct (C3 o x k H1 H2 H3) as (H4 & st & H5). split; [done |]. exists st. by rewrite Ev.
    + intros o x slot. rewrite Ev, Es. apply C4.
    + by rewrite Es.
    + rewrite Em. split; [done |]. intros m Hm. by apply En, C7.
    + intros o sd Ho. rewrite Ev. intros Hx. destruct (C8 o sd Ho Hx) as (H1 & d & H2 & H3). split; [done |]. exists d. by rewrite Ev.
    + by rewrite Ef.
  - destruct S3 as (l & Q & Hl). exists l. rewrite Es. split; [done |]. intros p Hp. destruct (Hl p Hp) as [-> | Ha]; [by left | right].
    apply allowed_cons. destruct Ha as [Ha | (Ha & k & (Hk & x & Hx & Hy) & ->)]; [by left | right].
    split; [done |]. exists k. split; [| done]. split; [done |]. exists x. by rewrite Ev.
  - intros h' [-> | Hh]%elem_of_cons; [done |]. specialize (S4 h' Hh). destruct h'; simpl in *; auto.
    + destruct (Hg H_move_reset) as [<- | H]; [apply list_elem_of_here | done | by apply H].
    + destruct (Hg H_sendf) as [<- | H]; [apply list_elem_of_further, list_elem_of_here | done | by apply H].
  - intros o Ho. rewrite Ev. by apply S5.
  - by rewrite Es.
Qed.

Lemma sendf_step done s0 s :
  stopping done s0 s -> exists s', sendf_shutdown s = (Ok tt, s') /\ stopping (H_sendf :: done) s0 s'.
Proof.
  intros S. eexists. split; [reflexivity |]. apply (stopping_ext H_sendf done s0 s); try done; [apply S |].
  intros h' [-> | ->%list_elem_of_singleton]%elem_of_cons; [by right | by left].
Qed.

Lemma move_step done s0 s :
  stopping done s0 s -> exists s', move_reset s = (Ok tt, s') /\ stopping (H_move_reset :: done) s0 s'.
Proof.
  intros S. destruct (cf_nodes _ _ (sg_config _ _ _ S)) as [Hc Hn].
  assert (Hg : forall s', in_sendf (m_cmd s') = in_sendf (m_cmd s) ->
    forall h', h' ∈ [H_move_reset; H_sendf] -> h' = H_move_reset \/ (goal h' s -> goal h' s')).
  { intros s' E h' [-> | ->%list_elem_of_singleton]%elem_of_cons; [by left | right]. simpl. by rewrite E. }
  destruct (decide (move_count (m_base s) = 0)) as [Hz | Hz].
  { exists s. unfold move_reset, base. msimpl. rewrite Hz. split; [done |].
    apply (stopping_ext H_move_reset done s0 s); try done; [apply S | by apply Hg |].
    intros Hx. lia. }
  destruct (move_reset_run s) as (N' & E & Hs & Hd); [lia | done |]. rewrite E.
  match type of E with _ = output _ ?args ?s1 =>
    destruct (command_sendf_total "allocMax=%u usedMax=%u" (ctr_lookup_output "allocMax=%u usedMax=%u") args s1) as (c' & log & E2 & C2 & _);
      [apply S | apply Hmsg |] end.
  eexists. split; [exact E2 |]. apply (stopping_ext H_move_reset done s0 s); try done. by apply Hg.
Qed.

(** Every function does its part, whatever ran before it. *)
Lemma handler_step h done s0 s :
  h ∉ done -> stopping done s0 s -> exists s', run_handler h s = (Ok tt, s') /\ stopping (h :: done) s0 s'.
Proof.
  intros Hn S. destruct h.
  - by apply move_step.
  - by apply sendf_step.
  - by eapply object_step; [reflexivity | apply stepper_stops | | | |].
  - by eapply object_step; [reflexivity | apply digital_stops | | | |].
  - by eapply object_step; [reflexivity | apply pwm_stops | | | |].
  - by eapply object_step; [reflexivity | apply trsync_stops | | | |].
  - by eapply object_step; [reflexivity | apply analog_stops, Hmsg | | | |].
  - by apply spi_step.
  - by eapply object_step; [reflexivity | apply tmcuart_stops | | | |].
  - by eapply object_step; [reflexivity | apply fancheck_stops | | | |].
  - by apply timer_step.
Qed.

Lemma shutdownfuncs_ok hs done s0 s :
  NoDup hs -> (forall h, h ∈ hs -> h ∉ done) -> stopping done s0 s ->
  exists s', ctr_run_shutdownfuncs hs s = (Ok tt, s') /\ stopping (rev_append hs done) s0 s'.
Proof.
  induction hs as [| h hs IH] in done, s |- *; intros Hnd Hd S; cbn [ctr_run_shutdownfuncs rev_append]; [by exists s |].
  apply NoDup_cons in Hnd as [Hh Hnd].
  destruct (handler_step h done s0 s) as (s1 & E1 & S1); [apply Hd, list_elem_of_here | done |].
  rewrite (bind_ok _ _ _ _ _ E1). apply IH; [done | | done].
  intros h' Hh'. rewrite elem_of_cons. intros [-> | Hx]; [done |]. by apply (Hd h'); [apply list_elem_of_further |].
Qed.

(** The static timers of [sched.c]: whatever the list looks like, the sentinel
    ends it half a clock period behind the periodic timer. *)
Record static_timers (T : timer_map) : Prop := {
  st_times : exists p, wk T PeriodicTimer = Some p /\ wk T SentinelTimer = Some (u32 (p + 2 ^ 31));
  st_end : nxt T SentinelTimer = Some None;
  st_deleted : is_Some (T !! DeletedTimer);
}.

Lemma config_sched (f : sched_st -> sched_st) (g : hw_st -> hw_st) s :
  (forall p, is_Some (timers (f (m_sched s)) !! p) <-> is_Some (timers (m_sched s) !! p)) ->
  config_ok n s -> config_ok n (s <| m_sched ::= f |> <| m_hw ::= g |>).
Proof.
  intros Hd [[T1 T2 T3 T4] C2 C3 C4 C5 C6 C7 C8]. split; try done.
  - intros o x slot Ho Hx Hs. by apply Hd, (C4 o x slot).
  - by apply Hd.
Qed.

(** Resetting the list leaves the periodic timer alone in it. *)
Lemma reset_stopping s :
  static_timers (timers (m_sched s)) -> config_ok n s -> con_wf (m_con s) ->
  exists g, let s' := s <| m_sched ::= g |> <| m_hw ::= upd kicks S |> in
    sched_timer_reset s = (Ok tt, s') /\ stopping [] s' s'
    /\ shutdown_status (g (m_sched s)) = shutdown_status (m_sched s)
    /\ shutdown_reason (g (m_sched s)) = shutdown_reason (m_sched s).
Proof.
  intros [(p & HP & HS) HN HD] C Hc. pose proof HP as (tp & HTp & Hwp)%wk_lookup.
  destruct (reset_timers_spec (timers (m_sched s)) (t_waketime tp)) as (N1 & N2 & N3 & W1 & W2 & W3 & D); [by eexists | done |].
  exists (fun S => S <| timer_list := DeletedTimer |> <| last_insert := PeriodicTimer |>
    <| timers := reset_timers (timers S) (t_waketime tp) |>). cbv zeta.
  split; [exact (sched_timer_reset_run tp s HTp HD) |]. split; [| done].
  split; [| done | | by intros h Hh%elem_of_nil | | done].
  - apply config_sched; [| done]. intros q. simpl. unfold reset_timers. by rewrite !alter_dom.
  - exists [PeriodicTimer]. split; [split; simpl |].
    + done.
    + rewrite N1, N2, N3. done.
    + vm_decide.
    + apply list_elem_of_here.
    + exists p. by rewrite W2, W3.
    + intros q ->%list_elem_of_singleton. by left.
  - intros o _. apply option_rel_refl.
Qed.

(** What the emergency stop guarantees. *)
Record stopped_safely (s s' : mcu) : Prop := {
  ss_objs : forall o x, 0 <= o -> obj_view s o = Some x -> exists y, obj_view s' o = Some y
    /\ out_pins y = out_pins x /\ default_event y = default_event x /\ safe y s';
  ss_pool : pool_free s';
  ss_timers : exists l, quiet_list l (m_sched s') /\
    forall p, p ∈ l -> p = PeriodicTimer \/ p = WrapTimer \/ exists k, typed s T_analog_in k /\ p = ObjTimer k 0;
}.

Lemma stopping_safely hs s s' :
  hs ≡ₚ all_handlers -> stopping (rev_append hs []) s s' -> stopped_safely s s'.
Proof.
  intros Hh [S1 S2 (l & Q & Hl) S4 S5 _].
  assert (Hin : forall h, h ∈ rev_append hs []).
  { intros h. rewrite rev_append_rev, app_nil_r, <- (Permutation_rev hs), Hh. unfold all_handlers.
    rewrite !elem_of_cons. destruct h; tauto. }
  split; [| exact (S4 _ (Hin H_move_reset)) |].
  - intros o x Ho Hx. specialize (S5 o Ho). rewrite Hx in S5. inversion S5 as [? y R E1 E2 |]; subst. exists y.
    split; [done |]. split; [apply (or_pins _ _ R) |]. split; [apply (or_default _ _ R) |]. symmetry in E2.
    destruct y; first [done | exact (S4 _ (Hin H_stepper) o _ Ho E2 eq_refl) | exact (S4 _ (Hin H_trsync) o _ Ho E2 eq_refl)
      | exact (S4 _ (Hin H_digital_out) o _ Ho E2 eq_refl) | exact (S4 _ (Hin H_pwm) o _ Ho E2 eq_refl)
      | exact (S4 _ (Hin H_spi) o _ Ho E2 eq_refl) | exact (S4 _ (Hin H_tmcuart) o _ Ho E2 eq_refl)
      | exact (S4 _ (Hin H_fancheck) o _ Ho E2 eq_refl)].
  - exists l. split; [done |]. intros p Hp. destruct (Hl p Hp) as [-> | [[_ ->] | (_ & k & (Hk & y & Hy & Ht) & ->)]]; [tauto | tauto |].
    right. right. exists k. split; [| done]. split; [done |]. specialize (S5 k Hk). rewrite Hy in S5.
    inversion S5 as [x ? R E1 E2 |]; subst. exists x. split; [done |]. by rewrite <- (or_type _ _ R).
Qed.

(** The first statements of [run_shutdown]. *)
Definition first_reason (reason : Z) (S : sched_st) : Z :=
  if shutdown_status S =? 0 then u8 reason else shutdown_reason S.

Lemma begin_shutdown reason (k : FW unit) s :
  (st ← gets (fun s => shutdown_status (m_sched s));
   when (st =? 0) (set_sched (fun S => S <| shutdown_reason := u8 reason |>)) ;;
   set_sched (fun S => S <| shutdown_status := 2 |>) ;; k) s
  = k (s <| m_sched ::= fun S => S <| shutdown_reason := first_reason reason S |> <| shutdown_status := 2 |> |>).
Proof.
  unfold first_reason, set_sched. msimpl. destruct s as [? [] ? ? ? ? ? ?]. simpl. by destruct (_ =? 0).
Qed.

Definition shutdown_fmt : string := "shutdown clock=%u static_string_id=%hu".

End Stop.

(** ** A concrete emergency stop

    A stepper in the middle of a move, a heater at full power, a fan, an armed
    trigger, a temperature sensor, a driver on a software SPI bus to be turned
    off by a message, a line that is sending and a fan being measured; the timer
    list was left with a loop. *)

Definition stop_encoder (fmt : string) : command_encoder := mk_encoder 2 14 [PT_uint32; PT_uint16].
Definition stop_output (fmt : string) : command_encoder :=
  if String.eqb fmt "Timer too close" then mk_encoder 3 6 [] else mk_encoder 4 16 [PT_uint32; PT_uint32].

#[local] Instance stop_board : Board := demo_board_msgs stop_encoder stop_output false (fun n => u32 (100 * Z.of_nat n)).

Lemma stop_messages : messages_ok.
Proof.
  split.
  - split; [constructor | done].
  - intros a b. split; [repeat constructor | done].
  - intros c r Hr. split; [| done]. apply Forall2_cons. split; [done |]. apply Forall2_cons. by split.
Qed.

Definition stop_objs : list obj := [
  OStepper (mk_stepper 1000 0 77 5000 100 1 2 500 (mk_mq (Some 0) (Some 1)) None true 0);
  ODigital (mk_digital_out 100 200 0 10 3000 300 mq0 (Z.lor DF_ON DF_TOGGLING));
  OPwm (mk_pwm_out 11 4000 255 mq0);
  OTrsync (mk_trsync 100 (Some 0) 1 0 2);
  OAnalog (mk_analog_in 1000 10 9000 0 0 4095 20 0 0 2 8);
  OSpi (mk_spidev (SpiSoftware (mk_spi_software 30 31 32 3)) 33 (Z.lor SF_HAVE_PIN SF_SOFTWARE));
  OSpiShutdown (mk_spidev_shutdown 5 2 [0x80; 0x00]);
  OTmcuart (mk_tmcuart 40 40 (Z.lor TU_ACTIVE TU_SINGLE_WIRE) 3 0 16 640 640 (replicate 10 0));
  OFancheck (mk_fancheck [50; 51; 0; 0; 0] 22500 17 7)].

Definition stop_timers : timer_map :=
  list_to_map ((fun p => (p, mk_timer (Some p) None 4000)) <$>
    [ObjTimer 0 0; ObjTimer 1 0; ObjTimer 2 0; ObjTimer 3 0; ObjTimer 3 1; ObjTimer 4 0; ObjTimer 7 0; ObjTimer 8 0]) ∪ initial_timers.

Definition stop_state : mcu :=
  mk_mcu (mk_command_st 0x10 1 0)
    (mk_sched_st stop_timers (ObjTimer 0 0) (ObjTimer 1 0) 0 0 0)
    (mk_basecmd_st 0 0 2 2 (fresh_nodes 3) (Some 2) (Some 0) 3 8
       (Some ((fun o => mk_oid (Some (otype_of o)) (Some o)) <$> stop_objs)) 9 0 0 0 0 0 0)
    (m_con initial_mcu) (m_hw initial_mcu) (fun _ => false) 0 (fc_status initial_mcu).

Lemma stop_view o x : 0 <= o -> obj_view stop_state o = Some x -> In (o, x) (zip (seqZ 0 9) stop_objs).
Proof.
  intros Ho. rewrite <- (Z2Nat.id o Ho). generalize (Z.to_nat o). intros k.
  unfold obj_view. rewrite Nat2Z.id.
  do 9 (destruct k as [| k]; [intros [= <-]; simpl; auto 15 |]). done.
Qed.

Ltac stop_cases H := apply stop_view in H; [| done]; simpl in H; destruct_or!; simplify_eq.

Lemma stop_config : config_ok 9 stop_state.
Proof.
  split.
  - split; [done | lia | done |]. repeat (apply Forall_cons; split; [done |]). constructor.
  - intros o1 o2 x y e H1 H2 Hx Hy Hd Hq.
    apply list_elem_of_In in Hq. stop_cases Hx; try done; injection Hd as <-; stop_cases Hy; try done; simpl in Hq; lia.
  - intros o x k Ho Hx. stop_cases Hx; try done. intros [= <-]. split; [done |]. by eexists.
  - intros o x slot Ho Hx Hs. stop_cases Hx; simpl in Hs;
      repeat (apply elem_of_cons in Hs as [-> | Hs]); try (by apply elem_of_nil in Hs); by eexists.
  - by eexists.
  - split; [done |]. intros m Hm. change (is_Some (fresh_nodes 3 !! m)). rewrite fresh_nodes_lookup by done. by eexists.
  - intros o sd Ho Hx. stop_cases Hx. split; [done |]. eexists. split; [reflexivity |]. intros _. by eexists.
  - done.
Qed.

