(* ===== verification/Pollreactor.v ===== *)
(** * Pollreactor: the event loop of the host's communication thread

    Models the timer half of [src/klippy/chelper/pollreactor.c].  The object a
    callback works on contains the reactor, so the operations are written over
    any state with a reactor inside it.  [poll] and the clock are the
    operating system's: the events they report are arguments. *)

From S2P Require Import Prelude Double.

Definition PR_NOW : double := d_zero.
Definition PR_NEVER : double := d_of_Z 9999999999999999.

(** [struct pollreactor] without the file descriptors; [pr_timers] holds the
    wake time of each timer. *)
Record pollreactor := mk_pr {
  must_exit : bool;
  next_timer : double;
  pr_timers : list double
}.
#[export] Instance pollreactor_eta : Eta pollreactor := fun r =>
  mk_pr (must_exit r) (next_timer r) (pr_timers r).

Definition pollreactor_alloc (num_timers : nat) : pollreactor :=
  mk_pr false PR_NEVER (replicate num_timers PR_NEVER).

Definition pollreactor_add_timer (pos : nat) (pr : pollreactor) : pollreactor :=
  pr <| pr_timers ::= <[pos := PR_NEVER]> |>.

Definition pollreactor_get_timer (pos : nat) (pr : pollreactor) : double :=
  default PR_NEVER (pr_timers pr !! pos).

Definition pollreactor_update_timer (pos : nat) (waketime : double) (pr : pollreactor) : pollreactor :=
  let pr := pr <| pr_timers ::= <[pos := waketime]> |> in
  if dlt waketime (next_timer pr) then pr <| next_timer := waketime |> else pr.

Definition pollreactor_do_exit (pr : pollreactor) : pollreactor := pr <| must_exit := true |>.
Definition pollreactor_is_exit (pr : pollreactor) : bool := must_exit pr.

Section Loop.
Context {St : Type} (get_pr : St -> pollreactor) (set_pr : (pollreactor -> pollreactor) -> St -> St).
Context (callback : nat -> double -> M St double).

(** The loop of [pollreactor_check_timers] from timer [i] on; the result is
    [busy]. *)
Fixpoint check_timers_loop (n i : nat) (eventtime : double) (busy : bool) : M St bool :=
  match n with
  | O => mret busy
  | S n =>
      pr ← gets get_pr;
      let t := pollreactor_get_timer i pr in
      '(t, busy) ←
        (if dle t eventtime then
           t ← callback i eventtime;
           modify (set_pr (upd pr_timers (<[i := t]>))) ;;
           mret (t, true)
         else mret (t, busy));
      modify (set_pr (fun pr => if dlt t (next_timer pr) then pr <| next_timer := t |> else pr)) ;;
      check_timers_loop n (i + 1) eventtime busy
  end.

(** [ceil(x)] as an integer, for the sleep time in milliseconds. *)
Definition d_ceil (x : double) : option Z :=
  match d_trunc x with
  | Some z => Some (if dlt (d_of_Z z) x then z + 1 else z)
  | None => None
  end.

(** [pollreactor_check_timers]: the time to sleep in [poll]. *)
Definition pollreactor_check_timers (eventtime : double) (busy : bool) : M St Z :=
  pr ← gets get_pr;
  busy ←
    (if dle (next_timer pr) eventtime then
       modify (set_pr (upd next_timer (fun _ => PR_NEVER))) ;;
       check_timers_loop (length (pr_timers pr)) 0 eventtime busy
     else mret busy);
  if busy : bool then mret 0
  else
    pr ← gets get_pr;
    let timeout := dmul (dsub (next_timer pr) eventtime) (d_of_Z 1000) in
    match d_ceil timeout with
    | Some t => mret (if t <? 1 then 1 else if t >? 1000 then 1000 else t)
    | None => if dlt timeout (d_of_Z 1) then mret 1
              else if dlt (d_of_Z 1000) timeout then mret 1000 else fault "(int)timeout"
    end.
End Loop.
