(* ===== verification/Msgblock.v ===== *)
(** * Msgblock: the host side of the wire format

    Models [src/klippy/chelper/msgblock.c]: recognition and decoding of the
    message blocks a micro-controller sends, the encoding of commands into
    [queue_message]s, and the extension of 32-bit clocks. *)

From S2P Require Import Prelude Wire State Command Double.
Import Crc Vlq Encode.

(** [struct queue_message]: [len] is the length of [msg].  The C union holds
    clocks while a message waits on a command queue and times afterwards; the
    two readings are separate fields here and no operation reads one after
    writing the other. *)
Record queue_message := mk_qm {
  qm_msg : list Z;
  qm_min_clock : Z;
  qm_req_clock : Z;
  qm_sent_time : double;
  qm_receive_time : double;
  qm_notify_id : Z
}.
#[export] Instance queue_message_eta : Eta queue_message := fun q =>
  mk_qm (qm_msg q) (qm_min_clock q) (qm_req_clock q) (qm_sent_time q) (qm_receive_time q)
    (qm_notify_id q).

Definition qm_len (q : queue_message) : Z := Z.of_nat (length (qm_msg q)).

Record clock_estimate := mk_ce {
  ce_last_clock : Z;
  ce_conv_clock : Z;
  ce_conv_time : double;
  ce_est_freq : double
}.
#[export] Instance clock_estimate_eta : Eta clock_estimate := fun c =>
  mk_ce (ce_last_clock c) (ce_conv_clock c) (ce_conv_time c) (ce_est_freq c).

(** ** Serial protocol helpers *)

Definition msgblock_crc16_step (crc b : Z) : Z :=
  let data := u8 (Z.lxor b (Z.land crc 0xff)) in
  let data := u8 (Z.lxor data (Z.shiftl data 4)) in
  u16 (Z.lxor (Z.lxor (Z.lor (Z.shiftl data 8) (Z.shiftr crc 8))
                      (u8 (Z.shiftr data 4)))
              (Z.shiftl data 3)).

Definition msgblock_crc16_ccitt (buf : list Z) (len : nat) : Z :=
  foldl msgblock_crc16_step 0xffff (take len buf).

(** The [error:] exit of [msgblock_check]: the return value and the new
    [need_sync]. *)
Definition msgblock_resync (buf : list Z) : Z * bool :=
  match list_find (fun b => b = MESSAGE_SYNC) buf with
  | Some (i, _) => (- (Z.of_nat i + 1), false)
  | None => (- Z.of_nat (length buf), true)
  end.

(** [msgblock_check] on the [buf_len] bytes [buf]. *)
Definition msgblock_check (need_sync : bool) (buf : list Z) : Z * bool :=
  let buf_len := Z.of_nat (length buf) in
  let at_ n := default 0 (buf !! Z.to_nat n) in
  if buf_len <? MESSAGE_MIN then (0, need_sync)
  else if need_sync then msgblock_resync buf
  else
    let msglen := at_ 0 in
    if (msglen <? MESSAGE_MIN) || (msglen >? MESSAGE_MAX) then msgblock_resync buf
    else
      let msgseq := at_ 1 in
      if negb (clr msgseq MESSAGE_SEQ_MASK =? MESSAGE_DEST) then msgblock_resync buf
      else if buf_len <? msglen then (0, need_sync)
      else if negb (at_ (msglen - MESSAGE_TRAILER_SYNC) =? MESSAGE_SYNC) then msgblock_resync buf
      else
        let msgcrc := u16 (Z.lor (Z.shiftl (at_ (msglen - MESSAGE_TRAILER_CRC)) 8)
                                 (at_ (msglen - MESSAGE_TRAILER_CRC + 1))) in
        let crc := msgblock_crc16_ccitt buf (Z.to_nat (msglen - MESSAGE_TRAILER_SIZE)) in
        if negb (crc =? msgcrc) then msgblock_resync buf
        else (msglen, need_sync).

(** The static [encode_int] and [parse_int] of this file. *)
Definition host_encode_int (v : Z) : list Z :=
  let sv := s32 v in
  let f4 := [u8 (Z.land v 0x7f)] in
  let f3 := u8 (Z.lor (Z.land (Z.shiftr v 7) 0x7f) 0x80) :: f4 in
  let f2 := u8 (Z.lor (Z.land (Z.shiftr v 14) 0x7f) 0x80) :: f3 in
  let f1 := u8 (Z.lor (Z.land (Z.shiftr v 21) 0x7f) 0x80) :: f2 in
  if (sv <? Z.shiftl 3 5) && (sv >=? - Z.shiftl 1 5) then f4
  else if (sv <? Z.shiftl 3 12) && (sv >=? - Z.shiftl 1 12) then f3
  else if (sv <? Z.shiftl 3 19) && (sv >=? - Z.shiftl 1 19) then f2
  else if (sv <? Z.shiftl 3 26) && (sv >=? - Z.shiftl 1 26) then f1
  else u8 (Z.lor (Z.shiftr v 28) 0x80) :: f1.

Fixpoint host_parse_loop (v : Z) (p : list Z) : res (Z * list Z) :=
  match p with
  | [] => Fault "parse_int"
  | c :: p =>
      let v := Z.lor (u32 (Z.shiftl v 7)) (Z.land c 0x7f) in
      if has c 0x80 then host_parse_loop v p else Ok (v, p)
  end.

(** [p] is the memory from the pointer on. *)
Definition host_parse_int (p : list Z) : res (Z * list Z) :=
  match p with
  | [] => Fault "parse_int"
  | c :: p =>
      let v := Z.land c 0x7f in
      let v := if Z.land c 0x60 =? 0x60 then u32 (Z.lor v (-0x20)) else v in
      if has c 0x80 then host_parse_loop v p else Ok (v, p)
  end.

(** The loop of [msgblock_decode]; [tail] is the number of bytes of memory
    from [end] on, so that [p >= end] reads [length p <= tail]. *)
Fixpoint decode_loop (data_len : nat) (p : list Z) (tail : nat) (data : list Z) : res (Z * list Z) :=
  match data_len with
  | O => if (length p =? tail)%nat then Ok (0, data) else Ok (-1, data)
  | S data_len =>
      if (length p <=? tail)%nat then Ok (-1, data)
      else
        '(v, p) ← host_parse_int p;
        decode_loop data_len p tail (data ++ [v])
  end.

(** [msgblock_decode]: the return value and the integers stored. *)
Definition msgblock_decode (data_len : nat) (msg : list Z) (msg_len : Z) : res (Z * list Z) :=
  decode_loop data_len (drop (Z.to_nat MESSAGE_HEADER_SIZE) msg)
    (length msg - Z.to_nat (msg_len - MESSAGE_TRAILER_SIZE)) [].

(** ** Command queues *)

Definition message_alloc : queue_message := mk_qm [] 0 0 d_zero d_zero 0.

Definition message_fill (data : list Z) : queue_message := message_alloc <| qm_msg := data |>.

(** The loop of [message_alloc_and_encode]: [acc] is what was stored so far;
    a store past the [MESSAGE_MAX] bytes of [msg] is a fault, [None] the jump
    to [fail]. *)
Fixpoint encode_loop (data acc : list Z) : res (option (list Z)) :=
  match data with
  | [] => Ok (Some acc)
  | v :: data =>
      let acc := acc ++ host_encode_int v in
      if Z.of_nat (length acc) >? MESSAGE_MAX then Fault "qm->msg overflow"
      else if Z.of_nat (length acc) >? MESSAGE_PAYLOAD_MAX then Ok None
      else encode_loop data acc
  end.

Definition message_alloc_and_encode (data : list Z) : res queue_message :=
  r ← encode_loop data [];
  Ok (match r with
      | Some p => message_alloc <| qm_msg := p |>
      | None => message_alloc
      end).

(** ** Clock estimation *)

Definition clock_from_clock32 (ce : clock_estimate) (clock32 : Z) : Z :=
  u64 (ce_last_clock ce + s32 (u32 (clock32 - ce_last_clock ce))).

Definition clock_to_time (ce : clock_estimate) (clock : Z) : double :=
  dadd (ce_conv_time ce) (ddiv (d_of_Z (s64 (u64 (clock - ce_conv_clock ce)))) (ce_est_freq ce)).

Definition clock_from_time (ce : clock_estimate) (time : double) : res Z :=
  t ← d_to_s64 (dadd (dmul (dsub time (ce_conv_time ce)) (ce_est_freq ce)) d_half);
  Ok (u64 (t + ce_conv_clock ce)).

(** ** Agreement with the micro-controller *)

Lemma msgblock_crc_eq buf len : msgblock_crc16_ccitt buf len = crc16_ccitt buf len.
Proof. reflexivity. Qed.

Lemma host_encode_int_eq v : host_encode_int v = encode_int v.
Proof. reflexivity. Qed.

Lemma host_parse_loop_eq v p :
  host_parse_loop v p = match parse_int_loop v p with Some r => Ok r | None => Fault "parse_int" end.
Proof. revert v. induction p as [| c p IH]; intros v; simpl; [done |]. by destruct (has c 0x80). Qed.

Lemma host_parse_int_eq p :
  host_parse_int p = match parse_int p with Some r => Ok r | None => Fault "parse_int" end.
Proof.
  destruct p as [| c p]; simpl; [done |]. destruct (has c 0x80); [apply host_parse_loop_eq | done].
Qed.

(** The bytes of a sequence of integers on the wire. *)
Definition vlq_bytes (vs : list Z) : list Z := concat (encode_int <$> vs).

Lemma vlq_bytes_cons v vs : vlq_bytes (v :: vs) = encode_int v ++ vlq_bytes vs.
Proof. reflexivity. Qed.

Lemma vlq_bytes_u8 vs : Forall is_u8 (vlq_bytes vs).
Proof. induction vs; [constructor |]. rewrite vlq_bytes_cons. apply Forall_app_2; auto using encode_int_u8. Qed.

Lemma encode_loop_spec data acc :
  Z.of_nat (length acc) <= MESSAGE_PAYLOAD_MAX ->
  encode_loop data acc
  = Ok (if Z.of_nat (length (acc ++ vlq_bytes data)) <=? MESSAGE_PAYLOAD_MAX
        then Some (acc ++ vlq_bytes data) else None).
Proof.
  unfold MESSAGE_PAYLOAD_MAX, MESSAGE_MAX, MESSAGE_MIN. revert acc.
  induction data as [| v data IH]; intros acc Ha; cbn [encode_loop].
  - unfold vlq_bytes. cbn. rewrite app_nil_r, (proj2 (Z.leb_le _ _)) by lia. done.
  - rewrite host_encode_int_eq. unfold MESSAGE_PAYLOAD_MAX, MESSAGE_MAX, MESSAGE_MIN.
    pose proof (encode_int_length v). rewrite vlq_bytes_cons.
    assert (Hl : length (acc ++ encode_int v) = (length acc + length (encode_int v))%nat)
      by apply length_app.
    destruct (Z.gtb_spec (Z.of_nat (length (acc ++ encode_int v))) 64); [lia |].
    destruct (Z.gtb_spec (Z.of_nat (length (acc ++ encode_int v))) (64 - 5)).
    + rewrite (proj2 (Z.leb_gt _ _)); [done |]. rewrite !length_app in *. lia.
    + rewrite IH, <- app_assoc by lia. done.
Qed.

(** Encoding never leaves the message buffer; it fails exactly when the
    integers need more than a block's payload. *)
Lemma message_alloc_and_encode_run data :
  message_alloc_and_encode data
  = Ok (if Z.of_nat (length (vlq_bytes data)) <=? MESSAGE_PAYLOAD_MAX
        then message_alloc <| qm_msg := vlq_bytes data |> else message_alloc).
Proof.
  unfold message_alloc_and_encode. rewrite encode_loop_spec by done.
  cbn [app]. unfold mbind, res_bind. by destruct (_ <=? _).
Qed.

Lemma vlq_bytes_length vs : (length vs <= length (vlq_bytes vs) <= 5 * length vs)%nat.
Proof.
  induction vs as [| v vs IH]; [done |]. rewrite vlq_bytes_cons, length_app.
  pose proof (encode_int_length v). cbn [length]. lia.
Qed.

(** Short commands always fit. *)
Lemma message_encode_fits data :
  (length data <= 11)%nat ->
  message_alloc_and_encode data = Ok (message_alloc <| qm_msg := vlq_bytes data |>).
Proof.
  intros H. rewrite message_alloc_and_encode_run. pose proof (vlq_bytes_length data).
  rewrite (proj2 (Z.leb_le _ _)); [done |]. unfold MESSAGE_PAYLOAD_MAX, MESSAGE_MAX, MESSAGE_MIN. lia.
Qed.

Lemma decode_loop_vlq vs rest tail acc :
  Forall is_u32 vs -> length rest = tail ->
  decode_loop (length vs) (vlq_bytes vs ++ rest) tail acc = Ok (0, acc ++ vs).
Proof.
  intros H Ht. revert acc. induction H as [| v vs Hv Hvs IH]; intros acc; cbn [length decode_loop].
  - cbn [vlq_bytes concat fmap list_fmap app]. by rewrite (proj2 (Nat.eqb_eq _ _)), app_nil_r.
  - rewrite vlq_bytes_cons, <- app_assoc. pose proof (encode_int_length v).
    rewrite (proj2 (Nat.leb_gt _ _)) by (rewrite !length_app; lia).
    rewrite host_parse_int_eq, parse_encode_int_ok by done.
    unfold mbind, res_bind. rewrite IH, <- app_assoc. done.
Qed.

(** A resynchronisation never reports a block. *)
Lemma msgblock_resync_nonpos buf : (msgblock_resync buf).1 <= 0.
Proof. unfold msgblock_resync. repeat case_match; cbn [fst]; lia. Qed.

Lemma lookup_default (buf : list Z) i : (i < length buf)%nat -> buf !! i = Some (default 0 (buf !! i)).
Proof. intros H. by destruct (Block.lookup_in_range buf i H) as [x ->]. Qed.

Lemma msgblock_check_sound buf n b :
  Forall is_u8 buf -> msgblock_check false buf = (n, b) -> 0 < n ->
  b = false /\ exists q payload rest, Block.framed buf n q payload rest.
Proof.
  intros Hu. unfold msgblock_check, MESSAGE_MIN, MESSAGE_MAX, MESSAGE_TRAILER_SYNC,
    MESSAGE_TRAILER_CRC, MESSAGE_TRAILER_SIZE.
  set (m := default 0 (buf !! Z.to_nat 0)). set (q := default 0 (buf !! Z.to_nat 1)).
  pose proof (msgblock_resync_nonpos buf) as Hneg.
  assert (Hno : forall P : Prop, msgblock_resync buf = (n, b) -> 0 < n -> P)
    by (intros P E Hn; rewrite E in Hneg; cbn [fst] in Hneg; lia).
  destruct (Z.ltb_spec (Z.of_nat (length buf)) 5) as [H5 | H5]; [intros [= <- <-]; lia |].
  destruct ((m <? 5) || (m >? 64)) eqn:Hm; [apply Hno |].
  destruct (Z.eqb_spec (clr q MESSAGE_SEQ_MASK) MESSAGE_DEST) as [Hd | Hd]; cbn [negb]; [| apply Hno].
  destruct (Z.ltb_spec (Z.of_nat (length buf)) m); [intros [= <- <-]; lia |].
  replace (m - 3 + 1) with (m - 2) by lia.
  destruct (Z.eqb_spec (default 0 (buf !! Z.to_nat (m - 1))) MESSAGE_SYNC) as [Hs |]; cbn [negb]; [| apply Hno].
  destruct (Z.eqb_spec (msgblock_crc16_ccitt buf (Z.to_nat (m - 3)))
    (u16 (Z.lor (Z.shiftl (default 0 (buf !! Z.to_nat (m - 3))) 8) (default 0 (buf !! Z.to_nat (m - 2))))))
    as [Hc |]; cbn [negb]; [| apply Hno].
  intros [= <- <-] _. split; [done |]. rewrite msgblock_crc_eq in Hc.
  pose proof (lookup_default buf (Z.to_nat (m - 3)) ltac:(lia)) as L3.
  pose proof (lookup_default buf (Z.to_nat (m - 2)) ltac:(lia)) as L2.
  destruct (Block.crc_bytes_split (default 0 (buf !! Z.to_nat (m - 3))) (default 0 (buf !! Z.to_nat (m - 2))))
    as [Eh El]; [by eapply Block.lookup_u8.. |]. rewrite <- Hc in Eh, El.
  exists q. apply Block.fields_framed; try done; try lia.
  - unfold is_u8. lia.
  - apply (lookup_default buf 0). lia.
  - apply (lookup_default buf 1). lia.
  - by rewrite Eh.
  - by rewrite El.
  - rewrite <- Hs. apply lookup_default. lia.
Qed.

Lemma msgblock_check_framed buf n q payload rest :
  Block.framed buf n q payload rest -> msgblock_check false buf = (n, false).
Proof.
  intros H. pose proof (Block.framed_fields _ _ _ _ _ H) as (H0 & H1 & H2 & H3 & H4 & Hn & Hl).
  destruct H as (_ & _ & _ & Hq).
  unfold msgblock_check, MESSAGE_MIN, MESSAGE_MAX, MESSAGE_TRAILER_SYNC, MESSAGE_TRAILER_CRC,
    MESSAGE_TRAILER_SIZE.
  cbv zeta beta. change (Z.to_nat 0) with 0%nat. change (Z.to_nat 1) with 1%nat. rewrite H0, H1. unfold id; cbn [default from_option].
  replace (n - 3 + 1) with (n - 2) by lia. rewrite H2, H3, H4. unfold id; cbn [default from_option].
  rewrite (proj2 (Z.ltb_ge (Z.of_nat (length buf)) 5)), Hq, Z.eqb_refl by lia. cbn [negb].
  assert ((n <? 5) || (n >? 64) = false) as -> by lia.
  rewrite (proj2 (Z.ltb_ge _ _)), Z.eqb_refl by lia. cbn [negb].
  by rewrite msgblock_crc_eq, Block.crc_bytes_join, Z.eqb_refl by apply Block.crc16_ccitt_range.
Qed.

(** A synchronised host reports a block of [n] bytes exactly when the
    bytes received start with a frame as the micro-controller's
    [command_add_frame] builds it, for some payload and sequence number. *)
Theorem msgblock_check_accepts buf n :
  Forall is_u8 buf -> 0 < n ->
  msgblock_check false buf = (n, false) <-> exists q payload rest, Block.framed buf n q payload rest.
Proof.
  intros Hu Hn. split.
  - intros E. by destruct (msgblock_check_sound buf n false Hu E Hn).
  - intros (q & payload & rest & H). by apply msgblock_check_framed in H.
Qed.

(** A message survives the trip between the two sides: the command the
    host encodes is the sequence of vlq integers, and from any frame with that
    payload, whatever follows it in the input buffer, [msgblock_check] finds
    the block and [msgblock_decode] gives the integers back. *)
Theorem msgblock_roundtrip vs q rest :
  Forall is_u32 vs -> Z.of_nat (length (vlq_bytes vs)) <= MESSAGE_PAYLOAD_MAX ->
  clr q MESSAGE_SEQ_MASK = MESSAGE_DEST ->
  exists qm, message_alloc_and_encode vs = Ok qm /\
    let n := qm_len qm + MESSAGE_MIN in
    let buf := command_add_frame q n (qm_msg qm) ++ rest in
    msgblock_check false buf = (n, false) /\ msgblock_decode (length vs) buf n = Ok (0, vs).
Proof.
  intros Hv Hl Hq. exists (message_alloc <| qm_msg := vlq_bytes vs |>).
  rewrite message_alloc_and_encode_run, (proj2 (Z.leb_le _ _)) by done. split; [done |].
  cbv zeta. unfold qm_len. cbn [qm_msg upd upd_fun].
  set (n := Z.of_nat (length (vlq_bytes vs)) + MESSAGE_MIN). split.
  - apply (msgblock_check_framed _ n q (vlq_bytes vs) rest). split_and!; try done.
    unfold MESSAGE_PAYLOAD_MAX in Hl. unfold n. lia.
  - unfold msgblock_decode, command_add_frame, MESSAGE_TRAILER_SIZE, n, MESSAGE_MIN. cbn [app].
    change (Z.to_nat MESSAGE_HEADER_SIZE) with 2%nat. cbn [drop]. rewrite drop_0, <- app_assoc.
    rewrite decode_loop_vlq; [done | done |]. cbn [length]. rewrite !length_app. cbn [length]. lia.
Qed.

Lemma msgblock_check_accepts_witness :
  msgblock_check false (command_add_frame 0x15 8 [1; 2; 3] ++ [9]) = (8, false) <->
  exists q payload rest, Block.framed (command_add_frame 0x15 8 [1; 2; 3] ++ [9]) 8 q payload rest.
Proof. apply (msgblock_check_accepts _ 8); [vm_decide | lia]. Defined.

Lemma msgblock_roundtrip_witness :
  exists qm, message_alloc_and_encode [7; 100000; 4294967295] = Ok qm /\
    let n := qm_len qm + MESSAGE_MIN in
    let buf := command_add_frame 0x13 n (qm_msg qm) ++ [0x7e; 5] in
    msgblock_check false buf = (n, false) /\ msgblock_decode 3 buf n = Ok (0, [7; 100000; 4294967295]).
Proof.
  apply (msgblock_roundtrip [7; 100000; 4294967295] 0x13 [0x7e; 5]);
    [repeat constructor; cint_lia | vm_compute; discriminate | reflexivity].
Defined.

(** Extension of a 32-bit clock is exact while the last full clock is within
    half the range of the value to recover. *)
Lemma clock_from_clock32_exact ce clock :
  is_u64 (ce_last_clock ce) -> is_u64 clock ->
  - 2 ^ 31 <= clock - ce_last_clock ce < 2 ^ 31 -> clock_from_clock32 ce (u32 clock) = clock.
Proof. intros Hl Hc H. unfold clock_from_clock32. cint_lia. Qed.
