(* ===== verification/Msgproto.v ===== *)
(** * Msgproto: the message formats of the Python host

    Models [src/klippy/msgproto.py]: the parameter types and their coding, the
    message formats read from the micro-controller's dictionary, and the
    recognition and parsing of blocks.  Python integers are unbounded; an
    [error] raised by the module is [Shut], any other exception [Fault].  The
    theorems state that the two sides of the link, in Python and in C, agree. *)

From Stdlib Require Import Ascii.
From stdpp Require Import pretty.
From S2P Require Import Prelude Wire State Command Dispatch Double Msgblock.
Import Crc Vlq Encode Block.

(** ** Checksum *)

Definition py_crc16_step (crc data : Z) : Z :=
  let data := Z.lxor data (Z.land crc 0xff) in
  let data := Z.lxor data (Z.shiftl (Z.land data 0x0f) 4) in
  Z.lxor (Z.lxor (Z.lor (Z.shiftl data 8) (Z.shiftr crc 8)) (Z.shiftr data 4)) (Z.shiftl data 3).

Definition py_crc16_ccitt (buf : list Z) : list Z :=
  let crc := foldl py_crc16_step 0xffff buf in
  [Z.shiftr crc 8; Z.land crc 0xff].

(** ** Parameter types *)

(** A parameter type, possibly with names for its values.  A dictionary is the
    list of its items, in order. *)
Inductive ptype :=
| PT (t : param_type)
| Enumeration (t : param_type) (enum_name : string) (enums : list (string * Z)).

Inductive pyval := PInt (v : Z) | PBytes (data : list Z) | PStr (name : string).

(** The class attribute [signed]. *)
Definition signed (t : param_type) : bool :=
  match t with PT_int32 | PT_int16 => true | _ => false end.

Definition is_int (t : param_type) : bool :=
  match t with PT_string | PT_progmem_buffer | PT_buffer => false | _ => true end.

(** [PT_uint32.encode]. *)
Definition py_encode_int (v : Z) : list Z :=
  (if (v >=? 0xc000000) || (v <? -0x4000000) then [Z.lor (Z.land (Z.shiftr v 28) 0x7f) 0x80] else [])
  ++ (if (v >=? 0x180000) || (v <? -0x80000) then [Z.lor (Z.land (Z.shiftr v 21) 0x7f) 0x80] else [])
  ++ (if (v >=? 0x3000) || (v <? -0x1000) then [Z.lor (Z.land (Z.shiftr v 14) 0x7f) 0x80] else [])
  ++ (if (v >=? 0x60) || (v <? -0x20) then [Z.lor (Z.land (Z.shiftr v 7) 0x7f) 0x80] else [])
  ++ [Z.land v 0x7f].

(** The loop of [PT_uint32.parse] from position [pos] of the block on. *)
Fixpoint py_parse_loop (v : Z) (s : list Z) (pos : nat) : res (Z * nat) :=
  match s with
  | [] => Fault "IndexError"
  | c :: s =>
      let v := Z.lor (Z.shiftl v 7) (Z.land c 0x7f) in
      if has c 0x80 then py_parse_loop v s (S pos) else Ok (v, S pos)
  end.

(** [PT_uint32.parse]; [rest] is [s[pos:]]. *)
Definition py_parse_from (sgn : bool) (rest : list Z) (pos : nat) : res (Z * nat) :=
  match rest with
  | [] => Fault "IndexError"
  | c :: rest =>
      let v := Z.land c 0x7f in
      let v := if Z.land c 0x60 =? 0x60 then Z.lor v (-0x20) else v in
      '(v, pos) ← (if has c 0x80 then py_parse_loop v rest (S pos) else Ok (v, S pos));
      Ok (if sgn then v else Z.land v 0xffffffff, pos)
  end.

Definition py_parse_int (sgn : bool) (s : list Z) (pos : nat) : res (Z * nat) := py_parse_from sgn (drop pos s) pos.

(** [out.append] of a value that is no byte is not refused here. *)
Definition base_encode (t : param_type) (v : pyval) : res (list Z) :=
  match is_int t, v with
  | true, PInt v => Ok (py_encode_int v)
  | false, PBytes data => Ok (Z.of_nat (length data) :: data)
  | _, _ => Fault "TypeError"
  end.

(** A slice of a list ends where the list does. *)
Definition base_parse (t : param_type) (s : list Z) (pos : nat) : res (pyval * nat) :=
  if is_int t
  then '(v, pos) ← py_parse_int (signed t) s pos; Ok (PInt v, pos)
  else
    match s !! pos with
    | None => Fault "IndexError"
    | Some l => Ok (PBytes (take (Z.to_nat l) (drop (S pos) s)), (pos + Z.to_nat l + 1)%nat)
    end.

(** [dict.get]; [reverse_enums] keeps the last name of a value. *)
Definition dict_get {K V} `{EqDecision K} (d : list (K * V)) (k : K) : option V :=
  snd <$> List.find (fun e => bool_decide (e.1 = k)) d.

Definition reverse_enums (enums : list (string * Z)) : list (Z * string) := rev ((fun e => (e.2, e.1)) <$> enums).

Definition unknown_value (v : Z) : string := String.append "?" (pretty v).

Definition type_encode (t : ptype) (v : pyval) : res (list Z) :=
  match t with
  | PT t => base_encode t v
  | Enumeration t _ enums =>
      match v with
      | PStr name =>
          match dict_get enums name with
          | None => Shut "Unknown value in enumeration"
          | Some tv => base_encode t (PInt tv)
          end
      | _ => Shut "Unknown value in enumeration"
      end
  end.

Definition type_parse (t : ptype) (s : list Z) (pos : nat) : res (pyval * nat) :=
  match t with
  | PT t => base_parse t s pos
  | Enumeration t _ enums =>
      '(v, pos) ← base_parse t s pos;
      match v with
      | PInt v => Ok (PStr (default (unknown_value v) (dict_get (reverse_enums enums) v)), pos)
      | _ => Fault "TypeError"
      end
  end.

(** ** Formats *)

Definition MessageTypes : list (string * param_type) :=
  [("%u", PT_uint32); ("%i", PT_int32); ("%hu", PT_uint16); ("%hi", PT_int16); ("%c", PT_byte);
   ("%s", PT_string); ("%.*s", PT_progmem_buffer); ("%*s", PT_buffer)].

(** [s.split(c)]. *)
Fixpoint split_go (c : Ascii.ascii) (cur : string) (s : string) : list string :=
  match s with
  | EmptyString => [cur]
  | String a s => if Ascii.eqb a c then cur :: split_go c "" s else split_go c (String.append cur (String a "")) s
  end.
Definition split_on (c : Ascii.ascii) (s : string) : list string := split_go c "" s.

(** [s.endswith(suffix)]. *)
Definition endswith (s suffix : string) : bool :=
  let n := String.length s in
  let k := String.length suffix in
  (k <=? n)%nat && String.eqb (String.substring (n - k) k s) suffix.

Definition enum_of (enumerations : list (string * list (string * Z))) (name : string) : option (string * list (string * Z)) :=
  List.find (fun e => String.eqb name e.1 || endswith name (String.append "_" e.1)) enumerations.

(** One turn of the loop of [lookup_params]. *)
Definition lookup_param (enumerations : list (string * list (string * Z))) (arg : string) : res (string * ptype) :=
  match split_on "="%char arg with
  | [name; fmt] =>
      match dict_get MessageTypes fmt with
      | None => Fault "KeyError"
      | Some t =>
          Ok (name, match enum_of enumerations name with
                    | Some (enum_name, enums) => Enumeration t enum_name enums
                    | None => PT t
                    end)
      end
  | _ => Fault "ValueError"
  end.

Fixpoint map_res {A C} (f : A -> res C) (l : list A) : res (list C) :=
  match l with
  | [] => Ok []
  | a :: l => c ← f a; cs ← map_res f l; Ok (c :: cs)
  end.

Definition lookup_params (msgformat : string) (enumerations : list (string * list (string * Z))) : res (list (string * ptype)) :=
  map_res (lookup_param enumerations) (tl (String.words msgformat)).

(** [MessageTypes.get(args[pos:pos+1+i])] for [i] from 0 to 3. *)
Definition output_type (args : string) : option param_type :=
  head (omap (fun i => dict_get MessageTypes (String.substring 0 (1 + i) args)) [0; 1; 2; 3]%nat).

(** [lookup_output_params]: [args] from each [%] on. *)
Fixpoint lookup_output_params (args : string) : res (list param_type) :=
  match args with
  | EmptyString => Ok []
  | String a rest =>
      if Ascii.eqb a "%"%char
      then
        match rest with
        | String "%"%char _ => lookup_output_params rest
        | _ =>
            match output_type args with
            | Some t => ts ← lookup_output_params rest; Ok (t :: ts)
            | None => Shut "Invalid output format"
            end
        end
      else lookup_output_params rest
  end.

Record MessageFormat := mk_format {
  mf_msgid : Z;
  mf_msgformat : string;
  mf_name : string;
  mf_params : list (string * ptype);
}.

(** [MessageFormat.__init__]. *)
Definition new_format (msgid : Z) (msgformat : string) (enumerations : list (string * list (string * Z))) : res MessageFormat :=
  name ← (match String.words msgformat with name :: _ => Ok name | [] => Fault "IndexError" end);
  params ← lookup_params msgformat enumerations;
  Ok (mk_format msgid msgformat name params).

(** [MessageFormat.encode]: [params[i]] for each type. *)
Fixpoint encode_types (ts : list ptype) (params : list pyval) : res (list Z) :=
  match ts, params with
  | [], _ => Ok []
  | _ :: _, [] => Fault "IndexError"
  | t :: ts, v :: params => b ← type_encode t v; bs ← encode_types ts params; Ok (b ++ bs)
  end.

Definition format_encode (mf : MessageFormat) (params : list pyval) : res (list Z) :=
  bs ← encode_types (snd <$> mf_params mf) params; Ok (mf_msgid mf :: bs).

Fixpoint encode_names (ps : list (string * ptype)) (params : list (string * pyval)) : res (list Z) :=
  match ps with
  | [] => Ok []
  | (name, t) :: ps =>
      v ← (match dict_get params name with Some v => Ok v | None => Fault "KeyError" end);
      b ← type_encode t v;
      bs ← encode_names ps params;
      Ok (b ++ bs)
  end.

Definition format_encode_by_name (mf : MessageFormat) (params : list (string * pyval)) : res (list Z) :=
  bs ← encode_names (mf_params mf) params; Ok (mf_msgid mf :: bs).

(** The loop of [MessageFormat.parse]; the items in the order they are set. *)
Fixpoint parse_params (ps : list (string * ptype)) (s : list Z) (pos : nat) : res (list (string * pyval) * nat) :=
  match ps with
  | [] => Ok ([], pos)
  | (name, t) :: ps =>
      '(v, pos) ← type_parse t s pos;
      '(out, pos) ← parse_params ps s pos;
      Ok ((name, v) :: out, pos)
  end.

Definition format_parse (mf : MessageFormat) (s : list Z) (pos : nat) : res (list (string * pyval) * nat) :=
  parse_params (mf_params mf) s (S pos).

(** ** The parser *)

Inductive format :=
| FMessage (mf : MessageFormat)
| FOutput (msgid : Z) (msgformat : string) (param_types : list param_type).

(** Dictionaries with the latest assignment first. *)
Record MessageParser := mk_msgparser {
  p_enumerations : list (string * list (string * Z));
  p_messages_by_id : list (Z * format);
  p_messages_by_name : list (string * MessageFormat);
}.
#[export] Instance eta_MessageParser : Eta MessageParser :=
  fun r => mk_msgparser (p_enumerations r) (p_messages_by_id r) (p_messages_by_name r).

(** One turn of the loop of [_init_messages]; [output] tells whether the tag is
    one of [output_tags] and not one of [command_tags]. *)
Definition init_message (p : MessageParser) (msgformat : string) (msgtag : Z) (output : bool) : res MessageParser :=
  if (msgtag <? -32) || (msgtag >? 95) then Shut "Multi-byte msgtag not supported"
  else
    let msgid := Z.land msgtag 0x7f in
    if output
    then
      ts ← lookup_output_params msgformat;
      Ok (p <| p_messages_by_id ::= cons (msgid, FOutput msgid msgformat ts) |>)
    else
      mf ← new_format msgid msgformat (p_enumerations p);
      Ok (p <| p_messages_by_id ::= cons (msgid, FMessage mf) |> <| p_messages_by_name ::= cons (mf_name mf, mf) |>).

Fixpoint init_messages (p : MessageParser) (messages : list (string * Z)) (command_tags output_tags : list Z) : res MessageParser :=
  match messages with
  | [] => Ok p
  | (msgformat, msgtag) :: messages =>
      let output := negb (bool_decide (msgtag ∈ command_tags)) && bool_decide (msgtag ∈ output_tags) in
      p ← init_message p msgformat msgtag output;
      init_messages p messages command_tags output_tags
  end.

(** [check_packet]. *)
Definition check_packet (s : list Z) : Z :=
  let at_ n := default 0 (s !! Z.to_nat n) in
  let len := Z.of_nat (length s) in
  if len <? MESSAGE_MIN then 0
  else
    let msglen := at_ 0 in
    if (msglen <? MESSAGE_MIN) || (msglen >? MESSAGE_MAX) then -1
    else
      let msgseq := at_ 1 in
      if negb (clr msgseq MESSAGE_SEQ_MASK =? MESSAGE_DEST) then -1
      else if len <? msglen then 0
      else if negb (at_ (msglen - MESSAGE_TRAILER_SYNC) =? MESSAGE_SYNC) then -1
      else
        let msgcrc := take 2 (drop (Z.to_nat (msglen - MESSAGE_TRAILER_CRC)) s) in
        let crc := py_crc16_ccitt (take (Z.to_nat (msglen - MESSAGE_TRAILER_SIZE)) s) in
        if bool_decide (crc = msgcrc) then msglen else -1.

(** What [parse] returns: the name of the format and its items.  An output
    message is formatted into one text, which is kept as its arguments. *)
Inductive parsed :=
| Message (name : string) (params : list (string * pyval))
| Output (msgformat : string) (args : list pyval)
| Unknown (msgid : Z) (msg : list Z).

Fixpoint parse_values (ts : list param_type) (s : list Z) (pos : nat) : res (list pyval * nat) :=
  match ts with
  | [] => Ok ([], pos)
  | t :: ts =>
      '(v, pos) ← base_parse t s pos;
      '(out, pos) ← parse_values ts s pos;
      Ok (v :: out, pos)
  end.

(** [mid.parse(s, pos)] of the three formats. *)
Definition parse_as (mid : option format) (s : list Z) (pos : nat) : res (parsed * Z) :=
  match mid with
  | Some (FMessage mf) => '(ps, pos) ← format_parse mf s pos; Ok (Message (mf_name mf) ps, Z.of_nat pos)
  | Some (FOutput _ msgformat ts) => '(vs, pos) ← parse_values ts s (S pos); Ok (Output msgformat vs, Z.of_nat pos)
  | None =>
      match s !! pos with
      | None => Fault "IndexError"
      | Some msgid => Ok (Unknown msgid s, Z.of_nat (length s) - MESSAGE_TRAILER_SIZE)
      end
  end.

(** [MessageParser.parse] of a whole block. *)
Definition parser_parse (p : MessageParser) (s : list Z) : res parsed :=
  match s !! Z.to_nat MESSAGE_HEADER_SIZE with
  | None => Fault "IndexError"
  | Some msgid =>
      '(r, pos) ← parse_as (dict_get (p_messages_by_id p) msgid) s (Z.to_nat MESSAGE_HEADER_SIZE);
      if pos =? Z.of_nat (length s) - MESSAGE_TRAILER_SIZE then Ok r else Shut "Extra data at end of message"
  end.

(** [MessageParser.encode]: the elements of the list it returns. *)
Inductive element := Byte (b : Z) | Nested (l : list Z).

Definition parser_encode (seq : Z) (cmd : list Z) : list element :=
  let msglen := MESSAGE_MIN + Z.of_nat (length cmd) in
  let seq := Z.lor (Z.land seq MESSAGE_SEQ_MASK) MESSAGE_DEST in
  let out := [msglen; seq] ++ cmd in
  (Byte <$> out) ++ [Nested (py_crc16_ccitt out); Byte MESSAGE_SYNC].

(** [MessageParser.lookup_command]. *)
Definition lookup_command (p : MessageParser) (msgformat : string) : res MessageFormat :=
  match String.words msgformat with
  | [] => Fault "IndexError"
  | msgname :: _ =>
      match dict_get (p_messages_by_name p) msgname with
      | None => Shut "Unknown command"
      | Some mp => if String.eqb msgformat (mf_msgformat mp) then Ok mp else Shut "Command format mismatch"
      end
  end.

(** ** The checksum and the recogniser agree with the C code *)

Lemma py_crc16_step_eq crc b : is_u16 crc -> is_u8 b -> py_crc16_step crc b = crc16_step crc b.
Proof.
  intros Hc Hb. unfold py_crc16_step, crc16_step. set (x := Z.lxor b (Z.land crc 0xff)).
  assert (Hx : is_u8 x) by (apply (lxor_range 8); [lia | done | apply low_byte_range]).
  assert (Hl : is_u8 (Z.shiftl (Z.land x 0x0f) 4)).
  { change 0x0f with (Z.ones 4). rewrite Z.land_ones, Z.shiftl_mul_pow2 by lia. change (2 ^ 4) with 16. cint_lia. }
  assert (E : Z.lxor (u8 x) (Z.shiftl (Z.land x 0x0f) 4) = u8 (Z.lxor (u8 x) (Z.shiftl (u8 x) 4))).
  { rewrite (u8_small x) by done. apply Z.bits_inj'. intros i Hi. unfold u8. change 0x0f with (Z.ones 4).
    rewrite Z.lxor_spec, Z.shiftl_spec, Z.land_spec by lia. destruct (decide (i < 8)).
    - rewrite Z.mod_pow2_bits_low, Z.lxor_spec, Z.shiftl_spec by lia. f_equal.
      destruct (decide (i < 4)); [by rewrite !(Z.testbit_neg_r _ (i - 4)) by lia |].
      rewrite Z.testbit_ones_nonneg by lia. assert ((i - 4 <? 4) = true) as -> by lia. apply andb_true_r.
    - rewrite Z.mod_pow2_bits_high by lia. rewrite (testbit_above 8 x) by (unfold is_u8 in Hx; lia).
      rewrite Z.testbit_ones_nonneg by lia. assert ((i - 4 <? 4) = false) as -> by lia. by rewrite andb_false_r. }
  rewrite (u8_small x) in E |- * by done. rewrite E. set (d := u8 (Z.lxor x (Z.shiftl x 4))).
  assert (Hd : is_u8 d) by apply u8_range.
  rewrite (u8_small (Z.shiftr d 4)) by (rewrite Z.shiftr_div_pow2 by lia; change (2 ^ 4) with 16; cint_lia).
  symmetry. apply u16_small, (lxor_range 16); [lia | apply (lxor_range 16); [lia | |] |].
  - assert (Hs : 0 <= Z.shiftr crc 8 < 2 ^ 8) by (rewrite Z.shiftr_div_pow2 by lia; cint_lia).
    rewrite lor_shift_add by (done || lia). cint_lia.
  - rewrite Z.shiftr_div_pow2 by lia. change (2 ^ 4) with 16. cint_lia.
  - rewrite Z.shiftl_mul_pow2 by lia. change (2 ^ 3) with 8. cint_lia.
Qed.

Lemma py_crc_eq buf : Forall is_u8 buf ->
  let crc := crc16_ccitt buf (length buf) in py_crc16_ccitt buf = [u8 (Z.shiftr crc 8); u8 crc].
Proof.
  intros Hu crc. unfold py_crc16_ccitt.
  assert (E : forall c, is_u16 c -> foldl py_crc16_step c buf = foldl crc16_step c buf).
  { clear crc. induction Hu as [| b buf Hb _ IH]; intros c Hc; [done |]. cbn. rewrite py_crc16_step_eq by done.
    apply IH, crc16_step_range. }
  rewrite (E 0xffff) by (unfold is_u16; lia). unfold crc, crc16_ccitt. rewrite firstn_all.
  pose proof (crc16_foldl_range buf 0xffff ltac:(unfold is_u16; lia)) as Hr. set (c := foldl crc16_step 0xffff buf) in *.
  f_equal; [| f_equal].
  - rewrite Z.shiftr_div_pow2 by lia. symmetry. apply u8_small. cint_lia.
  - change 0xff with (Z.ones 8). by rewrite Z.land_ones by lia.
Qed.

Lemma msgblock_resync_neg buf : buf <> [] -> (msgblock_resync buf).1 <= -1.
Proof.
  intros H. unfold msgblock_resync. destruct (list_find _ buf) as [[i b] |]; cbn [fst]; [lia |].
  destruct buf; [done | cbn [length]; lia].
Qed.

Lemma check_packet_eq buf :
  Forall is_u8 buf -> check_packet buf = Z.max (-1) (msgblock_check false buf).1.
Proof.
  intros Hu. unfold check_packet, msgblock_check. cbv zeta. set (len := Z.of_nat (length buf)).
  destruct (Z.ltb_spec len MESSAGE_MIN) as [Hl | Hl]; [done |].
  assert (Hr : -1 = Z.max (-1) (msgblock_resync buf).1).
  { pose proof (msgblock_resync_neg buf). destruct buf; [unfold MESSAGE_MIN in Hl; simpl in *; lia |].
    specialize (H ltac:(done)). lia. }
  set (n := default 0 (buf !! Z.to_nat 0)). destruct ((n <? MESSAGE_MIN) || (n >? MESSAGE_MAX)) eqn:En; [done |].
  destruct (negb (clr _ MESSAGE_SEQ_MASK =? MESSAGE_DEST)); [done |].
  destruct (Z.ltb_spec len n) as [Hn | Hn]; [done |].
  destruct (negb (_ =? MESSAGE_SYNC)); [done |].
  unfold MESSAGE_MIN, MESSAGE_MAX, MESSAGE_TRAILER_CRC, MESSAGE_TRAILER_SIZE in *.
  assert (Hn3 : 5 <= n <= 64) by lia. clear En.
  pose proof (lookup_default buf (Z.to_nat (n - 3)) ltac:(lia)) as L3.
  pose proof (lookup_default buf (Z.to_nat (n - 2)) ltac:(lia)) as L2.
  replace (n - 3 + 1) with (n - 2) by lia.
  set (hi := default 0 (buf !! Z.to_nat (n - 3))) in *. set (lo := default 0 (buf !! Z.to_nat (n - 2))) in *.
  assert (Et : take 2 (drop (Z.to_nat (n - 3)) buf) = [hi; lo]).
  { rewrite (drop_S _ _ _ L3). replace (S (Z.to_nat (n - 3))) with (Z.to_nat (n - 2)) by lia. by rewrite (drop_S _ _ _ L2). }
  rewrite Et, msgblock_crc_eq, py_crc_eq by (by apply Forall_take).
  assert (Ec : crc16_ccitt (take (Z.to_nat (n - 3)) buf) (length (take (Z.to_nat (n - 3)) buf)) = crc16_ccitt buf (Z.to_nat (n - 3))).
  { unfold crc16_ccitt. by rewrite firstn_all. }
  rewrite Ec. set (crc := crc16_ccitt buf (Z.to_nat (n - 3))).
  assert (Hcrc : is_u16 crc) by apply crc16_ccitt_range.
  destruct (crc_bytes_split hi lo) as [Eh El]; [by apply (lookup_u8 _ _ _ Hu L3) | by apply (lookup_u8 _ _ _ Hu L2) |].
  case_bool_decide as Hd.
  - injection Hd as Hd1 Hd2. rewrite <- Hd1, <- Hd2, crc_bytes_join, Z.eqb_refl by done. cbn [negb fst]. lia.
  - destruct (Z.eqb_spec crc (u16 (Z.lor (Z.shiftl hi 8) lo))) as [E | E]; [| done].
    destruct Hd. by rewrite E, Eh, El.
Qed.

(** C40: the two recognisers of the host agree.  On every sequence of bytes
    [check_packet] of the Python code and a synchronised [msgblock_check] of the
    C code accept the same blocks, with the same length, ask for more data in
    the same cases, and reject in the same cases; and the blocks they accept are
    exactly those the micro-controller frames. *)
Theorem check_packet_agrees buf :
  Forall is_u8 buf ->
  check_packet buf = Z.max (-1) (msgblock_check false buf).1
  /\ forall n, 0 < n -> check_packet buf = n <-> exists q payload rest, framed buf n q payload rest.
Proof.
  intros Hu. rewrite check_packet_eq by done. split; [done |]. intros n Hn. split.
  - intros E. destruct (msgblock_check false buf) as [m b] eqn:Em. cbn [fst] in E. assert (m = n) as -> by lia.
    by destruct (msgblock_check_sound buf n b Hu Em Hn).
  - intros (q & payload & rest & H). apply msgblock_check_framed in H. rewrite H. cbn [fst]. lia.
Qed.

(** ** Integers *)

(** The seed of the sum, without a bound on the integer. *)
Lemma py_seed_value s : -32 <= s < 96 ->
  let c := s mod 128 in (if Z.land c 0x60 =? 0x60 then Z.lor c (-0x20) else c) = s.
Proof.
  intros Hs.
  assert (H : forallb (fun s => let c := s mod 128 in
     (if Z.land c 0x60 =? 0x60 then Z.lor c (-0x20) else c) =? s) (seqZ (-32) 128) = true) by (vm_compute; reflexivity).
  rewrite forallb_forall in H. apply Z.eqb_eq, H, list_elem_of_In, elem_of_seqZ. lia.
Qed.

Section Steps.
Context (sgn : bool).
Definition py_finish (v : Z) (pos : nat) : res (Z * nat) := Ok (if sgn then v else Z.land v 0xffffffff, pos).

Lemma py_first_cont s x l pos : -32 <= s < 96 -> x = s mod 128 ->
  py_parse_from sgn (u8 (Z.lor x 0x80) :: l) pos = ('(v, pos) ← py_parse_loop s l (S pos); py_finish v pos).
Proof.
  intros Hs ->. destruct (cont_byte (s mod 128)) as (Hr & Hh & Hl & H6); [cint_lia |].
  unfold py_parse_from. rewrite u8_small, Hh, Hl, H6 by done. by rewrite (py_seed_value s).
Qed.

Lemma py_first_last s x l pos : -32 <= s < 96 -> x = s mod 128 -> py_parse_from sgn (u8 x :: l) pos = py_finish s (S pos).
Proof.
  intros Hs ->. destruct (last_byte (s mod 128)) as (Hr & Hh & Hl); [cint_lia |].
  unfold py_parse_from. rewrite u8_small, Hh, Hl by done. by rewrite (py_seed_value s).
Qed.

Lemma py_loop_cont a x l pos : 0 <= x < 128 -> py_parse_loop a (u8 (Z.lor x 0x80) :: l) pos = py_parse_loop (a * 128 + x) l (S pos).
Proof.
  intros Hx. destruct (cont_byte x) as (Hr & Hh & Hl & _); [done |].
  cbn [py_parse_loop]. by rewrite u8_small, Hh, Hl, lor_shift_add by (done || lia).
Qed.

Lemma py_loop_last a x l pos : 0 <= x < 128 -> py_parse_loop a (u8 x :: l) pos = Ok (a * 128 + x, S pos).
Proof.
  intros Hx. destruct (last_byte x) as (Hr & Hh & Hl); [done |].
  cbn [py_parse_loop]. by rewrite u8_small, Hh, Hl, lor_shift_add by (done || lia).
Qed.
End Steps.

(** What the host reads when the micro-controller sent the 32 bits [v]: a
    negative number below [-0x4000000] has its sign lost. *)
Definition py_read (sgn : bool) (v : Z) : Z :=
  if sgn then if s32 v <? -0x4000000 then v else s32 v else v.

Ltac py_steps s :=
  cbn [app];
  first [rewrite (py_first_last _ s) by shift_div | rewrite (py_first_cont _ s) by shift_div];
  repeat first [rewrite py_loop_last by shift_div | rewrite py_loop_cont by shift_div];
  cbn [mbind res_bind].

Ltac py_done := match goal with H : forall _ _ _, _ |- _ => apply H end; [cbn [length]; lia | shift_div | case_match; shift_div].

Lemma py_parse_encoded sgn v rest pos :
  is_u32 v -> py_parse_from sgn (encode_int v ++ rest) pos = Ok (py_read sgn v, (pos + length (encode_int v))%nat).
Proof.
  intros Hv. assert (Hfin : forall a p q, p = q -> u32 a = v -> a = (if s32 v <? -0x4000000 then v else s32 v) ->
    py_finish sgn a p = Ok (py_read sgn v, q)).
  { intros a p q <- Ha Hs. unfold py_finish, py_read. destruct sgn; [by rewrite <- Hs |].
    change 0xffffffff with (Z.ones 32). rewrite Z.land_ones by lia. by rewrite <- Ha. }
  unfold encode_int.
  change (Z.shiftl 3 5) with 96. change (Z.shiftl 1 5) with 32.
  change (Z.shiftl 3 12) with 12288. change (Z.shiftl 1 12) with 4096.
  change (Z.shiftl 3 19) with 1572864. change (Z.shiftl 1 19) with 524288.
  change (Z.shiftl 3 26) with 201326592. change (Z.shiftl 1 26) with 67108864.
  destruct ((s32 v <? 96) && _) eqn:E1; [py_steps (s32 v); py_done |].
  destruct ((s32 v <? 12288) && _) eqn:E2; [py_steps (s32 v / 128); py_done |].
  destruct ((s32 v <? 1572864) && _) eqn:E3; [py_steps (s32 v / 16384); py_done |].
  destruct ((s32 v <? 201326592) && _) eqn:E4; [py_steps (s32 v / 2097152); py_done |].
  py_steps (v / 268435456). py_done.
Qed.

Lemma py_cont x : Z.lor (Z.land x 0x7f) 0x80 = u8 (Z.lor (Z.land x 0x7f) 0x80).
Proof. symmetry. apply u8_small. destruct (cont_byte (Z.land x 0x7f)) as [H _]; [rewrite land7; cint_lia | exact H]. Qed.

Lemma py_last x : Z.land x 0x7f = u8 (Z.land x 0x7f).
Proof. symmetry. apply u8_small. rewrite land7. cint_lia. Qed.

(** The micro-controller reads the integers the Python code writes, signed and
    unsigned ones, modulo [2^32]. *)
Lemma py_encode_reads v : - 2 ^ 31 <= v < 2 ^ 32 -> reads_as (py_encode_int v) (u32 v).
Proof.
  intros Hv rest. unfold py_encode_int.
  rewrite (py_cont (Z.shiftr v 28)), (py_cont (Z.shiftr v 21)), (py_cont (Z.shiftr v 14)), (py_cont (Z.shiftr v 7)), (py_last v).
  destruct ((v >=? 0xc000000) || _) eqn:E4;
    [assert ((v >=? 0x180000) || (v <? -0x80000) = true) as -> by lia |
     destruct ((v >=? 0x180000) || _) eqn:E3];
    [assert ((v >=? 0x3000) || (v <? -0x1000) = true) as -> by lia |
     assert ((v >=? 0x3000) || (v <? -0x1000) = true) as -> by lia |
     destruct ((v >=? 0x3000) || _) eqn:E2];
    [assert ((v >=? 0x60) || (v <? -0x20) = true) as -> by lia..| destruct ((v >=? 0x60) || _) eqn:E1].
  - vlq_steps (v / 268435456).
  - vlq_steps (v / 2097152).
  - vlq_steps (v / 16384).
  - vlq_steps (v / 128).
  - vlq_steps v.
Qed.

Lemma py_encode_length v : (1 <= length (py_encode_int v) <= 5)%nat.
Proof. unfold py_encode_int. rewrite !length_app. repeat case_match; simpl; lia. Qed.

(** ** Commands: Python writes, the micro-controller reads *)

Section Commands.
Context `{B : Board} (command_index : list command_parser).

Definition base_type (t : ptype) : param_type := match t with PT t | Enumeration t _ _ => t end.

(** A value a parameter can take, and the argument it becomes. *)
Definition in_range (v : Z) : Prop := - 2 ^ 31 <= v < 2 ^ 32.

Definition value_ok (t : ptype) (v : pyval) : Prop :=
  match t, v with
  | PT (PT_uint32 | PT_int32 | PT_uint16 | PT_int16 | PT_byte), PInt v => in_range v
  | PT PT_buffer, PBytes data => Z.of_nat (length data) < 256
  | Enumeration t _ enums, PStr name => is_int t = true /\ exists v, dict_get enums name = Some v /\ in_range v
  | _, _ => False
  end.

Definition cval_of (t : ptype) (v : pyval) : cval :=
  match t, v with
  | _, PInt v => CInt (u32 v) (py_encode_int v)
  | _, PBytes data => CBuf data
  | Enumeration _ _ enums, PStr name =>
      let v := default 0 (dict_get enums name) in CInt (u32 v) (py_encode_int v)
  | _, PStr _ => CBuf []
  end.

Lemma type_encode_cval t v : value_ok t v ->
  type_encode t v = Ok (encode_cval (cval_of t v)) /\ cval_typed (base_type t) (cval_of t v).
Proof.
  destruct t as [t | t nm enums], v as [v | data | name]; simpl; try by (intros []).
  - intros H. destruct t; try done; split; try done; by apply py_encode_reads.
  - intros H. by destruct t.
  - by destruct t.
  - intros (Hi & v & E & Hv). rewrite E. cbn [from_option default id]. unfold base_encode. rewrite Hi.
    split; [done |]. pose proof (py_encode_reads v Hv). by destruct t.
Qed.

Lemma encode_types_cvals ts : forall params, Forall2 value_ok ts params ->
  encode_types ts params = Ok (encode_cvals (zip_with cval_of ts params))
  /\ Forall2 cval_typed (base_type <$> ts) (zip_with cval_of ts params).
Proof.
  induction ts as [| t ts IH]; intros params H; inversion H as [| ? v ? vs Hv Hvs]; subst; [by split |].
  destruct (type_encode_cval t v Hv) as [E Ht]. destruct (IH vs Hvs) as [Es Hts].
  cbn [encode_types zip_with fmap list_fmap]. rewrite E, Es. split; [done | by constructor].
Qed.

(** A command of the host: a format and the values of its parameters. *)
Record request := mk_request { r_format : MessageFormat; r_values : list pyval }.

Definition r_types (r : request) : list ptype := snd <$> mf_params (r_format r).

(** The format is that of the command with this number, and the values fit. *)
Definition request_ok (r : request) : Prop :=
  let id := mf_msgid (r_format r) in
  exists cp, 0 < id /\ command_index !! Z.to_nat id = Some cp /\ cp_param_types cp = (base_type <$> r_types r)
    /\ params_words (cp_param_types cp) <= cp_num_args cp /\ Forall2 value_ok (r_types r) (r_values r).

Definition call_of (r : request) : call := mk_call (mf_msgid (r_format r)) (zip_with cval_of (r_types r) (r_values r)).

Lemma format_encode_call r : request_ok r ->
  format_encode (r_format r) (r_values r) = Ok (encode_call (call_of r)) /\ valid_call command_index (call_of r).
Proof.
  intros (cp & Hid & Hcp & Et & Hw & Hv). unfold format_encode. fold (r_types r).
  destruct (encode_types_cvals _ _ Hv) as [E Ht]. rewrite E. split; [done |].
  exists cp. rewrite Et in *. done.
Qed.

End Commands.

(** ** Responses: the micro-controller writes, Python reads *)

Section Responses.
Context `{B : Board}.

(** An argument of [sendf], its wire form, and what the host reads for it. *)
Definition sendable (t : param_type) (a : varg) : Prop :=
  match t, a with
  | (PT_uint32 | PT_int32 | PT_uint16 | PT_int16 | PT_byte), VInt _ => True
  | (PT_progmem_buffer | PT_buffer), VBuf len data => is_u8 len /\ len <= Z.of_nat (length data) /\ Forall is_u8 data
  | _, _ => False
  end.

Definition wire (t : param_type) (a : varg) : list Z :=
  match a with
  | VInt v => encode_int (int_arg t v)
  | VBuf len data => len :: take (Z.to_nat len) data
  | VStr _ => []
  end.

Definition base_got (t : param_type) (a : varg) : pyval :=
  match a with
  | VInt v => PInt (py_read (signed t) (int_arg t v))
  | VBuf len data => PBytes (take (Z.to_nat len) data)
  | VStr data => PBytes data
  end.

Definition got (t : ptype) (a : varg) : pyval :=
  match t, base_got (base_type t) a with
  | Enumeration _ _ enums, PInt v => PStr (default (unknown_value v) (dict_get (reverse_enums enums) v))
  | _, v => v
  end.

Lemma int_arg_range t v : is_u32 (int_arg t v).
Proof. unfold int_arg. repeat case_match; cint_lia. Qed.

(** Unless the message is too long, an argument is stored in full. *)
Lemma encode_param_wire max_size t a args acc acc' args' :
  sendable t a -> encode_param max_size t (a :: args) acc = Ok (acc', args') ->
  args' = args /\ (Z.of_nat (length acc') <= max_size - MESSAGE_MIN -> acc' = acc ++ wire t a).
Proof.
  intros Ha. unfold encode_param. cbv zeta. destruct (_ >? _); [done |].
  destruct a as [v | len data | data]; [by destruct t; intros [= <- <-] | | by destruct t].
  assert (Hb : is_u8 len /\ len <= Z.of_nat (length data)) by (destruct t; simpl in Ha; tauto).
  rewrite (u32_small len) by cint_lia.
  destruct (Z.gtb_spec len (MESSAGE_HEADER_SIZE + (max_size - MESSAGE_MIN) - (MESSAGE_HEADER_SIZE + Z.of_nat (length acc)))).
  - destruct t; try done; (case_match; [done |]); intros [= <- <-]; (split; [done |]);
      rewrite length_app; cbn [length]; rewrite length_take; intros; lia.
  - destruct t; try done; (case_match; [lia |]); intros [= <- <-]; (split; [done |]); intros _; cbn [wire]; by rewrite u8_small by tauto.
Qed.

Lemma encode_params_wire max_size ts : forall args acc payload,
  Forall2 sendable ts args -> encode_params max_size ts args acc = Ok payload ->
  Z.of_nat (length payload) <= max_size - MESSAGE_MIN -> payload = acc ++ concat (zip_with wire ts args).
Proof.
  induction ts as [| t ts IH]; intros args acc payload H E Hl; inversion H as [| ? a ? args' Ha Hs]; subst.
  { injection E as <-. by rewrite app_nil_r. }
  cbn [encode_params] in E. destruct (encode_param max_size t (a :: args') acc) as [[acc' args''] | | |] eqn:Ep; try done.
  cbn [mbind res_bind] in E. destruct (encode_param_wire _ _ _ _ _ _ _ Ha Ep) as [-> Hacc].
  pose proof (IH _ _ _ Hs E Hl) as Hp. rewrite Hacc in Hp by (rewrite Hp, length_app in Hl; lia).
  cbn [zip_with concat]. by rewrite app_assoc.
Qed.

(** Only numbers have names. *)
Definition shape_ok (t : ptype) : Prop := match t with PT _ => True | Enumeration t _ _ => is_int t = true end.

Lemma base_parse_wire t a pre post : sendable t a ->
  base_parse t (pre ++ wire t a ++ post) (length pre) = Ok (base_got t a, (length pre + length (wire t a))%nat).
Proof.
  intros Ha. unfold base_parse. destruct a as [v | len data | data]; [| | by destruct t].
  - assert (is_int t = true) as -> by (by destruct t). unfold py_parse_int. rewrite drop_app_length. cbn [wire base_got].
    by rewrite py_parse_encoded by apply int_arg_range.
  - assert (is_int t = false) as -> by (by destruct t). cbn [wire base_got app]. rewrite list_lookup_middle by done.
    assert (Hb : is_u8 len /\ len <= Z.of_nat (length data)) by (destruct t; simpl in Ha; tauto). destruct Hb as [Hu Hlen].
    unfold is_u8 in Hu. assert (Hlt : length (take (Z.to_nat len) data) = Z.to_nat len) by (rewrite length_take; lia).
    replace (drop (S (length pre)) (pre ++ len :: take (Z.to_nat len) data ++ post)) with (take (Z.to_nat len) data ++ post)
      by (rewrite drop_app_ge by lia; by replace (S (length pre) - length pre)%nat with 1%nat by lia).
    rewrite <- Hlt at 1. rewrite take_app_length. cbn [length]. rewrite Hlt. do 2 f_equal. lia.
Qed.

Lemma type_parse_wire t a pre post : shape_ok t -> sendable (base_type t) a ->
  type_parse t (pre ++ wire (base_type t) a ++ post) (length pre)
  = Ok (got t a, (length pre + length (wire (base_type t) a))%nat).
Proof.
  intros Hs Ha. destruct t as [t | t nm enums]; cbn [type_parse base_type got]; rewrite base_parse_wire by done; [done |].
  cbn [mbind res_bind]. destruct a as [v | |]; [done | by destruct t..].
Qed.

Lemma parse_params_wire ps : forall args pre post,
  Forall shape_ok (snd <$> ps) -> Forall2 sendable (base_type <$> (snd <$> ps)) args ->
  let ws := concat (zip_with wire (base_type <$> (snd <$> ps)) args) in
  parse_params ps (pre ++ ws ++ post) (length pre)
  = Ok (zip (fst <$> ps) (zip_with got (snd <$> ps) args), (length pre + length ws)%nat).
Proof.
  induction ps as [| [nm t] ps IH]; intros args pre post Hs H; inversion H as [| ? a ? args' Ha Has]; subst.
  { simpl. by rewrite Nat.add_0_r. }
  cbn [fmap list_fmap snd fst zip_with concat parse_params]. cbv zeta. apply Forall_cons in Hs as [Ht Hs].
  rewrite <- app_assoc, type_parse_wire by done. cbn [mbind res_bind].
  pose proof (IH args' (pre ++ wire (base_type t) a) post Hs Has) as E. cbv zeta in E.
  rewrite length_app, <- app_assoc in E. rewrite E. cbn [mbind res_bind]. rewrite length_app. do 2 f_equal. lia.
Qed.
Lemma wire_u8 t a : sendable t a -> Forall is_u8 (wire t a).
Proof.
  destruct a as [v | len data | data]; [intros _; apply encode_int_u8 | | by destruct t].
  intros H. assert (Hb : is_u8 len /\ Forall is_u8 data) by (destruct t; simpl in H; tauto).
  constructor; [tauto | apply Forall_take, Hb].
Qed.

Lemma wires_u8 ts : forall args, Forall2 sendable ts args -> Forall is_u8 (concat (zip_with wire ts args)).
Proof.
  induction ts as [| t ts IH]; intros args H; inversion H; subst; [constructor |].
  cbn [zip_with concat]. apply Forall_app. split; [by apply wire_u8 | by apply IH].
Qed.

End Responses.

(** ** Findings *)

(** A number below [-0x4000000] loses its sign on the way to the host, although
    its parameter is a signed one. *)
Lemma negative_response_misread v pos rest :
  - 2 ^ 31 <= v < -0x4000000 ->
  py_parse_from (signed PT_int32) (encode_int (u32 v) ++ rest) pos = Ok (v + 2 ^ 32, (pos + length (encode_int (u32 v)))%nat).
Proof.
  intros Hv. rewrite py_parse_encoded by apply u32_range. do 2 f_equal. cbn [signed py_read].
  assert ((s32 (u32 v) <? -0x4000000) = true) as -> by (unfold s32; apply Z.ltb_lt; cint_lia). cint_lia.
Qed.

(** A doubled percent sign, which stands for itself, makes the format invalid. *)
Lemma doubled_percent_refused : lookup_output_params "done 50%% of %u" = Shut "Invalid output format".
Proof. vm_compute. reflexivity. Qed.

(** [MessageParser.encode] puts the checksum into the block as one element. *)
Lemma parser_encode_nested seq cmd : exists l, Nested l ∈ parser_encode seq cmd.
Proof. eexists. unfold parser_encode. apply elem_of_app. right. apply list_elem_of_here. Qed.

(** ** Examples *)

Section Example.
#[local] Existing Instance demo_board.

Definition pins : list (string * list (string * Z)) := [("pin", [("PA0", 0); ("PA1", 1)])].

Definition demo_format : MessageFormat :=
  match new_format 1 "config_out oid=%c pin=%u rate=%i data=%*s" pins with Ok mf => mf | _ => mk_format 0 "" "" [] end.

Definition demo_commands : list command_parser :=
  [mk_parser 0 0 [] (fun _ => mret tt);
   mk_parser 5 0 [PT_byte; PT_uint32; PT_int32; PT_buffer]
     (fun args => set_con (fun c => c <| receive_pos := default 0 (args !! 2%nat) |>))].

Definition demo_request : request := mk_request demo_format [PInt 3; PStr "PA1"; PInt (-70000000); PBytes [9; 8]].

Lemma demo_request_ok : request_ok demo_commands demo_request.
Proof.
  eexists. split; [vm_compute; reflexivity |]. split; [vm_compute; reflexivity |].
  split; [vm_compute; reflexivity |]. split; [vm_compute; intuition congruence |].
  change (r_types demo_request) with [PT PT_byte; Enumeration PT_uint32 "pin" [("PA0", 0); ("PA1", 1)]; PT PT_int32; PT PT_buffer].
  repeat constructor; try (unfold in_range; lia); try (simpl; lia).
  exists 1. split; [vm_compute; reflexivity | unfold in_range; lia].
Qed.


Lemma check_packet_agrees_witness :
  let buf := command_add_frame 0x15 8 [1; 2; 3] ++ [9] in
  check_packet buf = Z.max (-1) (msgblock_check false buf).1
  /\ forall n, 0 < n -> check_packet buf = n <-> exists q payload rest, framed buf n q payload rest.
Proof. intros buf. apply check_packet_agrees. vm_decide. Defined.

Definition demo_parser : MessageParser :=
  match init_messages (mk_msgparser pins [] []) [("state oid=%c pin=%u pos=%i data=%*s", 7); ("starting", 8)] [] [] with
  | Ok p => p
  | _ => mk_msgparser [] [] []
  end.

Definition demo_state_encoder : command_encoder := mk_encoder 7 64 [PT_byte; PT_uint32; PT_int32; PT_buffer].
Definition demo_args : list varg := [VInt 4; VInt 0; VInt (-5); VBuf 2 [10; 11; 12]].

End Example.
