(* ===== verification/Stepcompress.v ===== *)
(** * Stepcompress: the step pulse compressor of the host

    Models the compression half of [src/klippy/chelper/stepcompress.c]: the
    queue of requested step clocks, the search for a quadratic sequence that
    covers a prefix of it, the check of that sequence, and the generation of
    [queue_step] commands with their history.

    The signed 32-bit arithmetic of the search is undefined when it overflows;
    it is modelled by a [Fault].  The theorems relate the emitted commands to
    the step times the micro-controller derives from them ([Stepper.plan]). *)

From S2P Require Import Prelude Wire State Command Stepper Double Msgblock.
Import Vlq.

Definition CHECK_LINES : Z := 1.
Definition QUEUE_START_SIZE : Z := 1024.
Definition ERROR_RET : Z := -989898989.
Definition UINT64_MAX : Z := 2 ^ 64 - 1.
Definition INT32_MIN : Z := - 2 ^ 31.
Definition CLOCK_DIFF_MAX : Z := Z.shiftl 3 28.
Definition QUADRATIC_DEV : Z := 11.
Definition HISTORY_EXPIRE : double := d_of_Z 30.
Definition SDS_FILTER_TIME : double := d_lit 75 100000.

Record history_steps := mk_hs {
  hs_first_clock : Z;
  hs_last_clock : Z;
  hs_start_position : Z;
  hs_step_count : Z;
  hs_interval : Z;
  hs_add : Z
}.

(** [struct stepcompress].  [sc_queue] is the allocated array
    [queue .. queue_end]; [queue_pos] and [queue_next] are indices into it. *)
Record stepcompress := mk_sc {
  sc_queue : list Z;
  queue_pos : nat;
  queue_next : nat;
  max_error : Z;
  mcu_time_offset : double;
  mcu_freq : double;
  last_step_print_time : double;
  last_step_clock : Z;
  msg_queue : list queue_message;
  sc_oid : Z;
  queue_step_msgtag : Z;
  set_next_step_dir_msgtag : Z;
  sdir : Z;
  invert_sdir : Z;
  next_step_clock : Z;
  next_step_dir : Z;
  last_position : Z;
  history_list : list history_steps
}.
#[export] Instance stepcompress_eta : Eta stepcompress := fun r =>
  mk_sc (sc_queue r) (queue_pos r) (queue_next r) (max_error r) (mcu_time_offset r) (mcu_freq r)
    (last_step_print_time r) (last_step_clock r) (msg_queue r) (sc_oid r) (queue_step_msgtag r)
    (set_next_step_dir_msgtag r) (sdir r) (invert_sdir r) (next_step_clock r) (next_step_dir r)
    (last_position r) (history_list r).

Definition queue_end (sc : stepcompress) : nat := length (sc_queue sc).

(** [struct step_move]: [uint32_t interval], [uint16_t count], [int16_t add]. *)
Record step_move := mk_move { mv_interval : Z; mv_count : Z; mv_add : Z }.

Definition to_move (interval count add : Z) : step_move :=
  mk_move (u32 interval) (u16 count) (s16 add).

(** A signed 32-bit result. *)
Definition i32 (z : Z) : res Z :=
  if (- 2 ^ 31 <=? z) && (z <? 2 ^ 31) then Ok z else Fault "signed overflow".

(** ** Step compression *)

Definition idiv_up (n d : Z) : res Z :=
  if n >=? 0 then s ← i32 (n + d); Ok (Z.quot (s - 1) d) else Ok (Z.quot n d).

Definition idiv_down (n d : Z) : res Z :=
  if n >=? 0 then Ok (Z.quot n d) else s ← i32 (n - d); Ok (Z.quot (s + 1) d).

Definition queue_read (sc : stepcompress) (pos : nat) : res Z :=
  match sc_queue sc !! pos with Some v => Ok v | None => Fault "queue read" end.

(** [minmax_point]: the pair [(minp, maxp)]. *)
Definition minmax_point (sc : stepcompress) (pos : nat) : res (Z * Z) :=
  q ← queue_read sc pos;
  let lsc := u32 (last_step_clock sc) in
  let point := u32 (q - lsc) in
  prevpoint ← (if (queue_pos sc <? pos)%nat
               then q' ← queue_read sc (pos - 1); Ok (u32 (q' - lsc)) else Ok 0);
  let me := u32 (point - prevpoint) / 2 in
  let me := if me >? max_error sc then max_error sc else me in
  Ok (s32 (u32 (point - me)), s32 point).

(** Outcome of the inner loop: the whole queue is covered, or the sequence
    with this [add] ends before point [nextcount]. *)
Inductive scan :=
| Covered (m : step_move)
| Stopped (nextcount nextmin nextmax interval minp maxp : Z).

(** The inner [for (;;)] of [compress_bisect_add]. *)
Fixpoint scan_add (fuel : nat) (sc : stepcompress) (qlast : nat)
    (add nextcount nextmin nextmax interval : Z) : res scan :=
  match fuel with
  | O => OutOfFuel
  | S fuel =>
      let nextcount := nextcount + 1 in
      let pos := (queue_pos sc + Z.to_nat (nextcount - 1))%nat in
      if (qlast <=? pos)%nat then Ok (Covered (to_move interval (nextcount - 1) add))
      else
        '(minp, maxp) ← minmax_point sc pos;
        f ← i32 (nextcount * (nextcount - 1));
        let nextaddfactor := Z.quot f 2 in
        c ← i32 (add * nextaddfactor);
        lo ← i32 (nextmin * nextcount);
        dlo ← i32 (minp - c);
        nextmin ← (if lo <? dlo then idiv_up dlo nextcount else Ok nextmin);
        hi ← i32 (nextmax * nextcount);
        dhi ← i32 (maxp - c);
        nextmax ← (if hi >? dhi then idiv_down dhi nextcount else Ok nextmax);
        if nextmin >? nextmax then Ok (Stopped nextcount nextmin nextmax interval minp maxp)
        else scan_add fuel sc qlast add nextcount nextmin nextmax nextmax
  end.

(** The variables of the outer loop. *)
Record bisect := mk_bisect {
  outer_mininterval : Z; outer_maxinterval : Z;
  bi_add : Z; minadd : Z; maxadd : Z;
  bestinterval : Z; bestcount : Z; bestadd : Z; bestreach : Z;
  zerointerval : Z; zerocount : Z
}.
#[export] Instance bisect_eta : Eta bisect := fun r =>
  mk_bisect (outer_mininterval r) (outer_maxinterval r) (bi_add r) (minadd r) (maxadd r)
    (bestinterval r) (bestcount r) (bestadd r) (bestreach r) (zerointerval r) (zerocount r).

(** "Check if this is the best sequence found so far": the new best and
    whether the search ends. *)
Definition bisect_best (b : bisect) (count interval reach : Z) : bisect * bool :=
  if (reach >? bestreach b) || ((reach =? bestreach b) && (interval >? bestinterval b)) then
    let zero := bi_add b =? 0 in
    (mk_bisect (outer_mininterval b) (outer_maxinterval b) (bi_add b) (minadd b) (maxadd b)
       interval count (bi_add b) reach
       (if zero then interval else zerointerval b) (if zero then count else zerocount b),
     count >? 0x200)
  else (b, false).

(** The restriction of the [add] range after a sequence that stopped. *)
Definition bisect_range (sc : stepcompress) (b : bisect)
    (count nextcount nextmin nextmax interval minp maxp : Z) : res bisect :=
  let add := bi_add b in
  f ← i32 (nextcount * (nextcount - 1));
  let nextaddfactor := Z.quot f 2 in
  a ← i32 (add * nextaddfactor);
  i ← i32 (interval * nextcount);
  nextreach ← i32 (a + i);
  let b := if nextreach <? minp
           then b <| minadd := add + 1 |> <| outer_maxinterval := nextmax |>
           else b <| maxadd := add - 1 |> <| outer_mininterval := nextmin |> in
  b ← (if count >? 1 then
         cc ← i32 (count * count);
         let errdelta := s32 (u32 (max_error sc * QUADRATIC_DEV) / u32 cc) in
         lo ← i32 (add - errdelta);
         let b := if minadd b <? lo then b <| minadd := lo |> else b in
         hi ← i32 (add + errdelta);
         Ok (if maxadd b >? hi then b <| maxadd := hi |> else b)
       else Ok b);
  c ← i32 (outer_maxinterval b * nextcount);
  m ← i32 (minadd b * nextaddfactor);
  d ← i32 (minp - c);
  lo ← (if m <? d then idiv_up d nextaddfactor else Ok (minadd b));
  let b := b <| minadd := lo |> in
  c ← i32 (outer_mininterval b * nextcount);
  m ← i32 (maxadd b * nextaddfactor);
  d ← i32 (maxp - c);
  hi ← (if m >? d then idiv_down d nextaddfactor else Ok (maxadd b));
  Ok (b <| maxadd := hi |>).

(** The end of [compress_bisect_add]. *)
Definition bisect_pick (b : bisect) : step_move :=
  if zerocount b + Z.quot (zerocount b) 16 >=? bestcount b
  then to_move (zerointerval b) (zerocount b) 0
  else to_move (bestinterval b) (bestcount b) (bestadd b).

(** The outer [for (;;)]. *)
Fixpoint bisect_loop (fuel : nat) (sc : stepcompress) (qlast : nat) (b : bisect) : res step_move :=
  match fuel with
  | O => OutOfFuel
  | S fuel =>
      r ← scan_add (S (qlast - queue_pos sc)) sc qlast (bi_add b) 1 (outer_mininterval b)
            (outer_maxinterval b) (outer_maxinterval b);
      match r with
      | Covered m => Ok m
      | Stopped nextcount nextmin nextmax interval minp maxp =>
          let count := nextcount - 1 in
          f ← i32 (count * (count - 1));
          a ← i32 (bi_add b * Z.quot f 2);
          i ← i32 (interval * count);
          reach ← i32 (a + i);
          let '(b, stop) := bisect_best b count interval reach in
          if stop then Ok (bisect_pick b)
          else
            b ← bisect_range sc b count nextcount nextmin nextmax interval minp maxp;
            if minadd b >? maxadd b then Ok (bisect_pick b)
            else bisect_loop fuel sc qlast
                   (b <| bi_add := maxadd b - Z.quot (maxadd b - minadd b) 4 |>)
      end
  end.

(** The range of [add] starts with 2^16 values and shrinks in every turn. *)
Definition BISECT_FUEL : nat := Z.to_nat 65537.

Definition compress_bisect_add (sc : stepcompress) : res step_move :=
  let qlast := Nat.min (queue_next sc) (queue_pos sc + Z.to_nat 65535) in
  '(minp, maxp) ← minmax_point sc (queue_pos sc);
  bisect_loop BISECT_FUEL sc qlast (mk_bisect minp maxp 0 (-0x8000) 0x7fff 0 1 1 INT32_MIN 0 0).

(** ** Step compress checking *)

(** The loop of [check_line]. *)
Fixpoint check_points (n : nat) (sc : stepcompress) (add : Z) (i : nat) (interval p : Z) : res Z :=
  match n with
  | O => Ok 0
  | S n =>
      '(minp, maxp) ← minmax_point sc (queue_pos sc + i);
      let p := u32 (p + interval) in
      if (p <? u32 minp) || (p >? u32 maxp) then Ok ERROR_RET
      else if interval >=? 0x80000000 then Ok ERROR_RET
      else check_points n sc add (S i) (u32 (interval + add)) p
  end.

(** [check_line].  The report of an invalid sequence reads [*queue_end], one
    past the allocated array. *)
Definition check_line (sc : stepcompress) (move : step_move) : res Z :=
  if CHECK_LINES =? 0 then Ok 0
  else if (mv_count move =? 0)
          || ((mv_interval move =? 0) && (mv_add move =? 0) && (mv_count move >? 1))
          || (mv_interval move >=? 0x80000000)
  then Fault "read of *queue_end"
  else check_points (Z.to_nat (mv_count move)) sc (mv_add move) 0 (mv_interval move) 0.

(** ** Step compress interface *)

(** Operations that report errors return the C [int]; the object is the
    state. *)
Abbreviation SC := (M stepcompress).

Definition stepcompress_alloc (oid : Z) : stepcompress :=
  mk_sc [] 0 0 0 d_zero d_zero d_zero 0 [] oid 0 0 (-1) 0 0 0 0 [].

Definition stepcompress_fill (me queue_step_tag set_next_step_dir_tag : Z) : SC unit :=
  modify (fun sc => sc <| max_error := me |> <| queue_step_msgtag := queue_step_tag |>
                       <| set_next_step_dir_msgtag := set_next_step_dir_tag |>).

Definition stepcompress_set_invert_sdir (inv : Z) : SC unit :=
  let inv := b2z (truth inv) in
  sc ← gets id;
  if negb (inv =? invert_sdir sc) then
    modify (fun sc => sc <| invert_sdir := inv |>) ;;
    when (sdir sc >=? 0) (modify (fun sc => sc <| sdir ::= fun d => Z.lxor d 1 |>))
  else mret tt.

(** [free_history]: entries leave from the old end of the list while they
    ended at or before [end_clock]. *)
Fixpoint expire (end_clock : Z) (l : list history_steps) : list history_steps :=
  match l with
  | [] => []
  | hs :: l =>
      match expire end_clock l with
      | [] => if hs_last_clock hs >? end_clock then [hs] else []
      | l' => hs :: l'
      end
  end.

Definition free_history (end_clock : Z) : SC unit :=
  modify (fun sc => sc <| history_list ::= expire end_clock |>).

(** [stepcompress_free] releases the array, the messages and the history. *)
Definition stepcompress_free : SC unit :=
  modify (fun sc => sc <| sc_queue := [] |> <| msg_queue := [] |>) ;; free_history UINT64_MAX.

Definition stepcompress_get_oid (sc : stepcompress) : Z := sc_oid sc.
Definition stepcompress_get_step_dir (sc : stepcompress) : Z := next_step_dir sc.

Definition calc_last_step_print_time : SC unit :=
  sc ← gets id;
  let lsc := d_of_Z (last_step_clock sc) in
  modify (fun sc => sc <| last_step_print_time :=
            dadd (mcu_time_offset sc) (ddiv (dsub lsc d_half) (mcu_freq sc)) |>) ;;
  let expire_ticks := dmul (mcu_freq sc) HISTORY_EXPIRE in
  if dlt expire_ticks lsc then
    end_clock ← lift_res (d_to_u64 (dsub lsc expire_ticks));
    free_history end_clock
  else mret tt.

Definition stepcompress_set_time (time_offset freq : double) : SC unit :=
  modify (fun sc => sc <| mcu_time_offset := time_offset |> <| mcu_freq := freq |>) ;;
  calc_last_step_print_time.

(** [add_move]: a [queue_step] command and its history entry. *)
Definition add_move (first_clock : Z) (move : step_move) : SC unit :=
  sc ← gets id;
  f ← lift_res (i32 (mv_count move * (mv_count move - 1)));
  let addfactor := Z.quot f 2 in
  a ← lift_res (i32 (mv_add move * addfactor));
  let ticks := u32 (a + mv_interval move * (mv_count move - 1)) in
  let last_clock := u64 (first_clock + ticks) in
  qm ← lift_res (message_alloc_and_encode
         [u32 (queue_step_msgtag sc); sc_oid sc; mv_interval move; mv_count move; u32 (mv_add move)]);
  let qm := qm <| qm_min_clock := last_step_clock sc |> <| qm_req_clock := last_step_clock sc |> in
  let qm := if (mv_count move =? 1) && (first_clock >=? u64 (last_step_clock sc + CLOCK_DIFF_MAX))
            then qm <| qm_req_clock := first_clock |> else qm in
  let step_count := if truth (sdir sc) then mv_count move else - mv_count move in
  let hs := mk_hs first_clock last_clock (last_position sc) step_count
              (s32 (mv_interval move)) (mv_add move) in
  modify (fun sc => sc <| msg_queue ::= fun q => q ++ [qm] |> <| last_step_clock := last_clock |>
                       <| last_position ::= fun p => s64 (p + step_count) |>
                       <| history_list ::= cons hs |>).

(** The [while] of [queue_flush].  The result tells an early [return ret]
    ([Some ret]) from a finished loop. *)
Fixpoint queue_flush_loop (fuel : nat) (move_clock : Z) : SC (option Z) :=
  sc ← gets id;
  if last_step_clock sc <? move_clock then
    match fuel with
    | O => lift_res OutOfFuel
    | S fuel =>
        move ← lift_res (compress_bisect_add sc);
        ret ← lift_res (check_line sc move);
        if truth ret then mret (Some ret)
        else
          add_move (u64 (last_step_clock sc + mv_interval move)) move ;;
          if (queue_next sc <=? queue_pos sc + Z.to_nat (mv_count move))%nat then
            modify (fun sc => sc <| queue_pos := 0%nat |> <| queue_next := 0%nat |>) ;; mret None
          else
            modify (fun sc => sc <| queue_pos ::= fun p => (p + Z.to_nat (mv_count move))%nat |>) ;;
            queue_flush_loop fuel move_clock
    end
  else mret None.

(** [queue_flush]: every turn of the loop consumes at least one step, so the
    number of queued steps bounds the turns. *)
Definition queue_flush (move_clock : Z) : SC Z :=
  sc ← gets id;
  if (queue_next sc <=? queue_pos sc)%nat then mret 0
  else
    r ← queue_flush_loop (queue_next sc - queue_pos sc) move_clock;
    match r with
    | Some ret => mret ret
    | None => calc_last_step_print_time ;; mret 0
    end.

Definition stepcompress_flush_far (abs_step_clock : Z) : SC Z :=
  lsc ← gets last_step_clock;
  add_move abs_step_clock (to_move (abs_step_clock - lsc) 1 0) ;;
  calc_last_step_print_time ;;
  mret 0.

(** The static [set_next_step_dir]; the argument is [sdir]. *)
Definition sc_set_next_step_dir (dir : Z) : SC Z :=
  sc ← gets id;
  if sdir sc =? dir then mret 0
  else
    ret ← queue_flush UINT64_MAX;
    if truth ret then mret ret
    else
      modify (fun sc => sc <| sdir := dir |>) ;;
      sc ← gets id;
      qm ← lift_res (message_alloc_and_encode
             [u32 (set_next_step_dir_msgtag sc); sc_oid sc; u32 (Z.lxor dir (invert_sdir sc))]);
      let qm := qm <| qm_req_clock := last_step_clock sc |> in
      modify (fun sc => sc <| msg_queue ::= fun q => q ++ [qm] |>) ;;
      mret 0.

(** [*sc->queue_next++ = clock]: a store into the allocated array. *)
Definition queue_store (clock : Z) : SC unit :=
  sc ← gets id;
  if (queue_next sc <? queue_end sc)%nat then
    modify (fun sc => sc <| sc_queue ::= <[queue_next sc := u32 clock]> |>
                         <| queue_next ::= S |>)
  else fault "write past queue_end".

Definition queue_append_far : SC Z :=
  sc ← gets id;
  let step_clock := next_step_clock sc in
  modify (fun sc => sc <| next_step_clock := 0 |>) ;;
  ret ← queue_flush (u64 (step_clock - CLOCK_DIFF_MAX + 1));
  if truth ret then mret ret
  else
    lsc ← gets last_step_clock;
    if step_clock >=? u64 (lsc + CLOCK_DIFF_MAX) then stepcompress_flush_far step_clock
    else queue_store step_clock ;; mret 0.

(** [while (in_use >= alloc) alloc *= 2;] *)
Fixpoint grow (fuel : nat) (in_use alloc : nat) : res nat :=
  if (alloc <=? in_use)%nat then
    match fuel with
    | O => OutOfFuel
    | S fuel => grow fuel in_use (alloc * 2)
    end
  else Ok alloc.

(** Make room in the queue.  The words [realloc] adds are indeterminate; they
    are written before they are read. *)
Definition queue_make_room : SC unit :=
  sc ← gets id;
  if (queue_end sc <=? queue_next sc)%nat then
    let in_use := (queue_next sc - queue_pos sc)%nat in
    (if (0 <? queue_pos sc)%nat then
       modify (fun sc => sc <| sc_queue ::= fun q =>
         take in_use (drop (queue_pos sc) q) ++ drop in_use q |>)
     else
       let alloc := queue_end sc in
       let alloc := if (alloc =? 0)%nat then Z.to_nat QUEUE_START_SIZE else alloc in
       alloc ← lift_res (grow (S in_use) in_use alloc);
       modify (fun sc => sc <| sc_queue ::= fun q => q ++ replicate (alloc - length q) 0 |>)) ;;
    modify (fun sc => sc <| queue_pos := 0%nat |> <| queue_next := in_use |>)
  else mret tt.

Definition queue_append_extend : SC Z :=
  sc ← gets id;
  ret ← (if 65535 + 2000 <? Z.of_nat (queue_next sc - queue_pos sc) then
           q ← lift_res (queue_read sc (queue_next sc - Z.to_nat 65535));
           let flush := u32 (q - u32 (last_step_clock sc)) in
           queue_flush (u64 (last_step_clock sc + flush))
         else mret 0);
  if truth ret then mret ret
  else
    queue_make_room ;;
    clock ← gets next_step_clock;
    queue_store clock ;;
    modify (fun sc => sc <| next_step_clock := 0 |>) ;;
    mret 0.

Definition queue_append : SC Z :=
  sc ← gets id;
  ret ← (if negb (next_step_dir sc =? sdir sc) then sc_set_next_step_dir (next_step_dir sc) else mret 0);
  if truth ret then mret ret
  else
    sc ← gets id;
    if next_step_clock sc >=? u64 (last_step_clock sc + CLOCK_DIFF_MAX) then queue_append_far
    else if (queue_end sc <=? queue_next sc)%nat then queue_append_extend
    else
      queue_store (next_step_clock sc) ;;
      modify (fun sc => sc <| next_step_clock := 0 |>) ;;
      mret 0.

(** [stepcompress_append]; the argument [dir] is [sdir]. *)
Definition stepcompress_append (dir : Z) (print_time step_time : double) : SC Z :=
  sc ← gets id;
  let offset := dsub print_time (last_step_print_time sc) in
  let rel_sc := dmul (dadd step_time offset) (mcu_freq sc) in
  rel ← lift_res (d_to_u64 rel_sc);
  let step_clock := u64 (last_step_clock sc + rel) in
  let store := modify (fun sc => sc <| next_step_clock := step_clock |> <| next_step_dir := dir |>) ;;
               mret 0 in
  if truth (next_step_clock sc) then
    let diff := d_of_Z (s64 (u64 (step_clock - next_step_clock sc))) in
    if negb (dir =? next_step_dir sc) && dlt diff (dmul SDS_FILTER_TIME (mcu_freq sc)) then
      modify (fun sc => sc <| next_step_clock := 0 |> <| next_step_dir := dir |>) ;;
      mret 0
    else
      ret ← queue_append;
      if truth ret then mret ret else store
  else store.

Definition stepcompress_commit : SC Z :=
  clock ← gets next_step_clock;
  if truth clock then queue_append else mret 0.

Definition stepcompress_flush (move_clock : Z) : SC Z :=
  clock ← gets next_step_clock;
  ret ← (if truth clock && (move_clock >=? clock) then queue_append else mret 0);
  if truth ret then mret ret else queue_flush move_clock.

Definition stepcompress_reset (clock : Z) : SC Z :=
  ret ← stepcompress_flush UINT64_MAX;
  if truth ret then mret ret
  else
    modify (fun sc => sc <| last_step_clock := clock |> <| sdir := -1 |>) ;;
    calc_last_step_print_time ;;
    mret 0.

Definition stepcompress_set_last_position (clock pos : Z) : SC Z :=
  ret ← stepcompress_flush UINT64_MAX;
  if truth ret then mret ret
  else
    modify (fun sc => sc <| last_position := pos |>
                         <| history_list ::= cons (mk_hs clock clock pos 0 0 0) |>) ;;
    mret 0.

(** Steps done in a history entry at a clock inside it. *)
Definition past_offset (hs : history_steps) (clock : Z) : res Z :=
  let interval := hs_interval hs in
  let add := hs_add hs in
  ticks ← i32 (s32 (u64 (clock - hs_first_clock hs)) + interval);
  if add =? 0 then
    if interval =? 0 then Fault "division by zero" else Ok (Z.quot ticks interval)
  else
    let a := dmul d_half (d_of_Z add) in
    let b := dsub (d_of_Z interval) (dmul d_half (d_of_Z add)) in
    let c := d_of_Z (- ticks) in
    d_to_s32 (ddiv (dsub (dsqrt (dsub (dmul b b) (dmul (dmul (d_of_Z 4) a) c))) b)
                   (dmul (d_of_Z 2) a)).

Fixpoint past_position (l : list history_steps) (clock pos : Z) : res Z :=
  match l with
  | [] => Ok pos
  | hs :: l =>
      if clock <? hs_first_clock hs then past_position l clock (hs_start_position hs)
      else if clock >=? hs_last_clock hs then Ok (hs_start_position hs + hs_step_count hs)
      else
        offset ← past_offset hs clock;
        Ok (if hs_step_count hs <? 0 then hs_start_position hs - offset
            else hs_start_position hs + offset)
  end.

Definition stepcompress_find_past_position (clock : Z) (sc : stepcompress) : res Z :=
  past_position (history_list sc) clock (last_position sc).

Definition stepcompress_queue_msg (data : list Z) : SC Z :=
  ret ← stepcompress_flush UINT64_MAX;
  if truth ret then mret ret
  else
    qm ← lift_res (message_alloc_and_encode data);
    lsc ← gets last_step_clock;
    let qm := qm <| qm_req_clock := lsc |> in
    modify (fun sc => sc <| msg_queue ::= fun q => q ++ [qm] |>) ;;
    mret 0.

(** [stepcompress_extract_old]: the entries stored through [p]. *)
Fixpoint extract_old (l : list history_steps) (room : nat) (start_clock end_clock : Z)
    : list history_steps :=
  match l, room with
  | hs :: l, S room' =>
      if start_clock >=? hs_last_clock hs then []
      else if end_clock <=? hs_first_clock hs then extract_old l room start_clock end_clock
      else hs :: extract_old l room' start_clock end_clock
  | _, _ => []
  end.

Definition stepcompress_extract_old (sc : stepcompress) (max start_clock end_clock : Z)
    : list history_steps :=
  extract_old (history_list sc) (Z.to_nat max) start_clock end_clock.

(** ** The search terminates and stays in the queue *)

Lemma i32_sat z : rsat (fun z' => z' = z) (i32 z).
Proof. unfold i32. by case_match. Qed.

(** Run a 32-bit operation of the search. *)
Ltac step_i32 x :=
  eapply rsat_bind; [apply i32_sat |]; intros x ->; cbv zeta.

Lemma idiv_up_sat n d : 0 < d -> rsat (fun q => n <= q * d) (idiv_up n d).
Proof.
  intros Hd. unfold idiv_up. destruct (Z.geb_spec n 0).
  - step_i32 s. cbn [rsat]. rewrite Z.quot_div_nonneg by lia. Z.div_mod_to_equations. nia.
  - cbn [rsat]. pose proof (Z.quot_rem' n d). pose proof (Z.rem_bound_pos_neg n d). nia.
Qed.

Lemma idiv_down_sat n d : 0 < d -> rsat (fun q => q * d <= n) (idiv_down n d).
Proof.
  intros Hd. unfold idiv_down. destruct (Z.geb_spec n 0).
  - cbn [rsat]. rewrite Z.quot_div_nonneg by lia. Z.div_mod_to_equations. nia.
  - step_i32 s. cbn [rsat]. pose proof (Z.quot_rem' (n - d + 1) d).
    pose proof (Z.rem_bound_pos_neg (n - d + 1) d). nia.
Qed.

(** The sum of the first [k] integers. *)
Lemma tri_quot k : 0 <= k -> Z.quot (k * (k - 1)) 2 = k * (k - 1) / 2.
Proof. intros. rewrite Z.quot_div_nonneg by nia. done. Qed.

Lemma tri_pos k : 2 <= k -> 1 <= Z.quot (k * (k - 1)) 2.
Proof. intros. rewrite tri_quot by lia. apply Z.div_le_lower_bound; nia. Qed.

Lemma queue_read_sat sc pos : rsat (fun q => sc_queue sc !! pos = Some q) (queue_read sc pos).
Proof. unfold queue_read. by destruct (sc_queue sc !! pos). Qed.

Lemma minmax_point_sat sc pos : rsat (fun _ => True) (minmax_point sc pos).
Proof.
  unfold minmax_point. eapply rsat_bind; [apply queue_read_sat |]. intros q _. cbv zeta.
  eapply (rsat_bind (fun _ => True)); [| done].
  destruct (_ <? _)%nat; [| done]. eapply rsat_bind; [apply queue_read_sat |]. done.
Qed.

(** What the inner loop can answer for a queue of [n] steps. *)
Definition scan_ok (n : nat) (add : Z) (r : scan) : Prop :=
  match r with
  | Covered m => 1 <= mv_count m <= Z.of_nat n /\ mv_interval m = u32 (mv_interval m)
                 /\ mv_add m = s16 add
  | Stopped nextcount _ _ _ _ _ => 2 <= nextcount <= Z.of_nat n
  end.

Lemma scan_add_sat fuel sc qlast add nextcount nextmin nextmax interval :
  let n := (qlast - queue_pos sc)%nat in
  Z.of_nat n <= 65535 -> 1 <= nextcount <= Z.of_nat n -> (n < Z.to_nat nextcount + fuel)%nat ->
  rsat (scan_ok n add) (scan_add fuel sc qlast add nextcount nextmin nextmax interval).
Proof.
  cbv zeta. set (n := (qlast - queue_pos sc)%nat). intros Hn.
  revert nextcount nextmin nextmax interval.
  induction fuel as [| fuel IH]; intros nextcount nextmin nextmax interval Hc Hf; [lia |].
  cbn [scan_add]. destruct (Nat.leb_spec qlast (queue_pos sc + Z.to_nat (nextcount + 1 - 1))) as [Hq | Hq].
  - unfold to_move. cbn [rsat scan_ok mv_count mv_interval mv_add].
    rewrite (u16_small (nextcount + 1 - 1)) by (unfold is_u16; lia).
    split_and!; [lia | lia | by rewrite u32_idemp | done].
  - assert (Hc' : 1 <= nextcount + 1 <= Z.of_nat n) by lia.
    eapply rsat_bind; [apply minmax_point_sat |]. intros [minp maxp] _.
    step_i32 f. step_i32 c. step_i32 lo. step_i32 dlo.
    eapply (rsat_bind (fun _ => True)).
    { apply rsat_if; [intros _ | done]. eapply rsat_mono; [apply idiv_up_sat; lia | done]. }
    intros nm _. step_i32 hi. step_i32 dhi.
    eapply (rsat_bind (fun _ => True)).
    { apply rsat_if; [intros _ | done]. eapply rsat_mono; [apply idiv_down_sat; lia | done]. }
    intros nx _. apply rsat_if; intros _; [cbn [rsat scan_ok]; lia |]. apply IH; lia.
Qed.

(** The invariant of the outer loop over a queue of [n] steps. *)
Record bisect_inv (n : nat) (b : bisect) : Prop := {
  bi_range : - 0x8000 <= minadd b /\ maxadd b <= 0x7fff;
  bi_add_in : minadd b <= bi_add b <= maxadd b;
  bi_best : 1 <= bestcount b <= Z.of_nat n /\ - 0x8000 <= bestadd b <= 0x7fff;
  bi_zero : 0 <= zerocount b <= Z.of_nat n
}.

(** A move that covers between one and [n] steps. *)
Definition move_ok (n : nat) (m : step_move) : Prop :=
  1 <= mv_count m <= Z.of_nat n /\ is_u32 (mv_interval m) /\ - 2 ^ 15 <= mv_add m < 2 ^ 15.

Lemma to_move_ok n interval count add :
  Z.of_nat n <= 65535 -> 1 <= count <= Z.of_nat n -> move_ok n (to_move interval count add).
Proof. intros Hn Hc. unfold move_ok, to_move. cbn [mv_count mv_interval mv_add]. cint_lia. Qed.

Lemma bisect_pick_ok n b :
  Z.of_nat n <= 65535 -> 1 <= bestcount b <= Z.of_nat n -> 0 <= zerocount b <= Z.of_nat n ->
  move_ok n (bisect_pick b).
Proof.
  intros Hn Hb Hz. unfold bisect_pick. destruct (Z.geb_spec (zerocount b + Z.quot (zerocount b) 16) (bestcount b)).
  - apply to_move_ok; [done |]. assert (zerocount b <> 0) by (intros E; rewrite E in H; change (0 + Z.quot 0 16) with 0 in H; lia). lia.
  - by apply to_move_ok.
Qed.

Lemma bisect_best_inv n b count interval reach :
  1 <= count <= Z.of_nat n -> bisect_inv n b -> bisect_inv n (bisect_best b count interval reach).1.
Proof.
  intros Hc [Hr Ha Hb Hz]. unfold bisect_best.
  destruct (_ || _); [| by constructor].
  destruct (bi_add b =? 0); constructor; cbn; lia.
Qed.

Lemma bisect_best_bounds b count interval reach :
  let b' := (bisect_best b count interval reach).1 in
  bi_add b' = bi_add b /\ minadd b' = minadd b /\ maxadd b' = maxadd b.
Proof. cbv zeta. unfold bisect_best. by destruct (_ || _). Qed.

(** [b'] tries no value of [add] that [b] does not, and keeps the results. *)
Record tighter (b b' : bisect) : Prop := {
  ti_range : minadd b <= minadd b' /\ maxadd b' <= maxadd b;
  ti_best : bestcount b' = bestcount b /\ bestadd b' = bestadd b /\ zerocount b' = zerocount b
}.

#[export] Instance tighter_preorder : PreOrder tighter.
Proof.
  split; [intros b; constructor; lia |]. intros b1 b2 b3 [H1 E1] [H2 E2].
  constructor; [lia | intuition congruence].
Qed.

Lemma tighter_lo b lo : minadd b <= lo -> tighter b (b <| minadd := lo |>).
Proof. intros H. constructor; cbn; intuition lia. Qed.
Lemma tighter_hi b hi : hi <= maxadd b -> tighter b (b <| maxadd := hi |>).
Proof. intros H. constructor; cbn; intuition lia. Qed.

Lemma tighter_lo_if b lo : tighter b (if minadd b <? lo then b <| minadd := lo |> else b).
Proof. destruct (Z.ltb_spec (minadd b) lo); [apply tighter_lo; lia | reflexivity]. Qed.
Lemma tighter_hi_if b hi : tighter b (if maxadd b >? hi then b <| maxadd := hi |> else b).
Proof. destruct (Z.gtb_spec (maxadd b) hi); [apply tighter_hi; lia | reflexivity]. Qed.

(** Every turn leaves fewer values of [add] to try. *)
Lemma bisect_range_sat n sc b count nextmin nextmax interval minp maxp :
  1 <= count -> bisect_inv n b ->
  rsat (fun b' => tighter b b' /\ maxadd b' - minadd b' < maxadd b - minadd b)
    (bisect_range sc b count (count + 1) nextmin nextmax interval minp maxp).
Proof.
  intros Hc [Hr Ha _ _]. unfold bisect_range.
  pose proof (tri_pos (count + 1) ltac:(lia)) as Ht. step_i32 f.
  set (naf := Z.quot _ 2) in *. step_i32 a. step_i32 i. step_i32 nr.
  set (b1 := if _ <? minp then _ else _).
  assert (H1 : tighter b b1 /\ maxadd b1 - minadd b1 < maxadd b - minadd b).
  { unfold b1. case_match; (split; [constructor |]); cbn; intuition lia. }
  clearbody b1. destruct H1 as [H1 Hlt].
  eapply (rsat_bind (fun b' => tighter b1 b')).
  { apply rsat_if; intros _; [| cbn [rsat]; reflexivity].
    step_i32 cc. step_i32 lo. step_i32 hi. cbn [rsat].
    etrans; [apply tighter_lo_if | apply tighter_hi_if]. }
  intros b2 H2. step_i32 c. step_i32 m. step_i32 d.
  eapply (rsat_bind (fun lo => minadd b2 <= lo)).
  { apply rsat_if; intros E; [| cbn [rsat]; lia].
    eapply rsat_mono; [apply idiv_up_sat; lia |]. cbv beta. intros lo Hlo. nia. }
  intros lo Hlo. step_i32 c'. step_i32 m'. step_i32 d'.
  pose proof (tighter_lo b2 lo Hlo) as H3. set (b3 := b2 <| minadd := lo |>) in *. clearbody b3.
  eapply (rsat_bind (fun hi => hi <= maxadd b3)).
  { apply rsat_if; intros E; [| cbn [rsat]; lia].
    eapply rsat_mono; [apply idiv_down_sat; lia |]. cbv beta. intros hi Hhi. nia. }
  intros hi Hhi. pose proof (tighter_hi b3 hi Hhi) as H4. set (b4 := b3 <| maxadd := hi |>) in *. clearbody b4.
  assert (H14 : tighter b1 b4) by (etrans; [exact H2 | etrans; [exact H3 | exact H4]]).
  cbn [rsat]. split; [etrans; eassumption |]. destruct H14. lia.
Qed.

Lemma bisect_loop_sat fuel n sc qlast b :
  n = (qlast - queue_pos sc)%nat -> (1 <= n)%nat -> Z.of_nat n <= 65535 -> bisect_inv n b ->
  maxadd b - minadd b < Z.of_nat fuel -> rsat (move_ok n) (bisect_loop fuel sc qlast b).
Proof.
  intros En Hn1 Hn. revert b. induction fuel as [| fuel IH]; intros b Hb Hf.
  { destruct Hb. lia. }
  cbn [bisect_loop]. eapply rsat_bind; [apply scan_add_sat; lia |].
  rewrite <- En. intros [m | nextcount nextmin nextmax interval minp maxp]; cbn [scan_ok].
  - intros (Hc & Hi & Ha). cbn [rsat]. unfold move_ok. rewrite Ha, Hi. cint_lia.
  - intros Hc. cbv zeta. set (count := nextcount - 1). replace nextcount with (count + 1) by lia.
    step_i32 f. step_i32 a. step_i32 i. step_i32 reach.
    set (reach := bi_add b * _ + _).
    pose proof (bisect_best_inv n b count interval reach ltac:(lia) Hb) as Hb'.
    pose proof (bisect_best_bounds b count interval reach) as Hbb.
    destruct (bisect_best b count interval reach) as [b1 stop]. cbn [fst] in *.
    apply rsat_if; intros _; [destruct Hb'; apply bisect_pick_ok; tauto |].
    eapply rsat_bind; [apply (bisect_range_sat n); [lia | done] |]. intros b2 [[Ht1 Ht2] Hlt].
    destruct Hb' as [Hr' Ha' Hbe' Hz'], Hbb as (Eb & Em & Ex), Ht2 as (T1 & T2 & T3).
    assert (Hpick : move_ok n (bisect_pick b2)) by (apply bisect_pick_ok; [done | rewrite T1; tauto | by rewrite T3]).
    assert (Hin : minadd b2 <= maxadd b2 ->
      bisect_inv n (b2 <| bi_add := maxadd b2 - Z.quot (maxadd b2 - minadd b2) 4 |>)).
    { intros Hle. constructor; cbn [minadd maxadd bi_add bestcount bestadd zerocount upd upd_fun]; try lia.
      rewrite Z.quot_div_nonneg by lia. Z.div_mod_to_equations. lia. }
    apply rsat_if; intros Hle; [exact Hpick |].
    apply IH; [apply Hin; lia | cbn [minadd maxadd upd upd_fun]; lia].
Qed.

Lemma compress_bisect_add_sat sc :
  (queue_pos sc < queue_next sc)%nat ->
  rsat (move_ok (Nat.min (queue_next sc) (queue_pos sc + Z.to_nat 65535) - queue_pos sc))
    (compress_bisect_add sc).
Proof.
  intros Hq. unfold compress_bisect_add. eapply rsat_bind; [apply minmax_point_sat |].
  intros [minp maxp] _. apply bisect_loop_sat; [done | lia | lia | | unfold BISECT_FUEL; cbn [minadd maxadd]; lia].
  constructor; cbn [minadd maxadd bi_add bestcount bestadd zerocount]; lia.
Qed.

(** ** Soundness of the check *)

(** The requested step clocks [us] (64 bit, in time order) wait in the queue
    as their low words, all within one turn of the 32-bit clock. *)
Record sc_pending (sc : stepcompress) (us : list Z) : Prop := {
  pe_queue : forall i u, us !! i = Some u -> sc_queue sc !! (queue_pos sc + i)%nat = Some (u32 u);
  pe_next : queue_next sc = (queue_pos sc + length us)%nat;
  pe_sorted : StronglySorted Z.le (last_step_clock sc :: us);
  pe_span : Forall (fun u => u < last_step_clock sc + 2 ^ 32 /\ u < 2 ^ 64) us;
  pe_clock : 0 <= last_step_clock sc
}.

(** The clock from which the distance of step [i] is halved: the step before
    it, or the last step sent. *)
Definition prev_clock (sc : stepcompress) (us : list Z) (i : nat) : Z :=
  default 0 ((last_step_clock sc :: us) !! i).

Lemma prev_clock_S sc us i v : us !! i = Some v -> prev_clock sc us (S i) = v.
Proof. intros H. unfold prev_clock. simpl. by rewrite H. Qed.

Lemma sc_pending_bounds sc us i u :
  sc_pending sc us -> us !! i = Some u ->
  last_step_clock sc <= prev_clock sc us i <= u /\ u < last_step_clock sc + 2 ^ 32 /\ 0 <= u.
Proof.
  intros [_ _ Hs Hp H0] Hi. pose proof (Forall_lookup_1 _ _ _ _ Hp Hi) as [Hu _].
  destruct (lookup_lt_is_Some_2 (last_step_clock sc :: us) i) as [v Hv].
  { apply lookup_lt_Some in Hi. cbn [length]. lia. }
  unfold prev_clock. rewrite Hv. cbn [default from_option]. unfold id.
  assert (last_step_clock sc <= v) by (apply (sorted_lookup _ 0 i _ _ Hs); [lia | done..]).
  assert (v <= u) by (apply (sorted_lookup _ i (S i) _ _ Hs); [lia | done..]). lia.
Qed.

Lemma minmax_point_run sc us i u :
  sc_pending sc us -> 0 <= max_error sc -> us !! i = Some u ->
  exists me, 0 <= me <= max_error sc /\ prev_clock sc us i <= u - me
    /\ minmax_point sc (queue_pos sc + i)
       = Ok (s32 (u - me - last_step_clock sc), s32 (u - last_step_clock sc)).
Proof.
  intros HP Hme Hi. destruct (sc_pending_bounds sc us i u HP Hi) as (Hb & Hu & Hu0).
  unfold minmax_point, queue_read. rewrite (pe_queue _ _ HP _ _ Hi).
  set (lsc := last_step_clock sc) in *. unfold mbind at 1, res_bind at 1. cbv beta iota zeta.
  rewrite u32_sub_r, u32_sub_l, (u32_small (u - lsc)) by (unfold is_u32; lia).
  assert (Hprev : (if (queue_pos sc <? queue_pos sc + i)%nat
      then q' ← queue_read sc (queue_pos sc + i - 1); Ok (u32 (q' - u32 lsc)) else Ok 0)
    = Ok (prev_clock sc us i - lsc)).
  { destruct i as [| i].
    - rewrite (proj2 (Nat.ltb_ge _ _)) by lia. unfold prev_clock. cbn. f_equal. lia.
    - rewrite (proj2 (Nat.ltb_lt _ _)) by lia. unfold queue_read.
      destruct (lookup_lt_is_Some_2 us i) as [v Hv]; [apply lookup_lt_Some in Hi; lia |].
      replace (queue_pos sc + S i - 1)%nat with (queue_pos sc + i)%nat by lia.
      rewrite (pe_queue _ _ HP _ _ Hv). unfold mbind, res_bind. f_equal.
      rewrite (prev_clock_S sc us i v Hv) in *.
      rewrite u32_sub_r, u32_sub_l. apply u32_small. unfold is_u32. lia. }
  unfold queue_read in Hprev. rewrite Hprev. unfold mbind, res_bind.
  set (v := prev_clock sc us i) in *. rewrite (u32_small (u - lsc - (v - lsc))) by (unfold is_u32; lia).
  set (me := if _ >? _ then _ else _).
  assert (Hm : 0 <= me <= max_error sc /\ v <= u - me).
  { unfold me. destruct (Z.gtb_spec ((u - lsc - (v - lsc)) / 2) (max_error sc)); Z.div_mod_to_equations; lia. }
  exists me. split; [lia |]. split; [lia |]. f_equal. f_equal. rewrite s32_u32. f_equal. lia.
Qed.

(** Distance of step [k] of a move from its start. *)
Definition reach (interval add k : Z) : Z := step_time 0 interval add k.

Lemma step_time_reach t i a k : step_time t i a k = t + reach i a k.
Proof. unfold reach, step_time. lia. Qed.

Lemma reach_succ i a k : reach i a (k + 1) = reach i a k + (i + a * k).
Proof. unfold reach. apply step_time_succ. Qed.

(** An accepted move: no step deviates by more than [max_error], none is
    late, and no interval is negative or overflows the timer. *)
Definition move_fits (sc : stepcompress) (us : list Z) (interval add : Z) (k : nat) : Prop :=
  exists u, us !! k = Some u
    /\ u - max_error sc <= step_time (last_step_clock sc) interval add (Z.of_nat k + 1) <= u
    /\ 0 <= interval + add * Z.of_nat k < 2 ^ 31.

Lemma check_points_sound sc us interval add n i :
  sc_pending sc us -> 0 <= max_error sc -> - 2 ^ 15 <= add < 2 ^ 15 -> (i + n <= length us)%nat ->
  let d := interval + add * Z.of_nat i in
  let p := reach interval add (Z.of_nat i) in
  - 2 ^ 15 <= d < 2 ^ 31 + 2 ^ 15 -> 0 <= p <= prev_clock sc us i - last_step_clock sc ->
  check_points n sc add i (u32 d) p = Ok 0 ->
  (forall k, (i <= k < i + n)%nat -> move_fits sc us interval add k)
  /\ p <= reach interval add (Z.of_nat (i + n)).
Proof.
  intros HP Hme Ha. cbv zeta. revert i. induction n as [| n IH]; intros i Hl Hd Hp E.
  { rewrite Nat.add_0_r. split; [lia | done]. }
  destruct (lookup_lt_is_Some_2 us i) as [u Hu]; [lia |].
  destruct (sc_pending_bounds sc us i u HP Hu) as (Hb & Hspan & _).
  destruct (minmax_point_run sc us i u HP Hme Hu) as (me & Hme1 & Hme2 & Em).
  cbn [check_points] in E. rewrite Em in E. unfold mbind, res_bind in E.
  set (lsc := last_step_clock sc) in *. set (d := interval + add * Z.of_nat i) in *.
  set (p := reach interval add (Z.of_nat i)) in *.
  rewrite !u32_s32, (u32_small (u - me - lsc)), (u32_small (u - lsc)), u32_add_r in E by (unfold is_u32; lia).
  destruct ((u32 (p + d) <? u - me - lsc) || (u32 (p + d) >? u - lsc)) eqn:Er; [done |].
  destruct (Z.geb_spec (u32 d) 0x80000000) as [| Hi]; [done |].
  assert (Hd0 : 0 <= d < 2 ^ 31) by cint_lia.
  assert (Hpd : u32 (p + d) = p + d) by cint_lia.
  rewrite Hpd in *. assert (Hn : reach interval add (Z.of_nat (S i)) = p + d).
  { rewrite Nat2Z.inj_succ, <- Z.add_1_r, reach_succ. done. }
  assert (Hnd : interval + add * Z.of_nat (S i) = d + add) by lia.
  rewrite u32_add_l, <- Hnd, <- Hn in E. apply IH in E as [Hk Hr]; [| lia | lia |].
  - split; [| replace (i + S n)%nat with (S i + n)%nat by lia; lia].
    intros k Hk'. destruct (decide (k = i)) as [-> |]; [| apply Hk; lia].
    exists u. split; [done |]. fold lsc. rewrite step_time_reach.
    replace (Z.of_nat i + 1) with (Z.of_nat (S i)) by lia. rewrite Hn. lia.
  - rewrite (prev_clock_S sc us i u Hu). lia.
Qed.

Lemma reach_1 i a : reach i a 1 = i.
Proof. unfold reach, step_time. change (1 * (1 - 1) / 2) with 0. lia. Qed.

Lemma reach_0 i a : reach i a 0 = 0.
Proof. unfold reach, step_time. change (0 * (0 - 1) / 2) with 0. lia. Qed.

Lemma reach_mono i a n :
  (1 <= n)%nat -> (forall k, (k < n)%nat -> 0 <= i + a * Z.of_nat k) -> i <= reach i a (Z.of_nat n).
Proof.
  induction n as [| n IH]; [lia |]. intros _ Hk. destruct n as [| n]; [by rewrite reach_1 |].
  rewrite Nat2Z.inj_succ, <- Z.add_1_r, reach_succ. specialize (Hk (S n) ltac:(lia)) as H1.
  specialize (IH ltac:(lia)). assert (i <= reach i a (Z.of_nat (S n))) by (apply IH; intros; apply Hk; lia). lia.
Qed.

Lemma check_line_sound sc us n m :
  sc_pending sc us -> 0 <= max_error sc -> move_ok n m -> (n <= length us)%nat ->
  check_line sc m = Ok 0 ->
  (forall k, Z.of_nat k < mv_count m -> move_fits sc us (mv_interval m) (mv_add m) k)
  /\ mv_interval m <= reach (mv_interval m) (mv_add m) (mv_count m).
Proof.
  intros HP Hme (Hc & Hi & Ha) Hl. unfold check_line. change (CHECK_LINES =? 0) with false. cbv iota.
  destruct (_ || _) eqn:Ev; [done |]. apply orb_false_iff in Ev as [_ Ei].
  pose proof (Z.geb_spec (mv_interval m) 0x80000000) as Hi'. rewrite Ei in Hi'. inversion Hi'.
  intros E. destruct (check_points_sound sc us (mv_interval m) (mv_add m) (Z.to_nat (mv_count m)) 0) as [Hk _].
  - done.
  - done.
  - done.
  - lia.
  - unfold is_u32 in Hi. lia.
  - rewrite reach_0. unfold prev_clock. simpl. lia.
  - rewrite reach_0, Z.mul_0_r, Z.add_0_r, u32_small by done. exact E.
  - assert (Hk' : forall k, Z.of_nat k < mv_count m -> move_fits sc us (mv_interval m) (mv_add m) k)
      by (intros k ?; apply Hk; lia).
    split; [done |]. rewrite <- (Z2Nat.id (mv_count m)) by lia. apply reach_mono; [lia |].
    intros k ?. destruct (Hk' k) as (u & _ & _ & ?); lia.
Qed.

(** ** The commands and what the micro-controller makes of them *)

(** The [queue_step] command of a move that starts after the step at [t]. *)
Definition step_msg (sc : stepcompress) (t first_clock : Z) (m : step_move) : queue_message :=
  message_alloc
    <| qm_msg := vlq_bytes [u32 (queue_step_msgtag sc); sc_oid sc; mv_interval m; mv_count m; u32 (mv_add m)] |>
    <| qm_min_clock := t |>
    <| qm_req_clock := if (mv_count m =? 1) && (first_clock >=? u64 (t + CLOCK_DIFF_MAX)) then first_clock else t |>.

(** The move as the micro-controller stores it. *)
Definition to_stepper (m : step_move) : stepper_move :=
  mk_stepper_move (mv_interval m) (mv_add m) (mv_count m) 0.

(** The step clocks of a sequence of moves; [Stepper.plan] is their reading
    on the 32-bit clock. *)
Fixpoint plan_clocks (t : Z) (ms : list step_move) : list Z :=
  match ms with
  | [] => []
  | m :: ms => (step_time t (mv_interval m) (mv_add m) <$> seqZ 1 (mv_count m))
               ++ plan_clocks (move_end t (to_stepper m)) ms
  end.

Fixpoint plan_end (t : Z) (ms : list step_move) : Z :=
  match ms with [] => t | m :: ms => plan_end (move_end t (to_stepper m)) ms end.

(** Messages for moves queued back to back. *)
Fixpoint step_msgs (sc : stepcompress) (t : Z) (ms : list step_move) : list queue_message :=
  match ms with
  | [] => []
  | m :: ms => step_msg sc t (t + mv_interval m) m :: step_msgs sc (move_end t (to_stepper m)) ms
  end.

Lemma plan_clocks_plan t ms : plan t (to_stepper <$> ms) = u32 <$> plan_clocks t ms.
Proof.
  revert t. induction ms as [| m ms IH]; intros t; [done |]. cbn [fmap list_fmap plan plan_clocks].
  by rewrite fmap_app, <- list_fmap_compose, <- IH.
Qed.

(** The object after [add_move]. *)
Definition moved (sc : stepcompress) (first_clock last_clock : Z) (m : step_move) : stepcompress :=
  let step_count := if truth (sdir sc) then mv_count m else - mv_count m in
  sc <| msg_queue ::= fun q => q ++ [step_msg sc (last_step_clock sc) first_clock m] |>
     <| last_step_clock := last_clock |>
     <| last_position ::= fun p => s64 (p + step_count) |>
     <| history_list ::= cons (mk_hs first_clock last_clock (last_position sc) step_count
                                 (s32 (mv_interval m)) (mv_add m)) |>.

(** [r] runs to state [s'] or faults where it started. *)
Definition runs_or_faults {S A : Type} (m : M S A) (s : S) (a : A) (s' : S) : Prop :=
  m s = (Ok a, s') \/ exists w, m s = (Fault w, s).

Lemma i32_cases z : i32 z = Ok z \/ i32 z = Fault "signed overflow".
Proof. unfold i32. case_match; auto. Qed.

Lemma add_move_run sc n m first :
  move_ok n m ->
  let f := mv_count m * (mv_count m - 1) / 2 in
  let last := u64 (first + u32 (mv_add m * f + mv_interval m * (mv_count m - 1))) in
  runs_or_faults (add_move first m) sc tt (moved sc first last m).
Proof.
  intros (Hc & _). cbv zeta. unfold runs_or_faults, add_move. rewrite bind_gets. unfold id.
  rewrite <- tri_quot by lia.
  destruct (i32_cases (mv_count m * (mv_count m - 1))) as [-> | ->]; [rewrite bind_lift | right; by eexists].
  destruct (i32_cases (mv_add m * Z.quot (mv_count m * (mv_count m - 1)) 2)) as [-> | ->];
    [rewrite bind_lift | right; by eexists].
  left. rewrite message_encode_fits by (cbn [length]; lia). rewrite bind_lift. unfold modify, moved, step_msg.
  by destruct (_ && _).
Qed.

(** The part of an object that a flush leaves alone. *)
Definition sc_static (sc : stepcompress) :=
  (max_error sc, sc_oid sc, queue_step_msgtag sc, set_next_step_dir_msgtag sc,
   (sdir sc, invert_sdir sc, next_step_clock sc, next_step_dir sc)).

Lemma step_msgs_static sc sc' t ms : sc_static sc' = sc_static sc -> step_msgs sc' t ms = step_msgs sc t ms.
Proof.
  intros [= _ Ho Ht _ _ _ _ _]. revert t. induction ms as [| m ms IH]; intros t; cbn [step_msgs]; [done |].
  unfold step_msg. by rewrite Ho, Ht, IH.
Qed.

(** The signed number of steps of [n] steps in the current direction. *)
Definition steps_moved (sc : stepcompress) (n : nat) : Z :=
  if truth (sdir sc) then Z.of_nat n else - Z.of_nat n.

(** [sc'] follows from [sc] by sending the steps [us1] of [us1 ++ us2]. *)
Record flushed (sc : stepcompress) (us1 us2 : list Z) (ms : list step_move) (sc' : stepcompress) : Prop := {
  fl_msgs : msg_queue sc' = msg_queue sc ++ step_msgs sc (last_step_clock sc) ms;
  fl_times : Forall2 (fun t u => u - max_error sc <= t <= u) (plan_clocks (last_step_clock sc) ms) us1;
  fl_clock : last_step_clock sc' = plan_end (last_step_clock sc) ms;
  fl_pending : sc_pending sc' us2;
  fl_position : s64 (last_position sc') = s64 (last_position sc + steps_moved sc (length us1));
  fl_static : sc_static sc' = sc_static sc
}.

Lemma flushed_nil sc us : sc_pending sc us -> flushed sc [] us [] sc.
Proof.
  intros H. constructor; cbn [step_msgs plan_clocks plan_end length]; try done.
  - by rewrite app_nil_r.
  - f_equal. unfold steps_moved. destruct (truth (sdir sc)); lia.
Qed.

Lemma plan_clocks_app t ms ms' : plan_clocks t (ms ++ ms') = plan_clocks t ms ++ plan_clocks (plan_end t ms) ms'.
Proof. revert t. induction ms as [| m ms IH]; intros t; [done |]. cbn. by rewrite IH, app_assoc. Qed.

Lemma plan_end_app t ms ms' : plan_end t (ms ++ ms') = plan_end (plan_end t ms) ms'.
Proof. revert t. induction ms as [| m ms IH]; intros t; [done |]. cbn. by rewrite IH. Qed.

Lemma step_msgs_app sc t ms ms' :
  step_msgs sc t (ms ++ ms') = step_msgs sc t ms ++ step_msgs sc (plan_end t ms) ms'.
Proof. revert t. induction ms as [| m ms IH]; intros t; [done |]. cbn. by rewrite IH. Qed.

Lemma flushed_trans sc us1 us2 us3 ms ms' sc1 sc2 :
  flushed sc us1 (us2 ++ us3) ms sc1 -> flushed sc1 us2 us3 ms' sc2 ->
  flushed sc (us1 ++ us2) us3 (ms ++ ms') sc2.
Proof.
  intros [M1 T1 C1 P1 L1 S1] [M2 T2 C2 P2 L2 S2]. 
  assert (Hme : max_error sc1 = max_error sc) by (unfold sc_static in S1; congruence).
  assert (Hd : sdir sc1 = sdir sc) by (unfold sc_static in S1; congruence).
  constructor.
  - rewrite M2, M1, C1, (step_msgs_static sc sc1) by done. by rewrite step_msgs_app, <- app_assoc.
  - rewrite plan_clocks_app. apply Forall2_app; [done |]. by rewrite <- C1, <- Hme.
  - by rewrite C2, C1, plan_end_app.
  - done.
  - rewrite L2, length_app. unfold steps_moved in *. rewrite Hd.
    destruct (truth (sdir sc)); cint_lia.
  - congruence.
Qed.

(** The clock after an accepted move is that of its last step. *)
Lemma moved_clock sc us n m :
  sc_pending sc us -> move_ok n m -> (n <= length us)%nat ->
  (forall k, Z.of_nat k < mv_count m -> move_fits sc us (mv_interval m) (mv_add m) k) ->
  mv_interval m <= reach (mv_interval m) (mv_add m) (mv_count m) ->
  let lsc := last_step_clock sc in
  let f := mv_count m * (mv_count m - 1) / 2 in
  u64 (lsc + mv_interval m) = lsc + mv_interval m
  /\ u64 (lsc + mv_interval m + u32 (mv_add m * f + mv_interval m * (mv_count m - 1)))
     = move_end lsc (to_stepper m)
  /\ exists u, us !! (Z.to_nat (mv_count m) - 1)%nat = Some u /\ move_end lsc (to_stepper m) <= u
     /\ lsc <= move_end lsc (to_stepper m).
Proof.
  intros HP (Hc & Hi & _) Hl Hk Hr. cbv zeta.
  destruct (Hk (Z.to_nat (mv_count m) - 1)%nat) as (u & Hu & Ht & _); [lia |].
  replace (Z.of_nat (Z.to_nat (mv_count m) - 1) + 1) with (mv_count m) in Ht by lia.
  destruct (sc_pending_bounds _ _ _ _ HP Hu) as (_ & Hs & _).
  pose proof (Forall_lookup_1 _ _ _ _ (pe_span _ _ HP) Hu) as [_ H64]. pose proof (pe_clock _ _ HP) as H0.
  unfold move_end. cbn [to_stepper sm_interval sm_add sm_count]. rewrite step_time_reach in *.
  set (lsc := last_step_clock sc) in *.
  assert (E : mv_add m * (mv_count m * (mv_count m - 1) / 2) + mv_interval m * (mv_count m - 1)
              = reach (mv_interval m) (mv_add m) (mv_count m) - mv_interval m).
  { unfold reach, step_time. lia. }
  rewrite E. set (R := reach _ _ _) in *. unfold is_u32 in Hi.
  rewrite (u64_small (lsc + mv_interval m)), (u32_small (R - mv_interval m)) by (unfold is_u64, is_u32; lia).
  split; [done |]. split; [rewrite u64_small by (unfold is_u64; lia); lia |].
  exists u. split; [done |]. lia.
Qed.

(** One accepted move is a flush of as many steps as it counts. *)
Lemma flushed_move sc us n m sc1 :
  sc_pending sc us -> 0 <= max_error sc -> move_ok n m -> (n <= length us)%nat ->
  (forall k, Z.of_nat k < mv_count m -> move_fits sc us (mv_interval m) (mv_add m) k) ->
  mv_interval m <= reach (mv_interval m) (mv_add m) (mv_count m) ->
  let lsc := last_step_clock sc in
  let c := Z.to_nat (mv_count m) in
  let sc' := moved sc (lsc + mv_interval m) (move_end lsc (to_stepper m)) m in
  msg_queue sc1 = msg_queue sc' -> last_step_clock sc1 = last_step_clock sc' ->
  last_position sc1 = last_position sc' -> sc_static sc1 = sc_static sc' ->
  (forall i u, drop c us !! i = Some u -> sc_queue sc1 !! (queue_pos sc1 + i)%nat = Some (u32 u)) ->
  queue_next sc1 = (queue_pos sc1 + (length us - c))%nat ->
  flushed sc (take c us) (drop c us) [m] sc1.
Proof.
  intros HP Hme Hm Hl Hk Hr. cbv zeta. intros Em Ec Ep Es Eq En.
  destruct (moved_clock sc us n m HP Hm Hl Hk Hr) as (_ & _ & u & Hu & Hle & Hge).
  destruct Hm as (Hc & _). constructor.
  - rewrite Em. done.
  - cbn [plan_clocks]. rewrite app_nil_r. apply Forall2_same_length_lookup_2.
    { rewrite length_fmap, length_seqZ, length_take. lia. }
    intros i t v Ht Hv. apply list_lookup_fmap_Some in Ht as (k & -> & Hk').
    apply lookup_seqZ in Hk' as [-> Hi]. rewrite lookup_take_lt in Hv by lia.
    destruct (Hk i) as (v' & Hv' & Hb & _); [lia |]. rewrite Z.add_comm. congruence.
  - rewrite Ec. done.
  - constructor; [done | by rewrite length_drop | | |].
    + rewrite Ec. change (last_step_clock (moved sc _ ?x m)) with x.
      destruct HP as [_ _ Hs _ _]. apply StronglySorted_inv in Hs as [Hs _].
      assert (Hd : StronglySorted Z.le (drop (Z.to_nat (mv_count m)) us)).
      { rewrite <- (take_drop (Z.to_nat (mv_count m)) us) in Hs. by apply StronglySorted_app_1_r in Hs. }
      constructor; [done |]. apply Forall_forall. intros v Hv. apply list_elem_of_lookup in Hv as [i Hi].
      rewrite lookup_drop in Hi. etrans; [exact Hle |].
      eapply (sorted_lookup us _ _ _ _ Hs); [| exact Hu | exact Hi]. lia.
    + rewrite Ec. change (last_step_clock (moved sc _ ?x m)) with x.
      apply Forall_drop. eapply Forall_impl; [apply (pe_span _ _ HP) |]. cbv beta. intros; lia.
    + rewrite Ec. change (last_step_clock (moved sc _ ?x m)) with x. pose proof (pe_clock _ _ HP). lia.
  - rewrite Ep. change (last_position (moved sc ?x ?y m))
      with (s64 (last_position sc + if truth (sdir sc) then mv_count m else - mv_count m)).
    rewrite length_take, Nat.min_l by lia. unfold steps_moved. rewrite Z2Nat.id by lia.
    destruct (truth (sdir sc)); cint_lia.
  - by rewrite Es.
Qed.

Lemma check_points_sat n sc add i interval p :
  rsat (fun ret => ret = 0 \/ ret = ERROR_RET) (check_points n sc add i interval p).
Proof.
  revert i interval p. induction n as [| n IH]; intros i interval p; cbn [check_points]; [by left |].
  eapply rsat_bind; [apply minmax_point_sat |]. intros [minp maxp] _. cbv zeta.
  do 2 (apply rsat_if; intros _; [by right |]). apply IH.
Qed.

Lemma check_line_sat sc m : rsat (fun ret => ret = 0 \/ ret = ERROR_RET) (check_line sc m).
Proof.
  unfold check_line. apply rsat_if; intros _; [by left |]. apply rsat_if; intros _; [done |].
  apply check_points_sat.
Qed.

(** How a flush ends. *)
Definition flush_result (move_clock : Z) (us2 : list Z) (sc' : stepcompress) (r : res (option Z)) : Prop :=
  match r with
  | Ok None => us2 = [] \/ move_clock <= last_step_clock sc'
  | Ok (Some ret) => ret = ERROR_RET
  | Fault _ => True
  | Shut _ | OutOfFuel => False
  end.

Lemma lift_fault {S A C : Type} w (k : A -> M S C) s : (lift_res (Fault w) ≫= k) s = (Fault w, s).
Proof. done. Qed.

(** One turn of the loop on a non-empty queue. *)
Lemma queue_flush_turn fuel move_clock sc us :
  sc_pending sc us -> 0 <= max_error sc -> us <> [] -> last_step_clock sc < move_clock ->
  (exists r, queue_flush_loop (S fuel) move_clock sc = (r, sc) /\ flush_result move_clock us sc r
             /\ r <> Ok None)
  \/ exists m us1 us2 sc1, us = us1 ++ us2 /\ us1 <> [] /\ flushed sc us1 us2 [m] sc1
     /\ queue_flush_loop (S fuel) move_clock sc
        = if decide (us2 = []) then (Ok None, sc1) else queue_flush_loop fuel move_clock sc1.
Proof.
  intros HP Hme Hne Hlt. pose proof (pe_next _ _ HP) as Hnx.
  assert (Hlen : (0 < length us)%nat) by (destruct us; [done | cbn; lia]).
  cbn [queue_flush_loop]. rewrite bind_gets. unfold id. rewrite (proj2 (Z.ltb_lt _ _)) by done.
  pose proof (compress_bisect_add_sat sc ltac:(lia)) as Hb.
  set (n := (_ - queue_pos sc)%nat) in Hb. assert (Hn : (n <= length us)%nat) by lia.
  destruct (compress_bisect_add sc) as [m | | w |]; simpl in Hb; try done;
    [rewrite bind_lift | left; eexists; split; [apply lift_fault | done]].
  pose proof (check_line_sat sc m) as Hc. pose proof (check_line_sound sc us n m HP Hme Hb Hn) as Hs.
  destruct (check_line sc m) as [ret | | w |]; simpl in Hc; try done;
    [rewrite bind_lift | left; eexists; split; [apply lift_fault | done]].
  destruct Hc as [-> | ->]; [| left; eexists; split; [reflexivity | done]].
  change (truth 0) with false. cbv iota. destruct (Hs eq_refl) as [Hk Hr].
  destruct (moved_clock sc us n m HP Hb Hn Hk Hr) as (E1 & E2 & _). rewrite E1.
  pose proof (add_move_run sc n m (last_step_clock sc + mv_interval m) Hb) as Ha. cbv zeta in Ha. rewrite E2 in Ha.
  set (sc' := moved _ _ _ _) in *. destruct Ha as [Ha | [w Ha]];
    [| left; exists (Fault w); unfold mbind, M_bind; rewrite Ha; done].
  rewrite (bind_ok _ _ _ _ _ Ha). right. pose proof (proj1 Hb) as Hcnt.
  set (c := Z.to_nat (mv_count m)) in *.
  exists m, (take c us), (drop c us).
  destruct (Nat.leb_spec (queue_next sc) (queue_pos sc + c)) as [Hd | Hd].
  - assert (Hdr : drop c us = []) by (apply drop_ge; lia). rewrite bind_modify.
    exists (sc' <| queue_pos := 0%nat |> <| queue_next := 0%nat |>). split; [by rewrite take_drop |]. split; [destruct us; [done |]; destruct c eqn:?; [lia | done] |].
    split; [apply (flushed_move sc us n m); try done | by rewrite decide_True].
    + fold c. by rewrite Hdr.
    + fold c. change (0 = 0 + (length us - c))%nat. lia.
  - rewrite bind_modify. exists (sc' <| queue_pos ::= fun p => (p + c)%nat |>). split; [by rewrite take_drop |].
    split; [destruct us; [done |]; destruct c eqn:?; [lia | done] |].
    split; [apply (flushed_move sc us n m); try done |].
    + fold c. intros i u Hi. rewrite lookup_drop in Hi. rewrite <- (pe_queue _ _ HP _ _ Hi).
      change (sc_queue sc !! (queue_pos sc + c + i)%nat = sc_queue sc !! (queue_pos sc + (c + i))%nat).
      f_equal. lia.
    + fold c. change (queue_next sc = queue_pos sc + c + (length us - c))%nat. lia.
    + rewrite decide_False; [done |]. intros Hdr. apply (f_equal length) in Hdr.
      rewrite length_drop in Hdr. cbn in Hdr. lia.
Qed.

Lemma queue_flush_loop_sound fuel move_clock sc us :
  sc_pending sc us -> 0 <= max_error sc -> us <> [] -> (length us <= fuel)%nat ->
  exists ms us1 us2, us = us1 ++ us2
    /\ flushed sc us1 us2 ms (queue_flush_loop fuel move_clock sc).2
    /\ flush_result move_clock us2 (queue_flush_loop fuel move_clock sc).2
         (queue_flush_loop fuel move_clock sc).1.
Proof.
  revert sc us. induction fuel as [| fuel IH]; intros sc us HP Hme Hne Hf.
  { destruct us; [done | cbn in Hf; lia]. }
  destruct (decide (last_step_clock sc < move_clock)) as [Hlt | Hge].
  - destruct (queue_flush_turn fuel move_clock sc us HP Hme Hne Hlt)
      as [(r & -> & Hr & _) | (m & us1 & us2 & sc1 & -> & Hus1 & HF & ->)].
    { exists [], [], us. split; [done |]. cbn [fst snd]. split; [by apply flushed_nil | done]. }
    case_decide as Hd.
    { exists [m], us1, us2. cbn [fst snd]. split; [done |]. split; [done |]. by left. }
    destruct (IH sc1 us2) as (ms & us3 & us4 & -> & HF' & Hr).
    + apply (fl_pending _ _ _ _ _ HF).
    + pose proof (fl_static _ _ _ _ _ HF) as Hs. unfold sc_static in Hs. congruence.
    + done.
    + rewrite length_app in Hf. assert (0 < length us1)%nat by (destruct us1; [done | cbn; lia]). lia.
    + exists (m :: ms), (us1 ++ us3), us4. rewrite app_assoc. split; [done |].
      split; [| done]. by apply (flushed_trans sc us1 us3 us4 [m] ms sc1).
  - exists [], [], us. cbn [queue_flush_loop]. rewrite bind_gets. unfold id.
    rewrite (proj2 (Z.ltb_ge _ _)) by lia. cbn [fst snd mret M_ret]. split; [done |].
    split; [by apply flushed_nil |]. right. cbn. lia.
Qed.

(** Bookkeeping of print times and history does not touch the steps. *)
Lemma calc_time_flushed sc us1 us2 ms sc' :
  flushed sc us1 us2 ms sc' -> flushed sc us1 us2 ms (calc_last_step_print_time sc').2
    /\ last_step_clock (calc_last_step_print_time sc').2 = last_step_clock sc'
    /\ rsat (fun _ => True) (calc_last_step_print_time sc').1.
Proof.
  intros HF. unfold calc_last_step_print_time. rewrite bind_gets, bind_modify. cbv zeta. unfold id.
  assert (H1 : forall t, flushed sc us1 us2 ms (sc' <| last_step_print_time := t |>)).
  { intros t. destruct HF as [? ? ? [] ? ?]. by constructor; try constructor. }
  destruct (dlt _ _); [| by split; [apply H1 |]].
  unfold mbind, M_bind, lift_res. destruct (d_to_u64 _) eqn:Ed; try (by split; [apply H1 |]).
  - split; [| done]. cbn [free_history modify snd].
    match goal with |- flushed _ _ _ _ (upd history_list _ (upd last_step_print_time (fun _ => ?t) _)) =>
      specialize (H1 t) end.
    destruct H1 as [? ? ? [] ? ?]. by constructor; try constructor.
  - unfold d_to_u64, d_to_range in Ed. repeat case_match; done.
  - unfold d_to_u64, d_to_range in Ed. repeat case_match; done.
Qed.

(** C4: [queue_flush] turns a prefix of the requested steps into [queue_step]
    commands whose execution on the micro-controller is faithful: the step
    times of the commands ([plan], the times the stepper timer fires at) come
    one for one at most [max_error] ticks before the requested clocks and never
    after them; the last step clock, the position and the remaining queue are
    those of the steps sent.  The flush always ends; when it succeeds, the
    queue is empty or the steps sent reach [move_clock]. *)
Theorem queue_flush_sound sc us move_clock :
  sc_pending sc us -> 0 <= max_error sc ->
  let '(r, sc') := queue_flush move_clock sc in
  exists ms us1 us2, us = us1 ++ us2 /\ flushed sc us1 us2 ms sc'
    /\ plan (last_step_clock sc) (to_stepper <$> ms) = u32 <$> plan_clocks (last_step_clock sc) ms
    /\ match r with
       | Ok ret => ret = 0 /\ (us2 = [] \/ move_clock <= last_step_clock sc') \/ ret = ERROR_RET
       | Fault _ => True
       | Shut _ | OutOfFuel => False
       end.
Proof.
  intros HP Hme. unfold queue_flush. rewrite bind_gets. unfold id. pose proof (pe_next _ _ HP) as Hn.
  destruct us as [| u us].
  { rewrite (proj2 (Nat.leb_le _ _)) by (cbn in Hn; lia). exists [], [], [].
    split; [done |]. split; [by apply flushed_nil |]. split; [done |]. left. auto. }
  rewrite (proj2 (Nat.leb_gt _ _)) by (cbn in Hn; lia).
  destruct (queue_flush_loop_sound (queue_next sc - queue_pos sc) move_clock sc (u :: us) HP Hme)
    as (ms & us1 & us2 & E & HF & Hr); [done | lia |].
  unfold mbind at 1, M_bind at 1. destruct (queue_flush_loop _ _ sc) as [r sc1]. cbn [fst snd] in *.
  destruct r as [[ret |] | | w |]; simpl in Hr; try done.
  - exists ms, us1, us2. split_and!; [done | done | apply plan_clocks_plan | by right].
  - destruct (calc_time_flushed _ _ _ _ _ HF) as (HF' & Hc & Hs).
    unfold mbind, M_bind. destruct (calc_last_step_print_time sc1) as [r2 sc2]. cbn [fst snd] in *.
    rewrite <- Hc in Hr.
    destruct r2; simpl in Hs; try done; exists ms, us1, us2; split_and!; try done; try apply plan_clocks_plan.
    by left.
  - exists ms, us1, us2. split_and!; [done | done | apply plan_clocks_plan | done].
Qed.

(** ** Storing a step *)

Lemma grow_sat fuel in_use alloc :
  (1 <= alloc)%nat -> (in_use < alloc + fuel)%nat ->
  exists a, grow fuel in_use alloc = Ok a /\ (in_use < a)%nat /\ (alloc <= a)%nat.
Proof.
  revert alloc. induction fuel as [| fuel IH]; intros alloc H1 Hf; cbn [grow].
  - rewrite (proj2 (Nat.leb_gt _ _)) by lia. exists alloc. split; [done | lia].
  - destruct (Nat.leb_spec alloc in_use).
    + destruct (IH (alloc * 2)%nat) as (a & -> & ?); [lia | lia |]. exists a. split; [done | lia].
    + exists alloc. split; [done | lia].
Qed.

(** What storing a step leaves alone. *)
Definition sc_sent (sc : stepcompress) :=
  (msg_queue sc, last_step_clock sc, last_position sc, history_list sc, max_error sc, sdir sc, next_step_dir sc).

Lemma pending_clock sc us sc' :
  sc_pending sc us -> last_step_clock sc' = last_step_clock sc ->
  (forall i u, us !! i = Some u -> sc_queue sc' !! (queue_pos sc' + i)%nat = Some (u32 u)) ->
  queue_next sc' = (queue_pos sc' + length us)%nat -> sc_pending sc' us.
Proof. intros [_ _ Hs Hp H0] E Hq Hn. constructor; rewrite ?E; done. Qed.

Lemma queue_make_room_run sc us :
  sc_pending sc us -> (queue_next sc <= queue_end sc)%nat ->
  exists sc', queue_make_room sc = (Ok tt, sc') /\ sc_pending sc' us /\ sc_sent sc' = sc_sent sc
    /\ next_step_clock sc' = next_step_clock sc /\ (queue_next sc' < queue_end sc')%nat.
Proof.
  intros HP Hc. unfold queue_make_room. rewrite bind_gets. unfold id. pose proof (pe_next _ _ HP) as Hn.
  destruct (Nat.leb_spec (queue_end sc) (queue_next sc)) as [Hf | Hf]; [| by exists sc].
  assert (Hu : (queue_next sc - queue_pos sc)%nat = length us) by lia. rewrite Hu. unfold queue_end in *.
  destruct (Nat.ltb_spec 0 (queue_pos sc)) as [Hp | Hp].
  - rewrite bind_modify, modify_run. eexists. split; [done |].
    split; [| split; [done |]; split; [done |]].
    + apply (pending_clock sc); [done | done | | done]. intros i u Hi.
      change (queue_pos _) with 0%nat at 1. cbn [upd upd_fun sc_queue Nat.add].
      pose proof (lookup_lt_Some _ _ _ Hi). rewrite lookup_app_l.
      * rewrite lookup_take_lt, lookup_drop by lia. by apply (pe_queue _ _ HP).
      * rewrite length_take, length_drop. lia.
    + change (length us < length (take (length us) (drop (queue_pos sc) (sc_queue sc)) ++ drop (length us) (sc_queue sc)))%nat.
      rewrite length_app, length_take, !length_drop. lia.
  - set (alloc := if (length (sc_queue sc) =? 0)%nat then _ else _).
    assert (Ha : (1 <= alloc)%nat /\ (length (sc_queue sc) <= alloc)%nat).
    { unfold alloc, QUEUE_START_SIZE. destruct (Nat.eqb_spec (length (sc_queue sc)) 0); lia. }
    destruct (grow_sat (S (length us)) (length us) alloc) as (a & -> & Hlt & Hle); [lia | lia |].
    rewrite bind_assoc, bind_lift, bind_modify, modify_run. eexists. split; [done |].
    split; [| split; [done |]; split; [done |]].
    + apply (pending_clock sc); [done | done | | done]. intros i u Hi.
      change (queue_pos _) with 0%nat at 1. cbn [upd upd_fun sc_queue Nat.add].
      pose proof (pe_queue _ _ HP _ _ Hi) as Hq. replace (queue_pos sc) with 0%nat in Hq by lia.
      by apply lookup_app_l_Some.
    + change (length us < length (sc_queue sc ++ replicate (a - length (sc_queue sc)) 0%Z))%nat.
      rewrite length_app, length_replicate. lia.
Qed.

(** The step that is stored comes after those that wait. *)
Definition step_after (sc : stepcompress) (us : list Z) (u : Z) : Prop :=
  Forall (fun v => v <= u) (last_step_clock sc :: us) /\ u < last_step_clock sc + 2 ^ 32 /\ u < 2 ^ 64.

Lemma queue_store_run sc us u :
  sc_pending sc us -> (queue_next sc < queue_end sc)%nat -> step_after sc us u ->
  exists sc', queue_store u sc = (Ok tt, sc') /\ sc_pending sc' (us ++ [u]) /\ sc_sent sc' = sc_sent sc
    /\ next_step_clock sc' = next_step_clock sc /\ (queue_next sc' <= queue_end sc')%nat.
Proof.
  intros HP Hc (Hs & Hu & H64). unfold queue_store. rewrite bind_gets. unfold id.
  rewrite (proj2 (Nat.ltb_lt _ _)) by done. eexists. split; [apply modify_run |].
  pose proof (pe_next _ _ HP) as Hn.
  set (sc' := sc <| sc_queue ::= _ |> <| queue_next ::= S |>). split; [| split; [done |]; split; [done |]].
  - destruct HP as [Hq _ Hso Hsp H0]. constructor.
    + intros i v Hi. change (sc_queue sc') with (<[queue_next sc := u32 u]> (sc_queue sc)).
      change (queue_pos sc') with (queue_pos sc). apply lookup_app_Some in Hi as [Hi | [Hi E]].
      * rewrite list_lookup_insert_ne; [by apply Hq |]. apply lookup_lt_Some in Hi. lia.
      * apply list_lookup_singleton_Some in E as [E <-].
        replace (queue_pos sc + i)%nat with (queue_next sc) by lia. apply list_lookup_insert_eq. exact Hc.
    + change (queue_next sc') with (S (queue_next sc)). change (queue_pos sc') with (queue_pos sc).
      rewrite length_app. cbn. lia.
    + change (last_step_clock sc') with (last_step_clock sc). rewrite app_comm_cons.
      apply StronglySorted_app_2; [| done | by repeat constructor].
      intros x y Hx Hy. apply list_elem_of_singleton in Hy as ->. rewrite Forall_forall in Hs. by apply Hs.
    + change (last_step_clock sc') with (last_step_clock sc). apply Forall_app_2; [done |]. by repeat constructor.
    + done.
  - change (S (queue_next sc) <= length (<[queue_next sc := u32 u]> (sc_queue sc)))%nat.
    rewrite length_insert. unfold queue_end in Hc. lia.
Qed.

(** A pending step in the current direction, less than [CLOCK_DIFF_MAX]
    ticks after the last one sent, is appended to the queue behind the steps
    that wait there, whether the array has room, is compacted or has to grow;
    nothing is sent and nothing already queued changes. *)
Theorem queue_append_stores sc us :
  let u := next_step_clock sc in
  sc_pending sc us -> (queue_next sc <= queue_end sc)%nat -> Z.of_nat (length us) <= 65535 + 2000 ->
  next_step_dir sc = sdir sc -> step_after sc us u ->
  last_step_clock sc + CLOCK_DIFF_MAX < 2 ^ 64 -> u < last_step_clock sc + CLOCK_DIFF_MAX ->
  exists sc', queue_append sc = (Ok 0, sc') /\ sc_pending sc' (us ++ [u]) /\ next_step_clock sc' = 0
    /\ (queue_next sc' <= queue_end sc')%nat /\ sc_sent sc' = sc_sent sc.
Proof.
  cbv zeta. intros HP Hc Hl Hd Hs H64 Hnear. unfold queue_append. rewrite bind_gets. unfold id.
  rewrite Hd, Z.eqb_refl. cbn [negb]. msimpl. change (truth 0) with false. cbv iota. rewrite bind_gets.
  pose proof (pe_clock _ _ HP). change CLOCK_DIFF_MAX with 805306368 in *.
  rewrite (u64_small (last_step_clock sc + 805306368)) by (unfold is_u64; lia).
  destruct (Z.geb_spec (next_step_clock sc) (last_step_clock sc + 805306368)); [lia |].
  assert (Hfin : forall sc1, sc_pending sc1 (us ++ [next_step_clock sc]) -> sc_sent sc1 = sc_sent sc ->
    (queue_next sc1 <= queue_end sc1)%nat ->
    exists sc', (modify (fun sc => sc <| next_step_clock := 0 |>) ;; (mret 0 : SC Z)) sc1 = (Ok 0, sc')
      /\ sc_pending sc' (us ++ [next_step_clock sc]) /\ next_step_clock sc' = 0
      /\ (queue_next sc' <= queue_end sc')%nat /\ sc_sent sc' = sc_sent sc).
  { intros sc1 H1 H2 H3. exists (sc1 <| next_step_clock := 0 |>). split; [done |].
    split; [by destruct H1; constructor |]. done. }
  destruct (Nat.leb_spec (queue_end sc) (queue_next sc)) as [Hf | Hf].
  - unfold queue_append_extend. rewrite bind_gets. unfold id. pose proof (pe_next _ _ HP).
    rewrite (proj2 (Z.ltb_ge _ _)) by lia. msimpl. change (truth 0) with false. cbv iota.
    destruct (queue_make_room_run sc us HP Hc) as (sc1 & E1 & HP1 & S1 & N1 & Hc1).
    rewrite (bind_ok _ _ _ _ _ E1), bind_gets, N1.
    assert (HL : last_step_clock sc1 = last_step_clock sc) by (unfold sc_sent in S1; congruence).
    destruct (queue_store_run sc1 us (next_step_clock sc) HP1 Hc1) as (sc2 & E2 & HP2 & S2 & _ & Hc2).
    { unfold step_after in *. by rewrite HL. }
    rewrite (bind_ok _ _ _ _ _ E2). apply Hfin; [done | congruence | done].
  - destruct (queue_store_run sc us (next_step_clock sc) HP Hf Hs) as (sc2 & E2 & HP2 & S2 & _ & Hc2).
    rewrite (bind_ok _ _ _ _ _ E2). by apply Hfin.
Qed.

(** ** A queue that is full when a distant step arrives *)

Definition far_steps : list Z :=
  1000 :: ((fun k => 700000000 + 1000 * k) <$> seqZ 0 1023) ++ [805306868].

(** Run calls until one reports an error. *)
Fixpoint run_calls (calls : list (SC Z)) : SC Z :=
  match calls with
  | [] => mret 0
  | c :: calls => ret ← c; if truth ret then mret ret else run_calls calls
  end.

Definition demo_sc : stepcompress :=
  ((stepcompress_fill 25 3 4 ;; stepcompress_set_time d_zero (d_of_Z 16000000)) (stepcompress_alloc 7)).2.

Definition append_at (clock : Z) : SC Z := stepcompress_append 0 d_zero (d_lit clock 16000000).

(** The slow path for a distant step can write past the end of the
    array: after the flush it stores the step without checking for room.  The
    calls below fill the initial array exactly; committing the next step, far
    from the first one, writes one word past it. *)
Theorem queue_append_far_overflow :
  let '(r, sc) := run_calls (append_at <$> far_steps) demo_sc in
  r = Ok 0 /\ queue_pos sc = 0%nat /\ queue_next sc = queue_end sc
  /\ (stepcompress_commit sc).1 = Fault "write past queue_end".
Proof. vm_compute. repeat split. Qed.

Lemma pending_intro sc us :
  take (length us) (drop (queue_pos sc) (sc_queue sc)) = u32 <$> us ->
  queue_next sc = (queue_pos sc + length us)%nat -> StronglySorted Z.le (last_step_clock sc :: us) ->
  Forall (fun u => u < last_step_clock sc + 2 ^ 32 /\ u < 2 ^ 64) us -> 0 <= last_step_clock sc ->
  sc_pending sc us.
Proof.
  intros Hq Hn Hs Hp H0. constructor; try done. intros i u Hi. pose proof (lookup_lt_Some _ _ _ Hi).
  rewrite <- lookup_drop, <- (lookup_take_lt _ (length us)), Hq by lia. by rewrite list_lookup_fmap, Hi.
Qed.

(** ** Types and array bounds *)

(** A message: its clocks are 64-bit values and its bytes fit a block. *)
Definition qm_wf (qm : queue_message) : Prop :=
  is_u64 (qm_min_clock qm) /\ is_u64 (qm_req_clock qm)
  /\ Z.of_nat (length (qm_msg qm)) <= MESSAGE_PAYLOAD_MAX.

(** The fields hold values of their C types, the indices stay in the array,
    and every queued message is well formed. *)
Definition sc_wf (sc : stepcompress) : Prop :=
  is_u64 (last_step_clock sc) /\ is_u64 (next_step_clock sc)
  /\ (queue_pos sc <= queue_next sc <= queue_end sc)%nat
  /\ Forall is_u32 (sc_queue sc) /\ Forall qm_wf (msg_queue sc).

Abbreviation keeps_wf m := (preserves sc_wf m (fun _ => True)).

Lemma message_encode_wf data qm t1 t2 :
  message_alloc_and_encode data = Ok qm -> is_u64 t1 -> is_u64 t2 ->
  qm_wf (qm <| qm_min_clock := t1 |> <| qm_req_clock := t2 |>).
Proof.
  rewrite message_alloc_and_encode_run. intros [= <-] H1 H2. split; [done |]. split; [done |].
  destruct (Z.leb_spec (Z.of_nat (length (vlq_bytes data))) MESSAGE_PAYLOAD_MAX); done.
Qed.

(** A command without a minimum clock keeps the 0 of [message_alloc]. *)
Lemma message_encode_wf0 data qm t :
  message_alloc_and_encode data = Ok qm -> is_u64 t -> qm_wf (qm <| qm_req_clock := t |>).
Proof.
  rewrite message_alloc_and_encode_run. intros [= <-] Ht.
  destruct (Z.leb_spec (Z.of_nat (length (vlq_bytes data))) MESSAGE_PAYLOAD_MAX); done.
Qed.

(** The updates the operations make. *)
Lemma sc_wf_sent sc qm t f g :
  sc_wf sc -> qm_wf qm -> is_u64 t ->
  sc_wf (sc <| msg_queue ::= fun q => q ++ [qm] |> <| last_step_clock := t |> <| last_position ::= f |>
            <| history_list ::= g |>).
Proof.
  intros (H1 & H2 & H3 & H4 & H5) Hq Ht. unfold sc_wf. repeat (split; [done |]).
  apply Forall_app_2; [done | by apply Forall_singleton].
Qed.

Lemma sc_wf_msg sc qm : sc_wf sc -> qm_wf qm -> sc_wf (sc <| msg_queue ::= fun q => q ++ [qm] |>).
Proof. intros H Hq. exact (sc_wf_sent sc qm (last_step_clock sc) id id H Hq (proj1 H)). Qed.

Lemma sc_wf_next sc t : sc_wf sc -> is_u64 t -> sc_wf (sc <| next_step_clock := t |>).
Proof. intros (H1 & H2 & H3) Ht. done. Qed.

Lemma calc_last_step_print_time_wf : keeps_wf calc_last_step_print_time.
Proof. unfold calc_last_step_print_time, free_history. preserves_tac; done. Qed.

Lemma add_move_wf first_clock move : is_u64 first_clock -> keeps_wf (add_move first_clock move).
Proof.
  intros Hf. unfold add_move. preserves_tac. apply sc_wf_sent; [done | | apply u64_range].
  lazymatch goal with
  | Hw : sc_wf ?sc, E : message_alloc_and_encode (u32 (queue_step_msgtag ?sc) :: _) = Ok _ |- context [?b && ?c] =>
      pose proof (fun t => message_encode_wf _ _ (last_step_clock sc) t E (proj1 Hw)) as Hq;
      destruct (b && c); [exact (Hq first_clock Hf) | exact (Hq (last_step_clock sc) (proj1 Hw))]
  end.
Qed.

#[local] Hint Resolve calc_last_step_print_time_wf add_move_wf u64_range : preserves.

Definition sc_index (sc : stepcompress) := (queue_pos sc, queue_next sc, queue_end sc).

Lemma add_move_index first_clock move : keeps sc_index (add_move first_clock move).
Proof. unfold add_move. keeps_tac. Qed.

Lemma sc_wf_index sc p n :
  sc_wf sc -> (p <= n <= queue_end sc)%nat -> sc_wf (sc <| queue_pos := p |> <| queue_next := n |>).
Proof. intros (H1 & H2 & H3 & H4 & H5) Hp. done. Qed.

Lemma queue_flush_loop_wf fuel move_clock : keeps_wf (queue_flush_loop fuel move_clock).
Proof.
  induction fuel as [| fuel IH]; intros sc Hsc; cbn [queue_flush_loop]; rewrite bind_gets; unfold id.
  - by destruct (_ <? _).
  - destruct (_ <? _); [| done].
    destruct (compress_bisect_add sc) as [move | | |]; try done. rewrite bind_lift.
    destruct (check_line sc move) as [ret | | |]; try done. rewrite bind_lift. destruct (truth ret); [done |].
    apply (preserves_bind_at sc_wf sc_index (fun _ => True) _ _ (fun _ => True));
      [done | eauto with preserves | apply add_move_index |].
    intros [] sc' _ Hw E. injection E as Ep En Ee.
    destruct (Nat.leb_spec (queue_next sc) (queue_pos sc + Z.to_nat (mv_count move))).
    + rewrite bind_modify. split; [| done]. by apply sc_wf_index; [| lia].
    + rewrite bind_modify. apply IH.
      apply (sc_wf_index sc' (queue_pos sc' + Z.to_nat (mv_count move)) (queue_next sc')); [done |].
      destruct Hw as (_ & _ & Hi & _). lia.
Qed.

#[local] Hint Resolve queue_flush_loop_wf : preserves.

Lemma queue_flush_wf move_clock : keeps_wf (queue_flush move_clock).
Proof. unfold queue_flush. preserves_tac. Qed.
#[local] Hint Resolve queue_flush_wf : preserves.

Lemma stepcompress_flush_far_wf clock : is_u64 clock -> keeps_wf (stepcompress_flush_far clock).
Proof. intros H. unfold stepcompress_flush_far. preserves_tac. Qed.
#[local] Hint Resolve stepcompress_flush_far_wf : preserves.

(** Appending a command whose time is a clock of the object. *)
Ltac sc_wf_msg_tac :=
  match goal with
  | Hw : sc_wf ?sc, E : message_alloc_and_encode _ = Ok ?qm |- context [?qm <| qm_req_clock := last_step_clock ?sc |>] =>
      apply sc_wf_msg; [assumption | exact (message_encode_wf0 _ _ _ E (proj1 Hw))]
  end.

Lemma sc_set_next_step_dir_wf dir : keeps_wf (sc_set_next_step_dir dir).
Proof. unfold sc_set_next_step_dir. preserves_tac. sc_wf_msg_tac. Qed.

Lemma queue_store_wf clock : keeps_wf (queue_store clock).
Proof.
  intros sc Hw. unfold queue_store. rewrite bind_gets. unfold id.
  destruct (Nat.ltb_spec (queue_next sc) (queue_end sc)); [| done]. split; [| done].
  destruct Hw as (H1 & H2 & H3 & H4 & H5). unfold queue_end in *. split; [done |]. split; [done |].
  split; [| split; [by apply Forall_insert; [| apply u32_range] | done]].
  change (queue_pos sc <= S (queue_next sc) <= length (<[queue_next sc := u32 clock]> (sc_queue sc)))%nat.
  rewrite length_insert. lia.
Qed.

(** Moving the array keeps what is in use at its start. *)
Lemma sc_wf_moved sc q n :
  sc_wf sc -> Forall is_u32 q -> (n <= length q)%nat ->
  sc_wf (sc <| sc_queue := q |> <| queue_pos := 0%nat |> <| queue_next := n |>).
Proof. intros (H1 & H2 & H3 & H4 & H5) Hq Hn. split; [done |]. split; [done |]. split; [split; [apply Nat.le_0_l | exact Hn] | done]. Qed.

Lemma queue_make_room_wf : keeps_wf queue_make_room.
Proof.
  intros sc Hw. unfold queue_make_room. rewrite bind_gets. unfold id.
  destruct (Nat.leb_spec (queue_end sc) (queue_next sc)) as [Hf | Hf]; [| done].
  pose proof Hw as (_ & _ & Hi & Hq & _). unfold queue_end in *.
  destruct (Nat.ltb_spec 0 (queue_pos sc)) as [Hp | Hp].
  - rewrite bind_modify, modify_run. split; [| done]. apply (sc_wf_moved sc (_ ++ _)); [done | |].
    + apply Forall_app_2; [by apply Forall_take, Forall_drop | by apply Forall_drop].
    + rewrite length_app, length_take, !length_drop. lia.
  - cbv zeta. destruct (grow _ _ _) as [a | | |]; try done. rewrite bind_assoc, bind_lift, bind_modify, modify_run.
    split; [| done]. apply (sc_wf_moved sc (_ ++ _)); [done | |].
    + apply Forall_app_2; [done |]. by apply Forall_replicate.
    + rewrite length_app. lia.
Qed.
#[local] Hint Resolve sc_set_next_step_dir_wf queue_store_wf queue_make_room_wf : preserves.
#[local] Hint Extern 1 (is_u64 (next_step_clock _)) => match goal with H : sc_wf _ |- _ => apply H end : preserves.

Lemma queue_append_wf : keeps_wf queue_append.
Proof.
  unfold queue_append, queue_append_far, queue_append_extend.
  preserves_tac; try by apply sc_wf_next.
Qed.
#[local] Hint Resolve queue_append_wf : preserves.

Lemma stepcompress_flush_wf move_clock : keeps_wf (stepcompress_flush move_clock).
Proof. unfold stepcompress_flush. preserves_tac. Qed.
#[local] Hint Resolve stepcompress_flush_wf : preserves.

(** The calls of the interface that change the object. *)
Inductive sc_call :=
| CallFill (max_error queue_step_msgtag set_next_step_dir_msgtag : Z)
| CallInvert (invert_sdir : Z)
| CallSetTime (time_offset mcu_freq : double)
| CallAppend (sdir : Z) (print_time step_time : double)
| CallCommit
| CallFlush (move_clock : Z)
| CallReset (last_step_clock : Z)
| CallSetLastPosition (clock last_position : Z)
| CallQueueMsg (data : list Z).

Definition run_call (c : sc_call) : SC Z :=
  match c with
  | CallFill me q s => stepcompress_fill me q s ;; mret 0
  | CallInvert i => stepcompress_set_invert_sdir i ;; mret 0
  | CallSetTime o f => stepcompress_set_time o f ;; mret 0
  | CallAppend d p s => stepcompress_append d p s
  | CallCommit => stepcompress_commit
  | CallFlush c => stepcompress_flush c
  | CallReset c => stepcompress_reset c
  | CallSetLastPosition c p => stepcompress_set_last_position c p
  | CallQueueMsg data => stepcompress_queue_msg data
  end.

(** The one clock argument that is stored. *)
Definition call_typed (c : sc_call) : Prop :=
  match c with CallReset clock => is_u64 clock | _ => True end.

Lemma run_call_wf c : call_typed c -> keeps_wf (run_call c).
Proof.
  destruct c; intros Hc; cbn [run_call call_typed] in *;
    unfold stepcompress_fill, stepcompress_set_invert_sdir, stepcompress_set_time, stepcompress_append,
      stepcompress_commit, stepcompress_reset, stepcompress_set_last_position, stepcompress_queue_msg;
    preserves_tac; try sc_wf_msg_tac;
    match goal with
    | H : sc_wf ?s |- sc_wf (_ <| last_step_clock := _ |> <| sdir := _ |>) => exact (conj Hc (proj2 H))
    | H : sc_wf ?s |- sc_wf (_ <| next_step_clock := ?t |> <| next_step_dir := _ |>) =>
        refine (sc_wf_next s t H _); first [apply u64_range | done]
    end.
Qed.


(** Steps of a slowing motor, some behind the wrap of the 32-bit clock. *)
Definition demo_steps : list Z := [4294960000; 4294962000; 4294964100; 4294966300; 4294968600].
Definition demo_queued : stepcompress :=
  mk_sc ((u32 <$> demo_steps) ++ [0; 0]) 0 5 25 d_zero (d_of_Z 16000000) d_zero 4294958000 []
    7 3 4 1 0 4294971000 1 0 [].

Lemma demo_pending : sc_pending demo_queued demo_steps.
Proof.
  apply pending_intro; [vm_compute; reflexivity | reflexivity | ..];
    change (last_step_clock demo_queued) with 4294958000; unfold demo_steps;
    repeat first [apply SSorted_cons | apply SSorted_nil | apply Forall_cons_2 | apply Forall_nil_2]; lia.
Qed.

Lemma queue_flush_sound_witness :
  let '(r, sc') := queue_flush 4294969000 demo_queued in
  exists ms us1 us2, demo_steps = us1 ++ us2 /\ flushed demo_queued us1 us2 ms sc'
    /\ plan (last_step_clock demo_queued) (to_stepper <$> ms) = u32 <$> plan_clocks (last_step_clock demo_queued) ms
    /\ match r with
       | Ok ret => ret = 0 /\ (us2 = [] \/ 4294969000 <= last_step_clock sc') \/ ret = ERROR_RET
       | Fault _ => True
       | Shut _ | OutOfFuel => False
       end.
Proof. apply (queue_flush_sound demo_queued demo_steps 4294969000 demo_pending). vm_compute. discriminate. Defined.

(** The flush of that queue sends two commands. *)
Lemma demo_flush :
  (queue_flush 4294969000 demo_queued).1 = Ok 0
  /\ length (msg_queue (queue_flush 4294969000 demo_queued).2) = 2%nat.
Proof. vm_compute. repeat split. Qed.

Lemma queue_append_stores_witness :
  exists sc', queue_append demo_queued = (Ok 0, sc') /\ sc_pending sc' (demo_steps ++ [4294971000])
    /\ next_step_clock sc' = 0 /\ (queue_next sc' <= queue_end sc')%nat /\ sc_sent sc' = sc_sent demo_queued.
Proof.
  apply (queue_append_stores demo_queued demo_steps demo_pending).
  - vm_compute. lia.
  - vm_compute. discriminate.
  - reflexivity.
  - split; [| by split; vm_compute]. change (last_step_clock demo_queued) with 4294958000.
    change (next_step_clock demo_queued) with 4294971000. unfold demo_steps.
    repeat first [apply Forall_cons_2 | apply Forall_nil_2]; lia.
  - vm_compute. reflexivity.
  - vm_compute. reflexivity.
Defined.

