(* ===== verification/Serialqueue.v ===== *)
(** * Serialqueue: the host's serial port command queue

    Models [src/klippy/chelper/serialqueue.c]: priorities and pacing of
    outgoing commands, message blocks with sequence numbers, acknowledgements,
    retransmission, and the receive path.  Every operation of the C code runs
    under the lock of the object and is one atomic state change here.  What the
    operating system provides is an argument: the bytes a [read] returned and
    the clock.  Writes to the serial line and to the wake-up pipe are logged in
    the state. *)

From S2P Require Import Prelude Wire State Command Double Msgblock Pollreactor.
Import Crc Vlq Encode.

Definition MAX_CLOCK : Z := 0x7fffffffffffffff.
Definition BACKGROUND_PRIORITY_CLOCK : Z := 0x7fffffff00000000.

Definition SQPT_RETRANSMIT : nat := 0.
Definition SQPT_COMMAND : nat := 1.
Definition SQPT_NUM : nat := 2.

(** [serial_fd_type]. *)
Inductive fd_kind := SQT_UART | SQT_CAN | SQT_DEBUGFILE.

Definition MIN_RTO : double := d_lit 25 1000.
Definition MAX_RTO : double := d_of_Z 5.
Definition MAX_PENDING_BLOCKS : Z := 12.
Definition MIN_REQTIME_DELTA : double := d_lit 250 1000.
Definition MIN_BACKGROUND_DELTA : double := d_lit 5 1000.
Definition DEBUG_QUEUE_SENT : nat := 100.
Definition DEBUG_QUEUE_RECEIVE : nat := 100.
Definition INPUT_BUF_SIZE : Z := 4096.

Record command_queue := mk_cq { stalled_queue : list queue_message; ready_queue : list queue_message }.
#[export] Instance command_queue_eta : Eta command_queue := fun r =>
  mk_cq (stalled_queue r) (ready_queue r).

(** [struct fastreader]; the callback is named by [fr_id]. *)
Record fastreader := mk_fr { fr_id : Z; fr_prefix : list Z }.

(** The fields of [struct serialqueue], grouped as its comments group them.
    A [command_queue] is named by a number; [input_buf] holds the [input_pos]
    bytes in use. *)
Record sq_input := mk_sq_input { input_buf : list Z; need_sync : bool }.
#[export] Instance sq_input_eta : Eta sq_input := fun r => mk_sq_input (input_buf r) (need_sync r).

Record sq_clock := mk_sq_clock {
  receive_window : Z;
  bittime_adjust : double;
  idle_time : double;
  sq_ce : clock_estimate;
  last_receive_sent_time : double;
  srtt : double;
  rttvar : double;
  rto : double
}.
#[export] Instance sq_clock_eta : Eta sq_clock := fun r =>
  mk_sq_clock (receive_window r) (bittime_adjust r) (idle_time r) (sq_ce r)
    (last_receive_sent_time r) (srtt r) (rttvar r) (rto r).

Record sq_retransmit := mk_sq_retransmit {
  send_seq : Z;
  receive_seq : Z;
  ignore_nak_seq : Z;
  last_ack_seq : Z;
  retransmit_seq : Z;
  rtt_sample_seq : Z;
  sent_queue : list queue_message
}.
#[export] Instance sq_retransmit_eta : Eta sq_retransmit := fun r =>
  mk_sq_retransmit (send_seq r) (receive_seq r) (ignore_nak_seq r) (last_ack_seq r)
    (retransmit_seq r) (rtt_sample_seq r) (sent_queue r).

Record sq_pending := mk_sq_pending {
  cqs : gmap Z command_queue;
  pending_queues : list Z;
  ready_bytes : Z;
  stalled_bytes : Z;
  need_ack_bytes : Z;
  last_ack_bytes : Z;
  need_kick_clock : Z;
  notify_queue : list queue_message
}.
#[export] Instance sq_pending_eta : Eta sq_pending := fun r =>
  mk_sq_pending (cqs r) (pending_queues r) (ready_bytes r) (stalled_bytes r) (need_ack_bytes r)
    (last_ack_bytes r) (need_kick_clock r) (notify_queue r).

Record sq_receive := mk_sq_receive {
  receive_waiting : bool;
  receive_queue : list queue_message;
  fast_readers : list fastreader;
  old_sent : list queue_message;
  old_receive : list queue_message
}.
#[export] Instance sq_receive_eta : Eta sq_receive := fun r =>
  mk_sq_receive (receive_waiting r) (receive_queue r) (fast_readers r) (old_sent r) (old_receive r).

Record sq_stats := mk_sq_stats {
  bytes_write : Z; bytes_read : Z; bytes_retransmit : Z; bytes_invalid : Z
}.
#[export] Instance sq_stats_eta : Eta sq_stats := fun r =>
  mk_sq_stats (bytes_write r) (bytes_read r) (bytes_retransmit r) (bytes_invalid r).

(** What left the process: the buffers written to the serial line (one per
    frame on CAN) and the bytes written to the wake-up pipe. *)
Record sq_output := mk_sq_output { wire : list (list Z); kicks : nat }.
#[export] Instance sq_output_eta : Eta sq_output := fun r => mk_sq_output (wire r) (kicks r).

Record serialqueue := mk_sq {
  serial_fd_type : fd_kind;
  sq_pr : pollreactor;
  q_in : sq_input;
  q_clk : sq_clock;
  q_seq : sq_retransmit;
  q_pend : sq_pending;
  q_recv : sq_receive;
  q_stats : sq_stats;
  q_out : sq_output
}.
#[export] Instance serialqueue_eta : Eta serialqueue := fun r =>
  mk_sq (serial_fd_type r) (sq_pr r) (q_in r) (q_clk r) (q_seq r) (q_pend r) (q_recv r)
    (q_stats r) (q_out r).

Abbreviation SQ := (M serialqueue).

Definition upd_in (f : sq_input -> sq_input) : SQ unit := modify (fun s => s <| q_in ::= f |>).
Definition upd_clk (f : sq_clock -> sq_clock) : SQ unit := modify (fun s => s <| q_clk ::= f |>).
Definition upd_seq (f : sq_retransmit -> sq_retransmit) : SQ unit := modify (fun s => s <| q_seq ::= f |>).
Definition upd_pend (f : sq_pending -> sq_pending) : SQ unit := modify (fun s => s <| q_pend ::= f |>).
Definition upd_recv (f : sq_receive -> sq_receive) : SQ unit := modify (fun s => s <| q_recv ::= f |>).
Definition upd_stats (f : sq_stats -> sq_stats) : SQ unit := modify (fun s => s <| q_stats ::= f |>).
Definition upd_out (f : sq_output -> sq_output) : SQ unit := modify (fun s => s <| q_out ::= f |>).
Definition upd_pr (f : pollreactor -> pollreactor) : SQ unit := modify (fun s => s <| sq_pr ::= f |>).

(** ** Helpers *)

Definition debug_queue_alloc (count : nat) : list queue_message := replicate count message_alloc.

(** [debug_queue_add]: the oldest entry makes room. *)
Definition debug_queue_add (root : list queue_message) (qm : queue_message) : list queue_message :=
  tail (root ++ [qm]).

Definition check_wake_receive : SQ unit := upd_recv (upd receive_waiting (fun _ => false)).

Definition kick_bg_thread : SQ unit := upd_out (upd kicks S).

Definition CANBUS_PACKET_BITS : Z := (1 + 11 + 3 + 4) + (16 + 2 + 7 + 3).
Definition CANBUS_IFS_BITS : Z := 4.

Definition calculate_bittime (sq : serialqueue) (bytes : Z) : double :=
  let bytes := u32 bytes in
  match serial_fd_type sq with
  | SQT_CAN =>
      let pkts := u32 (bytes + 8 - 1) / 8 in
      let bits := u32 (bytes * 8 + pkts * CANBUS_PACKET_BITS - CANBUS_IFS_BITS) in
      dmul (bittime_adjust (q_clk sq)) (d_of_Z bits)
  | _ => dmul (bittime_adjust (q_clk sq)) (d_of_Z bytes)
  end.

(** [eventtime > sq->idle_time ? eventtime : sq->idle_time] *)
Definition busy_until (sq : serialqueue) (eventtime : double) : double :=
  if dlt (idle_time (q_clk sq)) eventtime then eventtime else idle_time (q_clk sq).

(** ** Acknowledgements *)

(** The loop of [update_receive_seq] that removes acknowledged blocks. *)
Fixpoint ack_loop (sent : list queue_message) (sent_seq rseq : Z) : SQ unit :=
  match sent with
  | [] =>
      upd_seq (fun q => q <| send_seq := rseq |> <| sent_queue := [] |>) ;;
      upd_clk (upd last_receive_sent_time (fun _ => d_zero))
  | m :: sent =>
      upd_pend (upd need_ack_bytes (fun n => n - qm_len m)) ;;
      upd_seq (upd sent_queue (fun _ => sent)) ;;
      upd_recv (upd old_sent (fun l => debug_queue_add l m)) ;;
      let sent_seq := u64 (sent_seq + 1) in
      if rseq =? sent_seq then
        upd_clk (upd last_receive_sent_time (fun _ => qm_receive_time m)) ;;
        upd_pend (upd last_ack_bytes (fun _ => qm_len m))
      else ack_loop sent sent_seq rseq
  end.

(** The RFC6298 calculation for a round trip of [delta]. *)
Definition update_rtt (delta : double) (c : sq_clock) : sq_clock :=
  let '(var, srt) :=
    if negb (d_truth (srtt c))
    then (ddiv delta (d_of_Z 2), dmul delta (d_of_Z 10))
    else (ddiv (dadd (dmul (d_of_Z 3) (rttvar c)) (dabs (dsub (srtt c) delta))) (d_of_Z 4),
          ddiv (dadd (dmul (d_of_Z 7) (srtt c)) delta) (d_of_Z 8)) in
  let rttvar4 := dmul var (d_of_Z 4) in
  let rttvar4 := if dlt rttvar4 (d_lit 1 1000) then d_lit 1 1000 else rttvar4 in
  let r := dadd srt rttvar4 in
  let r := if dlt r MIN_RTO then MIN_RTO else if dlt MAX_RTO r then MAX_RTO else r in
  c <| rttvar := var |> <| srtt := srt |> <| rto := r |>.

Definition update_receive_seq (eventtime : double) (rseq : Z) : SQ unit :=
  sq ← gets (fun s => s);
  ack_loop (sent_queue (q_seq sq)) (receive_seq (q_seq sq)) rseq ;;
  upd_seq (upd receive_seq (fun _ => rseq)) ;;
  upd_pr (pollreactor_update_timer SQPT_COMMAND PR_NOW) ;;
  sq ← gets (fun s => s);
  (if truth (rtt_sample_seq (q_seq sq)) && (rseq >? rtt_sample_seq (q_seq sq))
      && d_truth (last_receive_sent_time (q_clk sq))
   then
     upd_clk (update_rtt (dsub eventtime (last_receive_sent_time (q_clk sq)))) ;;
     upd_seq (upd rtt_sample_seq (fun _ => 0))
   else mret tt) ;;
  sq ← gets (fun s => s);
  match sent_queue (q_seq sq) with
  | [] => upd_pr (pollreactor_update_timer SQPT_RETRANSMIT PR_NEVER)
  | m :: _ =>
      upd_pr (pollreactor_update_timer SQPT_RETRANSMIT
                (dadd (dadd eventtime (rto (q_clk sq))) (calculate_bittime sq (qm_len m))))
  end.

(** The loop over [notify_queue] of [handle_message]: the messages whose
    block was received move to the receive queue.  The result tells whether
    there were any. *)
Fixpoint notify_loop (l : list queue_message) (wake_seq : Z) (eventtime : double) : SQ bool :=
  match l with
  | [] => mret false
  | qm :: l =>
      if qm_req_clock qm >? wake_seq then mret false
      else
        t ← gets (fun s => last_receive_sent_time (q_clk s));
        upd_pend (upd notify_queue (fun _ => l)) ;;
        upd_recv (upd receive_queue (fun q =>
          q ++ [qm <| qm_msg := [] |> <| qm_sent_time := t |> <| qm_receive_time := eventtime |>])) ;;
        _ ← notify_loop l wake_seq eventtime;
        mret true
  end.

(** The first fast reader whose prefix the message starts with. *)
Definition match_fastreader (msg : list Z) (len : Z) (fr : fastreader) : bool :=
  negb (len <? Z.of_nat (length (fr_prefix fr)) + MESSAGE_MIN)
  && bool_decide (take (length (fr_prefix fr)) (drop (Z.to_nat MESSAGE_HEADER_SIZE) msg) = fr_prefix fr).

(** [handle_message] on the block at the start of [input_buf]; [now] is what
    [get_monotonic] returns.  The result is the fast reader to call. *)
Definition handle_message (eventtime now : double) (len : Z) : SQ (option fastreader) :=
  sq ← gets (fun s => s);
  let rcv := receive_seq (q_seq sq) in
  let low := Z.land (default 0 (input_buf (q_in sq) !! MESSAGE_POS_SEQ)) MESSAGE_SEQ_MASK in
  let rseq := Z.lor (clr rcv MESSAGE_SEQ_MASK) low in
  let rseq := if rseq <? rcv then u64 (rseq + MESSAGE_SEQ_MASK + 1) else rseq in
  if negb (rseq =? rcv) && (rseq >? send_seq (q_seq sq)) && negb (rcv =? 1) then
    upd_stats (upd bytes_invalid (fun n => u32 (n + len))) ;; mret None
  else
    (if negb (rseq =? rcv) then update_receive_seq eventtime rseq else mret tt) ;;
    upd_stats (upd bytes_read (fun n => u32 (n + len))) ;;
    sq ← gets (fun s => s);
    let wake_seq := u64 (rseq - 1 - b2z (len >? MESSAGE_MIN)) in
    notified ← notify_loop (notify_queue (q_pend sq)) wake_seq eventtime;
    must_wake ←
      (if len =? MESSAGE_MIN then
         (if last_ack_seq (q_seq sq) <? rseq then upd_seq (upd last_ack_seq (fun _ => rseq))
          else if (rseq >? ignore_nak_seq (q_seq sq))
                  && negb (bool_decide (sent_queue (q_seq sq) = []))
          then upd_pr (pollreactor_update_timer SQPT_RETRANSMIT PR_NOW)
          else mret tt) ;;
         mret notified
       else
         let qm := message_fill (take (Z.to_nat len) (input_buf (q_in sq))) in
         let t := if rseq >? retransmit_seq (q_seq sq) then last_receive_sent_time (q_clk sq) else d_zero in
         upd_recv (upd receive_queue (fun q =>
           q ++ [qm <| qm_sent_time := t |> <| qm_receive_time := dsub now (calculate_bittime sq len) |>])) ;;
         mret true);
    (if must_wake : bool then check_wake_receive else mret tt) ;;
    mret (List.find (match_fastreader (input_buf (q_in sq)) len) (fast_readers (q_recv sq))).

(** ** Input *)

Section Input.
(** The effect of a fast reader's callback on this object: called with the
    reader and the message. *)
Context (fr_call : fastreader -> list Z -> SQ unit).

(** The [for (;;)] of [input_event]: every turn consumes a block or bad
    data. *)
Fixpoint input_loop (fuel : nat) (eventtime now : double) : SQ unit :=
  match fuel with
  | O => lift_res OutOfFuel
  | S fuel =>
      i ← gets q_in;
      let '(len, sync) := msgblock_check (need_sync i) (input_buf i) in
      upd_in (upd need_sync (fun _ => sync)) ;;
      if len =? 0 then mret tt
      else
        (if len >? 0 then
           fr ← handle_message eventtime now len;
           match fr with
           | Some fr => fr_call fr (take (Z.to_nat len) (input_buf i))
           | None => mret tt
           end
         else upd_stats (upd bytes_invalid (fun n => u32 (n + - len)))) ;;
        upd_in (upd input_buf (drop (Z.to_nat (Z.abs len)))) ;;
        input_loop fuel eventtime now
  end.

(** [input_event]; [data] is what the [read] of the serial line returned: at
    most the room left in [input_buf] on a serial line, the data of one frame
    for this client on CAN, [None] for an error or end of file. *)
Definition input_event (eventtime now : double) (data : option (list Z)) : SQ unit :=
  match data with
  | None => upd_pr pollreactor_do_exit
  | Some data =>
      i ← gets q_in;
      if Z.of_nat (length (input_buf i) + length data) >? INPUT_BUF_SIZE then fault "input_buf overflow"
      else
        upd_in (upd input_buf (fun b => b ++ data)) ;;
        input_loop (S (length (input_buf i) + length data)) eventtime now
  end.
End Input.

Definition kick_event : SQ unit := upd_pr (pollreactor_update_timer SQPT_COMMAND PR_NOW).

(** The frames of at most eight bytes of a CAN transmission. *)
Fixpoint can_frames (fuel : nat) (buf : list Z) : list (list Z) :=
  match fuel, buf with
  | S fuel, _ :: _ => take 8 buf :: can_frames fuel (drop 8 buf)
  | _, _ => []
  end.

Definition do_write (buf : list Z) : SQ unit :=
  sq ← gets (fun s => s);
  match serial_fd_type sq with
  | SQT_CAN => upd_out (upd wire (fun w => w ++ can_frames (length buf) buf))
  | _ => upd_out (upd wire (fun w => w ++ [buf]))
  end.

(** ** Retransmission *)

Definition retransmit_event (eventtime : double) : SQ double :=
  sq ← gets (fun s => s);
  let sent := sent_queue (q_seq sq) in
  let buf := MESSAGE_SYNC :: concat (qm_msg <$> sent) in
  let buflen := Z.of_nat (length buf) in
  let first_buflen := match sent with [] => 0 | m :: _ => qm_len m + 1 end in
  if buflen >? MESSAGE_MAX * MAX_PENDING_BLOCKS + 1 then fault "retransmit buf overflow"
  else
    do_write buf ;;
    upd_stats (upd bytes_retransmit (fun n => u32 (n + buflen))) ;;
    (if deq (pollreactor_get_timer SQPT_RETRANSMIT (sq_pr sq)) PR_NOW then
       upd_seq (fun q => q <| ignore_nak_seq :=
                  if receive_seq q <? retransmit_seq q then retransmit_seq q else receive_seq q |>)
     else
       upd_clk (fun c => let r := dmul (rto c) (d_of_Z 2) in
                         c <| rto := if dlt MAX_RTO r then MAX_RTO else r |>) ;;
       upd_seq (fun q => q <| ignore_nak_seq := send_seq q |>)) ;;
    upd_seq (fun q => q <| retransmit_seq := send_seq q |> <| rtt_sample_seq := 0 |>) ;;
    upd_clk (upd idle_time (fun _ => dadd eventtime (calculate_bittime sq buflen))) ;;
    sq ← gets (fun s => s);
    mret (dadd (dadd eventtime (rto (q_clk sq))) (calculate_bittime sq first_buflen)).

(** ** Transmission *)

(** The search for the highest priority message of [build_and_send_command]:
    the queue and the message with the lowest [req_clock]. *)
Definition pick_min (q : sq_pending) (best : Z * option (Z * queue_message)) (id : Z)
    : Z * option (Z * queue_message) :=
  match cqs q !! id with
  | Some cq =>
      match ready_queue cq with
      | m :: _ => if qm_req_clock m <? best.1 then (qm_req_clock m, Some (id, m)) else best
      | [] => best
      end
  | None => best
  end.

Definition find_ready (q : sq_pending) : option (Z * queue_message) :=
  (foldl (pick_min q) (MAX_CLOCK, None) (pending_queues q)).2.

(** Removal of the head of the ready queue of [id], whose [command_queue] is
    unlinked when it is empty. *)
Definition pop_ready (id : Z) (qm : queue_message) (q : sq_pending) : sq_pending :=
  match cqs q !! id with
  | Some cq =>
      let cq := cq <| ready_queue ::= tail |> in
      let q := q <| cqs ::= <[id := cq]> |> <| ready_bytes ::= fun n => n - qm_len qm |> in
      if bool_decide (ready_queue cq = []) && bool_decide (stalled_queue cq = [])
      then q <| pending_queues ::= filter (fun i => i <> id) |> else q
  | None => q
  end.

(** The [while (sq->ready_bytes)] of [build_and_send_command]; [acc] is what
    was copied to [&buf[MESSAGE_HEADER_SIZE]]. *)
Fixpoint build_loop (fuel : nat) (acc : list Z) : SQ (list Z) :=
  sq ← gets (fun s => s);
  if negb (truth (ready_bytes (q_pend sq))) then mret acc
  else
    match fuel with
    | O => lift_res OutOfFuel
    | S fuel =>
        match find_ready (q_pend sq) with
        | None => fault "qm is NULL"
        | Some (id, qm) =>
            let len := MESSAGE_HEADER_SIZE + Z.of_nat (length acc) in
            if len + qm_len qm >? MESSAGE_MAX - MESSAGE_TRAILER_SIZE then mret acc
            else
              upd_pend (pop_ready id qm) ;;
              (if truth (qm_notify_id qm) then
                 upd_pend (upd notify_queue (fun l => l ++ [qm <| qm_req_clock := send_seq (q_seq sq) |>]))
               else mret tt) ;;
              build_loop fuel (acc ++ qm_msg qm)
        end
    end.

(** Sum over all command queues. *)
Definition msum (g : command_queue -> Z) (m : gmap Z command_queue) : Z :=
  map_fold (fun _ cq n => g cq + n) 0 m.

(** Number of messages in the ready queues. *)
Definition ready_count (q : sq_pending) : nat :=
  Z.to_nat (msum (fun cq => Z.of_nat (length (ready_queue cq))) (cqs q)).

(** Header and trailer around the payload. *)
Definition block_of (seq : Z) (payload : list Z) : list Z :=
  let len := MESSAGE_HEADER_SIZE + Z.of_nat (length payload) + MESSAGE_TRAILER_SIZE in
  let body := u8 len :: u8 (Z.lor MESSAGE_DEST (Z.land seq MESSAGE_SEQ_MASK)) :: payload in
  let crc := msgblock_crc16_ccitt body (Z.to_nat (len - MESSAGE_TRAILER_SIZE)) in
  body ++ [u8 (Z.shiftr crc 8); Z.land crc 0xff; MESSAGE_SYNC].

(** [build_and_send_command]: the block appended to the output buffer that
    already holds [pending] bytes. *)
Definition build_and_send_command (pending : Z) (eventtime : double) : SQ (list Z) :=
  sq ← gets (fun s => s);
  payload ← build_loop (S (ready_count (q_pend sq))) [];
  sq ← gets (fun s => s);
  let block := block_of (send_seq (q_seq sq)) payload in
  let len := Z.of_nat (length block) in
  let idletime := dadd (busy_until sq eventtime) (calculate_bittime sq (pending + len)) in
  let out := message_alloc <| qm_msg := block |> <| qm_sent_time := eventtime |>
                           <| qm_receive_time := idletime |> in
  (if bool_decide (sent_queue (q_seq sq) = [])
   then upd_pr (pollreactor_update_timer SQPT_RETRANSMIT (dadd idletime (rto (q_clk sq))))
   else mret tt) ;;
  upd_seq (fun q => q <| rtt_sample_seq := if truth (rtt_sample_seq q) then rtt_sample_seq q else send_seq q |>
                      <| send_seq := u64 (send_seq q + 1) |>
                      <| sent_queue ::= fun l => l ++ [out] |>) ;;
  upd_pend (upd need_ack_bytes (fun n => n + len)) ;;
  mret block.

(** The messages of a stalled queue whose [min_clock] has come, the rest, and
    the [min_clock] of the first that has to wait. *)
Fixpoint split_stalled (ack_clock : Z) (l : list queue_message) : list queue_message * list queue_message :=
  match l with
  | [] => ([], [])
  | m :: l =>
      if ack_clock <? qm_min_clock m then ([], m :: l)
      else let '(a, b) := split_stalled ack_clock l in (m :: a, b)
  end.

Definition total_len (l : list queue_message) : Z := foldr (fun m n => qm_len m + n) 0 l.

(** One turn of [list_for_each_entry] in [check_send_command]: the new object
    and the pair [(min_stalled_clock, min_ready_clock)]; [bg] is the clock of
    background messages. *)
Definition unstall (ack_clock : Z) (bg : res Z) (st : sq_pending * (Z * Z)) (id : Z)
    : res (sq_pending * (Z * Z)) :=
  let '(q, (min_stalled, min_ready)) := st in
  match cqs q !! id with
  | None => Ok st
  | Some cq =>
      let '(now, later) := split_stalled ack_clock (stalled_queue cq) in
      let cq := mk_cq later (ready_queue cq ++ now) in
      let q := q <| cqs ::= <[id := cq]> |> <| stalled_bytes ::= fun n => n - total_len now |>
                 <| ready_bytes ::= fun n => n + total_len now |> in
      let min_stalled := match later with
                         | m :: _ => if qm_min_clock m <? min_stalled then qm_min_clock m else min_stalled
                         | [] => min_stalled
                         end in
      match ready_queue cq with
      | [] => Ok (q, (min_stalled, min_ready))
      | m :: _ =>
          c ← (if qm_req_clock m =? BACKGROUND_PRIORITY_CLOCK then bg else Ok (qm_req_clock m));
          Ok (q, (min_stalled, if c <? min_ready then c else min_ready))
      end
  end.

Fixpoint unstall_all (ack_clock : Z) (bg : res Z) (st : sq_pending * (Z * Z)) (ids : list Z)
    : res (sq_pending * (Z * Z)) :=
  match ids with
  | [] => Ok st
  | id :: ids => st ← unstall ack_clock bg st id; unstall_all ack_clock bg st ids
  end.

(** [check_send_command]: when the next data should be sent. *)
Definition check_send_command (pending : Z) (eventtime : double) : SQ double :=
  sq ← gets (fun s => s);
  let seq := q_seq sq in
  if (u64 (send_seq seq - receive_seq seq) >=? MAX_PENDING_BLOCKS)
     && negb (receive_seq seq =? 2 ^ 64 - 1)
  then mret PR_NEVER
  else if (send_seq seq >? receive_seq seq) && truth (receive_window (q_clk sq))
          && (need_ack_bytes (q_pend sq) + MESSAGE_MAX
              + (if last_ack_seq seq <? receive_seq seq then last_ack_bytes (q_pend sq) else 0)
              >? receive_window (q_clk sq))
  then mret PR_NEVER
  else
    let c := q_clk sq in
    let idletime := dadd (busy_until sq eventtime) (calculate_bittime sq (pending + MESSAGE_MIN)) in
    ack_clock ← lift_res (clock_from_time (sq_ce c) idletime);
    let bgtime := if truth pending then idletime else idle_time c in
    let bg := clock_from_time (sq_ce c) (dadd bgtime (dadd MIN_REQTIME_DELTA MIN_BACKGROUND_DELTA)) in
    '(q, (min_stalled, min_ready)) ← lift_res
      (unstall_all ack_clock bg (q_pend sq, (MAX_CLOCK, MAX_CLOCK)) (pending_queues (q_pend sq)));
    upd_pend (fun _ => q) ;;
    if ready_bytes q >=? MESSAGE_PAYLOAD_MAX then mret PR_NOW
    else if negb (d_truth (ce_est_freq (sq_ce c))) then
      (if truth (ready_bytes q) then mret PR_NOW
       else upd_pend (upd need_kick_clock (fun _ => MAX_CLOCK)) ;; mret PR_NEVER)
    else
      reqclock_delta ← lift_res (d_to_u64 (dmul MIN_REQTIME_DELTA (ce_est_freq (sq_ce c))));
      if min_ready <=? u64 (ack_clock + reqclock_delta) then mret PR_NOW
      else
        let wantclock := u64 (min_ready - reqclock_delta) in
        let wantclock := if min_stalled <? wantclock then min_stalled else wantclock in
        upd_pend (upd need_kick_clock (fun _ => wantclock)) ;;
        mret (dadd idletime (ddiv (d_of_Z (u64 (wantclock - ack_clock))) (ce_est_freq (sq_ce c)))).

(** [sizeof(buf)] in [command_event]. *)
Definition COMMAND_BUF : Z := MESSAGE_MAX * MAX_PENDING_BLOCKS.

(** The [for (;;)] of [command_event]; [buf] is what waits to be written. *)
Fixpoint command_loop (fuel : nat) (buf : list Z) (eventtime : double) : SQ double :=
  match fuel with
  | O => lift_res OutOfFuel
  | S fuel =>
      let buflen := Z.of_nat (length buf) in
      waketime ← check_send_command buflen eventtime;
      let now := deq waketime PR_NOW in
      buf ←
        (if negb now || (buflen + MESSAGE_MAX >? COMMAND_BUF) then
           (if truth buflen then
              do_write buf ;;
              upd_stats (upd bytes_write (fun n => u32 (n + buflen))) ;;
              sq ← gets (fun s => s);
              upd_clk (upd idle_time (fun _ => dadd (busy_until sq eventtime) (calculate_bittime sq buflen)))
            else mret tt) ;;
           mret []
         else mret buf);
      if negb now then mret waketime
      else
        block ← build_and_send_command (Z.of_nat (length buf)) eventtime;
        command_loop fuel (buf ++ block) eventtime
  end.

Definition command_event (fuel : nat) (eventtime : double) : SQ double :=
  command_loop fuel [] eventtime.

(** ** Interface *)

(** [serialqueue_alloc] up to the creation of the thread. *)
Definition serialqueue_alloc (kind : fd_kind) : serialqueue :=
  let debug := match kind with SQT_DEBUGFILE => true | _ => false end in
  mk_sq kind (pollreactor_alloc SQPT_NUM) (mk_sq_input [] false)
    (mk_sq_clock 0 d_zero d_zero (mk_ce 0 0 d_zero d_zero) d_zero d_zero d_zero
       (if debug then PR_NEVER else MIN_RTO))
    (mk_sq_retransmit 1 (if debug then 2 ^ 64 - 1 else 1) 0 0 0 0 [])
    (mk_sq_pending ∅ [] 0 0 0 0 MAX_CLOCK [])
    (mk_sq_receive false [] [] (debug_queue_alloc DEBUG_QUEUE_SENT) (debug_queue_alloc DEBUG_QUEUE_RECEIVE))
    (mk_sq_stats 0 0 0 0) (mk_sq_output [] 0).

(** [serialqueue_alloc_commandqueue]: [id] names the new, unused object. *)
Definition serialqueue_alloc_commandqueue (id : Z) : SQ unit :=
  upd_pend (upd cqs (<[id := mk_cq [] []]>)).

(** [serialqueue_free_commandqueue] keeps a queue that is not empty. *)
Definition serialqueue_free_commandqueue (id : Z) : SQ unit :=
  upd_pend (fun q => match cqs q !! id with
                     | Some (mk_cq [] []) => q <| cqs ::= delete id |>
                     | _ => q
                     end).

Definition serialqueue_add_fastreader (fr : fastreader) : SQ unit :=
  upd_recv (upd fast_readers (fun l => l ++ [fr])).

Definition serialqueue_rm_fastreader (id : Z) : SQ unit :=
  upd_recv (upd fast_readers (filter (fun fr => fr_id fr <> id))).

(** The clamp of [min_clock] in [serialqueue_send_batch]. *)
Definition clamp_min_clock (qm : queue_message) : queue_message :=
  if (u64 (qm_min_clock qm + 2 ^ 31) <? qm_req_clock qm)
     && negb (qm_req_clock qm =? BACKGROUND_PRIORITY_CLOCK)
  then qm <| qm_min_clock := u64 (qm_req_clock qm - 2 ^ 31) |> else qm.

Definition serialqueue_send_batch (id : Z) (msgs : list queue_message) : SQ unit :=
  let msgs := clamp_min_clock <$> msgs in
  let len := total_len msgs in
  match msgs with
  | [] => mret tt
  | first :: _ =>
      if negb (truth len) then mret tt
      else
        sq ← gets (fun s => s);
        match cqs (q_pend sq) !! id with
        | None => fault "cq"
        | Some cq =>
            upd_pend (fun q =>
              (if bool_decide (ready_queue cq = []) && bool_decide (stalled_queue cq = [])
               then q <| pending_queues ::= fun l => l ++ [id] |> else q)
              <| cqs ::= <[id := cq <| stalled_queue ::= fun l => l ++ msgs |>]> |>
              <| stalled_bytes ::= fun n => n + len |>) ;;
            if qm_min_clock first <? need_kick_clock (q_pend sq) then
              upd_pend (upd need_kick_clock (fun _ => 0)) ;; kick_bg_thread
            else mret tt
        end
  end.

Definition serialqueue_send_one (id : Z) (qm : queue_message) : SQ unit :=
  serialqueue_send_batch id [qm].

Definition serialqueue_send (id : Z) (msg : list Z) (min_clock req_clock notify_id : Z) : SQ unit :=
  serialqueue_send_one id ((message_fill msg) <| qm_min_clock := min_clock |> <| qm_req_clock := req_clock |>
                                              <| qm_notify_id := notify_id |>).

(** [serialqueue_pull]: a message, the end of the thread ([Some None]), or a
    wait on the condition variable ([None]). *)
Definition serialqueue_pull : SQ (option (option queue_message)) :=
  sq ← gets (fun s => s);
  match receive_queue (q_recv sq) with
  | [] =>
      if pollreactor_is_exit (sq_pr sq) then mret (Some None)
      else upd_recv (upd receive_waiting (fun _ => true)) ;; mret None
  | qm :: l =>
      upd_recv (fun r => r <| receive_queue := l |>
                           <| old_receive ::= fun o => if bool_decide (qm_msg qm = []) then o
                                                       else debug_queue_add o qm |>) ;;
      mret (Some (Some qm))
  end.

Definition serialqueue_set_wire_frequency (frequency : double) : SQ unit :=
  sq ← gets (fun s => s);
  match serial_fd_type sq with
  | SQT_CAN => upd_clk (upd bittime_adjust (fun _ => ddiv (d_of_Z 1) frequency))
  | _ => upd_clk (upd bittime_adjust (fun _ => ddiv (d_of_Z 10) frequency))
  end.

Definition serialqueue_set_receive_window (window : Z) : SQ unit :=
  upd_clk (upd receive_window (fun _ => window)).

Definition serialqueue_set_clock_est (est_freq conv_time : double) (conv_clock last_clock : Z) : SQ unit :=
  upd_clk (upd sq_ce (fun _ => mk_ce last_clock conv_clock conv_time est_freq)).

Definition serialqueue_get_clock_est (sq : serialqueue) : clock_estimate := sq_ce (q_clk sq).

(** [serialqueue_extract_old]: the stored messages, oldest first, and fresh
    empty ones in their place. *)
Definition serialqueue_extract_old (sentq : bool) (max : nat) : SQ (list queue_message) :=
  sq ← gets (fun s => s);
  let current := if sentq then old_sent (q_recv sq) else old_receive (q_recv sq) in
  (if sentq then upd_recv (upd old_sent (fun _ => debug_queue_alloc DEBUG_QUEUE_SENT))
   else upd_recv (upd old_receive (fun _ => debug_queue_alloc DEBUG_QUEUE_RECEIVE))) ;;
  mret (take max (filter (fun m => qm_msg m <> []) current)).

Definition serialqueue_exit : SQ unit := upd_pr pollreactor_do_exit ;; kick_bg_thread.

(** [serialqueue_free]: the thread ends and the messages are released. *)
Definition serialqueue_free : SQ unit :=
  sq ← gets (fun s => s);
  (if pollreactor_is_exit (sq_pr sq) then mret tt else serialqueue_exit) ;;
  upd_seq (upd sent_queue (fun _ => [])) ;;
  upd_recv (fun r => r <| receive_queue := [] |> <| old_sent := [] |> <| old_receive := [] |>) ;;
  upd_pend (fun q => q <| notify_queue := [] |> <| pending_queues := [] |>
                       <| cqs ::= fun m => foldr (fun id m => <[id := mk_cq [] []]> m) m (pending_queues q) |>).

(** The timers of the background thread: [retransmit_event] and
    [command_event]. *)
Definition sq_callback (fuel : nat) (timer : nat) (eventtime : double) : SQ double :=
  if (timer =? SQPT_RETRANSMIT)%nat then retransmit_event eventtime else command_event fuel eventtime.

Definition sq_check_timers (fuel : nat) : double -> bool -> SQ Z :=
  pollreactor_check_timers sq_pr (fun f s => s <| sq_pr ::= f |>) (sq_callback fuel).

(** ** Frames *)

(** The components of the object are updated independently. *)
Ltac sq_frame := intros; apply keeps_modify; intros; reflexivity.

Lemma upd_pend_seq f : keeps q_seq (upd_pend f). Proof. sq_frame. Qed.
Lemma upd_pr_seq f : keeps q_seq (upd_pr f). Proof. sq_frame. Qed.
Lemma upd_clk_seq f : keeps q_seq (upd_clk f). Proof. sq_frame. Qed.
Lemma upd_recv_seq f : keeps q_seq (upd_recv f). Proof. sq_frame. Qed.
Lemma upd_stats_seq f : keeps q_seq (upd_stats f). Proof. sq_frame. Qed.
Lemma upd_out_seq f : keeps q_seq (upd_out f). Proof. sq_frame. Qed.
Lemma upd_in_seq f : keeps q_seq (upd_in f). Proof. sq_frame. Qed.
#[export] Hint Resolve upd_pend_seq upd_pr_seq upd_clk_seq upd_recv_seq upd_stats_seq upd_out_seq
  upd_in_seq : keeps.

Lemma upd_pend_out f : keeps q_out (upd_pend f). Proof. sq_frame. Qed.
Lemma upd_pr_out f : keeps q_out (upd_pr f). Proof. sq_frame. Qed.
Lemma upd_clk_out f : keeps q_out (upd_clk f). Proof. sq_frame. Qed.
Lemma upd_recv_out f : keeps q_out (upd_recv f). Proof. sq_frame. Qed.
Lemma upd_stats_out f : keeps q_out (upd_stats f). Proof. sq_frame. Qed.
Lemma upd_seq_out f : keeps q_out (upd_seq f). Proof. sq_frame. Qed.
#[export] Hint Resolve upd_pend_out upd_pr_out upd_clk_out upd_recv_out upd_stats_out upd_seq_out : keeps.

Lemma upd_pend_kind f : keeps serial_fd_type (upd_pend f). Proof. sq_frame. Qed.
Lemma upd_pr_kind f : keeps serial_fd_type (upd_pr f). Proof. sq_frame. Qed.
Lemma upd_clk_kind f : keeps serial_fd_type (upd_clk f). Proof. sq_frame. Qed.
Lemma upd_recv_kind f : keeps serial_fd_type (upd_recv f). Proof. sq_frame. Qed.
Lemma upd_stats_kind f : keeps serial_fd_type (upd_stats f). Proof. sq_frame. Qed.
Lemma upd_seq_kind f : keeps serial_fd_type (upd_seq f). Proof. sq_frame. Qed.
Lemma upd_out_kind f : keeps serial_fd_type (upd_out f). Proof. sq_frame. Qed.
#[export] Hint Resolve upd_pend_kind upd_pr_kind upd_clk_kind upd_recv_kind upd_stats_kind upd_seq_kind
  upd_out_kind : keeps.

Lemma build_loop_keeps {C : Type} (g : serialqueue -> C) fuel acc :
  (forall f, keeps g (upd_pend f)) -> keeps g (build_loop fuel acc).
Proof.
  intros Hg. revert acc. induction fuel as [| fuel IH]; intros acc; cbn [build_loop].
  - keeps_tac.
  - apply keeps_bind; [apply keeps_gets | intros sq]. destruct (negb _); [apply keeps_ret |].
    destruct (find_ready _) as [[id qm] |]; [| apply keeps_fault]. cbv zeta.
    destruct (_ >? _); [apply keeps_ret |]. apply keeps_bind; [apply Hg | intros _].
    apply keeps_bind; [destruct (truth _); [apply Hg | apply keeps_ret] | intros _; apply IH].
Qed.

Lemma check_send_keeps {C : Type} (g : serialqueue -> C) pending eventtime :
  (forall f, keeps g (upd_pend f)) -> keeps g (check_send_command pending eventtime).
Proof.
  intros Hg. unfold check_send_command. apply keeps_bind; [apply keeps_gets | intros sq]. cbv zeta.
  destruct (_ && negb _); [apply keeps_ret |]. destruct (_ && _ && _); [apply keeps_ret |].
  apply keeps_bind; [apply keeps_lift | intros ack]. apply keeps_bind; [apply keeps_lift |].
  intros [q [ms mr]]. apply keeps_bind; [apply Hg | intros _]. destruct (_ >=? _); [apply keeps_ret |].
  destruct (negb _).
  { destruct (truth _); [apply keeps_ret |]. apply keeps_bind; [apply Hg | intros; apply keeps_ret]. }
  apply keeps_bind; [apply keeps_lift | intros rd]. destruct (_ <=? _); [apply keeps_ret |].
  apply keeps_bind; [apply Hg | intros; apply keeps_ret].
Qed.

(** ** Blocks and the send window *)

(** The payload of a block fits between header and trailer. *)
Lemma build_loop_length fuel acc sq payload sq' :
  build_loop fuel acc sq = (Ok payload, sq') ->
  Z.of_nat (length acc) <= MESSAGE_PAYLOAD_MAX -> Z.of_nat (length payload) <= MESSAGE_PAYLOAD_MAX.
Proof.
  unfold MESSAGE_PAYLOAD_MAX, MESSAGE_MAX, MESSAGE_MIN.
  revert acc sq. induction fuel as [| fuel IH]; intros acc sq; cbn [build_loop]; rewrite bind_gets.
  - destruct (negb _); [| done]. intros [= <- _]. done.
  - destruct (negb _); [intros [= <- _]; done |].
    destruct (find_ready _) as [[id qm] |]; [| done]. cbv zeta.
    unfold MESSAGE_HEADER_SIZE, MESSAGE_MAX, MESSAGE_TRAILER_SIZE.
    destruct (Z.gtb_spec (2 + Z.of_nat (length acc) + qm_len qm) (64 - 3)); [intros [= <- _]; done |].
    intros E Hl. apply bind_inv in E as (? & ? & _ & E). apply bind_inv in E as (? & ? & _ & E).
    apply IH in E; [done |]. rewrite length_app. unfold qm_len in *. lia.
Qed.

(** Data blocks of a sequence number look to the micro-controller like those
    of its own framing. *)
Definition seq_byte (seq : Z) : Z := Z.lor MESSAGE_DEST (Z.land seq MESSAGE_SEQ_MASK).

Lemma seq_byte_val seq : seq_byte seq = 16 + seq mod 16.
Proof.
  unfold seq_byte, MESSAGE_DEST, MESSAGE_SEQ_MASK. change 0x0f with (Z.ones 4). rewrite Z.land_ones by lia.
  change (2 ^ 4) with 16. change (Z.lor 0x10 (seq mod 16)) with (Z.lor (Z.shiftl 1 4) (seq mod 16)).
  rewrite lor_shift_add; [done | lia | change (2 ^ 4) with 16; cint_lia].
Qed.

Lemma seq_byte_dest seq : clr (seq_byte seq) MESSAGE_SEQ_MASK = MESSAGE_DEST.
Proof.
  rewrite seq_byte_val. assert (H : 0 <= seq mod 16 < 16) by cint_lia.
  assert (Hall : forallb (fun x => clr (16 + x) MESSAGE_SEQ_MASK =? MESSAGE_DEST) (seqZ 0 16) = true)
    by (vm_compute; reflexivity).
  rewrite forallb_forall in Hall. apply Z.eqb_eq, Hall, list_elem_of_In, elem_of_seqZ. lia.
Qed.

Lemma block_of_frame seq payload :
  block_of seq payload = command_add_frame (seq_byte seq) (Z.of_nat (length payload) + MESSAGE_MIN) payload.
Proof.
  unfold block_of, command_add_frame. rewrite msgblock_crc_eq. fold (seq_byte seq).
  rewrite (u8_small (seq_byte seq)) by (rewrite seq_byte_val; unfold is_u8; cint_lia).
  unfold MESSAGE_HEADER_SIZE, MESSAGE_TRAILER_SIZE, MESSAGE_MIN.
  replace (2 + Z.of_nat (length payload) + 3) with (Z.of_nat (length payload) + 5) by lia.
  change 0xff with (Z.ones 8). rewrite Z.land_ones by lia. done.
Qed.

Lemma block_framed seq payload rest :
  Z.of_nat (length payload) <= MESSAGE_PAYLOAD_MAX ->
  Block.framed (block_of seq payload ++ rest) (Z.of_nat (length payload) + MESSAGE_MIN) (seq_byte seq)
    payload rest.
Proof.
  intros H. rewrite block_of_frame. split_and!; [done | done | | apply seq_byte_dest].
  unfold MESSAGE_PAYLOAD_MAX in H. lia.
Qed.

Lemma block_of_length seq payload : length (block_of seq payload) = (length payload + 5)%nat.
Proof. unfold block_of. rewrite length_app. cbn. lia. Qed.

(** The blocks of consecutive sequence numbers from [seq] on. *)
Definition blocks_from (seq : Z) (ps : list (list Z)) : list (list Z) :=
  imap (fun i p => block_of (seq + Z.of_nat i) p) ps.

Lemma blocks_from_cons seq p ps : blocks_from seq (p :: ps) = block_of seq p :: blocks_from (seq + 1) ps.
Proof.
  unfold blocks_from. rewrite imap_cons. f_equal; [f_equal; lia |]. apply imap_ext. intros i x _. unfold compose. f_equal. lia.
Qed.

Lemma blocks_from_app seq ps ps' :
  blocks_from seq (ps ++ ps') = blocks_from seq ps ++ blocks_from (seq + Z.of_nat (length ps)) ps'.
Proof.
  unfold blocks_from. rewrite imap_app. f_equal. apply imap_ext. intros i x _. unfold compose. f_equal. lia.
Qed.

(** [unacked sq ps]: the blocks with the payloads [ps] were sent and wait for
    their acknowledgement; at most [MAX_PENDING_BLOCKS] do. *)
Record unacked (q : sq_retransmit) (ps : list (list Z)) : Prop := {
  ua_blocks : qm_msg <$> sent_queue q = blocks_from (receive_seq q) ps;
  ua_seq : send_seq q = receive_seq q + Z.of_nat (length ps);
  ua_payload : Forall (fun p => Z.of_nat (length p) <= MESSAGE_PAYLOAD_MAX) ps;
  ua_window : Z.of_nat (length ps) <= MAX_PENDING_BLOCKS;
  ua_pos : 1 < receive_seq q /\ send_seq q < 2 ^ 63
}.

Lemma unacked_same q q' ps :
  unacked q ps -> sent_queue q' = sent_queue q -> send_seq q' = send_seq q ->
  receive_seq q' = receive_seq q -> unacked q' ps.
Proof. intros [] E1 E2 E3. constructor; rewrite ?E1, ?E2, ?E3; done. Qed.

(** ** Sums over the command queues *)

Lemma msum_insert_new g m id cq : m !! id = None -> msum g (<[id := cq]> m) = g cq + msum g m.
Proof. intros H. unfold msum. rewrite map_fold_insert_L; [done | | done]. intros. lia. Qed.

Lemma msum_delete g m id cq : m !! id = Some cq -> msum g m = g cq + msum g (delete id m).
Proof.
  intros H. rewrite <- (insert_delete_id m id cq H) at 1. apply msum_insert_new, lookup_delete_eq.
Qed.

Lemma msum_update g m id cq cq' :
  m !! id = Some cq -> msum g (<[id := cq']> m) = msum g m - g cq + g cq'.
Proof.
  intros H. rewrite (msum_delete g m id cq H), <- insert_delete_eq, msum_insert_new by apply lookup_delete_eq. lia.
Qed.

Lemma msum_nonneg g m : (forall cq, 0 <= g cq) -> 0 <= msum g m.
Proof.
  intros Hg. induction m as [| id cq m Hm IH] using map_ind; [done |].
  rewrite msum_insert_new by done. specialize (Hg cq). lia.
Qed.

(** The message found is the head of a ready queue. *)
Lemma find_ready_spec q id m :
  find_ready q = Some (id, m) ->
  exists cq l, cqs q !! id = Some cq /\ ready_queue cq = m :: l /\ id ∈ pending_queues q.
Proof.
  unfold find_ready.
  assert (H : forall ids best, (foldl (pick_min q) best ids).2 = Some (id, m) ->
    best.2 = Some (id, m) \/ exists cq l, cqs q !! id = Some cq /\ ready_queue cq = m :: l /\ id ∈ ids).
  { induction ids as [| i ids IH]; intros best; cbn [foldl]; [by left |].
    intros E. apply IH in E as [E | (cq & l & ? & ? & ?)]; [| right; exists cq, l; set_solver].
    unfold pick_min in E. destruct (cqs q !! i) as [cq |] eqn:Ei; [| by left].
    destruct (ready_queue cq) as [| m' l] eqn:Er; [by left |]. destruct (_ <? _); [| by left].
    cbn in E. simplify_eq. right. exists cq, l. set_solver. }
  intros E. by destruct (H _ _ E).
Qed.

Lemma pop_ready_cqs q id m cq l :
  cqs q !! id = Some cq -> ready_queue cq = m :: l ->
  cqs (pop_ready id m q) = <[id := mk_cq (stalled_queue cq) l]> (cqs q).
Proof.
  intros H Hr. unfold pop_ready. rewrite H. cbn [upd upd_fun ready_queue stalled_queue]. rewrite Hr. cbn [tail].
  by destruct (_ && _).
Qed.

(** Every turn takes a message out of a ready queue. *)
Lemma build_loop_ends fuel acc sq :
  (ready_count (q_pend sq) < fuel)%nat -> (build_loop fuel acc sq).1 <> OutOfFuel.
Proof.
  revert acc sq. induction fuel as [| fuel IH]; intros acc sq Hf; [lia |].
  cbn [build_loop]. rewrite bind_gets. destruct (negb _); [done |].
  destruct (find_ready (q_pend sq)) as [[id qm] |] eqn:Ef; [| done]. cbv zeta.
  destruct (_ >? _); [done |].
  destruct (find_ready_spec _ _ _ Ef) as (cq & l & Hcq & Hr & _).
  unfold upd_pend. rewrite bind_modify.
  assert (Hc : forall f, cqs (f (pop_ready id qm (q_pend sq))) = cqs (pop_ready id qm (q_pend sq)) ->
    (ready_count (f (pop_ready id qm (q_pend sq))) < fuel)%nat).
  { intros f E. unfold ready_count in *. rewrite E, (pop_ready_cqs _ _ _ _ _ Hcq Hr).
    rewrite (msum_update _ _ _ cq) by done. cbn [ready_queue]. rewrite Hr. cbn [length].
    pose proof (msum_nonneg (fun cq => Z.of_nat (length (ready_queue cq))) (delete id (cqs (q_pend sq)))) as Hn.
    rewrite (msum_delete _ _ _ _ Hcq) in *. rewrite Hr in *. cbn [length] in *.
    specialize (Hn ltac:(intros; lia)). lia. }
  destruct (truth (qm_notify_id qm)).
  - unfold upd_pend. rewrite bind_modify. apply IH. by apply (Hc (upd notify_queue _)).
  - msimpl. apply IH. by apply (Hc (fun q => q)).
Qed.

(** ** Sending *)

Lemma can_frames_concat fuel buf : (length buf <= fuel)%nat -> concat (can_frames fuel buf) = buf.
Proof.
  revert buf. induction fuel as [| fuel IH]; intros [| b buf] Hf; try done; [cbn in Hf; lia |].
  cbn [can_frames concat]. rewrite IH; [apply take_drop |]. rewrite length_drop. cbn in *. lia.
Qed.

(** Whatever the line, exactly the bytes of the buffer go out. *)
Lemma do_write_run buf sq :
  exists w, do_write buf sq = (Ok tt, sq <| q_out ::= upd wire (fun l => l ++ w) |>) /\ concat w = buf.
Proof.
  unfold do_write. rewrite bind_gets. destruct (serial_fd_type sq).
  - exists [buf]. split; [done | apply app_nil_r].
  - exists (can_frames (length buf) buf). split; [done | by apply can_frames_concat].
  - exists [buf]. split; [done | apply app_nil_r].
Qed.

(** Bytes on the wire so far. *)
Definition wire_bytes (sq : serialqueue) : list Z := concat (wire (q_out sq)).

Lemma do_write_wire buf sq sq' r :
  do_write buf sq = (r, sq') -> r = Ok tt /\ wire_bytes sq' = wire_bytes sq ++ buf /\ q_seq sq' = q_seq sq.
Proof.
  intros E. destruct (do_write_run buf sq) as (w & Ew & Hw). rewrite Ew in E. simplify_eq.
  split; [done |]. split; [| done]. unfold wire_bytes.
  change (wire (q_out (sq <| q_out ::= upd wire (fun l => l ++ w) |>))) with (wire (q_out sq) ++ w).
  by rewrite concat_app.
Qed.

(** The window check admits a block only while there is room for it. *)
Lemma check_send_window pending eventtime sq w sq' ps :
  unacked (q_seq sq) ps -> check_send_command pending eventtime sq = (Ok w, sq') ->
  deq w PR_NOW = true -> Z.of_nat (length ps) < MAX_PENDING_BLOCKS.
Proof.
  intros [_ Hs _ _ Hp] E Hw. unfold check_send_command in E. rewrite bind_gets in E. cbv zeta in E.
  assert (Hd : u64 (send_seq (q_seq sq) - receive_seq (q_seq sq)) = Z.of_nat (length ps)) by cint_lia.
  rewrite Hd in E. destruct (Z.geb_spec (Z.of_nat (length ps)) MAX_PENDING_BLOCKS); [| done].
  assert (Hr : (receive_seq (q_seq sq) =? 2 ^ 64 - 1) = false) by lia.
  rewrite Hr in E. cbn [andb negb] in E. injection E as <- <-. vm_compute in Hw. discriminate.
Qed.

Lemma build_and_send_run pending eventtime sq block sq' ps :
  unacked (q_seq sq) ps -> Z.of_nat (length ps) < MAX_PENDING_BLOCKS -> send_seq (q_seq sq) + 1 < 2 ^ 63 ->
  build_and_send_command pending eventtime sq = (Ok block, sq') ->
  exists p, block = block_of (send_seq (q_seq sq)) p /\ unacked (q_seq sq') (ps ++ [p])
    /\ receive_seq (q_seq sq') = receive_seq (q_seq sq) /\ q_out sq' = q_out sq.
Proof.
  intros [Hb Hs Hpl Hw Hp] Hlt Hbd E. unfold build_and_send_command in E. rewrite bind_gets in E.
  apply bind_inv in E as (payload & s1 & E1 & E). rewrite bind_gets in E. cbv zeta in E.
  pose proof (build_loop_length _ _ _ _ _ E1 ltac:(done)) as Hl.
  pose proof (keeps_run q_seq _ _ _ _ (build_loop_keeps q_seq _ _ upd_pend_seq) E1) as K1.
  pose proof (keeps_run q_out _ _ _ _ (build_loop_keeps q_out _ _ upd_pend_out) E1) as K2.
  rewrite K1 in E. apply bind_inv in E as (? & s2 & E2 & E).
  assert (K3 : q_seq s2 = q_seq sq) by (rewrite <- K1; refine (keeps_run q_seq _ _ _ _ _ E2); keeps_tac).
  assert (K4 : q_out s2 = q_out sq) by (rewrite <- K2; refine (keeps_run q_out _ _ _ _ _ E2); keeps_tac).
  unfold upd_seq, upd_pend in E. rewrite !bind_modify in E. injection E as <- <-.
  exists payload. split; [done |]. split; [| split; [change (receive_seq (q_seq s2) = receive_seq (q_seq sq)); by rewrite K3 | exact K4]].
  set (q := q_seq s2) in *. cbn [q_seq upd upd_fun]. fold q. rewrite K3.
  set (sb := block_of _ payload). constructor.
  - cbn [sent_queue receive_seq upd upd_fun]. rewrite fmap_app, Hb, blocks_from_app. by rewrite <- Hs, blocks_from_cons.
  - cbn [send_seq receive_seq upd upd_fun]. rewrite length_app. cbn [length]. cint_lia.
  - apply Forall_app_2; [done |]. by constructor.
  - rewrite length_app. cbn [length]. lia.
  - cbn [send_seq receive_seq upd upd_fun]. cint_lia.
Qed.

(** A run of [command_event] appends blocks to the window and writes exactly
    their bytes, after what was already buffered. *)
Lemma command_loop_run fuel buf eventtime sq w sq' ps :
  unacked (q_seq sq) ps -> send_seq (q_seq sq) + MAX_PENDING_BLOCKS < 2 ^ 63 + Z.of_nat (length ps) ->
  command_loop fuel buf eventtime sq = (Ok w, sq') ->
  exists ps', unacked (q_seq sq') (ps ++ ps') /\ receive_seq (q_seq sq') = receive_seq (q_seq sq)
    /\ wire_bytes sq' = wire_bytes sq ++ buf ++ concat (blocks_from (send_seq (q_seq sq)) ps').
Proof.
  revert buf sq ps. induction fuel as [| fuel IH]; intros buf sq ps HU Hbd; cbn [command_loop]; [done |].
  cbv zeta. intros E. apply bind_inv in E as (wake & s1 & E1 & E).
  pose proof (keeps_run q_seq _ _ _ _ (check_send_keeps q_seq _ _ upd_pend_seq) E1) as K1.
  pose proof (keeps_run q_out _ _ _ _ (check_send_keeps q_out _ _ upd_pend_out) E1) as K2.
  apply bind_inv in E as (buf2 & s2 & E2 & E).
  assert (H2 : q_seq s2 = q_seq sq /\ wire_bytes s2 ++ buf2 = wire_bytes sq ++ buf
               /\ (deq wake PR_NOW = false -> buf2 = [])).
  { destruct (negb (deq wake PR_NOW) || _) eqn:Ew.
    - apply bind_inv in E2 as (? & s3 & E3 & E2). injection E2 as <- <-.
      destruct (Z.eqb_spec (Z.of_nat (length buf)) 0) as [H0 | H0].
      + unfold truth in E3. rewrite H0 in E3. cbn in E3. injection E3 as _ <-.
        destruct buf; [| cbn in H0; lia]. unfold wire_bytes. by rewrite K1, K2.
      + unfold truth in E3. rewrite (proj2 (Z.eqb_neq _ _) H0) in E3. cbn [negb] in E3.
        apply bind_inv in E3 as (? & s4 & E4 & E3). apply do_write_wire in E4 as (_ & Hw & Hq).
        unfold upd_stats, upd_clk in E3. rewrite bind_modify, bind_gets in E3. injection E3 as _ <-.
        split; [by cbn; rewrite Hq |]. split; [| done]. rewrite app_nil_r.
        change (wire_bytes s4 = wire_bytes sq ++ buf). rewrite Hw. unfold wire_bytes. by rewrite K2.
    - injection E2 as <- <-. unfold wire_bytes. rewrite K1, K2. split; [done |]. split; [done |].
      intros Hn. by rewrite Hn in Ew. }
  destruct H2 as (Q2 & W2 & Hnil). destruct (deq wake PR_NOW) eqn:Hnow; cbn [negb] in E.
  - pose proof (check_send_window _ _ _ _ _ _ HU E1 Hnow) as Hlt.
    apply bind_inv in E as (block & s3 & E3 & E).
    destruct (build_and_send_run (Z.of_nat (length buf2)) eventtime s2 block s3 ps) as (p & -> & HU3 & R3 & O3);
      [by rewrite Q2 | done | rewrite Q2; lia | done |].
    destruct HU3 as [H31 H32 H33 H34 H35] eqn:HU3'. clear HU3'.
    destruct (IH (buf2 ++ block_of (send_seq (q_seq s2)) p) s3 (ps ++ [p])) as (ps' & HU' & R' & W').
    + by constructor.
    + rewrite H32, R3, Q2. rewrite length_app. cbn [length]. pose proof (ua_seq _ _ HU). lia.
    + done.
    + exists (p :: ps'). rewrite <- app_assoc in HU'. split; [done |].
      split; [by rewrite R', R3, Q2 |]. rewrite W', blocks_from_cons. cbn [concat].
      assert (wire_bytes s3 = wire_bytes s2) as -> by (unfold wire_bytes; by rewrite O3).
      replace (send_seq (q_seq s3)) with (send_seq (q_seq sq) + 1).
      2:{ rewrite H32, R3, Q2, length_app. cbn [length]. pose proof (ua_seq _ _ HU). lia. }
      rewrite Q2, <- (app_assoc buf2), (app_assoc (wire_bytes s2)), W2, <- app_assoc. done.
  - injection E as <- <-. rewrite (Hnil eq_refl), app_nil_r in W2. exists [].
    rewrite app_nil_r, Q2. split; [done |]. split; [done |]. cbn [concat blocks_from imap].
    rewrite W2. by rewrite app_nil_r.
Qed.

Lemma clock_from_time_sat ce time : rsat (fun _ => True) (clock_from_time ce time).
Proof.
  unfold clock_from_time, d_to_s64, d_to_range. eapply (rsat_bind (fun _ => True)); [| done].
  by repeat case_match.
Qed.

Lemma unstall_all_sat ack bg st ids :
  rsat (fun _ => True) bg -> rsat (fun _ => True) (unstall_all ack bg st ids).
Proof.
  intros Hb. revert st. induction ids as [| id ids IH]; intros st; cbn [unstall_all]; [done |].
  eapply (rsat_bind (fun _ => True)); [| intros; apply IH].
  unfold unstall. destruct st as [q [ms mr]]. destruct (cqs q !! id) as [cq |]; [| done].
  destruct (split_stalled _ _) as [now later]. cbn zeta. destruct (ready_queue _) as [| m l]; [done |].
  eapply (rsat_bind (fun _ => True)); [by destruct (_ =? _) | done].
Qed.

Lemma check_send_ends pending eventtime sq : ends (check_send_command pending eventtime) sq.
Proof.
  unfold check_send_command. apply ends_bind; [done |]. intros s s' _. cbv zeta.
  destruct (_ && negb _); [done |]. destruct (_ && _ && _); [done |].
  apply ends_bind; [eapply ends_lift, clock_from_time_sat |]. intros ack s1 _.
  apply ends_bind; [eapply ends_lift, unstall_all_sat, clock_from_time_sat |]. intros [q [ms mr]] s2 _.
  apply ends_bind; [done |]. intros _ s3 _. destruct (_ >=? _); [done |]. destruct (negb _); [by destruct (truth _) |].
  apply ends_bind; [apply (ends_lift (fun _ => True)); unfold d_to_u64, d_to_range; by repeat case_match |].
  intros rd s4 _. by destruct (_ <=? _).
Qed.

Lemma build_and_send_ends pending eventtime sq : ends (build_and_send_command pending eventtime) sq.
Proof.
  unfold build_and_send_command. apply ends_bind; [done |]. intros s s' [= <- <-].
  apply ends_bind; [apply build_loop_ends; lia |]. intros payload s1 _.
  apply ends_bind; [done |]. intros s2 s2' _. cbv zeta. apply ends_bind; [by destruct (bool_decide _) |]. done.
Qed.

(** Enough turns for a full window end the loop. *)
Lemma command_loop_ends fuel buf eventtime sq ps :
  unacked (q_seq sq) ps -> send_seq (q_seq sq) + MAX_PENDING_BLOCKS < 2 ^ 63 + Z.of_nat (length ps) ->
  MAX_PENDING_BLOCKS - Z.of_nat (length ps) < Z.of_nat fuel ->
  ends (command_loop fuel buf eventtime) sq.
Proof.
  revert buf sq ps. induction fuel as [| fuel IH]; intros buf sq ps HU Hbd Hf.
  { pose proof (ua_window _ _ HU). lia. }
  cbn [command_loop]. cbv zeta. apply ends_bind; [apply check_send_ends |]. intros wake s1 E1.
  pose proof (keeps_run q_seq _ _ _ _ (check_send_keeps q_seq _ _ upd_pend_seq) E1) as K1.
  apply ends_bind.
  { destruct (_ || _); [| done]. apply ends_bind; [| done]. destruct (truth _); [| done].
    apply ends_bind; [destruct (do_write_run buf s1) as (? & E & _); unfold ends; by rewrite E | done]. }
  intros buf2 s2 E2.
  assert (Q2 : q_seq s2 = q_seq sq).
  { rewrite <- K1. refine (keeps_run q_seq _ _ _ _ _ E2). unfold do_write. keeps_tac. }
  destruct (deq wake PR_NOW) eqn:Hnow; cbn [negb]; [| done].
  pose proof (check_send_window _ _ _ _ _ _ HU E1 Hnow) as Hlt.
  apply ends_bind; [apply build_and_send_ends |]. intros block s3 E3.
  destruct (build_and_send_run _ _ _ _ _ ps ltac:(by rewrite Q2) Hlt ltac:(rewrite Q2; lia) E3)
    as (p & -> & HU3 & R3 & _).
  apply (IH _ _ (ps ++ [p])); [done | | rewrite length_app; cbn [length]; lia].
  rewrite (ua_seq _ _ HU3), R3, Q2, length_app. cbn [length]. pose proof (ua_seq _ _ HU). lia.
Qed.

(** ** Retransmission *)

Lemma concat_length {A} (l : list (list A)) n :
  Forall (fun x => length x <= n)%nat l -> (length (concat l) <= length l * n)%nat.
Proof. induction 1; cbn; [done |]. rewrite length_app. lia. Qed.

Lemma blocks_from_length seq ps : length (blocks_from seq ps) = length ps.
Proof. apply length_imap. Qed.

Lemma blocks_from_small seq ps :
  Forall (fun p => Z.of_nat (length p) <= MESSAGE_PAYLOAD_MAX) ps ->
  Forall (fun b => length b <= Z.to_nat MESSAGE_MAX)%nat (blocks_from seq ps).
Proof.
  intros H. revert seq. induction H as [| p ps Hp _ IH]; intros seq; [constructor |].
  rewrite blocks_from_cons. constructor; [| apply IH]. rewrite block_of_length.
  unfold MESSAGE_PAYLOAD_MAX, MESSAGE_MAX, MESSAGE_MIN in *. lia.
Qed.

(** A retransmission always fits its buffer; it writes the whole window again
    and changes neither the window nor the sequence numbers. *)
Lemma retransmit_event_run eventtime sq ps :
  unacked (q_seq sq) ps ->
  exists w sq', retransmit_event eventtime sq = (Ok w, sq') /\ unacked (q_seq sq') ps
    /\ receive_seq (q_seq sq') = receive_seq (q_seq sq) /\ send_seq (q_seq sq') = send_seq (q_seq sq)
    /\ wire_bytes sq' = wire_bytes sq ++ MESSAGE_SYNC :: concat (blocks_from (receive_seq (q_seq sq)) ps).
Proof.
  intros HU. pose proof HU as [Hb Hs Hpl Hw Hp]. unfold retransmit_event. rewrite bind_gets. cbv zeta. rewrite Hb.
  set (buf := MESSAGE_SYNC :: concat _).
  assert (Hl : Z.of_nat (length buf) <= MESSAGE_MAX * MAX_PENDING_BLOCKS + 1).
  { pose proof (concat_length _ _ (blocks_from_small (receive_seq (q_seq sq)) ps Hpl)) as Hc.
    rewrite blocks_from_length in Hc. unfold buf, MESSAGE_MAX, MAX_PENDING_BLOCKS in *. cbn [length]. lia. }
  destruct (Z.gtb_spec (Z.of_nat (length buf)) (MESSAGE_MAX * MAX_PENDING_BLOCKS + 1)); [lia |].
  destruct (do_write buf sq) as [r s1] eqn:E1. destruct (do_write_wire _ _ _ _ E1) as (-> & W1 & Q1).
  rewrite (bind_ok _ _ _ _ _ E1).
  unfold upd_stats, upd_seq, upd_clk. rewrite bind_modify.
  destruct (deq _ PR_NOW); msimpl; eexists _, _; (split; [reflexivity |]);
    (split; [apply (unacked_same (q_seq s1)); [by rewrite Q1 | reflexivity..] |]);
    (split; [change (receive_seq (q_seq s1) = receive_seq (q_seq sq)); by rewrite Q1 |]);
    (split; [change (send_seq (q_seq s1) = send_seq (q_seq sq)); by rewrite Q1 | exact W1]).
Qed.

(** ** Receiving *)

(** What the link sees of the object. *)
Definition link_view (sq : serialqueue) :=
  (sent_queue (q_seq sq), send_seq (q_seq sq), receive_seq (q_seq sq), q_out sq, q_in sq).

Ltac unfold_upds := unfold upd_in, upd_clk, upd_seq, upd_pend, upd_recv, upd_stats, upd_out, upd_pr, check_wake_receive.

Lemma ack_loop_run sent r k sq :
  (1 <= k <= length sent)%nat -> sent_queue (q_seq sq) = sent -> 0 <= r -> r + Z.of_nat (length sent) < 2 ^ 64 ->
  exists sq', ack_loop sent r (r + Z.of_nat k) sq = (Ok tt, sq')
    /\ q_seq sq' = (q_seq sq) <| sent_queue := drop k sent |> /\ q_out sq' = q_out sq /\ q_in sq' = q_in sq.
Proof.
  revert r k sq. induction sent as [| m sent IH]; intros r k sq Hk Hs Hr Hb; [cbn in Hk; lia |].
  cbn [ack_loop]. unfold_upds. msimpl. rewrite (u64_small (r + 1)) by (unfold is_u64; cbn [length] in Hb; lia).
  destruct (Z.eqb_spec (r + Z.of_nat k) (r + 1)) as [Hk1 | Hk1].
  - assert (k = 1)%nat as -> by lia. rewrite bind_modify, modify_run. eexists. split; [reflexivity |]. done.
  - destruct k as [| k]; [lia |]. cbn [length] in *.
    replace (r + Z.of_nat (S k)) with (r + 1 + Z.of_nat k) by lia.
    match goal with |- exists sq', ack_loop _ _ _ ?s = _ /\ _ =>
      destruct (IH (r + 1) k s) as (sq' & E & Q & O & I) end; [lia | done | lia | lia |].
    exists sq'. split; [exact E |]. rewrite Q, O, I. done.
Qed.

Lemma blocks_from_drop seq ps k : (k <= length ps)%nat ->
  drop k (blocks_from seq ps) = blocks_from (seq + Z.of_nat k) (drop k ps).
Proof.
  intros Hk. rewrite <- (take_drop k ps) at 1. rewrite blocks_from_app, length_take, Nat.min_l by lia.
  apply drop_app_length'. rewrite blocks_from_length, length_take. lia.
Qed.

Lemma update_receive_run eventtime e sq ps :
  unacked (q_seq sq) ps -> receive_seq (q_seq sq) < e <= send_seq (q_seq sq) ->
  exists sq', update_receive_seq eventtime e sq = (Ok tt, sq')
    /\ unacked (q_seq sq') (drop (Z.to_nat (e - receive_seq (q_seq sq))) ps)
    /\ receive_seq (q_seq sq') = e /\ send_seq (q_seq sq') = send_seq (q_seq sq)
    /\ q_out sq' = q_out sq /\ q_in sq' = q_in sq.
Proof.
  intros [Hb Hs Hp Hw Hr] He. unfold update_receive_seq. rewrite bind_gets.
  assert (Hl : length (sent_queue (q_seq sq)) = length ps).
  { rewrite <- (length_fmap qm_msg), Hb. apply blocks_from_length. }
  set (k := Z.to_nat (e - receive_seq (q_seq sq))).
  destruct (ack_loop_run (sent_queue (q_seq sq)) (receive_seq (q_seq sq)) k sq) as (s1 & E1 & Q1 & O1 & I1);
    [lia | done | lia | lia |].
  replace (receive_seq (q_seq sq) + Z.of_nat k) with e in E1 by lia.
  rewrite (bind_ok _ _ _ _ _ E1).
  unfold_upds. rewrite !bind_modify, bind_gets.
  assert (HU : forall q', sent_queue q' = drop k (sent_queue (q_seq sq)) -> send_seq q' = send_seq (q_seq sq) ->
    receive_seq q' = e -> unacked q' (drop k ps)).
  { intros q' F1 F2 F3. constructor; rewrite ?F1, ?F2, ?F3.
    - rewrite fmap_drop, Hb, blocks_from_drop by lia. f_equal. lia.
    - rewrite length_drop. lia.
    - by apply Forall_drop.
    - rewrite length_drop. lia.
    - lia. }
  assert (S1 : sent_queue (q_seq s1) = drop k (sent_queue (q_seq sq))) by (by rewrite Q1).
  assert (S2 : send_seq (q_seq s1) = send_seq (q_seq sq)) by (by rewrite Q1).
  match goal with |- exists sq', (?m ≫= ?f) ?s = _ /\ _ =>
    assert (Hm : exists s2, m s = (Ok tt, s2) /\ link_view s2 = link_view s) end.
  { destruct (_ && _ && _); [rewrite bind_modify, modify_run | rewrite ret_run]; eexists; split; reflexivity. }
  destruct Hm as (s2 & E2 & V2). rewrite (bind_ok _ _ _ _ _ E2), bind_gets.
  injection V2 as V21 V22 V23 V24 V25.
  change (sent_queue (q_seq s2) = sent_queue (q_seq s1)) in V21.
  assert (Hfin : unacked (q_seq s2) (drop k ps) /\ receive_seq (q_seq s2) = e
    /\ send_seq (q_seq s2) = send_seq (q_seq sq) /\ q_out s2 = q_out sq /\ q_in s2 = q_in sq).
  { split_and!; [apply HU | ..]; congruence. }
  destruct (sent_queue (q_seq s2)); rewrite modify_run; eexists; (split; [reflexivity | exact Hfin]).
Qed.

(** The sequence number a block carries in four bits, extended by the host. *)
Lemma seq_extend r e :
  0 <= r -> r <= e < r + 16 -> e < 2 ^ 64 ->
  let rseq := Z.lor (clr r MESSAGE_SEQ_MASK) (Z.land (seq_byte e) MESSAGE_SEQ_MASK) in
  (if rseq <? r then u64 (rseq + MESSAGE_SEQ_MASK + 1) else rseq) = e.
Proof.
  intros Hr He H64. cbv zeta. unfold clr, MESSAGE_SEQ_MASK. change 0x0f with (Z.ones 4).
  rewrite Z.ldiff_ones_r, Z.land_ones, seq_byte_val by lia. change (2 ^ 4) with 16.
  rewrite lor_shift_add; [| lia | change (2 ^ 4) with 16; cint_lia].
  rewrite Z.shiftr_div_pow2 by lia. change (2 ^ 4) with 16. change (Z.ones 4) with 15.
  destruct (Z.ltb_spec (r / 16 * 16 + (16 + e mod 16) mod 16) r); cint_lia.
Qed.

Lemma notify_loop_keeps {C : Type} (g : serialqueue -> C) l wake_seq eventtime :
  (forall f, keeps g (upd_pend f)) -> (forall f, keeps g (upd_recv f)) -> keeps g (notify_loop l wake_seq eventtime).
Proof.
  intros H1 H2. induction l as [| m l IH]; cbn [notify_loop]; [keeps_tac |].
  destruct (_ >? _); [apply keeps_ret |]. apply keeps_bind; [apply keeps_gets | intros t].
  apply keeps_bind; [apply H1 | intros _]. apply keeps_bind; [apply H2 | intros _].
  apply keeps_bind; [apply IH | intros; apply keeps_ret].
Qed.

Lemma notify_loop_ok l wake_seq eventtime sq : exists b sq', notify_loop l wake_seq eventtime sq = (Ok b, sq').
Proof.
  revert sq. induction l as [| m l IH]; intros sq; cbn [notify_loop]; [by eexists _, _ |].
  destruct (_ >? _); [by eexists _, _ |]. rewrite bind_gets. unfold_upds. rewrite !bind_modify.
  match goal with |- exists b sq', (?m ≫= _) ?s = _ => destruct (IH s) as (b & sq' & E) end.
  exists true, sq'. by rewrite (bind_ok _ _ _ _ _ E).
Qed.

(** A frame whose sequence byte stands for [e], between what was acknowledged
    and what was sent, acknowledges exactly the blocks before [e]. *)
Lemma handle_message_run eventtime now len e sq ps :
  unacked (q_seq sq) ps -> receive_seq (q_seq sq) <= e <= send_seq (q_seq sq) ->
  input_buf (q_in sq) !! MESSAGE_POS_SEQ = Some (seq_byte e) ->
  exists fr sq', handle_message eventtime now len sq = (Ok fr, sq')
    /\ unacked (q_seq sq') (drop (Z.to_nat (e - receive_seq (q_seq sq))) ps)
    /\ receive_seq (q_seq sq') = e /\ send_seq (q_seq sq') = send_seq (q_seq sq)
    /\ q_out sq' = q_out sq /\ q_in sq' = q_in sq.
Proof.
  intros HU He Hb. pose proof HU as [_ Hs _ Hw Hr]. unfold MAX_PENDING_BLOCKS in Hw.
  unfold handle_message. rewrite bind_gets. cbv zeta. rewrite Hb. cbn [default from_option]. unfold id.
  rewrite seq_extend by lia. set (r := receive_seq (q_seq sq)) in *.
  assert (Hinv : negb (e =? r) && (e >? send_seq (q_seq sq)) && negb (r =? 1) = false) by lia.
  rewrite Hinv.
  assert (H1 : exists s1, (if negb (e =? r) then update_receive_seq eventtime e else mret tt) sq = (Ok tt, s1)
    /\ unacked (q_seq s1) (drop (Z.to_nat (e - r)) ps) /\ receive_seq (q_seq s1) = e
    /\ send_seq (q_seq s1) = send_seq (q_seq sq) /\ q_out s1 = q_out sq /\ q_in s1 = q_in sq).
  { destruct (Z.eqb_spec e r) as [-> | Hne]; cbn [negb].
    - exists sq. rewrite Z.sub_diag. cbn [Z.to_nat drop]. rewrite drop_0. done.
    - by apply update_receive_run; [| lia]. }
  destruct H1 as (s1 & E1 & HU1 & R1 & S1 & O1 & I1). rewrite (bind_ok _ _ _ _ _ E1).
  unfold upd_stats. rewrite bind_modify, bind_gets.
  set (s2 := s1 <| q_stats ::= _ |>). assert (V2 : link_view s2 = link_view s1) by done. clearbody s2.
  destruct (notify_loop_ok (notify_queue (q_pend s2)) (u64 (e - 1 - b2z (len >? MESSAGE_MIN))) eventtime s2)
    as (b & s3 & E3). rewrite (bind_ok _ _ _ _ _ E3).
  assert (V3 : link_view s3 = link_view s2).
  { refine (keeps_run link_view _ _ _ _ _ E3). apply notify_loop_keeps; sq_frame. }
  match goal with |- exists fr sq', (?m ≫= ?f) s3 = _ /\ _ =>
    assert (Hm : exists w s4, m s3 = (Ok w, s4) /\ link_view s4 = link_view s3) end.
  { destruct (len =? MESSAGE_MIN); [| by eexists _, _].
    destruct (_ <? e); [by eexists _, _ |]. destruct ((e >? ignore_nak_seq (q_seq s2)) && negb (bool_decide (sent_queue (q_seq s2) = []))); eexists _, _; (split; [reflexivity |]); reflexivity. }
  destruct Hm as (w & s4 & E4 & V4). rewrite (bind_ok _ _ _ _ _ E4).
  assert (HV : link_view s4 = link_view s1) by congruence. injection HV as L1 L2 L3 L4 L5.
  assert (Hfin : unacked (q_seq s4) (drop (Z.to_nat (e - r)) ps) /\ receive_seq (q_seq s4) = e
    /\ send_seq (q_seq s4) = send_seq (q_seq sq) /\ q_out s4 = q_out sq /\ q_in s4 = q_in sq).
  { split; [apply (unacked_same (q_seq s1)); congruence |]. split_and!; congruence. }
  destruct w; eexists _, _; (split; [reflexivity | exact Hfin]).
Qed.
