(* ===== verification/Link.v ===== *)
(** * Link: reliable delivery between host and micro-controller

    Composes the sending side of [src/klippy/chelper/serialqueue.c] with the
    block recogniser of [src/src/command.c] over a serial line that loses
    blocks.  The line is a step relation: blocks and answers travel in order,
    any of them may get lost (a damaged block fails its checksum and counts as
    lost), and both sides may do anything else that does not concern the
    sequence numbers.  The theorem: whatever is lost and whenever the timers
    fire, the micro-controller executes the payloads of the host's blocks in
    order, each once, and the host only forgets what was executed. *)

From S2P Require Import Prelude Wire State Command Double Msgblock Pollreactor Serialqueue.
Import Crc Vlq Encode Block.

(** ** What the sender relies on

    A receiver keeps the sequence byte it expects next.  It takes the payload
    of a block that carries this byte and then expects the next one; every
    other block leaves the expected byte alone. *)
Class Receiver (R : Type) := {
  rx_ok : R -> Prop;
  rx_next : R -> Z;
  rx_block : R -> list Z -> option (list Z) * R;
  rx_spec : forall r seq p, rx_ok r -> Z.of_nat (length p) <= MESSAGE_PAYLOAD_MAX ->
    let '(a, r') := rx_block r (block_of seq p) in
    rx_ok r' /\
    ((a = Some p /\ rx_next r = seq_byte seq /\ rx_next r' = seq_byte (seq + 1))
     \/ (a = None /\ rx_next r' = rx_next r))
}.

(** ** The micro-controller is such a receiver *)
Section Mcu.
Context `{B : Board}.

(** One block handed to [command_find_block]; the payload it accepts is what
    [command_dispatch] gets. *)
Definition mcu_rx_block (m : mcu) (b : list Z) : option (list Z) * mcu :=
  match command_find_block b m with
  | (Ok (r, n), m') =>
      (if r =? 1 then Some (take (Z.to_nat (n - MESSAGE_MIN)) (drop (Z.to_nat MESSAGE_HEADER_SIZE) b)) else None, m')
  | (_, m') => (None, m')
  end.

Lemma find_block_framed buf n q payload rest s :
  framed buf n q payload rest -> has (sync_state (m_cmd s)) CF_NEED_SYNC = false ->
  command_find_block buf s = accept_block n q s.
Proof.
  intros HF Hs. pose proof (framed_fields _ _ _ _ _ HF) as (H0 & H1 & H2 & H3 & H4 & Hn & Hl).
  destruct HF as (_ & _ & _ & Hq). unfold command_find_block. msimpl. rewrite Hs, andb_false_r.
  unfold MESSAGE_MIN, MESSAGE_MAX, MESSAGE_TRAILER_SYNC, MESSAGE_TRAILER_CRC, MESSAGE_TRAILER_SIZE.
  rewrite (proj2 (Z.ltb_ge _ _)) by lia.
  change (Z.to_nat (Z.of_nat MESSAGE_POS_LEN)) with 0%nat. change (Z.to_nat (Z.of_nat MESSAGE_POS_SEQ)) with 1%nat.
  rewrite H0, H1. msimpl. assert ((n <? 5) || (n >? 64) = false) as -> by lia.
  msimpl. rewrite Hq, Z.eqb_refl. cbn [negb]. rewrite (proj2 (Z.ltb_ge _ _)) by lia.
  replace (n - 3 + 1) with (n - 2) by lia. rewrite H4. msimpl. rewrite Z.eqb_refl. cbn [negb].
  rewrite H2, H3. msimpl. rewrite crc_bytes_join by apply crc16_ccitt_range. rewrite Z.eqb_refl. done.
Qed.

Lemma seq_next_byte seq : seq_next (seq_byte seq) = seq_byte (seq + 1).
Proof.
  unfold seq_next. rewrite Z.lor_comm. fold (seq_byte (seq_byte seq + 1)). rewrite !seq_byte_val. cint_lia.
Qed.

Lemma block_payload seq p :
  take (length p) (drop (Z.to_nat MESSAGE_HEADER_SIZE) (block_of seq p)) = p.
Proof.
  unfold block_of. change (Z.to_nat MESSAGE_HEADER_SIZE) with 2%nat. cbn [app drop]. rewrite drop_0.
  apply take_app_length.
Qed.

Lemma mcu_rx_spec m seq p :
  con_wf (m_con m) -> Z.of_nat (length p) <= MESSAGE_PAYLOAD_MAX ->
  let '(a, m') := mcu_rx_block m (block_of seq p) in
  con_wf (m_con m') /\
  ((a = Some p /\ next_sequence (m_cmd m) = seq_byte seq /\ next_sequence (m_cmd m') = seq_byte (seq + 1))
   \/ (a = None /\ next_sequence (m_cmd m') = next_sequence (m_cmd m))).
Proof.
  intros Hw Hp. pose proof (block_framed seq p [] Hp) as HF. rewrite app_nil_r in HF. unfold mcu_rx_block.
  destruct (has (sync_state (m_cmd m)) CF_NEED_SYNC) eqn:Hs.
  - rewrite find_block_unsynced by (done || by destruct (block_of seq p) eqn:E; [apply (f_equal length) in E; rewrite block_of_length in E; cbn in E; lia |]).
    destruct (need_sync_total (block_of seq p) m Hw) as (m' & -> & (Hc & Hn & _) & _). cbn. auto.
  - rewrite (find_block_framed _ _ _ _ _ m HF Hs). unfold accept_block, set_sync_state. msimpl.
    change (next_sequence _) with (next_sequence (m_cmd m)) at 1.
    destruct (Z.eqb_spec (seq_byte seq) (next_sequence (m_cmd m))) as [Eq | Ne]; cbn [negb]; msimpl.
    + cbn [Z.eqb]. rewrite Z.add_simpl_r, Nat2Z.id, block_payload. split; [done |]. left.
      split; [done |]. split; [done |]. apply seq_next_byte.
    + edestruct nak_total as (m' & E & Hc & Hm); [| rewrite E]; [exact Hw |]. split; [done |]. right.
      split; [done |]. by rewrite Hm.
Qed.

#[export] Instance mcu_receiver : Receiver mcu := {|
  rx_ok m := con_wf (m_con m);
  rx_next m := next_sequence (m_cmd m);
  rx_block := mcu_rx_block;
  rx_spec := mcu_rx_spec
|}.
End Mcu.

(** ** The line *)
Section Link.
Context {R : Type} `{RX : Receiver R}.
(** Callbacks of fast readers queue commands; they touch neither the sequence
    numbers nor the input buffer. *)
Context (fr_call : fastreader -> list Z -> SQ unit).
Hypothesis fr_call_seq : forall fr msg, keeps q_seq (fr_call fr msg).
Hypothesis fr_call_in : forall fr msg, keeps q_in (fr_call fr msg).

Lemma input_event_frame eventtime now f n e p sq sq' ps :
  q_in sq = mk_sq_input [] false -> unacked (q_seq sq) ps ->
  receive_seq (q_seq sq) <= e <= send_seq (q_seq sq) -> framed f n (seq_byte e) p [] ->
  input_event fr_call eventtime now (Some f) sq = (Ok tt, sq') ->
  unacked (q_seq sq') (drop (Z.to_nat (e - receive_seq (q_seq sq))) ps)
  /\ receive_seq (q_seq sq') = e /\ send_seq (q_seq sq') = send_seq (q_seq sq)
  /\ q_in sq' = mk_sq_input [] false.
Proof.
  intros Hin HU He HF E. pose proof (framed_fields _ _ _ _ _ HF) as (_ & Hseq & _ & _ & _ & Hn & Hlen).
  assert (Hfl : length f = Z.to_nat n).
  { destruct HF as (-> & -> & _). rewrite app_nil_r. unfold command_add_frame, MESSAGE_MIN. rewrite length_app. cbn. lia. }
  unfold input_event in E. rewrite bind_gets, Hin in E. cbn [input_buf length Nat.add] in E.
  destruct (_ >? INPUT_BUF_SIZE); [done |]. unfold upd_in in E. rewrite bind_modify in E.
  set (s0 := sq <| q_in ::= _ |>) in E.
  assert (I0 : q_in s0 = mk_sq_input f false) by (unfold s0; cbn; by rewrite Hin).
  assert (Q0 : q_seq s0 = q_seq sq) by done. clearbody s0.
  assert (exists k, length f = S k) as [k Hk] by (destruct (length f) eqn:?; [lia | eauto]). rewrite Hk in E.
  cbn [input_loop] in E. rewrite bind_gets, I0 in E. cbn [need_sync input_buf] in E.
  rewrite (msgblock_check_framed _ _ _ _ _ HF) in E. unfold upd_in in E. rewrite bind_modify in E.
  rewrite (proj2 (Z.eqb_neq n 0)) in E by lia. assert ((n >? 0) = true) as Hgt by lia. rewrite Hgt in E.
  set (s1 := s0 <| q_in ::= _ |>) in E.
  assert (I1 : q_in s1 = mk_sq_input f false) by (unfold s1; cbn; by rewrite I0).
  assert (Q1 : q_seq s1 = q_seq sq) by done. clearbody s1.
  destruct (handle_message_run eventtime now n e s1 ps) as (fr & s2 & E2 & HU2 & R2 & S2 & _ & I2);
    [by rewrite Q1 | by rewrite Q1 | by rewrite I1 |].
  rewrite bind_assoc, (bind_ok _ _ _ _ _ E2) in E. apply bind_inv in E as (? & s3 & E3 & E).
  assert (K3 : q_seq s3 = q_seq s2 /\ q_in s3 = q_in s2).
  { destruct fr as [fr |]; [| by injection E3 as _ <-].
    split; [exact (keeps_run q_seq _ _ _ _ (fr_call_seq _ _) E3) | exact (keeps_run q_in _ _ _ _ (fr_call_in _ _) E3)]. }
  destruct K3 as [Q3 I3]. rewrite bind_modify in E. set (s4 := s3 <| q_in ::= _ |>) in E.
  assert (I4 : q_in s4 = mk_sq_input [] false).
  { unfold s4. cbn. rewrite I3, I2, I1. cbn. f_equal. apply drop_ge. lia. }
  assert (Q4 : q_seq s4 = q_seq s2) by exact Q3. clearbody s4.
  cbn [input_loop] in E. rewrite bind_gets, I4 in E. cbn in E. injection E as <-.
  match goal with |- unacked (q_seq ?s) _ /\ _ =>
    assert (Q5 : q_seq s = q_seq s2) by exact Q4;
    assert (I5 : q_in s = mk_sq_input [] false) by (cbn; by rewrite I4) end.
  rewrite Q5, I5, <- Q1. done.
Qed.

(** Both ends, the line between them, and two logs: the payloads put into
    blocks and the payloads executed. *)
Record link := mk_link {
  host : serialqueue;
  target : R;
  down : list (list Z);
  up : list (list Z);
  queued : list (list Z);
  executed : list (list Z)
}.

Inductive link_step : link -> link -> Prop :=
(** [command_event] sends the blocks of the payloads [ps]. *)
| step_send h t dn u q x fuel eventtime w h' ps :
    command_event fuel eventtime h = (Ok w, h') ->
    qm_msg <$> sent_queue (q_seq h')
      = (qm_msg <$> sent_queue (q_seq h)) ++ blocks_from (send_seq (q_seq h)) ps ->
    send_seq (q_seq h) + MAX_PENDING_BLOCKS < 2 ^ 63 ->
    link_step (mk_link h t dn u q x)
              (mk_link h' t (dn ++ blocks_from (send_seq (q_seq h)) ps) u (q ++ ps) x)
(** [retransmit_event] sends the whole window again. *)
| step_retransmit h t dn u q x eventtime w h' :
    retransmit_event eventtime h = (Ok w, h') ->
    link_step (mk_link h t dn u q x)
              (mk_link h' t (dn ++ (qm_msg <$> sent_queue (q_seq h))) u q x)
(** The first block on the line arrives. *)
| step_deliver h t b dn u q x a t' :
    rx_block t b = (a, t') ->
    link_step (mk_link h t (b :: dn) u q x) (mk_link h t' dn u q (x ++ option_list a))
(** The micro-controller answers: an acknowledgement or a response. *)
| step_answer h t dn u q x n p f :
    framed f n (rx_next t) p [] ->
    link_step (mk_link h t dn u q x) (mk_link h t dn (u ++ [f]) q x)
(** The first answer arrives at the host. *)
| step_receive h t dn f u q x eventtime now h' :
    input_event fr_call eventtime now (Some f) h = (Ok tt, h') ->
    link_step (mk_link h t dn (f :: u) q x) (mk_link h' t dn u q x)
(** Blocks and answers get lost. *)
| step_lose h t dn u q x dn' u' :
    dn' `sublist_of` dn -> u' `sublist_of` u ->
    link_step (mk_link h t dn u q x) (mk_link h t dn' u' q x)
(** Anything else either side does. *)
| step_other h t dn u q x h' t' :
    q_seq h' = q_seq h -> q_in h' = q_in h -> rx_ok t' -> rx_next t' = rx_next t ->
    link_step (mk_link h t dn u q x) (mk_link h' t' dn u q x).

(** Both ends agree on the sequence number [n] and the line is empty. *)
Definition connected (n : Z) (l : link) : Prop :=
  unacked (q_seq (host l)) [] /\ receive_seq (q_seq (host l)) = n /\ q_in (host l) = mk_sq_input [] false
  /\ rx_ok (target l) /\ rx_next (target l) = seq_byte n
  /\ down l = [] /\ up l = [] /\ queued l = [] /\ executed l = [].

(** The invariant.  [e] is the full number of the block expected by the
    receiver, [ds] the numbers of the blocks on the line and [es] those the
    answers on the line acknowledge. *)
Record link_inv (n : Z) (l : link) (e : Z) (ds es : list Z) : Prop := {
  li_order : n <= receive_seq (q_seq (host l)) <= e /\ e <= send_seq (q_seq (host l));
  li_queued : send_seq (q_seq (host l)) = n + Z.of_nat (length (queued l));
  li_window : unacked (q_seq (host l)) (drop (Z.to_nat (receive_seq (q_seq (host l)) - n)) (queued l));
  li_payloads : Forall (fun p => Z.of_nat (length p) <= MESSAGE_PAYLOAD_MAX) (queued l);
  li_in : q_in (host l) = mk_sq_input [] false;
  li_rx : rx_ok (target l) /\ rx_next (target l) = seq_byte e;
  li_executed : executed l = take (Z.to_nat (e - n)) (queued l);
  li_down : Forall2 (fun b s => n <= s < send_seq (q_seq (host l)) /\
              exists p, queued l !! Z.to_nat (s - n) = Some p /\ b = block_of s p) (down l) ds;
  li_down_e : Forall (fun s => e <= s + MAX_PENDING_BLOCKS) ds;
  li_down_order : StronglySorted (fun a b => a < b + MAX_PENDING_BLOCKS) ds;
  li_up : Forall2 (fun f s => receive_seq (q_seq (host l)) <= s <= e
              /\ exists k p, framed f k (seq_byte s) p []) (up l) es;
  li_up_order : StronglySorted Z.le es
}.

(** *** Lists *)

Lemma Forall_sublist {A} (P : A -> Prop) l k : l `sublist_of` k -> Forall P k -> Forall P l.
Proof. induction 1; inversion 1; auto. Qed.

Lemma StronglySorted_sublist {A} (P : A -> A -> Prop) l k :
  l `sublist_of` k -> StronglySorted P k -> StronglySorted P l.
Proof. induction 1; inversion 1; subst; auto. constructor; eauto using Forall_sublist. Qed.

Lemma Forall2_sublist_l {A C} (P : A -> C -> Prop) l l' k :
  l' `sublist_of` l -> Forall2 P l k -> exists k', k' `sublist_of` k /\ Forall2 P l' k'.
Proof.
  intros Hs. revert k. induction Hs as [| x l' l Hs IH | x l' l Hs IH]; intros k Hk.
  - inversion Hk. exists []. auto.
  - inversion Hk as [| ? y ? k0 Hxy Hk0]; subst. destruct (IH k0 Hk0) as (k' & ? & ?).
    exists (y :: k'). split; [by apply sublist_skip | by constructor].
  - inversion Hk as [| ? y ? k0 Hxy Hk0]; subst. destruct (IH k0 Hk0) as (k' & ? & ?).
    exists k'. split; [by apply sublist_cons | done].
Qed.

(** Numbers that fit one window may travel in any order. *)
Lemma window_sorted lo l :
  Forall (fun s => lo <= s < lo + MAX_PENDING_BLOCKS) l -> StronglySorted (fun a b => a < b + MAX_PENDING_BLOCKS) l.
Proof.
  induction 1 as [| s l Hs Hl IH]; constructor; [done |]. eapply Forall_impl; [exact Hl |]. cbv beta. lia.
Qed.

Lemma block_of_inj s p p' : block_of s p = block_of s p' -> p = p'.
Proof.
  intros E. assert (Hl : length p = length p').
  { apply (f_equal length) in E. rewrite !block_of_length in E. lia. }
  rewrite <- (block_payload s p), <- (block_payload s p'), E, Hl. done.
Qed.

Lemma blocks_from_inj s ps ps' : blocks_from s ps = blocks_from s ps' -> ps = ps'.
Proof.
  revert s ps'. induction ps as [| p ps IH]; intros s [| p' ps'] E; try done.
  rewrite !blocks_from_cons in E. assert (E1 : block_of s p = block_of s p') by congruence.
  assert (E2 : blocks_from (s + 1) ps = blocks_from (s + 1) ps') by congruence.
  apply block_of_inj in E1 as ->. f_equal. by apply (IH (s + 1)).
Qed.

(** *** Preservation *)

(** Blocks of the current window join the line. *)
Lemma inv_append n h h' t dn u q q' x e ds es s ps :
  link_inv n (mk_link h t dn u q x) e ds es ->
  q_in h' = q_in h -> receive_seq (q_seq h') = receive_seq (q_seq h) ->
  unacked (q_seq h') (drop (Z.to_nat (receive_seq (q_seq h) - n)) (q ++ q')) ->
  receive_seq (q_seq h) <= s -> send_seq (q_seq h') = s + Z.of_nat (length ps) ->
  send_seq (q_seq h') = n + Z.of_nat (length (q ++ q')) ->
  drop (Z.to_nat (s - n)) (q ++ q') = ps ->
  link_inv n (mk_link h' t (dn ++ blocks_from s ps) u (q ++ q') x) e (ds ++ seqZ s (Z.of_nat (length ps))) es.
Proof.
  intros [Ho Hq Hw Hpl Hin Hrx Hx Hd Hde Hdo Hu Huo] Ei Er HU Hs Hss Hsn Hps.
  cbn [host target down up queued executed] in *.
  assert (Hwin : send_seq (q_seq h') <= receive_seq (q_seq h) + MAX_PENDING_BLOCKS).
  { rewrite (ua_seq _ _ HU), Er. pose proof (ua_window _ _ HU). lia. }
  assert (Hnew : Forall (fun k => s <= k < send_seq (q_seq h')) (seqZ s (Z.of_nat (length ps)))).
  { apply Forall_forall. intros k Hk. apply elem_of_seqZ in Hk. lia. }
  rewrite length_app in *.
  constructor; cbn [host target down up queued executed]; rewrite ?Er, ?Ei.
  - lia.
  - rewrite length_app. lia.
  - done.
  - apply Forall_app. split; [done |].
    assert (Hsub : q' = drop (length q - Z.to_nat (receive_seq (q_seq h) - n)) (drop (Z.to_nat (receive_seq (q_seq h) - n)) (q ++ q'))).
    { rewrite drop_drop. symmetry. apply drop_app_length'. lia. }
    rewrite Hsub. apply Forall_drop, (ua_payload _ _ HU).
  - done.
  - done.
  - rewrite take_app_le by lia. done.
  - apply Forall2_app.
    + eapply Forall2_impl; [exact Hd |]. cbv beta. intros b k (Hk & p & Hp & ->). split; [lia |].
      exists p. split; [by apply lookup_app_l_Some | done].
    + apply Forall2_same_length_lookup_2; [rewrite blocks_from_length, length_seqZ; lia |].
      intros i b k Hb Hk. apply lookup_seqZ in Hk as [-> Hi]. split; [lia |].
      unfold blocks_from in Hb. rewrite list_lookup_imap in Hb. apply fmap_Some in Hb as (p & Hp & ->).
      exists p. split; [| done]. rewrite <- Hps, lookup_drop in Hp. rewrite <- Hp. f_equal. lia.
  - apply Forall_app. split; [done |]. eapply Forall_impl; [exact Hnew |]. cbv beta. lia.
  - apply StronglySorted_app. split_and!; [| done |].
    + intros a b Ha Hb. rewrite Forall_forall in Hnew. apply Hnew in Hb.
      apply list_elem_of_lookup in Ha as [i Hi]. destruct (Forall2_lookup_r _ _ _ _ _ Hd Hi) as (? & _ & Hk & _). lia.
    + apply (window_sorted s). eapply Forall_impl; [exact Hnew |]. cbv beta. lia.
  - done.
  - done.
Qed.

Lemma inv_send n h t dn u q x e ds es fuel eventtime w h' ps :
  link_inv n (mk_link h t dn u q x) e ds es ->
  command_event fuel eventtime h = (Ok w, h') -> q_in h' = q_in h ->
  qm_msg <$> sent_queue (q_seq h')
    = (qm_msg <$> sent_queue (q_seq h)) ++ blocks_from (send_seq (q_seq h)) ps ->
  send_seq (q_seq h) + MAX_PENDING_BLOCKS < 2 ^ 63 ->
  exists ds', link_inv n (mk_link h' t (dn ++ blocks_from (send_seq (q_seq h)) ps) u (q ++ ps) x) e ds' es.
Proof.
  intros HI E Ei Hs Hb. pose proof HI as [Ho Hq Hw _ _ _ _ _ _ _ _ _]. cbn [host queued] in *.
  set (r := receive_seq (q_seq h)) in *.
  assert (Hlen : length (drop (Z.to_nat (r - n)) q) = Z.to_nat (send_seq (q_seq h) - r)) by (rewrite length_drop; lia).
  destruct (command_loop_run fuel [] eventtime h w h' _ Hw ltac:(lia) E) as (ps' & HU & Hr & _).
  assert (ps' = ps) as ->.
  { apply (blocks_from_inj (send_seq (q_seq h))). rewrite (ua_blocks _ _ HU), Hr, blocks_from_app in Hs.
    rewrite (ua_blocks _ _ Hw) in Hs. apply app_inv_head in Hs. rewrite <- Hs. f_equal.
    rewrite (ua_seq _ _ Hw). done. }
  pose proof (ua_seq _ _ HU) as Hs'. rewrite Hr, length_app in Hs'.
  exists (ds ++ seqZ (send_seq (q_seq h)) (Z.of_nat (length ps))). apply (inv_append n h); try done.
  - rewrite drop_app_le by lia. exact HU.
  - fold r. lia.
  - rewrite Hs'. fold r. lia.
  - rewrite Hs'. fold r. rewrite length_app. lia.
  - apply drop_app_length'. lia.
Qed.

Lemma inv_retransmit n h t dn u q x e ds es eventtime w h' :
  link_inv n (mk_link h t dn u q x) e ds es ->
  retransmit_event eventtime h = (Ok w, h') -> q_in h' = q_in h ->
  exists ds', link_inv n (mk_link h' t (dn ++ (qm_msg <$> sent_queue (q_seq h))) u q x) e ds' es.
Proof.
  intros HI E Ei. pose proof HI as [Ho Hq Hw _ _ _ _ _ _ _ _ _]. cbn [host queued] in *.
  destruct (retransmit_event_run eventtime h _ Hw) as (w' & h1 & E1 & HU & Hr & Hs & _).
  rewrite E in E1. injection E1 as <- <-. rewrite (ua_blocks _ _ Hw).
  set (ps := drop _ q) in *. eexists (ds ++ seqZ (receive_seq (q_seq h)) (Z.of_nat (length ps))).
  rewrite <- (app_nil_r q). apply (inv_append n h); try done; rewrite ?app_nil_r; try done.
  - by rewrite Hs, (ua_seq _ _ Hw).
  - by rewrite Hs.
Qed.

Lemma seq_byte_inj s e : seq_byte s = seq_byte e -> e - 16 < s < e + 16 -> s = e.
Proof. rewrite !seq_byte_val. intros. cint_lia. Qed.

Lemma inv_deliver n h t b dn u q x e ds es a t' :
  link_inv n (mk_link h t (b :: dn) u q x) e ds es -> rx_block t b = (a, t') ->
  exists e' ds', link_inv n (mk_link h t' dn u q (x ++ option_list a)) e' ds' es.
Proof.
  intros [Ho Hq Hw Hpl Hin [Hrx Hnx] Hx Hd Hde Hdo Hu Huo] E. cbn [host target down up queued executed] in *.
  apply Forall2_cons_inv_l in Hd as (s & ds' & (Hs & p & Hp & ->) & Hd & ->).
  apply Forall_cons in Hde as [Hse Hde]. apply StronglySorted_inv in Hdo as [Hdo Hsd].
  assert (Hpp : Z.of_nat (length p) <= MESSAGE_PAYLOAD_MAX) by exact (Forall_lookup_1 _ _ _ _ Hpl Hp).
  pose proof (rx_spec t s p Hrx Hpp) as HR. rewrite E in HR. destruct HR as [Hok HR].
  pose proof (ua_window _ _ Hw) as Hwin. pose proof (ua_seq _ _ Hw) as Hseq. unfold MAX_PENDING_BLOCKS in Hse, Hwin.
  destruct HR as [(-> & Hm & Hn') | (-> & Hn')].
  - assert (s = e) as -> by (apply seq_byte_inj; [congruence | lia]).
    exists (e + 1), ds'. constructor; cbn [host target down up queued executed]; try done.
    + lia.
    + rewrite Hx. cbn [option_list]. replace (Z.to_nat (e + 1 - n)) with (S (Z.to_nat (e - n))) by lia.
      by rewrite (take_S_r _ _ _ Hp).
    + eapply Forall_impl; [exact Hsd |]. cbv beta. lia.
    + eapply Forall2_impl; [exact Hu |]. cbv beta. intros f k (Hk & Hf). split; [lia | done].
  - exists e, ds'. constructor; cbn [host target down up queued executed option_list]; try done.
    + by rewrite Hn'.
    + by rewrite app_nil_r.
Qed.

Lemma inv_receive n h t dn f u q x e ds es eventtime now h' :
  link_inv n (mk_link h t dn (f :: u) q x) e ds es ->
  input_event fr_call eventtime now (Some f) h = (Ok tt, h') ->
  exists es', link_inv n (mk_link h' t dn u q x) e ds es'.
Proof.
  intros [Ho Hq Hw Hpl Hin Hrx Hx Hd Hde Hdo Hu Huo] E. cbn [host target down up queued executed] in *.
  apply Forall2_cons_inv_l in Hu as (s & es' & (Hs & k & p & Hf) & Hu & ->).
  apply StronglySorted_inv in Huo as [Huo Hle].
  destruct (input_event_frame eventtime now f k s p h h' _ Hin Hw ltac:(lia) Hf E) as (HU & Hr & Hss & Hi).
  exists es'. constructor; cbn [host target down up queued executed]; rewrite ?Hr, ?Hss; try done.
  - lia.
  - rewrite drop_drop in HU. by replace (Z.to_nat (receive_seq (q_seq h) - n) + Z.to_nat (s - receive_seq (q_seq h)))%nat
      with (Z.to_nat (s - n)) in HU by lia.
  - apply Forall2_same_length_lookup_2; [by apply Forall2_length in Hu |]. intros i g v Hg Hv.
    destruct (Forall2_lookup_lr _ _ _ _ _ _ Hu Hg Hv) as (Hb & HF). split; [| done].
    pose proof (Forall_lookup_1 _ _ _ _ Hle Hv). lia.
Qed.

Lemma command_event_in fuel eventtime : keeps q_in (command_event fuel eventtime).
Proof.
  unfold command_event. generalize (@nil Z) as buf. induction fuel as [| fuel IH]; intros buf; cbn [command_loop]; [done |].
  apply keeps_bind; [apply check_send_keeps; sq_frame | intros wake]. cbv zeta.
  assert (Hw : keeps q_in (do_write buf)).
  { unfold do_write, upd_out. keeps_tac. }
  apply keeps_bind.
  { unfold upd_stats, upd_clk. destruct (_ || _); [| apply keeps_ret]. keeps_tac. }
  intros buf2. destruct (negb _); [apply keeps_ret |].
  apply keeps_bind; [| intros; apply IH]. unfold build_and_send_command, upd_pr, upd_seq, upd_pend.
  apply keeps_bind; [apply keeps_gets | intros s]. apply keeps_bind; [apply build_loop_keeps; sq_frame | intros pl].
  keeps_tac.
Qed.

Lemma retransmit_event_in eventtime : keeps q_in (retransmit_event eventtime).
Proof. unfold retransmit_event, do_write. unfold_upds. keeps_tac. Qed.

Lemma link_step_inv n l l' e ds es :
  link_inv n l e ds es -> link_step l l' -> exists e' ds' es', link_inv n l' e' ds' es'.
Proof.
  intros HI Hst. destruct Hst as
    [h t dn u q x fuel eventtime w h' ps E Hs Hb | h t dn u q x eventtime w h' E | h t b dn u q x a t' E
    | h t dn u q x k p f HF | h t dn f u q x eventtime now h' E | h t dn u q x dn' u' Hdn Hup
    | h t dn u q x h' t' E1 E2 E3 E4].
  - destruct (inv_send n h t dn u q x e ds es fuel eventtime w h' ps HI E) as [ds' H']; eauto.
    exact (keeps_run q_in _ _ _ _ (command_event_in _ _) E).
  - destruct (inv_retransmit n h t dn u q x e ds es eventtime w h' HI E) as [ds' H']; eauto.
    exact (keeps_run q_in _ _ _ _ (retransmit_event_in _) E).
  - destruct (inv_deliver n h t b dn u q x e ds es a t' HI E) as (e' & ds' & H'). eauto.
  - exists e, ds, (es ++ [e]). destruct HI as [Ho Hq Hw Hpl Hin [Hrx Hnx] Hx Hd Hde Hdo Hu Huo].
    constructor; cbn [host target down up queued executed] in *; try done.
    + apply Forall2_app; [done |]. constructor; [| done]. split; [lia |]. exists k, p. by rewrite <- Hnx.
    + apply StronglySorted_app_2; [| done | by repeat constructor].
      intros a b Ha Hb. apply list_elem_of_singleton in Hb as ->. apply list_elem_of_lookup in Ha as [i Hi].
      destruct (Forall2_lookup_r _ _ _ _ _ Hu Hi) as (? & _ & Hk & _). lia.
  - destruct (inv_receive n h t dn f u q x e ds es eventtime now h' HI E) as [es' H']. eauto.
  - destruct HI as [Ho Hq Hw Hpl Hin Hrx Hx Hd Hde Hdo Hu Huo]. cbn [host target down up queued executed] in *.
    destruct (Forall2_sublist_l _ _ _ _ Hdn Hd) as (ds' & Hds & Hd').
    destruct (Forall2_sublist_l _ _ _ _ Hup Hu) as (es' & Hes & Hu').
    exists e, ds', es'. constructor; cbn [host target down up queued executed]; try done;
      eauto using Forall_sublist, StronglySorted_sublist.
  - exists e, ds, es. destruct HI as [Ho Hq Hw Hpl Hin [Hrx Hnx] Hx Hd Hde Hdo Hu Huo].
    constructor; cbn [host target down up queued executed] in *; rewrite ?E1, ?E2; try done. by rewrite E4.
Qed.

Lemma connected_inv n l : connected n l -> link_inv n l n [] [].
Proof.
  destruct l as [h t dn u q x]. unfold connected. cbn [host target down up queued executed].
  intros (HU & Hr & Hi & Hok & Hn & -> & -> & -> & ->).
  pose proof (ua_seq _ _ HU) as Hs. cbn [length] in Hs.
  constructor; cbn [host target down up queued executed length]; rewrite ?drop_nil, ?take_nil; try done; try constructor; lia.
Qed.

Lemma link_steps_inv n l0 l e ds es :
  rtc link_step l0 l -> link_inv n l0 e ds es -> exists e' ds' es', link_inv n l e' ds' es'.
Proof.
  intros Hs. revert e ds es. induction Hs as [l | l l1 l2 Hst _ IH]; intros e ds es HI; [by eauto |].
  destruct (link_step_inv _ _ _ _ _ _ HI Hst) as (e' & ds' & es' & HI'). by eapply IH.
Qed.

(** C2: over a line that loses blocks and answers, with retransmissions at
    any time, the payloads the micro-controller executes are a prefix of the
    payloads the host put into blocks: in order, none lost, none executed
    twice.  What the host has seen acknowledged was executed, and never more
    than [MAX_PENDING_BLOCKS] blocks wait for their acknowledgement. *)
Theorem link_delivers_in_order n l0 l :
  connected n l0 -> rtc link_step l0 l ->
  let q := q_seq (host l) in
  executed l `prefix_of` queued l
  /\ receive_seq q <= n + Z.of_nat (length (executed l))
  /\ send_seq q = n + Z.of_nat (length (queued l))
  /\ qm_msg <$> sent_queue q = blocks_from (receive_seq q) (drop (Z.to_nat (receive_seq q - n)) (queued l))
  /\ send_seq q - receive_seq q <= MAX_PENDING_BLOCKS.
Proof.
  intros H0 Hs. destruct (link_steps_inv n l0 l n [] [] Hs (connected_inv n l0 H0)) as (e & ds & es & [Ho Hq Hw _ _ _ Hx _ _ _ _ _]).
  cbv zeta. rewrite Hx. split; [apply prefix_take |]. rewrite length_take.
  pose proof (ua_seq _ _ Hw). pose proof (ua_window _ _ Hw). split_and!; [lia | done | apply (ua_blocks _ _ Hw) | lia].
Qed.
End Link.

(** Every run of [command_event] is a step of the line. *)
Lemma command_event_is_step {R : Type} `{RX : Receiver R} fr_call (h : serialqueue) (t : R) dn u q x fuel eventtime w h' ps0 :
  unacked (q_seq h) ps0 -> send_seq (q_seq h) + MAX_PENDING_BLOCKS < 2 ^ 63 ->
  command_event fuel eventtime h = (Ok w, h') ->
  exists ps, link_step fr_call (mk_link h t dn u q x)
               (mk_link h' t (dn ++ blocks_from (send_seq (q_seq h)) ps) u (q ++ ps) x).
Proof.
  intros HU Hb E. destruct (command_loop_run fuel [] eventtime h w h' ps0 HU ltac:(lia) E) as (ps & HU' & Hr & _).
  exists ps. apply (step_send fr_call h t dn u q x fuel eventtime w); [done | | done].
  rewrite (ua_blocks _ _ HU'), (ua_blocks _ _ HU), Hr, blocks_from_app. by rewrite (ua_seq _ _ HU).
Qed.

(** A connected pair with one command waiting; the block is lost once, sent
    again and executed. *)
Definition demo_host : serialqueue :=
  let sq := serialqueue_alloc SQT_UART in
  ((serialqueue_alloc_commandqueue 1 ;; serialqueue_send 1 [5; 9; 3] 0 0 0)
     (mk_sq SQT_UART (sq_pr sq) (q_in sq) (q_clk sq) (mk_sq_retransmit 16 16 0 0 0 0 [])
        (q_pend sq) (q_recv sq) (q_stats sq) (q_out sq))).2.

Definition demo_link0 : link (R := mcu) := mk_link demo_host initial_mcu [] [] [] [].
Definition demo_host1 : serialqueue := (command_event 20 (d_of_Z 1) demo_host).2.
Definition demo_link1 : link (R := mcu) :=
  mk_link demo_host1 initial_mcu [block_of 16 [5; 9; 3]] [] [[5; 9; 3]] [].
Definition demo_host2 : serialqueue := (retransmit_event (d_of_Z 2) demo_host1).2.
Definition demo_link2 : link (R := mcu) :=
  mk_link demo_host2 initial_mcu [block_of 16 [5; 9; 3]; block_of 16 [5; 9; 3]] [] [[5; 9; 3]] [].
Definition demo_mcu3 : mcu := (mcu_rx_block (B := demo_board) initial_mcu (block_of 16 [5; 9; 3])).2.
Definition demo_link3 : link (R := mcu) :=
  mk_link demo_host2 demo_mcu3 [block_of 16 [5; 9; 3]] [] [[5; 9; 3]] [[5; 9; 3]].

Definition no_fr : fastreader -> list Z -> SQ unit := fun _ _ => mret tt.

Lemma demo_connected : connected (RX := mcu_receiver (B := demo_board)) 16 demo_link0.
Proof.
  unfold connected. split; [constructor; vm_compute; try done; constructor |].
  split_and!; try (vm_compute; reflexivity). vm_compute. repeat split; discriminate.
Qed.

Definition wake_of (r : res double) : double := match r with Ok w => w | _ => PR_NOW end.

Lemma demo_run : rtc (link_step (RX := mcu_receiver (B := demo_board)) no_fr) demo_link0 demo_link3.
Proof.
  apply (rtc_l _ _ demo_link1).
  { apply (step_send no_fr demo_host initial_mcu [] [] [] [] 20 (d_of_Z 1)
      (wake_of (command_event 20 (d_of_Z 1) demo_host).1) demo_host1 [[5; 9; 3]]); vm_compute; reflexivity. }
  apply (rtc_l _ _ demo_link2).
  { apply (step_retransmit no_fr demo_host1 initial_mcu [block_of 16 [5; 9; 3]] [] [[5; 9; 3]] [] (d_of_Z 2)
      (wake_of (retransmit_event (d_of_Z 2) demo_host1).1) demo_host2). vm_compute. reflexivity. }
  apply (rtc_l _ _ demo_link3); [| apply rtc_refl].
  apply (step_deliver no_fr demo_host2 initial_mcu (block_of 16 [5; 9; 3]) [block_of 16 [5; 9; 3]] []
    [[5; 9; 3]] [] (Some [5; 9; 3]) demo_mcu3). vm_compute. reflexivity.
Qed.

Lemma link_delivers_in_order_witness :
  let q := q_seq (host demo_link3) in
  executed demo_link3 `prefix_of` queued demo_link3
  /\ receive_seq q <= 16 + Z.of_nat (length (executed demo_link3))
  /\ send_seq q = 16 + Z.of_nat (length (queued demo_link3))
  /\ qm_msg <$> sent_queue q = blocks_from (receive_seq q) (drop (Z.to_nat (receive_seq q - 16)) (queued demo_link3))
  /\ send_seq q - receive_seq q <= MAX_PENDING_BLOCKS.
Proof.
  apply (link_delivers_in_order (RX := mcu_receiver (B := demo_board)) no_fr
    (fun _ _ => keeps_ret q_seq tt) (fun _ _ => keeps_ret q_in tt) 16 demo_link0 demo_link3 demo_connected demo_run).
Defined.
