(* ===== verification/Steppersync.v ===== *)
(** * Steppersync: sharing the micro-controller's move queue

    Models the second half of [src/klippy/chelper/stepcompress.c].  The
    micro-controller stores a limited number of moves; [steppersync] keeps a
    heap with the clock at which each of its slots becomes free, merges the
    commands of all steppers by their [req_clock], and gives every command that
    needs a slot the clock of the earliest free one as its minimum transmit
    time. *)

From S2P Require Import Prelude Wire State Command Double Msgblock Pollreactor Stepcompress Serialqueue.

(** [struct steppersync]: the compressors it owns, the command queue it sends
    on, and the heap. *)
Record steppersync := mk_ss {
  sc_list : list stepcompress;
  ss_cq : Z;
  move_clocks : list Z;
  ss_sq : serialqueue
}.
#[export] Instance steppersync_eta : Eta steppersync := fun r =>
  mk_ss (sc_list r) (ss_cq r) (move_clocks r) (ss_sq r).

Abbreviation SS := (M steppersync).

(** [steppersync_alloc]; [cq] names the new command queue. *)
Definition steppersync_alloc (sq : serialqueue) (scs : list stepcompress) (cq : Z) (move_num : nat) : steppersync :=
  mk_ss scs cq (replicate move_num 0) (serialqueue_alloc_commandqueue cq sq).2.

Definition steppersync_free : SS unit :=
  modify (fun ss => ss <| sc_list := [] |> <| move_clocks := [] |>
                       <| ss_sq ::= fun sq => (serialqueue_free_commandqueue (ss_cq ss) sq).2 |>).

(** Run a computation on the compressor [i]. *)
Definition on_sc {A : Type} (i : nat) (m : SC A) : SS A := fun ss =>
  match sc_list ss !! i with
  | Some sc => let '(r, sc') := m sc in (r, ss <| sc_list ::= <[i := sc']> |>)
  | None => (Fault "sc_list", ss)
  end.

Definition on_sq {A : Type} (m : SQ A) : SS A := fun ss =>
  let '(r, sq') := m (ss_sq ss) in (r, ss <| ss_sq := sq' |>).

Fixpoint set_time_loop (n i : nat) (time_offset freq : double) : SS unit :=
  match n with
  | O => mret tt
  | S n => on_sc i (stepcompress_set_time time_offset freq) ;; set_time_loop n (S i) time_offset freq
  end.

Definition steppersync_set_time (time_offset freq : double) : SS unit :=
  ss ← gets (fun s => s);
  set_time_loop (length (sc_list ss)) 0 time_offset freq.

(** ** The heap *)

Definition child_clock (mc : list Z) (i : nat) : Z := default UINT64_MAX (mc !! i).

(** The loop of [heap_replace] with the hole at [pos]. *)
Fixpoint heap_loop (fuel : nat) (req_clock : Z) (mc : list Z) (pos : nat) : res (list Z) :=
  match fuel with
  | O => OutOfFuel
  | S fuel =>
      let child1_pos := (2 * pos + 1)%nat in
      let child2_pos := (2 * pos + 2)%nat in
      let child2_clock := child_clock mc child2_pos in
      let child1_clock := child_clock mc child1_pos in
      if (length mc <=? pos)%nat then Fault "move_clocks"
      else if (req_clock <=? child1_clock) && (req_clock <=? child2_clock) then Ok (<[pos := req_clock]> mc)
      else if child1_clock <? child2_clock then heap_loop fuel req_clock (<[pos := child1_clock]> mc) child1_pos
      else heap_loop fuel req_clock (<[pos := child2_clock]> mc) child2_pos
  end.

(** [heap_replace]: the hole moves down, so the size of the heap bounds the
    turns. *)
Definition heap_replace (req_clock : Z) : SS unit :=
  mc ← gets move_clocks;
  mc ← lift_res (heap_loop (S (length mc)) req_clock mc 0);
  modify (fun ss => ss <| move_clocks := mc |>).

(** ** Flushing *)

(** The first loop of [steppersync_flush]: the first error ends it. *)
Fixpoint flush_all (n i : nat) (move_clock : Z) : SS Z :=
  match n with
  | O => mret 0
  | S n =>
      ret ← on_sc i (stepcompress_flush move_clock);
      if truth ret then mret ret else flush_all n (S i) move_clock
  end.

(** The message with the lowest [req_clock] among the heads of the queues from
    compressor [i] on. *)
Fixpoint lowest (scs : list stepcompress) (i : nat) (req_clock : Z) (best : option (nat * queue_message))
    : option (nat * queue_message) :=
  match scs with
  | [] => best
  | sc :: scs =>
      match msg_queue sc with
      | m :: _ => if qm_req_clock m <? req_clock then lowest scs (S i) (qm_req_clock m) (Some (i, m))
                  else lowest scs (S i) req_clock best
      | [] => lowest scs (S i) req_clock best
      end
  end.

(** The second loop; [msgs] is the batch so far. *)
Fixpoint merge_loop (fuel : nat) (move_clock : Z) (msgs : list queue_message) : SS (list queue_message) :=
  ss ← gets (fun s => s);
  match lowest (sc_list ss) 0 MAX_CLOCK None with
  | None => mret msgs
  | Some (i, qm) =>
      if truth (qm_min_clock qm) && (qm_req_clock qm >? move_clock) then mret msgs
      else
        match fuel with
        | O => lift_res OutOfFuel
        | S fuel =>
            next_avail ← deref "move_clocks[0]" (move_clocks ss !! 0%nat);
            when (truth (qm_min_clock qm)) (heap_replace (qm_min_clock qm)) ;;
            on_sc i (modify (fun sc => sc <| msg_queue ::= tail |>)) ;;
            merge_loop fuel move_clock (msgs ++ [qm <| qm_min_clock := next_avail |>])
        end
  end.

(** Messages waiting in the compressors. *)
Definition waiting (scs : list stepcompress) : nat := sum_list (length ∘ msg_queue <$> scs).

Definition steppersync_flush (move_clock : Z) : SS Z :=
  ss ← gets (fun s => s);
  ret ← flush_all (length (sc_list ss)) 0 move_clock;
  if truth ret then mret ret
  else
    ss ← gets (fun s => s);
    msgs ← merge_loop (waiting (sc_list ss)) move_clock [];
    (match msgs with
     | [] => mret tt
     | _ => on_sq (serialqueue_send_batch (ss_cq ss) msgs)
     end) ;;
    mret 0.

(** ** The heap keeps its order and its contents *)

(** No slot becomes free before its parent in the array. *)
Definition heap (mc : list Z) : Prop :=
  forall i x y, mc !! i = Some x -> (mc !! (2 * i + 1)%nat = Some y \/ mc !! (2 * i + 2)%nat = Some y) -> x <= y.

Lemma heap_root mc x : heap mc -> mc !! 0%nat = Some x -> Forall (fun y => x <= y) mc.
Proof.
  intros H Hx. apply Forall_lookup_2. intros i. induction i as [i IH] using lt_wf_ind. intros y Hy.
  destruct (decide (i = 0)%nat) as [-> | Hi]; [simplify_eq; lia |].
  set (j := ((i - 1) / 2)%nat).
  assert (Hj : i = (2 * j + 1)%nat \/ i = (2 * j + 2)%nat).
  { unfold j. pose proof (Nat.div_mod_eq (i - 1) 2). pose proof (Nat.mod_upper_bound (i - 1) 2). lia. }
  destruct (lookup_lt_is_Some_2 mc j) as [z Hz]; [apply lookup_lt_Some in Hy; lia |].
  etrans; [apply (IH j); [lia | exact Hz] |]. apply (H j z y Hz). destruct Hj as [<- | <-]; auto.
Qed.

(** Changing one entry keeps the order if it fits between its parent and its
    children. *)
Lemma heap_insert mc pos v :
  heap mc ->
  (forall y, (mc !! (2 * pos + 1)%nat = Some y \/ mc !! (2 * pos + 2)%nat = Some y) -> v <= y) ->
  (pos = 0%nat \/ exists x, mc !! pos = Some x /\ x <= v) ->
  heap (<[pos := v]> mc).
Proof.
  intros H Hc Hp i x y Hx Hy.
  assert (Hne : (2 * pos + 1)%nat <> pos /\ (2 * pos + 2)%nat <> pos) by lia.
  destruct (decide (i = pos)) as [-> | Hi].
  - apply list_lookup_insert_Some in Hx as [(_ & -> & _) | [? _]]; [| done].
    rewrite !list_lookup_insert_ne in Hy by lia. by apply Hc.
  - rewrite list_lookup_insert_ne in Hx by done.
    assert (Hy' : forall j, (j = (2 * i + 1)%nat \/ j = (2 * i + 2)%nat) -> <[pos := v]> mc !! j = Some y -> x <= y).
    { intros j Hj E. apply list_lookup_insert_Some in E as [(-> & -> & Hlt) | [_ E]].
      - destruct Hp as [-> | (x0 & Hx0 & Hle)]; [lia |]. etrans; [| exact Hle]. apply (H i x x0 Hx).
        destruct Hj as [<- | <-]; auto.
      - apply (H i x y Hx). destruct Hj as [<- | <-]; auto. }
    destruct Hy; eauto.
Qed.

(** Moving a value between two entries does not change the contents. *)
Lemma insert_swap_perm (mc : list Z) i j x v :
  i <> j -> (i < length mc)%nat -> mc !! j = Some x -> <[j := v]> (<[i := x]> mc) ≡ₚ <[i := v]> mc.
Proof.
  intros Hij Hi Hj. rewrite <- (Permutation_insert_swap (<[i := v]> mc) i j v x).
  - by rewrite list_insert_insert_eq.
  - by apply list_lookup_insert_eq.
  - by rewrite list_lookup_insert_ne.
Qed.

Lemma child_clock_lt mc i z : child_clock mc i < z -> z <= UINT64_MAX -> mc !! i = Some (child_clock mc i).
Proof. unfold child_clock. intros H Hz. destruct (mc !! i); simpl in *; [done | lia]. Qed.

Lemma child_clock_le mc i y z : z <= child_clock mc i -> mc !! i = Some y -> z <= y.
Proof. unfold child_clock. intros H E. by rewrite E in H. Qed.

(** Whatever the position of the hole, the loop ends with a heap that holds the
    new clock in place of the entry it started from. *)
Lemma heap_loop_spec fuel r : forall mc pos,
  heap mc -> (pos < length mc)%nat -> (length mc < fuel + pos)%nat -> r <= UINT64_MAX ->
  (pos = 0%nat \/ exists x, mc !! pos = Some x /\ x <= r) ->
  exists mc', heap_loop fuel r mc pos = Ok mc' /\ heap mc' /\ mc' ≡ₚ <[pos := r]> mc.
Proof.
  induction fuel as [| fuel IH]; intros mc pos Hh Hpos Hf Hr Hp; [lia |]. cbn [heap_loop].
  rewrite (proj2 (Nat.leb_gt _ _) Hpos).
  set (c1 := child_clock mc (2 * pos + 1)). set (c2 := child_clock mc (2 * pos + 2)).
  assert (Hstep : forall c, (c = 2 * pos + 1 \/ c = 2 * pos + 2)%nat -> child_clock mc c < r ->
    child_clock mc c <= c1 -> child_clock mc c <= c2 ->
    exists mc', heap_loop fuel r (<[pos := child_clock mc c]> mc) c = Ok mc' /\ heap mc' /\ mc' ≡ₚ <[pos := r]> mc).
  { intros c Hc Hlt H1 H2. pose proof (child_clock_lt mc c r Hlt Hr) as E.
    pose proof (lookup_lt_Some _ _ _ E) as Hcl.
    destruct (IH (<[pos := child_clock mc c]> mc) c) as (mc' & R & Hh' & Hperm).
    - apply heap_insert; [done | |].
      + intros y [Hy | Hy]; eapply child_clock_le; [| exact Hy | | exact Hy]; done.
      + right. destruct (lookup_lt_is_Some_2 mc pos Hpos) as [x Hx]. exists x. split; [done |].
        apply (Hh pos x); [done |]. destruct Hc as [<- | <-]; auto.
    - by rewrite length_insert.
    - rewrite length_insert. lia.
    - done.
    - right. exists (child_clock mc c). rewrite list_lookup_insert_ne by lia. split; [done | lia].
    - exists mc'. split_and!; [done | done |]. rewrite Hperm. apply insert_swap_perm; [lia | done | done]. }
  destruct ((r <=? c1) && (r <=? c2)) eqn:E.
  - apply andb_true_iff in E as [E1%Z.leb_le E2%Z.leb_le]. eexists. split_and!; [done | | done].
    apply heap_insert; [done | | done].
    intros y [Hy | Hy]; eapply child_clock_le; [| exact Hy | | exact Hy]; done.
  - apply andb_false_iff in E. rewrite !Z.leb_gt in E.
    destruct (c1 <? c2) eqn:L; [apply Z.ltb_lt in L | apply Z.ltb_ge in L]; apply Hstep; auto; fold c1 c2; lia.
Qed.

(** Replacing the root: the loop takes the earliest slot out and puts the new
    clock in. *)
Lemma heap_replace_root r x mc :
  heap mc -> mc !! 0%nat = Some x -> r <= UINT64_MAX ->
  exists mc', heap_loop (S (length mc)) r mc 0 = Ok mc' /\ heap mc' /\ x :: mc' ≡ₚ r :: mc.
Proof.
  intros Hh Hx Hr. destruct (heap_loop_spec (S (length mc)) r mc 0) as (mc' & R & Hh' & Hp); auto; [| lia |].
  { by apply lookup_lt_Some in Hx. }
  exists mc'. split_and!; [done | done |]. rewrite Hp. destruct mc as [| y mc]; [done |].
  simplify_eq/=. constructor.
Qed.

(** ** Slots

    A command that uses a slot is logged as the pair of the clock before which
    it is not sent and the clock at which its slot becomes free again. *)

(** Entries that lie after [T]. *)
Definition over (T : Z) (l : list Z) : nat := length (filter (fun x => T < x) l).

Lemma over_perm T l l' : l ≡ₚ l' -> over T l = over T l'.
Proof. intros H. unfold over. by rewrite H. Qed.
Lemma over_cons T x l : over T (x :: l) = ((if decide (T < x)%Z then 1 else 0) + over T l)%nat.
Proof. unfold over. rewrite filter_cons. by case_decide. Qed.
Lemma over_app T l l' : over T (l ++ l') = (over T l + over T l')%nat.
Proof. unfold over. by rewrite filter_app, length_app. Qed.
Lemma over_length T l : (over T l <= length l)%nat.
Proof. apply length_filter. Qed.

(** The micro-controller's queue of [n] moves never overflows: at any clock [T]
    at which the first [k] of the logged commands may have been sent, at most
    [n] of them still hold their slot. *)
Definition fits (n : nat) (log : list (Z * Z)) : Prop :=
  forall k T, Forall (fun u => u.1 <= T) (take k log) -> (over T (take k log).*2 <= n)%nat.

Record slots_inv (n : nat) (log : list (Z * Z)) (mc : list Z) : Prop := {
  si_heap : heap mc;
  si_length : length mc = n;
  si_over : forall T, Forall (fun u => u.1 <= T) log -> (over T log.*2 <= over T mc)%nat;
  si_fits : fits n log
}.

(** A fresh heap has no commands behind it. *)
Lemma slots_inv_init n : slots_inv n [] (replicate n 0).
Proof.
  constructor; [| apply length_replicate | cbn; lia |].
  - intros i x y Hx [Hy | Hy]; apply lookup_replicate_1 in Hx as [-> _], Hy as [-> _]; done.
  - intros k T _. rewrite take_nil. cbn. lia.
Qed.

(** Handing out the earliest slot. *)
Lemma slots_inv_step n log mc x r mc' :
  slots_inv n log mc -> heap mc' -> x :: mc' ≡ₚ r :: mc -> slots_inv n (log ++ [(x, r)]) mc'.
Proof.
  intros [Hh Hl Ho Hf] Hh' Hp.
  assert (Ho' : forall T, Forall (fun u => u.1 <= T) (log ++ [(x, r)]) -> (over T (log ++ [(x, r)]).*2 <= over T mc')%nat).
  { intros T [Hlog Hx]%Forall_app. rewrite Forall_singleton in Hx. cbn in Hx. specialize (Ho T Hlog).
    pose proof (over_perm T _ _ Hp) as E. rewrite !over_cons in E. rewrite decide_False in E by lia.
    rewrite fmap_app, over_app. cbn [fmap list_fmap snd]. rewrite over_cons. change (over T []) with 0%nat. lia. }
  assert (Hl' : length mc' = n) by (apply Permutation_length in Hp; cbn in Hp; lia).
  constructor; [done | done | done |].
  intros k T. destruct (decide (k <= length log)%nat).
  - rewrite take_app_le by done. apply Hf.
  - rewrite take_ge by (rewrite length_app; cbn; lia). intros H. specialize (Ho' T H).
    pose proof (over_length T mc'). lia.
Qed.

(** ** The merge *)

Definition msgs_of (scs : list stepcompress) (i : nat) : list queue_message :=
  default [] (msg_queue <$> scs !! i).

(** What is sent is the command with a new minimum clock. *)
Definition sent_as (qm qm' : queue_message) : Prop := qm' = qm <| qm_min_clock := qm_min_clock qm' |>.

(** The slots that commands [taken] from the compressors, and [sent], use. *)
Definition uses (taken sent : list queue_message) : list (Z * Z) :=
  omap (fun p => if truth (qm_min_clock p.1) then Some (qm_min_clock p.2, qm_min_clock p.1) else None)
       (zip taken sent).

(** No queue starts before [r]. *)
Definition heads_ge (scs : list stepcompress) (r : Z) : Prop :=
  forall j m q, msgs_of scs j = m :: q -> r <= qm_req_clock m.

Lemma heads_ge_cons sc scs r :
  (forall m q, msg_queue sc = m :: q -> r <= qm_req_clock m) -> heads_ge scs r -> heads_ge (sc :: scs) r.
Proof. intros H0 H [| j] m q E; [by eapply H0 | by eapply (H j)]. Qed.

Definition lowest_ok (scs : list stepcompress) (k : nat) (r : Z) (best : option (nat * queue_message))
    (res : option (nat * queue_message)) : Prop :=
  (res = best /\ heads_ge scs r)
  \/ exists j m q, res = Some ((k + j)%nat, m) /\ msgs_of scs j = m :: q /\ qm_req_clock m < r
       /\ heads_ge scs (qm_req_clock m).

Lemma lowest_ok_skip sc scs k r best res :
  (forall m q, msg_queue sc = m :: q -> r <= qm_req_clock m) ->
  lowest_ok scs (S k) r best res -> lowest_ok (sc :: scs) k r best res.
Proof.
  intros H0 [[-> H] | (j & m & q & -> & Hj & Hlt & H)]; [left | right].
  - split; [done |]. by apply heads_ge_cons.
  - exists (S j), m, q. rewrite Nat.add_succ_r. split_and!; [done.. |].
    apply heads_ge_cons; [| done]. intros m' q' E. apply H0 in E. lia.
Qed.

Lemma lowest_spec scs k r best : lowest_ok scs k r best (lowest scs k r best).
Proof.
  revert k r best. induction scs as [| sc scs IH]; intros k r best; cbn [lowest]; [by left |].
  destruct (msg_queue sc) as [| m0 q0] eqn:E0; [apply lowest_ok_skip; [by rewrite E0 | apply IH] |].
  destruct (Z.ltb_spec (qm_req_clock m0) r).
  - right. assert (H0 : forall m q, msg_queue sc = m :: q -> qm_req_clock m0 <= qm_req_clock m).
    { rewrite E0. intros m q [= <- <-]. lia. }
    destruct (lowest_ok_skip sc scs k _ _ _ H0 (IH (S k) (qm_req_clock m0) (Some (k, m0))))
      as [[-> H'] | (j & m & q & -> & Hj & Hlt & H')].
    + exists 0%nat, m0, q0. rewrite Nat.add_0_r. by split_and!.
    + exists j, m, q. split_and!; [done.. | lia | done].
  - apply lowest_ok_skip; [| apply IH]. rewrite E0. intros m q [= <- <-]. lia.
Qed.

(** What a merge does: [taken] are the messages that left the compressors, with
    the compressor each came from. *)
Record merged (move_clock : Z) (ss : steppersync) (taken : list (nat * queue_message))
    (sent : list queue_message) (ss' : steppersync) : Prop := {
  mg_queues : forall i, msgs_of (sc_list ss) i
                = (filter (fun p => p.1 = i) taken).*2 ++ msgs_of (sc_list ss') i;
  mg_sent : Forall2 sent_as taken.*2 sent;
  mg_slots : forall n log, slots_inv n log (move_clocks ss) ->
               slots_inv n (log ++ uses taken.*2 sent) (move_clocks ss');
  mg_order : (forall i, StronglySorted Z.le (qm_req_clock <$> msgs_of (sc_list ss) i)) ->
               StronglySorted Z.le (qm_req_clock <$> taken.*2);
  mg_due : forall i m q, msgs_of (sc_list ss') i = m :: q ->
             move_clock < qm_req_clock m \/ MAX_CLOCK <= qm_req_clock m;
  mg_wf : Forall sc_wf (sc_list ss) -> Forall sc_wf (sc_list ss');
  mg_sq : ss_sq ss' = ss_sq ss /\ ss_cq ss' = ss_cq ss
}.

Lemma merged_stop move_clock ss :
  (forall i m q, msgs_of (sc_list ss) i = m :: q -> move_clock < qm_req_clock m \/ MAX_CLOCK <= qm_req_clock m) ->
  merged move_clock ss [] [] ss.
Proof.
  intros H. constructor; [done | constructor | intros n log; by rewrite app_nil_r | intros; constructor | exact H | done | done].
Qed.

(** Taking a message of compressor [i]. *)
Definition take_msg (i : nat) (mc : list Z) (ss : steppersync) : steppersync :=
  ss <| move_clocks := mc |> <| sc_list ::= alter (fun sc => sc <| msg_queue ::= tail |>) i |>.

Lemma msgs_of_take i mc ss j :
  msgs_of (sc_list (take_msg i mc ss)) j
  = (if decide (i = j) then tail (msgs_of (sc_list ss) j) else msgs_of (sc_list ss) j).
Proof.
  change (sc_list (take_msg i mc ss)) with (alter (fun sc => sc <| msg_queue ::= tail |>) i (sc_list ss)).
  unfold msgs_of. case_decide as E; [subst j; rewrite list_lookup_alter_eq | by rewrite list_lookup_alter_ne].
  by destruct (sc_list ss !! i).
Qed.

Lemma sc_wf_tail sc : sc_wf sc -> sc_wf (sc <| msg_queue ::= tail |>).
Proof. intros (H1 & H2 & H3 & H4 & H5). repeat (split; [done |]). by apply Forall_tail. Qed.

Lemma take_msg_wf i mc ss : Forall sc_wf (sc_list ss) -> Forall sc_wf (sc_list (take_msg i mc ss)).
Proof. intros H. apply Forall_alter; [done |]. intros sc _ Hw. by apply sc_wf_tail. Qed.

(** A message taken from a queue was in it. *)
Lemma merged_elem move_clock ss taken sent ss' p :
  merged move_clock ss taken sent ss' -> p ∈ taken -> p.2 ∈ msgs_of (sc_list ss) p.1.
Proof.
  intros H Hp. rewrite (mg_queues _ _ _ _ _ H p.1). apply elem_of_app. left.
  apply list_elem_of_fmap. exists p. split; [done |]. by apply list_elem_of_filter.
Qed.

Lemma uses_cons m taken m' sent :
  uses (m :: taken) (m' :: sent)
  = (if truth (qm_min_clock m) then [(qm_min_clock m', qm_min_clock m)] else []) ++ uses taken sent.
Proof. unfold uses. cbn. by destruct (truth (qm_min_clock m)). Qed.

Lemma merged_take move_clock ss i m q mc x taken sent ss' :
  msgs_of (sc_list ss) i = m :: q -> heads_ge (sc_list ss) (qm_req_clock m) ->
  (forall n log, slots_inv n log (move_clocks ss) ->
     slots_inv n (log ++ (if truth (qm_min_clock m) then [(x, qm_min_clock m)] else [])) mc) ->
  merged move_clock (take_msg i mc ss) taken sent ss' ->
  merged move_clock ss ((i, m) :: taken) (m <| qm_min_clock := x |> :: sent) ss'.
Proof.
  intros Hi Hge Hs H. pose proof H as [Hq Hsent Hsl Hord Hdue Hwf Hsq]. constructor; try done.
  - intros j. specialize (Hq j). rewrite msgs_of_take in Hq. rewrite filter_cons. cbn [fst].
    case_decide; [subst j; rewrite Hi in *; cbn; by f_equal | done].
  - by constructor.
  - intros n log Hn. cbn [fmap list_fmap snd]. rewrite uses_cons, app_assoc. apply Hsl. by apply Hs.
  - intros Hso. cbn [fmap list_fmap snd]. constructor.
    + apply Hord. intros j. rewrite msgs_of_take. case_decide; [subst j | done].
      specialize (Hso i). rewrite Hi in *. by apply StronglySorted_inv in Hso as [Hso _].
    + apply Forall_fmap, Forall_fmap, Forall_forall. intros p Hp. cbn.
      pose proof (merged_elem _ _ _ _ _ _ H Hp) as Hin. rewrite msgs_of_take in Hin.
      assert (Hin' : p.2 ∈ msgs_of (sc_list ss) p.1).
      { case_decide; [| done]. destruct (msgs_of (sc_list ss) p.1); [done | by right]. }
      destruct (msgs_of (sc_list ss) p.1) as [| m0 q0] eqn:E; [by apply not_elem_of_nil in Hin' |].
      specialize (Hso p.1). rewrite E, fmap_cons in Hso. apply StronglySorted_inv in Hso as [_ Hall].
      specialize (Hge _ _ _ E). apply elem_of_cons in Hin' as [-> | Hin']; [done |].
      rewrite Forall_fmap, Forall_forall in Hall. specialize (Hall _ Hin'). cbn in Hall. lia.
  - intros Hw. by apply Hwf, take_msg_wf.
Qed.

(** The messages that wait are counted down. *)
Lemma waiting_cons sc scs : waiting (sc :: scs) = (length (msg_queue sc) + waiting scs)%nat.
Proof. done. Qed.

Lemma waiting_take scs i m q :
  msgs_of scs i = m :: q ->
  waiting scs = S (waiting (alter (fun sc => sc <| msg_queue ::= tail |>) i scs)).
Proof.
  revert i. induction scs as [| sc scs IH]; intros [| i] E; [done | done | |].
  - change (msg_queue sc = m :: q) in E.
    change (alter _ 0%nat _) with ((sc <| msg_queue ::= tail |>) :: scs). rewrite !waiting_cons.
    change (msg_queue (upd _ _ _)) with (tail (msg_queue sc)). rewrite E. done.
  - change (alter _ (S i) _) with (sc :: alter (fun sc => sc <| msg_queue ::= tail |>) i scs).
    rewrite !waiting_cons, (IH i E). lia.
Qed.

(** One turn: the slot, the message and the heap it leaves. *)
Lemma merge_slot m ss x :
  heap (move_clocks ss) -> move_clocks ss !! 0%nat = Some x -> is_u64 (qm_min_clock m) ->
  exists mc, (when (truth (qm_min_clock m)) (heap_replace (qm_min_clock m))) ss = (Ok tt, ss <| move_clocks := mc |>)
    /\ heap mc /\ mc <> []
    /\ (forall n log, slots_inv n log (move_clocks ss) ->
          slots_inv n (log ++ (if truth (qm_min_clock m) then [(x, qm_min_clock m)] else [])) mc).
Proof.
  intros Hh Hx Hm. unfold when. destruct (truth (qm_min_clock m)).
  - destruct (heap_replace_root (qm_min_clock m) x (move_clocks ss) Hh Hx) as (mc & R & Hh' & Hp).
    { unfold UINT64_MAX, is_u64 in *. lia. }
    exists mc. split; [| split; [done |]; split].
    + unfold heap_replace. rewrite bind_gets, R, bind_lift. done.
    + intros ->. apply Permutation_length in Hp. destruct (move_clocks ss); [done | cbn in Hp; lia].
    + intros n log Hn. by eapply slots_inv_step.
  - exists (move_clocks ss). split; [by destruct ss |]. split; [done |]. split; [by intros E; rewrite E in Hx |].
    intros n log. by rewrite app_nil_r.
Qed.

Lemma msgs_of_wf scs i : Forall sc_wf scs -> Forall qm_wf (msgs_of scs i).
Proof.
  intros H. unfold msgs_of. destruct (scs !! i) as [sc |] eqn:E; [| apply Forall_nil_2].
  apply (Forall_lookup_1 _ _ _ _ H E).
Qed.

Lemma on_sc_tail i ss m q :
  msgs_of (sc_list ss) i = m :: q ->
  on_sc i (modify (fun sc => sc <| msg_queue ::= tail |>)) ss = (Ok tt, take_msg i (move_clocks ss) ss).
Proof.
  unfold msgs_of, on_sc. destruct (sc_list ss !! i) as [sc |] eqn:E; [| done]. intros _.
  rewrite modify_run. f_equal. destruct ss as [scs cq mc sq]. cbn in E. unfold take_msg.
  change (mk_ss (<[i := sc <| msg_queue ::= tail |>]> scs) cq mc sq
          = mk_ss (alter (fun sc => sc <| msg_queue ::= tail |>) i scs) cq mc sq).
  f_equal. rewrite list_insert_alter. apply list_alter_ext; [| done]. intros y Hy. by simplify_eq.
Qed.

(** The run of the second loop: it ends, and it merges. *)
Lemma merge_loop_run fuel move_clock : forall ss msgs,
  heap (move_clocks ss) -> move_clocks ss <> [] -> Forall sc_wf (sc_list ss) ->
  (waiting (sc_list ss) <= fuel)%nat ->
  exists taken sent ss', merge_loop fuel move_clock msgs ss = (Ok (msgs ++ sent), ss')
    /\ merged move_clock ss taken sent ss'.
Proof.
  assert (Hstop : forall ss msgs, (forall i m q, msgs_of (sc_list ss) i = m :: q ->
      move_clock < qm_req_clock m \/ MAX_CLOCK <= qm_req_clock m) ->
    exists taken sent ss', (mret msgs : SS _) ss = (Ok (msgs ++ sent), ss') /\ merged move_clock ss taken sent ss').
  { intros ss msgs H. exists [], [], ss. rewrite app_nil_r. split; [done | by apply merged_stop]. }
  induction fuel as [| fuel IH]; intros ss msgs Hh Hne Hw Hf; cbn [merge_loop]; rewrite bind_gets;
    (destruct (lowest_spec (sc_list ss) 0 MAX_CLOCK None) as [[-> Hge] | (i & m & q & -> & Hi & Hlt & Hge)];
     [apply Hstop; right; by eapply Hge |]); cbn [Nat.add];
    (destruct (truth (qm_min_clock m) && (qm_req_clock m >? move_clock)) eqn:Es;
     [apply Hstop; left; apply andb_true_iff in Es as [_ Es%Z.gtb_lt]; specialize (Hge _ _ _ H); lia |]).
  - rewrite (waiting_take _ _ _ _ Hi) in Hf. lia.
  - destruct (move_clocks ss) as [| x mc0] eqn:Emc; [done |].
    assert (Hm : qm_wf m).
    { pose proof (msgs_of_wf (sc_list ss) i Hw) as H. rewrite Hi in H. by apply Forall_inv in H. }
    destruct (merge_slot m ss x) as (mc & R & Hh' & Hne' & Hs); [by rewrite Emc | by rewrite Emc | apply Hm |].
    change ((x :: mc0) !! 0%nat) with (Some x). rewrite bind_deref. cbv beta. rewrite (bind_ok _ _ _ _ _ R). cbv beta.
    pose proof (on_sc_tail i (ss <| move_clocks := mc |>) m q) as R2. rewrite (bind_ok _ _ _ _ _ (R2 Hi)).
    change (take_msg i _ _) with (take_msg i mc ss).
    destruct (IH (take_msg i mc ss) (msgs ++ [m <| qm_min_clock := x |>])) as (taken & sent & ss' & R' & Hmg).
    + done.
    + done.
    + by apply take_msg_wf.
    + rewrite (waiting_take _ _ _ _ Hi) in Hf. apply le_S_n. exact Hf.
    + exists ((i, m) :: taken), (m <| qm_min_clock := x |> :: sent), ss'. rewrite R', <- app_assoc.
      split; [done |]. eapply merged_take; eauto.
Qed.

(** ** Flushing *)

Definition ss_wf (ss : steppersync) : Prop := Forall sc_wf (sc_list ss).
Definition ss_rest (ss : steppersync) := (move_clocks ss, ss_cq ss, ss_sq ss, length (sc_list ss)).

Lemma on_sc_wf {A} i (m : SC A) : keeps_wf m -> preserves ss_wf (on_sc i m) (fun _ => True).
Proof.
  intros Hm ss Hs. unfold on_sc. destruct (sc_list ss !! i) as [sc |] eqn:E; [| done].
  specialize (Hm sc (Forall_lookup_1 _ _ _ _ Hs E)). destruct (m sc) as [r sc']. split; [| done].
  by apply Forall_insert; [| apply Hm].
Qed.

Lemma on_sc_rest {A} i (m : SC A) : keeps ss_rest (on_sc i m).
Proof.
  intros ss. unfold on_sc. destruct (sc_list ss !! i) as [sc |]; [| done]. destruct (m sc) as [r sc'].
  unfold ss_rest. cbn. by rewrite length_insert.
Qed.

Lemma flush_all_wf n i move_clock : preserves ss_wf (flush_all n i move_clock) (fun _ => True).
Proof.
  revert i. induction n as [| n IH]; intros i; cbn [flush_all]; [by apply preserves_ret |].
  apply (preserves_bind _ (fun _ => True)); [apply on_sc_wf, stepcompress_flush_wf |]. intros ret _.
  by destruct (truth ret); [apply preserves_ret |].
Qed.

Lemma flush_all_rest n i move_clock : keeps ss_rest (flush_all n i move_clock).
Proof.
  revert i. induction n as [| n IH]; intros i; cbn [flush_all]; [apply keeps_ret |].
  apply keeps_bind; [apply on_sc_rest |]. intros ret. by destruct (truth ret); [apply keeps_ret |].
Qed.

(** How a flush from [ss] to [ss'] extends the log. *)
Definition flush_effect (n : nat) (log : list (Z * Z)) (ss ss' : steppersync)
    (taken sent : list queue_message) : Prop :=
  slots_inv n (log ++ uses taken sent) (move_clocks ss') /\ Forall2 sent_as taken sent
  /\ Forall sc_wf (sc_list ss')
  /\ ss_sq ss' = match sent with
                 | [] => ss_sq ss
                 | _ => (serialqueue_send_batch (ss_cq ss) sent (ss_sq ss)).2
                 end.


(** The second loop of the flush always ends.  It takes the messages of
    each compressor in their order, all compressors merged by [req_clock], sends
    everything due by [move_clock], and stops only at messages that are not. *)
Theorem merge_loop_complete move_clock ss :
  heap (move_clocks ss) -> move_clocks ss <> [] -> Forall sc_wf (sc_list ss) ->
  exists taken sent ss',
    merge_loop (waiting (sc_list ss)) move_clock [] ss = (Ok sent, ss')
    /\ Forall2 sent_as taken.*2 sent
    /\ (forall i, msgs_of (sc_list ss) i = (filter (fun p => p.1 = i) taken).*2 ++ msgs_of (sc_list ss') i)
    /\ ((forall i, StronglySorted Z.le (qm_req_clock <$> msgs_of (sc_list ss) i)) ->
        StronglySorted Z.le (qm_req_clock <$> sent))
    /\ (forall i m q, msgs_of (sc_list ss') i = m :: q ->
          move_clock < qm_req_clock m \/ MAX_CLOCK <= qm_req_clock m).
Proof.
  intros Hh Hne Hw. destruct (merge_loop_run _ move_clock ss [] Hh Hne Hw (le_n _)) as (taken & sent & ss' & R & Hm).
  exists taken, sent, ss'. destruct Hm as [Hq Hsent _ Hord Hdue _ _]. split_and!; try done.
  intros Hso. specialize (Hord Hso). replace (qm_req_clock <$> sent) with (qm_req_clock <$> taken.*2); [done |].
  clear -Hsent. induction Hsent as [| m m' ms ms' E _ IH]; [done |]. rewrite !fmap_cons, IH. f_equal.
  unfold sent_as in E. by rewrite E.
Qed.

(** ** Two steppers and three slots *)

Definition demo_qm (msg : Z) (min req : Z) : queue_message := mk_qm [msg] min req d_zero d_zero 0.
Definition demo_queue (qms : list queue_message) : stepcompress :=
  mk_sc [] 0 0 25 d_zero (d_of_Z 16000000) d_zero 5000 qms 7 3 4 1 0 0 1 0 [].
Definition demo_ss : steppersync :=
  mk_ss [demo_queue [demo_qm 1 100 100; demo_qm 2 400 400; demo_qm 3 700 700];
         demo_queue [demo_qm 4 0 90; demo_qm 5 200 200; demo_qm 6 900 900]]
    0 [0; 0; 0] (serialqueue_alloc_commandqueue 0 (serialqueue_alloc SQT_UART)).2.

Lemma demo_qm_wf msg min req : is_u64 min -> is_u64 req -> qm_wf (demo_qm msg min req).
Proof. intros H1 H2. split; [done |]. split; [done |]. vm_compute. discriminate. Qed.

Lemma demo_queue_wf qms : Forall qm_wf qms -> sc_wf (demo_queue qms).
Proof. intros H. unfold sc_wf. split; [done |]. split; [done |]. split; [done |]. split; [apply Forall_nil_2 | exact H]. Qed.

Lemma demo_ss_wf : Forall sc_wf (sc_list demo_ss).
Proof.
  repeat (apply Forall_cons_2; [apply demo_queue_wf; repeat (apply Forall_cons_2; [by apply demo_qm_wf |]); apply Forall_nil_2 |]).
  apply Forall_nil_2.
Qed.


Lemma merge_loop_complete_witness :
  exists taken sent ss',
    merge_loop (waiting (sc_list demo_ss)) 800 [] demo_ss = (Ok sent, ss')
    /\ Forall2 sent_as taken.*2 sent
    /\ (forall i, msgs_of (sc_list demo_ss) i = (filter (fun p => p.1 = i) taken).*2 ++ msgs_of (sc_list ss') i)
    /\ ((forall i, StronglySorted Z.le (qm_req_clock <$> msgs_of (sc_list demo_ss) i)) ->
        StronglySorted Z.le (qm_req_clock <$> sent))
    /\ (forall i m q, msgs_of (sc_list ss') i = m :: q ->
          800 < qm_req_clock m \/ MAX_CLOCK <= qm_req_clock m).
Proof. apply (merge_loop_complete 800 demo_ss); [apply (si_heap 3 []), (slots_inv_init 3) | done | apply demo_ss_wf]. Defined.

(** The batch of that flush: commands in time order; the fourth move has to wait
    for the first slot, which is free again at clock 100. *)
Lemma demo_flush_batch :
  match (merge_loop 6 800 [] demo_ss).1 with
  | Ok sent => (fun m => (qm_msg m, qm_min_clock m)) <$> sent
  | _ => []
  end = [([4], 0); ([1], 0); ([5], 0); ([2], 0); ([3], 100)].
Proof. vm_compute. reflexivity. Qed.
