(* ===== verification/Trdispatch.v ===== *)
(** * Trdispatch: trigger synchronisation across micro-controllers

    Models [src/klippy/chelper/trdispatch.c].  While a probing or homing move
    runs, every micro-controller involved reports its state; a fast reader of
    its serial queue hands the reports to [handle_trsync_state].  A report of a
    trigger is passed on to all micro-controllers; the other reports extend
    the time after which a micro-controller stops by itself. *)

From S2P Require Import Prelude Wire State Command Double Msgblock Pollreactor Serialqueue.

(** [struct trdispatch_mcu]; the serial queue and the command queue are named
    by numbers. *)
Record trdispatch_mcu := mk_tdm {
  tdm_fr : fastreader;
  tdm_sq : Z;
  tdm_cq : Z;
  trsync_oid : Z;
  set_timeout_msgtag : Z;
  trigger_msgtag : Z;
  last_status_clock : Z;
  expire_clock : Z;
  expire_ticks : Z;
  min_extend_ticks : Z;
  tdm_ce : clock_estimate
}.
#[export] Instance trdispatch_mcu_eta : Eta trdispatch_mcu := fun r =>
  mk_tdm (tdm_fr r) (tdm_sq r) (tdm_cq r) (trsync_oid r) (set_timeout_msgtag r) (trigger_msgtag r)
    (last_status_clock r) (expire_clock r) (expire_ticks r) (min_extend_ticks r) (tdm_ce r).

(** [struct trdispatch] with the serial queues it works on. *)
Record trdispatch := mk_td {
  tdm_list : list trdispatch_mcu;
  is_active : bool;
  td_can_trigger : bool;
  dispatch_reason : Z;
  td_sqs : gmap Z serialqueue
}.
#[export] Instance trdispatch_eta : Eta trdispatch := fun r =>
  mk_td (tdm_list r) (is_active r) (td_can_trigger r) (dispatch_reason r) (td_sqs r).

Abbreviation TD := (M trdispatch).

(** Run a computation on the serial queue [id]. *)
Definition with_sq {A : Type} (id : Z) (m : SQ A) : TD A := fun td =>
  match td_sqs td !! id with
  | Some sq => let '(r, sq') := m sq in (r, td <| td_sqs ::= <[id := sq']> |>)
  | None => (Fault "tdm->sq", td)
  end.

Definition send_trsync_trigger (tdm : trdispatch_mcu) : TD unit :=
  reason ← gets dispatch_reason;
  qm ← lift_res (message_alloc_and_encode [trigger_msgtag tdm; trsync_oid tdm; reason]);
  with_sq (tdm_sq tdm) (serialqueue_send_one (tdm_cq tdm) qm).

Definition send_trsync_set_timeout (tdm : trdispatch_mcu) : TD unit :=
  qm ← lift_res (message_alloc_and_encode [set_timeout_msgtag tdm; trsync_oid tdm; u32 (expire_clock tdm)]);
  with_sq (tdm_sq tdm) (serialqueue_send_one (tdm_cq tdm) (qm <| qm_req_clock := expire_clock tdm |>)).

(** [list_for_each_entry(m, ...) send_trsync_trigger(m)] *)
Fixpoint trigger_all (l : list trdispatch_mcu) : TD unit :=
  match l with
  | [] => mret tt
  | m :: l => send_trsync_trigger m ;; trigger_all l
  end.

(** The search for the two smallest status times.  The state of the loop is
    [min_time], [next_min_time] and the position of [min_tdm]. *)
Fixpoint find_min (l : list trdispatch_mcu) (i : nat) (st : double * double * option nat)
    : double * double * option nat :=
  match l with
  | [] => st
  | m :: l =>
      let '(min_time, next_min_time, min_tdm) := st in
      let status_time := clock_to_time (tdm_ce m) (last_status_clock m) in
      find_min l (S i)
        (if dlt status_time next_min_time then
           if dlt status_time min_time then (status_time, min_time, Some i)
           else (min_time, status_time, min_tdm)
         else st)
  end.

(** One turn of the second loop.  The comparison is between an [int64_t] and a
    [uint64_t], so the difference is compared as an unsigned value. *)
Definition extend_timeout (i : nat) (status_time : double) : TD unit :=
  td ← gets (fun s => s);
  m ← deref "m" (tdm_list td !! i);
  clock ← lift_res (clock_from_time (tdm_ce m) status_time);
  let expire := u64 (clock + expire_ticks m) in
  if u64 (s64 (u64 (expire - expire_clock m))) >=? min_extend_ticks m then
    let m := m <| expire_clock := expire |> in
    modify (fun td => td <| tdm_list ::= <[i := m]> |>) ;;
    send_trsync_set_timeout m
  else mret tt.

Fixpoint extend_all (n i : nat) (min_time next_min_time : double) (min_tdm : option nat) : TD unit :=
  match n with
  | O => mret tt
  | S n =>
      extend_timeout i (if bool_decide (min_tdm = Some i) then next_min_time else min_time) ;;
      extend_all n (S i) min_time next_min_time min_tdm
  end.

(** The end of [handle_trsync_state], from the search on. *)
Definition extend_timeouts : TD unit :=
  td ← gets (fun s => s);
  let '(min_time, next_min_time, min_tdm) := find_min (tdm_list td) 0 (PR_NEVER, PR_NEVER, None) in
  let next_min_time := if deq next_min_time PR_NEVER then min_time else next_min_time in
  extend_all (length (tdm_list td)) 0 min_time next_min_time min_tdm.

(** [handle_trsync_state]: [i] is the position of the micro-controller whose
    fast reader was called, [data] the memory from the message on. *)
Definition handle_trsync_state (i : nat) (data : list Z) (len : Z) : TD unit :=
  td ← gets (fun s => s);
  tdm ← deref "tdm" (tdm_list td !! i);
  '(ret, fields) ← lift_res (msgblock_decode 5 data len);
  if truth ret then mret tt
  else
    match fields with
    | [_; oid; can_trigger; _; clock] =>
        if negb (oid =? trsync_oid tdm) then mret tt
        else if negb (td_can_trigger td) then mret tt
        else if negb (truth can_trigger) then
          modify (fun td => td <| td_can_trigger := false |>) ;;
          trigger_all (tdm_list td)
        else
          sq ← deref "tdm->sq" (td_sqs td !! tdm_sq tdm);
          let ce := serialqueue_get_clock_est sq in
          modify (fun td => td <| tdm_list ::= <[i :=
            tdm <| tdm_ce := ce |> <| last_status_clock := clock_from_clock32 ce clock |>]> |>) ;;
          extend_timeouts
    | _ => fault "fields"
    end.

(** Call the same operation for the serial queue of every micro-controller. *)
Fixpoint for_each_tdm (l : list trdispatch_mcu) (f : trdispatch_mcu -> SQ unit) : TD unit :=
  match l with
  | [] => mret tt
  | tdm :: l => with_sq (tdm_sq tdm) (f tdm) ;; for_each_tdm l f
  end.

Definition trdispatch_start (reason : Z) : TD unit :=
  td ← gets (fun s => s);
  if is_active td || bool_decide (tdm_list td = []) then mret tt
  else
    modify (fun td => td <| dispatch_reason := reason |> <| is_active := true |> <| td_can_trigger := true |>) ;;
    for_each_tdm (tdm_list td) (fun tdm => serialqueue_add_fastreader (tdm_fr tdm)).

Definition trdispatch_stop : TD unit :=
  td ← gets (fun s => s);
  if negb (is_active td) then mret tt
  else
    modify (fun td => td <| is_active := false |>) ;;
    for_each_tdm (tdm_list td) (fun tdm => serialqueue_rm_fastreader (fr_id (tdm_fr tdm))).

Definition trdispatch_alloc (sqs : gmap Z serialqueue) : trdispatch := mk_td [] false false 0 sqs.

(** [trdispatch_mcu_alloc]; [fr] names the new fast reader. *)
Definition trdispatch_mcu_alloc (fr sq cq oid set_timeout_tag trigger_tag state_tag : Z) : TD unit :=
  dummy ← lift_res (message_alloc_and_encode [state_tag; oid]);
  modify (fun td => td <| tdm_list ::= fun l => l ++
    [mk_tdm (mk_fr fr (qm_msg dummy)) sq cq oid set_timeout_tag trigger_tag 0 0 0 0 (mk_ce 0 0 d_zero d_zero)] |>).

Definition trdispatch_mcu_setup (i : nat) (status expire ticks min_ticks : Z) : TD unit :=
  td ← gets (fun s => s);
  tdm ← deref "tdm" (tdm_list td !! i);
  sq ← deref "tdm->sq" (td_sqs td !! tdm_sq tdm);
  modify (fun td => td <| tdm_list ::= <[i := tdm <| last_status_clock := status |> <| expire_clock := expire |>
    <| expire_ticks := ticks |> <| min_extend_ticks := min_ticks |> <| tdm_ce := serialqueue_get_clock_est sq |>]> |>).

(** A block that arrives on serial queue [id]: [handle_message], followed by
    the call of the fast reader it selects. *)
Definition td_receive (id : Z) (eventtime now : double) (len : Z) : TD unit :=
  td ← gets (fun s => s);
  fr ← with_sq id (handle_message eventtime now len);
  match fr with
  | None => mret tt
  | Some fr =>
      sq ← deref "sq" (td_sqs td !! id);
      match list_find (fun tdm => fr_id (tdm_fr tdm) = fr_id fr) (tdm_list td) with
      | Some (i, _) => handle_trsync_state i (input_buf (q_in sq)) len
      | None => mret tt
      end
  end.

(** ** The bound on the timeouts *)

Definition status_time (m : trdispatch_mcu) : double := clock_to_time (tdm_ce m) (last_status_clock m).

(** What the search knows after the micro-controllers [pre]. *)
Definition min_inv (pre : list trdispatch_mcu) (st : double * double * option nat) : Prop :=
  let '(mn, nx, idx) := st in
  (forall t, dlt t mn = true -> dlt t nx = true)
  /\ forall j m, pre !! j = Some m ->
       dlt (status_time m) mn = false /\ (idx <> Some j -> dlt (status_time m) nx = false).

Lemma find_min_inv l : forall pre st,
  min_inv pre st -> min_inv (pre ++ l) (find_min l (length pre) st).
Proof.
  induction l as [| m l IH]; intros pre [[mn nx] idx] H; [by rewrite app_nil_r |]. cbn [find_min].
  rewrite (cons_middle m pre l), app_assoc. replace (S (length pre)) with (length (pre ++ [m])) by (rewrite length_app; cbn; lia).
  apply IH. clear IH. destruct H as [Hle Hpre]. fold (status_time m).
  assert (Hcase : forall (P : nat -> trdispatch_mcu -> Prop),
    (forall j m', pre !! j = Some m' -> P j m') -> P (length pre) m ->
    forall j m', (pre ++ [m]) !! j = Some m' -> P j m').
  { intros P H1 H2 j m' Hj. apply lookup_app_Some in Hj as [Hj | [Hj E]]; [by apply H1 |].
    apply list_lookup_singleton_Some in E as [E <-]. by replace j with (length pre) by lia. }
  destruct (dlt (status_time m) nx) eqn:En; [destruct (dlt (status_time m) mn) eqn:Em |].
  - split; [intros t Ht; by eapply dlt_trans |]. apply Hcase.
    + intros j m' Hj. destruct (Hpre j m' Hj) as [H1 _]. split; [| done].
      apply not_true_iff_false. intros Ht. pose proof (dlt_trans _ _ _ Ht Em). congruence.
    + split; [apply dlt_irrefl | done].
  - split.
    + intros t Ht. destruct (dlt_cotrans t (status_time m) mn nx Ht En); congruence.
    + apply Hcase.
      * intros j m' Hj. destruct (Hpre j m' Hj) as [H1 H2]. split; [done |]. intros Hi.
        apply not_true_iff_false. intros Ht. pose proof (dlt_trans _ _ _ Ht En). rewrite H2 in *; congruence.
      * split; [done | intros _; apply dlt_irrefl].
  - split; [done |]. apply Hcase; [done |]. split; [| done].
    apply not_true_iff_false. intros Ht. apply Hle in Ht. congruence.
Qed.

(** The time used for micro-controller [i]. *)
Definition min_bound (l : list trdispatch_mcu) (i : nat) : double :=
  let '(mn, nx, idx) := find_min l 0 (PR_NEVER, PR_NEVER, None) in
  if bool_decide (idx = Some i) then (if deq nx PR_NEVER then mn else nx) else mn.

(** No other micro-controller has an earlier status time. *)
Lemma min_bound_spec l i j m :
  j <> i -> l !! j = Some m -> dlt (status_time m) (min_bound l i) = false.
Proof.
  intros Hij Hj. pose proof (find_min_inv l [] (PR_NEVER, PR_NEVER, None)) as H. cbn [length app] in H.
  unfold min_bound. destruct (find_min l 0 _) as [[mn nx] idx].
  destruct H as [_ H]; [by split |]. destruct (H j m Hj) as [H1 H2].
  case_bool_decide as Hi; [| done]. destruct (deq nx PR_NEVER); [done |]. apply H2. congruence.
Qed.

(** ** What is sent *)

Definition cq_of (td : trdispatch) (s c : Z) : option command_queue :=
  sq ← td_sqs td !! s; cqs (q_pend sq) !! c.

(** The commands that wait in a command queue for their minimum clock. *)
Definition stalled (td : trdispatch) (s c : Z) : list queue_message :=
  default [] (stalled_queue <$> cq_of td s c).

Definition queue_ok (td : trdispatch) (m : trdispatch_mcu) : Prop := is_Some (cq_of td (tdm_sq m) (tdm_cq m)).

(** [sends td td' m qms]: only the queue of [m] changed, and it got [qms]. *)
Record sends (td td' : trdispatch) (m : trdispatch_mcu) (qms : list queue_message) : Prop := {
  sd_queue : forall s c, stalled td' s c
               = stalled td s c ++ (if decide (s = tdm_sq m /\ c = tdm_cq m) then qms else []);
  sd_ok : forall m', queue_ok td m' -> queue_ok td' m';
  sd_list : tdm_list td' = tdm_list td;
  sd_flags : td_can_trigger td' = td_can_trigger td /\ dispatch_reason td' = dispatch_reason td
             /\ is_active td' = is_active td
}.

Lemma send_one_run sq id cq qm :
  cqs (q_pend sq) !! id = Some cq -> qm_msg qm <> [] ->
  exists sq', serialqueue_send_one id qm sq = (Ok tt, sq')
    /\ cqs (q_pend sq') = <[id := cq <| stalled_queue ::= fun l => l ++ [clamp_min_clock qm] |>]> (cqs (q_pend sq)).
Proof.
  intros Hc Hm. unfold serialqueue_send_one, serialqueue_send_batch. cbn [fmap list_fmap].
  assert (Hl : truth (total_len [clamp_min_clock qm]) = true).
  { unfold truth, total_len, clamp_min_clock, qm_len. destruct (_ && _); cbn; destruct (qm_msg qm); done || (cbn; lia). }
  rewrite Hl. cbn [negb]. rewrite bind_gets, Hc. unfold upd_pend. rewrite bind_modify.
  destruct (qm_min_clock (clamp_min_clock qm) <? need_kick_clock (q_pend sq));
    (eexists; split; [reflexivity |]); destruct (bool_decide _ && bool_decide _); reflexivity.
Qed.

Lemma with_sq_send td m qm :
  queue_ok td m -> qm_msg qm <> [] ->
  exists td', with_sq (tdm_sq m) (serialqueue_send_one (tdm_cq m) qm) td = (Ok tt, td')
    /\ sends td td' m [clamp_min_clock qm].
Proof.
  intros [cq Hcq] Hm. unfold cq_of in Hcq. apply bind_Some in Hcq as (sq & Hs & Hc).
  destruct (send_one_run sq (tdm_cq m) cq qm Hc Hm) as (sq' & R & E).
  unfold with_sq. rewrite Hs, R. eexists. split; [reflexivity |].
  assert (Hof : forall s c, cq_of (td <| td_sqs ::= <[tdm_sq m := sq']> |>) s c
    = if decide (s = tdm_sq m /\ c = tdm_cq m)
      then Some (cq <| stalled_queue ::= fun l => l ++ [clamp_min_clock qm] |>) else cq_of td s c).
  { intros s c. unfold cq_of. change (td_sqs (td <| td_sqs ::= _ |>)) with (<[tdm_sq m := sq']> (td_sqs td)).
    destruct (decide (s = tdm_sq m)) as [-> | Hn].
    - rewrite lookup_insert_eq, Hs. cbn [mbind option_bind]. rewrite E.
      destruct (decide (c = tdm_cq m)) as [-> | Hn]; [rewrite lookup_insert_eq, decide_True by done; done |].
      rewrite lookup_insert_ne by done. rewrite decide_False by (intros []; done). done.
    - rewrite lookup_insert_ne by done. rewrite decide_False by (intros []; done). done. }
  constructor; [| | done | done].
  - intros s c. unfold stalled. rewrite Hof. case_decide as Hd; [| by rewrite app_nil_r].
    destruct Hd as [-> ->]. unfold cq_of. rewrite Hs. cbn [mbind option_bind]. by rewrite Hc.
  - intros m' [cq' Hm']. unfold queue_ok. rewrite Hof. case_decide; [by eexists | by eexists].
Qed.

(** The messages of this file are short, so that they can always be encoded. *)
Definition encoded (data : list Z) (req_clock : Z) : queue_message :=
  message_alloc <| qm_msg := vlq_bytes data |> <| qm_req_clock := req_clock |>.

Lemma vlq_bytes_nonempty v vs : vlq_bytes (v :: vs) <> [].
Proof. intros E. pose proof (vlq_bytes_length (v :: vs)) as H. rewrite E in H. cbn in H. lia. Qed.

Definition trigger_msg (reason : Z) (m : trdispatch_mcu) : queue_message :=
  encoded [trigger_msgtag m; trsync_oid m; reason] 0.

Definition timeout_msg (m : trdispatch_mcu) : queue_message :=
  clamp_min_clock (encoded [set_timeout_msgtag m; trsync_oid m; u32 (expire_clock m)] (expire_clock m)).

Lemma send_trigger_run td m :
  queue_ok td m ->
  exists td', send_trsync_trigger m td = (Ok tt, td') /\ sends td td' m [trigger_msg (dispatch_reason td) m].
Proof.
  intros Hq. unfold send_trsync_trigger. rewrite bind_gets, message_encode_fits by (cbn; lia). rewrite bind_lift.
  apply (with_sq_send td m (trigger_msg (dispatch_reason td) m) Hq). apply vlq_bytes_nonempty.
Qed.

Lemma send_set_timeout_run td m :
  queue_ok td m ->
  exists td', send_trsync_set_timeout m td = (Ok tt, td') /\ sends td td' m [timeout_msg m].
Proof.
  intros Hq. unfold send_trsync_set_timeout. rewrite message_encode_fits by (cbn; lia). rewrite bind_lift.
  apply with_sq_send; [done |]. apply vlq_bytes_nonempty.
Qed.

(** The commands meant for one queue. *)
Definition for_queue (s c : Z) (l : list trdispatch_mcu) : list trdispatch_mcu :=
  filter (fun m => s = tdm_sq m /\ c = tdm_cq m) l.

Lemma trigger_all_run l : forall td,
  Forall (queue_ok td) l ->
  exists td', trigger_all l td = (Ok tt, td')
    /\ (forall s c, stalled td' s c = stalled td s c ++ (trigger_msg (dispatch_reason td) <$> for_queue s c l))
    /\ tdm_list td' = tdm_list td /\ td_can_trigger td' = td_can_trigger td.
Proof.
  induction l as [| m l IH]; intros td Hq; cbn [trigger_all].
  - exists td. split; [done |]. split; [intros; by rewrite app_nil_r | done].
  - apply Forall_cons in Hq as [Hm Hq].
    destruct (send_trigger_run td m Hm) as (td1 & R1 & [Hs Hok Hl (Hc & Hr & _)]).
    destruct (IH td1) as (td2 & R2 & Hs2 & Hl2 & Hc2); [eapply Forall_impl; eauto |].
    exists td2. rewrite (bind_ok _ _ _ _ _ R1), R2. split; [done |]. split; [| by rewrite Hl2, Hc2].
    intros s c. rewrite Hs2, Hs, Hr, <- app_assoc. f_equal. unfold for_queue. rewrite filter_cons.
    by case_decide.
Qed.

(** A report in the serial queue's input buffer: the message with its header,
    and the memory behind its data. *)
Definition report (h : list Z) (tag oid can_trigger reason clock : Z) (rest : list Z) : list Z :=
  h ++ vlq_bytes [tag; oid; can_trigger; reason; clock] ++ rest.

Definition report_len (tag oid can_trigger reason clock : Z) : Z :=
  MESSAGE_MIN + Z.of_nat (length (vlq_bytes [tag; oid; can_trigger; reason; clock])).

Lemma decode_report h tag oid can_trigger reason clock rest :
  length h = 2%nat -> Forall is_u32 [tag; oid; can_trigger; reason; clock] ->
  msgblock_decode 5 (report h tag oid can_trigger reason clock rest) (report_len tag oid can_trigger reason clock)
  = Ok (0, [tag; oid; can_trigger; reason; clock]).
Proof.
  intros Hh Hv. unfold msgblock_decode, report, report_len. rewrite drop_app_length' by done.
  apply (decode_loop_vlq [tag; oid; can_trigger; reason; clock] rest); [done |].
  rewrite !length_app, Hh. unfold MESSAGE_MIN, MESSAGE_TRAILER_SIZE. lia.
Qed.

(** C17: a trigger stops every micro-controller.  When the first report that a
    micro-controller has triggered (or timed out) arrives, a trigger command
    with the reason given to [trdispatch_start] is queued for each
    micro-controller in the list, behind what waits there; any later report,
    from whichever micro-controller, queues nothing more. *)
Theorem trigger_reaches_all td i tdm h tag reason clock rest :
  td_can_trigger td = true -> tdm_list td !! i = Some tdm -> Forall (queue_ok td) (tdm_list td) ->
  length h = 2%nat -> Forall is_u32 [tag; trsync_oid tdm; 0; reason; clock] ->
  exists td',
    handle_trsync_state i (report h tag (trsync_oid tdm) 0 reason clock rest)
      (report_len tag (trsync_oid tdm) 0 reason clock) td = (Ok tt, td')
    /\ (forall s c, stalled td' s c
          = stalled td s c ++ (trigger_msg (dispatch_reason td) <$> for_queue s c (tdm_list td)))
    /\ (forall i' data len, (handle_trsync_state i' data len td').2 = td').
Proof.
  intros Hc Hi Hq Hh Hv. unfold handle_trsync_state at 1. rewrite bind_gets, Hi, bind_deref, decode_report by done.
  rewrite bind_lift. change (truth 0) with false. cbv iota beta. rewrite Z.eqb_refl, Hc. cbn [negb]. rewrite bind_modify.
  destruct (trigger_all_run (tdm_list td) (td <| td_can_trigger := false |>)) as (td' & R & Hs & Hl & Hc').
  { exact Hq. }
  exists td'. split; [done |]. split; [exact Hs |]. intros i' data len.
  unfold handle_trsync_state. rewrite bind_gets. destruct (tdm_list td' !! i') as [tdm' |]; [| done].
  rewrite bind_deref. unfold lift_res, mbind, M_bind.
  destruct (msgblock_decode 5 data len) as [[ret fields] | | |]; try done.
  destruct (truth ret); [done |]. do 6 (destruct fields as [| ? fields]; try done).
  destruct (negb _); [done |]. rewrite Hc'. done.
Qed.

(** ** Timeouts *)

(** The timeout of [m] set to [expire_ticks] after [T]. *)
Definition extended (T : double) (m m' : trdispatch_mcu) : Prop :=
  exists clock, clock_from_time (tdm_ce m) T = Ok clock /\ m' = m <| expire_clock := u64 (clock + expire_ticks m) |>.

(** The effect of the second loop on the positions of [ks]: [ext] are the
    micro-controllers that got a new timeout, in order. *)
Record extends (T : nat -> double) (ks : list nat) (td td' : trdispatch) (ext : list trdispatch_mcu) : Prop := {
  ex_length : length (tdm_list td') = length (tdm_list td);
  ex_list : forall k m m', tdm_list td !! k = Some m -> tdm_list td' !! k = Some m' ->
              m' = m \/ (k ∈ ks /\ m' ∈ ext /\ extended (T k) m m');
  ex_queue : forall s c, stalled td' s c = stalled td s c ++ (timeout_msg <$> for_queue s c ext);
  ex_ext : forall m', m' ∈ ext -> exists k, k ∈ ks /\ tdm_list td' !! k = Some m';
  ex_ok : forall m, queue_ok td m -> queue_ok td' m
}.

Lemma extends_none T ks td : extends T ks td td [].
Proof.
  constructor; [done | | intros; by rewrite app_nil_r | | done].
  - intros k m m' H1 H2. left. congruence.
  - intros m' H. by apply not_elem_of_nil in H.
Qed.

Lemma extend_timeout_run i T td td' :
  Forall (queue_ok td) (tdm_list td) -> extend_timeout i (T i) td = (Ok tt, td') ->
  exists ext, extends T [i] td td' ext.
Proof.
  intros Hq. unfold extend_timeout. rewrite bind_gets. destruct (tdm_list td !! i) as [m |] eqn:Hi; [| done].
  rewrite bind_deref. unfold lift_res. intros R. apply bind_inv in R as (clock & td0 & R0 & R).
  injection R0 as Hclk <-. cbv zeta in R. destruct (_ >=? min_extend_ticks m).
  - set (m' := m <| expire_clock := u64 (clock + expire_ticks m) |>) in *. rewrite bind_modify in R.
    set (td1 := td <| tdm_list ::= <[i := m']> |>) in *.
    destruct (send_set_timeout_run td1 m') as (td2 & R2 & [Hs Hok Hl _]).
    { exact (Forall_lookup_1 _ _ _ _ Hq Hi). }
    rewrite R2 in R. injection R as <-. exists [m']. pose proof (lookup_lt_Some _ _ _ Hi) as Hlt.
    assert (Hl1 : tdm_list td2 = <[i := m']> (tdm_list td)) by exact Hl.
    constructor.
    + by rewrite Hl1, length_insert.
    + intros k mk mk' Hk Hk'. rewrite Hl1 in Hk'. apply list_lookup_insert_Some in Hk' as [(-> & <- & _) | [_ Hk']].
      * right. split; [by apply list_elem_of_singleton |]. split; [by apply list_elem_of_singleton |].
        rewrite Hi in Hk. injection Hk as <-. by exists clock.
      * left. congruence.
    + intros s c. rewrite (Hs s c). unfold for_queue. rewrite filter_cons. by case_decide.
    + intros mk' Hin. apply list_elem_of_singleton in Hin as ->. exists i.
      split; [by apply list_elem_of_singleton |]. rewrite Hl1. by apply list_lookup_insert_eq.
    + exact Hok.
  - injection R as <-. exists []. apply extends_none.
Qed.

Lemma extends_trans T ks1 ks2 td td1 td2 ext1 ext2 :
  ks1 ## ks2 -> extends T ks1 td td1 ext1 -> extends T ks2 td1 td2 ext2 ->
  extends T (ks1 ++ ks2) td td2 (ext1 ++ ext2).
Proof.
  intros Hd [L1 H1 Q1 E1 K1] [L2 H2 Q2 E2 K2].
  assert (Hstay : forall k m, k ∉ ks2 -> tdm_list td1 !! k = Some m -> tdm_list td2 !! k = Some m).
  { intros k m Hk Hm. destruct (lookup_lt_is_Some_2 (tdm_list td2) k) as [m2 Hm2].
    { rewrite L2. by apply lookup_lt_Some in Hm. }
    by destruct (H2 k m m2 Hm Hm2) as [-> | [? _]]. }
  constructor.
  - congruence.
  - intros k m m' Hm Hm'. destruct (lookup_lt_is_Some_2 (tdm_list td1) k) as [m1 Hm1].
    { rewrite L1. by apply lookup_lt_Some in Hm. }
    rewrite !elem_of_app.
    destruct (H1 k m m1 Hm Hm1) as [E | (Hk & He & Hx)], (H2 k m1 m' Hm1 Hm') as [E' | (Hk' & He' & Hx')]; try subst m1.
    + by left.
    + right. auto.
    + right. auto.
    + by destruct (Hd k Hk Hk').
  - intros s c. rewrite Q2, Q1, <- app_assoc. f_equal. unfold for_queue. by rewrite filter_app, fmap_app.
  - intros m' [Hm | Hm]%elem_of_app.
    + destruct (E1 m' Hm) as (k & Hk & Hl). exists k. split; [by apply elem_of_app; left |].
      apply Hstay; [| done]. intros Hk'. by apply (Hd k).
    + destruct (E2 m' Hm) as (k & Hk & Hl). exists k. split; [by apply elem_of_app; right | done].
  - auto.
Qed.

Lemma extend_all_run n : forall i mn nx idx td td',
  Forall (queue_ok td) (tdm_list td) -> extend_all n i mn nx idx td = (Ok tt, td') ->
  exists ext, extends (fun k => if bool_decide (idx = Some k) then nx else mn) (seq i n) td td' ext.
Proof.
  induction n as [| n IH]; intros i mn nx idx td td' Hq R; cbn [extend_all] in R.
  - injection R as <-. exists []. apply extends_none.
  - apply bind_inv in R as ([] & td1 & R1 & R2).
    destruct (extend_timeout_run i (fun k => if bool_decide (idx = Some k) then nx else mn) td td1 Hq R1) as [ext1 H1].
    destruct (IH (S i) mn nx idx td1 td') as [ext2 H2]; [| done |].
    + apply Forall_lookup_2. intros k m Hm. destruct (lookup_lt_is_Some_2 (tdm_list td) k) as [m0 Hm0].
      { rewrite <- (ex_length _ _ _ _ _ H1). by apply lookup_lt_Some in Hm. }
      pose proof (Forall_lookup_1 _ _ _ _ Hq Hm0) as Hok. apply (ex_ok _ _ _ _ _ H1) in Hok.
      destruct (ex_list _ _ _ _ _ H1 k m0 m Hm0 Hm) as [-> | (_ & _ & clock & _ & ->)]; exact Hok.
    + exists (ext1 ++ ext2). apply (extends_trans _ [i] (seq (S i) n) td td1 td'); [| done | done].
      intros k Hk Hk'. apply list_elem_of_singleton in Hk as ->. apply elem_of_seq in Hk'. lia.
Qed.


(** ** Two micro-controllers *)

Definition demo_ce : clock_estimate := mk_ce 0 0 d_zero (d_of_Z 1000000).
Definition demo_tdm (sq : Z) (status expire : Z) : trdispatch_mcu :=
  mk_tdm (mk_fr sq [14; 3]) sq 0 3 11 12 status expire 250000 1000 demo_ce.
Definition demo_sq : serialqueue :=
  ((serialqueue_alloc_commandqueue 0 ;; serialqueue_set_clock_est (d_of_Z 1000000) d_zero 0 0)
     (serialqueue_alloc SQT_UART)).2.
Definition demo_td : trdispatch :=
  mk_td [demo_tdm 0 90000 500000; demo_tdm 1 100000 340000] true true 2 {[ 0 := demo_sq; 1 := demo_sq ]}.

Definition demo_report (can_trigger clock : Z) : list Z :=
  report [14; 16] 14 3 can_trigger 0 clock [1; 2; MESSAGE_SYNC].

Lemma demo_queues : Forall (queue_ok demo_td) (tdm_list demo_td).
Proof. repeat (apply Forall_cons_2; [eexists; vm_compute; reflexivity |]). apply Forall_nil_2. Qed.

Lemma demo_u32 can_trigger clock :
  is_u32 can_trigger -> is_u32 clock -> Forall is_u32 [14; trsync_oid (demo_tdm 0 90000 500000); can_trigger; 0; clock].
Proof. intros H1 H2. repeat (apply Forall_cons_2; [done |]). apply Forall_nil_2. Qed.

Lemma trigger_reaches_all_witness :
  exists td',
    handle_trsync_state 0 (demo_report 0 300000) (report_len 14 3 0 0 300000) demo_td = (Ok tt, td')
    /\ (forall s c, stalled td' s c = stalled demo_td s c ++ (trigger_msg 2 <$> for_queue s c (tdm_list demo_td)))
    /\ (forall i' data len, (handle_trsync_state i' data len td').2 = td').
Proof.
  apply (trigger_reaches_all demo_td 0 (demo_tdm 0 90000 500000) [14; 16] 14 0 300000 [1; 2; MESSAGE_SYNC]);
    [reflexivity | reflexivity | apply demo_queues | reflexivity | by apply demo_u32].
Defined.

Definition demo_after : trdispatch :=
  (handle_trsync_state 0 (demo_report 1 300000) (report_len 14 3 1 0 300000) demo_td).2.

(** The test that is meant to only extend a timeout compares the signed
    distance with an unsigned number, so a timeout that would move back passes
    it: the first micro-controller's timeout at clock 500000 is replaced by one
    at 350000, and the earlier one is sent. *)
Theorem timeout_moves_back :
  expire_clock <$> tdm_list demo_td !! 0%nat = Some 500000
  /\ expire_clock <$> tdm_list demo_after !! 0%nat = Some 350000
  /\ stalled demo_after 0 0 = [timeout_msg (demo_tdm 0 300000 350000)].
Proof. vm_compute. repeat split. Qed.

