(* ===== verification/Trapq.v ===== *)
(** * Trapq: the queue of trapezoidal moves

    Models [src/klippy/chelper/trapq.c].  A [struct move] is a stretch of motion
    with constant acceleration; a [struct trapq] links the moves to come between
    two sentinels and keeps the moves of the recent past, newest first.  The
    lists of C are lists of values here: the sentinels are fields of the record
    and a pointer to a move is its index in the list from the head sentinel to
    the tail sentinel ([nodes]). *)

From S2P Require Import Prelude Double Rounding.

Record coord := mk_coord { cx : double; cy : double; cz : double }.

Record move := mk_tmove {
  print_time : double; move_t : double;
  start_v : double; half_accel : double;
  start_pos : coord; axes_r : coord
}.
#[export] Instance eta_move : Eta move :=
  fun r => mk_tmove (print_time r) (move_t r) (start_v r) (half_accel r) (start_pos r) (axes_r r).

Record trapq := mk_trapq {
  tq_head : move;
  tq_moves : list move;
  tq_tail : move;
  tq_history : list move
}.
#[export] Instance eta_trapq : Eta trapq := fun r => mk_trapq (tq_head r) (tq_moves r) (tq_tail r) (tq_history r).

Definition nodes (tq : trapq) : list move := tq_head tq :: tq_moves tq ++ [tq_tail tq].

(** 9999999999999999.9 is rounded to the double 10^16. *)
Definition NEVER_TIME : double := d_of_Z (10 ^ 16).
Definition MAX_NULL_MOVE : double := d_of_Z 1.
Definition HISTORY_EXPIRE : double := d_of_Z 30.
Definition d_one : double := d_of_Z 1.
Definition d_two : double := d_of_Z 2.
Definition dne (x y : double) : bool := negb (deq x y).

Definition coord0 : coord := mk_coord d_zero d_zero d_zero.

Definition tmove_alloc : move := mk_tmove d_zero d_zero d_zero d_zero coord0 coord0.

(** [m->print_time + m->move_t]. *)
Definition move_end (m : move) : double := dadd (print_time m) (move_t m).

Definition move_get_distance (m : move) (move_time : double) : double :=
  dmul (dadd (start_v m) (dmul (half_accel m) move_time)) move_time.

Definition move_get_coord (m : move) (move_time : double) : coord :=
  let move_dist := move_get_distance m move_time in
  mk_coord (dadd (cx (start_pos m)) (dmul (cx (axes_r m)) move_dist))
    (dadd (cy (start_pos m)) (dmul (cy (axes_r m)) move_dist))
    (dadd (cz (start_pos m)) (dmul (cz (axes_r m)) move_dist)).

Definition trapq_alloc : trapq :=
  mk_trapq tmove_alloc [] (tmove_alloc <| print_time := NEVER_TIME |> <| move_t := NEVER_TIME |>) [].

(** The entry before the tail sentinel. *)
Definition last_node (tq : trapq) : move := default (tq_head tq) (last (tq_moves tq)).

Definition trapq_check_sentinels (tq : trapq) : trapq :=
  if d_truth (print_time (tq_tail tq)) then tq
  else
    match tq_moves tq with
    | [] => tq <| tq_tail ::= fun t => t <| print_time := NEVER_TIME |> |>
    | _ =>
        let m := last_node tq in
        tq <| tq_tail ::= fun t => t <| print_time := move_end m |> <| start_pos := move_get_coord m (move_t m) |> |>
    end.

(** The null move that [trapq_add_move] puts before [m] to fill a gap. *)
Definition null_move (prev m : move) : move :=
  let null := tmove_alloc <| start_pos := start_pos m |> in
  let null :=
    if negb (d_truth (print_time prev)) && dlt MAX_NULL_MOVE (print_time m)
    then null <| print_time := dsub (print_time m) MAX_NULL_MOVE |>
    else null <| print_time := move_end prev |> in
  null <| move_t := dsub (print_time m) (print_time null) |>.

Definition trapq_add_move (tq : trapq) (m : move) : trapq :=
  let prev := last_node tq in
  let tq := if dlt (move_end prev) (print_time m) then tq <| tq_moves ::= fun l => l ++ [null_move prev m] |> else tq in
  tq <| tq_moves ::= fun l => l ++ [m] |> <| tq_tail ::= fun t => t <| print_time := d_zero |> |>.

(** One phase of [trapq_append]: the move and where the next one begins. *)
Definition append_phase (tq : trapq) (phase_t : double) (m : move) : trapq * double * coord :=
  let m := m <| move_t := phase_t |> in
  (trapq_add_move tq m, dadd (print_time m) phase_t, move_get_coord m phase_t).

Definition trapq_append (tq : trapq) (pt accel_t cruise_t decel_t : double) (start axes : coord) (sv cruise_v accel : double) : trapq :=
  let '(tq, pt, start) :=
    if d_truth accel_t then append_phase tq accel_t (mk_tmove pt d_zero sv (dmul d_half accel) start axes) else (tq, pt, start) in
  let '(tq, pt, start) :=
    if d_truth cruise_t then append_phase tq cruise_t (mk_tmove pt d_zero cruise_v d_zero start axes) else (tq, pt, start) in
  if d_truth decel_t
  then (append_phase tq decel_t (mk_tmove pt d_zero cruise_v (dmul (dopp d_half) accel) start axes)).1.1
  else tq.

(** The first loop of [trapq_finalize_moves]: the moves that stay, and the
    history with those that ended. *)
Fixpoint expire_moves (t : double) (moves history : list move) : list move * list move :=
  match moves with
  | [] => ([], history)
  | m :: rest =>
      if dlt t (move_end m) then (moves, history)
      else expire_moves t rest (if d_truth (start_v m) || d_truth (half_accel m) then m :: history else history)
  end.

(** The second loop, from the oldest entry on; [latest] is the first one. *)
Fixpoint expire_history (expire_time : double) (older : list move) : list move :=
  match older with
  | [] => []
  | m :: newer => if dlt expire_time (move_end m) then older else expire_history expire_time newer
  end.

Definition trapq_finalize_moves (tq : trapq) (t : double) : trapq :=
  let '(moves, history) := expire_moves t (tq_moves tq) (tq_history tq) in
  let tq := tq <| tq_moves := moves |> <| tq_history := history |> in
  let tq := match moves with [] => tq <| tq_tail ::= fun r => r <| print_time := NEVER_TIME |> |> | _ => tq end in
  match history with
  | [] => tq
  | latest :: older =>
      let expire_time := dsub (move_end latest) HISTORY_EXPIRE in
      tq <| tq_history := latest :: rev (expire_history expire_time (rev older)) |>
  end.

(** The loop of [trapq_set_position] that drops interrupted moves. *)
Fixpoint prune_history (t : double) (history : list move) : list move :=
  match history with
  | [] => []
  | m :: older =>
      if dlt (print_time m) t
      then (if dlt t (move_end m) then m <| move_t := dsub t (print_time m) |> else m) :: older
      else prune_history t older
  end.

Definition trapq_set_position (tq : trapq) (t : double) (pos : coord) : trapq :=
  let tq := trapq_finalize_moves tq NEVER_TIME in
  tq <| tq_history ::= fun h => (tmove_alloc <| print_time := t |> <| start_pos := pos |>) :: prune_history t h |>.

Record pull_move := mk_pull {
  pl_print_time : double; pl_move_t : double; pl_start_v : double; pl_accel : double; pl_start : coord; pl_r : coord
}.

Definition pull (m : move) : pull_move :=
  mk_pull (print_time m) (move_t m) (start_v m) (dmul d_two (half_accel m)) (start_pos m) (axes_r m).

(** The loop of [trapq_extract_old]; [room] is [max - res]. *)
Fixpoint extract_loop (start_time end_time : double) (room : Z) (history : list move) : list pull_move :=
  match history with
  | [] => []
  | m :: older =>
      if dle (move_end m) start_time || (room <=? 0) then []
      else if dle end_time (print_time m) then extract_loop start_time end_time room older
      else pull m :: extract_loop start_time end_time (room - 1) older
  end.

Definition trapq_extract_old (tq : trapq) (max : Z) (start_time end_time : double) : list pull_move :=
  extract_loop start_time end_time max (tq_history tq).

(** An entry of the planner's queue, [move_data_t_in_trapq]: the fields that are
    read.  The list is that of the [next] pointers. *)
Record move_data := mk_move_data {
  md_start_pos : coord; md_start_e : double; md_end_e : double;
  md_start_v : double; md_cruise_v : double; md_accel_t : double; md_cruise_t : double; md_decel_t : double;
  md_accel : double; md_is_kinematic_move : bool;
  md_axes_d : coord; md_axes_d_e : double; md_axes_r : coord; md_axes_r_e : double
}.

Definition append_kinematic (tq : trapq) (t : double) (d : move_data) : trapq :=
  if md_is_kinematic_move d
  then trapq_append tq t (md_accel_t d) (md_cruise_t d) (md_decel_t d) (md_start_pos d) (md_axes_r d)
         (md_start_v d) (md_cruise_v d) (md_accel d)
  else tq.

Definition append_extruder (tq : trapq) (t : double) (d : move_data) : trapq :=
  let axis_r := md_axes_r_e d in
  let can_pressure_advance :=
    if dlt d_zero axis_r && (d_truth (cx (md_axes_d d)) || d_truth (cy (md_axes_d d))) then d_one else d_zero in
  trapq_append tq t (md_accel_t d) (md_cruise_t d) (md_decel_t d) (mk_coord (md_start_e d) d_zero d_zero)
    (mk_coord d_one can_pressure_advance d_zero)
    (dmul (md_start_v d) axis_r) (dmul (md_cruise_v d) axis_r) (dmul (md_accel d) axis_r).

(** The loop of [trapq_append_from_moveq]: the queues, the last extruder
    position and the time of the next move. *)
Fixpoint append_moveq (kin ext : trapq) (t : double) (e_pos : double) (i move_num : Z) (ds : list move_data)
    : trapq * trapq * double * double :=
  match ds with
  | [] => (kin, ext, e_pos, t)
  | d :: ds =>
      let kin := append_kinematic kin t d in
      let '(ext, e_pos) := if dne (md_axes_d_e d) d_zero then (append_extruder ext t d, md_end_e d) else (ext, e_pos) in
      let t := dadd (dadd (dadd t (md_accel_t d)) (md_cruise_t d)) (md_decel_t d) in
      if s32 (i + 1) =? move_num then (kin, ext, e_pos, t) else append_moveq kin ext t e_pos (s32 (i + 1)) move_num ds
  end.

(** 999999999.999, the position returned when no move extrudes. *)
Definition no_extrusion : double := d_lit 999999999999 1000.

Definition trapq_append_from_moveq (kin ext : trapq) (next_move_time : double) (moves : list move_data) (move_num : Z)
    : trapq * trapq * double * double :=
  append_moveq kin ext next_move_time no_extrusion 0 move_num moves.

(** ** What an append adds

    [phases]: the moves of a trapezoid, each beginning where and when the one
    before it ends.  [fill]: a list of moves with null moves in the gaps. *)
Definition phases (pt accel_t cruise_t decel_t : double) (start axes : coord) (sv cruise_v accel : double) : list move :=
  let m1 := mk_tmove pt accel_t sv (dmul d_half accel) start axes in
  let pt2 := if d_truth accel_t then move_end m1 else pt in
  let start2 := if d_truth accel_t then move_get_coord m1 accel_t else start in
  let m2 := mk_tmove pt2 cruise_t cruise_v d_zero start2 axes in
  let pt3 := if d_truth cruise_t then move_end m2 else pt2 in
  let start3 := if d_truth cruise_t then move_get_coord m2 cruise_t else start2 in
  let m3 := mk_tmove pt3 decel_t cruise_v (dmul (dopp d_half) accel) start3 axes in
  (if d_truth accel_t then [m1] else []) ++ (if d_truth cruise_t then [m2] else []) ++ (if d_truth decel_t then [m3] else []).

Fixpoint fill (prev : move) (ms : list move) : list move :=
  match ms with
  | [] => []
  | m :: ms => (if dlt (move_end prev) (print_time m) then [null_move prev m] else []) ++ m :: fill m ms
  end.

Lemma last_node_snoc tq m : last_node (tq <| tq_moves ::= fun l => l ++ [m] |>) = m.
Proof. unfold last_node. simpl. by rewrite last_snoc. Qed.

Lemma trapq_add_move_moves tq m :
  tq_moves (trapq_add_move tq m)
  = tq_moves tq ++ (if dlt (move_end (last_node tq)) (print_time m) then [null_move (last_node tq) m] else []) ++ [m]
  /\ last_node (trapq_add_move tq m) = m /\ tq_history (trapq_add_move tq m) = tq_history tq.
Proof.
  unfold trapq_add_move. destruct (dlt _ _); simpl; unfold last_node; simpl; rewrite last_snoc; split_and!; try done.
  by rewrite <- app_assoc.
Qed.

(** Appending the moves one by one. *)
Lemma add_moves_fill ms tq :
  tq_moves (foldl trapq_add_move tq ms) = tq_moves tq ++ fill (last_node tq) ms
  /\ tq_history (foldl trapq_add_move tq ms) = tq_history tq.
Proof.
  revert tq. induction ms as [| m ms IH]; intros tq; cbn [foldl fill]; [by rewrite app_nil_r |].
  destruct (trapq_add_move_moves tq m) as (H1 & H2 & H3). destruct (IH (trapq_add_move tq m)) as [I1 I2].
  rewrite I1, I2, H1, H2, H3. split; [| done]. rewrite <- !app_assoc. done.
Qed.

Lemma trapq_append_phases tq pt at_ ct dt start axes sv cv acc :
  trapq_append tq pt at_ ct dt start axes sv cv acc = foldl trapq_add_move tq (phases pt at_ ct dt start axes sv cv acc).
Proof.
  unfold trapq_append, phases, append_phase, move_end. cbn zeta.
  destruct (d_truth at_), (d_truth ct), (d_truth dt); reflexivity.
Qed.

(** [contiguous ms]: every move begins at the very time and place, bit by bit,
    at which the one before it ends. *)
Fixpoint contiguous (ms : list move) : Prop :=
  match ms with
  | m1 :: ((m2 :: _) as rest) =>
      print_time m2 = move_end m1 /\ start_pos m2 = move_get_coord m1 (move_t m1) /\ contiguous rest
  | _ => True
  end.

Lemma phases_contiguous pt at_ ct dt start axes sv cv acc : contiguous (phases pt at_ ct dt start axes sv cv acc).
Proof.
  unfold phases. cbn zeta. destruct (d_truth at_), (d_truth ct), (d_truth dt); cbn [app contiguous print_time start_pos];
    repeat split; reflexivity.
Qed.

Lemma fill_contiguous m ms : contiguous (m :: ms) -> fill m ms = ms.
Proof.
  revert m. induction ms as [| m2 ms IH]; intros m; [done |]. cbn [contiguous fill]. intros (H1 & _ & H3).
  rewrite H1, dlt_irrefl, (IH m2 H3). done.
Qed.

(** At most one null move is added, before the first phase. *)
Lemma fill_phases p ms : contiguous ms -> exists gap, (length gap <= 1)%nat /\ fill p ms = gap ++ ms.
Proof.
  destruct ms as [| m ms]; [exists []; split; [cbn [length]; lia | done] |]. intros H. cbn [fill]. rewrite (fill_contiguous m ms H).
  destruct (dlt _ _); [exists [null_move p m] | exists []]; (split; [cbn [length]; lia | reflexivity]).
Qed.

(** ** No motion is lost *)

Lemma elem_of_rev {A} (x : A) l : x ∈ rev l <-> x ∈ l.
Proof. rewrite rev_alt. apply elem_of_reverse. Qed.

Definition moving (m : move) : bool := d_truth (start_v m) || d_truth (half_accel m).

Lemma expire_moves_split t moves history :
  exists done rest, moves = done ++ rest /\ Forall (fun m => dlt t (move_end m) = false) done
    /\ expire_moves t moves history = (rest, rev (filter moving done) ++ history)
    /\ (forall m, head rest = Some m -> dlt t (move_end m) = true).
Proof.
  revert history. induction moves as [| m moves IH]; intros history; cbn [expire_moves]; [by exists [], [] |].
  destruct (dlt t (move_end m)) eqn:E.
  - exists [], (m :: moves). split_and!; try done. by intros ? [= <-].
  - destruct (IH (if moving m then m :: history else history)) as (done_ & rest & -> & Hd & He & Hr).
    exists (m :: done_), rest. split_and!; [done | by constructor | | done]. unfold moving in *. rewrite He.
    rewrite filter_cons. destruct (decide _) as [Hm | Hm]; destruct (d_truth (start_v m) || d_truth (half_accel m)); try done;
      simpl; by rewrite <- ?app_assoc.
Qed.

Lemma expire_history_suffix e older :
  exists gone, older = gone ++ expire_history e older /\ Forall (fun m => dlt e (move_end m) = false) gone.
Proof.
  induction older as [| m older IH]; cbn [expire_history]; [by exists [] |]. destruct (dlt e (move_end m)) eqn:E; [by exists [] |].
  destruct IH as (gone & H1 & H2). exists (m :: gone). split; [by rewrite H1 at 1 | by constructor].
Qed.

(** [finalize]: the moves that have ended leave the queue in order; those with
    motion go to the history, whose oldest entries are dropped when they ended
    30 seconds before the newest. *)
Lemma trapq_finalize_spec tq t :
  exists done gone, tq_moves tq = done ++ tq_moves (trapq_finalize_moves tq t)
    /\ Forall (fun m => dlt t (move_end m) = false) done
    /\ (forall m, head (tq_moves (trapq_finalize_moves tq t)) = Some m -> dlt t (move_end m) = true)
    /\ rev (filter moving done) ++ tq_history tq = tq_history (trapq_finalize_moves tq t) ++ gone
    /\ forall m, m ∈ gone -> exists l, head (tq_history (trapq_finalize_moves tq t)) = Some l
         /\ dlt (dsub (move_end l) HISTORY_EXPIRE) (move_end m) = false.
Proof.
  unfold trapq_finalize_moves. destruct (expire_moves_split t (tq_moves tq) (tq_history tq)) as (done_ & rest & Hm & Hd & -> & Hr).
  destruct (rev (filter moving done_) ++ tq_history tq) as [| latest older] eqn:Eh.
  - exists done_, []. destruct rest; simpl; (split_and!; [done | done | done | done | by intros ? ?%not_elem_of_nil]).
  - destruct (expire_history_suffix (dsub (move_end latest) HISTORY_EXPIRE) (rev older)) as (gone & Hg & Hf).
    exists done_, (rev gone). destruct rest; simpl; (split_and!; [done | done | done | |]).
    1, 3: rewrite <- rev_app_distr, <- Hg, rev_involutive; done.
    all: intros x Hin; exists latest; split; [done |]; rewrite Forall_forall in Hf; by apply Hf, elem_of_rev.
Qed.

(** The calls of the planner, and all moves they have linked, in order. *)
Inductive tq_op :=
| Append (pt accel_t cruise_t decel_t : double) (start axes : coord) (sv cruise_v accel : double)
| Finalize (t : double).

Definition op_phases (op : tq_op) : list move :=
  match op with
  | Append pt at_ ct dt start axes sv cv acc => phases pt at_ ct dt start axes sv cv acc
  | Finalize _ => []
  end.

Definition run_op (tq : trapq) (op : tq_op) : trapq :=
  match op with
  | Append pt at_ ct dt start axes sv cv acc => trapq_append tq pt at_ ct dt start axes sv cv acc
  | Finalize t => trapq_finalize_moves tq t
  end.

Definition link (st : trapq * list move) (op : tq_op) : trapq * list move :=
  (run_op st.1 op, st.2 ++ fill (last_node st.1) (op_phases op)).

Record tq_history_ok (ts : list double) (tq : trapq) (L : list move) (n : nat) (old : list move) : Prop := {
  th_len : (n <= length L)%nat;
  th_moves : tq_moves tq = drop n L;
  th_hist : rev (filter moving (take n L)) = tq_history tq ++ old;
  th_old : forall m, m ∈ old -> exists l, l ∈ take n L /\ moving l = true
             /\ dlt (dsub (move_end l) HISTORY_EXPIRE) (move_end m) = false;
  th_done : forall m, m ∈ take n L -> exists t, t ∈ ts /\ dlt t (move_end m) = false
}.

Lemma history_ok_append ts tq L n old pt at_ ct dt start axes sv cv acc :
  tq_history_ok ts tq L n old ->
  tq_history_ok ts (trapq_append tq pt at_ ct dt start axes sv cv acc)
    (L ++ fill (last_node tq) (phases pt at_ ct dt start axes sv cv acc)) n old.
Proof.
  intros [H1 H2 H3 H4 H5]. rewrite trapq_append_phases.
  destruct (add_moves_fill (phases pt at_ ct dt start axes sv cv acc) tq) as [E1 E2].
  split; [rewrite length_app; lia | | | |]; rewrite ?take_app_le by done; try done.
  - by rewrite E1, H2, drop_app_le.
  - by rewrite E2.
Qed.

Lemma history_ok_finalize ts tq L n old t :
  tq_history_ok ts tq L n old -> exists n' old', tq_history_ok (t :: ts) (trapq_finalize_moves tq t) L n' old'.
Proof.
  intros [H1 H2 H3 H4 H5]. destruct (trapq_finalize_spec tq t) as (done_ & gone & F1 & F2 & _ & F4 & F5).
  set (tq' := trapq_finalize_moves tq t) in *. exists (n + length done_)%nat, (gone ++ old).
  assert (HL : drop n L = done_ ++ tq_moves tq') by (by rewrite <- H2).
  assert (Ht : take (n + length done_) L = take n L ++ done_).
  { rewrite <- take_take_drop, HL, take_app_length. done. }
  assert (Hh : rev (filter moving (take n L ++ done_)) = tq_history tq' ++ gone ++ old).
  { rewrite filter_app, rev_app_distr, H3, app_assoc, F4, <- app_assoc. done. }
  split; rewrite ?Ht.
  - assert (length (drop n L) = length (done_ ++ tq_moves tq')) by congruence. rewrite length_drop, length_app in *. lia.
  - rewrite <- drop_drop, HL, drop_app_length. done.
  - exact Hh.
  - intros m [Hm | Hm]%elem_of_app.
    + destruct (F5 m Hm) as (l & Hl & Hd). assert (Hin : l ∈ rev (filter moving (take n L ++ done_))).
      { rewrite Hh. destruct (tq_history tq'); [done |]. injection Hl as ->. left. }
      apply elem_of_rev, list_elem_of_filter in Hin as [Hl1 Hl2]. exists l.
      split_and!; [done | by destruct (moving l) | done].
    + destruct (H4 m Hm) as (l & Hl & Hr). exists l. split; [apply elem_of_app; by left | done].
  - intros m [Hm | Hm]%elem_of_app.
    + destruct (H5 m Hm) as (x & Hx & Hr). exists x. split; [by right | done].
    + exists t. split; [left |]. rewrite Forall_forall in F2. by apply F2.
Qed.

Definition finalize_times (ops : list tq_op) : list double :=
  omap (fun op => match op with Finalize t => Some t | _ => None end) ops.

Lemma null_move_still prev m : moving (null_move prev m) = false.
Proof. unfold null_move. destruct (_ && _); reflexivity. Qed.

Lemma fill_moving p ms : filter moving (fill p ms) = filter moving ms.
Proof.
  revert p. induction ms as [| m ms IH]; intros p; [done |]. cbn [fill]. rewrite filter_app.
  assert (filter moving (if dlt (move_end p) (print_time m) then [null_move p m] else []) = []) as ->.
  { destruct (dlt _ _); [| done]. rewrite filter_cons_False; [done |]. rewrite null_move_still. intros []. }
  rewrite app_nil_l, !filter_cons, IH. done.
Qed.

Lemma link_run ops tq L : (foldl link (tq, L) ops).1 = foldl run_op tq ops.
Proof. revert tq L. induction ops as [| op ops IH]; intros tq L; [done |]. exact (IH _ _). Qed.

Lemma link_moving ops tq L :
  filter moving (foldl link (tq, L) ops).2 = filter moving L ++ filter moving (concat (op_phases <$> ops)).
Proof.
  revert tq L. induction ops as [| op ops IH]; intros tq L; [by rewrite app_nil_r |].
  cbn [foldl fmap list_fmap concat]. unfold link at 2. cbn [fst snd]. rewrite IH, !filter_app, fill_moving, app_assoc. done.
Qed.

Lemma link_history ops : forall ts tq L n old, tq_history_ok ts tq L n old ->
  exists n' old', tq_history_ok (rev (finalize_times ops) ++ ts) (foldl link (tq, L) ops).1 (foldl link (tq, L) ops).2 n' old'.
Proof.
  induction ops as [| op ops IH]; intros ts tq L n old H; [by exists n, old |]. cbn [foldl].
  destruct op as [pt at_ ct dt start axes sv cv acc | t]; unfold link at 2 4; cbn [fst snd run_op op_phases finalize_times omap list_omap].
  - exact (IH _ _ _ _ _ (history_ok_append _ _ _ _ _ _ _ _ _ _ _ _ _ _ H)).
  - rewrite app_nil_r. destruct (history_ok_finalize _ _ _ _ _ t H) as (n' & old' & H').
    destruct (IH _ _ _ _ _ H') as (n2 & old2 & H2). exists n2, old2. cbn [rev]. by rewrite <- app_assoc.
Qed.

(** C8: the queue loses no motion. After any calls of [trapq_append] and
    [trapq_finalize_moves], the moves with motion that the planner appended are,
    in order: those dropped, those in the history (oldest first), and those
    still in the queue. A move left the queue only because it had ended at the
    time of some finalization, and was dropped only because it ended 30 seconds
    or more before one that left the queue after it. *)
Theorem trapq_conserves ops :
  let tq := foldl run_op trapq_alloc ops in
  exists old,
    filter moving (concat (op_phases <$> ops)) = rev old ++ rev (tq_history tq) ++ filter moving (tq_moves tq)
    /\ (forall m, m ∈ old ++ tq_history tq -> exists t, Finalize t ∈ ops /\ dlt t (move_end m) = false)
    /\ (forall m, m ∈ old -> exists l, l ∈ old ++ tq_history tq
          /\ dlt (dsub (move_end l) HISTORY_EXPIRE) (move_end m) = false).
Proof.
  intros tq. assert (H0 : tq_history_ok [] trapq_alloc [] 0 []) by (split; try done; by intros ? ?%not_elem_of_nil).
  destruct (link_history ops _ _ _ _ _ H0) as (n & old & [H1 H2 H3 H4 H5]). rewrite app_nil_r in H5.
  pose proof (link_moving ops trapq_alloc []) as HM. rewrite link_run in *. fold tq in H2, H3.
  set (L := (foldl link (trapq_alloc, []) ops).2) in *.
  assert (Hin : forall m, m ∈ old ++ tq_history tq <-> m ∈ take n L /\ moving m = true).
  { intros m. rewrite elem_of_app, (comm or), <- elem_of_app, <- H3, elem_of_rev, list_elem_of_filter, (comm and).
    split; intros [? Hm]; (split; [done |]); by destruct (moving m). }
  exists old. split_and!.
  - cbn [app filter] in HM. rewrite app_nil_l in HM. rewrite <- HM, <- (take_drop n L), filter_app, <- H2, app_assoc.
    f_equal. rewrite <- rev_app_distr, <- H3, rev_involutive. done.
  - intros m [Hm _]%Hin. destruct (H5 m Hm) as (t & Ht & Hd). exists t. split; [| done].
    apply elem_of_rev, list_elem_of_omap in Ht as ([| t'] & Ho & [= ->]). done.
  - intros m Hm. destruct (H4 m Hm) as (l & Hl & Hmv & Hd). exists l. split; [by apply Hin | done].
Qed.

(** ** The sentinel at the end

    Whatever is done to the queue, the last entry does not move and lasts for
    ever, so that walks over the list stop at it. *)
Definition tail_wf (tq : trapq) : Prop := move_t (tq_tail tq) = NEVER_TIME /\ axes_r (tq_tail tq) = coord0.

Lemma alloc_tail : tail_wf trapq_alloc.
Proof. done. Qed.

Lemma add_move_tail tq m : tail_wf tq -> tail_wf (trapq_add_move tq m).
Proof. intros H. unfold trapq_add_move. by destruct (dlt _ _). Qed.

Lemma append_tail tq pt at_ ct dt start axes sv cv acc : tail_wf tq -> tail_wf (trapq_append tq pt at_ ct dt start axes sv cv acc).
Proof.
  rewrite trapq_append_phases. generalize (phases pt at_ ct dt start axes sv cv acc). intros ms. revert tq.
  induction ms as [| m ms IH]; intros tq H; [exact H |]. exact (IH _ (add_move_tail _ _ H)).
Qed.

Lemma finalize_tail tq t : tail_wf tq -> tail_wf (trapq_finalize_moves tq t).
Proof. intros H. unfold trapq_finalize_moves. destruct (expire_moves _ _ _) as [[| ? ?] [| ? ?]]; exact H. Qed.

Lemma set_position_tail tq t pos : tail_wf tq -> tail_wf (trapq_set_position tq t pos).
Proof. intros H. exact (finalize_tail tq NEVER_TIME H). Qed.

Lemma check_sentinels_tail tq : tail_wf tq -> tail_wf (trapq_check_sentinels tq).
Proof. intros H. unfold trapq_check_sentinels. destruct (d_truth _); [exact H |]. destruct (tq_moves tq); exact H. Qed.
