(* ===== verification/Itersolve.v ===== *)
(** * Itersolve: from moves to step times

    Models [src/klippy/chelper/itersolve.c], which searches the times at which a
    stepper crosses its step positions, and the position callbacks of
    [kin_cartesian.c], [kin_corexy.c] and [kin_extruder.c].  The solver works on
    the moves of a [trapq] and hands the steps to a [stepcompress]; every step
    it submits is also recorded in the state, for the theorems to speak of. *)

From Stdlib Require Import Ascii.
From S2P Require Import Prelude Double Rounding Stepcompress Trapq.

Definition AF_X : Z := 1.
Definition AF_Y : Z := 2.
Definition AF_Z : Z := 4.

(** A position callback: the stepper's commanded position, the list the move is
    linked in with the index of the move, and the time in the move. *)
Definition sk_calc_callback : Type := double -> list move -> nat -> double -> res double.

(** [struct stepper_kinematics].  [has_tq]: a trapq is set.  [post_cb] works on
    the commanded position. *)
Record stepper_kinematics := mk_sk {
  step_dist : double; commanded_pos : double;
  last_flush_time : double; last_move_time : double;
  has_tq : bool;
  active_flags : Z;
  gen_steps_pre_active : double; gen_steps_post_active : double;
  calc_position_cb : sk_calc_callback;
  post_cb : option (double -> double)
}.
#[export] Instance eta_sk : Eta stepper_kinematics :=
  fun r => mk_sk (step_dist r) (commanded_pos r) (last_flush_time r) (last_move_time r) (has_tq r) (active_flags r)
    (gen_steps_pre_active r) (gen_steps_post_active r) (calc_position_cb r) (post_cb r).

(** A step handed to the compressor: the move, the window of the move that was
    searched, the commanded position, direction, time in the move and the step
    position aimed at. *)
Record step := mk_step {
  st_index : nat; st_move : move; st_window : double * double; st_commanded : double;
  st_dir : Z; st_time : double; st_target : double
}.

(** The stepper with its compressor and the queue of moves it follows; the
    ranges of moves searched and the steps submitted so far. *)
Record solver := mk_solver {
  sv_sk : stepper_kinematics; sv_sc : stepcompress; sv_tq : trapq;
  sv_ranges : list (move * double * double); sv_steps : list step
}.
#[export] Instance eta_solver : Eta solver := fun r => mk_solver (sv_sk r) (sv_sc r) (sv_tq r) (sv_ranges r) (sv_steps r).

Abbreviation SV := (M solver).

Definition sk_get {A} (f : stepper_kinematics -> A) : SV A := gets (fun s => f (sv_sk s)).
Definition sk_set (f : stepper_kinematics -> stepper_kinematics) : SV unit := modify (fun s => s <| sv_sk ::= f |>).

Definition on_sc {A} (m : M stepcompress A) : SV A :=
  fun s => let '(r, sc) := m (sv_sc s) in (r, s <| sv_sc := sc |>).

(** The move behind a pointer; walking off the list reads its root. *)
Definition node_at (i : nat) : SV move := tq ← gets sv_tq; deref "list entry" (nodes tq !! i).

Definition calc_position (i : nat) (t : double) : SV double :=
  s ← gets id;
  lift_res (calc_position_cb (sv_sk s) (commanded_pos (sv_sk s)) (nodes (sv_tq s)) i t).

Definition SEEK_TIME_RESET : double := d_lit 1 10000.
Definition time_eps : double := d_lit 1 1000000000.
Definition turn_eps : double := d_lit 1 100000000.

(** The local variables of [itersolve_gen_steps_range]. *)
Record search := mk_search {
  old_time : double; old_pos : double;
  guess_time : double; guess_pos : double;
  sr_dir : Z;
  is_dir_change : bool; have_bracket : bool; check_oscillate : bool;
  target : double;
  last_time : double; low_time : double; high_time : double
}.
#[export] Instance eta_search : Eta search :=
  fun r => mk_search (old_time r) (old_pos r) (guess_time r) (guess_pos r) (sr_dir r) (is_dir_change r) (have_bracket r)
    (check_oscillate r) (target r) (last_time r) (low_time r) (high_time r).

(** The guess of the secant method. *)
Definition secant (sr : search) : double :=
  let guess_dist := dsub (guess_pos sr) (target sr) in
  let og_dist := dsub (old_pos sr) (target sr) in
  ddiv (dsub (dmul (old_time sr) guess_dist) (dmul (guess_time sr) og_dist)) (dsub guess_dist og_dist).

(** [x] limited to [end]. *)
Definition dclip (x end_ : double) : double := if dlt end_ x then end_ else x.

(** The time to look at next; [None] when the window holds no more steps. *)
Definition next_guess (end_ : double) (sr : search) : option (double * search) :=
  let next_time := secant sr in
  if dlt (low_time sr) next_time && dlt next_time (high_time sr) then Some (next_time, sr)
  else if have_bracket sr then Some (dmul (dadd (low_time sr) (high_time sr)) d_half, sr <| check_oscillate := false |>)
  else if dle end_ (guess_time sr) then None
  else
    let next_time := high_time sr in
    Some (next_time, sr <| high_time := dclip (dsub (dmul d_two (high_time sr)) (last_time sr)) end_ |>).

Definition step_on (half_step : double) (dir : Z) (t : double) : double :=
  if truth dir then dadd (dadd t half_step) half_step else dsub (dsub t half_step) half_step.

(** The bounds after a guess that is not close enough; [rel_dist] is the
    distance past the target. *)
Definition update_bounds (half_step rel_dist : double) (sr : search) : search :=
  if dlt d_zero rel_dist
  then
    let sr :=
      if have_bracket sr && dle (old_time sr) (low_time sr)
      then (if check_oscillate sr then sr <| old_time := guess_time sr |> <| old_pos := guess_pos sr |> else sr)
             <| check_oscillate := true |>
      else sr in
    sr <| high_time := guess_time sr |> <| have_bracket := true |>
  else if dlt rel_dist (dopp (dadd (dadd half_step half_step) turn_eps))
  then
    let dir := b2z (negb (truth (sr_dir sr))) in
    sr <| sr_dir := dir |> <| target := step_on half_step dir (target sr) |> <| low_time := last_time sr |>
       <| high_time := guess_time sr |> <| is_dir_change := true |> <| have_bracket := true |> <| check_oscillate := false |>
  else sr <| low_time := guess_time sr |>.

(** The bounds for the search of the next step after one was submitted. *)
Definition next_step (end_ half_step : double) (sr : search) : search :=
  let seek := dmul (d_lit 3 2) (dsub (guess_time sr) (last_time sr)) in
  let seek := if dlt seek time_eps then time_eps else seek in
  let seek := if is_dir_change sr && dlt SEEK_TIME_RESET seek then SEEK_TIME_RESET else seek in
  sr <| target := step_on half_step (sr_dir sr) (target sr) |> <| last_time := guess_time sr |> <| low_time := guess_time sr |>
     <| high_time := dclip (dadd (guess_time sr) seek) end_ |>
     <| is_dir_change := false |> <| have_bracket := false |> <| check_oscillate := false |>.

(** [stepcompress_append(sk->sc, sdir, m->print_time, guess.time)]. *)
Definition submit (i : nat) (m : move) (w : double * double) (sr : search) : SV Z :=
  modify (fun s => s <| sv_steps ::= fun l => l ++ [mk_step i m w (commanded_pos (sv_sk s)) (sr_dir sr) (guess_time sr) (target sr)] |>) ;;
  on_sc (stepcompress_append (sr_dir sr) (print_time m) (guess_time sr)).

(** A new guess: the search with the guess evaluated and the bounds updated,
    the distance past the target, and whether the guess was close enough. *)
Definition evaluate (half_step : double) (next_time pos : double) (sr : search) : search * double * bool :=
  let sr := sr <| old_time := guess_time sr |> <| old_pos := guess_pos sr |> <| guess_time := next_time |> <| guess_pos := pos |> in
  let guess_dist := dsub pos (target sr) in
  let rel_dist := if truth (sr_dir sr) then guess_dist else dopp guess_dist in
  if dlt time_eps (dabs guess_dist) then (update_bounds half_step rel_dist sr, rel_dist, false) else (sr, rel_dist, true).

(** The bracket is too wide to stop at. *)
Definition wide (sr : search) : bool := negb (have_bracket sr) || dlt time_eps (dsub (high_time sr) (low_time sr)).

(** The loop of [itersolve_gen_steps_range]. *)
Fixpoint gen_loop (fuel : nat) (i : nat) (m : move) (w : double * double) (end_ half_step : double) (sr : search) : SV (Z * search) :=
  match fuel with
  | O => lift_res OutOfFuel
  | S fuel =>
      match next_guess end_ sr with
      | None => mret (0, sr)
      | Some (next_time, sr) =>
          pos ← calc_position i next_time;
          let '(sr, rel_dist, close) := evaluate half_step next_time pos sr in
          if negb close && wide sr
          then
            when (negb (is_dir_change sr) && dle (dopp half_step) rel_dist) (_ ← on_sc stepcompress_commit; mret tt) ;;
            gen_loop fuel i m w end_ half_step sr
          else
            ret ← submit i m w sr;
            if truth ret then mret (ret, sr)
            else gen_loop fuel i m w end_ half_step (next_step end_ half_step sr)
      end
  end.

(** [start] and [end] of the window in the time of the move. *)
Definition window (m : move) (abs_start abs_end : double) : double * double :=
  let start := dsub abs_start (print_time m) in
  let end_ := dsub abs_end (print_time m) in
  (if dlt start d_zero then d_zero else start, dclip end_ (move_t m)).

Definition first_search (start end_ half_step commanded : double) (dir : Z) : search :=
  mk_search start commanded start commanded dir false false false
    (dadd commanded (if truth dir then half_step else dopp half_step)) start start (dclip (dadd start SEEK_TIME_RESET) end_).

Definition itersolve_gen_steps_range (fuel : nat) (i : nat) (m : move) (abs_start abs_end : double) : SV Z :=
  modify (fun s => s <| sv_ranges ::= fun l => l ++ [(m, abs_start, abs_end)] |>) ;;
  sk ← sk_get id;
  let half_step := dmul d_half (step_dist sk) in
  let '(start, end_) := window m abs_start abs_end in
  dir ← gets (fun s => stepcompress_get_step_dir (sv_sc s));
  '(ret, sr) ← gen_loop fuel i m (start, end_) end_ half_step (first_search start end_ half_step (commanded_pos sk) dir);
  if truth ret then mret ret
  else
    sk_set (fun sk => sk <| commanded_pos := dsub (target sr) (if truth (sr_dir sr) then half_step else dopp half_step) |>) ;;
    sk_set (fun sk => match post_cb sk with Some f => sk <| commanded_pos ::= f |> | None => sk end) ;;
    mret 0.

Definition check_active (sk : stepper_kinematics) (m : move) : bool :=
  let af := active_flags sk in
  (has af AF_X && dne (cx (axes_r m)) d_zero) || (has af AF_Y && dne (cy (axes_r m)) d_zero)
  || (has af AF_Z && dne (cz (axes_r m)) d_zero).

(** [while (t >= m->print_time + m->move_t) m = next;] *)
Fixpoint seek_move (fuel : nat) (t : double) (i : nat) : SV nat :=
  match fuel with
  | O => lift_res OutOfFuel
  | S fuel => m ← node_at i; if dle (move_end m) t then seek_move fuel t (S i) else mret i
  end.

(** [while (--skip_count && pm->print_time > abs_start) pm = prev;] *)
Fixpoint skip_back (skip_count : nat) (abs_start : double) (pm : nat) : SV nat :=
  match skip_count with
  | S ((S _) as skip) =>
      p ← node_at pm;
      if dlt abs_start (print_time p)
      then match pm with O => fault "list entry" | S pm => skip_back skip abs_start pm end
      else mret pm
  | _ => mret pm
  end.

(** The callers of the search, over the search [gen]. *)
Section Generate.
Context (gen : nat -> move -> double -> double -> SV Z).

(** The [do] loop over the moves from [pm] up to [m]. *)
Fixpoint gen_between (n : nat) (pm : nat) (abs_start flush_time : double) : SV Z :=
  match n with
  | O => mret 0
  | S n =>
      p ← node_at pm;
      ret ← gen pm p abs_start flush_time;
      if truth ret then mret ret else gen_between n (S pm) abs_start flush_time
  end.

(** The steps that lead up to the activity of move [i]: those of the moves
    skipped before it that lie in the time [gen_steps_pre_active]. *)
Definition gen_leading (i : nat) (m : move) (skip_count : nat) (last_flush flush_time force : double) : SV Z :=
  pre ← sk_get gen_steps_pre_active;
  if negb (skip_count =? 0)%nat && d_truth pre
  then
    let abs_start := dsub (print_time m) pre in
    let abs_start := if dlt abs_start last_flush then last_flush else abs_start in
    let abs_start := if dlt abs_start force then force else abs_start in
    match i with
    | O => fault "list entry"
    | S pm => pm ← skip_back skip_count abs_start pm; gen_between (i - pm) pm abs_start flush_time
    end
  else mret 0.

(** The loop of [itersolve_generate_steps] over the moves. *)
Fixpoint gen_moves (n : nat) (i : nat) (skip_count : nat) (last_flush flush_time force : double) : SV Z :=
  match n with
  | O => lift_res OutOfFuel
  | S n =>
      m ← node_at i;
      sk ← sk_get id;
      if check_active sk m
      then
        ret ← gen_leading i m skip_count last_flush flush_time force;
        if truth ret then mret ret
        else
          ret ← gen i m last_flush flush_time;
          if truth ret then mret ret
          else if dle flush_time (move_end m) then sk_set (fun sk => sk <| last_move_time := flush_time |>) ;; mret 0
          else
            sk_set (fun sk => sk <| last_move_time := move_end m |>) ;;
            gen_moves n (S i) 0 last_flush flush_time (dadd (move_end m) (gen_steps_post_active sk))
      else
        '(ret, skip_count) ←
          (if dlt (print_time m) force
           then ret ← gen i m last_flush (dclip force flush_time); mret (ret, 1%nat)
           else mret (0, S skip_count));
        if truth ret then mret ret
        else if dle (dadd flush_time (gen_steps_pre_active sk)) (move_end m) then mret 0
        else gen_moves n (S i) skip_count last_flush flush_time force
  end.

(** One more than the number of entries of the list. *)
Definition list_fuel : SV nat := gets (fun s => S (length (nodes (sv_tq s)))).

Definition generate_steps (flush_time : double) : SV Z :=
  last_flush ← sk_get last_flush_time;
  sk_set (fun sk => sk <| last_flush_time := flush_time |>) ;;
  has ← sk_get has_tq;
  if negb has then mret 0
  else
    modify (fun s => s <| sv_tq ::= trapq_check_sentinels |>) ;;
    n ← list_fuel;
    i ← seek_move n last_flush 0;
    sk ← sk_get id;
    gen_moves n i 0 last_flush flush_time (dadd (last_move_time sk) (gen_steps_post_active sk)).
End Generate.

Definition itersolve_generate_steps (fuel : nat) (flush_time : double) : SV Z :=
  generate_steps (itersolve_gen_steps_range fuel) flush_time.

(** The loop of [itersolve_check_active]. *)
Fixpoint find_active (n : nat) (flush_time : double) (i : nat) : SV double :=
  match n with
  | O => lift_res OutOfFuel
  | S n =>
      m ← node_at i;
      sk ← sk_get id;
      if check_active sk m then mret (print_time m)
      else if dle flush_time (move_end m) then mret d_zero
      else find_active n flush_time (S i)
  end.

Definition itersolve_check_active (flush_time : double) : SV double :=
  has ← sk_get has_tq;
  if negb has then mret d_zero
  else
    modify (fun s => s <| sv_tq ::= trapq_check_sentinels |>) ;;
    n ← list_fuel;
    last_flush ← sk_get last_flush_time;
    i ← seek_move n last_flush 0;
    find_active n flush_time i.

(** [axis] is the character code. *)
Definition itersolve_is_active_axis (sk : stepper_kinematics) (axis : Z) : bool :=
  if (axis <? 120) || (axis >? 122) then false else has (active_flags sk) (Z.shiftl AF_X (axis - 120)).

Definition itersolve_set_trapq (tq : option trapq) : SV unit :=
  match tq with
  | Some tq => modify (fun s => s <| sv_tq := tq |>) ;; sk_set (fun sk => sk <| has_tq := true |>)
  | None => sk_set (fun sk => sk <| has_tq := false |>)
  end.

Definition itersolve_set_stepcompress (sc : stepcompress) (dist : double) : SV unit :=
  modify (fun s => s <| sv_sc := sc |>) ;; sk_set (fun sk => sk <| step_dist := dist |>).

(** The move on the stack, linked to nothing. *)
Definition itersolve_calc_position_from_coord (sk : stepper_kinematics) (c : coord) : res double :=
  let m := tmove_alloc <| start_pos := c |> <| move_t := d_of_Z 1000 |> in
  calc_position_cb sk (commanded_pos sk) [m] 0%nat (d_of_Z 500).

Definition itersolve_set_position (c : coord) : SV unit :=
  sk ← sk_get id;
  pos ← lift_res (itersolve_calc_position_from_coord sk c);
  sk_set (fun sk => sk <| commanded_pos := pos |>).

Definition itersolve_get_commanded_pos (sk : stepper_kinematics) : double := commanded_pos sk.

(** ** Kinematics *)

Definition move_at (ms : list move) (i : nat) : res move := match ms !! i with Some m => Ok m | None => Fault "list entry" end.

(** A callback that only looks at the move itself. *)
Definition of_coord (f : coord -> double) : sk_calc_callback :=
  fun _ ms i t => m ← move_at ms i; Ok (f (move_get_coord m t)).

Definition cart_stepper_x_calc_position : sk_calc_callback := of_coord cx.
Definition cart_stepper_y_calc_position : sk_calc_callback := of_coord cy.
Definition cart_stepper_z_calc_position : sk_calc_callback := of_coord cz.
Definition cart_reverse_stepper_x_calc_position : sk_calc_callback := of_coord (fun c => dopp (cx c)).
Definition cart_reverse_stepper_y_calc_position : sk_calc_callback := of_coord (fun c => dopp (cy c)).
Definition cart_reverse_stepper_z_calc_position : sk_calc_callback := of_coord (fun c => dopp (cz c)).
Definition corexy_stepper_plus_calc_position : sk_calc_callback := of_coord (fun c => dadd (cx c) (cy c)).
Definition corexy_stepper_minus_calc_position : sk_calc_callback := of_coord (fun c => dsub (cx c) (cy c)).

(** The zeroed struct. *)
Definition sk_zero : stepper_kinematics :=
  mk_sk d_zero d_zero d_zero d_zero false 0 d_zero d_zero (fun _ _ _ _ => Fault "calc_position_cb") None.

Definition sk_with (cb : sk_calc_callback) (flags : Z) : stepper_kinematics :=
  sk_zero <| calc_position_cb := cb |> <| active_flags := flags |>.

Definition cartesian_stepper_alloc (axis : Ascii.ascii) : stepper_kinematics :=
  if bool_decide (axis = "x"%char) then sk_with cart_stepper_x_calc_position AF_X
  else if bool_decide (axis = "y"%char) then sk_with cart_stepper_y_calc_position AF_Y
  else if bool_decide (axis = "z"%char) then sk_with cart_stepper_z_calc_position AF_Z
  else sk_zero.

Definition cartesian_reverse_stepper_alloc (axis : Ascii.ascii) : stepper_kinematics :=
  if bool_decide (axis = "x"%char) then sk_with cart_reverse_stepper_x_calc_position AF_X
  else if bool_decide (axis = "y"%char) then sk_with cart_reverse_stepper_y_calc_position AF_Y
  else if bool_decide (axis = "z"%char) then sk_with cart_reverse_stepper_z_calc_position AF_Z
  else sk_zero.

Definition corexy_stepper_alloc (type : Ascii.ascii) : stepper_kinematics :=
  (if bool_decide (type = "+"%char) then sk_with corexy_stepper_plus_calc_position 0
   else if bool_decide (type = "-"%char) then sk_with corexy_stepper_minus_calc_position 0
   else sk_zero) <| active_flags := Z.lor AF_X AF_Y |>.

Definition d_third : double := ddiv d_one (d_of_Z 3).

Definition extruder_integrate (base start_v half_accel start end_ : double) : double :=
  let half_v := dmul d_half start_v in
  let sixth_a := dmul d_third half_accel in
  let si := dmul start (dadd base (dmul start (dadd half_v (dmul start sixth_a)))) in
  let ei := dmul end_ (dadd base (dmul end_ (dadd half_v (dmul end_ sixth_a)))) in
  dsub ei si.

Definition extruder_integrate_time (base start_v half_accel start end_ : double) : double :=
  let half_b := dmul d_half base in
  let third_v := dmul d_third start_v in
  let eighth_a := dmul (d_lit 1 4) half_accel in
  let si := dmul (dmul start start) (dadd half_b (dmul start (dadd third_v (dmul start eighth_a)))) in
  let ei := dmul (dmul end_ end_) (dadd half_b (dmul end_ (dadd third_v (dmul end_ eighth_a)))) in
  dsub ei si.

Definition pa_move_integrate (m : move) (pressure_advance base start end_ time_offset : double) : double :=
  let start := if dlt start d_zero then d_zero else start in
  let end_ := dclip end_ (move_t m) in
  let pressure_advance := if dne (cy (axes_r m)) d_zero then pressure_advance else d_zero in
  let base := dadd base (dmul pressure_advance (start_v m)) in
  let sv := dadd (start_v m) (dmul (dmul pressure_advance d_two) (half_accel m)) in
  let ha := half_accel m in
  let iext := extruder_integrate base sv ha start end_ in
  let wgt_ext := extruder_integrate_time base sv ha start end_ in
  dsub wgt_ext (dmul time_offset iext).

(** The integral over the moves before entry [i]. *)
Fixpoint pa_before (ms : list move) (i : nat) (pa start_base start acc : double) : res double :=
  if dlt start d_zero
  then
    match i with
    | O => Fault "list entry"
    | S i =>
        prev ← move_at ms i;
        let start := dadd start (move_t prev) in
        let base := dsub (cx (start_pos prev)) start_base in
        pa_before ms i pa start_base start (dadd acc (pa_move_integrate prev pa base start (move_t prev) start))
    end
  else Ok acc.

(** The integral over the moves behind [m], the entry [i]. *)
Fixpoint pa_after (n : nat) (ms : list move) (i : nat) (m : move) (pa start_base end_ acc : double) : res double :=
  if dlt (move_t m) end_
  then
    match n with
    | O => OutOfFuel
    | S n =>
        let end_ := dsub end_ (move_t m) in
        m ← move_at ms (S i);
        let base := dsub (cx (start_pos m)) start_base in
        pa_after n ms (S i) m pa start_base end_ (dsub acc (pa_move_integrate m pa base d_zero end_ end_))
    end
  else Ok acc.

Definition pa_range_integrate (ms : list move) (i : nat) (m : move) (move_time pressure_advance hst : double) : res double :=
  let start := dsub move_time hst in
  let end_ := dadd move_time hst in
  let start_base := cx (start_pos m) in
  let acc := dadd d_zero (pa_move_integrate m pressure_advance d_zero start move_time start) in
  let acc := dsub acc (pa_move_integrate m pressure_advance d_zero move_time end_ end_) in
  acc ← pa_before ms i pressure_advance start_base start acc;
  pa_after (S (length ms)) ms i m pressure_advance start_base end_ acc.

Record extruder_stepper := mk_es {
  es_sk : stepper_kinematics; es_pressure_advance : double; es_half_smooth_time : double; es_inv_half_smooth_time2 : double
}.

Definition extruder_calc_position (pressure_advance hst inv_hst2 : double) : sk_calc_callback :=
  fun _ ms i t =>
    m ← move_at ms i;
    if negb (d_truth hst) then Ok (dadd (cx (start_pos m)) (move_get_distance m t))
    else
      area ← pa_range_integrate ms i m t pressure_advance hst;
      Ok (dadd (cx (start_pos m)) (dmul area inv_hst2)).

(** The callback reads the fields of the struct: it is renewed with them. *)
Definition extruder_set_pressure_advance (es : extruder_stepper) (pressure_advance smooth_time : double) : extruder_stepper :=
  let hst := dmul smooth_time d_half in
  let '(pa, inv) := if negb (d_truth hst) then (es_pressure_advance es, es_inv_half_smooth_time2 es)
                    else (pressure_advance, ddiv d_one (dmul hst hst)) in
  mk_es ((es_sk es) <| gen_steps_pre_active := hst |> <| gen_steps_post_active := hst |>
           <| calc_position_cb := extruder_calc_position pa hst inv |>) pa hst inv.

Definition extruder_stepper_alloc : extruder_stepper :=
  mk_es (sk_with (extruder_calc_position d_zero d_zero d_zero) AF_X) d_zero d_zero d_zero.

(** A run of a bind ends in the first part or goes on in the second. *)
Lemma bind_run {S A C} (m : M S A) (k : A -> M S C) s r s' :
  (m ≫= k) s = (r, s') -> (exists a s1, m s = (Ok a, s1) /\ k a s1 = (r, s')) \/ (exists e, m s = (e, s') /\ forall c, r <> Ok c).
Proof. unfold mbind, M_bind. destruct (m s) as [[a | | |] s1]; intros E; [left; eauto | | |]; right; injection E as <- <-; eauto. Qed.

#[local] Arguments dadd : simpl never.
#[local] Arguments dsub : simpl never.
#[local] Arguments dmul : simpl never.
#[local] Arguments ddiv : simpl never.
#[local] Arguments dlt : simpl never.
#[local] Arguments dle : simpl never.
#[local] Arguments dclip : simpl never.
#[local] Arguments dval : simpl never.
#[local] Arguments d_two : simpl never.
#[local] Arguments d_half : simpl never.
#[local] Arguments d_zero : simpl never.
#[local] Arguments time_eps : simpl never.
#[local] Arguments turn_eps : simpl never.
#[local] Arguments SEEK_TIME_RESET : simpl never.
#[local] Arguments d_lit : simpl never.
#[local] Arguments d_of_Z : simpl never.

(** ** The search within one move

    [rel dir d]: the distance [d] counted in the direction [dir].  [crossed]: the
    position [p] is past the target, or the motion was found to have turned by
    more than a step before it, so that the target is the step on the way back. *)
Definition rel (dir : Z) (d : double) : double := if truth dir then d else dopp d.

Definition crossed (half_step : double) (dir : Z) (target p : double) : Prop :=
  dlt d_zero (rel dir (dsub p target)) = true
  \/ exists target0 dir0, truth dir = negb (truth dir0) /\ target = step_on half_step dir target0
      /\ dlt (rel dir0 (dsub p target0)) (dopp (dadd (dadd half_step half_step) turn_eps)) = true.

(** [step_ok]: what a submitted step promises.  It lies in the window that was
    searched; and there the position is within 10^-9 of the target, or it is in
    an interval of at most 10^-9 seconds at the end of which the position has
    crossed the target. *)
Definition step_place (cal : double -> res double) (half_step : double) (st : step) : Prop :=
  let t := st_time st in
  exists p, cal t = Ok p /\
    (dlt time_eps (dabs (dsub p (st_target st))) = false
     \/ exists low high q, dle (st_window st).1 low = true /\ dle low t = true /\ dle t high = true /\ dle high (st_window st).2 = true
          /\ dlt time_eps (dsub high low) = false /\ cal high = Ok q /\ crossed half_step (st_dir st) (st_target st) q).

Definition step_ok (cal : double -> res double) (half_step : double) (st : step) : Prop :=
  dle (st_window st).1 (st_time st) = true /\ dle (st_time st) (st_window st).2 = true /\ step_place cal half_step st.

(** The times of steps never go back, from [t] on. *)
Fixpoint ascending (t : double) (l : list step) : Prop :=
  match l with [] => True | st :: l => dle t (st_time st) = true /\ ascending (st_time st) l end.

Section Range.
Context (cal : double -> res double) (start end_ half_step : double).
Hypothesis (Hcal : forall t p, dvalid t -> cal t = Ok p -> dvalid p) (Hhalf : dvalid half_step).
Hypothesis (Hstart : dfin start) (Hend : dfin end_) (H0 : 0 <= dval start) (He : dval end_ <= 2 ^ 1174).

(** The bounds are ordered times of the window; a bracket was seen to be one. *)
Record search_ok (sr : search) : Prop := {
  so_last : dfin (last_time sr) /\ dval start <= dval (last_time sr);
  so_low : dfin (low_time sr) /\ dval (last_time sr) <= dval (low_time sr);
  so_high : dfin (high_time sr) /\ dval (low_time sr) <= dval (high_time sr) <= dval end_;
  so_guess : dfin (guess_time sr) /\ dval (last_time sr) <= dval (guess_time sr) <= dval end_;
  so_valid : dvalid (old_time sr) /\ dvalid (old_pos sr) /\ dvalid (guess_pos sr) /\ dvalid (target sr);
  so_bracket : have_bracket sr = true -> exists p, cal (high_time sr) = Ok p /\ crossed half_step (sr_dir sr) (target sr) p
}.

Lemma secant_valid sr : search_ok sr -> dvalid (secant sr).
Proof.
  intros [_ _ _ [Fg _] (V1 & V2 & V3 & V4) _]. apply dfin_valid in Fg. unfold secant.
  repeat first [apply ddiv_valid | apply dsub_valid | apply dmul_valid | done].
Qed.

(** The next guess lies within the bounds. *)
Lemma next_guess_ok sr t sr' :
  search_ok sr -> next_guess end_ sr = Some (t, sr') ->
  search_ok sr' /\ dfin t /\ dval (low_time sr') <= dval t <= dval (high_time sr').
Proof.
  intros Hs. pose proof (secant_valid sr Hs) as HV. pose proof Hs as [[Fl Hl] [Fo Ho] [Fh Hh] [Fg Hg] HP HB]. unfold next_guess.
  destruct (dlt (low_time sr) (secant sr) && dlt (secant sr) (high_time sr)) eqn:E.
  - intros [= <- <-]. apply andb_true_iff in E as [E1 E2].
    assert (Fs : dfin (secant sr)).
    { destruct (secant sr) as [| [] | |]; try done; destruct (low_time sr) as [| [] | | []], (high_time sr) as [| [] | | []]; done. }
    rewrite dlt_val in E1, E2 by done. split_and!; [done | done | lia | lia].
  - clear E. destruct (have_bracket sr) eqn:Eb.
    + intros [= <- <-]. destruct (dmid (low_time sr) (high_time sr) Fo Fh) as [Fm Hm]; [lia | lia |].
      split_and!; [| done | cbn; lia | cbn; lia]. split; cbn; try done. intros _. by apply HB.
    + destruct (dle end_ (guess_time sr)); [done |]. intros [= <- <-].
      destruct (dseek (last_time sr) (high_time sr) Fl Fh) as [Fm Hm]; [lia | lia |]. fold d_two in Fm, Hm.
      assert (HC : dfin (dclip (dsub (dmul d_two (high_time sr)) (last_time sr)) end_)
                   /\ dval (high_time sr) <= dval (dclip (dsub (dmul d_two (high_time sr)) (last_time sr)) end_) <= dval end_).
      { unfold dclip. destruct (dlt end_ _) eqn:Ec; [split; [done | lia] |]. rewrite dlt_negb, negb_false_iff, dle_val in Ec by done.
        split; [done | lia]. }
      destruct HC as [FC HC]. split_and!; [| done | cbn; lia | cbn; lia]. split; cbn; try done; [split; [done | lia] | congruence].
Qed.
Lemma step_on_valid dir t : dvalid t -> dvalid (step_on half_step dir t).
Proof. intros. unfold step_on. destruct (truth dir); repeat first [apply dadd_valid | apply dsub_valid | done]. Qed.

(** Bounds updated with a guess within them. *)
Lemma update_bounds_ok d sr p :
  search_ok sr -> cal (guess_time sr) = Ok p -> dval (low_time sr) <= dval (guess_time sr) <= dval (high_time sr) ->
  d = rel (sr_dir sr) (dsub p (target sr)) ->
  let sr' := update_bounds half_step d sr in
  search_ok sr' /\ guess_time sr' = guess_time sr /\ guess_pos sr' = guess_pos sr
  /\ dval (low_time sr') <= dval (guess_time sr) <= dval (high_time sr').
Proof.
  intros [[Fl Hl] [Fo Ho] [Fh Hh] [Fg Hg] (V1 & V2 & V3 & V4) HB] Hp Hb Hd. unfold update_bounds.
  destruct (dlt d_zero d) eqn:E1; [| destruct (dlt d _) eqn:E2].
  - assert (HC : exists q, cal (guess_time sr) = Ok q /\ crossed half_step (sr_dir sr) (target sr) q).
    { exists p. split; [done |]. left. by rewrite <- Hd. }
    apply dfin_valid in Fg as Vg. cbn zeta.
    destruct (have_bracket sr && dle (old_time sr) (low_time sr)); [destruct (check_oscillate sr) |]; cbn;
      (split_and!; [split; cbn; try done; split_and!; done || lia | done | done | lia | lia]).
  - assert (HC : exists q, cal (guess_time sr) = Ok q
        /\ crossed half_step (b2z (negb (truth (sr_dir sr)))) (step_on half_step (b2z (negb (truth (sr_dir sr)))) (target sr)) q).
    { exists p. split; [done |]. right. exists (target sr), (sr_dir sr). split_and!; [by destruct (truth (sr_dir sr)) | done |].
      by rewrite <- Hd. }
    cbn. split_and!; [| done | done | lia | lia]. split; cbn; try done; split_and!; try done; try lia. by apply step_on_valid.
  - cbn. split_and!; [| done | done | lia | lia]. split; cbn; try done; split_and!; done || lia.
Qed.

Lemma evaluate_ok sr t p sr' d close :
  search_ok sr -> dfin t -> dval (low_time sr) <= dval t <= dval (high_time sr) -> cal t = Ok p ->
  evaluate half_step t p sr = (sr', d, close) ->
  search_ok sr' /\ guess_time sr' = t /\ dval (low_time sr') <= dval t <= dval (high_time sr')
  /\ (close = true -> dlt time_eps (dabs (dsub p (target sr'))) = false).
Proof.
  intros [[Fl Hl] [Fo Ho] [Fh Hh] [Fg Hg] (V1 & V2 & V3 & V4) HB] Ft Ht Hp. unfold evaluate.
  set (sr1 := sr <| old_time := guess_time sr |> <| old_pos := guess_pos sr |> <| guess_time := t |> <| guess_pos := p |>).
  apply dfin_valid in Fg as Vg. assert (H1 : search_ok sr1).
  { split; cbn; try done; split_and!; try done; try lia. apply (Hcal t); [by apply dfin_valid | done]. }
  cbn zeta. change (target sr1) with (target sr). change (sr_dir sr1) with (sr_dir sr).
  destruct (dlt time_eps _) eqn:E; intros [= <- <- <-].
  - destruct (update_bounds_ok (if truth (sr_dir sr) then dsub p (target sr) else dopp (dsub p (target sr))) sr1 p H1 Hp Ht eq_refl)
      as (A1 & A2 & A3 & A4). change (guess_time sr1) with t in A2, A4. split_and!; [done | done | lia | lia | done].
  - split_and!; [done | done | exact (proj1 Ht) | exact (proj2 Ht) | done].
Qed.
Lemma dclip_ok t x : dfin t -> dfin x -> dval t <= dval x -> dval t <= dval end_ ->
  dfin (dclip x end_) /\ dval t <= dval (dclip x end_) <= dval end_.
Proof.
  intros Ft Fx H1 H2. unfold dclip. destruct (dlt end_ x) eqn:E; [split; [done | lia] |].
  rewrite dlt_negb, negb_false_iff, dle_val in E by done. split; [done | lia].
Qed.

(** The distance to look ahead. *)
Lemma seek_ok sr : search_ok sr ->
  let seek := dmul (d_lit 3 2) (dsub (guess_time sr) (last_time sr)) in dfin seek /\ 0 <= dval seek <= 2 ^ 1176.
Proof.
  intros [[Fl Hl] _ _ [Fg Hg] _ _]. destruct (dsub_time (guess_time sr) (last_time sr)) as (Fd & Hd & Hp); [done | done | lia | lia |].
  specialize (Hp ltac:(lia)). destruct (dfin_twice _ Fd) as (y & Fy & Ey); [lia |].
  assert (E32 : dval (d_lit 3 2) = 3 * 2 ^ 1073) by (vm_compute; reflexivity).
  assert (F32 : dfin (d_lit 3 2)) by (vm_compute; intuition congruence).
  destruct (dmul_between (d_lit 3 2) (dsub (guess_time sr) (last_time sr)) d_zero y) as [Fm Hm];
    [done | done | rewrite E32; lia | lia | done | done | |].
  - rewrite E32, Ey. change (dval d_zero) with 0. change (2 ^ 1074) with (2 * 2 ^ 1073).
    assert (HP : 0 < 2 ^ 1073) by lia. revert HP. generalize (2 ^ 1073). intros P HP. nia.
  - change (dval d_zero) with 0 in Hm. split; [done |]. lia.
Qed.

Lemma const_ok x : x = time_eps \/ x = SEEK_TIME_RESET -> dfin x /\ 0 <= dval x <= 2 ^ 1176.
Proof.
  intros H. assert (HB : forall k, k <= 1176 -> forall n, n <= 2 ^ k -> 0 <= k -> n <= 2 ^ 1176).
  { intros k Hk n Hn H2. etrans; [exact Hn |]. apply Z.pow_le_mono_r; lia. }
  destruct H as [-> | ->]; (split; [vm_compute; intuition congruence | split; [vm_compute; congruence |]]);
    (eapply (HB 1074); [lia | vm_compute; congruence | lia]).
Qed.

Lemma next_step_ok sr : search_ok sr -> search_ok (next_step end_ half_step sr).
Proof.
  intros Hs. destruct (seek_ok sr Hs) as [F1 B1]. pose proof Hs as [[Fl Hl] _ _ [Fg Hg] (V1 & V2 & V3 & V4) _].
  destruct (const_ok time_eps) as [F2 B2]; [by left |]. destruct (const_ok SEEK_TIME_RESET) as [F3 B3]; [by right |].
  unfold next_step. cbn zeta. set (seek := dmul (d_lit 3 2) (dsub (guess_time sr) (last_time sr))) in *.
  set (seek1 := if dlt seek time_eps then time_eps else seek).
  assert (H1 : dfin seek1 /\ 0 <= dval seek1 <= 2 ^ 1176) by (unfold seek1; destruct (dlt _ _); [exact (conj F2 B2) | exact (conj F1 B1)]).
  set (seek2 := if is_dir_change sr && dlt SEEK_TIME_RESET seek1 then SEEK_TIME_RESET else seek1).
  assert (H2 : dfin seek2 /\ 0 <= dval seek2 <= 2 ^ 1176) by (unfold seek2; destruct (_ && _); [exact (conj F3 B3) | exact H1]).
  destruct H2 as [F4 B4]. destruct (dadd_time (guess_time sr) seek2) as (F5 & B5 & _); [done | done | lia | lia |].
  destruct (dclip_ok (guess_time sr) (dadd (guess_time sr) seek2)) as [F6 B6]; [done | done | lia | lia |].
  split; cbn; [split; [exact Fg | lia] | split; [exact Fg | lia] | split; [exact F6 | lia] | split; [exact Fg | lia] | | discriminate].
  split_and!; [exact V1 | exact V2 | exact V3 | by apply step_on_valid].
Qed.
(** A guess that is good enough to be submitted. *)
Lemma submit_ok sr i m cmd t p close :
  search_ok sr -> guess_time sr = t -> dfin t -> cal t = Ok p -> dval (low_time sr) <= dval t <= dval (high_time sr) ->
  (close = true -> dlt time_eps (dabs (dsub p (target sr))) = false) -> negb close && wide sr = false ->
  step_ok cal half_step (mk_step i m (start, end_) cmd (sr_dir sr) (guess_time sr) (target sr)).
Proof.
  intros [[Fl Hl] [Fo Ho] [Fh Hh] [Fg Hg] _ HB] -> Ft Hp Hb Hclose Hw.
  unfold step_ok, step_place. cbn [st_window st_time st_target st_dir fst snd].
  split_and!; [apply dle_val; [done | done | lia] | apply dle_val; [done | done | lia] |].
  exists p. split; [done |]. destruct close; [left; by apply Hclose | right]. cbn [negb andb] in Hw. unfold wide in Hw.
  apply orb_false_iff in Hw as [Hw1 Hw2]. destruct (HB ltac:(by destruct (have_bracket sr))) as (q & Hq & Hc).
  exists (low_time sr), (high_time sr), q.
  split_and!; [| | | | exact Hw2 | exact Hq | exact Hc]; (apply dle_val; [assumption | assumption | lia]).
Qed.

Lemma next_guess_last sr t sr' : next_guess end_ sr = Some (t, sr') -> last_time sr' = last_time sr.
Proof. unfold next_guess. repeat case_match; by intros [= _ <-]. Qed.

Lemma evaluate_last sr t p sr' d close : evaluate half_step t p sr = (sr', d, close) -> last_time sr' = last_time sr.
Proof. unfold evaluate, update_bounds. repeat case_match; intros [= <- _ _]; reflexivity. Qed.

Lemma calc_position_run i t s :
  (forall t, calc_position_cb (sv_sk s) (commanded_pos (sv_sk s)) (nodes (sv_tq s)) i t = cal t) ->
  calc_position i t s = (cal t, s).
Proof. intros H. unfold calc_position. msimpl. rewrite H. done. Qed.

(** What a run of the loop from [s] may have done: the steps added, none before
    the time [L]. *)
Definition loop_post (i : nat) (m : move) (L : double) (s : solver) (r : res (Z * search)) (s' : solver) : Prop :=
  sv_sk s' = sv_sk s /\ sv_tq s' = sv_tq s
  /\ (exists new, sv_steps s' = sv_steps s ++ new /\ ascending L new
        /\ Forall (fun st => st_index st = i /\ st_move st = m /\ st_window st = (start, end_)
                      /\ st_commanded st = commanded_pos (sv_sk s) /\ step_ok cal half_step st) new)
  /\ (forall ret sr', r = Ok (ret, sr') -> dvalid (target sr')).

(** The compressor does not concern the log. *)
Lemma on_sc_run {A} (m : M stepcompress A) s r s' :
  on_sc m s = (r, s') -> sv_sk s' = sv_sk s /\ sv_tq s' = sv_tq s /\ sv_steps s' = sv_steps s.
Proof. unfold on_sc. destruct (m (sv_sc s)). by intros [= _ <-]. Qed.

Lemma commit_run (b : bool) s e s1 :
  when b (_ ← on_sc stepcompress_commit; mret tt) s = (e, s1) ->
  sv_sk s1 = sv_sk s /\ sv_tq s1 = sv_tq s /\ sv_steps s1 = sv_steps s.
Proof.
  destruct b; cbn [when]; [| by intros [= _ <-]]. intros [(z & s2 & E1 & [= _ <-]) | (e' & E1 & _)]%bind_run; by apply on_sc_run in E1.
Qed.

Lemma submit_run i m w sr s e s1 :
  submit i m w sr s = (e, s1) -> sv_sk s1 = sv_sk s /\ sv_tq s1 = sv_tq s
  /\ sv_steps s1 = sv_steps s ++ [mk_step i m w (commanded_pos (sv_sk s)) (sr_dir sr) (guess_time sr) (target sr)].
Proof. unfold submit. rewrite bind_modify. intros (H1 & H2 & H3)%on_sc_run. done. Qed.

Lemma loop_post_none i m L s r s' :
  sv_sk s' = sv_sk s -> sv_tq s' = sv_tq s -> sv_steps s' = sv_steps s -> (forall ret sr', r = Ok (ret, sr') -> dvalid (target sr')) ->
  loop_post i m L s r s'.
Proof. intros H1 H2 H3 H4. split_and!; try done. exists []. by rewrite app_nil_r. Qed.

Lemma loop_post_after i m L s s1 r s' :
  sv_sk s1 = sv_sk s -> sv_tq s1 = sv_tq s -> sv_steps s1 = sv_steps s -> loop_post i m L s1 r s' -> loop_post i m L s r s'.
Proof. unfold loop_post. intros -> -> ->. done. Qed.

(** A step submitted, and what follows. *)
Lemma loop_post_step i m L s s1 r s' st :
  sv_sk s1 = sv_sk s -> sv_tq s1 = sv_tq s -> sv_steps s1 = sv_steps s ++ [st] ->
  st_index st = i -> st_move st = m -> st_window st = (start, end_) -> st_commanded st = commanded_pos (sv_sk s) ->
  step_ok cal half_step st -> dle L (st_time st) = true -> loop_post i m (st_time st) s1 r s' -> loop_post i m L s r s'.
Proof.
  intros E1 E2 E3 I1 I2 I3 I4 Hok HL (H1 & H2 & (new & N1 & N2 & N3) & H4). rewrite E1 in *. rewrite E2 in *.
  split_and!; [done | done | | done]. exists (st :: new). rewrite N1, E3, <- app_assoc. split_and!; [done | by split |].
  constructor; [done |]. done.
Qed.

Lemma gen_loop_ok fuel i m sr s r s' :
  (forall t, calc_position_cb (sv_sk s) (commanded_pos (sv_sk s)) (nodes (sv_tq s)) i t = cal t) -> search_ok sr ->
  gen_loop fuel i m (start, end_) end_ half_step sr s = (r, s') -> loop_post i m (last_time sr) s r s'.
Proof.
  revert sr s r s'. induction fuel as [| fuel IH]; intros sr s r s' Hcb Hs; cbn [gen_loop].
  { intros [= <- <-]. by apply loop_post_none. }
  destruct (next_guess end_ sr) as [[t sr1] |] eqn:En.
  2: { intros [= <- <-]. apply loop_post_none; [done | done | done |].
       intros ret sr' [= _ <-]. destruct Hs as [_ _ _ _ (_ & _ & _ & V4) _]. exact V4. }
  destruct (next_guess_ok _ _ _ Hs En) as (Hs1 & Ft & Ht). pose proof (next_guess_last _ _ _ En) as HL.
  intros [(p & s1 & E1 & E2) | (e & E1 & E2)]%bind_run; rewrite (calc_position_run i t s Hcb) in E1.
  2: { injection E1 as _ <-. apply loop_post_none; [done | done | done |]. intros ? ? ->. by destruct (E2 (ret, sr')). }
  injection E1 as E1 <-. destruct (evaluate half_step t p sr1) as [[sr2 d] close] eqn:Ev.
  destruct (evaluate_ok _ _ _ _ _ _ Hs1 Ft Ht E1 Ev) as (Hs2 & Eg & Hb & Hclose). pose proof (evaluate_last _ _ _ _ _ _ Ev) as HL2.
  rewrite <- HL, <- HL2. destruct (negb close && wide sr2) eqn:Ew.
  - apply bind_run in E2 as [(u & s1 & C1 & C2) | (e & C1 & C2)]; apply commit_run in C1 as (P1 & P2 & P3).
    + apply (loop_post_after _ _ _ _ s1); [done | done | done |]. apply IH; [| done | done]. by rewrite P1, P2.
    + apply loop_post_none; [done | done | done |]. intros ? ? ->. by destruct (C2 (ret, sr')).
  - pose proof (submit_ok sr2 i m (commanded_pos (sv_sk s)) t p close Hs2 Eg Ft E1 Hb Hclose Ew) as Hok.
    assert (HT : dle (last_time sr2) (guess_time sr2) = true).
    { destruct Hs2 as [[F1 _] _ _ [F2 G2] _ _]. apply dle_val; [done | done | lia]. }
    apply bind_run in E2 as [(ret & s1 & C1 & C2) | (e & C1 & C2)]; apply submit_run in C1 as (P1 & P2 & P3);
      (eapply loop_post_step; [exact P1 | exact P2 | exact P3 | reflexivity | reflexivity | reflexivity | reflexivity | exact Hok | exact HT |]);
      cbn [st_time].
    + destruct (truth ret).
      * injection C2 as <- <-. apply loop_post_none; [done | done | done |]. intros ? ? [= _ <-].
        destruct Hs2 as [_ _ _ _ (_ & _ & _ & V4) _]. exact V4.
      * apply IH in C2; [exact C2 | by rewrite P1, P2 | by apply next_step_ok].
    + apply loop_post_none; [done | done | done |]. intros ? ? ->. by destruct (C2 (ret, sr')).
Qed.
End Range.

(** ** One range of a move *)

(** The window of a range. *)
Lemma window_ok m a b start end_ :
  dfin a -> 0 <= dval a -> dfin b -> 0 <= dval b -> dtime (print_time m) -> dtime (move_t m) ->
  window m a b = (start, end_) ->
  dfin start /\ 0 <= dval start /\ dfin end_ /\ dval end_ <= 2 ^ 1174.
Proof.
  intros Fa Ha Fb Hb [Fp Hp] [Fm Hm]. unfold window. intros [= <- <-].
  destruct (dsub_time a (print_time m) Fa Fp) as (F1 & B1 & _); [lia | lia |].
  destruct (dsub_time b (print_time m) Fb Fp) as (F2 & B2 & _); [lia | lia |]. split_and!.
  - destruct (dlt _ _); done.
  - destruct (dlt (dsub a (print_time m)) d_zero) eqn:E; [done |]. rewrite dlt_negb, negb_false_iff, dle_val in E by done.
    change (dval d_zero) with 0 in E. exact E.
  - unfold dclip. destruct (dlt _ _); done.
  - unfold dclip. destruct (dlt (move_t m) _) eqn:E; [lia |]. rewrite dlt_negb, negb_false_iff, dle_val in E by done. lia.
Qed.

(** An empty window holds no steps. *)
Lemma empty_window start end_ half_step cmd dir :
  dfin start -> dfin end_ -> 0 <= dval start -> dval end_ < dval start -> dval start <= 2 ^ 1184 ->
  next_guess end_ (first_search start end_ half_step cmd dir) = None.
Proof.
  intros Fs Fe H0 Hlt Hb. destruct (const_ok SEEK_TIME_RESET) as [F1 B1]; [by right |].
  destruct (dadd_time start SEEK_TIME_RESET) as (F2 & B2 & _); [done | done | lia | lia |].
  assert (Hh : dclip (dadd start SEEK_TIME_RESET) end_ = end_).
  { unfold dclip. assert (dlt end_ (dadd start SEEK_TIME_RESET) = true) as ->; [| done]. apply dlt_val; [done | done | lia]. }
  unfold next_guess, first_search. cbn [low_time high_time have_bracket guess_time]. rewrite Hh.
  destruct (dlt start _ && dlt _ end_) eqn:E.
  - apply andb_true_iff in E as [E1 E2]. pose proof (dlt_trans _ _ _ E1 E2) as E3. rewrite dlt_val in E3 by done. lia.
  - assert (dle end_ start = true) as -> by (apply dle_val; [done | done | lia]). done.
Qed.

Lemma first_search_ok cal start end_ half_step cmd dir :
  dvalid half_step -> dvalid cmd -> dfin start -> dfin end_ -> 0 <= dval start <= dval end_ -> dval end_ <= 2 ^ 1174 ->
  search_ok cal start end_ half_step (first_search start end_ half_step cmd dir).
Proof.
  intros Vh Vc Fs Fe H0 He. destruct (const_ok SEEK_TIME_RESET) as [F1 B1]; [by right |].
  destruct (dadd_time start SEEK_TIME_RESET) as (F2 & B2 & _); [done | done | lia | lia |].
  destruct (dclip_ok end_ Fe start (dadd start SEEK_TIME_RESET)) as [F3 B3]; [done | done | lia | lia |].
  pose proof (dfin_valid _ Fs) as Vs.
  split; cbn; [split; [exact Fs | lia] | split; [exact Fs | lia] | split; [exact F3 | lia] | split; [exact Fs | lia] | | discriminate].
  split_and!; [exact Vs | exact Vc | exact Vc |]. apply dadd_valid; [exact Vc |]. destruct (truth dir); [exact Vh |]. by apply dvalid_opp.
Qed.

(** ** All ranges of a call *)

Section Walk.
Context (sk0 : stepper_kinematics) (ns : list move) (S0 : list step) (last_flush flush : double).
Let half_step := dmul d_half (step_dist sk0).

Hypothesis (Hns : Forall (fun m => dtime (print_time m) /\ dtime (move_t m)) ns).
Hypothesis (Hcal : forall cmd i t p, dvalid cmd -> dvalid t -> calc_position_cb sk0 cmd ns i t = Ok p -> dvalid p).
Hypothesis (Hpost : forall f x, post_cb sk0 = Some f -> dvalid x -> dvalid (f x)) (Hdist : dvalid (step_dist sk0)).
Hypothesis (Hlast : dtime last_flush) (Hflush : dtime flush).
Hypothesis (Hpre : dtime (gen_steps_pre_active sk0)) (Hpo : dtime (gen_steps_post_active sk0)).

(** Only the position and the time of the last move change. *)
Definition same_stepper (sk : stepper_kinematics) : Prop :=
  step_dist sk = step_dist sk0 /\ calc_position_cb sk = calc_position_cb sk0 /\ post_cb sk = post_cb sk0
  /\ gen_steps_pre_active sk = gen_steps_pre_active sk0 /\ gen_steps_post_active sk = gen_steps_post_active sk0
  /\ dvalid (commanded_pos sk).

(** The steps of one range: of one move, in a window of the time to flush. *)
Definition segment (seg : list step) : Prop :=
  exists i m a b, ns !! i = Some m /\ dle last_flush a = true /\ dle b flush = true
    /\ ascending (window m a b).1 seg
    /\ Forall (fun st => st_index st = i /\ st_move st = m /\ st_window st = window m a b
                 /\ step_ok (calc_position_cb sk0 (st_commanded st) ns i) half_step st) seg.

Definition walk_inv (s : solver) : Prop :=
  same_stepper (sv_sk s) /\ nodes (sv_tq s) = ns /\ exists segs, sv_steps s = S0 ++ concat segs /\ Forall segment segs.

Lemma walk_inv_add s s' new :
  walk_inv s -> same_stepper (sv_sk s') -> sv_tq s' = sv_tq s -> sv_steps s' = sv_steps s ++ new -> segment new -> walk_inv s'.
Proof.
  intros (_ & H2 & segs & H3 & H4) E1 E2 E3 Hn. split_and!; [done | by rewrite E2 |]. exists (segs ++ [new]).
  rewrite E3, H3, concat_app, <- app_assoc. cbn [concat]. rewrite app_nil_r. split; [done |].
  apply Forall_app. split; [done | by apply Forall_singleton].
Qed.

Lemma sk_set_inv f : (forall sk, same_stepper sk -> same_stepper (f sk)) -> preserves walk_inv (sk_set f) (fun _ => True).
Proof. intros H. apply preserves_modify; [done |]. intros s (H1 & H2 & H3). split_and!; [by apply H | done | done]. Qed.

(** The search through one range, however it ends. *)
Lemma range_loop_inv fuel i m a b dir s r s' start end_ :
  walk_inv s -> ns !! i = Some m -> dfin a -> 0 <= dval a <= 2 ^ 1180 -> dfin b -> 0 <= dval b ->
  dle last_flush a = true -> dle b flush = true -> window m a b = (start, end_) ->
  gen_loop fuel i m (start, end_) end_ half_step (first_search start end_ half_step (commanded_pos (sv_sk s)) dir) s = (r, s') ->
  walk_inv s' /\ forall ret sr', r = Ok (ret, sr') -> dvalid (target sr').
Proof.
  intros Hi Hm Fa Ha Fb Hb Hla Hbf Hw E. pose proof Hi as ((S1 & S2 & S3 & S4 & S5 & S6) & N & HS).
  destruct (proj1 (Forall_lookup _ _) Hns _ _ Hm) as [Tp Tm].
  destruct (window_ok m a b start end_) as (Fs & H0 & Fe & He); [exact Fa | exact (proj1 Ha) | exact Fb | exact Hb | exact Tp | exact Tm | exact Hw |].
  assert (Vh : dvalid half_step) by (apply dmul_valid; [vm_compute; intuition congruence | done]).
  destruct (decide (dval start <= dval end_)) as [Hle | Hgt].
  - set (cal := calc_position_cb sk0 (commanded_pos (sv_sk s)) ns i).
    assert (Hc : forall t p, dvalid t -> cal t = Ok p -> dvalid p) by (intros t p; apply Hcal; exact S6).
    pose proof (first_search_ok cal start end_ half_step (commanded_pos (sv_sk s)) dir Vh S6 Fs Fe ltac:(lia) He) as Hso.
    destruct (gen_loop_ok cal start end_ half_step Hc Vh Fs Fe H0 He fuel i m _ s r s' ltac:(by rewrite S2, N) Hso E)
      as (P1 & P2 & (new & P3 & P4 & P5) & P6).
    split; [| exact P6]. apply (walk_inv_add s s' new); [exact Hi | rewrite P1; exact (proj1 Hi) | exact P2 | exact P3 |].
    exists i, m, a, b. rewrite Hw. split_and!; [assumption | assumption | assumption | assumption |]. eapply Forall_impl; [exact P5 |].
    intros st (I1 & I2 & I3 & I4 & I5). rewrite I4. split_and!; assumption.
  - assert (Hn : next_guess end_ (first_search start end_ half_step (commanded_pos (sv_sk s)) dir) = None).
    { apply empty_window; [done | done | done | lia |]. destruct (dsub_time a (print_time m)) as (F1 & B1 & _); [done | apply Tp | lia | apply Tp |].
      unfold window in Hw. injection Hw as <- _. destruct (dlt _ _); [change (dval d_zero) with 0; lia | lia]. }
    assert (HV : dvalid (target (first_search start end_ half_step (commanded_pos (sv_sk s)) dir))).
    { cbn [target first_search]. apply dadd_valid; [done |]. destruct (truth dir); [done | by apply dvalid_opp]. }
    destruct fuel as [| fuel]; cbn [gen_loop] in E; [injection E as <- <-; split; [exact Hi | discriminate] |]. rewrite Hn in E. injection E as <- <-.
    split; [exact Hi |]. intros ret sr' [= _ <-]. exact HV.
Qed.
Lemma same_stepper_pos sk c : same_stepper sk -> dvalid c -> same_stepper (sk <| commanded_pos := c |>).
Proof. intros (H1 & H2 & H3 & H4 & H5 & _) Hc. split_and!; assumption. Qed.

Lemma same_stepper_post sk c : same_stepper sk -> dvalid c ->
  let sk1 := sk <| commanded_pos := c |> in
  same_stepper (match post_cb sk1 with Some f => sk1 <| commanded_pos ::= f |> | None => sk1 end).
Proof.
  intros H Hc. cbn zeta. change (post_cb (sk <| commanded_pos := c |>)) with (post_cb sk).
  pose proof H as (_ & _ & H3 & _). destruct (post_cb sk) as [f |] eqn:Ep; [| by apply same_stepper_pos].
  apply (same_stepper_pos _ (f c)); [by apply same_stepper_pos |]. apply Hpost; [by rewrite <- H3 | exact Hc].
Qed.

Lemma same_stepper_last sk t : same_stepper sk -> same_stepper (sk <| last_move_time := t |>).
Proof. intros (H1 & H2 & H3 & H4 & H5 & H6). split_and!; assumption. Qed.

(** A time up to which steps may be wanted. *)
Definition wtime (x : double) : Prop := dfin x /\ 0 <= dval x <= 2 ^ 1180.

Lemma dtime_wtime x : dtime x -> wtime x.
Proof. intros [F H]. split; [exact F | lia]. Qed.

Lemma range_inv fuel i m a b :
  ns !! i = Some m -> wtime a -> wtime b -> dle last_flush a = true -> dle b flush = true ->
  preserves walk_inv (itersolve_gen_steps_range fuel i m a b) (fun _ => True).
Proof.
  intros Hm [Fa Ha] [Fb Hb] Hla Hbf s Hi. split; [| done].
  destruct (itersolve_gen_steps_range fuel i m a b s) as [r s'] eqn:E. cbn [snd].
  unfold itersolve_gen_steps_range, sk_get in E. rewrite bind_modify in E.
  set (s0 := s <| sv_ranges ::= _ |>) in E. change (walk_inv s0) in Hi. clearbody s0. clear s. rename s0 into s.
  pose proof Hi as ((S1 & _) & _). rewrite bind_gets in E. cbn [id] in E.
  rewrite S1 in E. fold half_step in E. destruct (window m a b) as [start end_] eqn:Ew. rewrite bind_gets in E.
  apply bind_run in E as [([ret sr] & s1 & E1 & E2) | (e & E1 & _)];
    destruct (range_loop_inv _ _ _ _ _ _ _ _ _ _ _ Hi Hm Fa Ha Fb (proj1 Hb) Hla Hbf Ew E1) as [Hi1 HV]; [| exact Hi1].
  destruct (truth ret); [injection E2 as _ <-; exact Hi1 |]. specialize (HV _ _ eq_refl).
  unfold sk_set in E2. rewrite !bind_modify in E2. injection E2 as _ <-. destruct Hi1 as (I1 & I2 & I3).
  split; [| split; [exact I2 | exact I3]]. cbn [sv_sk].
  assert (Vc : dvalid (dsub (target sr) (if truth (sr_dir sr) then half_step else dopp half_step))).
  { assert (Vh : dvalid half_step) by (apply dmul_valid; [vm_compute; intuition congruence | exact Hdist]).
    apply dsub_valid; [exact HV |]. destruct (truth _); [exact Vh | by apply dvalid_opp]. }
  exact (same_stepper_post _ _ I1 Vc).
Qed.

Lemma node_at_inv i : preserves walk_inv (node_at i) (fun m => ns !! i = Some m).
Proof.
  intros s Hi. unfold node_at. rewrite bind_gets. destruct Hi as (I1 & I2 & I3). rewrite I2.
  split; [by destruct (ns !! i) |]. destruct (ns !! i); by intros ? [= <-].
Qed.

Lemma skip_back_inv n t pm : preserves walk_inv (skip_back n t pm) (fun _ => True).
Proof.
  revert pm. induction n as [| n IH]; intros pm; cbn [skip_back]; [by apply preserves_ret |].
  destruct n as [| n]; [by apply preserves_ret |]. eapply preserves_bind; [apply node_at_inv |]. intros p _.
  destruct (dlt _ _); [| by apply preserves_ret]. destruct pm; [apply preserves_fault | apply IH].
Qed.

Lemma gen_between_inv n fuel pm a :
  wtime a -> dle last_flush a = true -> preserves walk_inv (gen_between (itersolve_gen_steps_range fuel) n pm a flush) (fun _ => True).
Proof.
  intros Ha Hla. revert pm. induction n as [| n IH]; intros pm; cbn [gen_between]; [by apply preserves_ret |].
  eapply preserves_bind; [apply node_at_inv |]. intros p Hp.
  eapply preserves_bind; [apply range_inv; [exact Hp | exact Ha | by apply dtime_wtime | exact Hla |] |].
  - destruct Hflush as [F _]. apply dle_val; [exact F | exact F | lia].
  - intros ret _. destruct (truth ret); [by apply preserves_ret | apply IH].
Qed.
Lemma dlt_false_val x y : dfin x -> dfin y -> dlt x y = false -> dval y <= dval x.
Proof. intros Fx Fy H. rewrite dlt_negb, negb_false_iff, dle_val in H by assumption. exact H. Qed.

(** The later of two times. *)
Lemma later_ok x t : dfin x -> wtime t -> dval x <= 2 ^ 1180 ->
  let y := if dlt x t then t else x in wtime y /\ dval t <= dval y /\ dval x <= dval y.
Proof.
  intros Fx [Ft Ht] Hx. destruct (dlt x t) eqn:E.
  - apply dlt_val in E; [| assumption | assumption]. split; [split; [exact Ft | lia] | lia].
  - apply dlt_false_val in E; [| assumption | assumption]. split; [split; [exact Fx | lia] | lia].
Qed.

Lemma gen_leading_inv fuel i m skip force :
  ns !! i = Some m -> wtime force -> preserves walk_inv (gen_leading (itersolve_gen_steps_range fuel) i m skip last_flush flush force) (fun _ => True).
Proof.
  intros Hm Hf. unfold gen_leading.
  apply (preserves_bind _ (fun pre => pre = gen_steps_pre_active sk0)).
  { apply preserves_gets. intros s ((_ & _ & _ & H4 & _) & _). exact H4. }
  intros pre ->. destruct (_ && _); [| by apply preserves_ret]. cbv zeta.
  destruct (proj1 (Forall_lookup _ _) Hns _ _ Hm) as [[Fp Hp] _]. destruct Hpre as [Fr Hr].
  destruct (dsub_time (print_time m) (gen_steps_pre_active sk0) Fp Fr) as (F1 & B1 & _); [lia | lia |].
  destruct (later_ok (dsub (print_time m) (gen_steps_pre_active sk0)) last_flush F1 (dtime_wtime _ Hlast)) as (W1 & L1 & _); [lia |].
  set (x1 := if dlt (dsub (print_time m) (gen_steps_pre_active sk0)) last_flush then last_flush else _) in *.
  destruct (later_ok x1 force (proj1 W1) Hf) as (W2 & _ & L2); [exact (proj2 (proj2 W1)) |].
  set (x2 := if dlt x1 force then force else x1) in *. destruct i as [| pm]; [apply preserves_fault |].
  eapply preserves_bind; [apply skip_back_inv |]. intros pm' _. apply gen_between_inv; [exact W2 |].
  apply dle_val; [exact (proj1 Hlast) | exact (proj1 W2) | lia].
Qed.

Lemma clip_flush force : wtime force -> wtime (dclip force flush) /\ dle (dclip force flush) flush = true.
Proof.
  intros [Ff Hf]. destruct Hflush as [Fl Hl]. unfold dclip. destruct (dlt flush force) eqn:E.
  - split; [split; [exact Fl | lia] |]. apply dle_val; [exact Fl | exact Fl | lia].
  - apply dlt_false_val in E; [| assumption | assumption]. split; [split; [exact Ff | lia] |].
    apply dle_val; [exact Ff | exact Fl | lia].
Qed.

Lemma force_ok i mv : ns !! i = Some mv -> wtime (dadd (move_end mv) (gen_steps_post_active sk0)).
Proof.
  intros Hm. destruct (proj1 (Forall_lookup _ _) Hns _ _ Hm) as [[Fp Hp] [Ft Ht]]. destruct Hpo as [Fo Ho]. unfold move_end.
  destruct (dadd_bound 1174 (print_time mv) (move_t mv)) as (F1 & L1 & U1); [lia | assumption | assumption | lia | lia |].
  change (1174 + 1) with 1175 in U1.
  destruct (dadd_bound 1175 (dadd (print_time mv) (move_t mv)) (gen_steps_post_active sk0)) as (F2 & L2 & U2);
    [lia | assumption | assumption | lia | lia |].
  change (1175 + 1) with 1176 in U2. split; [exact F2 | lia].
Qed.
Lemma gen_moves_inv n fuel i skip force :
  wtime force -> preserves walk_inv (gen_moves (itersolve_gen_steps_range fuel) n i skip last_flush flush force) (fun _ => True).
Proof.
  revert i skip force. induction n as [| n IH]; intros i skip force Hf; cbn [gen_moves]; [by apply preserves_lift |].
  eapply preserves_bind; [apply node_at_inv |]. intros m Hm.
  apply (preserves_bind _ same_stepper); [apply preserves_gets; intros s Hi; exact (proj1 Hi) |]. intros sk Hsk.
  assert (HR : forall b, wtime b -> dle b flush = true -> preserves walk_inv (itersolve_gen_steps_range fuel i m last_flush b) (fun _ => True)).
  { intros b Wb Hb. apply range_inv; [exact Hm | by apply dtime_wtime | exact Wb | | exact Hb].
    destruct Hlast as [Fl _]. apply dle_val; [exact Fl | exact Fl | lia]. }
  assert (Hff : dle flush flush = true) by (destruct Hflush as [F _]; apply dle_val; [exact F | exact F | lia]).
  destruct (check_active sk m).
  - eapply preserves_bind; [by apply gen_leading_inv |]. intros ret _. destruct (truth ret); [by apply preserves_ret |].
    eapply preserves_bind; [apply HR; [by apply dtime_wtime | exact Hff] |]. intros ret' _. destruct (truth ret'); [by apply preserves_ret |].
    destruct (dle flush (move_end m)); (eapply preserves_bind; [apply sk_set_inv; intros ?; apply same_stepper_last |]; intros ? _).
    + by apply preserves_ret.
    + apply IH. destruct Hsk as (_ & _ & _ & _ & -> & _). exact (force_ok _ _ Hm).
  - apply (preserves_bind _ (fun _ => True)).
    { destruct (dlt (print_time m) force); [| by apply preserves_ret]. destruct (clip_flush force Hf) as [W1 L1].
      eapply preserves_bind; [by apply HR |]. intros ? _. by apply preserves_ret. }
    intros [ret skip'] _. destruct (truth ret); [by apply preserves_ret |].
    destruct (dle _ (move_end m)); [by apply preserves_ret | by apply IH].
Qed.

Lemma seek_move_state n t i s r s' : seek_move n t i s = (r, s') -> s' = s.
Proof.
  revert i. induction n as [| n IH]; intros i; cbn [seek_move]; [by intros [= _ <-] |].
  unfold node_at. rewrite bind_assoc, bind_gets. destruct (nodes (sv_tq s) !! i) as [m |]; [| by intros [= _ <-]].
  rewrite bind_deref. destruct (dle _ _); [apply IH | by intros [= _ <-]].
Qed.

End Walk.


(** ** The callbacks return numbers *)

Definition coord_valid (c : coord) : Prop := dvalid (cx c) /\ dvalid (cy c) /\ dvalid (cz c).

Definition move_valid (m : move) : Prop :=
  dvalid (move_t m) /\ dvalid (start_v m) /\ dvalid (half_accel m) /\ coord_valid (start_pos m) /\ coord_valid (axes_r m).

Ltac dvalid_tac :=
  repeat match goal with
    | |- dvalid (dadd _ _) => apply dadd_valid
    | |- dvalid (dsub _ _) => apply dsub_valid
    | |- dvalid (dmul _ _) => apply dmul_valid
    | |- dvalid (ddiv _ _) => apply ddiv_valid
    | |- dvalid (dopp _) => apply dvalid_opp
    | H : dvalid ?x |- dvalid ?x => exact H
    end.

Lemma move_get_coord_valid m t : move_valid m -> dvalid t -> coord_valid (move_get_coord m t).
Proof.
  intros (V1 & V2 & V3 & (V4 & V5 & V6) & (V7 & V8 & V9)) Vt. unfold move_get_coord, move_get_distance.
  split_and!; cbn [cx cy cz]; dvalid_tac.
Qed.

Lemma of_coord_valid f ns :
  (forall c, coord_valid c -> dvalid (f c)) -> Forall move_valid ns ->
  forall cmd i t p, dvalid cmd -> dvalid t -> of_coord f cmd ns i t = Ok p -> dvalid p.
Proof.
  intros Hf Hns cmd i t p _ Vt. unfold of_coord, move_at. destruct (ns !! i) as [m |] eqn:E; [| done].
  intros [= <-]. apply Hf, move_get_coord_valid; [| done]. exact (proj1 (Forall_lookup _ _) Hns _ _ E).
Qed.

Lemma pa_move_integrate_valid m pa base start end_ off :
  move_valid m -> dvalid pa -> dvalid base -> dvalid start -> dvalid end_ -> dvalid off ->
  dvalid (pa_move_integrate m pa base start end_ off).
Proof.
  intros (V1 & V2 & V3 & _) Vp Vb Vs Ve Vo. assert (V0 : dvalid d_zero) by exact I.
  assert (Vh : dvalid d_half) by (vm_compute; intuition congruence). assert (V23 : dvalid d_third) by (vm_compute; intuition congruence).
  assert (Vq : dvalid (d_lit 1 4)) by (vm_compute; intuition congruence). assert (Vw : dvalid d_two) by (vm_compute; intuition congruence).
  unfold pa_move_integrate. cbn zeta. set (s1 := if dlt start d_zero then d_zero else start).
  assert (Vs1 : dvalid s1) by (unfold s1; destruct (dlt _ _); assumption). set (p1 := if dne _ _ then pa else d_zero).
  assert (Vp1 : dvalid p1) by (unfold p1; destruct (dne _ _); assumption).
  assert (Vc : dvalid (dclip end_ (move_t m))) by (unfold dclip; destruct (dlt (move_t m) end_); assumption).
  clearbody s1 p1. revert Vc. generalize (dclip end_ (move_t m)). intros e1 Ve1.
  unfold extruder_integrate, extruder_integrate_time. cbn zeta. dvalid_tac.
Qed.

Lemma pa_before_valid ns i pa sb start acc p :
  Forall move_valid ns -> dvalid pa -> dvalid sb -> dvalid start -> dvalid acc -> pa_before ns i pa sb start acc = Ok p -> dvalid p.
Proof.
  intros Hns Vp Vb. revert start acc. induction i as [| i IH]; intros start acc Vs Va; cbn [pa_before];
    (destruct (dlt start d_zero); [| by intros [= <-]]); [done |].
  unfold move_at. destruct (ns !! i) as [m |] eqn:E; [| done]. pose proof (proj1 (Forall_lookup _ _) Hns _ _ E) as Vm.
  pose proof Vm as (V1 & _ & _ & (V4 & _) & _). apply IH; [dvalid_tac |]. apply dadd_valid; [exact Va |].
  apply pa_move_integrate_valid; [exact Vm | | | | |]; dvalid_tac.
Qed.

Lemma pa_after_valid n ns i m pa sb e acc p :
  Forall move_valid ns -> move_valid m -> dvalid pa -> dvalid sb -> dvalid e -> dvalid acc ->
  pa_after n ns i m pa sb e acc = Ok p -> dvalid p.
Proof.
  intros Hns Hm Vp Vb. revert i m e acc Hm. induction n as [| n IH]; intros i m e acc Hm Ve Va; cbn [pa_after];
    (destruct (dlt (move_t m) e); [| by intros [= <-]]); [done |].
  unfold move_at. destruct (ns !! S i) as [m' |] eqn:E; [| done]. pose proof (proj1 (Forall_lookup _ _) Hns _ _ E) as Vm.
  pose proof Hm as (V1 & _). pose proof Vm as (_ & _ & _ & (V4 & _) & _). assert (V0 : dvalid d_zero) by exact I.
  apply IH; [exact Vm | dvalid_tac |]. apply dsub_valid; [exact Va |]. apply pa_move_integrate_valid; [exact Vm | | | | |]; dvalid_tac.
Qed.

Lemma extruder_valid ns pa hst inv :
  Forall move_valid ns -> dvalid pa -> dvalid hst -> dvalid inv ->
  forall cmd i t p, dvalid cmd -> dvalid t -> extruder_calc_position pa hst inv cmd ns i t = Ok p -> dvalid p.
Proof.
  intros Hns Vp Vh Vi cmd i t p _ Vt. unfold extruder_calc_position, move_at.
  destruct (ns !! i) as [m |] eqn:E; [| done]. pose proof (proj1 (Forall_lookup _ _) Hns _ _ E) as Vm.
  pose proof Vm as (_ & V2 & V3 & (V4 & _) & _). assert (V0 : dvalid d_zero) by exact I. cbn [mbind res_bind].
  destruct (negb (d_truth hst)); [intros [= <-]; unfold move_get_distance; dvalid_tac |].
  destruct (pa_range_integrate ns i m t pa hst) as [area | | |] eqn:Ea; try done. intros [= <-].
  enough (dvalid area) by dvalid_tac. revert Ea. unfold pa_range_integrate. cbn zeta.
  destruct (pa_before _ _ _ _ _ _) as [acc | | |] eqn:Eb; try done. intros Ea.
  refine (pa_after_valid _ _ _ _ _ _ _ _ _ Hns Vm Vp V4 _ _ Ea); [dvalid_tac |].
  refine (pa_before_valid _ _ _ _ _ _ _ Hns Vp V4 _ _ Eb); [dvalid_tac |].
  apply dsub_valid; [apply dadd_valid; [exact V0 |] |]; (apply pa_move_integrate_valid; [exact Vm | | | | |]; dvalid_tac).
Qed.

(** ** No active move is passed over

    The walk of [itersolve_generate_steps] over the queue, for any search [gen]
    that succeeds: it stays in the list and searches every active move. *)
Section Cover.
Context (gen : nat -> move -> double -> double -> SV Z) (sk0 : stepper_kinematics) (tq : trapq) (last_flush flush : double).
Let ns := nodes tq.

(** What a search leaves as it is. *)
Definition stable (s : solver) : Prop :=
  active_flags (sv_sk s) = active_flags sk0 /\ gen_steps_pre_active (sv_sk s) = gen_steps_pre_active sk0
  /\ sv_tq s = tq /\ has_tq (sv_sk s) = has_tq sk0 /\ last_flush_time (sv_sk s) = flush.

Hypothesis (Hgen : forall i m a b s, stable s -> ns !! i = Some m ->
  exists s', gen i m a b s = (Ok 0, s') /\ stable s' /\ sv_ranges s' = sv_ranges s ++ [(m, a, b)]).
Hypothesis (Hns : Forall (fun m => dtime (print_time m) /\ dtime (move_t m)) ns).
Hypothesis (Hflush : dtime flush) (Hpre : dtime (gen_steps_pre_active sk0)).

(** The last entry: never active, and behind all times of interest. *)
Definition tail_ok (t : move) : Prop :=
  check_active sk0 t = false /\ dle (move_end t) last_flush = false
  /\ dle (dadd flush (gen_steps_pre_active sk0)) (move_end t) = true.

Lemma node_at_run i m s : sv_tq s = tq -> ns !! i = Some m -> node_at i s = (Ok m, s).
Proof. intros H Hm. unfold node_at. rewrite bind_gets, H. fold ns. rewrite Hm. done. Qed.

(** [s] with more ranges searched. *)
Definition further (s s' : solver) : Prop := stable s' /\ exists l, sv_ranges s' = sv_ranges s ++ l.

Lemma further_refl s : stable s -> further s s.
Proof. intros H. split; [done |]. exists []. by rewrite app_nil_r. Qed.

Lemma further_trans s1 s2 s3 : further s1 s2 -> further s2 s3 -> further s1 s3.
Proof. intros [_ (l1 & H1)] [H (l2 & H2)]. split; [done |]. exists (l1 ++ l2). by rewrite H2, H1, app_assoc. Qed.

Lemma gen_further i m a b s : stable s -> ns !! i = Some m ->
  exists s', gen i m a b s = (Ok 0, s') /\ further s s' /\ (m, a, b) ∈ sv_ranges s'.
Proof.
  intros Hs Hm. destruct (Hgen i m a b s Hs Hm) as (s' & E & Hs' & Hr). exists s'. split; [done |].
  split; [split; [done | by exists [(m, a, b)]] |]. rewrite Hr. apply elem_of_app. right. by apply list_elem_of_singleton.
Qed.

Lemma further_elem s s' x : further s s' -> x ∈ sv_ranges s -> x ∈ sv_ranges s'.
Proof. intros [_ (l & ->)] H. apply elem_of_app. by left. Qed.

Lemma skip_back_run n t pm s : stable s -> (n <= S pm)%nat -> (pm < length ns)%nat ->
  exists pm', skip_back n t pm s = (Ok pm', s) /\ (pm' <= pm)%nat.
Proof.
  intros Hs. revert pm. induction n as [| n IH]; intros pm Hn Hp; cbn [skip_back]; [by exists pm |].
  destruct n as [| n]; [by exists pm |]. destruct (lookup_lt_is_Some_2 ns pm Hp) as [p Hpm].
  rewrite (bind_ok _ _ _ _ _ (node_at_run pm p s (proj1 (proj2 (proj2 Hs))) Hpm)). destruct (dlt _ _); [| by exists pm].
  destruct pm as [| pm]; [lia |]. destruct (IH pm) as (pm' & E & Hle); [lia | lia |]. exists pm'. split; [done | lia].
Qed.

Lemma gen_between_run n pm a s : stable s -> (pm + n <= length ns)%nat ->
  exists s', gen_between gen n pm a flush s = (Ok 0, s') /\ further s s'.
Proof.
  revert pm s. induction n as [| n IH]; intros pm s Hs Hn; cbn [gen_between]; [exists s; split; [done | by apply further_refl] |].
  destruct (lookup_lt_is_Some_2 ns pm ltac:(lia)) as [p Hp].
  rewrite (bind_ok _ _ _ _ _ (node_at_run pm p s (proj1 (proj2 (proj2 Hs))) Hp)).
  destruct (gen_further pm p a flush s Hs Hp) as (s1 & E1 & F1 & _). rewrite (bind_ok _ _ _ _ _ E1).
  change (truth 0) with false. cbv iota. destruct (IH (S pm) s1) as (s2 & E2 & F2); [exact (proj1 F1) | lia |].
  exists s2. split; [done | by eapply further_trans].
Qed.

Lemma gen_leading_run i m skip force s : stable s -> ns !! i = Some m -> (skip <= i)%nat ->
  exists s', gen_leading gen i m skip last_flush flush force s = (Ok 0, s') /\ further s s'.
Proof.
  intros Hs Hm Hk. unfold gen_leading, sk_get. rewrite bind_gets.
  destruct (negb (skip =? 0)%nat && _) eqn:E; [| exists s; split; [done | by apply further_refl]].
  cbv zeta. apply andb_true_iff in E as [E _]. apply lookup_lt_Some in Hm as Hl. destruct i as [| pm].
  - assert (skip = 0%nat) as -> by lia. done.
  - match goal with |- context [skip_back skip ?t pm] =>
      destruct (skip_back_run skip t pm s Hs Hk ltac:(lia)) as (pm' & E1 & Hle) end.
    rewrite (bind_ok _ _ _ _ _ E1). apply gen_between_run; [done | lia].
Qed.
(** Setting the time of the last move. *)
Lemma stable_last s t : stable s -> stable (s <| sv_sk ::= fun sk => sk <| last_move_time := t |> |>).
Proof. done. Qed.

Lemma check_active_stable s m : stable s -> check_active (sv_sk s) m = check_active sk0 m.
Proof. intros (H & _). unfold check_active. by rewrite H. Qed.

(** A move that ends before [flush] does not stop the walk. *)
Lemma walk_goes_on m i : ns !! i = Some m -> dlt (move_end m) flush = true ->
  dle flush (move_end m) = false /\ dle (dadd flush (gen_steps_pre_active sk0)) (move_end m) = false.
Proof.
  intros Hm H. destruct (proj1 (Forall_lookup _ _) Hns _ _ Hm) as [[Fp Hp] [Ft Ht]]. destruct Hflush as [Ff Hf], Hpre as [Fr Hr].
  unfold move_end in *. destruct (dadd_bound 1174 (print_time m) (move_t m)) as (F1 & L1 & U1); [lia | assumption | assumption | lia | lia |].
  destruct (dadd_bound 1174 flush (gen_steps_pre_active sk0)) as (F2 & L2 & U2); [lia | assumption | assumption | lia | lia |].
  apply dlt_val in H; [| assumption | assumption].
  split; apply not_true_iff_false; intros E; apply dle_val in E; try assumption; lia.
Qed.

Lemma active_inside m i : (forall t, last ns = Some t -> tail_ok t) -> ns !! i = Some m -> check_active sk0 m = true ->
  (S i < length ns)%nat.
Proof.
  intros Ht Hm Ha. apply lookup_lt_Some in Hm as Hl. destruct (decide (S i < length ns)%nat) as [| Hge]; [done |].
  assert (last ns = Some m) as (Hf & _)%Ht; [| congruence]. rewrite last_lookup. by replace (Nat.pred (length ns)) with i by lia.
Qed.

(** An inactive move is searched only while it follows activity. *)
Lemma gen_trailing_run i m skip force s : stable s -> ns !! i = Some m ->
  exists s' skip',
    (if dlt (print_time m) force
     then ret ← gen i m last_flush (dclip force flush); mret (ret, 1%nat)
     else mret (0, S skip)) s = (Ok (0, skip'), s')
    /\ further s s' /\ (skip' <= S skip)%nat.
Proof.
  intros Hs Hm. destruct (dlt _ _).
  - destruct (gen_further i m last_flush (dclip force flush) s Hs Hm) as (s1 & E1 & F1 & _). rewrite (bind_ok _ _ _ _ _ E1).
    exists s1, 1%nat. split; [done |]. split; [done | lia].
  - exists s, (S skip). split; [done |]. split; [by apply further_refl | lia].
Qed.

Lemma gen_moves_run n i skip force s :
  stable s -> (i < length ns)%nat -> (length ns - i <= n)%nat -> (skip <= i)%nat -> (forall t, last ns = Some t -> tail_ok t) ->
  exists s', gen_moves gen n i skip last_flush flush force s = (Ok 0, s') /\ further s s'
    /\ forall j m, (i <= j)%nat -> ns !! j = Some m -> check_active sk0 m = true ->
         (forall k m', (i <= k < j)%nat -> ns !! k = Some m' -> dlt (move_end m') flush = true) ->
         (m, last_flush, flush) ∈ sv_ranges s'.
Proof.
  intros Hs Hi Hn Hk Htail. revert i skip force s Hs Hi Hn Hk. induction n as [| n IH]; intros i skip force s Hs Hi Hn Hk; [lia |].
  cbn [gen_moves]. destruct (lookup_lt_is_Some_2 ns i Hi) as [m Hm].
  rewrite (bind_ok _ _ _ _ _ (node_at_run i m s (proj1 (proj2 (proj2 Hs))) Hm)). unfold sk_get. rewrite bind_gets. cbn [id].
  rewrite (check_active_stable s m Hs). destruct (check_active sk0 m) eqn:Ea.
  - destruct (gen_leading_run i m skip force s Hs Hm Hk) as (s1 & E1 & F1). rewrite (bind_ok _ _ _ _ _ E1).
    change (truth 0) with false. cbv iota.
    destruct (gen_further i m last_flush flush s1 (proj1 F1) Hm) as (s2 & E2 & F2 & R2). rewrite (bind_ok _ _ _ _ _ E2).
    change (truth 0) with false. cbv iota. pose proof (further_trans _ _ _ F1 F2) as F12.
    destruct (dle flush (move_end m)) eqn:Ef; unfold sk_set; rewrite bind_modify.
    + eexists. split; [reflexivity |]. split; [destruct F12 as [F12 R12]; split; [by apply stable_last | exact R12] |].
      intros j m' Hj Hm' Ha Hbefore. destruct (decide (j = i)) as [-> | Hne]; [rewrite Hm in Hm'; injection Hm' as <-; exact R2 |].
      destruct (walk_goes_on m i Hm (Hbefore i m ltac:(lia) Hm)) as [H1 _]. congruence.
    + destruct (IH (S i) 0%nat (dadd (move_end m) (gen_steps_post_active (sv_sk s)))
        (s2 <| sv_sk ::= fun sk => sk <| last_move_time := move_end m |> |>)) as (s3 & E3 & F3 & R3);
        [apply stable_last, F12 | by eapply active_inside | lia | lia |].
      assert (F23 : further s2 s3) by (destruct F3 as [G1 G2]; split; [exact G1 | exact G2]).
      exists s3. split; [exact E3 |]. split; [by eapply further_trans |]. intros j m' Hj Hm' Ha Hbefore.
      destruct (decide (j = i)) as [-> | Hne]; [rewrite Hm in Hm'; injection Hm' as <-; by apply (further_elem s2) |].
      apply (R3 j m'); [lia | done | done |]. intros k mk Hk'. apply Hbefore. lia.
  - destruct (gen_trailing_run i m skip force s Hs Hm) as (s1 & skip' & E1 & F1 & Hk'). rewrite (bind_ok _ _ _ _ _ E1).
    change (truth 0) with false. cbv iota. rewrite (proj1 (proj2 Hs)).
    destruct (dle (dadd flush (gen_steps_pre_active sk0)) (move_end m)) eqn:Ef.
    + exists s1. split; [done |]. split; [done |]. intros j m' Hj Hm' Ha Hbefore. destruct (decide (j = i)) as [-> | Hne]; [congruence |].
      destruct (walk_goes_on m i Hm (Hbefore i m ltac:(lia) Hm)) as [_ H1]. congruence.
    + destruct (IH (S i) skip' force s1) as (s3 & E3 & F3 & R3); [exact (proj1 F1) | | lia | lia |].
      { destruct (decide (S i < length ns)%nat) as [| Hge]; [done |]. assert (last ns = Some m) as Hl%Htail.
        { rewrite last_lookup. by replace (Nat.pred (length ns)) with i by lia. }
        destruct Hl as (_ & _ & Hl). congruence. }
      exists s3. split; [exact E3 |]. split; [by eapply further_trans |]. intros j m' Hj Hm' Ha Hbefore.
      destruct (decide (j = i)) as [-> | Hne]; [congruence |].
      apply (R3 j m'); [lia | done | done |]. intros k mk Hk2. apply Hbefore. lia.
Qed.
End Cover.

Lemma never_fin : dfin NEVER_TIME /\ 0 <= dval NEVER_TIME <= 2 ^ 1174.
Proof.
  split; [vm_compute; intuition congruence |]. split; [vm_compute; congruence |].
  assert (H : dval NEVER_TIME <= 2 ^ 1130) by (vm_compute; congruence).
  assert (2 ^ 1130 <= 2 ^ 1174) by (apply Z.pow_le_mono_r; lia). lia.
Qed.

Lemma tail_wf_ok sk last_flush flush tq :
  tail_wf tq -> dtime (print_time (tq_tail tq)) -> dtime last_flush -> dtime flush -> dtime (gen_steps_pre_active sk) ->
  dlt last_flush NEVER_TIME = true -> dle (dadd flush (gen_steps_pre_active sk)) NEVER_TIME = true ->
  tail_ok sk last_flush flush (tq_tail tq).
Proof.
  intros [H1 H2] [Fp Hp] [Fl Hl] [Ff Hf] [Fr Hr] L1 L2. destruct never_fin as [Fn Hn].
  unfold tail_ok, move_end. rewrite H1.
  destruct (dadd_bound 1174 (print_time (tq_tail tq)) NEVER_TIME) as (F1 & _ & B1); [lia | assumption | assumption | lia | lia |].
  destruct (dadd_bound 1174 flush (gen_steps_pre_active sk)) as (F2 & _ & _); [lia | assumption | assumption | lia | lia |].
  apply dlt_val in L1; [| assumption | assumption]. apply dle_val in L2; [| assumption | assumption].
  split_and!.
  - unfold check_active. rewrite H2. change (dne (cx coord0) d_zero) with false. change (dne (cy coord0) d_zero) with false.
    change (dne (cz coord0) d_zero) with false. by rewrite !andb_false_r.
  - apply not_true_iff_false. intros E. apply dle_val in E; [| assumption | assumption]. lia.
  - apply dle_val; [assumption | assumption | lia].
Qed.

(** The walk to the first move that has not ended. *)
Lemma seek_move_run tq t s n i : let ns := nodes tq in
  sv_tq s = tq -> (i < length ns)%nat -> (length ns - i <= n)%nat -> (forall m, last ns = Some m -> dle (move_end m) t = false) ->
  exists j, seek_move n t i s = (Ok j, s) /\ (i <= j < length ns)%nat
    /\ forall k m, (i <= k < j)%nat -> ns !! k = Some m -> dle (move_end m) t = true.
Proof.
  intros ns Hns Hi Hn Ht. revert i Hi Hn. induction n as [| n IH]; intros i Hi Hn; [lia |]. cbn [seek_move].
  destruct (lookup_lt_is_Some_2 ns i Hi) as [m Hm]. rewrite (bind_ok _ _ _ _ _ (node_at_run tq i m s Hns Hm)).
  destruct (dle (move_end m) t) eqn:E.
  - destruct (decide (S i < length ns)%nat) as [Hlt | Hge].
    + destruct (IH (S i) Hlt ltac:(lia)) as (j & E1 & Hj & Hk). exists j. split; [done |]. split; [lia |].
      intros k mk Hki Hmk. destruct (decide (k = i)) as [-> | Hne]; [congruence |]. apply (Hk k); [lia | done].
    + assert (last ns = Some m) as Hl%Ht; [| congruence]. rewrite last_lookup. by replace (Nat.pred (length ns)) with i by lia.
  - exists i. split; [done |]. split; [lia |]. intros k mk Hki. lia.
Qed.

Lemma last_nodes tq : last (nodes tq) = Some (tq_tail tq).
Proof. unfold nodes. rewrite app_comm_cons. apply last_snoc. Qed.

Section Generate_covers.
Context (gen : nat -> move -> double -> double -> SV Z) (flush : double) (s : solver).
Let sk := sv_sk s.
Let tq := trapq_check_sentinels (sv_tq s).
Let ns := nodes tq.
Hypothesis (Hq : has_tq sk = true) (Ht : tail_wf (sv_tq s)).
Hypothesis (Hns : Forall (fun m => dtime (print_time m) /\ dtime (move_t m)) ns).
Hypothesis (Hlast : dtime (last_flush_time sk)) (Hflush : dtime flush) (Hpre : dtime (gen_steps_pre_active sk)).
Hypothesis (L1 : dlt (last_flush_time sk) NEVER_TIME = true) (L2 : dle (dadd flush (gen_steps_pre_active sk)) NEVER_TIME = true).
Hypothesis (Hgen : forall i m a b s, stable sk tq flush s -> ns !! i = Some m ->
  exists s', gen i m a b s = (Ok 0, s') /\ stable sk tq flush s' /\ sv_ranges s' = sv_ranges s ++ [(m, a, b)]).

Lemma generate_covers :
  exists s' l, generate_steps gen flush s = (Ok 0, s') /\ stable sk tq flush s' /\ sv_ranges s' = sv_ranges s ++ l
    /\ forall j m, ns !! j = Some m -> check_active sk m = true -> dle (move_end m) (last_flush_time sk) = false ->
         (forall k m', (k < j)%nat -> ns !! k = Some m' -> dlt (move_end m') flush = true) ->
         (m, last_flush_time sk, flush) ∈ sv_ranges s'.
Proof.
  pose proof (check_sentinels_tail _ Ht) as Ht'. fold tq in Ht'.
  assert (Hl : last ns = Some (tq_tail tq)) by apply last_nodes.
  assert (Htail : tail_ok sk (last_flush_time sk) flush (tq_tail tq)).
  { apply tail_wf_ok; try assumption. pose proof Hl as Hl2. rewrite last_lookup in Hl2. exact (proj1 (proj1 (Forall_lookup _ _) Hns _ _ Hl2)). }
  assert (Hlen : (0 < length ns)%nat) by (unfold ns, nodes; cbn [length]; lia).
  unfold generate_steps, sk_get, sk_set. rewrite bind_gets, bind_modify, bind_gets.
  change (has_tq (sv_sk (s <| sv_sk ::= fun sk => sk <| last_flush_time := flush |> |>))) with (has_tq sk). rewrite Hq. cbn [negb].
  rewrite bind_modify. unfold list_fuel. rewrite bind_gets. set (s1 := s <| sv_sk ::= _ |> <| sv_tq ::= _ |>).
  change (nodes (sv_tq s1)) with ns.
  destruct (seek_move_run tq (last_flush_time sk) s1 (S (length ns)) 0 eq_refl Hlen ltac:(fold ns; lia)) as (i & E1 & Hi & Hk).
  { intros m Hm. fold ns in Hm. rewrite Hl in Hm. injection Hm as <-. exact (proj1 (proj2 Htail)). }
  change (last_flush_time (sv_sk s)) with (last_flush_time sk). rewrite (bind_ok _ _ _ _ _ E1), bind_gets.
  destruct (gen_moves_run gen sk tq (last_flush_time sk) flush Hgen Hns Hflush Hpre (S (length ns)) i 0
    (dadd (last_move_time (id (sv_sk s1))) (gen_steps_post_active (id (sv_sk s1)))) s1) as (s2 & E2 & (St & l & Hr) & R2);
    [repeat split | exact (proj2 Hi) | fold ns; lia | lia | by intros t [= <-]%(eq_trans (eq_sym Hl)) |].
  exists s2, l. split; [exact E2 |]. split; [exact St |]. split; [exact Hr |]. intros j m Hm Ha He Hb. apply (R2 j m); [| exact Hm | exact Ha |].
  - destruct (decide (i <= j)%nat); [assumption |]. rewrite (Hk j m ltac:(lia) Hm) in He. discriminate.
  - intros k m' Hk'. apply Hb. lia.
Qed.
End Generate_covers.


(** ** Example: a diagonal move on a CoreXY machine *)

Definition demo_queue : trapq :=
  trapq_append trapq_alloc (d_of_Z 10) (d_lit 1 10) (d_lit 1 2) (d_lit 1 10) coord0 (mk_coord (d_lit 3 5) (d_lit 4 5) d_zero)
    d_zero (d_of_Z 10) (d_of_Z 100).

Definition demo_solver : solver :=
  mk_solver ((corexy_stepper_alloc "+"%char) <| step_dist := d_one |> <| has_tq := true |>)
    (stepcompress_set_time d_zero (d_of_Z 1000000) (stepcompress_alloc 3)).2 demo_queue [] [].

Definition demo_nodes : list move := nodes (trapq_check_sentinels demo_queue).

Definition demo_nodes_val : list move := Eval vm_compute in demo_nodes.

Lemma demo_nodes_eq : demo_nodes = demo_nodes_val.
Proof. vm_compute. reflexivity. Qed.

Ltac dtime_tac := split; [vm_compute; intuition congruence | split; vm_compute; congruence].

Lemma demo_times : Forall (fun m => dtime (print_time m) /\ dtime (move_t m)) demo_nodes.
Proof. rewrite demo_nodes_eq. unfold demo_nodes_val. repeat apply Forall_cons_2; try apply Forall_nil_2; (split; dtime_tac). Qed.

Lemma demo_valid : Forall move_valid demo_nodes.
Proof. rewrite demo_nodes_eq. unfold demo_nodes_val. repeat apply Forall_cons_2; try apply Forall_nil_2; vm_compute; intuition congruence. Qed.

Lemma demo_calc cmd i t p :
  dvalid cmd -> dvalid t -> calc_position_cb (sv_sk demo_solver) cmd demo_nodes i t = Ok p -> dvalid p.
Proof.
  refine (of_coord_valid (fun c => dadd (cx c) (cy c)) demo_nodes _ demo_valid cmd i t p).
  intros c (V1 & V2 & _). by apply dadd_valid.
Qed.

Definition demo_flushed : solver := (itersolve_generate_steps 1000 (d_of_Z 12) demo_solver).2.


(** A search that finds no steps. *)
Definition demo_gen (i : nat) (m : move) (a b : double) : SV Z :=
  modify (fun s => s <| sv_ranges ::= fun l => l ++ [(m, a, b)] |>) ;; mret 0.

