(* ===== verification/Toolhead.v ===== *)
(** * Toolhead: the times of motion

    Models the time keeping of [src/klippy/toolhead.py]: the look-ahead queue
    [MoveQueue], and of [ToolHead] the queuing states, the advance of the print
    time with step generation, release of moves and flushing, stalls, dwells,
    and the "drip" moves of homing.  The calls it makes of the C helpers are
    recorded in a log; [check_call] says what the steppers may rely on.

    The planner behind [mymovie] has no source here: what it computes is a
    parameter ([Host]), as are the clock and what happens during pauses. *)

From S2P Require Import Prelude Double Rounding Trapq.

(** Python's [max] and [min] of two floats. *)
Definition py_max (x y : double) : double := if dlt x y then y else x.
Definition py_min (x y : double) : double := if dlt y x then y else x.

Definition LOOKAHEAD_FLUSH_TIME : double := d_lit 1 4.
Definition MIN_KIN_TIME : double := d_lit 1 10.
Definition MOVE_BATCH_TIME : double := d_lit 1 2.
Definition SDS_CHECK_TIME : double := d_lit 1 1000.
Definition DRIP_SEGMENT_TIME : double := d_lit 1 20.
Definition DRIP_TIME : double := d_lit 1 10.
Definition REACTOR_NEVER : double := d_of_Z (10 ^ 16).
Definition REACTOR_NOW : double := d_zero.
Definition tenth : double := d_lit 1 10.

(** [special_queuing_state]; [Main] is the empty string. *)
Inductive queuing := Main | Flushed | Priming | Drip.

#[export] Instance queuing_eq_dec : EqDecision queuing.
Proof. solve_decision. Defined.

Definition special (q : queuing) : bool := match q with Main => false | _ => true end.

(** The calls of the C helpers: a step generator, [trapq_append_from_moveq],
    [trapq_finalize_moves] for both queues, [flush_moves] of a micro-controller,
    [trapq_set_position], and [trapq_finalize_moves] by an aborted move. *)
Inductive call :=
| Generate (i : nat) (t : double)
| AppendMoves (t : double) (data : list move_data) (n : Z)
| FinalizeMoves (t : double)
| FlushMoves (j : nat) (t : double)
| SetPosition (t : double) (pos : coord)
| Discard.

(** The state of [MoveQueue] and [ToolHead].  An entry of the look-ahead queue is
    the number of the planner's move object and the callbacks registered for it;
    [th_called] records the callbacks called.  [th_reads] counts the readings of
    the clock, [th_moves] the move objects. *)
Record toolhead := mk_toolhead {
  junction_flush : double; queue : list (nat * list nat);
  th_print_time : double; special_queuing_state : queuing; need_check_stall : double; flush_timer : double;
  idle_flush_print_time : double; print_stall : Z;
  kin_flush_delay : double; kin_flush_times : list double;
  last_kin_flush_time : double; last_kin_move_time : double;
  th_trapq : trapq; extruder_trapq : option trapq; extruder_last_position : double;
  commanded_xyz : coord; commanded_e : double;
  can_pause : bool; step_generators : nat;
  th_reads : nat; th_moves : nat; th_called : list (nat * double); th_log : list call
}.
#[export] Instance eta_toolhead : Eta toolhead := fun r =>
  mk_toolhead (junction_flush r) (queue r) (th_print_time r) (special_queuing_state r) (need_check_stall r) (flush_timer r)
    (idle_flush_print_time r) (print_stall r) (kin_flush_delay r) (kin_flush_times r) (last_kin_flush_time r)
    (last_kin_move_time r) (th_trapq r) (extruder_trapq r) (extruder_last_position r) (commanded_xyz r) (commanded_e r)
    (can_pause r) (step_generators r) (th_reads r) (th_moves r) (th_called r) (th_log r).

Abbreviation TH := (M toolhead).

(** What happens while the code pauses: the reactor checks the flush timer, or
    the printer shuts down. *)
Inductive pause_event := FlushTimer (eventtime : double) | ShutdownEvent.

Definition is_shutdown (ev : pause_event) : bool := match ev with ShutdownEvent => true | _ => false end.

(** The surroundings: the clock (the [n]-th reading), the estimated print time,
    pauses, the end of a drip move, the planner, the configuration, and whether
    a step generator or a micro-controller fails. *)
Class Host := {
  monotonic : nat -> double;
  estimated_print_time : nat -> double -> double;
  pause_events : nat -> list pause_event;
  drip_test : nat -> bool;
  move_result : coord * double -> coord * double -> double -> nat -> Z;
  min_move_t : nat -> double;
  move_queue_flush_cal : list nat -> bool -> nat;
  moveq_data : list nat -> list move_data;
  buffer_time_low : double; buffer_time_high : double; buffer_time_start : double; move_flush_time : double;
  mcus : nat;
  generator_error : list call -> nat -> double -> bool;
  mcu_error : list call -> nat -> double -> bool
}.

(** ** Exceptions *)

Definition py_catch {A} (name : string) (m h : TH A) : TH A := fun s =>
  match m s with
  | (Shut e, s') => if decide (e = name) then h s' else (Shut e, s')
  | r => r
  end.

(** [except:] without a class. *)
Definition py_catch_all {A} (m h : TH A) : TH A := fun s =>
  match m s with
  | (Shut _, s') => h s'
  | (Fault _, s') => h s'
  | r => r
  end.

Definition log (c : call) : TH unit := modify (fun s => s <| th_log ::= fun l => l ++ [c] |>).

Definition set_state (q : queuing) : TH unit := modify (fun s => s <| special_queuing_state := q |>).

Definition queue_reset : TH unit := modify (fun s => s <| queue := [] |> <| junction_flush := LOOKAHEAD_FLUSH_TIME |>).

Definition handle_shutdown : TH unit := modify (fun s => s <| can_pause := false |>) ;; queue_reset.

Section Toolhead.
Context {H : Host} (fuel : nat).

(** ** Print time *)

(** [for sg in self.step_generators: sg(t)], from the [i]-th on. *)
Fixpoint run_generators (n i : nat) (t : double) : TH unit :=
  match n with
  | O => mret tt
  | S n =>
      l ← gets th_log;
      log (Generate i t) ;;
      if generator_error l i t then shutdown "error" else run_generators n (S i) t
  end.

Fixpoint run_flush_moves (n j : nat) (t : double) : TH unit :=
  match n with
  | O => mret tt
  | S n =>
      l ← gets th_log;
      log (FlushMoves j t) ;;
      if mcu_error l j t then shutdown "error" else run_flush_moves n (S j) t
  end.

Definition finalize_moves (t : double) : TH unit :=
  modify (fun s => s <| th_trapq ::= fun tq => trapq_finalize_moves tq t |>
                     <| extruder_trapq ::= fmap (fun tq => trapq_finalize_moves tq t) |>) ;;
  log (FinalizeMoves t).

Fixpoint move_time_loop (n : nat) (next_print_time delay lkft : double) : TH unit :=
  match n with
  | O => lift_res OutOfFuel
  | S n =>
      modify (fun s => s <| th_print_time ::= fun t => py_min (dadd t MOVE_BATCH_TIME) next_print_time |>) ;;
      t ← gets th_print_time;
      let sg_flush_time := py_max lkft (dsub t delay) in
      k ← gets step_generators;
      run_generators k 0 sg_flush_time ;;
      finalize_moves (py_max lkft (dsub sg_flush_time delay)) ;;
      run_flush_moves mcus 0 (py_max lkft (dsub sg_flush_time move_flush_time)) ;;
      if dle next_print_time t then mret tt else move_time_loop n next_print_time delay lkft
  end.

Definition update_move_time (next_print_time : double) : TH unit :=
  delay ← gets kin_flush_delay;
  lkft ← gets last_kin_flush_time;
  move_time_loop fuel next_print_time delay lkft.

Definition read_clock : TH double :=
  n ← gets th_reads;
  modify (fun s => s <| th_reads ::= S |>) ;;
  mret (monotonic n).

Definition est_print_time (eventtime : double) : TH double := n ← gets th_reads; mret (estimated_print_time n eventtime).

Definition calc_print_time : TH unit :=
  curtime ← read_clock;
  est ← est_print_time curtime;
  s ← gets id;
  let kin_time := dadd (py_max (dadd est MIN_KIN_TIME) (last_kin_flush_time s)) (kin_flush_delay s) in
  let min_print_time := py_max (dadd est buffer_time_start) kin_time in
  when (dlt (th_print_time s) min_print_time) (modify (fun s => s <| th_print_time := min_print_time |>)).

(** ** Drip moves *)

(** [drip_completion.wait]: the flush timer is off meanwhile. *)
Definition drip_wait : TH unit :=
  n ← gets th_reads;
  modify (fun s => s <| th_reads ::= S |>) ;;
  when (existsb is_shutdown (pause_events n)) handle_shutdown.

Fixpoint drip_loop (n : nat) (next_print_time flush_delay : double) : TH unit :=
  match n with
  | O => lift_res OutOfFuel
  | S n =>
      t ← gets th_print_time;
      if negb (dlt t next_print_time) then mret tt
      else
        k ← gets th_reads;
        if drip_test k then shutdown "DripModeEndSignal"
        else
          curtime ← read_clock;
          est ← est_print_time curtime;
          let wait_time := dsub (dsub t est) flush_delay in
          p ← gets can_pause;
          if dlt d_zero wait_time && p then drip_wait ;; drip_loop n next_print_time flush_delay
          else
            update_move_time (py_min (dadd t DRIP_SEGMENT_TIME) next_print_time) ;;
            drip_loop n next_print_time flush_delay
  end.

Definition update_drip_move_time (next_print_time : double) : TH unit :=
  delay ← gets kin_flush_delay;
  drip_loop fuel next_print_time (dadd (dadd DRIP_TIME move_flush_time) delay).

(** ** Processing moves *)

Definition process_moves (n : nat) : TH unit :=
  q ← gets special_queuing_state;
  when (special q)
    (when (negb (bool_decide (q = Drip)))
       (modify (fun s => s <| special_queuing_state := Main |> <| need_check_stall := d_of_Z (-1) |> <| flush_timer := REACTOR_NOW |>)) ;;
     calc_print_time) ;;
  s ← gets id;
  ext ← deref "extruder" (extruder_trapq s);
  let data := moveq_data (queue s).*1 in
  let '(kin', ext', e_pos, next_move_time) := trapq_append_from_moveq (th_trapq s) ext (th_print_time s) data (Z.of_nat n) in
  modify (fun s => s <| th_trapq := kin' |> <| extruder_trapq := Some ext' |>) ;;
  log (AppendMoves (th_print_time s) data (Z.of_nat n)) ;;
  when (dlt e_pos (d_of_Z 109999999)) (modify (fun s => s <| extruder_last_position := e_pos |>)) ;;
  q ← gets special_queuing_state;
  when (special q) (update_drip_move_time next_move_time) ;;
  update_move_time next_move_time ;;
  modify (fun s => s <| last_kin_move_time := next_move_time |>).

(** [MoveQueue]. *)
Definition set_flush_time (t : double) : TH unit := modify (fun s => s <| junction_flush := t |>).

Definition movequeue_flush (lazy : bool) : TH unit :=
  set_flush_time LOOKAHEAD_FLUSH_TIME ;;
  q ← gets queue;
  match q with
  | [] => mret tt
  | _ =>
      let flush_count := move_queue_flush_cal q.*1 lazy in
      when (negb (flush_count =? 0)%nat)
        (process_moves (length (take flush_count q)) ;;
         modify (fun s => s <| queue ::= drop flush_count |>))
  end.

Definition movequeue_add (m : nat) : TH unit :=
  modify (fun s => s <| queue ::= fun q => q ++ [(m, [])] |>) ;;
  q ← gets queue;
  if (length q =? 1)%nat then mret tt
  else
    modify (fun s => s <| junction_flush ::= fun j => dsub j (min_move_t m) |>) ;;
    j ← gets junction_flush;
    when (dle j d_zero) (movequeue_flush true).

Definition flush_step_generation : TH unit :=
  movequeue_flush false ;;
  modify (fun s => s <| special_queuing_state := Flushed |> <| need_check_stall := d_of_Z (-1) |> <| flush_timer := REACTOR_NEVER |>) ;;
  set_flush_time buffer_time_high ;;
  modify (fun s => s <| idle_flush_print_time := d_zero |>) ;;
  s ← gets id;
  let flush_time := dadd (last_kin_move_time s) (kin_flush_delay s) in
  let flush_time := py_max flush_time (dsub (th_print_time s) (kin_flush_delay s)) in
  modify (fun s => s <| last_kin_flush_time ::= fun l => py_max l flush_time |>) ;;
  s ← gets id;
  update_move_time (py_max (th_print_time s) (last_kin_flush_time s)).

Definition flush_lookahead : TH unit :=
  q ← gets special_queuing_state;
  if special q then flush_step_generation else movequeue_flush false.

Definition get_last_move_time : TH double :=
  flush_lookahead ;;
  q ← gets special_queuing_state;
  when (special q) calc_print_time ;;
  gets th_print_time.

(** ** The flush timer and pauses *)

Definition flush_handler (eventtime : double) : TH double :=
  py_catch_all
    (t ← gets th_print_time;
     est ← est_print_time eventtime;
     let buffer_time := dsub t est in
     if dlt buffer_time_low buffer_time then mret (dsub (dadd eventtime buffer_time) buffer_time_low)
     else
       flush_step_generation ;;
       t' ← gets th_print_time;
       when (negb (deq t t')) (modify (fun s => s <| idle_flush_print_time := t' |>)) ;;
       mret REACTOR_NEVER)
    (handle_shutdown ;; mret REACTOR_NEVER).

(** [_check_timers] of the reactor, for this timer. *)
Definition check_flush_timer (eventtime : double) : TH unit :=
  w ← gets flush_timer;
  when (dle w eventtime)
    (modify (fun s => s <| flush_timer := REACTOR_NEVER |>) ;;
     w ← flush_handler eventtime;
     modify (fun s => s <| flush_timer := w |>)).

Fixpoint run_pause_events (l : list pause_event) : TH unit :=
  match l with
  | [] => mret tt
  | FlushTimer t :: l => check_flush_timer t ;; run_pause_events l
  | ShutdownEvent :: l => handle_shutdown ;; run_pause_events l
  end.

(** [pause] of the reactor: other greenlets run until the wake time, of which
    [pause_events] lists what concerns the toolhead; the clock read then is
    returned. *)
Definition pause : TH double :=
  n ← gets th_reads;
  run_pause_events (pause_events n) ;;
  read_clock.

(** ** Stalls *)

(** The loop of [_check_stall]: the estimate at which it is left, or [None] when
    the code returns because it cannot pause. *)
Fixpoint stall_loop (n : nat) (eventtime : double) : TH (option double) :=
  match n with
  | O => lift_res OutOfFuel
  | S n =>
      est ← est_print_time eventtime;
      t ← gets th_print_time;
      let stall_time := dsub (dsub t est) buffer_time_high in
      if dle stall_time d_zero then mret (Some est)
      else
        p ← gets can_pause;
        if negb p then modify (fun s => s <| need_check_stall := REACTOR_NEVER |>) ;; mret None
        else eventtime ← pause; stall_loop n eventtime
  end.

Definition check_stall : TH unit :=
  eventtime ← read_clock;
  q ← gets special_queuing_state;
  when (special q)
    (idle ← gets idle_flush_print_time;
     when (d_truth idle)
       (est ← est_print_time eventtime;
        when (dlt est idle) (modify (fun s => s <| print_stall ::= Z.succ |>)) ;;
        modify (fun s => s <| idle_flush_print_time := d_zero |>)) ;;
     modify (fun s => s <| special_queuing_state := Priming |> <| need_check_stall := d_of_Z (-1) |>
                        <| flush_timer := dadd eventtime tenth |>)) ;;
  r ← stall_loop fuel eventtime;
  match r with
  | None => mret tt
  | Some est =>
      q ← gets special_queuing_state;
      when (negb (special q)) (modify (fun s => s <| need_check_stall := dadd (dadd est buffer_time_high) tenth |>))
  end.

(** ** Movement commands *)

Definition set_position (pos : coord) (e : double) : TH unit :=
  flush_step_generation ;;
  t ← gets th_print_time;
  modify (fun s => s <| th_trapq ::= fun tq => trapq_set_position tq t pos |> <| commanded_xyz := pos |> <| commanded_e := e |>) ;;
  log (SetPosition t pos).

(** [move] (and [simple_move]): the planner has judged the move. *)
Definition toolhead_move (pos : coord) (e speed : double) : TH unit :=
  s ← gets id;
  let m := th_moves s in
  modify (fun s => s <| th_moves ::= S |>) ;;
  let code := move_result (commanded_xyz s, commanded_e s) (pos, e) speed m in
  if (code =? -4) || (code =? -3) || (code =? -1) then mret tt
  else if (code =? -2) || (code =? -5) || (code =? -6) then shutdown "command_error"
  else
    when (code =? 0) (modify (fun s => s <| commanded_xyz := pos |> <| commanded_e := e |>)) ;;
    when (code =? 1) (modify (fun s => s <| commanded_e := e |>)) ;;
    movequeue_add m ;;
    s ← gets id;
    when (dlt (need_check_stall s) (th_print_time s)) check_stall.

Definition dwell (delay : double) : TH unit :=
  t ← get_last_move_time;
  update_move_time (dadd t (py_max d_zero delay)) ;;
  check_stall.

Fixpoint wait_loop (n : nat) (eventtime : double) : TH unit :=
  match n with
  | O => lift_res OutOfFuel
  | S n =>
      s ← gets id;
      est ← est_print_time eventtime;
      if negb (special (special_queuing_state s)) || dle est (th_print_time s)
      then if negb (can_pause s) then mret tt else eventtime ← pause; wait_loop n eventtime
      else mret tt
  end.

Definition wait_moves : TH unit :=
  flush_lookahead ;;
  eventtime ← read_clock;
  wait_loop fuel eventtime.

Definition drip_move (pos : coord) (e speed : double) : TH unit :=
  delay ← gets kin_flush_delay;
  dwell delay ;;
  movequeue_flush false ;;
  modify (fun s => s <| special_queuing_state := Drip |> <| need_check_stall := REACTOR_NEVER |> <| flush_timer := REACTOR_NEVER |>) ;;
  set_flush_time buffer_time_high ;;
  modify (fun s => s <| idle_flush_print_time := d_zero |>) ;;
  py_catch "command_error" (toolhead_move pos e speed) (flush_step_generation ;; shutdown "command_error") ;;
  py_catch "DripModeEndSignal" (movequeue_flush false)
    (queue_reset ;;
     modify (fun s => s <| th_trapq ::= fun tq => trapq_finalize_moves tq REACTOR_NEVER |>) ;;
     log Discard) ;;
  flush_step_generation.

Definition register_step_generator : TH unit := modify (fun s => s <| step_generators ::= S |>).

(** [l.pop(l.index(x))]. *)
Fixpoint py_remove (x : double) (l : list double) : option (list double) :=
  match l with
  | [] => None
  | y :: l => if deq y x then Some l else (cons y) <$> py_remove x l
  end.

Definition note_step_generation_scan_time (delay old_delay : double) : TH unit :=
  flush_step_generation ;;
  when (d_truth old_delay)
    (l ← gets kin_flush_times;
     l ← deref "ValueError" (py_remove old_delay l);
     modify (fun s => s <| kin_flush_times := l |>)) ;;
  when (d_truth delay) (modify (fun s => s <| kin_flush_times ::= fun l => l ++ [delay] |>)) ;;
  l ← gets kin_flush_times;
  modify (fun s => s <| kin_flush_delay := match l ++ [SDS_CHECK_TIME] with [] => d_zero | x :: l => foldl py_max x l end |>).

Definition register_lookahead_callback (cb : nat) : TH unit :=
  q ← gets queue;
  match rev q with
  | [] => t ← get_last_move_time; modify (fun s => s <| th_called ::= fun l => l ++ [(cb, t)] |>)
  | (m, cbs) :: rest => modify (fun s => s <| queue := rev ((m, cbs ++ [cb]) :: rest) |>)
  end.

Definition note_kinematic_activity (kin_time : double) : TH unit :=
  modify (fun s => s <| last_kin_move_time ::= fun t => py_max t kin_time |>).

End Toolhead.

(** ** What the steppers may rely on

    [check_call i] follows the calls with the time [g] up to which generator [i]
    has run and the end [e] of the moves appended, and refuses a generator time
    that goes back, a move that begins before [g] or before [e], and the release
    or transmission of anything after [g].  An aborted move takes back what was
    appended. *)
Definition append_end (t : double) (data : list move_data) (n : Z) : double :=
  (trapq_append_from_moveq trapq_alloc trapq_alloc t data n).2.

Definition check_call (i : nat) (st : option (double * double)) (c : call) : option (double * double) :=
  '(g, e) ← st;
  match c with
  | Generate j t => if negb (j =? i)%nat then Some (g, e) else if dle g t then Some (t, e) else None
  | AppendMoves t data n => if dle g t && dle e t then Some (g, append_end t data n) else None
  | FinalizeMoves t | FlushMoves _ t => if dle t g then Some (g, e) else None
  | SetPosition _ _ => if dle e g then Some (g, d_zero) else None
  | Discard => Some (g, d_zero)
  end.

Definition check_calls (i : nat) (l : list call) : option (double * double) := foldl (check_call i) (Some (d_zero, d_zero)) l.

(** The commands of the rest of the host, and the events. *)
Inductive th_op :=
| OMove (pos : coord) (e speed : double)
| ODwell (delay : double)
| OWaitMoves
| OLastMoveTime
| OSetPosition (pos : coord) (e : double)
| ODripMove (pos : coord) (e speed : double)
| OFlush
| OScanTime (delay old_delay : double)
| OActivity (t : double)
| OCallback (cb : nat)
| ORegister
| OEvent (ev : pause_event).

Section Run.
Context {H : Host} (fuel : nat).

Definition run_op (op : th_op) : TH unit :=
  match op with
  | OMove pos e speed => toolhead_move fuel pos e speed
  | ODwell delay => dwell fuel delay
  | OWaitMoves => wait_moves fuel
  | OLastMoveTime => _ ← get_last_move_time fuel; mret tt
  | OSetPosition pos e => set_position fuel pos e
  | ODripMove pos e speed => drip_move fuel pos e speed
  | OFlush => flush_step_generation fuel
  | OScanTime delay old_delay => note_step_generation_scan_time fuel delay old_delay
  | OActivity t => note_kinematic_activity t
  | OCallback cb => register_lookahead_callback fuel cb
  | ORegister => register_step_generator
  | OEvent ev => run_pause_events fuel [ev]
  end.

(** A command may be refused; any other exception ends the run. *)
Fixpoint run_ops (ops : list th_op) : TH unit :=
  match ops with
  | [] => mret tt
  | op :: ops => py_catch "command_error" (run_op op) (mret tt) ;; run_ops ops
  end.

End Run.

Definition toolhead_init (kin_generators : nat) : toolhead :=
  mk_toolhead LOOKAHEAD_FLUSH_TIME [] d_zero Flushed (d_of_Z (-1)) REACTOR_NEVER d_zero 0 SDS_CHECK_TIME [] d_zero d_zero
    trapq_alloc (Some trapq_alloc) d_zero coord0 d_zero true kin_generators 0 0 [] [].

(** ** Outcomes of a run

    A value, an exception or a run cut short, each with what holds of the state. *)

Definition outcome {A} (Q : A -> toolhead -> Prop) (X : string -> toolhead -> Prop) (W : toolhead -> Prop) (p : res A * toolhead) : Prop :=
  match p with
  | (Ok a, s) => Q a s
  | (Shut x, s) => X x s
  | (Fault _, s) => False
  | (OutOfFuel, s) => W s
  end.

Lemma outcome_bind {A C} (Q1 : A -> toolhead -> Prop) (Q : C -> toolhead -> Prop) X W (m : TH A) (k : A -> TH C) s :
  outcome Q1 X W (m s) -> (forall a s', Q1 a s' -> outcome Q X W (k a s')) -> outcome Q X W ((m ≫= k) s).
Proof. intros Hm Hk. unfold mbind, M_bind. destruct (m s) as [[] ?]; [by apply Hk | exact Hm..]. Qed.

Lemma outcome_mono {A} (Q Q' : A -> toolhead -> Prop) (X X' : string -> toolhead -> Prop) (W W' : toolhead -> Prop) p :
  outcome Q X W p -> (forall a s, Q a s -> Q' a s) -> (forall x s, X x s -> X' x s) -> (forall s, W s -> W' s) -> outcome Q' X' W' p.
Proof. destruct p as [[] ?]; cbn; auto. Qed.

(** ** Times *)

Definition nn (x : double) : Prop := dnum x /\ 0 <= dext x.
Definition span (x : double) : Prop := dfin x /\ 0 <= dval x.

Lemma span_nn x : span x -> nn x.
Proof. intros [Hf Hv]. split; [by left |]. by rewrite (proj1 (dext_fin x Hf)). Qed.

Lemma py_max_spec x y : dnum x -> dnum y -> dnum (py_max x y) /\ dext (py_max x y) = Z.max (dext x) (dext y).
Proof.
  intros Hx Hy. unfold py_max. pose proof (dlt_ext x y Hx Hy) as E. destruct (dlt x y); (split; [assumption |]).
  - pose proof (proj1 E eq_refl). lia.
  - destruct (decide (dext x < dext y)) as [Hlt |]; [discriminate (proj2 E Hlt) | lia].
Qed.

Lemma py_min_spec x y : dnum x -> dnum y -> dnum (py_min x y) /\ dext (py_min x y) = Z.min (dext x) (dext y).
Proof.
  intros Hx Hy. unfold py_min. pose proof (dlt_ext y x Hy Hx) as E. destruct (dlt y x); (split; [assumption |]).
  - pose proof (proj1 E eq_refl). lia.
  - destruct (decide (dext y < dext x)) as [Hlt |]; [discriminate (proj2 E Hlt) | lia].
Qed.

Lemma dadd_num x y : dfin x -> span y -> dnum (dadd x y).
Proof.
  intros Fx [Fy Py]. pose proof (dadd_rounds x y Fx Fy) as R. apply (dle_num x); [assumption | exact (rounds_valid _ _ R) |].
  apply (rounds_ge _ _ _ R Fx). lia.
Qed.

Lemma nn_add x y : nn x -> nn y -> nn (dadd x y) /\ dext x <= dext (dadd x y).
Proof. intros [Nx Px] [Ny Py]. destruct (dadd_ext x y Nx Ny Px Py) as (N & B & _). split; [split; [assumption | lia] | assumption]. Qed.

Lemma nn_zero : nn d_zero.
Proof. split; [left; exact I | vm_compute; congruence]. Qed.

Ltac span_tac := split; [vm_compute; intuition congruence | vm_compute; congruence].

Lemma span_batch : span MOVE_BATCH_TIME. Proof. span_tac. Qed.
Lemma span_drip : span DRIP_SEGMENT_TIME. Proof. span_tac. Qed.
Lemma span_kin : span MIN_KIN_TIME. Proof. span_tac. Qed.
Lemma span_sds : span SDS_CHECK_TIME. Proof. span_tac. Qed.

(** ** The planner's data *)

Definition data_ok (d : move_data) : Prop := nn (md_accel_t d) /\ nn (md_cruise_t d) /\ nn (md_decel_t d).

(** The times of an append do not depend on the queues. *)
Lemma append_moveq_time kin ext kin' ext' t e e' i n ds :
  (append_moveq kin ext t e i n ds).2 = (append_moveq kin' ext' t e' i n ds).2.
Proof.
  revert kin ext kin' ext' t e e' i. induction ds as [| d ds IH]; intros kin ext kin' ext' t e e' i; [reflexivity |].
  cbn [append_moveq]. destruct (dne _ _), (s32 (i + 1) =? n); try reflexivity; apply IH.
Qed.

Lemma append_moveq_later kin ext t e i n ds : nn t -> Forall data_ok ds ->
  nn (append_moveq kin ext t e i n ds).2 /\ dext t <= dext (append_moveq kin ext t e i n ds).2.
Proof.
  revert kin ext t e i. induction ds as [| d ds IH]; intros kin ext t e i Ht Hds; [split; [exact Ht | reflexivity] |].
  apply Forall_cons in Hds as [(H1 & H2 & H3) Hds]. cbn [append_moveq].
  destruct (nn_add t _ Ht H1) as [N1 B1]. destruct (nn_add _ _ N1 H2) as [N2 B2]. destruct (nn_add _ _ N2 H3) as [N3 B3].
  destruct (dne _ _), (s32 (i + 1) =? n); try (cbn [snd]; split; [exact N3 | lia]);
  match goal with |- context [append_moveq ?k ?x ?t' ?e' ?i' n ds] => destruct (IH k x t' e' i' N3 Hds) as [N4 B4] end;
    (split; [exact N4 | lia]).
Qed.

Lemma append_end_later t ds n : nn t -> Forall data_ok ds -> nn (append_end t ds n) /\ dext t <= dext (append_end t ds n).
Proof. apply append_moveq_later. Qed.

(** The surroundings behave: nothing fails, estimates are numbers, durations
    are not negative. *)
Class HostOk (H : Host) : Prop := {
  no_generator_error : forall l j t, generator_error l j t = false;
  no_mcu_error : forall l j t, mcu_error l j t = false;
  estimate_fin : forall n t, dfin (estimated_print_time n t);
  planner_ok : forall q, Forall data_ok (moveq_data q);
  start_span : span buffer_time_start;
  flush_span : span move_flush_time
}.

Section Times.
Context {H : Host} {HO : HostOk H} (fuel : nat) (i : nat).

(** The calls so far are in order, with the times [g] and [e], and all times
    are numbers. *)
Definition base (g e : double) (s : toolhead) : Prop :=
  check_calls i (th_log s) = Some (g, e)
  /\ (nn g /\ nn e /\ nn (th_print_time s) /\ nn (last_kin_flush_time s) /\ nn (last_kin_move_time s))
  /\ (span (kin_flush_delay s) /\ Forall span (kin_flush_times s))
  /\ ((i < step_generators s)%nat /\ is_Some (extruder_trapq s)).

(** The generators have not run past the window of the print time. *)
Definition behind (g : double) (s : toolhead) : Prop :=
  dext g <= Z.max (dext (last_kin_flush_time s)) (dext (dsub (th_print_time s) (kin_flush_delay s))).

Definition in_main (s : toolhead) : Prop :=
  special_queuing_state s = Main -> dext (last_kin_flush_time s) <= dext (th_print_time s).

Definition core (g e : double) (s : toolhead) : Prop := base g e s /\ behind g s /\ in_main s.

Definition inv (s : toolhead) : Prop :=
  exists g e, core g e s /\ dext e <= dext (th_print_time s) /\ dext e <= dext (last_kin_move_time s).

Definition invx (s : toolhead) : Prop := exists g e, core g e s.
Definition logged (s : toolhead) : Prop := is_Some (check_calls i (th_log s)).

Lemma base_logged g e s : base g e s -> logged s.
Proof. intros (Hb & _). unfold logged. rewrite Hb. eauto. Qed.

Lemma check_calls_snoc l c : check_calls i (l ++ [c]) = check_call i (check_calls i l) c.
Proof. unfold check_calls. by rewrite foldl_app. Qed.

(** *** Generators and micro-controllers *)

Lemma run_generators_run n j t s : run_generators n j t s = (Ok tt, s <| th_log ::= fun l => l ++ ((fun k => Generate k t) <$> seq j n) |>).
Proof.
  revert j s. induction n as [| n IH]; intros j s; cbn [run_generators seq fmap list_fmap].
  - rewrite ret_run. destruct s. cbn. by rewrite app_nil_r.
  - rewrite bind_gets. unfold log. rewrite bind_modify, no_generator_error, IH. destruct s. cbn. by rewrite <- app_assoc.
Qed.

Lemma run_flush_moves_run n j t s : run_flush_moves n j t s = (Ok tt, s <| th_log ::= fun l => l ++ ((fun k => FlushMoves k t) <$> seq j n) |>).
Proof.
  revert j s. induction n as [| n IH]; intros j s; cbn [run_flush_moves seq fmap list_fmap].
  - rewrite ret_run. destruct s. cbn. by rewrite app_nil_r.
  - rewrite bind_gets. unfold log. rewrite bind_modify, no_mcu_error, IH. destruct s. cbn. by rewrite <- app_assoc.
Qed.

Lemma check_generates n j t g e l : nn g -> nn t -> dext g <= dext t -> check_calls i l = Some (g, e) ->
  check_calls i (l ++ ((fun k => Generate k t) <$> seq j n)) = Some (if decide (j <= i < j + n)%nat then t else g, e).
Proof.
  intros [Ng _] [Nt _] Hle. revert j l g Ng Hle. induction n as [| n IH]; intros j l g Ng Hle Hl; cbn [seq fmap list_fmap].
  - rewrite app_nil_r, decide_False by lia. exact Hl.
  - rewrite cons_middle, app_assoc. destruct (decide (j = i)) as [-> | Hne].
    + rewrite (IH (S i) (l ++ [Generate i t]) t Nt ltac:(lia)).
      * rewrite decide_False, decide_True by lia. reflexivity.
      * rewrite check_calls_snoc, Hl. cbn. rewrite Nat.eqb_refl, (proj2 (dle_ext g t Ng Nt) Hle). reflexivity.
    + rewrite (IH (S j) (l ++ [Generate j t]) g Ng Hle).
      * destruct (decide (S j <= i < S j + n)%nat); [rewrite decide_True by lia | rewrite decide_False by lia]; reflexivity.
      * rewrite check_calls_snoc, Hl. cbn. rewrite (proj2 (Nat.eqb_neq j i)) by lia. reflexivity.
Qed.

Lemma check_finalize t g e l : nn g -> dnum t -> dext t <= dext g -> check_calls i l = Some (g, e) ->
  check_calls i (l ++ [FinalizeMoves t]) = Some (g, e).
Proof. intros [Ng _] Nt Hle Hl. rewrite check_calls_snoc, Hl. cbn. by rewrite (proj2 (dle_ext t g Nt Ng) Hle). Qed.

Lemma check_flushes n j t g e l : nn g -> dnum t -> dext t <= dext g -> check_calls i l = Some (g, e) ->
  check_calls i (l ++ ((fun k => FlushMoves k t) <$> seq j n)) = Some (g, e).
Proof.
  intros [Ng Pg] Nt Hle. revert j l. induction n as [| n IH]; intros j l Hl; cbn [seq fmap list_fmap]; [by rewrite app_nil_r |].
  rewrite cons_middle, app_assoc. apply IH. rewrite check_calls_snoc, Hl. cbn. by rewrite (proj2 (dle_ext t g Nt Ng) Hle).
Qed.

(** *** The advance of the print time *)

(** What the loop leaves as it is. *)
Definition kept (s : toolhead) :=
  (last_kin_flush_time s, last_kin_move_time s, kin_flush_delay s, kin_flush_times s, special_queuing_state s, step_generators s).

Lemma move_time_step g e s next :
  base g e s -> behind g s -> nn next -> dext (th_print_time s) <= dext next ->
  let delay := kin_flush_delay s in let lkft := last_kin_flush_time s in
  let t := py_min (dadd (th_print_time s) MOVE_BATCH_TIME) next in
  let sg := py_max lkft (dsub t delay) in
  nn t /\ dext (th_print_time s) <= dext t <= dext next
  /\ nn sg /\ dext g <= dext sg /\ dext sg = Z.max (dext lkft) (dext (dsub t delay))
  /\ (forall d, span d -> dnum (py_max lkft (dsub sg d)) /\ dext (py_max lkft (dsub sg d)) <= dext sg).
Proof.
  intros (_ & (_ & _ & [Np Pp] & [Nl Pl] & _) & ([Fd Pd] & _) & _) Hb [Nx Px] Hle delay lkft t sg. unfold behind in Hb.
  destruct (nn_add (th_print_time s) MOVE_BATCH_TIME (conj Np Pp) (span_nn _ span_batch)) as [[Na Pa] Ba].
  destruct (py_min_spec _ next Na Nx) as [Nt Et]. fold t in Nt, Et.
  destruct (dsub_ext t delay Nt Fd ltac:(lia) Pd) as [Ns Bs].
  destruct (py_max_spec lkft _ Nl Ns) as [Ng Eg]. fold sg in Ng, Eg.
  pose proof (dsub_ext_mono (th_print_time s) t delay Np Nt Fd ltac:(lia) ltac:(lia) Pd) as Hm.
  assert (Psg : 0 <= dext sg) by (unfold lkft in *; lia).
  split; [split; [exact Nt | lia] |]. split; [lia |]. split; [split; [exact Ng | exact Psg] |].
  split; [rewrite Eg; unfold delay, lkft in *; lia |]. split; [exact Eg |].
  intros d [Fdd Pdd]. destruct (dsub_ext sg d Ng Fdd Psg Pdd) as [N1 B1]. destruct (py_max_spec lkft _ Nl N1) as [N2 E2].
  split; [exact N2 | rewrite E2; lia].
Qed.

Lemma move_time_loop_run n next g e s :
  base g e s -> behind g s -> nn next -> dext (th_print_time s) <= dext next ->
  outcome (fun _ s' => exists g', base g' e s' /\ dext (th_print_time s') = dext next
      /\ dext g' = Z.max (dext (last_kin_flush_time s')) (dext (dsub (th_print_time s') (kin_flush_delay s'))) /\ kept s' = kept s)
    (fun _ _ => False) logged (move_time_loop n next (kin_flush_delay s) (last_kin_flush_time s) s).
Proof.
  revert g s. induction n as [| n IH]; intros g s Hb Hg Hn Hle; cbn [move_time_loop]; [exact (base_logged _ _ _ Hb) |].
  destruct (move_time_step g e s next Hb Hg Hn Hle) as (Nt & Bt & Nsg & Bsg & Esg & Hlow).
  set (t := py_min (dadd (th_print_time s) MOVE_BATCH_TIME) next) in *.
  set (sg := py_max (last_kin_flush_time s) (dsub t (kin_flush_delay s))) in *.
  destruct Hb as (Hc & (Ng & Ne & _ & Nl & Nm) & (Sd & St) & (Hi & Hx)).
  rewrite bind_modify, bind_gets. change (th_print_time (s <| th_print_time ::= _ |>)) with t. rewrite bind_gets.
  change (step_generators (s <| th_print_time ::= _ |>)) with (step_generators s). cbv zeta. fold sg.
  rewrite (bind_ok _ _ _ _ _ (run_generators_run _ _ _ _)). unfold finalize_moves, log. rewrite bind_assoc, bind_modify, bind_modify.
  rewrite (bind_ok _ _ _ _ _ (run_flush_moves_run _ _ _ _)).
  match goal with |- outcome _ _ _ ((if _ then _ else _) ?st) => set (s1 := st) end.
  destruct (Hlow _ Sd) as [Nf Bf]. destruct (Hlow _ flush_span) as [Nu Bu].
  assert (Hb1 : base sg e s1).
  { split; [| split; [exact (conj Nsg (conj Ne (conj Nt (conj Nl Nm)))) |]].
    - subst s1. cbn [th_log upd upd_fun]. apply check_flushes; [exact Nsg | exact Nu | exact Bu |].
      apply check_finalize; [exact Nsg | exact Nf | exact Bf |].
      pose proof (check_generates (step_generators s) 0 sg g e (th_log s) Ng Nsg Bsg Hc) as HG.
      rewrite decide_True in HG by lia. exact HG.
    - split; [exact (conj Sd St) |]. split; [exact Hi |]. destruct Hx as [x Hx]. subst s1. cbn. rewrite Hx. eauto. }
  assert (Hk1 : kept s1 = kept s) by reflexivity.
  destruct (dle next t) eqn:E.
  - apply dle_ext in E; [| exact (proj1 Hn) | exact (proj1 Nt)]. exists sg. split; [exact Hb1 |].
    split; [change (th_print_time s1) with t; lia |]. split; [exact Esg | exact Hk1].
  - assert (Hs : kin_flush_delay s1 = kin_flush_delay s /\ last_kin_flush_time s1 = last_kin_flush_time s) by (split; reflexivity).
    destruct Hs as [<- <-]. eapply outcome_mono; [apply (IH sg s1 Hb1) | | auto | auto].
    + unfold behind. change (th_print_time s1) with t. change (kin_flush_delay s1) with (kin_flush_delay s).
      change (last_kin_flush_time s1) with (last_kin_flush_time s). lia.
    + exact Hn.
    + change (th_print_time s1) with t. lia.
    + intros ? s2 (g' & H1 & H2 & H3 & H4). exists g'. rewrite <- Hk1. auto.
Qed.

Lemma update_move_time_run next g e s :
  base g e s -> behind g s -> nn next -> dext (th_print_time s) <= dext next ->
  outcome (fun _ s' => exists g', base g' e s' /\ dext (th_print_time s') = dext next
      /\ dext g' = Z.max (dext (last_kin_flush_time s')) (dext (dsub (th_print_time s') (kin_flush_delay s'))) /\ kept s' = kept s)
    (fun _ _ => False) logged (update_move_time fuel next s).
Proof. intros. unfold update_move_time. rewrite !bind_gets. by apply (move_time_loop_run _ _ g). Qed.

(** The loop ends: each round moves the print time on by a quarter of a second
    at least, so four rounds per second are enough, up to 2^50 seconds. *)
Lemma move_time_loop_returns n next d l s :
  dfin (th_print_time s) -> 0 <= dval (th_print_time s) -> dfin next -> dval (th_print_time s) <= dval next <= 2 ^ 1124 ->
  dval next <= dval (th_print_time s) + Z.of_nat n * 2 ^ 1072 -> (0 < n)%nat ->
  (move_time_loop n next d l s).1 = Ok tt.
Proof.
  revert s. induction n as [| n IH]; intros s Fp Pp Fn Hn Hle H0; [lia |]. cbn [move_time_loop].
  assert (E24 : 2 ^ 1124 <= 2 ^ 1174) by (apply Z.pow_le_mono_r; lia).
  assert (Hfh : dfin MOVE_BATCH_TIME /\ dval MOVE_BATCH_TIME = 2 ^ 1073) by (split; [vm_compute; intuition congruence | vm_compute; reflexivity]).
  destruct Hfh as [Fh Eh]. assert (2 ^ 1073 <= 2 ^ 1174) by (apply Z.pow_le_mono_r; lia).
  destruct (dadd_bound 1174 (th_print_time s) MOVE_BATCH_TIME) as (Fa & Ba & _); [lia | exact Fp | exact Fh | lia | lia |].
  pose proof (dadd_half (th_print_time s) Fp ltac:(lia) Fa) as Hq. change (dadd (th_print_time s) d_half) with (dadd (th_print_time s) MOVE_BATCH_TIME) in Hq.
  rewrite bind_modify, bind_gets, bind_gets. cbv zeta. rewrite (bind_ok _ _ _ _ _ (run_generators_run _ _ _ _)).
  unfold finalize_moves, log. rewrite bind_assoc, bind_modify, bind_modify, (bind_ok _ _ _ _ _ (run_flush_moves_run _ _ _ _)).
  match goal with |- context [(if dle next ?x then _ else _) ?st] => set (s1 := st); set (t := x) end.
  assert (Ht : dfin t /\ dval t = Z.min (dval (dadd (th_print_time s) MOVE_BATCH_TIME)) (dval next)).
  { change t with (py_min (dadd (th_print_time s) MOVE_BATCH_TIME) next). unfold py_min.
    pose proof (dlt_val next _ Fn Fa) as HE. destruct (dlt next _); (split; [assumption |]); [pose proof (proj1 HE eq_refl); lia |].
    destruct (decide (dval next < dval (dadd (th_print_time s) MOVE_BATCH_TIME))) as [Hl |]; [discriminate (proj2 HE Hl) | lia]. }
  destruct Ht as [Ft Et]. pose proof (dle_val next t Fn Ft) as HE. destruct (dle next t); [reflexivity |].
  destruct (decide (dval next <= dval t)) as [Hl | Hg]; [discriminate (proj2 HE Hl) |].
  change (th_print_time s1) with t in *. assert (Z.of_nat (S n) * 2 ^ 1072 = Z.of_nat n * 2 ^ 1072 + 2 ^ 1072) by lia.
  destruct n as [| n]; [exfalso; lia |]. apply IH; [exact Ft | change (th_print_time s1) with t; lia | exact Fn | change (th_print_time s1) with t; lia | change (th_print_time s1) with t; lia | lia].
Qed.

(** The print time may move on. *)
Lemma behind_later g s t : behind g s -> span (kin_flush_delay s) -> nn (th_print_time s) -> nn t -> dext (th_print_time s) <= dext t ->
  behind g (s <| th_print_time := t |>).
Proof.
  intros Hb [Fd Pd] [Np Pp] [Nt _] Hle. unfold behind in *. cbn.
  pose proof (dsub_ext_mono (th_print_time s) t (kin_flush_delay s) Np Nt Fd Pp Hle Pd). lia.
Qed.

(** [_calc_print_time]: the print time is behind the last flush. *)
Lemma calc_print_time_run g e s : base g e s -> behind g s ->
  exists s', calc_print_time s = (Ok tt, s') /\ base g e s' /\ behind g s' /\ kept s' = kept s /\ queue s' = queue s
    /\ dext (th_print_time s) <= dext (th_print_time s') /\ dext (last_kin_flush_time s') <= dext (th_print_time s').
Proof.
  intros (Hc & (Ng & Ne & Np & Nl & Nm) & (Sd & St) & HI) Hb. unfold calc_print_time, read_clock, est_print_time.
  rewrite bind_assoc, bind_gets, bind_assoc, bind_modify, bind_ret, bind_assoc, bind_gets, bind_ret, bind_gets. cbn [id]. cbv zeta.
  set (est := estimated_print_time _ _). set (s1 := s <| th_reads ::= S |>).
  change (th_print_time s1) with (th_print_time s). change (last_kin_flush_time s1) with (last_kin_flush_time s).
  change (kin_flush_delay s1) with (kin_flush_delay s).
  assert (Fe : dfin est) by apply estimate_fin.
  destruct (py_max_spec _ _ (dadd_num est MIN_KIN_TIME Fe span_kin) (proj1 Nl)) as [Nk Ek].
  destruct (nn_add (py_max (dadd est MIN_KIN_TIME) (last_kin_flush_time s)) (kin_flush_delay s)) as [Nt Bt];
    [split; [exact Nk | destruct Nl; lia] | exact (span_nn _ Sd) |].
  destruct (py_max_spec _ _ (dadd_num est buffer_time_start Fe start_span) (proj1 Nt)) as [N2 E2].
  set (mp := py_max (dadd est buffer_time_start) _) in *.
  assert (Nmp : nn mp) by (split; [exact N2 | destruct Nl; lia]).
  pose proof (dlt_ext (th_print_time s) mp (proj1 Np) N2) as HE.
  destruct (dlt (th_print_time s) mp).
  - pose proof (proj1 HE eq_refl). exists (s1 <| th_print_time := mp |>). split; [reflexivity |].
    split; [exact (conj Hc (conj (conj Ng (conj Ne (conj Nmp (conj Nl Nm)))) (conj (conj Sd St) HI))) |].
    split; [apply (behind_later g s1); [exact Hb | exact Sd | exact Np | exact Nmp | change (th_print_time s1) with (th_print_time s); lia] |].
    split; [reflexivity |]. split; [reflexivity |]. cbn. lia.
  - exists s1. split; [reflexivity |]. split; [exact (conj Hc (conj (conj Ng (conj Ne (conj Np (conj Nl Nm)))) (conj (conj Sd St) HI))) |].
    split; [exact Hb |]. split; [reflexivity |]. split; [reflexivity |]. cbn. split; [lia |].
    destruct (decide (dext (th_print_time s) < dext mp)) as [Hlt |]; [discriminate (proj2 HE Hlt) | lia].
Qed.

(** *** Drip moves *)

Definition drip_signal (s : toolhead) (x : string) (s' : toolhead) : Prop :=
  x = "DripModeEndSignal"%string /\ (exists g e, base g e s' /\ behind g s') /\ kept s' = kept s.

Lemma drip_loop_run n next flush_delay g e s :
  base g e s -> behind g s -> nn next -> dext (th_print_time s) <= dext next ->
  outcome (fun _ s' => exists g', base g' e s' /\ behind g' s' /\ dext (th_print_time s') = dext next /\ kept s' = kept s)
    (drip_signal s) logged (drip_loop fuel n next flush_delay s).
Proof.
  revert g s. induction n as [| n IH]; intros g s Hb Hg Hn Hle; cbn [drip_loop]; [exact (base_logged _ _ _ Hb) |].
  pose proof Hb as (_ & (_ & _ & Np & _) & _). rewrite bind_gets. pose proof (dlt_ext (th_print_time s) next (proj1 Np) (proj1 Hn)) as HE.
  destruct (dlt (th_print_time s) next) eqn:E; cbn [negb].
  2: { exists g. split; [exact Hb |]. split; [exact Hg |]. split; [| reflexivity].
       destruct (decide (dext (th_print_time s) < dext next)) as [Hlt |]; [discriminate (proj2 HE Hlt) | lia]. }
  rewrite bind_gets. destruct (drip_test (th_reads s)); [split; [reflexivity |]; split; [eauto | reflexivity] |].
  unfold read_clock, est_print_time. rewrite bind_assoc, bind_gets, bind_assoc, bind_modify, bind_ret, bind_assoc, bind_gets, bind_ret, bind_gets.
  cbv zeta. set (s1 := s <| th_reads ::= S |>). destruct (dlt d_zero _ && can_pause s1).
  - unfold drip_wait. rewrite bind_assoc, bind_gets, bind_assoc, bind_modify.
    destruct (existsb _ _); (eapply outcome_mono; [apply (IH g); [exact Hb | exact Hg | exact Hn | exact Hle] | | | auto]);
      (intros; assumption).
  - destruct (nn_add (th_print_time s) DRIP_SEGMENT_TIME Np (span_nn _ span_drip)) as [Na Ba].
    destruct (py_min_spec _ next (proj1 Na) (proj1 Hn)) as [Nt Et]. destruct Np as [Np Pp].
    eapply outcome_bind; [eapply outcome_mono;
      [apply (update_move_time_run _ g e s1 Hb Hg); [split; [exact Nt | destruct Hn; lia] | change (th_print_time s1) with (th_print_time s); lia] | | | auto] |].
    + intros a s2 Hs2. exact Hs2.
    + contradiction.
    + intros ? s2 (g2 & B2 & P2 & G2 & K2). change (kept s1) with (kept s) in K2. eapply outcome_mono.
      * apply (IH g2 s2 B2); [unfold behind; lia | exact Hn | lia].
      * intros ? s3 (g3 & B3 & G3 & P3 & K3). exists g3. rewrite <- K2. auto.
      * intros x s3 (X1 & X2 & X3). unfold drip_signal. rewrite <- K2. auto.
      * auto.
Qed.

(** *** Processing moves

    [nd]: the state is known not to be that of a drip move. *)
Definition ready (nd : Prop) (s : toolhead) : Prop := inv s /\ (nd -> special_queuing_state s <> Drip).

Definition signal (nd : Prop) (x : string) (s : toolhead) : Prop := ~ nd /\ x = "DripModeEndSignal"%string /\ invx s.

Definition prepared (nd : Prop) (g e : double) (s : toolhead) : Prop :=
  base g e s /\ behind g s /\ dext (last_kin_flush_time s) <= dext (th_print_time s)
  /\ dext e <= dext (th_print_time s) /\ dext e <= dext (last_kin_move_time s) /\ (nd -> special_queuing_state s <> Drip)
  /\ (special_queuing_state s = Main \/ special_queuing_state s = Drip).

Lemma prepare_run nd s : ready nd s ->
  exists s' g e, when (special (special_queuing_state s))
    (when (negb (bool_decide (special_queuing_state s = Drip)))
       (modify (fun s => s <| special_queuing_state := Main |> <| need_check_stall := d_of_Z (-1) |> <| flush_timer := REACTOR_NOW |>)) ;;
     calc_print_time) s = (Ok tt, s') /\ prepared nd g e s'.
Proof.
  intros [(g & e & (Hb & Hg & Hm) & E1 & E2) Hnd]. destruct (special_queuing_state s) eqn:Q; cbn [special when].
  - exists s, g, e. split; [reflexivity |]. unfold prepared. rewrite Q. split_and!; auto.
  - rewrite bool_decide_eq_false_2 by discriminate. cbn [negb when]. rewrite bind_modify.
    match goal with |- context [calc_print_time ?st] => set (s1 := st) end.
    destruct (calc_print_time_run g e s1 Hb Hg) as (s2 & -> & B2 & G2 & K2 & _ & P2 & L2). exists s2, g, e. split; [reflexivity |].
    injection K2 as K1 K2 K3 K4 K5 K6. change (th_print_time s1) with (th_print_time s) in P2. change (last_kin_move_time s1) with (last_kin_move_time s) in K2.
    unfold prepared. rewrite K5, K2. cbn. split_and!; auto; lia.
  - rewrite bool_decide_eq_false_2 by discriminate. cbn [negb when]. rewrite bind_modify.
    match goal with |- context [calc_print_time ?st] => set (s1 := st) end.
    destruct (calc_print_time_run g e s1 Hb Hg) as (s2 & -> & B2 & G2 & K2 & _ & P2 & L2). exists s2, g, e. split; [reflexivity |].
    injection K2 as K1 K2 K3 K4 K5 K6. change (th_print_time s1) with (th_print_time s) in P2. change (last_kin_move_time s1) with (last_kin_move_time s) in K2.
    unfold prepared. rewrite K5, K2. cbn. split_and!; auto; lia.
  - rewrite bool_decide_eq_true_2 by reflexivity. cbn [negb when]. rewrite bind_ret.
    destruct (calc_print_time_run g e s Hb Hg) as (s2 & -> & B2 & G2 & K2 & _ & P2 & L2). exists s2, g, e. split; [reflexivity |].
    injection K2 as K1 K2 K3 K4 K5 K6. unfold prepared. rewrite K5, K2, Q. split_and!; auto; lia.
Qed.

(** After an append: the moves end at [next]. *)
Lemma check_append g e s data n : base g e s -> dext g <= dext (th_print_time s) -> dext e <= dext (th_print_time s) -> Forall data_ok data ->
  let next := append_end (th_print_time s) data n in
  check_calls i (th_log s ++ [AppendMoves (th_print_time s) data n]) = Some (g, next) /\ nn next /\ dext (th_print_time s) <= dext next.
Proof.
  intros (Hc & (Ng & Ne & Np & _) & _) Hg He Hd next. destruct (append_end_later _ data n Np Hd) as [Nn Bn].
  split; [| split; assumption]. rewrite check_calls_snoc, Hc. cbn.
  rewrite (proj2 (dle_ext _ _ (proj1 Ng) (proj1 Np)) Hg), (proj2 (dle_ext _ _ (proj1 Ne) (proj1 Np)) He). reflexivity.
Qed.

(** The end of [_process_moves], behind the append. *)
Lemma process_tail_run nd g next s :
  base g next s -> behind g s -> dext (last_kin_flush_time s) <= dext (th_print_time s) -> dext (th_print_time s) <= dext next ->
  (nd -> special_queuing_state s <> Drip) -> (special_queuing_state s = Main \/ special_queuing_state s = Drip) ->
  outcome (fun _ s' => ready nd s') (signal nd) logged
    ((q ← gets special_queuing_state;
      when (special q) (update_drip_move_time fuel next) ;;
      update_move_time fuel next ;;
      modify (fun s => s <| last_kin_move_time := next |>)) s).
Proof.
  intros Hb Hg Hl Hle Hnd Hq. pose proof Hb as (_ & (_ & Nn & _) & _). rewrite bind_gets.
  assert (Hend : forall g1 s1, base g1 next s1 -> behind g1 s1 -> dext (th_print_time s1) <= dext next ->
    dext (last_kin_flush_time s1) <= dext next -> kept s1 = kept s ->
    outcome (fun _ s' => ready nd s') (signal nd) logged
      ((update_move_time fuel next ;; modify (fun s => s <| last_kin_move_time := next |>)) s1)).
  { intros g1 s1 B1 G1 P1 L1 K1. eapply outcome_bind; [eapply outcome_mono; [exact (update_move_time_run next g1 next s1 B1 G1 Nn P1) | | | auto] |].
    - intros a s2 Hs2. exact Hs2.
    - contradiction.
    - intros ? s2 (g2 & (C2 & (Ng2 & _ & Np2 & Nl2 & _) & S2) & P2 & G2 & K2). rewrite K1 in K2.
      injection K2 as K2a K2b K2c K2d K2e K2f. injection K1 as K1a K1b K1c K1d K1e K1f. rewrite modify_run. split.
      + exists g2, next. split; [| cbn; lia].
        split; [exact (conj C2 (conj (conj Ng2 (conj Nn (conj Np2 (conj Nl2 Nn)))) S2)) |].
        split; [unfold behind; cbn; lia |]. intros _. cbn. rewrite P2, K2a, <- K1a. exact L1.
      + cbn. rewrite K2e. exact Hnd. }
  destruct Hq as [Q | Q]; rewrite Q; cbn [special when].
  - rewrite bind_ret. apply (Hend g); [exact Hb | exact Hg | lia | lia | reflexivity].
  - unfold update_drip_move_time. rewrite bind_assoc, bind_gets.
    eapply outcome_bind; [eapply outcome_mono; [exact (drip_loop_run fuel next _ g next s Hb Hg Nn Hle) | | | auto] |].
    + intros a s2 Hs2. exact Hs2.
    + intros x s2 (-> & (g2 & e2 & B2 & G2) & K2). injection K2 as K2a K2b K2c K2d K2e K2f.
      split; [intros Hn; exact (Hnd Hn Q) |]. split; [reflexivity |]. exists g2, e2. split; [exact B2 |]. split; [exact G2 |].
      intros Hq. rewrite K2e, Q in Hq. discriminate.
    + intros ? s2 (g2 & B2 & G2 & P2 & K2). pose proof K2 as K2'. injection K2' as K2a K2b K2c K2d K2e K2f.
      apply (Hend g2); [exact B2 | exact G2 | lia | rewrite K2a; lia | exact K2].
Qed.

Lemma process_moves_run nd n s : ready nd s ->
  outcome (fun _ s' => ready nd s') (signal nd) logged (process_moves fuel n s).
Proof.
  intros HR. unfold process_moves. rewrite bind_gets. destruct (prepare_run nd s HR) as (s1 & g & e & E1 & HP).
  rewrite (bind_ok _ _ _ _ _ E1), bind_gets. cbn [id]. destruct HP as (Hb & Hg & Hl & He & Hm & Hnd & Hq).
  pose proof Hb as (Hc & (Ng & Ne & Np & Nl & Nm) & (Sd & St) & (Hi & [ext Hx])). rewrite Hx, bind_deref. cbv zeta.
  assert (Hgt : dext g <= dext (th_print_time s1)).
  { destruct (dsub_ext (th_print_time s1) (kin_flush_delay s1) (proj1 Np) (proj1 Sd) (proj2 Np) (proj2 Sd)). unfold behind in Hg. lia. }
  destruct (check_append g e s1 (moveq_data (queue s1).*1) (Z.of_nat n) Hb Hgt He (planner_ok _)) as (CA & NA & BA).
  pose proof (append_moveq_time (th_trapq s1) ext trapq_alloc trapq_alloc (th_print_time s1) no_extrusion no_extrusion 0 (Z.of_nat n)
    (moveq_data (queue s1).*1)) as ET.
  change (append_moveq trapq_alloc trapq_alloc (th_print_time s1) no_extrusion 0 (Z.of_nat n) (moveq_data (queue s1).*1)).2
    with (append_end (th_print_time s1) (moveq_data (queue s1).*1) (Z.of_nat n)) in ET.
  unfold trapq_append_from_moveq. destruct (append_moveq (th_trapq s1) ext _ _ _ _ _) as [[[kin' ext'] e_pos] next]. cbn [snd] in ET. subst next.
  unfold log. rewrite bind_modify, bind_modify.
  match goal with |- outcome _ _ _ ((when ?b ?m ≫= ?k) ?st) =>
    assert (HW : exists s2, when b m st = (Ok tt, s2) /\ (s2 = st \/ s2 = st <| extruder_last_position := e_pos |>))
      by (destruct b; cbn [when]; eexists; (split; [reflexivity | auto])); set (s2 := st) in *
  end.
  destruct HW as (s3 & E3 & Hs3). rewrite (bind_ok _ _ _ _ _ E3).
  assert (HB3 : base g (append_end (th_print_time s1) (moveq_data (queue s1).*1) (Z.of_nat n)) s2).
  { split; [exact CA |]. split; [exact (conj Ng (conj NA (conj Np (conj Nl Nm)))) |]. split; [exact (conj Sd St) |].
    split; [exact Hi | eexists; reflexivity]. }
  destruct Hs3 as [-> | ->]; (apply (process_tail_run nd g); [exact HB3 | exact Hg | exact Hl | exact BA | exact Hnd | exact Hq]).
Qed.

Lemma movequeue_flush_run nd lazy s : ready nd s -> outcome (fun _ s' => ready nd s') (signal nd) logged (movequeue_flush fuel lazy s).
Proof.
  intros HR. unfold movequeue_flush, set_flush_time. rewrite bind_modify, bind_gets.
  set (s1 := s <| junction_flush := _ |>). change (ready nd s1) in HR. destruct (queue s1) as [| q0 qs]; [exact HR |].
  cbv zeta. destruct (negb _); cbn [when]; [| exact HR]. eapply outcome_bind; [exact (process_moves_run nd _ s1 HR) |].
  intros ? s2 HR2. exact HR2.
Qed.

(** *** Flushing everything *)

(** All that was appended has been generated, up to the last flush. *)
Definition flushed (s : toolhead) : Prop :=
  exists g e, base g e s /\ dext g = dext (last_kin_flush_time s) /\ dext e <= dext g
    /\ dext e <= dext (last_kin_move_time s) /\ dext (last_kin_flush_time s) <= dext (th_print_time s)
    /\ special_queuing_state s = Flushed.

Lemma flushed_ready nd s : flushed s -> ready nd s.
Proof.
  intros (g & e & Hb & Hg & He & Hm & Hl & Hq). split; [| rewrite Hq; discriminate]. exists g, e.
  split; [split; [exact Hb |]; split; [unfold behind; lia | intros Q; rewrite Hq in Q; discriminate] | lia].
Qed.

Lemma flush_step_generation_run nd s : ready nd s ->
  outcome (fun _ s' => flushed s') (signal nd) logged (flush_step_generation fuel s).
Proof.
  intros HR. unfold flush_step_generation. eapply outcome_bind; [exact (movequeue_flush_run nd false s HR) |].
  intros ? s1 [(g & e & (Hb & Hg & _) & E1 & E2) _]. unfold set_flush_time. rewrite bind_modify, bind_modify, bind_modify, bind_gets. cbn [id].
  match goal with |- context [last_kin_move_time ?st] => set (s2 := st) end.
  pose proof Hb as (Hc & (Ng & Ne & Np & Nl & Nm) & (Sd & St) & HI). cbv zeta. rewrite bind_modify, bind_gets. cbn [id].
  destruct (nn_add (last_kin_move_time s2) (kin_flush_delay s2) Nm (span_nn _ Sd)) as [Na Ba].
  destruct (dsub_ext (th_print_time s2) (kin_flush_delay s2) (proj1 Np) (proj1 Sd) (proj2 Np) (proj2 Sd)) as [Ns Bs].
  destruct (py_max_spec _ _ (proj1 Na) Ns) as [Nf Ef]. set (f := py_max (dadd _ _) _) in *.
  destruct (py_max_spec (last_kin_flush_time s2) f (proj1 Nl) Nf) as [Nw Ew].
  set (s3 := s2 <| last_kin_flush_time ::= _ |>). set (l := py_max (last_kin_flush_time s2) f) in *.
  change (last_kin_flush_time s3) with l. change (th_print_time s3) with (th_print_time s2).
  destruct (py_max_spec (th_print_time s2) l (proj1 Np) Nw) as [Nt Et].
  change (th_print_time s1) with (th_print_time s2) in E1. change (last_kin_move_time s1) with (last_kin_move_time s2) in E2.
  unfold behind in Hg. change (last_kin_flush_time s1) with (last_kin_flush_time s2) in Hg.
  change (th_print_time s1) with (th_print_time s2) in Hg. change (kin_flush_delay s1) with (kin_flush_delay s2) in Hg.
  assert (Nl3 : nn l) by (split; [exact Nw | destruct Nl as [_ ?]; change (last_kin_flush_time s1) with (last_kin_flush_time s2) in *; lia]).
  assert (Hb3 : base g e s3) by exact (conj Hc (conj (conj Ng (conj Ne (conj Np (conj Nl3 Nm)))) (conj (conj Sd St) HI))).
  eapply outcome_mono; [apply (update_move_time_run (py_max (th_print_time s2) l) g e s3 Hb3) | | contradiction | auto].
  - unfold behind. change (last_kin_flush_time s3) with l. lia.
  - split; [exact Nt | destruct Nl3; lia].
  - change (th_print_time s3) with (th_print_time s2). lia.
  - intros ? s4 (g4 & B4 & P4 & G4 & K4). injection K4 as K4a K4b K4c K4d K4e K4f.
    assert (Hd : dext (dsub (th_print_time s4) (kin_flush_delay s4)) <= dext l).
    { rewrite K4c. change (kin_flush_delay s1) with (kin_flush_delay s2). pose proof B4 as (_ & (_ & _ & Np4 & _) & _).
      destruct (decide (dext (th_print_time s2) <= dext l)) as [Hle | Hgt].
      - destruct (dsub_ext (th_print_time s4) (kin_flush_delay s2) (proj1 Np4) (proj1 Sd) (proj2 Np4) (proj2 Sd)). lia.
      - pose proof (dsub_ext_mono (th_print_time s4) (th_print_time s2) (kin_flush_delay s2) (proj1 Np4) (proj1 Np) (proj1 Sd)
          (proj2 Np4) ltac:(lia) (proj2 Sd)). lia. }
    change (py_max (last_kin_flush_time s1) f) with l in K4a. rewrite K4a in G4.
    exists g4, e. split; [exact B4 |]. rewrite K4a, K4b. change (last_kin_move_time s1) with (last_kin_move_time s2).
    split; [lia |]. split; [lia |]. split; [lia |]. split; [lia |]. exact K4e.
Qed.

Lemma flush_lookahead_run nd s : ready nd s -> outcome (fun _ s' => ready nd s') (signal nd) logged (flush_lookahead fuel s).
Proof.
  intros HR. unfold flush_lookahead. rewrite bind_gets. destruct (special _).
  - eapply outcome_mono; [exact (flush_step_generation_run nd s HR) | | auto | auto]. intros ? s' Hs'. by apply flushed_ready.
  - exact (movequeue_flush_run nd false s HR).
Qed.

Lemma calc_ready nd s : ready nd s -> exists s', calc_print_time s = (Ok tt, s') /\ ready nd s'.
Proof.
  intros [(g & e & (Hb & Hg & Hm) & E1 & E2) Hnd]. destruct (calc_print_time_run g e s Hb Hg) as (s2 & -> & B2 & G2 & K2 & _ & P2 & L2).
  exists s2. split; [reflexivity |]. injection K2 as K1 K2 K3 K4 K5 K6. split; [| rewrite K5; exact Hnd]. exists g, e.
  split; [split; [exact B2 |]; split; [exact G2 | intros _; exact L2] | rewrite K2; lia].
Qed.

Lemma get_last_move_time_run nd s : ready nd s ->
  outcome (fun t s' => ready nd s' /\ t = th_print_time s') (signal nd) logged (get_last_move_time fuel s).
Proof.
  intros HR. unfold get_last_move_time. eapply outcome_bind; [exact (flush_lookahead_run nd s HR) |]. intros ? s1 HR1. rewrite bind_gets.
  destruct (special _); cbn [when]; [| rewrite bind_ret; split; [exact HR1 | reflexivity]].
  destruct (calc_ready nd s1 HR1) as (s2 & E2 & HR2). rewrite (bind_ok _ _ _ _ _ E2). split; [exact HR2 | reflexivity].
Qed.

(** *** The flush timer, pauses and stalls *)

Lemma ready_any nd s : ready True s -> ready nd s.
Proof. intros [Hi Hd]. split; [exact Hi | intros _; exact (Hd I)]. Qed.

Lemma flush_handler_run t s : ready True s -> outcome (fun _ s' => ready True s') (fun _ _ => False) logged (flush_handler fuel t s).
Proof.
  intros HR. unfold flush_handler, py_catch_all.
  match goal with |- outcome _ _ _ (match ?m s with _ => _ end) =>
    assert (HM : outcome (fun _ s' => ready True s') (fun _ _ => False) logged (m s)) end.
  { unfold est_print_time. rewrite bind_gets, bind_assoc, bind_gets, bind_ret. cbv zeta. destruct (dlt _ _); [exact HR |].
    eapply outcome_bind; [eapply outcome_mono; [exact (flush_step_generation_run True s HR) | | | auto] |].
    - intros a s1 Hs1. exact Hs1.
    - intros x s1 [Hn _]. exact (Hn I).
    - intros ? s1 Hs1. apply (flushed_ready True) in Hs1. rewrite bind_gets. destruct (negb _); cbn [when]; exact Hs1. }
  match goal with |- outcome _ _ _ (match ?m s with _ => _ end) => destruct (m s) as [[] ?] end; (exact HM || contradiction).
Qed.

Lemma check_flush_timer_run t s : ready True s -> outcome (fun _ s' => ready True s') (fun _ _ => False) logged (check_flush_timer fuel t s).
Proof.
  intros HR. unfold check_flush_timer. rewrite bind_gets. destruct (dle _ _); cbn [when]; [| exact HR]. rewrite bind_modify.
  eapply outcome_bind; [apply flush_handler_run; exact HR |]. intros w s1 HR1. exact HR1.
Qed.

Lemma run_pause_events_run l s : ready True s -> outcome (fun _ s' => ready True s') (fun _ _ => False) logged (run_pause_events fuel l s).
Proof.
  revert s. induction l as [| [t |] l IH]; intros s HR; cbn [run_pause_events]; [exact HR | |].
  - eapply outcome_bind; [exact (check_flush_timer_run t s HR) |]. intros ? s1 HR1. exact (IH s1 HR1).
  - unfold handle_shutdown, queue_reset. rewrite bind_assoc, bind_modify, bind_modify. apply IH. exact HR.
Qed.

Lemma pause_run s : ready True s -> outcome (fun _ s' => ready True s') (fun _ _ => False) logged (pause fuel s).
Proof.
  intros HR. unfold pause. rewrite bind_gets. eapply outcome_bind; [exact (run_pause_events_run _ s HR) |]. intros ? s1 HR1. exact HR1.
Qed.

Lemma stall_loop_run n t s : ready True s -> outcome (fun _ s' => ready True s') (fun _ _ => False) logged (stall_loop fuel n t s).
Proof.
  revert t s. induction n as [| n IH]; intros t s HR; cbn [stall_loop].
  - destruct HR as [(g & e & (Hb & _) & _) _]. exact (base_logged _ _ _ Hb).
  - unfold est_print_time. rewrite bind_assoc, bind_gets, bind_ret, bind_gets. cbv zeta. destruct (dle _ _); [exact HR |].
    rewrite bind_gets. destruct (negb (can_pause s)); [exact HR |].
    eapply outcome_bind; [exact (pause_run s HR) |]. intros t' s1 HR1. exact (IH t' s1 HR1).
Qed.

Lemma check_stall_run s : ready False s -> outcome (fun _ s' => ready True s') (fun _ _ => False) logged (check_stall fuel s).
Proof.
  intros HR. unfold check_stall, read_clock. rewrite bind_assoc, bind_gets, bind_assoc, bind_modify, bind_ret, bind_gets.
  set (s1 := s <| th_reads ::= S |>).
  match goal with |- outcome _ _ _ ((?m ≫= ?k) s1) => assert (HM : exists s2, m s1 = (Ok tt, s2) /\ ready True s2) end.
  { destruct HR as [(g & e & (Hb & Hg & Hm) & HE) _]. destruct (special (special_queuing_state s1)) eqn:Q; cbn [when].
    - rewrite bind_gets. unfold est_print_time. destruct (d_truth _); cbn [when].
      + rewrite bind_assoc, bind_assoc, bind_gets, bind_ret, bind_assoc. destruct (dlt _ _); cbn [when];
          (eexists; split; [reflexivity |]; split; [| discriminate]; exists g, e; split; [split; [exact Hb |]; split; [exact Hg | discriminate] | exact HE]).
      + rewrite bind_ret. eexists. split; [reflexivity |]. split; [| discriminate]. exists g, e.
        split; [split; [exact Hb |]; split; [exact Hg | discriminate] | exact HE].
    - exists s1. split; [reflexivity |]. split; [| intros _ E; rewrite E in Q; discriminate]. exists g, e. exact (conj (conj Hb (conj Hg Hm)) HE). }
  destruct HM as (s2 & E2 & HR2). rewrite (bind_ok _ _ _ _ _ E2).
  eapply outcome_bind; [exact (stall_loop_run fuel _ s2 HR2) |]. intros r s3 HR3. destruct r as [est |]; [| exact HR3].
  rewrite bind_gets. destruct (negb _); exact HR3.
Qed.

(** *** Moves *)

Definition refused (nd : Prop) (x : string) (s : toolhead) : Prop := (x = "command_error"%string /\ ready nd s) \/ signal nd x s.

Lemma movequeue_add_run nd m s : ready nd s -> outcome (fun _ s' => ready nd s') (signal nd) logged (movequeue_add fuel m s).
Proof.
  intros HR. unfold movequeue_add. rewrite bind_modify, bind_gets. destruct (_ =? 1)%nat; [exact HR |].
  rewrite bind_modify, bind_gets. destruct (dle _ _); cbn [when]; [| exact HR]. apply movequeue_flush_run. exact HR.
Qed.

Lemma toolhead_move_run nd pos e speed s : ready nd s -> outcome (fun _ s' => ready nd s') (refused nd) logged (toolhead_move fuel pos e speed s).
Proof.
  intros HR. unfold toolhead_move. rewrite bind_gets. cbv zeta. rewrite bind_modify.
  set (code := move_result _ _ _ _). destruct ((code =? -4) || (code =? -3) || (code =? -1)); [exact HR |].
  destruct ((code =? -2) || (code =? -5) || (code =? -6)); [left; split; [reflexivity | exact HR] |].
  set (s1 := s <| th_moves ::= S |>). change (ready nd s1) in HR. clearbody s1.
  assert (HM : exists s2, (when (code =? 0) (modify (fun s => s <| commanded_xyz := pos |> <| commanded_e := e |>)) ;;
    when (code =? 1) (modify (fun s => s <| commanded_e := e |>))) s1 = (Ok tt, s2) /\ ready nd s2).
  { destruct (code =? 0), (code =? 1); (eexists; split; [reflexivity | exact HR]). }
  destruct HM as (s2 & E2 & HR2). rewrite <- bind_assoc, (bind_ok _ _ _ _ _ E2).
  eapply outcome_bind; [eapply outcome_mono; [exact (movequeue_add_run nd _ s2 HR2) | | | auto] |].
  - intros a s3 HR3. exact HR3.
  - intros x s3 HX. by right.
  - intros ? s3 HR3. rewrite bind_gets. destruct (dlt _ _); cbn [when]; [| exact HR3].
    eapply outcome_mono; [apply check_stall_run | | contradiction | auto].
    + destruct HR3 as [HI3 _]. split; [exact HI3 | contradiction].
    + intros ? s4 HR4. exact (ready_any nd s4 HR4).
Qed.

Lemma outcome_catch {A} (Q : A -> toolhead -> Prop) (X X' : string -> toolhead -> Prop) W name (m h : TH A) s :
  outcome Q X W (m s) -> (forall s', X name s' -> outcome Q X' W (h s')) ->
  (forall x s', x <> name -> X x s' -> X' x s') -> outcome Q X' W (py_catch name m h s).
Proof.
  intros Hm Hh Hx. unfold py_catch. destruct (m s) as [[a | x | |] s']; try exact Hm. cbn in Hm.
  destruct (decide (x = name)) as [-> | Hne]; [exact (Hh s' Hm) | exact (Hx x s' Hne Hm)].
Qed.

(** How a command ends: a refusal leaves everything in order. *)
Definition op_exception (x : string) (s : toolhead) : Prop :=
  (x = "command_error"%string /\ ready True s) \/ (x <> "command_error"%string /\ logged s).

Lemma invx_logged s : invx s -> logged s.
Proof. intros (g & e & Hb & _). exact (base_logged _ _ _ Hb). Qed.

Lemma signal_op nd x s : signal nd x s -> op_exception x s.
Proof. intros (_ & -> & Hi). right. split; [discriminate | by apply invx_logged]. Qed.

Lemma py_max_later x y : nn x -> dvalid y -> nn (py_max x y) /\ dext x <= dext (py_max x y).
Proof.
  intros [Nx Px] Vy. unfold py_max. destruct (dlt x y) eqn:E; [| split; [split; assumption | lia]].
  assert (Ny : dnum y).
  { destruct y as [s | [] | | s m e]; [by left | | by right | | by left]; destruct Nx as [Fx | ->]; try discriminate;
      destruct x as [| | | []]; try destruct Fx; discriminate. }
  apply dlt_ext in E; [| assumption | assumption]. split; [split; [assumption | lia] | lia].
Qed.

Lemma dwell_run delay s : dvalid delay -> ready True s -> outcome (fun _ s' => ready True s') (fun _ _ => False) logged (dwell fuel delay s).
Proof.
  intros Hd HR. unfold dwell. eapply outcome_bind; [eapply outcome_mono; [exact (get_last_move_time_run True s HR) | | | auto] |].
  - intros t s1 Hs1. exact Hs1.
  - intros x s1 [Hn _]. exact (Hn I).
  - intros t s1 [[(g & e & (Hb & Hg & Hm) & E1 & E2) Hnd] ->]. pose proof Hb as (_ & (_ & _ & Np & _) & _).
    destruct (py_max_later d_zero delay nn_zero Hd) as [Nd _]. destruct (nn_add (th_print_time s1) (py_max d_zero delay) Np Nd) as [Nt Bt].
    eapply outcome_bind; [eapply outcome_mono; [exact (update_move_time_run _ g e s1 Hb Hg Nt Bt) | | contradiction | auto] |].
    + intros a s2 Hs2. exact Hs2.
    + intros ? s2 (g2 & B2 & P2 & G2 & K2). injection K2 as K2a K2b K2c K2d K2e K2f. apply check_stall_run. split; [| contradiction].
      exists g2, e. split; [split; [exact B2 |]; split; [unfold behind; lia |] | rewrite K2b; lia].
      intros Q. rewrite K2e in Q. specialize (Hm Q). rewrite K2a. lia.
Qed.

Lemma wait_loop_run n t s : ready True s -> outcome (fun _ s' => ready True s') (fun _ _ => False) logged (wait_loop fuel n t s).
Proof.
  revert t s. induction n as [| n IH]; intros t s HR; cbn [wait_loop].
  - apply invx_logged. destruct HR as [(g & e & Hc & _) _]. by exists g, e.
  - rewrite bind_gets. unfold est_print_time. rewrite bind_assoc, bind_gets, bind_ret. cbn [id]. destruct (_ || _); [| exact HR].
    destruct (negb (can_pause s)); [exact HR |]. eapply outcome_bind; [exact (pause_run s HR) |]. intros t' s1 HR1. exact (IH t' s1 HR1).
Qed.

Lemma wait_moves_run s : ready True s -> outcome (fun _ s' => ready True s') (fun _ _ => False) logged (wait_moves fuel s).
Proof.
  intros HR. unfold wait_moves. eapply outcome_bind; [eapply outcome_mono; [exact (flush_lookahead_run True s HR) | | | auto] |].
  - intros a s1 HR1. exact HR1.
  - intros x s1 [Hn _]. exact (Hn I).
  - intros ? s1 HR1. unfold read_clock. rewrite bind_assoc, bind_gets, bind_assoc, bind_modify, bind_ret. apply wait_loop_run. exact HR1.
Qed.

Lemma set_position_run pos e0 s : ready True s -> outcome (fun _ s' => ready True s') (fun _ _ => False) logged (set_position fuel pos e0 s).
Proof.
  intros HR. unfold set_position. eapply outcome_bind; [eapply outcome_mono; [exact (flush_step_generation_run True s HR) | | | auto] |].
  - intros a s1 Hs1. exact Hs1.
  - intros x s1 [Hn _]. exact (Hn I).
  - intros ? s1 (g & e & (Hc & (Ng & Ne & Np & Nl & Nm) & HS) & G1 & G2 & G3 & G4 & G5). unfold log. rewrite bind_gets, bind_modify, modify_run.
    apply flushed_ready. exists g, d_zero. assert (dext d_zero = 0) as HZ by reflexivity. split; [split |].
    + cbn [th_log upd upd_fun]. rewrite check_calls_snoc, Hc. cbn. rewrite (proj2 (dle_ext e g (proj1 Ne) (proj1 Ng)) G2). reflexivity.
    + split; [exact (conj Ng (conj nn_zero (conj Np (conj Nl Nm)))) | exact HS].
    + rewrite HZ. split; [exact G1 |]. split; [exact (proj2 Ng) |]. split; [exact (proj2 Nm) |]. split; [exact G4 | exact G5].
Qed.

(** An aborted drip move takes back what was appended. *)
Lemma discard_run s : invx s -> exists s', (queue_reset ;;
    modify (fun s => s <| th_trapq ::= fun tq => trapq_finalize_moves tq REACTOR_NEVER |>) ;; log Discard) s = (Ok tt, s') /\ ready False s'.
Proof.
  intros (g & e & (Hc & (Ng & Ne & Np & Nl & Nm) & HS) & Hg & Hm). unfold queue_reset, log. rewrite bind_modify, bind_modify, modify_run.
  eexists. split; [reflexivity |]. split; [| contradiction]. exists g, d_zero. assert (dext d_zero = 0) as HZ by reflexivity.
  split; [split; [split |]; [| | split; [exact Hg | exact Hm]] | rewrite HZ; exact (conj (proj2 Np) (proj2 Nm))].
  - cbn [th_log upd upd_fun]. rewrite check_calls_snoc, Hc. reflexivity.
  - split; [exact (conj Ng (conj nn_zero (conj Np (conj Nl Nm)))) | exact HS].
Qed.

Lemma drip_move_run pos e0 speed s : ready True s -> outcome (fun _ s' => ready True s') op_exception logged (drip_move fuel pos e0 speed s).
Proof.
  intros HR. unfold drip_move. rewrite bind_gets.
  assert (Hd : dvalid (kin_flush_delay s)) by (destruct HR as [(g & e & ((_ & _ & ([Fd _] & _) & _) & _) & _) _]; by apply dfin_valid).
  eapply outcome_bind; [eapply outcome_mono; [exact (dwell_run _ s Hd HR) | | contradiction | auto] |]; [intros a s1 HR1; exact HR1 |].
  intros ? s1 HR1. eapply outcome_bind; [eapply outcome_mono; [exact (movequeue_flush_run True false s1 HR1) | | | auto] |].
  { intros ? s2 HR2. exact HR2. } { intros x s2 HX. exact (signal_op _ _ _ HX). }
  intros ? s2 [(g & e & (Hb & Hg & Hm) & HE) _]. unfold set_flush_time. rewrite bind_modify, bind_modify, bind_modify.
  match goal with |- outcome _ _ _ (_ ?st) => set (s3 := st) end.
  assert (HR3 : ready False s3) by (split; [exists g, e; split; [split; [exact Hb |]; split; [exact Hg | discriminate] | exact HE] | contradiction]).
  eapply outcome_bind; [eapply (outcome_catch (fun _ s' => ready False s')); [exact (toolhead_move_run False _ _ _ s3 HR3) | |] |].
  - intros s4 [[_ HR4] | (_ & HX & _)]; [| discriminate]. eapply outcome_bind.
    + eapply outcome_mono; [exact (flush_step_generation_run False s4 HR4) | | | auto]; [intros ? s5 Hs5; exact Hs5 | intros x s5 HX; exact (signal_op _ _ _ HX)].
    + intros ? s5 Hs5. left. split; [reflexivity | by apply flushed_ready].
  - intros x s4 Hne [[-> _] | HX]; [contradiction | exact (signal_op _ _ _ HX)].
  - intros ? s4 HR4. eapply outcome_bind; [eapply (outcome_catch (fun _ s' => ready False s')); [exact (movequeue_flush_run False false s4 HR4) | |] |].
    + intros s5 (_ & _ & HI). destruct (discard_run s5 HI) as (s6 & -> & HR6). exact HR6.
    + intros x s5 Hne (_ & -> & _). contradiction.
    + intros ? s5 HR5. eapply outcome_mono; [exact (flush_step_generation_run False s5 HR5) | | | auto].
      * intros ? s6 Hs6. by apply flushed_ready.
      * intros x s6 HX. exact (signal_op _ _ _ HX).
Qed.

(** *** Commands *)

Definition op_valid (op : th_op) : Prop :=
  match op with
  | ODwell delay => dvalid delay
  | OScanTime delay _ => span delay
  | OActivity t => dvalid t
  | _ => True
  end.

Definition op_result {A} (p : res A * toolhead) : Prop :=
  match p with
  | (Ok _, s) => ready True s
  | (Shut x, s) => op_exception x s
  | (_, s) => logged s
  end.

Lemma outcome_op {A} (Q : A -> toolhead -> Prop) (X : string -> toolhead -> Prop) p :
  outcome Q X logged p -> (forall a s, Q a s -> ready True s) -> (forall x s, X x s -> op_exception x s) -> op_result p.
Proof. intros Hp HQ HX. destruct p as [[a | x | |] s]; cbn in *; [exact (HQ a s Hp) | exact (HX x s Hp) | contradiction | exact Hp]. Qed.

Lemma py_remove_span x l l' : Forall span l -> py_remove x l = Some l' -> Forall span l'.
Proof.
  revert l'. induction l as [| y l IH]; intros l' Hl; cbn [py_remove]; [discriminate |]. apply Forall_cons in Hl as [Hy Hl].
  destruct (deq y x); [intros [= <-]; exact Hl |]. destruct (py_remove x l) as [l1 |]; [| discriminate]. intros [= <-].
  constructor; [exact Hy | exact (IH l1 Hl eq_refl)].
Qed.

Lemma foldl_max_span x l : span x -> Forall span l -> span (foldl py_max x l).
Proof.
  revert x. induction l as [| y l IH]; intros x Hx Hl; [exact Hx |]. apply Forall_cons in Hl as [Hy Hl]. cbn [foldl].
  apply IH; [| exact Hl]. unfold py_max. destruct (dlt x y); assumption.
Qed.

Lemma scan_times_span l : Forall span l -> span (match l ++ [SDS_CHECK_TIME] with [] => d_zero | x :: l => foldl py_max x l end).
Proof.
  intros Hl. assert (Hs : Forall span (l ++ [SDS_CHECK_TIME])) by (apply Forall_app; split; [exact Hl | repeat constructor; apply span_sds]).
  destruct (l ++ [SDS_CHECK_TIME]) as [| x l']; [span_tac |]. apply Forall_cons in Hs as [Hx Hl']. by apply foldl_max_span.
Qed.

(** Changing the window once everything is flushed. *)
Lemma flushed_times s l : flushed s -> Forall span l -> flushed (s <| kin_flush_times := l |>).
Proof.
  intros (g & e & (Hc & HN & (Sd & _) & HI) & HF) Hl. exists g, e. split; [exact (conj Hc (conj HN (conj (conj Sd Hl) HI))) | exact HF].
Qed.

Lemma flushed_delay s d : flushed s -> span d -> flushed (s <| kin_flush_delay := d |>).
Proof.
  intros (g & e & (Hc & HN & (_ & St) & HI) & HF) Hd. exists g, e. split; [exact (conj Hc (conj HN (conj (conj Hd St) HI))) | exact HF].
Qed.

Lemma flushed_spans s : flushed s -> Forall span (kin_flush_times s).
Proof. intros (g & e & (_ & _ & (_ & St) & _) & _). exact St. Qed.

Lemma scan_time_run delay old s : span delay -> ready True s -> op_result (note_step_generation_scan_time fuel delay old s).
Proof.
  intros Hd HR. unfold note_step_generation_scan_time.
  pose proof (flush_step_generation_run True s HR) as HF. unfold mbind at 1, M_bind at 1.
  destruct (flush_step_generation fuel s) as [[[] | x | |] s1]; cbn in HF; [| destruct HF as [Hn _]; destruct (Hn I) | contradiction | exact HF].
  assert (Hend : forall s2, flushed s2 -> op_result ((when (d_truth delay) (modify (fun s => s <| kin_flush_times ::= fun l => l ++ [delay] |>)) ;;
    l ← gets kin_flush_times; modify (fun s => s <| kin_flush_delay := match l ++ [SDS_CHECK_TIME] with [] => d_zero | x :: l => foldl py_max x l end |>)) s2)).
  { intros s2 F2. destruct (d_truth delay); cbn [when].
    - rewrite bind_modify, bind_gets, modify_run. cbn [op_result]. apply flushed_ready.
      assert (F3 : flushed (s2 <| kin_flush_times ::= fun l => l ++ [delay] |>)).
      { apply (flushed_times s2 (kin_flush_times s2 ++ [delay]) F2). apply Forall_app. split; [exact (flushed_spans _ F2) | constructor; [exact Hd | constructor]]. }
      apply flushed_delay; [exact F3 |]. apply scan_times_span. exact (flushed_spans _ F3).
    - rewrite bind_ret, bind_gets, modify_run. cbn [op_result]. apply flushed_ready. apply flushed_delay; [exact F2 |].
      apply scan_times_span. exact (flushed_spans _ F2). }
  destruct (d_truth old); cbn [when]; [| rewrite bind_ret; exact (Hend s1 HF)].
  rewrite bind_assoc, bind_gets, bind_assoc. destruct (py_remove old (kin_flush_times s1)) as [l |] eqn:E.
  - rewrite bind_deref, bind_modify. apply Hend, flushed_times; [exact HF |]. exact (py_remove_span _ _ _ (flushed_spans _ HF) E).
  - change (logged s1). apply invx_logged. destruct (flushed_ready True s1 HF) as [(g & e & Hc & _) _]. by exists g, e.
Qed.

Lemma callback_run cb s : ready True s -> outcome (fun _ s' => ready True s') (fun _ _ => False) logged (register_lookahead_callback fuel cb s).
Proof.
  intros HR. unfold register_lookahead_callback. rewrite bind_gets. destruct (rev (queue s)) as [| [m cbs] rest]; [| exact HR].
  eapply outcome_bind; [eapply outcome_mono; [exact (get_last_move_time_run True s HR) | | | auto] |].
  - intros t s1 Hs1. exact Hs1.
  - intros x s1 [Hn _]. exact (Hn I).
  - intros t s1 [HR1 _]. exact HR1.
Qed.

Lemma activity_run t s : dvalid t -> ready True s -> ready True (s <| last_kin_move_time ::= fun l => py_max l t |>).
Proof.
  intros Ht [(g & e & ((Hc & (Ng & Ne & Np & Nl & Nm) & HS) & Hg & Hm) & E1 & E2) Hnd].
  destruct (py_max_later _ t Nm Ht) as [Nn Bn]. split; [| exact Hnd]. exists g, e.
  split; [split; [exact (conj Hc (conj (conj Ng (conj Ne (conj Np (conj Nl Nn)))) HS)) | exact (conj Hg Hm)] | cbn; lia].
Qed.

Lemma register_run s : ready True s -> ready True (s <| step_generators ::= S |>).
Proof.
  intros [(g & e & ((Hc & HN & HS & (Hi & Hx)) & Hg) & HE) Hnd]. split; [| exact Hnd]. exists g, e.
  split; [split; [exact (conj Hc (conj HN (conj HS (conj (Nat.lt_lt_succ_r _ _ Hi) Hx)))) | exact Hg] | exact HE].
Qed.

Lemma run_op_run op s : op_valid op -> ready True s -> op_result (run_op fuel op s).
Proof.
  intros Hv HR. assert (Hno : forall (x : string) (s : toolhead), False -> op_exception x s) by contradiction.
  destruct op; cbn [run_op op_valid] in *.
  - eapply outcome_op; [exact (toolhead_move_run True _ _ _ s HR) | auto |]. intros x s' [HX | HX]; [by left | exact (signal_op _ _ _ HX)].
  - eapply outcome_op; [exact (dwell_run _ s Hv HR) | auto | exact Hno].
  - eapply outcome_op; [exact (wait_moves_run s HR) | auto | exact Hno].
  - eapply (outcome_op (fun _ s' => ready True s')); [eapply outcome_bind; [exact (get_last_move_time_run True s HR) |] | auto |].
    + intros t s' [HR' _]. exact HR'.
    + intros x s' HX. exact (signal_op _ _ _ HX).
  - eapply outcome_op; [exact (set_position_run _ _ s HR) | auto | exact Hno].
  - eapply outcome_op; [exact (drip_move_run _ _ _ s HR) | auto | auto].
  - eapply outcome_op; [exact (flush_step_generation_run True s HR) | intros a s'; apply flushed_ready | intros x s' HX; exact (signal_op _ _ _ HX)].
  - exact (scan_time_run _ _ s Hv HR).
  - exact (activity_run _ s Hv HR).
  - eapply outcome_op; [exact (callback_run _ s HR) | auto | exact Hno].
  - exact (register_run s HR).
  - eapply outcome_op; [exact (run_pause_events_run _ s HR) | auto | exact Hno].
Qed.

Lemma ready_logged nd s : ready nd s -> logged s.
Proof. intros [(g & e & Hc & _) _]. apply invx_logged. by exists g, e. Qed.

Lemma run_ops_run ops s : Forall op_valid ops -> ready True s -> logged (run_ops fuel ops s).2.
Proof.
  revert s. induction ops as [| op ops IH]; intros s Hv HR; [exact (ready_logged _ _ HR) |]. apply Forall_cons in Hv as [Hop Hv].
  cbn [run_ops]. pose proof (run_op_run op s Hop HR) as HO1. unfold mbind, M_bind, py_catch. destruct (run_op fuel op s) as [[a | x | w |] s1]; cbn in HO1.
  - exact (IH s1 Hv HO1).
  - destruct HO1 as [[-> HR1] | [Hne HL]]; [rewrite decide_True by reflexivity; exact (IH s1 Hv HR1) |].
    rewrite decide_False by exact Hne. exact HL.
  - exact HO1.
  - exact HO1.
Qed.

Lemma init_ready n : (i < n)%nat -> ready True (toolhead_init n).
Proof.
  intros Hi. split; [| discriminate]. exists d_zero, d_zero. split; [split; [| split]|].
  - split; [reflexivity |]. split; [exact (conj nn_zero (conj nn_zero (conj nn_zero (conj nn_zero nn_zero)))) |].
    split; [split; [apply span_sds | constructor] |]. split; [exact Hi | by eexists].
  - unfold behind. cbn [toolhead_init last_kin_flush_time]. lia.
  - discriminate.
  - cbn [toolhead_init th_print_time last_kin_move_time]. lia.
Qed.
End Times.

(** ** Callbacks

    A callback registered while moves are queued is kept with the last move, and
    dropped with it: no command and no event calls it. *)
Section Callbacks.
Context {H : Host} (fuel : nat).

Lemma keeps_catch {A} name (m h : TH A) : keeps th_called m -> keeps th_called h -> keeps th_called (py_catch name m h).
Proof.
  intros Hm Hh s. unfold py_catch. specialize (Hm s). destruct (m s) as [[] s']; try exact Hm.
  destruct (decide _); [rewrite Hh; exact Hm | exact Hm].
Qed.

Lemma keeps_catch_all {A} (m h : TH A) : keeps th_called m -> keeps th_called h -> keeps th_called (py_catch_all m h).
Proof. intros Hm Hh s. unfold py_catch_all. specialize (Hm s). destruct (m s) as [[] s']; try exact Hm; rewrite Hh; exact Hm. Qed.

Ltac called := repeat first [progress keeps_tac | match goal with |- keeps _ (match ?x with _ => _ end) => destruct x end | apply keeps_catch].

Lemma run_generators_called n j t : keeps th_called (run_generators n j t).
Proof. revert j. induction n as [| n IH]; intros j; cbn [run_generators]; unfold log; called. Qed.
#[local] Hint Resolve run_generators_called : keeps.

Lemma run_flush_moves_called n j t : keeps th_called (run_flush_moves n j t).
Proof. revert j. induction n as [| n IH]; intros j; cbn [run_flush_moves]; unfold log; called. Qed.
#[local] Hint Resolve run_flush_moves_called : keeps.

Lemma move_time_loop_called n next d l : keeps th_called (move_time_loop n next d l).
Proof.
  induction n as [| n IH]; cbn [move_time_loop]; unfold finalize_moves, log; called.
Qed.
#[local] Hint Resolve move_time_loop_called : keeps.

Lemma update_move_time_called next : keeps th_called (update_move_time fuel next).
Proof. unfold update_move_time. called. Qed.
#[local] Hint Resolve update_move_time_called : keeps.

Lemma calc_print_time_called : keeps th_called calc_print_time.
Proof. unfold calc_print_time, read_clock, est_print_time. called. Qed.
#[local] Hint Resolve calc_print_time_called : keeps.

Lemma drip_loop_called n next d : keeps th_called (drip_loop fuel n next d).
Proof.
  induction n as [| n IH]; cbn [drip_loop]; unfold read_clock, est_print_time, drip_wait, handle_shutdown, queue_reset; called.
Qed.
#[local] Hint Resolve drip_loop_called : keeps.

Lemma process_moves_called n : keeps th_called (process_moves fuel n).
Proof.
  unfold process_moves, update_drip_move_time, log. called.
Qed.
#[local] Hint Resolve process_moves_called : keeps.

Lemma movequeue_flush_called lazy : keeps th_called (movequeue_flush fuel lazy).
Proof. unfold movequeue_flush, set_flush_time. called. Qed.
#[local] Hint Resolve movequeue_flush_called : keeps.

Lemma flush_called : keeps th_called (flush_step_generation fuel).
Proof. unfold flush_step_generation, set_flush_time. called. Qed.
#[local] Hint Resolve flush_called : keeps.

Lemma last_move_time_called : keeps th_called (get_last_move_time fuel).
Proof.
  unfold get_last_move_time, flush_lookahead. called.
Qed.
#[local] Hint Resolve last_move_time_called : keeps.

Lemma flush_handler_called t : keeps th_called (flush_handler fuel t).
Proof. apply keeps_catch_all; unfold est_print_time, handle_shutdown, queue_reset; called. Qed.
#[local] Hint Resolve flush_handler_called : keeps.

Lemma pause_events_called l : keeps th_called (run_pause_events fuel l).
Proof.
  induction l as [| [] l IH]; cbn [run_pause_events]; unfold check_flush_timer, handle_shutdown, queue_reset; called.
Qed.
#[local] Hint Resolve pause_events_called : keeps.

Lemma pause_called : keeps th_called (pause fuel).
Proof. unfold pause, read_clock. called. Qed.
#[local] Hint Resolve pause_called : keeps.

Lemma stall_loop_called n t : keeps th_called (stall_loop fuel n t).
Proof. revert t. induction n as [| n IH]; intros t; cbn [stall_loop]; unfold est_print_time; called. Qed.
#[local] Hint Resolve stall_loop_called : keeps.

Lemma check_stall_called : keeps th_called (check_stall fuel).
Proof. unfold check_stall, read_clock, est_print_time. called. Qed.
#[local] Hint Resolve check_stall_called : keeps.

Lemma move_called pos e speed : keeps th_called (toolhead_move fuel pos e speed).
Proof. unfold toolhead_move, movequeue_add. called. Qed.
#[local] Hint Resolve move_called : keeps.

Lemma dwell_called d : keeps th_called (dwell fuel d).
Proof. unfold dwell. called. Qed.
#[local] Hint Resolve dwell_called : keeps.

Lemma wait_loop_called n t : keeps th_called (wait_loop fuel n t).
Proof. revert t. induction n as [| n IH]; intros t; cbn [wait_loop]; unfold est_print_time; called. Qed.
#[local] Hint Resolve wait_loop_called : keeps.

Lemma lookahead_callbacks_dropped op : (forall cb, op <> OCallback cb) -> keeps th_called (run_op fuel op).
Proof.
  intros Hop. destruct op; cbn [run_op]; [apply move_called | apply dwell_called | | | | | apply flush_called | | | destruct (Hop cb eq_refl) | |].
  - unfold wait_moves, flush_lookahead, read_clock. called.
  - apply keeps_bind; [apply last_move_time_called | intros ?; apply keeps_ret].
  - unfold set_position, log. called.
  - unfold drip_move, set_flush_time, log, queue_reset. called.
  - unfold note_step_generation_scan_time. called.
  - unfold note_kinematic_activity. called.
  - unfold register_step_generator. called.
  - apply pause_events_called.
Qed.
End Callbacks.

(** C99: what the steppers rely on. Whatever commands are given and whatever
    happens during pauses, also when a drip move is aborted or a run is cut
    short: every generator is run to times that never go back; moves are
    appended only behind the time generated and behind the moves appended
    before; moves are released and commands sent to the micro-controllers only
    up to the time every generator has reached; and a position is set only when
    all moves have been generated. *)
Theorem toolhead_calls_in_order {H : Host} {HO : HostOk H} fuel n i ops :
  (i < n)%nat -> Forall op_valid ops -> is_Some (check_calls i (th_log (run_ops fuel ops (toolhead_init n)).2)).
Proof. intros Hi Hv. exact (run_ops_run fuel i ops _ Hv (init_ready i n Hi)). Qed.

(** ** Example: moves, a dwell, and a drip move that is aborted *)

Definition demo_data (m : nat) : move_data :=
  mk_move_data (mk_coord (d_of_Z (nth m [0; 1; 12; 12] 43)) d_zero d_zero) d_zero d_one d_zero (d_of_Z 10)
    (d_lit 1 10) (d_of_Z (Z.of_nat m mod 5)) (d_lit 1 10) (d_of_Z 100) true (mk_coord d_one d_zero d_zero) d_one (mk_coord d_one d_zero d_zero) (d_lit 1 10).

Definition demo_host : Host := {|
  monotonic n := d_of_Z (Z.of_nat n);
  estimated_print_time n _ := d_of_Z (Z.of_nat n / 4 mod 2 ^ 53);
  pause_events n := if (n mod 2 =? 0)%nat then [FlushTimer (d_of_Z (Z.of_nat n))] else [];
  drip_test n := (30 <? n)%nat;
  move_result _ _ _ m := if (m =? 2)%nat then -2 else 0;
  min_move_t _ := d_lit 1 10;
  move_queue_flush_cal q _ := length q;
  moveq_data q := demo_data <$> q;
  buffer_time_low := d_one; buffer_time_high := d_two; buffer_time_start := d_lit 1 4; move_flush_time := d_lit 1 20;
  mcus := 1;
  generator_error _ _ _ := false;
  mcu_error _ _ _ := false
|}.

Lemma demo_fin z : 0 <= z < 2 ^ 53 -> span (d_of_Z z).
Proof.
  intros Hz. pose proof (normalize_valid z 0 false) as Hv. change (binary_normalize 53 1024 z 0 false) with (d_of_Z z) in Hv.
  assert (H0 : dle d_zero (d_of_Z z) = true).
  { apply (normalize_ge z 0 false d_zero 0); [exact I | lia | lia |]. change (dval d_zero) with 0. lia. }
  assert (H1 : dle (d_of_Z z) (dpow 60) = true).
  { destruct (dpow_spec 60 ltac:(lia)) as [F E]. apply (normalize_le z 0 false (dpow 60) 0); [exact F | lia | lia |]. rewrite E.
    change (60 + 1074) with (60 + (0 + 1074 + 0)). rewrite (Z.pow_add_r 2 60) by lia. assert (2 ^ 53 <= 2 ^ 60) by lia. nia. }
  assert (Hf : dfin (d_of_Z z)) by (apply (dfin_between d_zero _ (dpow 60) Hv); [exact I | apply dpow_spec; lia | exact H0 | exact H1]).
  split; [exact Hf |]. apply dle_val in H0; [exact H0 | exact I | exact Hf].
Qed.

#[export] Instance demo_host_ok : HostOk demo_host.
Proof.
  split; try reflexivity.
  - intros n t. apply demo_fin, Z.mod_pos_bound. lia.
  - intros q. apply Forall_fmap, Forall_true. intros m. split; [apply span_nn; span_tac |]. split; [| apply span_nn; span_tac].
    apply span_nn, demo_fin. pose proof (Z.mod_pos_bound (Z.of_nat m) 5 ltac:(lia)). cbn. lia.
  - span_tac.
  - span_tac.
Qed.

Definition demo_ops : list th_op :=
  [OMove coord0 d_zero d_one; OMove coord0 d_one d_one; OMove coord0 d_one d_one; OCallback 7; ODwell d_half; OMove coord0 d_two d_one;
   OWaitMoves; OSetPosition (mk_coord (d_of_Z 43) d_zero d_zero) d_zero; OScanTime d_half d_zero; ODripMove coord0 d_one d_one; OEvent ShutdownEvent; OFlush].

Lemma toolhead_calls_in_order_witness :
  (@run_ops demo_host 1000 demo_ops (toolhead_init 2)).1 = Ok tt
  /\ existsb (fun c => match c with Discard => true | _ => false end) (th_log (@run_ops demo_host 1000 demo_ops (toolhead_init 2)).2) = true
  /\ is_Some (check_calls 1 (th_log (@run_ops demo_host 1000 demo_ops (toolhead_init 2)).2)).
Proof.
  split; [vm_compute; reflexivity |]. split; [vm_compute; reflexivity |].
  apply (@toolhead_calls_in_order demo_host demo_host_ok 1000 2 1 demo_ops); [lia |].
  repeat constructor; vm_compute; intuition congruence.
Defined.
