(* ===== verification/Motion.v ===== *)
(** * Motion: from the toolhead's calls to the searches of a stepper

    Joins [Toolhead], [Trapq] and [Itersolve]: a stepper follows the calls that
    the toolhead makes, and every moment of every move it is concerned with has
    been searched for steps before the move is released from the queue. *)

From Stdlib Require Import Ascii.
From S2P Require Import Prelude Double Rounding Toolhead Stepcompress Trapq Itersolve.

(** ** Searches that succeed

    [made_total gen] searches like [gen] and hides its failures; when a flush
    succeeds, it is the same flush. *)
Definition made_total (gen : nat -> move -> double -> double -> SV Z) (i : nat) (m : move) (a b : double) : SV Z :=
  fun s => (Ok 0, (gen i m a b s).2).

Section Total.
Context (gen : nat -> move -> double -> double -> SV Z).

Lemma truth_zero z : truth z = false -> z = 0.
Proof. unfold truth. destruct (Z.eqb_spec z 0); [done | discriminate]. Qed.

Lemma made_total_ok i m a b s z s' : gen i m a b s = (Ok z, s') -> truth z = false -> made_total gen i m a b s = (Ok 0, s').
Proof. intros E _. unfold made_total. by rewrite E. Qed.

(** A result that is not an error is passed on by a test for errors. *)
Lemma no_error (z : Z) (s : solver) (k : SV Z) s' : (if truth z then mret z else k) s = (Ok 0, s') -> truth z = false /\ k s = (Ok 0, s').
Proof. destruct (truth z) eqn:E; [| auto]. intros [= ->]. discriminate. Qed.

Lemma gen_between_total n pm a f s s' : gen_between gen n pm a f s = (Ok 0, s') -> gen_between (made_total gen) n pm a f s = (Ok 0, s').
Proof.
  revert pm s. induction n as [| n IH]; intros pm s; cbn [gen_between]; [auto |].
  intros (p & s1 & E1 & (z & s2 & E2 & [E3 E4]%no_error)%bind_inv)%bind_inv.
  rewrite (bind_ok _ _ _ _ _ E1), (bind_ok _ _ _ _ _ (made_total_ok _ _ _ _ _ _ _ E2 E3)). exact (IH _ _ E4).
Qed.

Lemma gen_leading_total i m k l f force s s' : gen_leading gen i m k l f force s = (Ok 0, s') ->
  gen_leading (made_total gen) i m k l f force s = (Ok 0, s').
Proof.
  unfold gen_leading. intros (pre & s1 & E1 & E2)%bind_inv. rewrite (bind_ok _ _ _ _ _ E1). destruct (_ && _); [| exact E2].
  cbv zeta in *. destruct i as [| pm]; [exact E2 |]. apply bind_inv in E2 as (pm' & s2 & E3 & E4). rewrite (bind_ok _ _ _ _ _ E3).
  exact (gen_between_total _ _ _ _ _ _ E4).
Qed.

Lemma gen_moves_total n i k l f force s s' : gen_moves gen n i k l f force s = (Ok 0, s') ->
  gen_moves (made_total gen) n i k l f force s = (Ok 0, s').
Proof.
  revert i k force s. induction n as [| n IH]; intros i k force s; cbn [gen_moves]; [auto |].
  intros (m & s1 & E1 & (sk & s2 & E2 & E3)%bind_inv)%bind_inv. rewrite (bind_ok _ _ _ _ _ E1), (bind_ok _ _ _ _ _ E2).
  destruct (check_active sk m).
  - apply bind_inv in E3 as (z & s3 & E3 & [Hz E4]%no_error). apply truth_zero in Hz as ->.
    rewrite (bind_ok _ _ _ _ _ (gen_leading_total _ _ _ _ _ _ _ _ E3)). change (truth 0) with false. cbv iota.
    apply bind_inv in E4 as (z & s4 & E4 & [Hz E5]%no_error). rewrite (bind_ok _ _ _ _ _ (made_total_ok _ _ _ _ _ _ _ E4 Hz)).
    change (truth 0) with false. cbv iota. destruct (dle f (move_end m)); [exact E5 |].
    apply bind_inv in E5 as (u & s5 & E5 & E6). rewrite (bind_ok _ _ _ _ _ E5). exact (IH _ _ _ _ E6).
  - apply bind_inv in E3 as ([z k'] & s3 & E3 & [Hz E4]%no_error). destruct (dlt (print_time m) force).
    + apply bind_inv in E3 as (z' & s4 & E3 & [= -> <- ->]). rewrite bind_assoc, (bind_ok _ _ _ _ _ (made_total_ok _ _ _ _ _ _ _ E3 Hz)), bind_ret.
      change (truth 0) with false. cbv iota. destruct (dle _ _); [exact E4 | exact (IH _ _ _ _ E4)].
    + injection E3 as <- <- <-. rewrite bind_ret. change (truth 0) with false. cbv iota. destruct (dle _ _); [exact E4 | exact (IH _ _ _ _ E4)].
Qed.

Lemma generate_total f s s' : generate_steps gen f s = (Ok 0, s') -> generate_steps (made_total gen) f s = (Ok 0, s').
Proof.
  unfold generate_steps. intros (l & s1 & E1 & (u & s2 & E2 & (h & s3 & E3 & E4)%bind_inv)%bind_inv)%bind_inv.
  rewrite (bind_ok _ _ _ _ _ E1), (bind_ok _ _ _ _ _ E2), (bind_ok _ _ _ _ _ E3). destruct (negb h); [exact E4 |].
  apply bind_inv in E4 as (u' & s4 & E4 & (n & s5 & E5 & (i & s6 & E6 & (sk & s7 & E7 & E8)%bind_inv)%bind_inv)%bind_inv).
  rewrite (bind_ok _ _ _ _ _ E4), (bind_ok _ _ _ _ _ E5), (bind_ok _ _ _ _ _ E6), (bind_ok _ _ _ _ _ E7).
  exact (gen_moves_total _ _ _ _ _ _ _ _ E8).
Qed.
End Total.

(** ** What the search leaves as it is *)

Section Frame.
Context {C : Type} (f : solver -> C).
Hypothesis (Hsc : forall s sc, f (s <| sv_sc := sc |>) = f s) (Hst : forall s g, f (s <| sv_steps ::= g |>) = f s).
Hypothesis (Hpos : forall s g, f (s <| sv_sk ::= fun sk => sk <| commanded_pos ::= g |> |>) = f s).

Lemma on_sc_keeps {A} (m : M stepcompress A) : keeps f (on_sc m).
Proof. intros s. unfold on_sc. destruct (m (sv_sc s)) as [r sc]. apply Hsc. Qed.

Lemma gen_loop_keeps fuel i m w e h sr : keeps f (gen_loop fuel i m w e h sr).
Proof.
  revert sr. induction fuel as [| fuel IH]; intros sr; cbn [gen_loop]; [apply keeps_lift |].
  destruct (next_guess e sr) as [[t sr1] |]; [| apply keeps_ret]. apply keeps_bind; [unfold calc_position, sk_get; keeps_tac | intros pos].
  destruct (evaluate h t pos sr1) as [[sr2 rel] close]. destruct (_ && _).
  - apply keeps_bind; [| intros ?; apply IH]. apply keeps_when, keeps_bind; [apply on_sc_keeps | intros ?; apply keeps_ret].
  - apply keeps_bind; [| intros ret; destruct (truth ret); [apply keeps_ret | apply IH]].
    unfold submit. apply keeps_bind; [| intros ?; apply on_sc_keeps]. apply keeps_modify. intros s. apply Hst.
Qed.

(** Behind the record of the range. *)
Lemma range_keeps fuel i m a b s :
  f (itersolve_gen_steps_range fuel i m a b s).2 = f (s <| sv_ranges ::= fun l => l ++ [(m, a, b)] |>).
Proof.
  unfold itersolve_gen_steps_range. rewrite bind_modify. set (s1 := s <| sv_ranges ::= _ |>).
  match goal with |- f (?m s1).2 = _ => enough (K : keeps f m) by exact (K s1) end.
  unfold sk_get, sk_set. apply keeps_bind; [apply keeps_gets | intros sk]. cbv zeta. destruct (window m a b) as [start end_].
  apply keeps_bind; [apply keeps_gets | intros dir]. apply keeps_bind; [apply gen_loop_keeps | intros [ret sr]].
  destruct (truth ret); [apply keeps_ret |]. apply keeps_bind; [apply keeps_modify; intros x; apply (Hpos x (fun _ => _)) | intros ?].
  apply keeps_bind; [| intros ?; apply keeps_ret]. apply keeps_modify. intros x. destruct (post_cb (sv_sk x)) as [g |] eqn:E.
  - transitivity (f (x <| sv_sk ::= fun sk => sk <| commanded_pos ::= g |> |>)); [f_equal; destruct x as [[? ? ? ? ? ? ? ? ? pcb] ? ? ? ?]; cbn in E; subst pcb; reflexivity | apply Hpos].
  - transitivity (f (x <| sv_sk ::= fun sk => sk <| commanded_pos ::= id |> |>)); [f_equal; destruct x as [[? ? ? ? ? ? ? ? ? pcb] ? ? ? ?]; cbn in E; subst pcb; reflexivity | apply Hpos].
Qed.
End Frame.

Lemma range_stable fuel sk0 tq flush i m a b s : stable sk0 tq flush s ->
  exists s', made_total (itersolve_gen_steps_range fuel) i m a b s = (Ok 0, s') /\ stable sk0 tq flush s' /\ sv_ranges s' = sv_ranges s ++ [(m, a, b)].
Proof.
  intros Hs. eexists. split; [reflexivity |]. split.
  - pose proof (range_keeps (fun s => (active_flags (sv_sk s), gen_steps_pre_active (sv_sk s), sv_tq s, has_tq (sv_sk s), last_flush_time (sv_sk s)))
      ltac:(done) ltac:(done) ltac:(done) fuel i m a b s) as E. cbn beta in E. injection E as E1 E2 E3 E4 E5.
    unfold stable. rewrite E1, E2, E3, E4, E5. exact Hs.
  - exact (range_keeps sv_ranges ltac:(done) ltac:(done) ltac:(done) fuel i m a b s).
Qed.

(** ** A stepper follows the calls *)

(** The moves that leave the queue. *)
Definition release (f : trapq -> trapq) : SV (list move) :=
  tq ← gets sv_tq;
  modify (fun s => s <| sv_tq := f tq |>) ;;
  mret (take (length (tq_moves tq) - length (tq_moves (f tq))) (tq_moves tq)).

(** A call, seen by the stepper of generator [i]: the moves released by it.  An
    error of the search is an exception; an aborted move is not released. *)
Definition follow (fuel i : nat) (c : call) : SV (list move) :=
  match c with
  | Generate j t =>
      if negb (j =? i)%nat then mret []
      else ret ← itersolve_generate_steps fuel t; if truth ret then shutdown "error" else mret []
  | AppendMoves t data n => modify (fun s => s <| sv_tq ::= fun tq => (trapq_append_from_moveq tq trapq_alloc t data n).1.1.1 |>) ;; mret []
  | FinalizeMoves t => release (fun tq => trapq_finalize_moves tq t)
  | SetPosition t pos => release (fun tq => trapq_set_position tq t pos)
  | Discard => modify (fun s => s <| sv_tq ::= fun tq => trapq_finalize_moves tq REACTOR_NEVER |>) ;; mret []
  | FlushMoves _ _ => mret []
  end.

Fixpoint follow_all (fuel i : nat) (l : list call) : SV (list move) :=
  match l with
  | [] => mret []
  | c :: l => r ← follow fuel i c; rs ← follow_all fuel i l; mret (r ++ rs)
  end.

(** Moves without direction (null moves and the first entry) end no later than
    the next move begins, and begin no earlier than the one before ends: the
    gap was computed without error. *)
Definition still (m : move) : bool :=
  deq (cx (axes_r m)) d_zero && deq (cy (axes_r m)) d_zero && deq (cz (axes_r m)) d_zero.

Fixpoint fits (prev : move) (ms : list move) : bool :=
  match ms with
  | [] => true
  | m :: ms => (negb (still prev || still m) || dle (move_end prev) (print_time m)) && fits m ms
  end.

Fixpoint gaps_fit (fuel i : nat) (l : list call) (s : solver) : bool :=
  match l with
  | [] => true
  | c :: l =>
      let s' := (follow fuel i c s).2 in
      match c with AppendMoves _ _ _ => fits (tq_head (sv_tq s')) (tq_moves (sv_tq s')) | _ => true end && gaps_fit fuel i l s'
  end.

(** Times are numbers below 2^50 seconds. *)
Definition below (x : double) : Prop := dfin x /\ 0 <= dval x <= 2 ^ 1124.

Definition call_bounded (c : call) : Prop :=
  match c with
  | Generate _ t | FinalizeMoves t => below t
  | AppendMoves t data n => below t /\ below (append_end t data n) /\ Forall data_ok data
  | _ => True
  end.

(** A moment of a move lies in a range that was searched. *)
Definition searched (ranges : list (move * double * double)) (m : move) (t : double) : Prop :=
  exists a b, (m, a, b) ∈ ranges /\ dle a t = true /\ dle t b = true.

(** Every moment of the move has been searched. *)
Definition wholly_searched (ranges : list (move * double * double)) (m : move) : Prop :=
  forall t, dfin t -> dle (print_time m) t = true -> dle t (move_end m) = true -> searched ranges m t.

(** ** The moves of an append *)

(** Equal but for the sign of zero. *)
Definition zeq (x y : double) : Prop := x = y \/ (exists s s', x = S754_zero s /\ y = S754_zero s').

Lemma zeq_ext x y : zeq x y -> dext x = dext y.
Proof. intros [-> | (s & s' & -> & ->)]; reflexivity. Qed.

Lemma zeq_trans x y z : zeq x y -> zeq y z -> zeq x z.
Proof.
  intros H1 [<- | (u & u' & E1 & E2)]; [exact H1 |]. destruct H1 as [-> | (s & s' & E3 & _)]; right; eauto.
Qed.

Lemma zeq_add x y d : zeq x y -> zeq (dadd x d) (dadd y d).
Proof. intros [-> | (s & s' & -> & ->)]; [by left |]. destruct d as [u | | |]; [right | by left..]. destruct s, s', u; cbn; eauto. Qed.

Lemma dadd_skip t z : nn z -> d_truth z = false -> zeq (dadd t z) t.
Proof.
  intros [Nz _] Hz. destruct z as [u | [] | | [] m e]; [| | destruct Nz as [[] | ?]; discriminate | | discriminate..].
  - destruct t as [s | | |]; [right | by left..]. destruct s, u; cbn; eauto.
  - destruct Nz as [[] | ?]; discriminate.
  - discriminate.
Qed.

(** [chain lo ms hi]: moves that follow one another, from [lo] to [hi]. *)
Fixpoint chain (lo : double) (ms : list move) (hi : double) : Prop :=
  match ms with
  | [] => dext lo <= dext hi
  | m :: ms => dext lo <= dext (print_time m) /\ nn (print_time m) /\ nn (move_t m) /\ chain (move_end m) ms hi
  end.

Lemma chain_from lo lo' ms hi : dext lo' <= dext lo -> chain lo ms hi -> chain lo' ms hi.
Proof. destruct ms as [| m ms]; cbn [chain]; [lia |]. intros H (H1 & H2). split; [lia | exact H2]. Qed.

Lemma chain_app lo ms mid ms' hi : chain lo ms mid -> chain mid ms' hi -> chain lo (ms ++ ms') hi.
Proof.
  revert lo. induction ms as [| m ms IH]; intros lo; cbn [chain app]; [apply chain_from |].
  intros (H1 & H2 & H3 & H4) H5. split_and!; auto.
Qed.

Lemma chain_end lo ms hi : chain lo ms hi -> dext lo <= dext hi.
Proof.
  revert lo. induction ms as [| m ms IH]; intros lo; cbn [chain]; [auto |]. intros (H1 & H2 & H3 & H4%IH).
  destruct (nn_add _ _ H2 H3) as [_ B]. unfold move_end in H4. lia.
Qed.

Lemma phases_chain t a c d start axes sv cv acc : nn t -> nn a -> nn c -> nn d ->
  chain t (phases t a c d start axes sv cv acc) (dadd (dadd (dadd t a) c) d).
Proof.
  intros Nt Na Nc Nd. unfold phases. cbv zeta.
  assert (Hone : forall x y, nn x -> nn y -> nn (dadd x y) /\ dext x <= dext (dadd x y)) by (intros; apply nn_add; assumption).
  destruct (d_truth a) eqn:Ta, (d_truth c) eqn:Tc, (d_truth d) eqn:Td; cbn [app chain print_time move_t move_end];
    repeat match goal with
    | H : d_truth a = false |- _ => pose proof (dadd_skip t a Na H); clear H
    | H : d_truth c = false |- _ => pose proof (dadd_skip (dadd t a) c Nc H); clear H
    | H : d_truth d = false |- _ => pose proof (dadd_skip (dadd (dadd t a) c) d Nd H); clear H
    end.
  all: destruct (Hone t a Nt Na) as [N1 B1], (Hone _ c N1 Nc) as [N2 B2], (Hone _ d N2 Nd) as [N3 B3].
  all: destruct (Hone t c Nt Nc) as [N4 B4], (Hone t d Nt Nd) as [N5 B5], (Hone _ d N4 Nd) as [N6 B6], (Hone _ d N1 Nd) as [N7 B7].
  all: unfold move_end; cbn [print_time move_t].
  all: repeat match goal with |- _ /\ _ => split end; try assumption; try lia.
  - pose proof (zeq_ext _ _ (zeq_add _ _ d H)). lia.
  - pose proof (zeq_ext _ _ (zeq_add _ _ d (zeq_add _ _ c H))). lia.
  - pose proof (zeq_ext _ _ (zeq_add _ _ c H)). lia.
  - pose proof (zeq_ext _ _ (zeq_add _ _ d (zeq_trans _ _ _ H0 H))). lia.
Qed.

(** The moves appended to the kinematic queue. *)
Fixpoint kin_phases (t : double) (i n : Z) (ds : list move_data) : list move :=
  match ds with
  | [] => []
  | d :: ds =>
      (if md_is_kinematic_move d
       then phases t (md_accel_t d) (md_cruise_t d) (md_decel_t d) (md_start_pos d) (md_axes_r d) (md_start_v d) (md_cruise_v d) (md_accel d)
       else [])
      ++ (if s32 (i + 1) =? n then [] else kin_phases (dadd (dadd (dadd t (md_accel_t d)) (md_cruise_t d)) (md_decel_t d)) (s32 (i + 1)) n ds)
  end.

Lemma append_kin kin ext t e i n ds : (append_moveq kin ext t e i n ds).1.1.1 = foldl trapq_add_move kin (kin_phases t i n ds).
Proof.
  revert kin ext t e i. induction ds as [| d ds IH]; intros kin ext t e i; [reflexivity |]. cbn [append_moveq kin_phases].
  assert (EK : append_kinematic kin t d = foldl trapq_add_move kin (if md_is_kinematic_move d
    then phases t (md_accel_t d) (md_cruise_t d) (md_decel_t d) (md_start_pos d) (md_axes_r d) (md_start_v d) (md_cruise_v d) (md_accel d) else [])).
  { unfold append_kinematic. destruct (md_is_kinematic_move d); [apply trapq_append_phases | reflexivity]. }
  rewrite foldl_app, <- EK. destruct (dne _ _), (s32 (i + 1) =? n); try reflexivity; apply IH.
Qed.

Lemma kin_phases_chain t i n ds ext e : nn t -> Forall data_ok ds ->
  chain t (kin_phases t i n ds) (append_moveq trapq_alloc ext t e i n ds).2.
Proof.
  revert t i ext e. induction ds as [| d ds IH]; intros t i ext e Nt Hds; [cbn; lia |].
  apply Forall_cons in Hds as [(Na & Nc & Nd) Hds]. cbn [kin_phases append_moveq].
  destruct (nn_add t _ Nt Na) as [N1 B1], (nn_add _ _ N1 Nc) as [N2 B2], (nn_add _ _ N2 Nd) as [N3 B3].
  eapply chain_app.
  - instantiate (1 := dadd (dadd (dadd t (md_accel_t d)) (md_cruise_t d)) (md_decel_t d)).
    destruct (md_is_kinematic_move d); [by apply phases_chain | cbn [chain]; lia].
  - destruct (dne _ _), (s32 (i + 1) =? n); try (cbn; lia);
      (rewrite (append_moveq_time _ _ trapq_alloc trapq_alloc _ _ d_zero); apply IH; assumption).
Qed.

(** ** Queues in order *)

Definition timed (m : move) : Prop := below (print_time m) /\ below (move_t m).

Lemma timed_end m : timed m -> dfin (move_end m) /\ dval (print_time m) <= dval (move_end m) /\ 0 <= dval (move_end m) <= 2 ^ 1125.
Proof.
  intros [[Fp Hp] [Ft Ht]]. destruct (dadd_bound 1124 (print_time m) (move_t m)) as (F & B1 & B2); [lia | assumption | assumption | lia | lia |].
  change (1124 + 1) with 1125 in B2. unfold move_end. split; [assumption |]. lia.
Qed.

Lemma below_nn x hi : nn x -> below hi -> dext x <= dext hi -> below x.
Proof.
  intros [[Fx | ->] Px] [Fh Hh] Hle; destruct (dext_fin hi Fh) as [Eh Bh]; rewrite Eh in Hle.
  - destruct (dext_fin x Fx) as [Ex _]. rewrite Ex in *. split; [assumption | lia].
  - cbn [dext] in Hle. lia.
Qed.

(** The moves of a chain up to [hi] are timed, and lie between its ends. *)
Lemma chain_timed lo ms hi : chain lo ms hi -> below hi ->
  Forall (fun m => timed m /\ dext lo <= dval (print_time m) /\ dval (move_end m) <= dval hi) ms.
Proof.
  intros Hc Hh. revert lo Hc. induction ms as [| m ms IH]; intros lo; cbn [chain]; [constructor |]. intros (H1 & H2 & H3 & H4).
  destruct (dadd_ext _ _ (proj1 H2) (proj1 H3) (proj2 H2) (proj2 H3)) as (N & B1 & B2). pose proof (chain_end _ _ _ H4) as HE.
  change (dadd (print_time m) (move_t m)) with (move_end m) in *.
  pose proof (below_nn _ hi H2 Hh ltac:(lia)) as P1. pose proof (below_nn _ hi H3 Hh ltac:(lia)) as P2.
  destruct H2 as [_ P2']. assert (Ne : nn (move_end m)) by (split; [exact N | lia]).
  pose proof (below_nn _ hi Ne Hh HE) as P3.
  rewrite (proj1 (dext_fin _ (proj1 P3))), (proj1 (dext_fin _ (proj1 Hh))) in HE. rewrite (proj1 (dext_fin _ (proj1 P1))) in H1, B1.
  constructor; [split; [split; assumption |]; split; [exact H1 | exact HE] |].
  eapply Forall_impl; [exact (IH _ H4) |]. cbn beta. intros x (Hx & Hx1 & Hx2). split; [exact Hx |]. split; [| exact Hx2].
  rewrite (proj1 (dext_fin _ (proj1 P3))) in *. lia.
Qed.

Lemma max_null_fin : dfin MAX_NULL_MOVE /\ 0 <= dval MAX_NULL_MOVE.
Proof. split; vm_compute; [intuition congruence | congruence]. Qed.

Lemma null_timed prev m : dfin (move_end prev) -> 0 <= dval (move_end prev) -> timed m -> dlt (move_end prev) (print_time m) = true ->
  timed (null_move prev m).
Proof.
  intros Fe He [[Fp Hp] _] Hlt. destruct max_null_fin as [Fm Hm]. apply dlt_val in Hlt; [| assumption | assumption].
  assert (HN : forall x, dfin x -> 0 <= dval x <= dval (print_time m) -> below x /\ below (dsub (print_time m) x)).
  { intros x Fx Hx. destruct (dsub_time (print_time m) x Fp Fx ltac:(lia) ltac:(lia)) as (F & B & P). split; (split; [assumption | lia]). }
  unfold null_move. cbv zeta. destruct (negb (d_truth (print_time prev)) && dlt MAX_NULL_MOVE (print_time m)) eqn:E.
  - apply andb_true_iff in E as [_ E]. apply dlt_val in E; [| assumption | assumption].
    destruct (dsub_time (print_time m) MAX_NULL_MOVE Fp Fm ltac:(lia) Hm) as (F & B & P).
    destruct (HN (dsub (print_time m) MAX_NULL_MOVE) F ltac:(lia)) as [H1 H2]. split; [exact H1 | exact H2].
  - destruct (HN (move_end prev) Fe ltac:(lia)) as [H1 H2]. split; [exact H1 | exact H2].
Qed.

Lemma null_still prev m : still (null_move prev m) = true.
Proof. unfold null_move. cbv zeta. by destruct (_ && _). Qed.

(** What [trapq_add_move] links is still, or one of the moves added. *)
Lemma fill_elem prev ms x : x ∈ fill prev ms -> still x = true \/ x ∈ ms.
Proof.
  revert prev. induction ms as [| m ms IH]; intros prev; cbn [fill]; [by intros ?%not_elem_of_nil |].
  intros [H | H]%elem_of_app.
  - destruct (dlt _ _); [| by apply not_elem_of_nil in H]. apply list_elem_of_singleton in H as ->. left. apply null_still.
  - apply elem_of_cons in H as [-> | H]; [right; by left |]. destruct (IH m H) as [? | ?]; [by left | right; by right].
Qed.

Lemma fill_timed prev ms : dfin (move_end prev) -> 0 <= dval (move_end prev) -> Forall timed ms -> Forall timed (fill prev ms).
Proof.
  revert prev. induction ms as [| m ms IH]; intros prev Fe He Hms; cbn [fill]; [constructor |]. apply Forall_cons in Hms as [Hm Hms].
  destruct (timed_end m Hm) as (F & B1 & B2). apply Forall_app. split.
  - destruct (dlt _ _) eqn:E; [constructor; [by apply null_timed | constructor] | constructor].
  - constructor; [exact Hm | apply IH; [exact F | lia | exact Hms]].
Qed.

(** [ordered prev ms]: every move ends before the next one begins. *)
Fixpoint ordered (prev : move) (ms : list move) : Prop :=
  match ms with
  | [] => True
  | m :: ms => dval (move_end prev) <= dval (print_time m) /\ ordered m ms
  end.

Lemma ordered_app prev ms ms' : ordered prev ms -> ordered (default prev (last ms)) ms' -> ordered prev (ms ++ ms').
Proof.
  revert prev. induction ms as [| m ms IH]; intros prev; [auto |]. cbn [ordered app]. intros [H1 H2] H3. split; [exact H1 |].
  apply IH; [exact H2 |]. destruct ms as [| m' ms]; [exact H3 |]. rewrite last_cons_cons in H3.
  destruct (last (m' :: ms)) eqn:EL; [exact H3 | by apply last_None in EL].
Qed.

Lemma fits_app prev ms ms' : fits prev (ms ++ ms') = true -> fits (default prev (last ms)) ms' = true.
Proof.
  revert prev. induction ms as [| m ms IH]; intros prev; [auto |]. cbn [fits app]. intros [_ H]%andb_true_iff. apply IH in H.
  destruct ms as [| m' ms]; [exact H |]. rewrite last_cons_cons.
  destruct (last (m' :: ms)) eqn:EL; [exact H | by apply last_None in EL].
Qed.

Lemma fill_ordered prev lo ms hi : fits prev (fill prev ms) = true -> chain lo ms hi -> Forall timed ms ->
  dfin (move_end prev) -> 0 <= dval (move_end prev) -> (still prev = false -> dval (move_end prev) <= dext lo) ->
  ordered prev (fill prev ms).
Proof.
  revert prev lo. induction ms as [| m ms IH]; intros prev lo Hf Hc Hms Fe He Hlo; cbn [fill]; [exact I |].
  apply Forall_cons in Hms as [Hm Hms]. destruct Hc as (C1 & _ & _ & C4). destruct (timed_end m Hm) as (F & B1 & B2).
  pose proof (proj1 (proj1 Hm)) as Fp. rewrite (proj1 (dext_fin _ Fp)) in C1. cbn [fill] in Hf.
  assert (Hrest : fits m (fill m ms) = true -> ordered m (fill m ms)).
  { intros H. apply (IH m (move_end m) H C4 Hms F); [lia |]. intros _. rewrite (proj1 (dext_fin _ F)). lia. }
  destruct (dlt (move_end prev) (print_time m)) eqn:E; cbn [app fits ordered] in *.
  - apply andb_true_iff in Hf as [H1 H2]. apply andb_true_iff in H2 as [H2 H3]. rewrite null_still, orb_true_r in H1. rewrite null_still in H2.
    cbn [negb orb] in H1, H2. pose proof (null_timed prev m Fe He Hm E) as HN. destruct (timed_end _ HN) as (FN & _).
    apply dle_val in H1; [| assumption | exact (proj1 (proj1 HN))]. apply dle_val in H2; [| assumption | assumption]. auto.
  - apply andb_true_iff in Hf as [H1 H2]. split; [| by apply Hrest]. destruct (still prev) eqn:S.
    + cbn [negb orb] in H1. by apply dle_val in H1.
    + specialize (Hlo eq_refl). lia.
Qed.

(** ** The invariant of a stepper that follows *)

Section Follow.
Context (fuel i : nat) (sk0 : stepper_kinematics).
Hypothesis (Hq0 : has_tq sk0 = true) (Hpre : below (gen_steps_pre_active sk0)).

Definition queue_ok (e : double) (tq : trapq) : Prop :=
  tail_wf tq /\ dtime (print_time (tq_tail tq)) /\ tq_head tq = tmove_alloc /\ Forall timed (tq_moves tq)
  /\ ordered (tq_head tq) (tq_moves tq) /\ Forall (fun m => still m = false -> dval (move_end m) <= dval e) (tq_moves tq).

(** A move that has begun has been searched up to [g]. *)
Definition owed (g : double) (ranges : list (move * double * double)) (m : move) : Prop :=
  check_active sk0 m = true -> dlt (print_time m) (move_end m) = true -> dval (print_time m) < dval g ->
  forall t, dfin t -> dle (print_time m) t = true -> dle t (move_end m) = true -> dval t <= dval g -> searched ranges m t.

Definition paid (ranges : list (move * double * double)) (m : move) : Prop :=
  check_active sk0 m = true -> dlt (print_time m) (move_end m) = true -> wholly_searched ranges m.

Definition following (g e : double) (s : solver) (R : list move) : Prop :=
  (active_flags (sv_sk s) = active_flags sk0 /\ gen_steps_pre_active (sv_sk s) = gen_steps_pre_active sk0
     /\ has_tq (sv_sk s) = true /\ last_flush_time (sv_sk s) = g)
  /\ below g /\ below e /\ queue_ok e (sv_tq s)
  /\ Forall (owed g (sv_ranges s)) (tq_moves (sv_tq s)) /\ Forall (paid (sv_ranges s)) R.

Lemma active_not_still m : check_active sk0 m = true -> still m = false.
Proof.
  unfold check_active, still, dne. destruct (deq (cx _) _), (deq (cy _) _), (deq (cz _) _); try reflexivity.
  by rewrite !andb_false_r.
Qed.

Lemma searched_more ranges l m t : searched ranges m t -> searched (ranges ++ l) m t.
Proof. intros (a & b & H & Ha & Hb). exists a, b. split; [| auto]. apply elem_of_app. by left. Qed.

Lemma paid_more ranges l m : paid ranges m -> paid (ranges ++ l) m.
Proof. intros H Ha Hl t Ft H1 H2. apply searched_more. by apply H. Qed.

Lemma below_time x : below x -> dtime x.
Proof. intros [F Hx]. split; [assumption |]. assert (2 ^ 1124 <= 2 ^ 1174) by (apply Z.pow_le_mono_r; lia). lia. Qed.

(** In an ordered list, a move begins behind the end of all before it. *)
Lemma ordered_before prev ms k a j b : Forall timed ms -> ordered prev ms -> (k < j)%nat ->
  (prev :: ms) !! k = Some a -> (prev :: ms) !! j = Some b -> dval (move_end a) <= dval (print_time b).
Proof.
  revert prev k a j. induction ms as [| m ms IH]; intros prev k a j Ht Ho Hkj Ha Hb.
  - destruct j as [| [| j]]; [lia | discriminate..].
  - apply Forall_cons in Ht as [Hm Ht]. destruct Ho as [Ho1 Ho2]. destruct j as [| j]; [lia |]. destruct k as [| k].
    + cbn in Ha. injection Ha as <-. destruct j as [| j]; [cbn in Hb; injection Hb as <-; exact Ho1 |].
      pose proof (IH m 0%nat m (S j) Ht Ho2 ltac:(lia) eq_refl Hb) as H. destruct (timed_end m Hm) as (_ & B & _). lia.
    + exact (IH m k a j Ht Ho2 ltac:(lia) Ha Hb).
Qed.

Lemma sentinels_moves tq : tq_moves (trapq_check_sentinels tq) = tq_moves tq /\ tq_head (trapq_check_sentinels tq) = tq_head tq.
Proof. unfold trapq_check_sentinels. destruct (d_truth _); [done |]. destruct tq as [? [| ? ?] ? ?]; done. Qed.

Lemma sentinels_tail_time e tq : queue_ok e tq -> dtime (print_time (tq_tail (trapq_check_sentinels tq))).
Proof.
  intros (_ & Ht & _ & Hm & _). unfold trapq_check_sentinels. destruct (d_truth _); [exact Ht |].
  destruct (tq_moves tq) as [| m ms] eqn:E; [exact never_fin |]. cbn.
  assert (HL : timed (last_node tq)).
  { unfold last_node. rewrite E. destruct (last (m :: ms)) as [x |] eqn:EL; [| by apply last_None in EL].
    apply last_Some_elem_of in EL. exact (proj1 (Forall_forall _ _) Hm x EL). }
  destruct (timed_end _ HL) as (F & _ & B). split; [exact F |]. assert (2 ^ 1125 <= 2 ^ 1174) by (apply Z.pow_le_mono_r; lia). lia.
Qed.

Lemma alloc_time : dtime (print_time tmove_alloc) /\ dtime (move_t tmove_alloc).
Proof. split; (split; [exact I | cbn; lia]). Qed.

Lemma nodes_times e tq : queue_ok e tq -> Forall (fun m => dtime (print_time m) /\ dtime (move_t m)) (nodes (trapq_check_sentinels tq)).
Proof.
  intros HQ. pose proof (sentinels_tail_time e tq HQ) as HT. destruct HQ as (Hw & _ & Hh & Hm & _). destruct (sentinels_moves tq) as [E1 E2].
  unfold nodes. rewrite E1, E2, Hh. constructor; [exact alloc_time |]. apply Forall_app. split.
  - eapply Forall_impl; [exact Hm |]. intros m [H1 H2]. split; by apply below_time.
  - constructor; [| constructor]. split; [exact HT |]. rewrite (proj1 (check_sentinels_tail _ Hw)). exact never_fin.
Qed.

Lemma never_big : 2 ^ 1126 < dval NEVER_TIME.
Proof. vm_compute. reflexivity. Qed.

(** The flush times lie before the sentinel's. *)
Lemma flush_limits g t : below g -> below t ->
  dlt g NEVER_TIME = true /\ dle (dadd t (gen_steps_pre_active sk0)) NEVER_TIME = true.
Proof.
  intros [Fg Hg] [Ft Ht]. destruct Hpre as [Fr Hr]. destruct never_fin as [Fn _]. pose proof never_big as HB.
  assert (2 ^ 1124 < 2 ^ 1126 /\ 2 ^ 1125 < 2 ^ 1126) by (split; reflexivity).
  destruct (dadd_bound 1124 t (gen_steps_pre_active sk0)) as (F & _ & _ & B); [lia | assumption | assumption | lia | lia |].
  change (1124 + 1) with 1125 in B. split; [apply dlt_val | apply dle_val]; (assumption || lia).
Qed.

(** *** The calls *)

Lemma nodes_lookup tq k : (k <= length (tq_moves tq))%nat -> nodes tq !! k = (tq_head tq :: tq_moves tq) !! k.
Proof. intros Hk. unfold nodes. rewrite app_comm_cons. apply lookup_app_l. cbn [length]. lia. Qed.

(** The moves a flush to [t] owes have been searched, or are searched by it. *)
Lemma owed_after g t ranges ranges' m :
  timed m -> below g -> below t -> owed g ranges m -> (forall x, x ∈ ranges -> x ∈ ranges') ->
  (check_active sk0 m = true -> dle (move_end m) g = false -> dval (print_time m) < dval t -> (m, g, t) ∈ ranges') ->
  owed t ranges' m.
Proof.
  intros Hm [Fg _] [Ft _] Ho Hin Hnew Ha Hlt Hpt x Fx H1 H2 H3. destruct (timed_end m Hm) as (Fe & _). destruct Hm as [[Fp _] _].
  pose proof Hlt as Hlt'. apply dlt_val in Hlt'; [| assumption | assumption].
  pose proof H1 as H1'. pose proof H2 as H2'. apply dle_val in H1'; [| assumption | assumption]. apply dle_val in H2'; [| assumption | assumption].
  destruct (decide (dval (print_time m) < dval g /\ dval x <= dval g)) as [[Hc1 Hc2] | Hn].
  - destruct (Ho Ha Hlt Hc1 x Fx H1 H2 Hc2) as (a & b & Hi & Hab). exists a, b. split; [by apply Hin | exact Hab].
  - exists g, t. split; [apply Hnew; [exact Ha | | exact Hpt] | split; apply dle_val; (assumption || lia)].
    apply not_true_iff_false. intros E. apply dle_val in E; [| assumption | assumption]. lia.
Qed.

Lemma follow_generate g e s R t s' :
  following g e s R -> below t -> dval g <= dval t -> itersolve_generate_steps fuel t s = (Ok 0, s') -> following t e s' R.
Proof.
  intros ((K1 & K2 & K3 & K4) & Bg & Be & HQ & HO & HP) Bt Hle E. unfold itersolve_generate_steps in E. apply generate_total in E.
  destruct (flush_limits g t Bg Bt) as [L1 L2].
  destruct (generate_covers (made_total (itersolve_gen_steps_range fuel)) t s) as (s2 & l & E2 & (S1 & S2 & S3 & S4 & S5) & Hr & Hc);
    [exact K3 | exact (proj1 HQ) | exact (nodes_times e _ HQ) | rewrite K4; by apply below_time | by apply below_time
     | rewrite K2; by apply below_time | rewrite K4; exact L1 | rewrite K2; exact L2 | intros; by apply range_stable |].
  rewrite E in E2. injection E2 as <-. destruct (sentinels_moves (sv_tq s)) as [EM EH].
  split; [rewrite S1, S2, S4, S5; auto |]. split; [exact Bt |]. split; [exact Be |]. rewrite Hr, S3, EM.
  pose proof HQ as (Hw & _ & Hh & Hm & Ho & He). split; [| split].
  - split; [by apply check_sentinels_tail |]. split; [exact (sentinels_tail_time e _ HQ) |]. rewrite EM, EH. auto.
  - apply Forall_forall. intros m Hin. pose proof (proj1 (Forall_forall _ _) Hm m Hin) as Tm.
    apply (owed_after g t (sv_ranges s)); [exact Tm | exact Bg | exact Bt | exact (proj1 (Forall_forall _ _) HO m Hin) | |].
    + intros x Hx. apply elem_of_app. by left.
    + intros Ha Hge Hpt. apply list_elem_of_lookup in Hin as [k Hk]. pose proof (lookup_lt_Some _ _ _ Hk) as Hkl.
      rewrite <- Hr, <- K4. apply (Hc (S k) m).
      * rewrite nodes_lookup, EM; [exact Hk | rewrite EM; lia].
      * unfold check_active in *. by rewrite K1.
      * rewrite K4. exact Hge.
      * intros k' m' Hk' Hm'. rewrite nodes_lookup, EM, EH in Hm' by (rewrite EM; lia).
        pose proof (ordered_before _ _ k' m' (S k) m Hm Ho Hk' Hm' Hk) as Hb.
        assert (Fm : dfin (move_end m')).
        { destruct k' as [| k']; [cbn in Hm'; injection Hm' as <-; rewrite Hh; exact I |].
          exact (proj1 (timed_end _ (proj1 (Forall_lookup _ _) Hm _ _ Hm'))). }
        apply dlt_val; [exact Fm | exact (proj1 Bt) | lia].
  - eapply Forall_impl; [exact HP |]. intros m. apply paid_more.
Qed.

Lemma add_moves_ends ms tq : tail_wf tq -> dtime (print_time (tq_tail tq)) ->
  let tq2 := foldl trapq_add_move tq ms in tail_wf tq2 /\ dtime (print_time (tq_tail tq2)) /\ tq_head tq2 = tq_head tq.
Proof.
  revert tq. induction ms as [| m ms IH]; intros tq W T; [auto |]. cbn [foldl].
  destruct (IH (trapq_add_move tq m) (add_move_tail tq m W)) as (W2 & T2 & H2).
  - unfold trapq_add_move. destruct (dlt _ _); (split; [exact I | cbn; lia]).
  - split; [exact W2 |]. split; [exact T2 |]. rewrite H2. unfold trapq_add_move. by destruct (dlt _ _).
Qed.

Lemma last_end e tq : tq_head tq = tmove_alloc -> Forall timed (tq_moves tq) ->
  Forall (fun m => still m = false -> dval (move_end m) <= dval e) (tq_moves tq) ->
  let m := last_node tq in dfin (move_end m) /\ 0 <= dval (move_end m) /\ (still m = false -> dval (move_end m) <= dval e).
Proof.
  intros Hh Hm He m. subst m. unfold last_node. destruct (last (tq_moves tq)) as [x |] eqn:EL; cbn [default from_option id].
  - apply last_Some_elem_of in EL. destruct (timed_end x (proj1 (Forall_forall _ _) Hm x EL)) as (F & _ & B). split; [exact F |]. split; [lia |].
    exact (proj1 (Forall_forall _ _) He x EL).
  - rewrite Hh. split; [exact I |]. split; [cbn; lia | discriminate].
Qed.

Lemma follow_append g e s R t data n :
  let tq' := (trapq_append_from_moveq (sv_tq s) trapq_alloc t data n).1.1.1 in
  following g e s R -> below t -> below (append_end t data n) -> Forall data_ok data -> dval g <= dval t -> dval e <= dval t ->
  fits (tq_head tq') (tq_moves tq') = true -> following g (append_end t data n) (s <| sv_tq := tq' |>) R.
Proof.
  intros tq' (HK & Bg & Be & (Hw & Htl & Hh & Hm & Ho & He) & HO & HP) Bt Bn Hd Hg Het Hf.
  assert (Nt : nn t) by (apply span_nn; split; [exact (proj1 Bt) | destruct Bt; lia]).
  pose proof (kin_phases_chain t 0 n data trapq_alloc no_extrusion Nt Hd) as HC.
  change (append_moveq trapq_alloc trapq_alloc t no_extrusion 0 n data).2 with (append_end t data n) in HC.
  assert (EQ : tq' = foldl trapq_add_move (sv_tq s) (kin_phases t 0 n data)) by apply append_kin.
  set (P := kin_phases t 0 n data) in *. destruct (add_moves_fill P (sv_tq s)) as [EM _]. rewrite <- EQ in EM.
  pose proof (chain_timed _ _ _ HC Bn) as HT. assert (HTP : Forall timed P) by (eapply Forall_impl; [exact HT | intros m [H _]; exact H]).
  destruct (add_moves_ends P (sv_tq s) Hw Htl) as (W & T & HH). rewrite <- EQ in W, T, HH.
  destruct (last_end e (sv_tq s) Hh Hm He) as (FL & PL & SL0).
  assert (SL : still (last_node (sv_tq s)) = false -> dval (move_end (last_node (sv_tq s))) <= dext t).
  { intros Hs. specialize (SL0 Hs). rewrite (proj1 (dext_fin t (proj1 Bt))). lia. }
  split; [exact HK |]. split; [exact Bg |]. split; [exact Bn |]. cbn [sv_tq sv_ranges upd upd_fun].
  rewrite HH, EM in Hf. pose proof (fits_app _ _ _ Hf) as Hf2. fold (last_node (sv_tq s)) in Hf2. split; [| split; [| exact HP]].
  - split; [exact W |]. split; [exact T |]. split; [rewrite HH; exact Hh |]. rewrite EM, HH. split; [| split].
    + apply Forall_app. split; [exact Hm | exact (fill_timed _ _ FL PL HTP)].
    + apply ordered_app; [exact Ho |]. exact (fill_ordered _ t P _ Hf2 HC HTP FL PL SL).
    + apply Forall_app. split.
      * eapply Forall_impl; [exact He |]. intros m Hm' Hs. specialize (Hm' Hs).
        destruct (append_end_later t data n Nt Hd) as [_ BL]. rewrite (proj1 (dext_fin t (proj1 Bt))), (proj1 (dext_fin _ (proj1 Bn))) in BL. lia.
      * apply Forall_forall. intros m Hin Hs. apply fill_elem in Hin as [Hin | Hin]; [congruence |]. exact (proj2 (proj2 (proj1 (Forall_forall _ _) HT m Hin))).
  - rewrite EM. apply Forall_app. split; [exact HO |]. apply Forall_forall. intros m Hin Ha Hlt Hpt. exfalso.
    apply fill_elem in Hin as [Hin | Hin]; [rewrite (active_not_still m Ha) in Hin; discriminate |].
    pose proof (proj1 (proj2 (proj1 (Forall_forall _ _) HT m Hin))) as Hlo. rewrite (proj1 (dext_fin t (proj1 Bt))) in Hlo. lia.
Qed.

(** Moves that have ended by the time generated are wholly searched. *)
Lemma owed_paid g ranges m : timed m -> below g -> owed g ranges m -> (check_active sk0 m = true -> dval (move_end m) <= dval g) -> paid ranges m.
Proof.
  intros Hm [Fg _] Ho He Ha Hlt t Ft H1 H2. specialize (He Ha). destruct (timed_end m Hm) as (Fe & _). destruct Hm as [[Fp _] _].
  pose proof Hlt as Hlt'. apply dlt_val in Hlt'; [| assumption | assumption]. pose proof H2 as H2'. apply dle_val in H2'; [| assumption | assumption].
  apply (Ho Ha Hlt); (assumption || lia).
Qed.

Lemma ordered_suffix tq l r : tq_moves tq = l ++ r -> tq_head tq = tmove_alloc -> Forall timed (tq_moves tq) ->
  ordered (tq_head tq) (tq_moves tq) -> ordered tmove_alloc r.
Proof.
  intros E Hh. rewrite E, Hh. clear E. revert r. induction l as [| m l IH] using rev_ind; intros r; [auto |].
  rewrite <- app_assoc. intros Hm Ho. specialize (IH _ Hm Ho). cbn [app] in IH. destruct r as [| x r]; [exact I |].
  destruct IH as [_ [_ H]]. apply Forall_app in Hm as [_ Hm]. inversion Hm as [| ? ? _ Hm2]. inversion Hm2 as [| ? ? [[_ Hx] _] _].
  split; [change (dval (move_end tmove_alloc)) with 0; lia | exact H].
Qed.

(** A part of the queue leaves: the rest is still in order. *)
Lemma follow_finalize g e s t :
  queue_ok e (sv_tq s) -> let tq' := trapq_finalize_moves (sv_tq s) t in
  exists gone, tq_moves (sv_tq s) = gone ++ tq_moves tq' /\ queue_ok e tq'
    /\ Forall (fun m => dlt t (move_end m) = false) gone
    /\ (forall m, head (tq_moves tq') = Some m -> dlt t (move_end m) = true)
    /\ forall ranges, Forall (owed g ranges) (tq_moves (sv_tq s)) -> Forall (owed g ranges) gone /\ Forall (owed g ranges) (tq_moves tq').
Proof.
  intros (Hw & Htl & Hh & Hm & Ho & He) tq'. destruct (trapq_finalize_spec (sv_tq s) t) as (gone & old & E & Hg & Hr & _). fold tq' in E, Hr.
  exists gone. split; [exact E |].
  assert (HH : tq_head tq' = tq_head (sv_tq s)) by (unfold tq', trapq_finalize_moves; destruct (expire_moves _ _ _) as [[| ? ?] [| ? ?]]; reflexivity).
  assert (HT : dtime (print_time (tq_tail tq'))).
  { unfold tq', trapq_finalize_moves. destruct (expire_moves _ _ _) as [[| ? ?] [| ? ?]]; cbn; (exact never_fin || exact Htl). }
  split; [| split; [exact Hg | split; [exact Hr |]]].
  - split; [by apply finalize_tail |]. split; [exact HT |]. rewrite HH. split; [exact Hh |].
    split; [rewrite E in Hm; by apply Forall_app in Hm as [_ Hm] |]. split; [rewrite Hh; exact (ordered_suffix _ _ _ E Hh Hm Ho) |].
    rewrite E in He. by apply Forall_app in He as [_ He].
  - intros ranges HO. rewrite E in HO. by apply Forall_app in HO.
Qed.

Lemma released_gone (gone rest : list move) : take (length (gone ++ rest) - length rest) (gone ++ rest) = gone.
Proof. rewrite length_app. replace (length gone + length rest - length rest)%nat with (length gone) by lia. apply take_app_length. Qed.

(** Everything ends before the sentinel. *)
Lemma finalize_never_empty e s : queue_ok e (sv_tq s) -> tq_moves (trapq_finalize_moves (sv_tq s) NEVER_TIME) = [].
Proof.
  intros HQ. destruct (follow_finalize d_zero e s NEVER_TIME HQ) as (gone & E & HQ' & _ & Hr & _).
  destruct (tq_moves (trapq_finalize_moves (sv_tq s) NEVER_TIME)) as [| m ms] eqn:EM; [reflexivity |]. exfalso.
  specialize (Hr m eq_refl). destruct HQ' as (_ & _ & _ & Hm & _). rewrite EM in Hm. apply Forall_cons in Hm as [Hm _].
  destruct (timed_end m Hm) as (F & _ & B). destruct never_fin as [Fn _]. apply dlt_val in Hr; [| assumption | assumption].
  pose proof never_big. assert (2 ^ 1125 < 2 ^ 1126) by reflexivity. lia.
Qed.

Lemma queue_empty e e' tq : queue_ok e tq -> tq_moves tq = [] -> queue_ok e' tq.
Proof. intros (Hw & Htl & Hh & _) E. unfold queue_ok. rewrite E. split_and!; auto using Forall_nil_2. exact I. Qed.

Lemma follow_release g e s R t e' : following g e s R -> below e' -> let tq' := trapq_finalize_moves (sv_tq s) t in
  (forall m, m ∈ tq_moves (sv_tq s) -> dlt t (move_end m) = false -> check_active sk0 m = true -> dval (move_end m) <= dval g) ->
  (tq_moves tq' = [] \/ e' = e) ->
  let r := take (length (tq_moves (sv_tq s)) - length (tq_moves tq')) (tq_moves (sv_tq s)) in
  queue_ok e' tq' /\ Forall (owed g (sv_ranges s)) (tq_moves tq') /\ Forall (paid (sv_ranges s)) (R ++ r).
Proof.
  intros (_ & Bg & _ & HQ & HO & HP) Be' tq' Hend Hem r. destruct (follow_finalize g e s t HQ) as (gone & E & HQ' & Hg & _ & Hsplit).
  fold tq' in E, HQ', Hsplit. destruct (Hsplit _ HO) as [HOg HOr]. assert (r = gone) as -> by (unfold r; rewrite E; apply released_gone).
  split; [| split; [exact HOr |]].
  - destruct Hem as [Hem | ->]; [exact (queue_empty e e' _ HQ' Hem) | exact HQ'].
  - apply Forall_app. split; [exact HP |]. apply Forall_forall. intros m Hin. destruct HQ as (_ & _ & _ & Hm & _).
    assert (Hin' : m ∈ tq_moves (sv_tq s)) by (rewrite E; apply elem_of_app; by left).
    apply (owed_paid g); [exact (proj1 (Forall_forall _ _) Hm m Hin') | exact Bg | exact (proj1 (Forall_forall _ _) HOg m Hin) |].
    apply Hend; [exact Hin' | exact (proj1 (Forall_forall _ _) Hg m Hin)].
Qed.

Lemma zero_below : below d_zero.
Proof. split; [exact I | cbn; lia]. Qed.

Lemma follow_one g e g' e' c s R r s' :
  following g e s R -> call_bounded c -> check_call i (Some (g, e)) c = Some (g', e') -> follow fuel i c s = (Ok r, s') ->
  match c with AppendMoves _ _ _ => fits (tq_head (sv_tq s')) (tq_moves (sv_tq s')) | _ => true end = true -> following g' e' s' (R ++ r).
Proof.
  intros HF HB HC HR Hfit. pose proof HF as (HK & Bg & Be & HQ & HO & HP).
  destruct c as [j t | t data n | t | j t | t pos |]; cbn [follow call_bounded] in *; cbn in HC.
  - destruct (j =? i)%nat eqn:Ej; cbn [negb] in *; [| injection HC as <- <-; injection HR as <- <-; by rewrite app_nil_r].
    destruct (dle g t) eqn:Eg; [| discriminate]. injection HC as <- <-. apply dle_val in Eg; [| exact (proj1 Bg) | exact (proj1 HB)].
    apply bind_inv in HR as (z & s1 & E1 & E2). destruct (truth z) eqn:Ez; [discriminate |]. injection E2 as <- <-. rewrite app_nil_r.
    apply truth_zero in Ez as ->. exact (follow_generate g e s R t s1 HF HB Eg E1).
  - destruct HB as (B1 & B2 & B3). destruct (dle g t) eqn:Eg; [| discriminate]. destruct (dle e t) eqn:Ee; [| discriminate]. cbn [andb] in HC.
    injection HC as <- <-. injection HR as <- <-. rewrite app_nil_r. apply dle_val in Eg; [| exact (proj1 Bg) | exact (proj1 B1)].
    apply dle_val in Ee; [| exact (proj1 Be) | exact (proj1 B1)]. exact (follow_append g e s R t data n HF B1 B2 B3 Eg Ee Hfit).
  - destruct (dle t g) eqn:Et; [| discriminate]. injection HC as <- <-. apply dle_val in Et; [| exact (proj1 HB) | exact (proj1 Bg)].
    injection HR as <- <-. destruct (follow_release g e s R t e HF Be) as (H1 & H2 & H3); [| by right | exact (conj HK (conj Bg (conj Be (conj H1 (conj H2 H3)))))].
    intros m Hin Hlt _. destruct HQ as (_ & _ & _ & Hm & _). destruct (timed_end m (proj1 (Forall_forall _ _) Hm m Hin)) as (F & _).
    apply not_true_iff_false in Hlt. destruct (decide (dval t < dval (move_end m))) as [Hl |]; [| lia].
    destruct Hlt. apply dlt_val; [exact (proj1 HB) | assumption | lia].
  - destruct (dle t g); [| discriminate]. injection HC as <- <-. injection HR as <- <-. by rewrite app_nil_r.
  - destruct (dle e g) eqn:Ee; [| discriminate]. injection HC as <- <-. apply dle_val in Ee; [| exact (proj1 Be) | exact (proj1 Bg)].
    injection HR as <- <-. destruct (follow_release g e s R NEVER_TIME d_zero HF zero_below) as (H1 & H2 & H3).
    + intros m Hin _ Ha. destruct HQ as (_ & _ & _ & _ & _ & He). pose proof (proj1 (Forall_forall _ _) He m Hin (active_not_still m Ha)). lia.
    + left. exact (finalize_never_empty e s HQ).
    + split; [exact HK |]. split; [exact Bg |]. split; [exact zero_below |]. split; [exact H1 |]. split; [exact H2 | exact H3].
  - injection HC as <- <-. injection HR as <- <-. rewrite app_nil_r. split; [exact HK |]. split; [exact Bg |]. split; [exact zero_below |].
    pose proof (finalize_never_empty e s HQ) as EM. destruct (follow_finalize g e s NEVER_TIME HQ) as (gone & _ & HQ' & _).
    cbn [sv_tq sv_ranges upd upd_fun]. change REACTOR_NEVER with NEVER_TIME. rewrite EM. split; [exact (queue_empty e _ _ HQ' EM) |].
    split; [constructor | exact HP].
Qed.

Lemma check_none l : foldl (check_call i) None l = None.
Proof. induction l as [| c l IH]; [reflexivity | exact IH]. Qed.

Lemma follow_all_run l g e s R rs s' :
  following g e s R -> Forall call_bounded l -> is_Some (foldl (check_call i) (Some (g, e)) l) -> gaps_fit fuel i l s = true ->
  follow_all fuel i l s = (Ok rs, s') -> exists g' e', following g' e' s' (R ++ rs).
Proof.
  revert g e s R rs. induction l as [| c l IH]; intros g e s R rs HF HB HC HG HR.
  - injection HR as <- <-. exists g, e. by rewrite app_nil_r.
  - apply Forall_cons in HB as [HB1 HB2]. cbn [foldl gaps_fit follow_all] in *. apply bind_inv in HR as (r & s1 & E1 & (rs1 & s2 & E2 & E3)%bind_inv).
    injection E3 as <- <-. destruct (check_call i (Some (g, e)) c) as [[g1 e1] |] eqn:Ec; [| rewrite check_none in HC; by destruct HC].
    rewrite E1 in HG. cbn [snd] in HG. apply andb_true_iff in HG as [HG1 HG2].
    pose proof (follow_one g e g1 e1 c s R r s1 HF HB1 Ec E1 HG1) as HF1. rewrite app_assoc. exact (IH g1 e1 s1 _ rs1 HF1 HB2 HC HG2 E2).
Qed.

(** A stepper at the start. *)
Definition fresh (s : solver) : Prop :=
  sv_sk s = sk0 /\ sv_tq s = trapq_alloc /\ last_flush_time sk0 = d_zero.

Lemma fresh_following s : fresh s -> following d_zero d_zero s [].
Proof.
  intros (Hs & Ht & Hl). split; [rewrite Hs; auto |]. split; [exact zero_below |]. split; [exact zero_below |]. rewrite Ht.
  split; [| split; constructor]. split; [exact alloc_tail |]. split; [exact never_fin |]. split; [reflexivity |]. cbn.
  split; [constructor |]. split; [exact I | constructor].
Qed.
End Follow.

(** C98: no motion is skipped. A stepper follows the calls that the toolhead
    makes, whatever the commands and events, with times below 2^50 seconds: every
    move of its axes that is released from the queue has, at every moment from
    its beginning to its end, been within a range that was searched for steps;
    unless the move was aborted, or a search failed, or a gap between moves was
    rounded past its end. *)
Theorem no_motion_skipped {H : Host} {HO : HostOk H} thfuel n i ops fuel s released s' :
  let calls := th_log (run_ops thfuel ops (toolhead_init n)).2 in
  (i < n)%nat -> Forall op_valid ops -> Forall call_bounded calls ->
  has_tq (sv_sk s) = true -> below (gen_steps_pre_active (sv_sk s)) -> fresh (sv_sk s) s ->
  gaps_fit fuel i calls s = true -> follow_all fuel i calls s = (Ok released, s') ->
  forall m, m ∈ released -> check_active (sv_sk s) m = true -> dlt (print_time m) (move_end m) = true ->
    wholly_searched (sv_ranges s') m.
Proof.
  intros calls Hi Hv Hb Hq Hpre Hf Hg HR m Hm Ha Hlt.
  pose proof (run_ops_run thfuel i ops _ Hv (init_ready i n Hi)) as HC.
  destruct (follow_all_run fuel i (sv_sk s) Hpre calls d_zero d_zero s [] released s' (fresh_following _ Hq s Hf) Hb HC Hg HR) as (g & e & HF).
  destruct HF as (_ & _ & _ & _ & _ & HP). exact (proj1 (Forall_forall _ _) HP m Hm Ha Hlt).
Qed.

(** ** Example: an X stepper follows the toolhead's example *)

Definition demo_stepper : solver :=
  mk_solver ((cartesian_stepper_alloc "x"%char) <| step_dist := d_one |> <| has_tq := true |>)
    (stepcompress_set_time d_zero (d_of_Z 1000000) (stepcompress_alloc 3)).2 trapq_alloc [] [].

Abbreviation demo_calls := (th_log (@run_ops demo_host 1000 demo_ops (toolhead_init 2)).2).

Definition demo_calls_val : list call := Eval vm_compute in demo_calls.

Lemma demo_calls_eq : demo_calls = demo_calls_val.
Proof. vm_compute. reflexivity. Qed.

Ltac below_tac := split; [vm_compute; intuition congruence | split; vm_compute; congruence].
Ltac nn_tac := split; [left; vm_compute; intuition congruence | vm_compute; congruence].

Lemma demo_bounded : Forall call_bounded demo_calls.
Proof.
  rewrite demo_calls_eq. unfold demo_calls_val.
  repeat (apply Forall_cons_2; [first [exact I | below_tac | split; [below_tac | split; [below_tac |]]; repeat (apply Forall_cons_2; [split; [nn_tac | split; nn_tac] |]); apply Forall_nil_2] |]).
  apply Forall_nil_2.
Qed.

Definition demo_released : list move :=
  Eval vm_compute in match (follow_all 2000 1 demo_calls demo_stepper).1 with Ok l => l | _ => [] end.

Lemma demo_followed : (follow_all 2000 1 demo_calls demo_stepper).1 = Ok demo_released.
Proof. vm_compute. reflexivity. Qed.

Lemma demo_gaps : gaps_fit 2000 1 demo_calls demo_stepper = true.
Proof. vm_compute. reflexivity. Qed.

Lemma motion_run : follow_all 2000 1 demo_calls demo_stepper = (Ok demo_released, (follow_all 2000 1 demo_calls demo_stepper).2).
Proof. rewrite <- demo_followed. apply surjective_pairing. Qed.

Lemma no_motion_skipped_witness :
  length demo_released = 10%nat /\ length (filter (fun m => check_active (sv_sk demo_stepper) m = true) demo_released) = 8%nat
  /\ forall m, m ∈ demo_released -> check_active (sv_sk demo_stepper) m = true -> dlt (print_time m) (move_end m) = true ->
       wholly_searched (sv_ranges (follow_all 2000 1 demo_calls demo_stepper).2) m.
Proof.
  split; [reflexivity |]. split; [vm_compute; reflexivity |].
  refine (@no_motion_skipped demo_host demo_host_ok 1000 2 1 demo_ops 2000 demo_stepper demo_released _
    _ _ demo_bounded eq_refl zero_below (conj eq_refl (conj eq_refl eq_refl)) demo_gaps motion_run); [lia |].
  repeat constructor; vm_compute; intuition congruence.
Defined.
